(* ===== verification/_CoqProject ===== *)
-Q . S2P
Prelude.v
Endian.v
ByteArray.v
ByteCodec.v
Stream.v
Zlib.v
Protocol.v
Rock.v
Lru.v
TimerManager.v
FdManager.v
HashUtil.v
Fiber.v
Scheduler.v
SingleWorker.v
IOManager.v
Hook.v
HookWaits.v
WebSocket.v
Http.v
HttpServer.v
Address.v
Ragel.v
UriMachine.v
Uri.v
Http11Machine.v
HttpClientMachine.v
Http11.v
Http11Requests.v
Http11Grammar.v
HttpClientParser.v
HttpClient.v
HttpClientTotal.v
HttpResponses.v
HttpChunks.v
HttpPool.v
Semaphore.v
LoadBalance.v
AsyncStream.v
AsyncRequests.v
AsyncQueue.v
