(* ===== verification/Prelude.v ===== *)
(** * cxk: a verification development for the C++ server framework

    cxk (under [cxk/]) is a fiber-based network framework: byte buffers and
    codecs at the bottom, streams over sockets, message protocols on them, and
    a scheduler of fibers with timers and epoll under everything.  Each file
    models the classes named below, one definition per method or per loop, with
    the names of the source (a class prefix is added where two methods share
    one).

    ** How the code is read

    - A call has an [outcome]: a value, a C++ exception, [Crash] for undefined
      behaviour, a null access or a failed [CXK_ASSERT], and [NoFuel], which no
      program shows: it marks a loop cut off by its fuel, and the theorems
      about a loop show that it is not the result.
    - A method that changes its object is a computation [M St A]: state in,
      outcome and state out; what was written before an exception stays.
    - Integers are [Z] with their width written out ([wrapu], [wraps], [u32],
      [i32], ...); signed overflow is [Crash] where the code can reach it
      ([chk_signed]). A byte is a [Z] in [0, 256), and a string a list of them.
    - Pointers are positions in a store (the blocks of a [ByteArray], the
      timers, the fibers, the descriptor contexts), so that sharing is visible.
    - A method under one lock is one step. Where the code gives the lock up in
      the middle, the step is cut there and the steps of others come between:
      [IOManager] cuts [addEvent] between the search of the vector, its growth
      and the work on the context ([io_section]), and [Hook] its callers with it.
      Where an object is used under two locks ([m_queue] of [AsyncStream]), an
      access is cut at its beginning and its end, the locks are part of the
      state, and an overlap is a [Crash]. An access to a field outside the locks
      is one step.
    - A virtual interface of the code, or a library it calls, is a type class
      or a section variable with the laws the code relies on, and the laws are
      shown to hold of an instance.

    ** The files

    - [Prelude]: outcomes, the state monad, machine integers, sequences,
      decimal and hexadecimal text, lexicographic comparison.
    - [Endian] (endian.h): byte swapping.
    - [ByteArray] (bytearray.cpp): the chain of blocks; writing and reading raw
      bytes, positions, buffers for readv and writev, files. The abstract value
      is the byte list [contents]: theorems state what each operation does to
      it and exactly when [write] runs off the chain.
    - [ByteCodec] (bytearray.cpp): fixed-width and variable-length integers,
      floats and strings over a ByteArray; each writer and reader agree.
    - [Stream] (stream.cpp, socket_stream.cpp, socket.cpp): the interface
      [Stream] with its laws [StreamSpec]; [readFixSize] and [writeFixSize];
      the socket stream over a kernel as an instance.
    - [Zlib] (zlib_stream.cpp): the compression stream; zlib is a parameter.
    - [Protocol] (protocol.cpp, rock_protocol.cpp): requests, responses and
      notifications. [Rock] (rock_protocol.cpp): the framing decoder of both
      directions, with compression; built on Stream, Zlib, ByteArray.
    - [WebSocket] (ws_session.cpp): frames, masks, fragmentation, ping.
    - [Http] (http.cpp, http.h): messages, their case-insensitive maps and
      their printed form. [HttpServer] (http_parser.cpp, http_session.cpp,
      servlet.cpp, http_server.cpp): reading a request over a stream, finding
      its servlet, answering. What reads a request out of bytes is the class
      [Machine], with the laws the session relies on.
    - [Ragel]: programs as Ragel generates them - a state, an input byte, the
      actions and the next state - as tables; regular expressions and their
      partial derivatives; a bisimulation check, run by the kernel, that a table
      accepts the words of an expression, and a check that a table takes a chain
      of annotated expressions from a state to another.
    - [UriMachine] (uri.rl.cpp) and [Uri] (uri.cpp, uri.rl): the table and the
      functions over it. [Http11Machine] (http11_parser.rl.cpp), [Http11]
      (http11_parser.rl.cpp, http_parser.cpp): the request parser, which is an
      instance of [Machine]; [Http11Requests] and [Http11Grammar] hold what is
      proved of it.
    - [HttpClientMachine] (httpclient_parser.rl.cpp), [HttpClientParser]
      (httpclient_parser.rl.cpp, http_parser.cpp): the response parser over the
      memory it is given. [HttpClient] (http_connection.cpp): reading a response,
      plain or chunked, and making a request. [HttpClientTotal], [HttpResponses]
      and [HttpChunks] hold what is proved of them. [HttpPool]
      (http_connection.cpp): the pool of connections as steps of its threads.
    - [Address] (address.cpp): masks, text and order of socket addresses.
    - [Lru] (lru_cache.h): the cache refines a finite map with an order of use.
    - [TimerManager] (timer.cpp): the store of timers and their ordered set.
    - [Fiber] (fiber.cpp), [Scheduler] (scheduler.cpp), [SingleWorker]: fibers,
      the worker loop as steps between lock and swap points, and the safety of
      a scheduler with one worker; with two workers a race is shown.
    - [IOManager] (iomanager.cpp): descriptor contexts, events, the idle loop,
      as calls of any number of threads, section by section; epoll is a
      parameter.
    - [FdManager] (fd_manager.cpp, hook.cpp): contexts of descriptors, and the
      hooked calls that change a descriptor's mode, over the system calls.
    - [Hook] (hook.cpp): hooked reads, writes, connects and closes as calls with
      a program counter over FdManager and IOManager, interleaved with timers,
      callbacks and epoll; [HookWaits] holds what is proved of them.
    - [Semaphore] (mutex.cpp): the fiber semaphore.
    - [LoadBalance] (load_balance.cpp): choice of an item, ring of statistics.
    - [AsyncStream] (async_socket_stream.cpp, rock_stream.cpp): a stream with its
      reading and its writing fiber, the fibers that make requests and their
      timers, as threads of atomic regions. [AsyncRequests] and [AsyncQueue]
      hold what is proved of the requests and of the send queue.
    - [HashUtil] (hash_util.cpp): hashes, base64, hexadecimal, split, replace.

    ** What the theorems show

    Codecs and protocols: what is written reads back ([write_read_roundtrip],
    [varint_agree], [rock_roundtrip], [message_roundtrip], [ws_roundtrip],
    [http_dump], [base64_roundtrip], [ipv6_text]), and input that is not well
    formed ends in an error and not in a hang ([ws_receive_total],
    [recvRequest_total], [recv_message_total], [rock_rejects]).  The generated
    parsers are checked against the grammars they were made from: they accept
    the same words ([uri_grammar], [http11_grammar]), and what this program
    prints they read back ([uri_roundtrip], [request_received],
    [response_received]), a chunked body put together from its chunks
    ([chunked_received]).  Containers refine an abstract value
    ([write_stores], [lru_refines], [http_maps], [stats_window]).  The
    schedulers keep their invariants over any sequence of steps
    ([single_worker_safe], [counters_correct], [iomanager_safe], with what
    each section of its calls does in [event_operations], [timers_safe],
    [semaphore_fair]); a request wakes its fiber at most once and is never
    forgotten ([requests_wake_once], [requests_not_lost]); the fiber of a hooked
    call waits in one place and is resumed once, its timeout is accounted for,
    and the call sees neither EAGAIN nor EINTR ([hooked_calls_wake_once],
    [hooked_timeout_kept], [hooked_io_result], [sockets_nonblocking]); a pooled
    connection is in one place at a time ([pool_exclusive]).  Where the code
    falls short, a theorem says exactly when ([uri_empty_port],
    [dirty_error_refused], [pool_never_expires], [write_crash_iff],
    [two_workers_race], [listExpiredCb_race], [ipv4_masks],
    [enqueue_loses_message], [stream_fails_only], [growing_loses_contexts],
    [only_double_waits_crash], [timeout_lost]), or a computed run shows it
    ([request_cut], [response_cut]).

    ** Fuel

    A loop over a finite object takes its size as fuel. A loop over a stream
    takes fuel as an argument, and the theorems hold of any fuel above the
    number of bytes the peer sends ([ws_receive_total], [recvRequest_total]) or
    above the requested size ([readFixSize_exact]). The loop of the cache's
    [prune] takes the number of its entries. [recv_message] reads with fuel above
    the size of the buffer and the bytes of the peer ([recv_message_total]), a
    chunked body with fuel above its size and the number of its chunks
    ([chunked_received]). The searches for a bisimulation and for the end of a
    chain take 10000 steps ([uri_fuel], [http11_fuel]); that they end within is
    part of what the kernel computes.

    ** Not modelled

    The wrappers of MySQL, SQLite, Redis, OpenSSL, yaml-cpp and jsoncpp, dlopen
    modules, process start-up, the configuration, the server loops that only
    accept and dispatch, and the logger: they have no logic of their own or none
    that can be read here. Resolving a host name, making and connecting a socket
    and its time-outs are an interface of the HTTP client ([Net]). Memory
    allocation does not fail and log lines are left out. *)

From stdpp Require Export base list list_numbers numbers gmap strings option.
From Stdlib Require Export ZArith Lia.

#[global] Open Scope Z_scope.

(** ** Outcomes of C++ code

    A call returns a value, throws a C++ exception, or runs into something the
    language does not define or the process does not survive (a null or
    out-of-bounds access, a signed overflow, a failed [CXK_ASSERT], a division
    by zero): [Crash].  [NoFuel] is no behaviour of the code: it marks a loop
    cut off by the fuel of its Rocq definition, and theorems about a loop show
    that it is never the result. *)
Inductive exn : Type :=
| OutOfRange        (* std::out_of_range *)
| InvalidArgument   (* std::invalid_argument *)
| LogicError        (* std::logic_error *)
| LengthError.      (* std::length_error of std::string::resize *)

Inductive outcome (A : Type) : Type :=
| Ret (a : A)
| Throw (e : exn)
| Crash
| NoFuel.
Arguments Ret {A} a.
Arguments Throw {A} e.
Arguments Crash {A}.
Arguments NoFuel {A}.

#[export] Instance exn_eq_dec : EqDecision exn.
Proof. solve_decision. Defined.
#[export] Instance outcome_eq_dec `{EqDecision A} : EqDecision (outcome A).
Proof. solve_decision. Defined.

#[export] Instance outcome_ret : MRet outcome := fun A a => Ret a.
#[export] Instance outcome_bind : MBind outcome := fun A B f m =>
  match m with
  | Ret a => f a
  | Throw e => Throw e
  | Crash => Crash
  | NoFuel => NoFuel
  end.

(** Stateful code: the state is kept when an exception is thrown, as C++ keeps
    what the callee had already written. *)
Definition M (S A : Type) : Type := S -> outcome A * S.

#[export] Instance M_ret {S} : MRet (M S) := fun A a s => (Ret a, s).
#[export] Instance M_bind {S} : MBind (M S) := fun A B f m s =>
  match m s with
  | (Ret a, s') => f a s'
  | (Throw e, s') => (Throw e, s')
  | (Crash, s') => (Crash, s')
  | (NoFuel, s') => (NoFuel, s')
  end.

Section Monad.
Context {S : Type}.

Definition lift {A} (o : outcome A) : M S A := fun s => (o, s).
Definition throw {A} (e : exn) : M S A := fun s => (Throw e, s).
Definition crash {A} : M S A := fun s => (Crash, s).
Definition nofuel {A} : M S A := fun s => (NoFuel, s).
Definition get : M S S := fun s => (Ret s, s).
Definition gets {A} (f : S -> A) : M S A := fun s => (Ret (f s), s).
Definition modify (f : S -> S) : M S unit := fun s => (Ret tt, f s).

(** [try m catch (...)]: every exception is caught, undefined behaviour is
    not. *)
Definition catch_all {A} (m : M S A) (h : M S A) : M S A := fun s =>
  match m s with
  | (Throw _, s') => h s'
  | r => r
  end.

Lemma bind_Ret {A B} (m : M S A) (f : A -> M S B) s a s' :
  m s = (Ret a, s') -> (m ≫= f) s = f a s'.
Proof. intros H. unfold mbind, M_bind. by rewrite H. Qed.
Lemma bind_Throw {A B} (m : M S A) (f : A -> M S B) s e s' :
  m s = (Throw e, s') -> (m ≫= f) s = (Throw e, s').
Proof. intros H. unfold mbind, M_bind. by rewrite H. Qed.
Lemma bind_Crash {A B} (m : M S A) (f : A -> M S B) s s' :
  m s = (Crash, s') -> (m ≫= f) s = (Crash, s').
Proof. intros H. unfold mbind, M_bind. by rewrite H. Qed.
Lemma bind_modify {B} (f : S -> S) (k : unit -> M S B) s : (modify f ≫= k) s = k tt (f s).
Proof. done. Qed.
Lemma bind_get {B} (k : S -> M S B) s : (get ≫= k) s = k s s.
Proof. done. Qed.
Lemma bind_gets {A B} (f : S -> A) (k : A -> M S B) s : (gets f ≫= k) s = k (f s) s.
Proof. done. Qed.
End Monad.

(** [msimpl] runs the actions whose result is a constructor; [mstep H] runs the
    first action of a bind with its known result [H]. *)
Ltac mstep H :=
  first [ rewrite (bind_Ret _ _ _ _ _ H)
        | rewrite (bind_Throw _ _ _ _ _ H)
        | rewrite (bind_Crash _ _ _ _ H) ].
Ltac msimpl :=
  cbv beta iota delta [mbind mret M_bind M_ret outcome_bind outcome_ret get gets lift throw crash
    nofuel modify].

(** ** Machine integers

    A [w]-bit unsigned integer is a [Z] in [0, 2^w); a signed one a [Z] in
    [-2^(w-1), 2^(w-1)).  Conversions wrap; signed arithmetic that leaves the
    range is undefined ([chk_signed]). *)
Definition wrapu (w z : Z) : Z := z mod 2 ^ w.
Definition wraps (w z : Z) : Z := (z + 2 ^ (w - 1)) mod 2 ^ w - 2 ^ (w - 1).
Definition in_unsigned (w z : Z) : bool := (0 <=? z) && (z <? 2 ^ w).
Definition in_signed (w z : Z) : bool := (- 2 ^ (w - 1) <=? z) && (z <? 2 ^ (w - 1)).
Definition chk_signed (w z : Z) : outcome Z := if in_signed w z then Ret z else Crash.

Definition u8 : Z -> Z := wrapu 8.
Definition u16 : Z -> Z := wrapu 16.
Definition u32 : Z -> Z := wrapu 32.
Definition u64 : Z -> Z := wrapu 64.
Definition i32 : Z -> Z := wraps 32.
Definition i64 : Z -> Z := wraps 64.
Definition byte_ok (b : Z) : Prop := 0 <= b < 256.

Create HintDb cxk discriminated.
Create Rewrite HintDb cxk.

(** Linear arithmetic with the equations of division and modulo. *)
Ltac zdiv_lia := Z.div_mod_to_equations; lia.
Ltac bool_lia :=
  unfold in_unsigned, in_signed in *;
  rewrite ?andb_true_iff, ?andb_false_iff, ?Z.leb_le, ?Z.ltb_lt, ?Z.leb_gt, ?Z.ltb_ge in *;
  lia.
(** Splits on a comparison in the goal and discharges the impossible side. *)
Ltac zcase :=
  match goal with
  | |- context [?a <=? ?b] => destruct (Z.leb_spec a b)
  | |- context [?a <? ?b] => destruct (Z.ltb_spec a b)
  | |- context [?a =? ?b] => destruct (Z.eqb_spec a b)
  end; try (exfalso; lia).

Lemma wrapu_range w z : 0 <= w -> 0 <= wrapu w z < 2 ^ w.
Proof. intros. unfold wrapu. apply Z.mod_pos_bound. lia. Qed.
Lemma wrapu_id w z : 0 <= z < 2 ^ w -> wrapu w z = z.
Proof. intros. unfold wrapu. by apply Z.mod_small. Qed.
Lemma wraps_range w z : 0 < w -> - 2 ^ (w - 1) <= wraps w z < 2 ^ (w - 1).
Proof.
  intros. unfold wraps.
  pose proof (Z.mod_pos_bound (z + 2 ^ (w - 1)) (2 ^ w) ltac:(lia)).
  replace (2 ^ w) with (2 * 2 ^ (w - 1)) in * by (rewrite <- Z.pow_succ_r by lia; f_equal; lia).
  lia.
Qed.
Lemma wraps_id w z : 0 < w -> - 2 ^ (w - 1) <= z < 2 ^ (w - 1) -> wraps w z = z.
Proof.
  intros. unfold wraps. rewrite Z.mod_small; [lia|].
  replace (2 ^ w) with (2 * 2 ^ (w - 1)) by (rewrite <- Z.pow_succ_r by lia; f_equal; lia).
  lia.
Qed.
Lemma wraps_wrapu w z : 0 < w -> wraps w (wrapu w z) = wraps w z.
Proof. intros. unfold wraps, wrapu. by rewrite Zplus_mod_idemp_l. Qed.
Lemma chk_signed_Ret w v : - 2 ^ (w - 1) <= v < 2 ^ (w - 1) -> chk_signed w v = Ret v.
Proof.
  intros. unfold chk_signed. destruct (in_signed w v) eqn:E; [done|]. bool_lia.
Qed.
Lemma chk_signed_Crash w v : ~ (- 2 ^ (w - 1) <= v < 2 ^ (w - 1)) -> chk_signed w v = Crash.
Proof.
  intros. unfold chk_signed. destruct (in_signed w v) eqn:E; [|done]. bool_lia.
Qed.
Lemma u8_byte z : byte_ok (u8 z).
Proof. apply (wrapu_range 8); lia. Qed.
#[export] Hint Resolve u8_byte : cxk.

(** ** Integers as little-endian byte lists ([memcpy] of an integer on the
    little-endian host) *)
Fixpoint le_split (n : nat) (z : Z) : list Z :=
  match n with
  | O => []
  | S n' => z mod 256 :: le_split n' (z / 256)
  end.
Fixpoint le_combine (l : list Z) : Z :=
  match l with
  | [] => 0
  | b :: l' => b + 256 * le_combine l'
  end.

Lemma length_le_split n z : length (le_split n z) = n.
Proof. revert z. induction n; intros; simpl; auto. Qed.
Lemma le_split_bytes n z : Forall byte_ok (le_split n z).
Proof.
  revert z. induction n; intros z; simpl; constructor; auto.
  unfold byte_ok. apply Z.mod_pos_bound. lia.
Qed.
Lemma pow256_S n : 2 ^ (8 * Z.of_nat (S n)) = 256 * 2 ^ (8 * Z.of_nat n).
Proof.
  replace (8 * Z.of_nat (S n)) with (8 + 8 * Z.of_nat n) by lia.
  rewrite Z.pow_add_r by lia. reflexivity.
Qed.
Lemma le_combine_split n z : le_combine (le_split n z) = wrapu (8 * Z.of_nat n) z.
Proof.
  revert z. induction n as [|n IH]; intros z; simpl le_split; simpl le_combine.
  - unfold wrapu. simpl. by rewrite Z.mod_1_r.
  - rewrite IH. unfold wrapu. rewrite pow256_S.
    rewrite Z.rem_mul_r by lia. reflexivity.
Qed.
Lemma le_combine_range l : Forall byte_ok l -> 0 <= le_combine l < 2 ^ (8 * Z.of_nat (length l)).
Proof.
  induction 1 as [|b l Hb _ IH]; simpl le_combine; simpl length; [simpl; lia|].
  rewrite pow256_S. unfold byte_ok in *. nia.
Qed.
Lemma le_split_combine l : Forall byte_ok l -> le_split (length l) (le_combine l) = l.
Proof.
  induction 1 as [|b l Hb _ IH]; simpl; [done|].
  unfold byte_ok in Hb.
  replace ((b + 256 * le_combine l) mod 256) with b
    by (rewrite Z.mul_comm, Z_mod_plus_full, Z.mod_small; lia).
  replace ((b + 256 * le_combine l) / 256) with (le_combine l)
    by (rewrite Z.mul_comm, Z.div_add by lia; rewrite Z.div_small; lia).
  by rewrite IH.
Qed.

(** ** Overwriting a slice of a list *)
Definition slice {A} (p n : nat) (l : list A) : list A := take n (drop p l).
Definition patch {A} (p : nat) (c l : list A) : list A := take p l ++ c ++ drop (p + length c) l.

Section Slices.
Context {A : Type}.
Implicit Types (l c : list A) (p n : nat).

Lemma length_patch p c l : (p + length c <= length l)%nat -> length (patch p c l) = length l.
Proof. intros. unfold patch. rewrite !length_app, length_take, length_drop. lia. Qed.
Lemma patch_nil p l : patch p [] l = l.
Proof. unfold patch. simpl. rewrite Nat.add_0_r. apply take_drop. Qed.
Lemma patch_patch p c1 c2 l :
  (p + length c1 + length c2 <= length l)%nat ->
  patch (p + length c1) c2 (patch p c1 l) = patch p (c1 ++ c2) l.
Proof.
  intros. unfold patch.
  rewrite (take_app_ge (take p l)) by (rewrite length_take; lia).
  rewrite length_take, (Nat.min_l p) by lia.
  replace (p + length c1 - p)%nat with (length c1) by lia.
  rewrite take_app_length.
  rewrite (drop_app_ge (take p l)) by (rewrite length_take; lia).
  rewrite length_take, (Nat.min_l p) by lia.
  rewrite drop_app_ge by lia. rewrite drop_drop.
  rewrite length_app, <- !app_assoc. do 4 f_equal. lia.
Qed.
Lemma slice_patch p c l :
  (p + length c <= length l)%nat -> slice p (length c) (patch p c l) = c.
Proof.
  intros. unfold slice, patch.
  rewrite drop_app_ge by (rewrite length_take; lia).
  rewrite length_take, Nat.min_l, Nat.sub_diag by lia. rewrite drop_0.
  by rewrite take_app_length.
Qed.
Lemma take_patch p c l :
  (p + length c <= length l)%nat -> take (p + length c) (patch p c l) = take p l ++ c.
Proof.
  intros. unfold patch. rewrite app_assoc.
  rewrite take_app_le by (rewrite length_app, length_take; lia).
  apply take_ge. rewrite length_app, length_take. lia.
Qed.
Lemma drop_patch p c l n :
  (p + length c <= length l)%nat -> (p + length c <= n)%nat -> drop n (patch p c l) = drop n l.
Proof.
  intros. unfold patch. rewrite app_assoc.
  rewrite drop_app_ge by (rewrite length_app, length_take; lia).
  rewrite length_app, length_take, drop_drop. f_equal. lia.
Qed.
Lemma slice_app p n1 n2 l : slice p n1 l ++ slice (p + n1) n2 l = slice p (n1 + n2) l.
Proof. unfold slice. by rewrite <- drop_drop, take_take_drop. Qed.
Lemma length_slice p n l : (p + n <= length l)%nat -> length (slice p n l) = n.
Proof. intros. unfold slice. rewrite length_take, length_drop. lia. Qed.

(** Lists of blocks of one size [b], read as one flat list. *)
Lemma length_concat_uniform (b : nat) (ls : list (list A)) :
  Forall (fun x => length x = b) ls -> length (concat ls) = (b * length ls)%nat.
Proof. induction 1; simpl; [lia|]. rewrite length_app. lia. Qed.
Lemma concat_block (b i p n : nat) (ls : list (list A)) (x : list A) :
  Forall (fun y => length y = b) ls -> ls !! i = Some x -> (p + n <= b)%nat ->
  slice p n x = slice (i * b + p) n (concat ls).
Proof.
  intros Hu. revert i. induction Hu as [|y ls Hy Hu IH]; intros [|i] Hi Hp; simplify_eq/=.
  - unfold slice. rewrite drop_app_le by lia. rewrite take_app_le; [done|].
    rewrite length_drop. lia.
  - rewrite (IH i) by done. unfold slice. rewrite drop_app_ge by lia. do 2 f_equal. lia.
Qed.
Lemma concat_patch_block (b i p : nat) (ls : list (list A)) (x c : list A) :
  Forall (fun y => length y = b) ls -> ls !! i = Some x -> (p + length c <= b)%nat ->
  concat (<[i := patch p c x]> ls) = patch (i * b + p) c (concat ls).
Proof.
  intros Hu. revert i. induction Hu as [|y ls Hy Hu IH]; intros [|i] Hi Hp; simplify_eq/=.
  - unfold patch. rewrite <- !app_assoc, take_app_le, drop_app_le by lia. done.
  - rewrite (IH i) by done. unfold patch.
    rewrite (take_app_ge y), (drop_app_ge y), <- app_assoc by lia.
    do 3 f_equal; [|f_equal]; f_equal; lia.
Qed.
End Slices.

(** ** Filters that keep all or nothing *)
Lemma list_filter_true {A} (P : A -> Prop) `{forall x, Decision (P x)} (l : list A) :
  (forall x, x ∈ l -> P x) -> filter P l = l.
Proof.
  induction l as [|x l IH]; intros Ha; [done|]. rewrite list.filter_cons_True by (apply Ha; left).
  f_equal. apply IH. intros y Hy. apply Ha. by right.
Qed.
Lemma list_filter_none {A} (P : A -> Prop) `{forall x, Decision (P x)} (l : list A) :
  (forall x, x ∈ l -> ~ P x) -> filter P l = [].
Proof.
  induction l as [|x l IH]; intros Ha; [done|]. rewrite list.filter_cons_False by (apply Ha; left).
  apply IH. intros y Hy. apply Ha. by right.
Qed.

Lemma alter_insert_lookup {V} (f : V -> V) (a : nat) (m : gmap nat V) v :
  m !! a = Some v -> alter f a m = <[a := f v]> m.
Proof.
  intros Hv. apply map_eq. intros b. destruct (decide (a = b)) as [<-|].
  - by rewrite lookup_alter_eq, lookup_insert_eq, Hv.
  - by rewrite lookup_alter_ne, lookup_insert_ne.
Qed.

(** A decidable fact about the first integers, by computation. *)
Lemma forallb_range (n : nat) (P : Z -> bool) x :
  forallb P (map Z.of_nat (seq 0 n)) = true -> 0 <= x < Z.of_nat n -> P x = true.
Proof.
  rewrite forallb_forall. intros H Hx. apply H, in_map_iff. exists (Z.to_nat x).
  rewrite in_seq. lia.
Qed.

(** ** Strings as lists of bytes *)
Fixpoint bytes (s : string) : list Z :=
  match s with
  | EmptyString => []
  | String a s => Z.of_N (Ascii.N_of_ascii a) :: bytes s
  end.
Definition is_byte (b : Z) : bool := (0 <=? b) && (b <? 256).
Lemma bytes_checked l : forallb is_byte l = true -> Forall byte_ok l.
Proof.
  rewrite forallb_forall. intros H. apply list.Forall_forall. intros b Hb%list_elem_of_In%H. unfold is_byte in Hb.
  unfold byte_ok. lia.
Qed.
Lemma bytes_ok s : Forall byte_ok (bytes s).
Proof.
  induction s as [|a s IH]; constructor; [|done]. pose proof (Ascii.N_ascii_bounded a). unfold byte_ok. lia.
Qed.
(** [c_str()]: a C function reads up to the terminating null character. *)
Fixpoint c_str (l : list Z) : list Z :=
  match l with [] => [] | c :: l => if c =? 0 then [] else c :: c_str l end.

(** The digits of an unsigned integer, as [operator<<] prints it in decimal and,
    after [std::hex], in hexadecimal. *)
Definition digit_char (d : Z) : Z := if d <? 10 then 48 + d else 87 + d.
Definition digit_val (c : Z) : Z := if c <? 58 then c - 48 else c - 87.
Fixpoint digits_loop (base : Z) (fuel : nat) (n : Z) (acc : list Z) : list Z :=
  match fuel with
  | O => acc
  | S fuel =>
      let acc := digit_char (n mod base) :: acc in
      if n <? base then acc else digits_loop base fuel (n / base) acc
  end.
Definition digits (base n : Z) : list Z := digits_loop base (S (Z.to_nat (Z.log2 n))) n [].
Definition dec : Z -> list Z := digits 10.
Definition hex : Z -> list Z := digits 16.
Definition is_digit (base c : Z) : Prop := exists d, 0 <= d < base /\ c = digit_char d.
Definition digit (c : Z) : Prop := 48 <= c < 58.
Definition undigits (base : Z) (l : list Z) : Z := foldl (fun n c => base * n + digit_val c) 0 l.

Lemma digit_val_char d : 0 <= d < 16 -> digit_val (digit_char d) = d.
Proof. intros Hd. unfold digit_val, digit_char. repeat zcase; lia. Qed.
Lemma digits_loop_spec base fuel n acc :
  2 <= base <= 16 -> 0 <= n -> n < 2 ^ Z.of_nat fuel -> (0 < fuel)%nat ->
  exists l, digits_loop base fuel n acc = l ++ acc /\ Forall (is_digit base) l /\
    undigits base l = n /\ l <> [].
Proof.
  intros Hb. revert n acc. induction fuel as [|fuel IH]; intros n acc Hn Hf Hpos; [lia|]. cbn [digits_loop].
  pose proof (Z.mod_pos_bound n base ltac:(lia)) as Hm.
  assert (Hd : is_digit base (digit_char (n mod base))) by (exists (n mod base); split; [lia|done]).
  zcase.
  - exists [digit_char (n mod base)]. split_and!; [done| | |done].
    + by repeat constructor.
    + unfold undigits. cbn [foldl]. rewrite digit_val_char, Z.mod_small by lia. lia.
  - rewrite Nat2Z.inj_succ, Z.pow_succ_r in Hf by lia.
    assert (Hfuel : (0 < fuel)%nat) by (destruct fuel; [cbn in Hf; lia|lia]).
    assert (Hq : 0 <= n / base < 2 ^ Z.of_nat fuel).
    { split; [apply Z.div_pos; lia|]. apply Z.div_lt_upper_bound; [lia|]. nia. }
    destruct (IH (n / base) (digit_char (n mod base) :: acc)) as (l & Hl & Hdl & Hu & _); [lia|lia|done|].
    exists (l ++ [digit_char (n mod base)]). rewrite Hl, <- app_assoc. split_and!; [done| | |by destruct l].
    + apply list.Forall_app. split; [done|]. by repeat constructor.
    + unfold undigits in *. rewrite foldl_app, Hu. cbn [foldl]. rewrite digit_val_char by lia.
      pose proof (Z.div_mod n base ltac:(lia)). lia.
Qed.
Lemma digits_spec base n : 2 <= base <= 16 -> 0 <= n ->
  Forall (is_digit base) (digits base n) /\ undigits base (digits base n) = n /\ digits base n <> [].
Proof.
  intros Hb Hn. unfold digits.
  destruct (digits_loop_spec base (S (Z.to_nat (Z.log2 n))) n [] Hb Hn) as (l & -> & Hl);
    [|lia|by rewrite app_nil_r].
  pose proof (Z.log2_nonneg n). rewrite Nat2Z.inj_succ, Z2Nat.id by done.
  destruct (Z.eq_dec n 0) as [->|]; [cbn; lia|]. apply Z.log2_spec. lia.
Qed.
Lemma dec_spec n : 0 <= n -> Forall digit (dec n) /\ undigits 10 (dec n) = n /\ dec n <> [].
Proof.
  intros Hn. destruct (digits_spec 10 n ltac:(lia) Hn) as (Hd & ?). split; [|done].
  eapply list.Forall_impl; [exact Hd|]. intros c (d & Hd' & ->). unfold digit, digit_char. zcase; lia.
Qed.

(** ** Numbers of the C library *)
Definition isspace (c : Z) : bool := (c =? 32) || ((9 <=? c) && (c <=? 13)).
Fixpoint skip_spaces (l : list Z) : list Z :=
  match l with c :: l' => if isspace c then skip_spaces l' else l | [] => [] end.
Definition digit_of (c : Z) : Z :=
  if (48 <=? c) && (c <=? 57) then c - 48
  else if (97 <=? c) && (c <=? 122) then c - 87
  else if (65 <=? c) && (c <=? 90) then c - 55 else 36.
Fixpoint read_digits (base acc : Z) (l : list Z) : Z :=
  match l with
  | c :: l => if digit_of c <? base then read_digits base (base * acc + digit_of c) l else acc
  | [] => acc
  end.
Definition skip_0x (base : Z) (l : list Z) : list Z :=
  match l with
  | 48 :: x :: d :: l' => if (base =? 16) && ((x =? 120) || (x =? 88)) && (digit_of d <? 16) then d :: l' else l
  | _ => l
  end.
(** [strtol(l, NULL, base)] of a 64-bit long, which saturates; [atoi] is
    undefined when the number is not an int. *)
Definition strtol (base : Z) (l : list Z) : Z :=
  let l := skip_spaces l in
  let v :=
    match l with
    | 45 :: l => - read_digits base 0 (skip_0x base l)
    | 43 :: l => read_digits base 0 (skip_0x base l)
    | _ => read_digits base 0 (skip_0x base l)
    end in
  Z.max (- 2 ^ 63) (Z.min v (2 ^ 63 - 1)).
Definition atoi (l : list Z) : outcome Z := chk_signed 32 (strtol 10 l).

Lemma read_digits_app acc l r : Forall digit l -> (forall c, r !! 0%nat = Some c -> ~ digit c) ->
  read_digits 10 acc (l ++ r) = foldl (fun n c => 10 * n + digit_val c) acc l.
Proof.
  intros Hl Hr. revert acc. induction Hl as [|c l Hc _ IH]; intros acc; cbn [app read_digits foldl].
  - destruct r as [|c r]; [done|]. cbn. specialize (Hr c eq_refl). unfold digit, digit_of in *.
    destruct (Z.leb_spec 48 c), (Z.leb_spec c 57); cbn [andb]; try lia;
      destruct (Z.leb_spec 97 c), (Z.leb_spec c 122); cbn [andb]; try lia;
      destruct (Z.leb_spec 65 c), (Z.leb_spec c 90); cbn [andb]; try lia;
      match goal with |- context [?a <? 10] => destruct (Z.ltb_spec a 10); [lia|done] end.
  - assert (digit_of c = digit_val c /\ digit_val c < 10) as [-> ?].
    { unfold digit, digit_of, digit_val in *. rewrite (proj2 (Z.leb_le 48 c)), (proj2 (Z.leb_le c 57)),
        (proj2 (Z.ltb_lt c 58)) by lia. cbn [andb]. lia. }
    rewrite (proj2 (Z.ltb_lt _ _)) by done. apply IH.
Qed.
(** A run of digits followed by something else. *)
Lemma strtol_digits l r : Forall digit l -> l <> [] -> (forall c, r !! 0%nat = Some c -> ~ digit c) ->
  0 <= undigits 10 l < 2 ^ 63 -> strtol 10 (l ++ r) = undigits 10 l.
Proof.
  intros Hl Hne Hr Hv. pose proof (read_digits_app 0 l r Hl Hr) as E. destruct l as [|c l]; [done|].
  pose proof (list.Forall_cons_1 _ _ _ Hl) as [Hc _]. unfold strtol. cbn [app skip_spaces] in *.
  assert (isspace c = false) as ->.
  { unfold isspace, digit in *. rewrite orb_false_iff, andb_false_iff, Z.eqb_neq, !Z.leb_gt. lia. }
  assert (skip_0x 10 (c :: l ++ r) = c :: l ++ r) as E0.
  { unfold skip_0x. by repeat case_match. }
  unfold digit in Hc. rewrite E0, E. fold (undigits 10 (c :: l)).
  repeat case_match; subst; try lia; fold (undigits 10 (c :: l)) in *; lia.
Qed.
Lemma atoi_digits l r : Forall digit l -> l <> [] -> (forall c, r !! 0%nat = Some c -> ~ digit c) ->
  0 <= undigits 10 l < 2 ^ 31 -> atoi (l ++ r) = Ret (undigits 10 l).
Proof. intros Hl Hne Hr Hv. unfold atoi. rewrite strtol_digits by (done || lia). apply chk_signed_Ret. lia. Qed.

(** ** The lexicographic order of byte lists: [strcmp] on C strings, [memcmp] *)
Fixpoint strcmp (a b : list Z) : comparison :=
  match a, b with
  | [], [] => Eq
  | [], _ => Lt
  | _, [] => Gt
  | x :: a, y :: b => match x ?= y with Eq => strcmp a b | c => c end
  end.
Definition is_eq (c : comparison) : bool := match c with Eq => true | _ => false end.
Lemma strcmp_refl a : strcmp a a = Eq.
Proof. induction a as [|x a IH]; [done|]. cbn. by rewrite Z.compare_refl. Qed.
Lemma strcmp_eq a b : strcmp a b = Eq <-> a = b.
Proof.
  split; [|intros <-; apply strcmp_refl]. revert b. induction a as [|x a IH]; intros [|y b]; cbn; try done.
  destruct (Z.compare_spec x y); try done. intros E. subst. f_equal. by apply IH.
Qed.
Lemma strcmp_antisym a b : strcmp b a = CompOpp (strcmp a b).
Proof.
  revert b. induction a as [|x a IH]; intros [|y b]; cbn; try done.
  rewrite (Z.compare_antisym x y). by destruct (x ?= y); cbn.
Qed.
Lemma strcmp_trans a b c : strcmp a b = Lt -> strcmp b c = Lt -> strcmp a c = Lt.
Proof.
  revert b c. induction a as [|x a IH]; intros [|y b] [|z c]; cbn; try done.
  destruct (Z.compare_spec x y), (Z.compare_spec y z); try done; intros H1 H2; subst.
  - rewrite Z.compare_refl. by apply (IH b).
  - by rewrite (proj2 (Z.compare_lt_iff y z)).
  - by rewrite (proj2 (Z.compare_lt_iff x z)).
  - by rewrite (proj2 (Z.compare_lt_iff x z)) by lia.
Qed.
