(* ===== verification/Endian.v ===== *)
(** * Byte order (cxk/endian.h)

    [byteswap] is overloaded on the width of its argument ([bswap_16],
    [bswap_32], [bswap_64] of the C library): here the width is the number of
    bytes [n].  The host is little-endian (the [#else] branch of the header),
    so [byteswapOnLittleEndian] swaps and [byteswapOnBigEndian] does not. *)
From S2P Require Import Prelude.

Definition CXK_LITTLE_ENDIAN : Z := 1.
Definition CXK_BIG_ENDIAN : Z := 2.
Definition CXK_BYTE_ORDER : Z := CXK_LITTLE_ENDIAN.

(** The C library's swap of an [n]-byte unsigned integer. *)
Definition bswap (n : nat) (v : Z) : Z := le_combine (rev (le_split n v)).

(** [(T) bswap_n((uintn_t) value)] at an unsigned type. *)
Definition byteswap (n : nat) (value : Z) : Z := bswap n (wrapu (8 * Z.of_nat n) value).
(** The same at a signed type: the casts wrap. *)
Definition byteswap_signed (n : nat) (value : Z) : Z :=
  wraps (8 * Z.of_nat n) (bswap n (wrapu (8 * Z.of_nat n) value)).

Definition byteswapOnLittleEndian (n : nat) (t : Z) : Z := byteswap n t.
(** At a signed type. *)
Definition byteswapOnLittleEndian_signed (n : nat) (t : Z) : Z := byteswap_signed n t.
Definition byteswapOnBigEndian (n : nat) (t : Z) : Z := t.

(** The bytes of the swapped integer are the bytes of the integer, reversed:
    its big-endian encoding. *)
Lemma le_split_wrapu n v : le_split n (wrapu (8 * Z.of_nat n) v) = le_split n v.
Proof.
  rewrite <- le_combine_split.
  pose proof (le_split_combine (le_split n v) (le_split_bytes n v)) as H.
  by rewrite length_le_split in H.
Qed.
Lemma le_split_byteswap n v : le_split n (byteswap n v) = rev (le_split n v).
Proof.
  unfold byteswap, bswap. rewrite le_split_wrapu.
  pose proof (le_split_combine (rev (le_split n v))) as H.
  rewrite length_rev, length_le_split in H. apply H.
  apply Forall_rev, le_split_bytes.
Qed.
Lemma byteswap_range n v : 0 <= byteswap n v < 2 ^ (8 * Z.of_nat n).
Proof.
  unfold byteswap, bswap.
  pose proof (le_combine_range (rev (le_split n (wrapu (8 * Z.of_nat n) v)))) as H.
  rewrite length_rev, length_le_split in H. apply H.
  apply Forall_rev, le_split_bytes.
Qed.
Lemma byteswap_involutive n v : byteswap n (byteswap n v) = wrapu (8 * Z.of_nat n) v.
Proof.
  unfold byteswap at 1, bswap. rewrite le_split_wrapu, le_split_byteswap, rev_involutive.
  apply le_combine_split.
Qed.
Lemma byteswap_signed_involutive n v :
  (0 < n)%nat -> byteswap_signed n (byteswap_signed n v) = wraps (8 * Z.of_nat n) v.
Proof.
  intros Hn. unfold byteswap_signed.
  assert (Hw : forall z, bswap n (wrapu (8 * Z.of_nat n) (wraps (8 * Z.of_nat n) z))
                       = bswap n (wrapu (8 * Z.of_nat n) z)).
  { intros z. f_equal. unfold wrapu, wraps.
    rewrite Zminus_mod_idemp_l. f_equal. lia. }
  rewrite Hw. fold (byteswap n v). fold (byteswap n (byteswap n v)).
  rewrite byteswap_involutive. apply wraps_wrapu. lia.
Qed.
#[export] Hint Rewrite le_split_wrapu le_split_byteswap byteswap_involutive length_le_split : cxk.
