(* ===== verification/ByteArray.v ===== *)
(** * The block-chain buffer (cxk/bytearray.h, cxk/bytearray.cpp)

    A [ByteArray] is a singly linked list of blocks of [m_baseSize] bytes with
    a cursor.  The chain from [m_root] is the list [m_nodes]; [m_cur] is the
    index of the current block, [None] for the null pointer; the [next] of
    block [i] is block [i + 1] when there is one.  Dereferencing null, reading
    or writing outside a block, and [% 0] are [Crash].  The typed accessors
    built on [write] and [read] are in the file ByteCodec. *)
From S2P Require Import Prelude Endian.

(** What [new char\[s\]] finds in the memory it returns: indeterminate bytes. *)
Class Heap := uninit : nat -> nat -> Z.

Abbreviation Node := (list Z) (only parsing).

Record ByteArray := mkByteArray {
  m_baseSize : nat;
  m_position : nat;
  m_capacity : nat;
  m_size : nat;
  m__endian : Z;
  m_nodes : list Node;
  m_cur : option nat
}.

Definition set_position (v : nat) (b : ByteArray) : ByteArray :=
  mkByteArray (m_baseSize b) v (m_capacity b) (m_size b) (m__endian b) (m_nodes b) (m_cur b).
Definition set_capacity (v : nat) (b : ByteArray) : ByteArray :=
  mkByteArray (m_baseSize b) (m_position b) v (m_size b) (m__endian b) (m_nodes b) (m_cur b).
Definition set_size (v : nat) (b : ByteArray) : ByteArray :=
  mkByteArray (m_baseSize b) (m_position b) (m_capacity b) v (m__endian b) (m_nodes b) (m_cur b).
Definition set_endian (v : Z) (b : ByteArray) : ByteArray :=
  mkByteArray (m_baseSize b) (m_position b) (m_capacity b) (m_size b) v (m_nodes b) (m_cur b).
Definition set_nodes (v : list Node) (b : ByteArray) : ByteArray :=
  mkByteArray (m_baseSize b) (m_position b) (m_capacity b) (m_size b) (m__endian b) v (m_cur b).
Definition set_cur (v : option nat) (b : ByteArray) : ByteArray :=
  mkByteArray (m_baseSize b) (m_position b) (m_capacity b) (m_size b) (m__endian b) (m_nodes b) v.

Section ByteArray.
Context {heap : Heap}.

(** ** Memory accesses *)

(** The block a pointer designates. *)
Definition deref (b : ByteArray) (p : option nat) : outcome (nat * Node) :=
  match p with
  | None => Crash
  | Some i => match m_nodes b !! i with Some nd => Ret (i, nd) | None => Crash end
  end.
(** [p->next] *)
Definition next (b : ByteArray) (p : option nat) : outcome (option nat) :=
  '(i, _) ← deref b p;
  Ret (if (S i <? length (m_nodes b))%nat then Some (S i) else None).
(** [p->size] *)
Definition node_size (b : ByteArray) (p : option nat) : outcome nat :=
  '(_, nd) ← deref b p; Ret (length nd).
(** [a % b] and [a - b] on [size_t]; a difference that wraps is a huge
    length whose use is out of bounds. *)
Definition mod_size (a b : nat) : outcome nat :=
  if (b =? 0)%nat then Crash else Ret (a mod b)%nat.
Definition sub_size (a b : nat) : outcome nat :=
  if (b <=? a)%nat then Ret (a - b)%nat else Crash.
(** [memcpy] into and out of a block *)
Definition memcpy_to (p : option nat) (off : nat) (c : list Z) : M ByteArray unit := fun b =>
  match deref b p with
  | Ret (i, nd) =>
      if (off + length c <=? length nd)%nat
      then (Ret tt, set_nodes (<[i := patch off c nd]> (m_nodes b)) b)
      else (Crash, b)
  | _ => (Crash, b)
  end.
Definition memcpy_from (b : ByteArray) (p : option nat) (off n : nat) : outcome (list Z) :=
  '(_, nd) ← deref b p;
  if (off + n <=? length nd)%nat then Ret (slice off n nd) else Crash.

(** ** Construction and configuration *)

Definition new_Node (idx s : nat) : Node := map (uninit idx) (seq 0 s).

Definition new_ByteArray (base_size : nat) : ByteArray :=
  mkByteArray base_size 0 base_size 0 CXK_BIG_ENDIAN [new_Node 0 base_size] (Some 0%nat).

(** The default argument of the constructor, and what the arithmetic needs to
    know of it. *)
Definition default_base_size : nat := Z.to_nat 4096.
Lemma default_base_sizeE : Z.of_nat default_base_size = 4096.
Proof. reflexivity. Qed.
#[global] Opaque default_base_size.

Definition isLittleEndian (b : ByteArray) : bool := m__endian b =? CXK_LITTLE_ENDIAN.

Definition setIsLittleEndian (val : bool) (b : ByteArray) : ByteArray :=
  set_endian (if val then CXK_LITTLE_ENDIAN else CXK_BIG_ENDIAN) b.

Definition getReadSize (b : ByteArray) : Z :=
  u64 (Z.of_nat (m_size b) - Z.of_nat (m_position b)).
Definition getCapacity (b : ByteArray) : outcome nat := sub_size (m_capacity b) (m_position b).

Definition clear (b : ByteArray) : ByteArray :=
  mkByteArray (m_baseSize b) 0 (m_baseSize b) (m_size b) (m__endian b)
    (take 1 (m_nodes b)) (Some 0%nat).

(** ** Growing *)

(** The [for] loop of [addCapacity]: [count] new blocks after the last. *)
Fixpoint add_nodes (count : nat) (b : ByteArray) : ByteArray :=
  match count with
  | O => b
  | S c =>
      add_nodes c
        (set_capacity (m_capacity b + m_baseSize b)
           (set_nodes (m_nodes b ++ [new_Node (length (m_nodes b)) (m_baseSize b)]) b))
  end.

Definition addCapacity (size : nat) : M ByteArray unit :=
  if (size =? 0)%nat then mret tt else
  b ← get;
  old_cap ← lift (getCapacity b);
  if (size <=? old_cap)%nat then mret tt else
  let size := (size - old_cap)%nat in
  rem ← lift (mod_size size (m_baseSize b));
  let count := (size / m_baseSize b + (if (old_cap <? rem)%nat then 1 else 0))%nat in
  let first := if (count =? 0)%nat then None else Some (length (m_nodes b)) in
  modify (add_nodes count) ;;
  if (old_cap =? 0)%nat then modify (set_cur first) else mret tt.

(** ** write *)

Fixpoint write_loop (fuel : nat) (buf : list Z) (npos ncap : nat) : M ByteArray unit :=
  match buf with
  | [] => mret tt
  | _ :: _ =>
      match fuel with
      | O => nofuel
      | S fuel =>
          b ← get;
          let size := length buf in
          if (size <=? ncap)%nat then
            memcpy_to (m_cur b) npos buf ;;
            cur_size ← lift (node_size b (m_cur b));
            (if (cur_size =? npos + size)%nat
             then nxt ← lift (next b (m_cur b)); modify (set_cur nxt)
             else mret tt) ;;
            modify (fun b => set_position (m_position b + size) b)
          else
            memcpy_to (m_cur b) npos (take ncap buf) ;;
            modify (fun b => set_position (m_position b + ncap) b) ;;
            nxt ← lift (next b (m_cur b));
            modify (set_cur nxt) ;;
            ncap' ← lift (node_size b nxt);
            write_loop fuel (drop ncap buf) 0 ncap'
      end
  end.

Definition write (buf : list Z) : M ByteArray unit :=
  if (length buf =? 0)%nat then mret tt else
  addCapacity (length buf) ;;
  b ← get;
  npos ← lift (mod_size (m_position b) (m_baseSize b));
  cur_size ← lift (node_size b (m_cur b));
  ncap ← lift (sub_size cur_size npos);
  write_loop (S (length (m_nodes b))) buf npos ncap ;;
  modify (fun b => if (m_size b <? m_position b)%nat then set_size (m_position b) b else b).

(** ** read *)

(** The loop of [read(buf, size)]: [ncap] keeps its first value. *)
Fixpoint read_loop (fuel size npos ncap : nat) (acc : list Z) : M ByteArray (list Z) :=
  if (size =? 0)%nat then mret acc else
  match fuel with
  | O => nofuel
  | S fuel =>
      b ← get;
      if (size <=? ncap)%nat then
        c ← lift (memcpy_from b (m_cur b) npos size);
        cur_size ← lift (node_size b (m_cur b));
        (if (cur_size =? npos + size)%nat
         then nxt ← lift (next b (m_cur b)); modify (set_cur nxt)
         else mret tt) ;;
        modify (fun b => set_position (m_position b + size) b) ;;
        mret (acc ++ c)
      else
        c ← lift (memcpy_from b (m_cur b) npos ncap);
        modify (fun b => set_position (m_position b + ncap) b) ;;
        nxt ← lift (next b (m_cur b));
        modify (set_cur nxt) ;;
        read_loop fuel (size - ncap) 0 ncap (acc ++ c)
  end.

Definition read (size : Z) : M ByteArray (list Z) :=
  b ← get;
  if getReadSize b <? size then throw OutOfRange else
  npos ← lift (mod_size (m_position b) (m_baseSize b));
  cur_size ← lift (node_size b (m_cur b));
  ncap ← lift (sub_size cur_size npos);
  read_loop (S (length (m_nodes b))) (Z.to_nat size) npos ncap [].

(** [read(buf, size, position) const]: the cursor is a local variable. *)
Fixpoint read_at_loop (fuel : nat) (b : ByteArray) (cur : option nat) (size npos ncap : nat)
    (acc : list Z) : outcome (list Z) :=
  if (size =? 0)%nat then Ret acc else
  match fuel with
  | O => NoFuel
  | S fuel =>
      if (size <=? ncap)%nat then
        c ← memcpy_from b cur npos size;
        Ret (acc ++ c)
      else
        c ← memcpy_from b cur npos ncap;
        nxt ← next b cur;
        read_at_loop fuel b nxt (size - ncap) 0 ncap (acc ++ c)
  end.

Definition read_at (size : Z) (position : nat) (b : ByteArray) : outcome (list Z) :=
  if getReadSize b <? size then Throw OutOfRange else
  npos ← mod_size position (m_baseSize b);
  cur_size ← node_size b (m_cur b);
  ncap ← sub_size cur_size npos;
  read_at_loop (S (length (m_nodes b))) b (m_cur b) (Z.to_nat size) npos ncap [].

(** ** setPosition *)

Fixpoint seek_loop (fuel v : nat) : M ByteArray unit :=
  b ← get;
  cur_size ← lift (node_size b (m_cur b));
  if (cur_size <? v)%nat then
    match fuel with
    | O => nofuel
    | S fuel =>
        nxt ← lift (next b (m_cur b));
        modify (set_cur nxt) ;;
        seek_loop fuel (v - cur_size)
    end
  else if (v =? cur_size)%nat then
    nxt ← lift (next b (m_cur b)); modify (set_cur nxt)
  else mret tt.

Definition setPosition (v : nat) : M ByteArray unit :=
  b ← get;
  if (m_capacity b <? v)%nat then throw OutOfRange else
  modify (fun b =>
    let b := set_position v b in
    let b := if (m_size b <? m_position b)%nat then set_size (m_position b) b else b in
    set_cur (Some 0%nat) b) ;;
  seek_loop (S (length (m_nodes b))) v.

(** ** Scatter/gather views

    An [iovec] is a block index, an offset in the block and a length. *)
Record iovec := mkIovec { iov_node : nat; iov_off : nat; iov_len : nat }.

Fixpoint buffers_loop (fuel : nat) (b : ByteArray) (cur : option nat) (len npos ncap : nat)
    (buffers : list iovec) : outcome (list iovec) :=
  if (len =? 0)%nat then Ret buffers else
  match fuel with
  | O => NoFuel
  | S fuel =>
      '(i, _) ← deref b cur;
      if (len <=? ncap)%nat then Ret (buffers ++ [mkIovec i npos len])
      else
        nxt ← next b cur;
        ncap' ← node_size b nxt;
        buffers_loop fuel b nxt (len - ncap) 0 ncap' (buffers ++ [mkIovec i npos ncap])
  end.

Definition getReadBuffers (len : Z) (b : ByteArray) : outcome (Z * list iovec) :=
  let len := if getReadSize b <? len then getReadSize b else len in
  if len =? 0 then Ret (0, []) else
  npos ← mod_size (m_position b) (m_baseSize b);
  cur_size ← node_size b (m_cur b);
  ncap ← sub_size cur_size npos;
  iovs ← buffers_loop (S (length (m_nodes b))) b (m_cur b) (Z.to_nat len) npos ncap [];
  Ret (len, iovs).

Fixpoint walk (count : nat) (b : ByteArray) (cur : option nat) : outcome (option nat) :=
  match count with
  | O => Ret cur
  | S c => nxt ← next b cur; walk c b nxt
  end.

(** The overload with a start position takes the block of that position, but
    the room of the current block. *)
Definition getReadBuffers_at (len : Z) (position : nat) (b : ByteArray) : outcome (Z * list iovec) :=
  let len := if getReadSize b <? len then getReadSize b else len in
  if len =? 0 then Ret (0, []) else
  npos ← mod_size position (m_baseSize b);
  cur ← walk (position / m_baseSize b) b (Some 0%nat);
  cur_size ← node_size b (m_cur b);
  ncap ← sub_size cur_size npos;
  iovs ← buffers_loop (S (length (m_nodes b))) b cur (Z.to_nat len) npos ncap [];
  Ret (len, iovs).

Definition getWriteBuffers (len : nat) : M ByteArray (nat * list iovec) :=
  if (len =? 0)%nat then mret (0%nat, []) else
  addCapacity len ;;
  b ← get;
  npos ← lift (mod_size (m_position b) (m_baseSize b));
  cur_size ← lift (node_size b (m_cur b));
  ncap ← lift (sub_size cur_size npos);
  iovs ← lift (buffers_loop (S (length (m_nodes b))) b (m_cur b) len npos ncap []);
  mret (len, iovs).

(** ** Conversions *)

Definition toString (b : ByteArray) : outcome (list Z) :=
  let size := getReadSize b in
  if size =? 0 then Ret [] else read_at size (m_position b) b.

(** [std::hex] with [setw(2)] and [setfill('0')] of a byte. *)
Definition hex_digit (d : Z) : Z := if d <? 10 then d + 48 else d - 10 + 97.
Definition hex_byte (v : Z) : list Z := [hex_digit (v / 16); hex_digit (v mod 16)].

Fixpoint hex_lines (i : nat) (str : list Z) : list Z :=
  match str with
  | [] => []
  | c :: str' =>
      (if (0 <? i)%nat && (i mod 32 =? 0)%nat then [10] else [])
        ++ hex_byte (u8 c) ++ [32] ++ hex_lines (S i) str'
  end.

Definition toHexString (b : ByteArray) : outcome (list Z) :=
  str ← toString b; Ret (hex_lines 0 str).

(** ** Files

    The file system is outside the program: [None] is a file that cannot be
    opened, otherwise its contents.  [ofs.write] with a negative length is
    undefined. *)
Fixpoint writeToFile_loop (fuel : nat) (b : ByteArray) (cur : option nat) (read_size pos : Z)
    (out : list Z) : outcome (list Z) :=
  if 0 <? read_size then
    match fuel with
    | O => NoFuel
    | S fuel =>
        d ← mod_size (Z.to_nat pos) (m_baseSize b);
        let diff := Z.of_nat d in
        let base := Z.of_nat (m_baseSize b) in
        let len := (if base <? read_size then base else read_size) - diff in
        if len <? 0 then Crash else
        c ← memcpy_from b cur d (Z.to_nat len);
        nxt ← next b cur;
        writeToFile_loop fuel b nxt (read_size - len) (pos + len) (out ++ c)
    end
  else Ret out.

(** The result is [false] with nothing written when the file does not open. *)
Definition writeToFile (opens : bool) (b : ByteArray) : outcome (bool * list Z) :=
  if opens then
    out ← writeToFile_loop (S (length (m_nodes b))) b (m_cur b) (getReadSize b)
            (Z.of_nat (m_position b)) [];
    Ret (true, out)
  else Ret (false, []).

(** Each [ifs.read] takes [m_baseSize] bytes; a short read sets [eof]. *)
Fixpoint readFromFile_loop (fuel : nat) (content : list Z) : M ByteArray unit :=
  match fuel with
  | O => nofuel
  | S fuel =>
      b ← get;
      write (take (m_baseSize b) content) ;;
      if (length content <? m_baseSize b)%nat then mret tt
      else readFromFile_loop fuel (drop (m_baseSize b) content)
  end.

Definition readFromFile (file : option (list Z)) : M ByteArray bool :=
  match file with
  | None => mret false
  | Some content => readFromFile_loop (S (length content)) content ;; mret true
  end.
End ByteArray.

(** ** Well-formedness and the flat view

    The chain seen as one array: the concatenation of the blocks. *)
Definition flat (b : ByteArray) : list Z := concat (m_nodes b).
(** The bytes before the cursor, and the readable bytes after it. *)
Definition written (b : ByteArray) : list Z := take (m_position b) (flat b).
Definition unread (b : ByteArray) : list Z :=
  slice (m_position b) (m_size b - m_position b) (flat b).

(** The block the cursor should be in. *)
Definition cursor_at (b : ByteArray) (p : nat) : option nat :=
  if (p <? m_capacity b)%nat then Some (p / m_baseSize b)%nat else None.

Record wf (b : ByteArray) : Prop := {
  wf_base : (0 < m_baseSize b)%nat;
  wf_nodes : Forall (fun nd => length nd = m_baseSize b) (m_nodes b);
  wf_root : (0 < length (m_nodes b))%nat;
  wf_cap : m_capacity b = (m_baseSize b * length (m_nodes b))%nat;
  wf_pos : (m_position b <= m_size b)%nat;
  wf_size : (m_size b <= m_capacity b)%nat;
  wf_fits : Z.of_nat (m_capacity b) < 2 ^ 64;
  wf_cur : m_cur b = cursor_at b (m_position b)
}.

(** The chain part of the invariant, without the cursor. *)
Record chain_ok (b : ByteArray) : Prop := {
  ch_base : (0 < m_baseSize b)%nat;
  ch_nodes : Forall (fun nd => length nd = m_baseSize b) (m_nodes b);
  ch_cap : m_capacity b = (m_baseSize b * length (m_nodes b))%nat
}.

Lemma wf_chain b : wf b -> chain_ok b.
Proof. intros []. by constructor. Qed.
#[export] Hint Resolve wf_chain : cxk.

Lemma length_flat b : chain_ok b -> length (flat b) = m_capacity b.
Proof. intros [? Hn ->]. unfold flat. by apply length_concat_uniform. Qed.

(** Position, block index and offset. *)
Lemma pos_split base p : (0 < base)%nat -> p = (p / base * base + p mod base)%nat.
Proof. intros. pose proof (Nat.div_mod p base). lia. Qed.
Lemma pos_index base p n : (0 < base)%nat -> (p < base * n)%nat -> (p / base < n)%nat.
Proof. intros. apply Nat.Div0.div_lt_upper_bound. lia. Qed.
Lemma pos_unique base i off p :
  (off < base)%nat -> p = (i * base + off)%nat -> (p / base)%nat = i /\ (p mod base)%nat = off.
Proof.
  intros H ->. split.
  - rewrite Nat.div_add_l, Nat.div_small by lia. lia.
  - rewrite Nat.add_comm, Nat.Div0.mod_add. by apply Nat.mod_small.
Qed.

Section Chain.
Context {heap : Heap}.

Lemma deref_index b i : chain_ok b -> (i < length (m_nodes b))%nat ->
  exists nd, m_nodes b !! i = Some nd /\ length nd = m_baseSize b /\ deref b (Some i) = Ret (i, nd).
Proof.
  intros [? Hn ?] Hi. destruct (lookup_lt_is_Some_2 _ _ Hi) as [nd Hnd].
  exists nd. unfold deref. rewrite Hnd. split_and!; auto.
  by apply (Forall_lookup_1 _ _ _ _ Hn Hnd).
Qed.
Lemma node_size_index b i : chain_ok b -> (i < length (m_nodes b))%nat ->
  node_size b (Some i) = Ret (m_baseSize b).
Proof.
  intros Hc Hi. destruct (deref_index b i Hc Hi) as (nd & _ & Hl & Hd).
  unfold node_size. rewrite Hd. msimpl. by rewrite Hl.
Qed.
Lemma next_index b i : chain_ok b -> (i < length (m_nodes b))%nat ->
  next b (Some i) = Ret (cursor_at b (S i * m_baseSize b)).
Proof.
  intros Hc Hi. destruct (deref_index b i Hc Hi) as (nd & _ & Hl & Hd).
  unfold next, cursor_at. rewrite Hd. msimpl. destruct Hc as [? ? ->].
  rewrite Nat.div_mul by lia.
  destruct (Nat.ltb_spec (S i) (length (m_nodes b))), (Nat.ltb_spec (S i * m_baseSize b) (m_baseSize b * length (m_nodes b)));
    try done; nia.
Qed.

(** Copying into the chain is patching the flat view. *)
Lemma memcpy_to_index b i off c :
  chain_ok b -> (i < length (m_nodes b))%nat -> (off + length c <= m_baseSize b)%nat ->
  exists nodes', memcpy_to (Some i) off c b = (Ret tt, set_nodes nodes' b) /\
    concat nodes' = patch (i * m_baseSize b + off) c (flat b) /\
    Forall (fun nd => length nd = m_baseSize b) nodes' /\
    length nodes' = length (m_nodes b).
Proof.
  intros Hc Hi Hl. destruct (deref_index b i Hc Hi) as (nd & Hn & Hlen & Hd).
  exists (<[i := patch off c nd]> (m_nodes b)). unfold memcpy_to. rewrite Hd.
  destruct (Nat.leb_spec (off + length c) (length nd)); [|lia].
  destruct Hc as [? Hf ?]. split_and!; [done|..].
  - by apply concat_patch_block.
  - apply Forall_insert; [done|]. rewrite length_patch; lia.
  - by rewrite length_insert.
Qed.
Lemma memcpy_from_index b i off n :
  chain_ok b -> (i < length (m_nodes b))%nat -> (off + n <= m_baseSize b)%nat ->
  memcpy_from b (Some i) off n = Ret (slice (i * m_baseSize b + off) n (flat b)).
Proof.
  intros Hc Hi Hl. destruct (deref_index b i Hc Hi) as (nd & Hn & Hlen & Hd).
  unfold memcpy_from. rewrite Hd. msimpl.
  destruct (Nat.leb_spec (off + n) (length nd)); [|lia].
  f_equal. apply concat_block; try done. by destruct Hc.
Qed.
Lemma memcpy_null off c b : memcpy_to None off c b = (Crash, b).
Proof. done. Qed.
End Chain.

(** Two buffers with the same blocks' shape, size and byte order. *)
Record same_shape (b b' : ByteArray) : Prop := {
  sh_base : m_baseSize b' = m_baseSize b;
  sh_cap : m_capacity b' = m_capacity b;
  sh_size : m_size b' = m_size b;
  sh_endian : m__endian b' = m__endian b;
  sh_chain : chain_ok b'
}.

Lemma same_shape_trans a b c : same_shape a b -> same_shape b c -> same_shape a c.
Proof. intros [] []. constructor; congruence || done. Qed.
Lemma cursor_at_shape b b' p : same_shape b b' -> cursor_at b' p = cursor_at b p.
Proof. intros []. unfold cursor_at. by rewrite sh_cap0, sh_base0. Qed.

(** The setters of position and cursor do not touch the chain. *)
Lemma chain_set_position b p : chain_ok b -> chain_ok (set_position p b).
Proof. intros []. by constructor. Qed.
Lemma chain_set_cur b p : chain_ok b -> chain_ok (set_cur p b).
Proof. intros []. by constructor. Qed.
Lemma chain_set_nodes b nodes :
  chain_ok b -> Forall (fun nd => length nd = m_baseSize b) nodes -> length nodes = length (m_nodes b) ->
  chain_ok (set_nodes nodes b).
Proof. intros [] ? ?. constructor; simpl; congruence || done. Qed.
#[export] Hint Resolve chain_set_position chain_set_cur chain_set_nodes : cxk.

Section Write.
Context {heap : Heap}.

Lemma write_loop_S fuel buf npos ncap b :
  buf <> [] ->
  write_loop (S fuel) buf npos ncap b =
    (if (length buf <=? ncap)%nat then
       memcpy_to (m_cur b) npos buf ;;
       cur_size ← lift (node_size b (m_cur b));
       (if (cur_size =? npos + length buf)%nat
        then nxt ← lift (next b (m_cur b)); modify (set_cur nxt)
        else mret tt) ;;
       modify (fun b => set_position (m_position b + length buf) b)
     else
       memcpy_to (m_cur b) npos (take ncap buf) ;;
       modify (fun b => set_position (m_position b + ncap) b) ;;
       nxt ← lift (next b (m_cur b));
       modify (set_cur nxt) ;;
       ncap' ← lift (node_size b nxt);
       write_loop fuel (drop ncap buf) 0 ncap') b.
Proof. by destruct buf. Qed.

(** The last round: the rest of the data fits in the current block. *)
Lemma write_last fuel buf i npos b :
  chain_ok b -> buf <> [] -> (i < length (m_nodes b))%nat ->
  m_cur b = Some i -> m_position b = (i * m_baseSize b + npos)%nat ->
  (npos + length buf <= m_baseSize b)%nat ->
  exists b', write_loop (S fuel) buf npos (m_baseSize b - npos) b = (Ret tt, b') /\
    flat b' = patch (m_position b) buf (flat b) /\
    m_position b' = (m_position b + length buf)%nat /\
    m_cur b' = cursor_at b (m_position b') /\ same_shape b b'.
Proof.
  intros Hc Hne Hi Hcur Hp Hfit. rename buf into c.
  destruct (memcpy_to_index b i npos c Hc Hi Hfit) as (nodes' & Hm & Hfl & Hfo & Hln).
  assert (Hc' : chain_ok (set_nodes nodes' b)) by auto with cxk.
  pose proof (ch_base _ Hc) as Hb. pose proof (ch_cap _ Hc) as Hcap.
  rewrite write_loop_S by done. rewrite Hcur.
  destruct (Nat.leb_spec (length c) (m_baseSize b - npos)); [|lia].
  mstep Hm. rewrite (node_size_index b i Hc Hi). msimpl.
  destruct (Nat.eqb_spec (m_baseSize b) (npos + length c)) as [He|He].
  - rewrite (next_index b i Hc Hi).
    eexists; split; [reflexivity|]. split_and!; simpl.
    + by rewrite Hp, <- Hfl.
    + done.
    + rewrite Hp. replace (i * m_baseSize b + npos + length c)%nat with (S i * m_baseSize b)%nat by lia.
      done.
    + split; simpl; auto with cxk.
  - eexists; split; [reflexivity|]. split_and!; simpl.
    + by rewrite Hp, <- Hfl.
    + done.
    + rewrite Hcur. unfold cursor_at. rewrite Hp.
      destruct (pos_unique (m_baseSize b) i (npos + length c) (i * m_baseSize b + npos + length c))
        as [-> _]; [lia|lia|].
      destruct (Nat.ltb_spec (i * m_baseSize b + npos + length c) (m_capacity b)); [done|nia].
    + split; simpl; auto with cxk.
Qed.

Lemma write_loop_spec fuel buf i npos b :
  chain_ok b -> buf <> [] -> (length (m_nodes b) <= fuel + i)%nat ->
  (i < length (m_nodes b))%nat -> m_cur b = Some i ->
  m_position b = (i * m_baseSize b + npos)%nat -> (npos < m_baseSize b)%nat ->
  (m_position b + length buf <= m_capacity b)%nat ->
  exists b', write_loop fuel buf npos (m_baseSize b - npos) b = (Ret tt, b') /\
    flat b' = patch (m_position b) buf (flat b) /\
    m_position b' = (m_position b + length buf)%nat /\
    m_cur b' = cursor_at b (m_position b') /\ same_shape b b'.
Proof.
  revert buf i npos b.
  induction fuel as [|fuel IH]; intros buf i npos b Hc Hne Hfuel Hi Hcur Hp Hnpos Hroom; [lia|].
  destruct (decide (length buf <= m_baseSize b - npos)%nat) as [Hle|Hgt].
  { apply (write_last fuel buf i npos); auto; lia. }
  rename buf into c. pose proof (ch_cap _ Hc) as Hcap.
  set (n := (m_baseSize b - npos)%nat).
  assert (Hn : length (take n c) = n) by (rewrite length_take; lia).
  destruct (memcpy_to_index b i npos (take n c) Hc Hi ltac:(lia)) as (nodes' & Hm & Hfl & Hfo & Hln).
  assert (Hi' : (S i < length (m_nodes b))%nat) by nia.
  set (b1 := set_cur (Some (S i)) (set_position (m_position b + n) (set_nodes nodes' b))).
  assert (Hc1 : chain_ok b1) by (unfold b1; auto with cxk).
  destruct (IH (drop n c) (S i) 0%nat b1) as (b' & Hw & Hf & Hpos & Hcu & Hsh);
    try (simpl; first [done | lia]).
  { intros E. apply (f_equal length) in E. rewrite length_drop in E. simpl in E. lia. }
  { unfold b1. simpl. rewrite length_drop. lia. }
  exists b'. refine (conj _ (conj _ (conj _ (conj _ _)))).
  - rewrite write_loop_S by done. rewrite Hcur.
    destruct (Nat.leb_spec (length c) n); [lia|].
    mstep Hm. rewrite (next_index b i Hc Hi). msimpl. unfold cursor_at.
    destruct (Nat.ltb_spec (S i * m_baseSize b) (m_capacity b)); [|nia].
    rewrite Nat.div_mul by lia. fold b1.
    rewrite (node_size_index b (S i) Hc Hi'). rewrite <- Hw. simpl. by rewrite Nat.sub_0_r.
  - rewrite Hf. unfold b1 at 2, flat at 1. simpl. rewrite Hfl, <- Hp.
    rewrite <- Hn at 1. rewrite patch_patch, take_drop; [done|].
    rewrite Hn, length_drop, length_flat by done. lia.
  - rewrite Hpos. unfold b1. simpl. rewrite length_drop. lia.
  - rewrite Hcu. unfold b1, cursor_at. simpl. done.
  - apply (same_shape_trans b b1); [|done]. split; simpl; auto.
Qed.
End Write.

(** ** Growth

    [addCapacity] allocates enough blocks for [n] more bytes only in these
    cases; otherwise the last, partial block is missing. *)
Definition grows_enough (b : ByteArray) (n : nat) : Prop :=
  let old_cap := (m_capacity b - m_position b)%nat in
  (n <= old_cap)%nat \/ ((n - old_cap) mod m_baseSize b = 0)%nat \/
  (old_cap < (n - old_cap) mod m_baseSize b)%nat.

(** The room needed stays below the range of [size_t]. *)
Definition fits (b : ByteArray) (n : nat) : Prop :=
  Z.of_nat (m_position b + n + m_baseSize b) < 2 ^ 64.

Lemma grows_enough_within b n : (m_position b + n <= m_capacity b)%nat -> grows_enough b n.
Proof. intros. left. lia. Qed.
Lemma grows_enough_at_end b n : m_position b = m_capacity b -> grows_enough b n.
Proof.
  intros E. unfold grows_enough. rewrite E, Nat.sub_diag, Nat.sub_0_r.
  destruct (Nat.eq_dec (n mod m_baseSize b) 0); lia.
Qed.
#[export] Hint Resolve grows_enough_within grows_enough_at_end : cxk.

Section Grow.
Context {heap : Heap}.

Lemma add_nodes_spec count b :
  exists ext, add_nodes count b =
    set_capacity (m_capacity b + count * m_baseSize b) (set_nodes (m_nodes b ++ ext) b) /\
    length ext = count /\ Forall (fun nd => length nd = m_baseSize b) ext.
Proof.
  revert b. induction count as [|c IH]; intros b; simpl.
  - exists []. split_and!; [|done..]. destruct b. unfold set_capacity, set_nodes. simpl.
    by rewrite app_nil_r, Nat.add_0_r.
  - destruct (IH (set_capacity (m_capacity b + m_baseSize b)
      (set_nodes (m_nodes b ++ [new_Node (length (m_nodes b)) (m_baseSize b)]) b)))
      as (ext & -> & Hl & Hf).
    exists (new_Node (length (m_nodes b)) (m_baseSize b) :: ext). split_and!.
    + unfold set_capacity, set_nodes. simpl. rewrite <- app_assoc. simpl. f_equal. lia.
    + simpl. lia.
    + constructor; [|done]. unfold new_Node. by rewrite length_map, length_seq.
Qed.

(** The growth step: new blocks, and the cursor back on the chain when it was
    null. *)
Lemma addCapacity_run b n :
  wf b -> (m_capacity b - m_position b < n)%nat ->
  exists ext, let old_cap := (m_capacity b - m_position b)%nat in
    let need := (n - old_cap)%nat in
    let count := (need / m_baseSize b + (if (old_cap <? need mod m_baseSize b)%nat then 1 else 0))%nat in
    let b1 := set_capacity (m_capacity b + count * m_baseSize b) (set_nodes (m_nodes b ++ ext) b) in
    length ext = count /\ Forall (fun nd => length nd = m_baseSize b) ext /\
    addCapacity n b = (Ret tt, set_cur (if (count =? 0)%nat then m_cur b else cursor_at b1 (m_position b)) b1).
Proof.
  intros Hwf Hn. destruct Hwf as [Hb Hnd Hr Hcap Hp Hs Hf Hcur].
  set (old_cap := (m_capacity b - m_position b)%nat) in *. set (need := (n - old_cap)%nat).
  set (count := (need / m_baseSize b + (if (old_cap <? need mod m_baseSize b)%nat then 1 else 0))%nat).
  destruct (add_nodes_spec count b) as (ext & Ha & Hl & Hfo). exists ext.
  cbv zeta. split_and!; [done..|].
  unfold addCapacity, getCapacity, sub_size, mod_size. msimpl.
  destruct (Nat.eqb_spec n 0); [lia|]. destruct (Nat.leb_spec (m_position b) (m_capacity b)); [|lia].
  fold old_cap. destruct (Nat.leb_spec n old_cap); [lia|]. fold need.
  destruct (Nat.eqb_spec (m_baseSize b) 0); [lia|]. fold count. rewrite Ha.
  destruct (Nat.eqb_spec count 0) as [E|E].
  - destruct (Nat.eqb_spec old_cap 0) as [E0|E0].
    + exfalso. pose proof (Nat.div_mod need (m_baseSize b)).
      destruct (Nat.ltb_spec old_cap (need mod m_baseSize b)); nia.
    + by destruct b.
  - destruct (Nat.eqb_spec old_cap 0) as [E0|E0].
    + do 2 f_equal. unfold cursor_at. simpl.
      assert (Hpc : m_position b = (length (m_nodes b) * m_baseSize b + 0)%nat) by nia.
      destruct (Nat.ltb_spec (m_position b) (m_capacity b + count * m_baseSize b)); [|nia].
      by destruct (pos_unique (m_baseSize b) (length (m_nodes b)) 0 (m_position b)) as [-> _].
    + f_equal. unfold set_cur, set_capacity, set_nodes, cursor_at. simpl. rewrite Hcur. unfold cursor_at.

      destruct (Nat.ltb_spec (m_position b) (m_capacity b)); [|lia].
      by destruct (Nat.ltb_spec (m_position b) (m_capacity b + count * m_baseSize b)); [|lia].
Qed.
End Grow.

Section WriteSpec.
Context {heap : Heap}.

Lemma addCapacity_enough b n :
  (m_position b + n <= m_capacity b)%nat -> addCapacity n b = (Ret tt, b).
Proof.
  intros Hle. unfold addCapacity, getCapacity, sub_size. msimpl.
  destruct (Nat.eqb_spec n 0); [done|]. destruct (Nat.leb_spec (m_position b) (m_capacity b)); [|lia].
  by destruct (Nat.leb_spec n (m_capacity b - m_position b)); [|lia].
Qed.

Lemma addCapacity_wf b n :
  wf b -> grows_enough b n -> fits b n -> (0 < n)%nat ->
  exists b' ext, addCapacity n b = (Ret tt, b') /\ wf b' /\
    (m_position b + n <= m_capacity b')%nat /\
    m_position b' = m_position b /\ m_size b' = m_size b /\
    m__endian b' = m__endian b /\ m_baseSize b' = m_baseSize b /\
    flat b' = flat b ++ ext.
Proof.
  intros Hwf Hg Hfits Hn.
  destruct (decide (n <= m_capacity b - m_position b)%nat) as [Hle|Hgt].
  { exists b, []. pose proof (wf_pos _ Hwf). pose proof (wf_size _ Hwf).
    rewrite app_nil_r. split_and!; try done; [|lia]. apply addCapacity_enough. lia. }
  destruct (addCapacity_run b n Hwf ltac:(lia)) as (ext & Hl & Hf & Hrun). cbv zeta in *.
  set (old_cap := (m_capacity b - m_position b)%nat) in *. set (need := (n - old_cap)%nat) in *.
  set (count := (need / m_baseSize b + (if (old_cap <? need mod m_baseSize b)%nat then 1 else 0))%nat) in *.
  destruct Hwf as [Hb Hnd Hr Hcap Hp Hs Hfi Hcur].
  pose proof (Nat.div_mod need (m_baseSize b) ltac:(lia)) as Hdm.
  assert (Hcount : (need <= count * m_baseSize b < need + m_baseSize b)%nat /\ count <> 0%nat).
  { pose proof (Nat.mod_upper_bound need (m_baseSize b) ltac:(lia)).
    unfold grows_enough in Hg. fold old_cap need in Hg. unfold count.
    destruct (Nat.ltb_spec old_cap (need mod m_baseSize b)); nia. }
  destruct Hcount as [Hc1 Hc0]. rewrite Hrun.
  destruct (Nat.eqb_spec count 0); [lia|].
  eexists _, (concat ext). split; [reflexivity|]. simpl.
  split_and!; [|lia|done..|by unfold flat; simpl; rewrite concat_app].
  constructor; simpl; try done; try lia.
  - by apply Forall_app.
  - rewrite length_app. lia.
  - rewrite length_app. nia.
  - unfold fits in Hfits. lia.
Qed.

(** Writing past the last block ends on the null pointer. *)
Lemma write_loop_overflow fuel buf i npos b :
  chain_ok b -> (length (m_nodes b) <= fuel + i)%nat -> (i < length (m_nodes b))%nat ->
  m_cur b = Some i -> m_position b = (i * m_baseSize b + npos)%nat -> (npos < m_baseSize b)%nat ->
  (m_capacity b < m_position b + length buf)%nat ->
  fst (write_loop fuel buf npos (m_baseSize b - npos) b) = Crash.
Proof.
  revert buf i npos b.
  induction fuel as [|fuel IH]; intros buf i npos b Hc Hfuel Hi Hcur Hp Hnpos Hover; [lia|].
  pose proof (ch_cap _ Hc) as Hcap. pose proof (ch_base _ Hc) as Hb.
  set (n := (m_baseSize b - npos)%nat).
  assert (Hlen : (n < length buf)%nat) by nia.
  assert (Hn : length (take n buf) = n) by (rewrite length_take; lia).
  destruct (memcpy_to_index b i npos (take n buf) Hc Hi ltac:(lia)) as (nodes' & Hm & Hfl & Hfo & Hln).
  rewrite write_loop_S by (intros ->; simpl in Hlen; lia).
  destruct (Nat.leb_spec (length buf) n); [lia|]. rewrite Hcur.
  mstep Hm. rewrite (next_index b i Hc Hi). msimpl. unfold cursor_at at 1 2.
  destruct (Nat.ltb_spec (S i * m_baseSize b) (m_capacity b)) as [Hlt|]; [|done].
  rewrite Nat.div_mul, (node_size_index b (S i) Hc) by nia.
  set (b1 := set_cur (Some (S i)) _).
  pose proof (IH (drop n buf) (S i) 0%nat b1) as H1. rewrite Nat.sub_0_r in H1.
  apply H1; unfold b1; simpl; auto with cxk; try nia.
  rewrite length_drop. lia.
Qed.

(** [write] on every branch where the allocation is sufficient. *)
Lemma write_run b buf :
  wf b -> grows_enough b (length buf) -> fits b (length buf) ->
  exists b' ext, write buf b = (Ret tt, b') /\ wf b' /\
    m_position b' = (m_position b + length buf)%nat /\
    m_size b' = Nat.max (m_size b) (m_position b + length buf) /\
    m__endian b' = m__endian b /\ m_baseSize b' = m_baseSize b /\
    flat b' = patch (m_position b) buf (flat b ++ ext) /\
    (m_position b + length buf <= length (flat b ++ ext))%nat /\
    (m_capacity b <= m_capacity b')%nat.
Proof.
  intros Hwf Hg Hfits. destruct (decide (buf = [])) as [->|Hne].
  { exists b, []. pose proof (wf_pos _ Hwf). pose proof (wf_size _ Hwf).
    pose proof (length_flat b (wf_chain _ Hwf)).
    rewrite patch_nil, app_nil_r. split_and!; simpl; try done; lia. }
  assert (Hlen : (0 < length buf)%nat) by (destruct buf; simpl; [done|lia]).
  destruct (addCapacity_wf b _ Hwf Hg Hfits Hlen)
    as (b1 & ext & Hrun & Hwf1 & Hroom & Hp1 & Hs1 & He1 & Hb1 & Hf1).
  pose proof (wf_chain _ Hwf1) as Hc1. pose proof (wf_base _ Hwf1) as Hbase.
  assert (Hlt : (m_position b1 < m_capacity b1)%nat) by lia.
  assert (Hcur1 : m_cur b1 = Some (m_position b1 / m_baseSize b1)%nat).
  { rewrite (wf_cur _ Hwf1). unfold cursor_at. by destruct (Nat.ltb_spec (m_position b1) (m_capacity b1)); [|lia]. }
  assert (Hi : (m_position b1 / m_baseSize b1 < length (m_nodes b1))%nat).
  { apply pos_index; [done|]. rewrite <- (wf_cap _ Hwf1). done. }
  pose proof (pos_split (m_baseSize b1) (m_position b1) Hbase) as Hps.
  pose proof (Nat.mod_upper_bound (m_position b1) (m_baseSize b1) ltac:(lia)) as Hmod.
  destruct (write_loop_spec (S (length (m_nodes b1))) buf (m_position b1 / m_baseSize b1)
    (m_position b1 mod m_baseSize b1) b1) as (b2 & Hw & Hf2 & Hp2 & Hcu2 & Hsh); auto; try lia.
  exists (if (m_size b2 <? m_position b2)%nat then set_size (m_position b2) b2 else b2), ext.
  assert (Hbody : write buf b =
    (Ret tt, if (m_size b2 <? m_position b2)%nat then set_size (m_position b2) b2 else b2)).
  { unfold write. destruct (Nat.eqb_spec (length buf) 0); [lia|]. mstep Hrun.
    msimpl. unfold mod_size. destruct (Nat.eqb_spec (m_baseSize b1) 0); [lia|].
    rewrite Hcur1, (node_size_index b1 _ Hc1 Hi). unfold sub_size.
    destruct (Nat.leb_spec (m_position b1 mod m_baseSize b1) (m_baseSize b1)); [|lia].
    by rewrite Hw. }
  destruct Hsh as [S1 S2 S3 S4 S5]. pose proof (length_flat b1 Hc1) as Hlf. rewrite Hf1 in Hlf.
  assert (Hcap2 : (m_capacity b <= m_capacity b2)%nat).
  { rewrite S2. rewrite <- Hlf, length_app. rewrite length_flat by auto with cxk. lia. }
  rewrite Hbody. rewrite Hf1, Hp1 in Hf2. rewrite Hs1 in S3.
  pose proof (wf_size _ Hwf). pose proof (wf_pos _ Hwf). pose proof (wf_size _ Hwf1).
  pose proof (wf_fits _ Hwf1). pose proof (wf_root _ Hwf1).
  assert (Hroot : (0 < length (m_nodes b2))%nat).
  { destruct S5 as [_ _ E]. rewrite S2 in E. destruct (m_nodes b2); simpl in *; nia. }
  destruct S5 as [C1 C2 C3].
  split; [done|]. split.
  { destruct (Nat.ltb_spec (m_size b2) (m_position b2)); constructor; simpl; try done; try lia;
      rewrite Hcu2; unfold cursor_at; simpl; by rewrite S1, S2. }
  destruct (Nat.ltb_spec (m_size b2) (m_position b2)); simpl; split_and!; try done; try congruence; try lia.
Qed.
End WriteSpec.

(** ** Reading *)
Section Read.
Context {heap : Heap}.

(** The cases in which [read] takes [n] bytes from the right place: the loop
    never renews [ncap], so what follows the first block must fit in the room
    the first block had. *)
Definition reads_right (b : ByteArray) (n : nat) : Prop :=
  let npos := (m_position b mod m_baseSize b)%nat in
  npos = 0%nat \/ (n <= 2 * (m_baseSize b - npos))%nat.

Lemma getReadSize_wf b : wf b -> getReadSize b = Z.of_nat (m_size b - m_position b).
Proof.
  intros Hwf. pose proof (wf_pos _ Hwf). pose proof (wf_size _ Hwf). pose proof (wf_fits _ Hwf).
  unfold getReadSize, u64. rewrite wrapu_id; lia.
Qed.

Lemma read_loop_S fuel size npos ncap acc b :
  size <> 0%nat ->
  read_loop (S fuel) size npos ncap acc b =
    (if (size <=? ncap)%nat then
       c ← lift (memcpy_from b (m_cur b) npos size);
       cur_size ← lift (node_size b (m_cur b));
       (if (cur_size =? npos + size)%nat
        then nxt ← lift (next b (m_cur b)); modify (set_cur nxt)
        else mret tt) ;;
       modify (fun b => set_position (m_position b + size) b) ;;
       mret (acc ++ c)
     else
       c ← lift (memcpy_from b (m_cur b) npos ncap);
       modify (fun b => set_position (m_position b + ncap) b) ;;
       nxt ← lift (next b (m_cur b));
       modify (set_cur nxt) ;;
       read_loop fuel (size - ncap) 0 ncap (acc ++ c)) b.
Proof. intros. by destruct size. Qed.

(** Whole chain after a cursor move. *)
Definition moved (b : ByteArray) (n : nat) : ByteArray :=
  set_cur (cursor_at b (m_position b + n)) (set_position (m_position b + n) b).

Lemma read_last fuel size npos ncap acc i b :
  chain_ok b -> (0 < size)%nat -> (i < length (m_nodes b))%nat -> m_cur b = Some i ->
  m_position b = (i * m_baseSize b + npos)%nat -> (npos + size <= m_baseSize b)%nat ->
  (size <= ncap)%nat ->
  read_loop (S fuel) size npos ncap acc b =
    (Ret (acc ++ slice (m_position b) size (flat b)), moved b size).
Proof.
  intros Hc Hs Hi Hcur Hp Hfit Hn. pose proof (ch_base _ Hc) as Hb. pose proof (ch_cap _ Hc) as Hcap.
  rewrite read_loop_S by lia. destruct (Nat.leb_spec size ncap); [|lia].
  rewrite Hcur, (memcpy_from_index b i npos size Hc Hi Hfit), (node_size_index b i Hc Hi).
  msimpl. rewrite <- Hp. unfold moved.
  destruct (Nat.eqb_spec (m_baseSize b) (npos + size)).
  - rewrite (next_index b i Hc Hi). simpl.
    by replace (m_position b + size)%nat with (S i * m_baseSize b)%nat by lia.
  - f_equal. unfold cursor_at.
    destruct (Nat.ltb_spec (m_position b + size) (m_capacity b)); [|nia].
    destruct (pos_unique (m_baseSize b) i (npos + size) (m_position b + size)) as [-> _]; [lia|lia|].
    rewrite <- Hcur. by destruct b.
Qed.

(** A full block is consumed and the next one exists. *)
Lemma read_block fuel size npos ncap acc i b :
  chain_ok b -> (ncap < size)%nat -> (i < length (m_nodes b))%nat -> m_cur b = Some i ->
  m_position b = (i * m_baseSize b + npos)%nat -> (npos + ncap = m_baseSize b)%nat ->
  read_loop (S fuel) size npos ncap acc b =
    read_loop fuel (size - ncap) 0 ncap (acc ++ slice (m_position b) ncap (flat b)) (moved b ncap).
Proof.
  intros Hc Hs Hi Hcur Hp Hfit. pose proof (ch_base _ Hc) as Hb.
  rewrite read_loop_S by lia. destruct (Nat.leb_spec size ncap); [lia|].
  rewrite Hcur, (memcpy_from_index b i npos ncap Hc Hi) by lia.
  rewrite (next_index b i Hc Hi). msimpl. rewrite <- Hp. unfold moved.
  by replace (m_position b + ncap)%nat with (S i * m_baseSize b)%nat by lia.
Qed.

Lemma moved_moved b n k : moved (moved b n) k = moved b (n + k).
Proof. unfold moved, set_cur, set_position, cursor_at. simpl. by rewrite Nat.add_assoc. Qed.
Lemma chain_moved b n : chain_ok b -> chain_ok (moved b n).
Proof. unfold moved. auto with cxk. Qed.

(** Reads that start on a block boundary renew nothing they need. *)
Lemma read_loop_aligned fuel size acc i b :
  chain_ok b -> (length (m_nodes b) <= fuel + i)%nat -> (0 < size)%nat -> (i < length (m_nodes b))%nat ->
  m_cur b = Some i -> m_position b = (i * m_baseSize b)%nat ->
  (m_position b + size <= m_capacity b)%nat ->
  read_loop fuel size 0 (m_baseSize b) acc b =
    (Ret (acc ++ slice (m_position b) size (flat b)), moved b size).
Proof.
  revert size acc i b.
  induction fuel as [|fuel IH]; intros size acc i b Hc Hfuel Hs Hi Hcur Hp Hroom; [lia|].
  pose proof (ch_base _ Hc) as Hb. pose proof (ch_cap _ Hc) as Hcap.
  destruct (decide (size <= m_baseSize b)%nat) as [Hle|Hgt].
  { apply (read_last _ _ _ _ _ i); auto; lia. }
  rewrite (read_block _ _ _ _ _ i) by (auto; lia).
  set (b1 := moved b (m_baseSize b)).
  assert (Hi' : (S i < length (m_nodes b))%nat) by nia.
  assert (Hcur1 : m_cur b1 = Some (S i)).
  { unfold b1, moved, cursor_at. simpl.
    destruct (pos_unique (m_baseSize b) (S i) 0 (m_position b + m_baseSize b)) as [-> _]; [lia|lia|].
    destruct (Nat.ltb_spec (m_position b + m_baseSize b) (m_capacity b)); [done|nia]. }
  change (m_baseSize b) with (m_baseSize b1) at 2.
  rewrite (IH _ _ (S i) b1); try (apply chain_moved; done); try done; try (simpl; lia).
  unfold b1. rewrite moved_moved. simpl. rewrite <- app_assoc, slice_app.
  by replace (m_baseSize b + (size - m_baseSize b))%nat with size by lia.
Qed.

(** [read] on its correct branch: the bytes after the cursor, and the cursor
    moved past them. *)
Lemma read_run b n :
  wf b -> (0 < n)%nat -> (m_position b + n <= m_size b)%nat -> reads_right b n ->
  read (Z.of_nat n) b = (Ret (slice (m_position b) n (flat b)), moved b n).
Proof.
  intros Hwf Hn Hle Hr. pose proof (wf_chain _ Hwf) as Hc. pose proof (wf_base _ Hwf) as Hb.
  pose proof (wf_size _ Hwf). pose proof (wf_cap _ Hwf) as Hcap.
  assert (Hcur : m_cur b = Some (m_position b / m_baseSize b)%nat).
  { rewrite (wf_cur _ Hwf). unfold cursor_at. by destruct (Nat.ltb_spec (m_position b) (m_capacity b)); [|lia]. }
  assert (Hi : (m_position b / m_baseSize b < length (m_nodes b))%nat) by (apply pos_index; lia).
  pose proof (pos_split (m_baseSize b) (m_position b) Hb) as Hps.
  pose proof (Nat.mod_upper_bound (m_position b) (m_baseSize b) ltac:(lia)) as Hmod.
  unfold read. msimpl. rewrite getReadSize_wf by done.
  destruct (Z.ltb_spec (Z.of_nat (m_size b - m_position b)) (Z.of_nat n)); [lia|].
  unfold mod_size. destruct (Nat.eqb_spec (m_baseSize b) 0); [lia|].
  rewrite Hcur, (node_size_index b _ Hc Hi). unfold sub_size. rewrite Nat2Z.id.
  set (i := (m_position b / m_baseSize b)%nat) in *. set (npos := (m_position b mod m_baseSize b)%nat) in *.
  destruct (Nat.leb_spec npos (m_baseSize b)); [|lia].
  unfold reads_right in Hr. fold npos in Hr.
  destruct (decide (n <= m_baseSize b - npos)%nat) as [Hfit|Hfit].
  { by rewrite (read_last _ _ _ _ _ i) by (auto; lia). }
  destruct Hr as [E|Hr].
  { rewrite E, Nat.sub_0_r. by rewrite (read_loop_aligned _ _ _ i) by (auto; lia). }
  rewrite (read_block _ _ _ _ _ i) by (auto; lia).
  set (k := (m_baseSize b - npos)%nat) in *. set (b1 := moved b k).
  assert (Hi' : (S i < length (m_nodes b))%nat) by nia.
  destruct (length (m_nodes b)) as [|fuel] eqn:Hl; [lia|].
  assert (Hcur1 : m_cur b1 = Some (S i)).
  { unfold b1, moved, cursor_at. simpl.
    destruct (pos_unique (m_baseSize b) (S i) 0 (m_position b + k)) as [-> _]; [lia|lia|].
    destruct (Nat.ltb_spec (m_position b + k) (m_capacity b)); [done|lia]. }
  rewrite (read_last _ _ _ _ _ (S i) b1); try (apply chain_moved; done); try done;
    try (unfold b1; simpl; rewrite ?Hl; lia).
  unfold b1. rewrite moved_moved. simpl. rewrite slice_app.
  by replace (k + (n - k))%nat with n by lia.
Qed.

Lemma wf_moved b n : wf b -> (m_position b + n <= m_size b)%nat -> wf (moved b n).
Proof. intros [] ?. constructor; simpl; try done; lia. Qed.

Lemma read_short b n :
  wf b -> Z.of_nat (m_size b - m_position b) < n -> read n b = (Throw OutOfRange, b).
Proof.
  intros Hwf Hn. unfold read. msimpl. rewrite getReadSize_wf by done.
  by destruct (Z.ltb_spec (Z.of_nat (m_size b - m_position b)) n); [|lia].
Qed.
End Read.

(** ** Seeking, views and files *)
Section Views.
Context {heap : Heap}.

Lemma seek_loop_spec fuel v i b :
  chain_ok b -> (length (m_nodes b) <= fuel + i)%nat -> (i < length (m_nodes b))%nat ->
  m_cur b = Some i -> (i * m_baseSize b + v <= m_capacity b)%nat ->
  seek_loop fuel v b = (Ret tt, set_cur (cursor_at b (i * m_baseSize b + v)) b).
Proof.
  revert v i b. induction fuel as [|fuel IH]; intros v i b Hc Hfuel Hi Hcur Hv; [lia|].
  pose proof (ch_base _ Hc) as Hb. pose proof (ch_cap _ Hc) as Hcap.
  cbn [seek_loop]. msimpl. rewrite Hcur, (node_size_index b i Hc Hi).
  destruct (Nat.ltb_spec (m_baseSize b) v) as [Hlt|Hge].
  - rewrite (next_index b i Hc Hi).
    assert (E : cursor_at b (S i * m_baseSize b) = Some (S i)).
    { unfold cursor_at. rewrite Nat.div_mul by lia.
      destruct (Nat.ltb_spec (S i * m_baseSize b) (m_capacity b)); [done|nia]. }
    rewrite E, (IH _ (S i)); simpl; auto with cxk; try nia.
    unfold set_cur, cursor_at. simpl.
    by replace (m_baseSize b + i * m_baseSize b + (v - m_baseSize b))%nat with (i * m_baseSize b + v)%nat by lia.
  - destruct (Nat.eqb_spec v (m_baseSize b)) as [->|Hne].
    + rewrite (next_index b i Hc Hi).
      by replace (i * m_baseSize b + m_baseSize b)%nat with (S i * m_baseSize b)%nat by lia.
    + f_equal. unfold cursor_at.
      destruct (pos_unique (m_baseSize b) i v (i * m_baseSize b + v)) as [-> _]; [lia|lia|].
      destruct (Nat.ltb_spec (i * m_baseSize b + v) (m_capacity b)); [|nia].
      rewrite <- Hcur. by destruct b.
Qed.

Definition sought (b : ByteArray) (v : nat) : ByteArray :=
  set_cur (cursor_at b v) (set_size (Nat.max (m_size b) v) (set_position v b)).

(** No hypothesis on the position or the size: [setPosition] also repairs the
    cursor of a cleared buffer. *)
Lemma setPosition_run b v :
  chain_ok b -> (0 < length (m_nodes b))%nat -> (v <= m_capacity b)%nat ->
  setPosition v b = (Ret tt, sought b v).
Proof.
  intros Hc Hr Hv. unfold setPosition. msimpl.
  destruct (Nat.ltb_spec (m_capacity b) v); [lia|]. cbv beta iota zeta.
  match goal with |- seek_loop _ _ ?x = _ => set (b1 := x) end.
  assert (E : b1 = set_cur (Some 0%nat) (set_size (Nat.max (m_size b) v) (set_position v b))).
  { unfold b1. simpl. destruct (Nat.ltb_spec (m_size b) v); simpl.
    - by rewrite Nat.max_r by lia.
    - rewrite Nat.max_l by lia. by destruct b. }
  rewrite (seek_loop_spec _ v 0 b1); rewrite E; simpl; auto; try lia.
  by destruct Hc; constructor.
Qed.
Lemma wf_sought b v : wf b -> (v <= m_capacity b)%nat -> wf (sought b v).
Proof. intros [] ?. constructor; simpl; try done; lia. Qed.

(** Rewound after writing at the end, everything written is unread. *)
Lemma unread_rewind b : wf b -> m_size b = m_position b -> unread (sought b 0) = written b.
Proof.
  intros Hwf Hs. pose proof (wf_size _ Hwf). unfold unread, written, slice. simpl.
  rewrite Nat.max_l, Nat.sub_0_r, drop_0, Hs by lia. done.
Qed.
Lemma length_written b : wf b -> length (written b) = m_position b.
Proof.
  intros Hwf. pose proof (wf_size _ Hwf). pose proof (wf_pos _ Hwf). unfold written.
  rewrite length_take, length_flat by auto with cxk. lia.
Qed.

(** A list of [iovec]s covers the bytes from [p] to [q], in order, each inside
    its block. *)
Fixpoint covers (base p : nat) (iovs : list iovec) (q : nat) : Prop :=
  match iovs with
  | [] => p = q
  | v :: iovs' =>
      p = (iov_node v * base + iov_off v)%nat /\ (iov_off v + iov_len v <= base)%nat /\
      covers base (p + iov_len v) iovs' q
  end.
Lemma covers_snoc base p iovs q v :
  covers base p iovs q -> q = (iov_node v * base + iov_off v)%nat ->
  (iov_off v + iov_len v <= base)%nat ->
  covers base p (iovs ++ [v]) (q + iov_len v).
Proof.
  revert p. induction iovs as [|w iovs IH]; intros p; simpl.
  - intros -> Hq Hl. done.
  - intros (H1 & H2 & H3) Hq Hl. split_and!; auto.
Qed.
(** The bytes the [iovec]s designate. *)
Definition gather (b : ByteArray) (iovs : list iovec) : list Z :=
  concat (map (fun v => slice (iov_off v) (iov_len v) (nth (iov_node v) (m_nodes b) [])) iovs).
Lemma covers_gather b iovs p q :
  chain_ok b -> covers (m_baseSize b) p iovs q -> (q <= m_capacity b)%nat ->
  (p <= q)%nat /\ gather b iovs = slice p (q - p) (flat b).
Proof.
  intros Hc. revert p. induction iovs as [|v iovs IH]; intros p; cbn [covers].
  - intros -> _. split; [done|]. unfold slice. by rewrite Nat.sub_diag.
  - intros (Hp & Hl & Hcov) Hq. destruct (IH _ Hcov Hq) as [Hle Hg]. split; [lia|].
    unfold gather in *. cbn [map concat]. rewrite Hg.
    pose proof (ch_cap _ Hc). pose proof (ch_base _ Hc).
    destruct (decide (iov_len v = 0%nat)) as [E|E].
    { rewrite E, !Nat.add_0_r. done. }
    assert (Hi : (iov_node v < length (m_nodes b))%nat) by nia.
    destruct (lookup_lt_is_Some_2 _ _ Hi) as [nd Hnd].
    rewrite (nth_lookup_Some _ _ _ _ Hnd).
    rewrite (concat_block (m_baseSize b) (iov_node v) _ _ (m_nodes b) nd) by (done || by destruct Hc).
    rewrite <- Hp, slice_app. f_equal. lia.
Qed.

Lemma buffers_loop_spec fuel b i len npos acc p0 :
  chain_ok b -> (length (m_nodes b) <= fuel + i)%nat -> (i < length (m_nodes b))%nat ->
  (npos <= m_baseSize b)%nat -> (i * m_baseSize b + npos + len <= m_capacity b)%nat ->
  covers (m_baseSize b) p0 acc (i * m_baseSize b + npos) ->
  exists iovs, buffers_loop fuel b (Some i) len npos (m_baseSize b - npos) acc = Ret iovs /\
    covers (m_baseSize b) p0 iovs (i * m_baseSize b + npos + len).
Proof.
  revert i len npos acc.
  induction fuel as [|fuel IH]; intros i len npos acc Hc Hfuel Hi Hnp Hroom Hcov; [lia|].
  pose proof (ch_base _ Hc) as Hb. pose proof (ch_cap _ Hc) as Hcap.
  cbn [buffers_loop]. destruct (Nat.eqb_spec len 0) as [->|Hl0].
  { exists acc. by rewrite Nat.add_0_r. }
  destruct (deref_index b i Hc Hi) as (nd & _ & _ & ->). msimpl.
  destruct (Nat.leb_spec len (m_baseSize b - npos)) as [Hle|Hgt].
  { eexists; split; [done|].
    apply (covers_snoc _ _ _ _ (mkIovec i npos len)); simpl; [done|done|lia]. }
  rewrite (next_index b i Hc Hi). unfold cursor_at.
  destruct (Nat.ltb_spec (S i * m_baseSize b) (m_capacity b)); [|nia].
  rewrite Nat.div_mul, (node_size_index b (S i) Hc) by nia.
  destruct (IH (S i) (len - (m_baseSize b - npos))%nat 0%nat
    (acc ++ [mkIovec i npos (m_baseSize b - npos)])) as (iovs & Hrun & Hc'); try nia; [done| |].
  { replace (S i * m_baseSize b + 0)%nat with (i * m_baseSize b + npos + (m_baseSize b - npos))%nat by lia.
    apply (covers_snoc _ _ _ _ (mkIovec i npos (m_baseSize b - npos))); simpl; [done|done|lia]. }
  rewrite Nat.sub_0_r in Hrun. exists iovs. split; [done|].
  by replace (i * m_baseSize b + npos + len)%nat
    with (S i * m_baseSize b + 0 + (len - (m_baseSize b - npos)))%nat by lia.
Qed.

(** The common prologue of the views: the cursor's block and offset. *)
Lemma cursor_run b :
  wf b -> (m_position b < m_capacity b)%nat ->
  let i := (m_position b / m_baseSize b)%nat in
  let npos := (m_position b mod m_baseSize b)%nat in
  m_cur b = Some i /\ (i < length (m_nodes b))%nat /\ m_position b = (i * m_baseSize b + npos)%nat /\
  (npos < m_baseSize b)%nat /\ mod_size (m_position b) (m_baseSize b) = Ret npos /\
  node_size b (m_cur b) = Ret (m_baseSize b) /\
  sub_size (m_baseSize b) npos = Ret (m_baseSize b - npos)%nat.
Proof.
  intros Hwf Hlt i npos. pose proof (wf_base _ Hwf) as Hb. pose proof (wf_chain _ Hwf) as Hc.
  assert (Hcur : m_cur b = Some i).
  { rewrite (wf_cur _ Hwf). unfold cursor_at. by destruct (Nat.ltb_spec (m_position b) (m_capacity b)); [|lia]. }
  assert (Hi : (i < length (m_nodes b))%nat) by (apply pos_index; [|rewrite <- (wf_cap _ Hwf)]; done).
  pose proof (Nat.mod_upper_bound (m_position b) (m_baseSize b) ltac:(lia)) as Hmod.
  split_and!; try done.
  - by apply pos_split.
  - unfold mod_size. by destruct (Nat.eqb_spec (m_baseSize b) 0); [lia|].
  - rewrite Hcur. by apply node_size_index.
  - unfold sub_size. by destruct (Nat.leb_spec npos (m_baseSize b)); [|unfold npos in *; lia].
Qed.

Lemma getReadBuffers_run b len :
  wf b -> 0 <= len ->
  let n := Z.to_nat (Z.min len (Z.of_nat (m_size b - m_position b))) in
  exists iovs, getReadBuffers len b = Ret (Z.of_nat n, iovs) /\
    covers (m_baseSize b) (m_position b) iovs (m_position b + n).
Proof.
  intros Hwf Hlen n. unfold getReadBuffers. rewrite getReadSize_wf by done.
  pose proof (wf_size _ Hwf). pose proof (wf_pos _ Hwf).
  replace (if Z.of_nat (m_size b - m_position b) <? len then Z.of_nat (m_size b - m_position b) else len)
    with (Z.of_nat n) by (unfold n; zcase; lia).
  zcase. { exists []. split; [by replace n with 0%nat by lia|]. simpl. lia. }
  destruct (cursor_run b Hwf) as (Hcur & Hi & Hp & Hnp & -> & -> & Hsub); [lia|]. msimpl.
  rewrite Hsub, Hcur, Nat2Z.id.
  destruct (buffers_loop_spec (S (length (m_nodes b))) b (m_position b / m_baseSize b) n
    (m_position b mod m_baseSize b) [] (m_position b)) as (iovs & -> & Hcov); auto with cxk; try lia.
  exists iovs. split; [done|]. by rewrite Hp at 2.
Qed.

End Views.

Section MoreViews.
Context {heap : Heap}.

(** The positional read follows the same blocks as the moving one: only the
    chain matters. *)
Lemma read_at_loop_nodes fuel b b' cur size npos ncap acc :
  m_nodes b = m_nodes b' ->
  read_at_loop fuel b cur size npos ncap acc = read_at_loop fuel b' cur size npos ncap acc.
Proof.
  intros E. revert cur size npos ncap acc.
  induction fuel as [|fuel IH]; intros; cbn [read_at_loop]; [done|].
  unfold memcpy_from, next, deref. rewrite E.
  destruct (size =? 0)%nat, (size <=? ncap)%nat; try done.
  destruct cur as [i|]; msimpl; [|done]. destruct (m_nodes b' !! i); [|done].
  destruct (npos + ncap <=? length l)%nat; [|done].
  apply IH.
Qed.
Lemma memcpy_from_Ret b p off n c : memcpy_from b p off n = Ret c ->
  exists i nd, p = Some i /\ m_nodes b !! i = Some nd.
Proof.
  unfold memcpy_from, deref. destruct p as [i|]; msimpl; [|done].
  destruct (m_nodes b !! i) eqn:E; [eauto|done].
Qed.
Lemma read_loop_read_at fuel size npos ncap acc b :
  fst (read_loop fuel size npos ncap acc b) = read_at_loop fuel b (m_cur b) size npos ncap acc.
Proof.
  revert size npos ncap acc b. induction fuel as [|fuel IH]; intros size npos ncap acc b.
  { cbn [read_loop read_at_loop]. by destruct (size =? 0)%nat. }
  cbn [read_loop read_at_loop]. destruct (size =? 0)%nat; [done|]. msimpl.
  destruct (size <=? ncap)%nat.
  - destruct (memcpy_from b (m_cur b) npos size) eqn:Em; try done.
    destruct (memcpy_from_Ret _ _ _ _ _ Em) as (i & nd & -> & Hnd).
    unfold node_size, next, deref. rewrite Hnd. msimpl. by destruct (length nd =? npos + size)%nat.
  - destruct (memcpy_from b (m_cur b) npos ncap) eqn:Em; try done.
    destruct (memcpy_from_Ret _ _ _ _ _ Em) as (i & nd & Ec & Hnd).
    unfold next, deref. rewrite Ec, Hnd. msimpl. rewrite IH. by apply read_at_loop_nodes.
Qed.
Lemma read_read_at b n : fst (read n b) = read_at n (m_position b) b.
Proof.
  unfold read, read_at. msimpl. destruct (getReadSize b <? n); [done|].
  destruct (mod_size _ _); try done. destruct (node_size _ _); try done.
  destruct (sub_size _ _); try done. apply read_loop_read_at.
Qed.

Lemma toString_run b :
  wf b -> reads_right b (m_size b - m_position b) -> toString b = Ret (unread b).
Proof.
  intros Hwf Hr. unfold toString. rewrite getReadSize_wf by done. zcase.
  - unfold unread, slice. by replace (m_size b - m_position b)%nat with 0%nat by lia.
  - rewrite <- read_read_at. rewrite read_run; [done|done|lia|lia|done].
Qed.

(** Where [addCapacity] allocates too little, the cursor stays where it was on
    a chain that is too short. *)
Lemma addCapacity_undergrown b n :
  wf b -> ~ grows_enough b n ->
  let i := (m_position b / m_baseSize b)%nat in
  exists b1, addCapacity n b = (Ret tt, b1) /\ m_cur b1 = Some i /\ chain_ok b1 /\
    (i < length (m_nodes b1))%nat /\ m_position b1 = m_position b /\ m_baseSize b1 = m_baseSize b /\
    (m_capacity b1 < m_position b + n)%nat /\ (m_position b < m_capacity b)%nat.
Proof.
  intros Hwf Hg i. pose proof (wf_base _ Hwf) as Hb.
  assert (Hn : (m_capacity b - m_position b < n)%nat).
  { unfold grows_enough in Hg. lia. }
  destruct (addCapacity_run b _ Hwf Hn) as (ext & Hl & Hf & Hrun). cbv zeta in *.
  set (old_cap := (m_capacity b - m_position b)%nat) in *. set (need := (n - old_cap)%nat) in *.
  unfold grows_enough in Hg. fold old_cap need in Hg.
  destruct (Nat.ltb_spec old_cap (need mod m_baseSize b)); [lia|].
  rewrite Nat.add_0_r in *. set (count := (need / m_baseSize b)%nat) in *.
  pose proof (Nat.div_mod need (m_baseSize b) ltac:(lia)) as Hdm. fold count in Hdm.
  pose proof (wf_cap _ Hwf) as Hcap. pose proof (wf_pos _ Hwf). pose proof (wf_size _ Hwf).
  assert (Hlt : (m_position b < m_capacity b)%nat) by lia.
  destruct (cursor_run b Hwf Hlt) as (Hcur & Hi & _). fold i in Hcur, Hi.
  eexists. split; [exact Hrun|]. split_and!; try done.
  - unfold cursor_at. simpl. destruct (Nat.eqb_spec count 0); [done|].
    by destruct (Nat.ltb_spec (m_position b) (m_capacity b + count * m_baseSize b)); [|lia].
  - apply chain_set_cur. destruct (wf_chain _ Hwf).
    constructor; simpl; [done|by apply Forall_app|rewrite length_app; lia].
  - simpl. rewrite length_app. lia.
  - simpl. nia.
Qed.

(** [write] then dies on the null block after the last one. *)
Lemma write_undergrown b buf :
  wf b -> ~ grows_enough b (length buf) -> fst (write buf b) = Crash.
Proof.
  intros Hwf Hg.
  destruct (addCapacity_undergrown b _ Hwf Hg) as (b1 & Hrun & Hcur1 & Hc1 & Hi1 & Hp1 & Hb1 & Hcap1 & Hlt).
  destruct (cursor_run b Hwf Hlt) as (_ & _ & Hp & Hnp & Hmod & _ & Hsub).
  set (i := (m_position b / m_baseSize b)%nat) in *. set (npos := (m_position b mod m_baseSize b)%nat) in *.
  unfold write. destruct (Nat.eqb_spec (length buf) 0) as [E|E].
  { exfalso. apply Hg. rewrite E. apply grows_enough_within. lia. }
  mstep Hrun. msimpl. rewrite Hp1, Hb1, Hmod, Hcur1, (node_size_index b1 i Hc1 Hi1), Hb1, Hsub.
  pose proof (write_loop_overflow (S (length (m_nodes b1))) buf i npos b1) as Hov.
  rewrite Hp1, Hb1 in Hov. destruct (write_loop _ buf npos _ b1) as [o b2]. simpl in Hov.
  rewrite Hov; done || lia.
Qed.

(** Within the capacity, [write] does not grow the chain. *)
Lemma memcpy_to_capacity q off c b : m_capacity (snd (memcpy_to q off c b)) = m_capacity b.
Proof. unfold memcpy_to. by repeat case_match. Qed.
Lemma write_loop_capacity fuel buf npos ncap b :
  m_capacity (snd (write_loop fuel buf npos ncap b)) = m_capacity b.
Proof.
  revert buf npos ncap b. induction fuel as [|fuel IH]; intros buf npos ncap b; [by destruct buf|].
  destruct buf as [|x buf]; [done|]. set (l := x :: buf).
  rewrite write_loop_S by done. destruct (length l <=? ncap)%nat.
  - pose proof (memcpy_to_capacity (m_cur b) npos l b) as Hm. msimpl.
    destruct (memcpy_to (m_cur b) npos l b) as [[| | |] b1]; try done. simpl in Hm.
    destruct (node_size _ _); try done. destruct (_ =? _)%nat; [destruct (next _ _)|]; done.
  - pose proof (memcpy_to_capacity (m_cur b) npos (take ncap l) b) as Hm. msimpl.
    destruct (memcpy_to (m_cur b) npos _ b) as [[| | |] b1]; try done. simpl in Hm.
    destruct (next _ _); try done. destruct (node_size _ _); try done. by rewrite IH.
Qed.
Lemma write_capacity b buf :
  (m_position b + length buf <= m_capacity b)%nat -> m_capacity (snd (write buf b)) = m_capacity b.
Proof.
  intros Hle. unfold write. destruct (_ =? 0)%nat; [done|]. mstep (addCapacity_enough b _ Hle). msimpl.
  destruct (mod_size _ _); try done. destruct (node_size _ _); try done. destruct (sub_size _ _); try done.
  pose proof (write_loop_capacity (S (length (m_nodes b))) buf a a1 b) as Hw.
  destruct (write_loop _ _ _ _ b) as [[| | |] b1]; simpl in *; try done. by destruct (_ <? _)%nat.
Qed.

(** So does the walk of [getWriteBuffers]. *)
Lemma buffers_loop_overflow fuel b i len npos acc :
  chain_ok b -> (length (m_nodes b) <= fuel + i)%nat -> (i < length (m_nodes b))%nat ->
  (npos < m_baseSize b)%nat -> (m_capacity b < i * m_baseSize b + npos + len)%nat ->
  buffers_loop fuel b (Some i) len npos (m_baseSize b - npos) acc = Crash.
Proof.
  revert i len npos acc.
  induction fuel as [|fuel IH]; intros i len npos acc Hc Hfuel Hi Hnp Hover; [lia|].
  pose proof (ch_base _ Hc) as Hb. pose proof (ch_cap _ Hc) as Hcap.
  cbn [buffers_loop]. destruct (Nat.eqb_spec len 0) as [->|Hl0]; [nia|].
  destruct (deref_index b i Hc Hi) as (nd & _ & _ & ->). msimpl.
  destruct (Nat.leb_spec len (m_baseSize b - npos)) as [Hle|Hgt]; [nia|].
  rewrite (next_index b i Hc Hi). unfold cursor_at.
  destruct (Nat.ltb_spec (S i * m_baseSize b) (m_capacity b)) as [Hlt|]; [|done].
  rewrite Nat.div_mul, (node_size_index b (S i) Hc) by nia.
  pose proof (IH (S i) (len - (m_baseSize b - npos))%nat 0%nat (acc ++ [mkIovec i npos (m_baseSize b - npos)])) as H1.
  rewrite Nat.sub_0_r in H1. apply H1; try done; nia.
Qed.
Lemma getWriteBuffers_undergrown b n :
  wf b -> ~ grows_enough b n -> fst (getWriteBuffers n b) = Crash.
Proof.
  intros Hwf Hg.
  destruct (addCapacity_undergrown b _ Hwf Hg) as (b1 & Hrun & Hcur1 & Hc1 & Hi1 & Hp1 & Hb1 & Hcap1 & Hlt).
  destruct (cursor_run b Hwf Hlt) as (_ & _ & Hp & Hnp & Hmod & _ & Hsub).
  unfold getWriteBuffers. destruct (Nat.eqb_spec n 0) as [E|E].
  { exfalso. apply Hg. rewrite E. apply grows_enough_within. lia. }
  mstep Hrun. msimpl. rewrite Hp1, Hb1, Hmod, Hcur1, (node_size_index b1 _ Hc1 Hi1), Hb1, Hsub.
  rewrite <- Hb1. rewrite buffers_loop_overflow; try done; try lia; rewrite Hb1; lia.
Qed.
End MoreViews.

(** ** Properties *)
Section Properties.
Context {heap : Heap}.

(** Reading past the second block: the third piece is taken one block late,
    because [ncap] is still the room of the first block. *)
Lemma read_skips_run b n :
  wf b -> let room := (m_baseSize b - m_position b mod m_baseSize b)%nat in
  (m_position b mod m_baseSize b <> 0)%nat -> (2 * room < n <= 3 * room)%nat ->
  (m_position b + n <= m_size b)%nat -> (m_position b + room + m_baseSize b < m_capacity b)%nat ->
  fst (read (Z.of_nat n) b) =
    Ret (slice (m_position b) (2 * room) (flat b) ++
         slice (m_position b + room + m_baseSize b) (n - 2 * room) (flat b)).
Proof.
  intros Hwf room Hoff Hn Hsz Hnext. pose proof (wf_chain _ Hwf) as Hc. pose proof (wf_base _ Hwf) as Hb.
  pose proof (wf_size _ Hwf). pose proof (wf_cap _ Hwf) as Hcap.
  destruct (cursor_run b Hwf ltac:(lia)) as (Hcur & Hi & Hp & Hnp & Hmod & Hns & Hsub).
  set (i := (m_position b / m_baseSize b)%nat) in *. set (npos := (m_position b mod m_baseSize b)%nat) in *.
  unfold read. msimpl. rewrite getReadSize_wf by done. zcase. rewrite Hmod, Hns, Hsub, Nat2Z.id.
  fold room. rewrite (read_block _ _ _ _ _ i) by (done || lia).
  assert (Hi2 : (S (S i) < length (m_nodes b))%nat) by nia.
  destruct (length (m_nodes b)) as [|[|fuel]] eqn:Hl; [lia|lia|].
  assert (Hcur1 : m_cur (moved b room) = Some (S i)).
  { unfold moved, cursor_at. simpl.
    destruct (pos_unique (m_baseSize b) (S i) 0 (m_position b + room)) as [-> _]; [lia|lia|].
    destruct (Nat.ltb_spec (m_position b + room) (m_capacity b)); [done|lia]. }
  rewrite read_loop_S by lia. destruct (Nat.leb_spec (n - room) room); [lia|].
  rewrite Hcur1, (memcpy_from_index (moved b room) (S i) 0 room), (next_index (moved b room) (S i));
    try (apply chain_moved; done); try (simpl; lia).
  msimpl. set (b2 := set_cur _ _).
  assert (Hc2 : chain_ok b2) by (unfold b2; auto using chain_moved with cxk).
  assert (Hcur2 : m_cur b2 = Some (S (S i))).
  { change (cursor_at b (S (S i) * m_baseSize b) = Some (S (S i))). unfold cursor_at.
    rewrite Nat.div_mul by lia.
    by destruct (Nat.ltb_spec (S (S i) * m_baseSize b) (m_capacity b)); [|lia]. }
  rewrite read_loop_S by lia. destruct (Nat.leb_spec (n - room - room) room); [|lia].
  rewrite Hcur2, (memcpy_from_index b2 (S (S i)) 0), (node_size_index b2 (S (S i)));
    try done; try (simpl; lia).
  msimpl. change (flat b2) with (flat b). change (flat (moved b room)) with (flat b).
  assert (E : (S i * m_baseSize b + 0 = m_position b + room)%nat) by lia. simpl m_baseSize.
  replace (S (S i) * m_baseSize b + 0)%nat with (m_position b + room + m_baseSize b)%nat by lia.
  rewrite E. replace (n - 2 * room)%nat with (n - room - room)%nat by lia.
  replace (slice (m_position b) (2 * room) (flat b)) with
    (slice (m_position b) room (flat b) ++ slice (m_position b + room) room (flat b))
    by (rewrite slice_app; f_equal; lia).
  destruct (_ =? _)%nat; [|done].
  rewrite (next_index b2 (S (S i))); [done|done|simpl; lia].
Qed.

Lemma slice_take {A} p n k (l : list A) : slice p (Nat.min n k) l = take k (slice p n l).
Proof. unfold slice. rewrite take_take. f_equal. lia. Qed.

Lemma wf_new n : (0 < n)%nat -> Z.of_nat n < 2 ^ 64 -> wf (new_ByteArray n).
Proof.
  intros. constructor; simpl; try lia.
  - constructor; [|done]. unfold new_Node. by rewrite length_map, length_seq.
  - unfold cursor_at. simpl. destruct (Nat.ltb_spec 0 n); [|lia]. by rewrite Nat.Div0.div_0_l.
Qed.

(** A chunk no larger than a block always grows enough from a block boundary. *)
Lemma grows_enough_boundary b n :
  wf b -> (m_position b mod m_baseSize b = 0)%nat -> (n <= m_baseSize b)%nat -> grows_enough b n.
Proof.
  intros Hwf Hm Hn. pose proof (wf_base _ Hwf). pose proof (wf_cap _ Hwf). pose proof (wf_pos _ Hwf).
  pose proof (wf_size _ Hwf). pose proof (pos_split (m_baseSize b) (m_position b) ltac:(lia)) as Hp.
  destruct (decide (m_position b = m_capacity b)) as [E|E]; [by apply grows_enough_at_end|].
  apply grows_enough_within. rewrite Hm in Hp.
  assert (m_position b / m_baseSize b < length (m_nodes b))%nat by (apply pos_index; lia). nia.
Qed.

Lemma readFromFile_loop_run fuel content b :
  wf b -> m_size b = m_position b -> (m_position b mod m_baseSize b = 0)%nat ->
  (length content < fuel)%nat ->
  Z.of_nat (m_position b + length content + m_baseSize b) < 2 ^ 64 ->
  exists b', readFromFile_loop fuel content b = (Ret tt, b') /\ wf b' /\
    written b' = written b ++ content /\ m_size b' = m_position b' /\
    m_position b' = (m_position b + length content)%nat.
Proof.
  revert content b. induction fuel as [|fuel IH]; intros content b Hwf Hsz Hm Hf Hfit; [lia|].
  pose proof (wf_base _ Hwf) as Hbase. pose proof (length_flat b (wf_chain _ Hwf)) as Hlen.
  pose proof (wf_pos _ Hwf). pose proof (wf_size _ Hwf).
  cbn [readFromFile_loop]. rewrite (bind_Ret get _ b b b eq_refl).
  set (c := take (m_baseSize b) content).
  assert (Hc : length c = Nat.min (m_baseSize b) (length content)) by apply length_take.
  destruct (write_run b c Hwf) as (b1 & ext & Hw & Hwf1 & Hp1 & Hs1 & _ & Hb1 & Hfl & Hle & _).
  { apply grows_enough_boundary; [done|done|lia]. }
  { unfold fits. lia. }
  assert (Hwr : written b1 = written b ++ c).
  { unfold written. rewrite Hfl, Hp1, take_patch, take_app_le by (done || lia). done. }
  mstep Hw. destruct (Nat.ltb_spec (length content) (m_baseSize b)).
  - exists b1. unfold c in *. rewrite take_ge in * by lia.
    split_and!; try done; lia.
  - rewrite Nat.min_l in Hc by done.
    destruct (IH (drop (m_baseSize b) content) b1 Hwf1) as (b2 & Hrun & Hwf2 & Hw2 & Hs2 & Hp2).
    { lia. }
    { rewrite Hp1, Hb1, Hc. rewrite <- Nat.Div0.add_mod_idemp_l, Hm, Nat.add_0_l. apply Nat.Div0.mod_same. }
    { rewrite length_drop. lia. }
    { rewrite length_drop. lia. }
    exists b2. rewrite length_drop in Hp2. split_and!; try done; [|lia].
    rewrite Hw2, Hwr, <- app_assoc. unfold c. by rewrite take_drop.
Qed.

(** C2: [write], on every well-formed buffer for which [addCapacity] grows the
    chain enough, succeeds and stores the bytes at the cursor: the flat contents
    are the old ones (extended by new blocks) overwritten at the position, the
    position advances by the length, the size is the maximum of the old size
    and the new position, and the buffer stays well formed. *)
Theorem write_stores b buf :
  wf b -> grows_enough b (length buf) -> fits b (length buf) ->
  exists b' ext, write buf b = (Ret tt, b') /\ wf b' /\
    flat b' = patch (m_position b) buf (flat b ++ ext) /\
    m_position b' = (m_position b + length buf)%nat /\
    m_size b' = Nat.max (m_size b) (m_position b + length buf) /\
    m__endian b' = m__endian b.
Proof.
  intros Hwf Hg Hf. destruct (write_run b buf Hwf Hg Hf) as (b' & ext & ? & ? & ? & ? & ? & ? & ? & ?).
  by exists b', ext.
Qed.

(** C30: [write] crashes exactly when [addCapacity] allocates too little, that is
    when the bytes needed beyond the free room leave a last partial block no
    larger than that room: the copy then runs into the null pointer after the
    last block. *)
Theorem write_crash_iff b buf :
  wf b -> fits b (length buf) ->
  fst (write buf b) = Crash <->
  (m_capacity b - m_position b < length buf)%nat /\
  (0 < (length buf - (m_capacity b - m_position b)) mod m_baseSize b
     <= m_capacity b - m_position b)%nat.
Proof.
  intros Hwf Hf.
  assert (E : ~ grows_enough b (length buf) <->
    (m_capacity b - m_position b < length buf)%nat /\
    (0 < (length buf - (m_capacity b - m_position b)) mod m_baseSize b
       <= m_capacity b - m_position b)%nat) by (unfold grows_enough; cbv zeta; lia).
  rewrite <- E. split; [|by apply write_undergrown].
  intros Hcr Hg. destruct (write_run b buf Hwf Hg Hf) as (b' & ext & Hw & _). by rewrite Hw in Hcr.
Qed.

(** C3: bytes written at the cursor are read back: after [write], seeking to the
    old position and reading the same number of bytes returns them and leaves
    the cursor where [write] left it, when the bytes span at most twice the
    room of the first block (or start at a block boundary). *)
Theorem write_read_roundtrip b buf :
  wf b -> buf <> [] -> grows_enough b (length buf) -> fits b (length buf) ->
  reads_right b (length buf) ->
  exists b1 b2 b3, write buf b = (Ret tt, b1) /\ setPosition (m_position b) b1 = (Ret tt, b2) /\
    read (Z.of_nat (length buf)) b2 = (Ret buf, b3) /\ wf b3 /\ m_position b3 = m_position b1 /\
    m_size b3 = m_size b1.
Proof.
  intros Hwf Hne Hg Hf Hr.
  destruct (write_run b buf Hwf Hg Hf) as (b1 & ext & Hw & Hwf1 & Hp1 & Hs1 & _ & Hb1 & Hfl & Hle & Hcap).
  pose proof (wf_pos _ Hwf). pose proof (wf_size _ Hwf).
  assert (Hlen : (0 < length buf)%nat) by (destruct buf; [done|simpl; lia]).
  set (b2 := sought b1 (m_position b)).
  assert (Hwf2 : wf b2) by (apply wf_sought; [done|lia]).
  assert (Hs2 : m_size b2 = m_size b1) by (simpl; lia).
  exists b1, b2, (moved b2 (length buf)). split_and!; [done| | | | |].
  - apply setPosition_run; [auto with cxk|apply (wf_root _ Hwf1)|lia].
  - rewrite read_run; [|done|done|simpl; lia|by unfold reads_right; simpl; rewrite Hb1].
    change (flat b2) with (flat b1). rewrite Hfl. simpl. by rewrite slice_patch.
  - apply wf_moved; [done|]. simpl. lia.
  - simpl. lia.
  - simpl. lia.
Qed.

(** [read] of [n] available bytes returns the [n] bytes after the cursor and
    moves the cursor past them when [n] is at most twice the room left in the
    current block; asking for more than is available throws [out_of_range] and
    changes nothing; and the positional [read] at the cursor returns what
    [read] returns. *)
Theorem read_spec b n :
  wf b -> (0 < n)%nat ->
  ((m_position b + n <= m_size b)%nat -> reads_right b n ->
     exists b', read (Z.of_nat n) b = (Ret (take n (unread b)), b') /\ wf b' /\
       unread b' = drop n (unread b) /\ m_position b' = (m_position b + n)%nat) /\
  ((m_size b < m_position b + n)%nat -> read (Z.of_nat n) b = (Throw OutOfRange, b)) /\
  read_at (Z.of_nat n) (m_position b) b = fst (read (Z.of_nat n) b).
Proof.
  intros Hwf Hn. split_and!.
  - intros Hle Hr. exists (moved b n). split_and!; [|by apply wf_moved| |done].
    + rewrite read_run by done. unfold unread. rewrite <- slice_take. do 2 f_equal. f_equal. lia.
    + unfold unread, slice. simpl. change (flat (moved b n)) with (flat b).
      rewrite skipn_firstn_comm, drop_drop. f_equal. lia.
  - intros Hs. apply read_short; [done|]. pose proof (wf_pos _ Hwf). lia.
  - symmetry. apply read_read_at.
Qed.

(** A [read] that starts inside a block and spans more than twice the room
    left there skips bytes: its third piece is taken from the following block
    instead of from the bytes that come next. *)
Theorem read_skips b n :
  wf b -> let room := (m_baseSize b - m_position b mod m_baseSize b)%nat in
  (m_position b mod m_baseSize b <> 0)%nat -> (2 * room < n <= 3 * room)%nat ->
  (m_position b + n <= m_size b)%nat -> (m_position b + room + m_baseSize b < m_capacity b)%nat ->
  fst (read (Z.of_nat n) b) =
    Ret (slice (m_position b) (2 * room) (flat b) ++
         slice (m_position b + room + m_baseSize b) (n - 2 * room) (flat b)).
Proof. apply read_skips_run. Qed.

(** [setPosition] to a position within the capacity puts the cursor there
    (current block included) and raises the size to it, keeps the bytes and the
    well-formedness; beyond the capacity it throws and changes nothing. *)
Theorem setPosition_spec b v :
  wf b ->
  ((v <= m_capacity b)%nat -> exists b', setPosition v b = (Ret tt, b') /\ wf b' /\
     m_position b' = v /\ m_size b' = Nat.max (m_size b) v /\ flat b' = flat b) /\
  ((m_capacity b < v)%nat -> setPosition v b = (Throw OutOfRange, b)).
Proof.
  intros Hwf. split; intros Hv.
  - exists (sought b v). split_and!; [|by apply wf_sought|done..].
    apply setPosition_run; [auto with cxk|apply (wf_root _ Hwf)|done].
  - unfold setPosition. msimpl. by destruct (Nat.ltb_spec (m_capacity b) v); [|lia].
Qed.

(** [getReadBuffers] returns the minimum of the requested length and the
    readable bytes, and its [iovec]s designate, in order and block by block,
    exactly the bytes a [read] of that length returns. *)
Theorem getReadBuffers_spec b len :
  wf b -> 0 <= len ->
  let n := Z.to_nat (Z.min len (Z.of_nat (m_size b - m_position b))) in
  exists iovs, getReadBuffers len b = Ret (Z.of_nat n, iovs) /\
    covers (m_baseSize b) (m_position b) iovs (m_position b + n) /\
    gather b iovs = take n (unread b).
Proof.
  intros Hwf Hl n. destruct (getReadBuffers_run b len Hwf Hl) as (iovs & Hr & Hc).
  fold n in Hr, Hc. pose proof (wf_size _ Hwf). pose proof (wf_pos _ Hwf).
  exists iovs. split_and!; [done..|].
  destruct (covers_gather b iovs _ _ (wf_chain _ Hwf) Hc) as [_ Hg]; [unfold n; lia|].
  rewrite Hg. unfold unread. rewrite <- slice_take. f_equal. unfold n. lia.
Qed.

(** [clear] rewinds the cursor and keeps one block but does not reset the size:
    everything up to the old size counts as readable again, and the buffer is
    well formed only if the old size fits in the first block. *)
Theorem clear_keeps_size b :
  wf b ->
  m_position (clear b) = 0%nat /\ m_capacity (clear b) = m_baseSize b /\
  getReadSize (clear b) = Z.of_nat (m_size b) /\
  (wf (clear b) <-> (m_size b <= m_baseSize b)%nat).
Proof.
  intros Hwf. pose proof (wf_size _ Hwf). pose proof (wf_fits _ Hwf). pose proof (wf_pos _ Hwf).
  pose proof (wf_root _ Hwf). pose proof (wf_base _ Hwf). pose proof (wf_cap _ Hwf).
  assert (m_baseSize b <= m_capacity b)%nat by nia.
  split_and!; [done..| |split; [apply wf_size|]].
  - unfold getReadSize, clear, u64, wrapu. simpl. rewrite Z.sub_0_r. apply Z.mod_small. lia.
  - intros Hle. unfold clear. constructor; simpl; try lia.
    + apply Forall_take, (wf_nodes _ Hwf).
    + rewrite length_take. lia.
    + rewrite length_take. nia.
    + unfold cursor_at. simpl. destruct (Nat.ltb_spec 0 (m_baseSize b)); [|lia].
      by rewrite Nat.Div0.div_0_l.
Qed.

(** [readFromFile] into a buffer whose end is at a block boundary terminates
    and appends exactly the file's contents. *)
Theorem readFromFile_appends content b :
  wf b -> m_size b = m_position b -> (m_position b mod m_baseSize b = 0)%nat ->
  Z.of_nat (m_position b + length content + m_baseSize b) < 2 ^ 64 ->
  exists b', readFromFile (Some content) b = (Ret true, b') /\ wf b' /\
    written b' = written b ++ content /\ m_size b' = (m_size b + length content)%nat.
Proof.
  intros Hwf Hsz Hm Hf.
  destruct (readFromFile_loop_run (S (length content)) content b Hwf Hsz Hm)
    as (b' & Hrun & Hwf' & Hw & Hs & Hp); [lia|done|].
  exists b'. unfold readFromFile. mstep Hrun. split_and!; try done. lia.
Qed.
End Properties.

(** ** Witnesses

    Buffers of 4-byte blocks over memory that reads as zero. *)
Definition zero_heap : Heap := fun _ _ => 0.
#[local] Existing Instance zero_heap.
Definition small : ByteArray := new_ByteArray 4.
Definition twelve : ByteArray := snd (write [1; 2; 3; 4; 5; 6; 7; 8; 9; 10; 11; 12] small).
Definition twelve_at (p : nat) : ByteArray := snd (setPosition p twelve).

Ltac wf_compute :=
  constructor; cbv;
  first [ reflexivity | repeat constructor | intros; discriminate | lia ].

Lemma write_stores_witness :
  wf small /\ grows_enough small 12 /\ fits small 12 /\
  exists b' ext, write [1; 2; 3; 4; 5; 6; 7; 8; 9; 10; 11; 12] small = (Ret tt, b') /\ wf b' /\
    flat b' = patch 0 [1; 2; 3; 4; 5; 6; 7; 8; 9; 10; 11; 12] (flat small ++ ext) /\
    m_position b' = 12%nat /\ m_size b' = 12%nat /\ m__endian b' = CXK_BIG_ENDIAN.
Proof.
  assert (Hwf : wf small) by wf_compute.
  assert (Hg : grows_enough small 12) by (right; left; reflexivity).
  assert (Hf : fits small 12) by reflexivity.
  split_and!; [done..|]. by apply (write_stores small [1; 2; 3; 4; 5; 6; 7; 8; 9; 10; 11; 12]).
Defined.

Lemma write_crash_witness : wf small /\ fits small 5 /\ fst (write [1; 2; 3; 4; 5] small) = Crash.
Proof.
  assert (Hwf : wf small) by wf_compute. assert (Hf : fits small 5) by reflexivity.
  split_and!; [done..|]. apply (write_crash_iff small [1; 2; 3; 4; 5] Hwf Hf). simpl. lia.
Defined.

Lemma write_read_witness :
  wf (twelve_at 2) /\ grows_enough (twelve_at 2) 3 /\ fits (twelve_at 2) 3 /\
  reads_right (twelve_at 2) 3 /\
  exists b1 b2 b3, write [21; 22; 23] (twelve_at 2) = (Ret tt, b1) /\
    setPosition 2 b1 = (Ret tt, b2) /\ read 3 b2 = (Ret [21; 22; 23], b3) /\
    wf b3 /\ m_position b3 = m_position b1 /\ m_size b3 = m_size b1.
Proof.
  assert (Hwf : wf (twelve_at 2)) by wf_compute.
  assert (Hg : grows_enough (twelve_at 2) 3) by (left; cbv; lia).
  assert (Hf : fits (twelve_at 2) 3) by reflexivity.
  assert (Hr : reads_right (twelve_at 2) 3) by (right; cbv; lia).
  split_and!; [done..|]. by apply (write_read_roundtrip (twelve_at 2) [21; 22; 23]).
Defined.

Lemma read_spec_witness :
  wf (twelve_at 2) /\ fst (read 4 (twelve_at 2)) = Ret [3; 4; 5; 6] /\
  read 11 (twelve_at 2) = (Throw OutOfRange, twelve_at 2).
Proof.
  assert (Hwf : wf (twelve_at 2)) by wf_compute.
  split_and!; [done|..].
  - destruct (read_spec (twelve_at 2) 4 Hwf ltac:(lia)) as [H _].
    destruct H as (b' & E & _); [cbv; lia|right; cbv; lia|]. exact (f_equal fst E).
  - apply (read_spec (twelve_at 2) 11 Hwf ltac:(lia)). cbv. lia.
Defined.

Lemma read_skips_witness : wf (twelve_at 3) /\ fst (read 3 (twelve_at 3)) = Ret [4; 5; 9].
Proof.
  assert (Hwf : wf (twelve_at 3)) by wf_compute. split; [done|].
  etransitivity; [apply (read_skips (twelve_at 3) 3 Hwf); cbv; lia|reflexivity].
Defined.

Lemma setPosition_witness :
  wf twelve /\ (exists b', setPosition 8 twelve = (Ret tt, b') /\ wf b' /\ m_position b' = 8%nat /\
    m_size b' = 12%nat /\ flat b' = flat twelve) /\
  setPosition 13 twelve = (Throw OutOfRange, twelve).
Proof.
  assert (Hwf : wf twelve) by wf_compute. split_and!; [done|..].
  - apply (setPosition_spec twelve 8 Hwf). cbv. lia.
  - apply (setPosition_spec twelve 13 Hwf). cbv. lia.
Defined.

Lemma getReadBuffers_witness :
  wf (twelve_at 2) /\ exists iovs, getReadBuffers 5 (twelve_at 2) = Ret (5, iovs) /\
    covers 4 2 iovs 7 /\ gather (twelve_at 2) iovs = [3; 4; 5; 6; 7].
Proof.
  assert (Hwf : wf (twelve_at 2)) by wf_compute. split; [done|].
  by apply (getReadBuffers_spec (twelve_at 2) 5 Hwf).
Defined.

Lemma clear_witness : wf twelve /\ getReadSize (clear twelve) = 12 /\ ~ wf (clear twelve).
Proof.
  assert (Hwf : wf twelve) by wf_compute.
  destruct (clear_keeps_size twelve Hwf) as (_ & _ & Hr & Hiff).
  split_and!; [done|done|]. intros H. apply Hiff in H. vm_compute in H. lia.
Defined.

Lemma readFromFile_witness :
  wf small /\ exists b', readFromFile (Some [1; 2; 3; 4; 5; 6]) small = (Ret true, b') /\ wf b' /\
    written b' = [1; 2; 3; 4; 5; 6] /\ m_size b' = 6%nat.
Proof.
  assert (Hwf : wf small) by wf_compute. split; [done|].
  by apply (readFromFile_appends [1; 2; 3; 4; 5; 6] small Hwf).
Defined.
