(* ===== verification/ByteCodec.v ===== *)
(** * Typed accessors of the buffer (cxk/bytearray.cpp)

    Every typed [writeX]/[readX] of [ByteArray] goes through [write] and
    [read] and looks at nothing else but the byte order.  They are defined and
    verified here against an interface, [ByteBuffer], with its laws
    ([ByteBufferSpec]); the block-chain buffer of the file ByteArray is the
    instance at the end. *)
From S2P Require Import Prelude Endian ByteArray.

(** ** The interface *)
Class ByteBuffer (Buf : Type) := {
  bb_write : list Z -> M Buf unit;
  bb_read : Z -> M Buf (list Z);
  bb_endian : Buf -> Z
}.

(** A buffer promises that it appends what is written and hands out what is
    unread in order, as long as the client stays within a budget. *)
Class ByteBufferSpec (Buf : Type) `{ByteBuffer Buf} := {
  bb_written : Buf -> list Z;
  bb_unread : Buf -> list Z;
  bb_can_write : Buf -> nat -> Prop;
  bb_can_read : Buf -> nat -> Prop;
  bb_can_write_le : forall s n m, bb_can_write s n -> (m <= n)%nat -> bb_can_write s m;
  bb_can_read_le : forall s n m, bb_can_read s n -> (m <= n)%nat -> bb_can_read s m;
  bb_write_law : forall s bs, bb_can_write s (length bs) ->
    exists s', bb_write bs s = (Ret tt, s') /\ bb_written s' = bb_written s ++ bs /\
      bb_endian s' = bb_endian s /\
      (forall n, bb_can_write s (length bs + n) -> bb_can_write s' n);
  bb_read_law : forall s bs rest, bb_unread s = bs ++ rest -> bb_can_read s (length bs) ->
    exists s', bb_read (Z.of_nat (length bs)) s = (Ret bs, s') /\ bb_unread s' = rest /\
      bb_endian s' = bb_endian s /\
      (forall n, bb_can_read s (length bs + n) -> bb_can_read s' n);
  bb_read_short : forall s n, bb_can_read s 0 -> Z.of_nat (length (bb_unread s)) < n ->
    bb_read n s = (Throw OutOfRange, s)
}.

(** ** Zigzag *)
Definition EncodeZigzag32 (v : Z) : outcome Z :=
  if v <? 0 then n ← chk_signed 32 (- v); Ret (u32 (u32 (u32 n * 2) - 1))
  else d ← chk_signed 32 (v * 2); Ret (u32 d).
Definition EncodeZigzag64 (v : Z) : outcome Z :=
  if v <? 0 then n ← chk_signed 64 (- v); Ret (u64 (u64 (u64 n * 2) - 1))
  else d ← chk_signed 64 (v * 2); Ret (u64 d).
Definition DecodeZigzag32 (v : Z) : Z :=
  i32 (Z.lxor (Z.shiftr v 1) (u32 (- Z.land v 1))).
Definition DecodeZigzag64 (v : Z) : Z :=
  i64 (Z.lxor (Z.shiftr v 1) (u64 (- Z.land v 1))).

(** ** Varints

    The encoder fills a local array [tmp]; [room] is the number of its free
    cells, and a write past its end is undefined. *)
Fixpoint varint_loop (room : nat) (value : Z) : outcome (list Z) :=
  match room with
  | O => Crash
  | S room' =>
      if 0x80 <=? value then
        rest ← varint_loop room' (Z.shiftr value 7);
        Ret (u8 (Z.lor (Z.land value 0x7F) 0x80) :: rest)
      else Ret [u8 value]
  end.

Section Codec.
Context {Buf : Type} `{ByteBuffer Buf}.

(** ** Fixed-length writes *)
Definition writeFint8 (value : Z) : M Buf unit := bb_write (le_split 1 value).
Definition writeFuint8_t (value : Z) : M Buf unit := bb_write (le_split 1 value).

Definition writeFint16 (value : Z) : M Buf unit :=
  e ← gets bb_endian;
  bb_write (le_split 2 (if e =? CXK_BYTE_ORDER then value else byteswap_signed 2 value)).
Definition writeFuint16_t (value : Z) : M Buf unit :=
  e ← gets bb_endian;
  bb_write (le_split 2 (if e =? CXK_BYTE_ORDER then value else byteswap 2 value)).
Definition writeFint32 (value : Z) : M Buf unit :=
  e ← gets bb_endian;
  bb_write (le_split 4 (if e =? CXK_BYTE_ORDER then value else byteswap_signed 4 value)).
Definition writeFuint32_t (value : Z) : M Buf unit :=
  e ← gets bb_endian;
  bb_write (le_split 4 (if e =? CXK_BYTE_ORDER then value else byteswap 4 value)).
Definition writeFint64 (value : Z) : M Buf unit :=
  e ← gets bb_endian;
  bb_write (le_split 8 (if e =? CXK_BYTE_ORDER then value else byteswap_signed 8 value)).
Definition writeFuint64_t (value : Z) : M Buf unit :=
  e ← gets bb_endian;
  bb_write (le_split 8 (if e =? CXK_BYTE_ORDER then value else byteswap 8 value)).

(** ** Variable-length writes *)
Definition writeUint32 (value : Z) : M Buf unit :=
  tmp ← lift (varint_loop 5 value); bb_write tmp.
Definition writeInt32 (value : Z) : M Buf unit :=
  v ← lift (EncodeZigzag32 value); writeUint32 v.
Definition writeUint64 (value : Z) : M Buf unit :=
  tmp ← lift (varint_loop 10 value); bb_write tmp.
Definition writeInt64 (value : Z) : M Buf unit :=
  v ← lift (EncodeZigzag64 value); writeUint64 v.

(** A [float] or [double] is its bit pattern: the code only copies it. *)
Definition writeFloat (bits : Z) : M Buf unit := writeFuint32_t bits.
Definition writeDouble (bits : Z) : M Buf unit := writeFuint64_t bits.

(** ** Strings: the size converts to the type of the length field *)
Definition str_size (str : list Z) : Z := Z.of_nat (length str).
Definition writeStringF16 (str : list Z) : M Buf unit :=
  writeFuint16_t (u16 (str_size str)) ;; bb_write str.
Definition writeStringF32 (str : list Z) : M Buf unit :=
  writeFuint32_t (u32 (str_size str)) ;; bb_write str.
Definition writeStringF64 (str : list Z) : M Buf unit :=
  writeFuint64_t (u64 (str_size str)) ;; bb_write str.
Definition writeStringVint (str : list Z) : M Buf unit :=
  writeFuint64_t (u64 (str_size str)) ;; bb_write str.
Definition writeStringWithoutLength (str : list Z) : M Buf unit :=
  writeFuint64_t (u64 (str_size str)) ;; bb_write str.

(** ** Fixed-length reads *)
Definition readFint8 : M Buf Z := v ← bb_read 1; mret (wraps 8 (le_combine v)).
Definition readFuint8_t : M Buf Z := v ← bb_read 1; mret (le_combine v).

(** The macro [XX(type)] at an unsigned and at a signed type of [n] bytes. *)
Definition read_unsigned (n : nat) : M Buf Z :=
  v ← bb_read (Z.of_nat n);
  e ← gets bb_endian;
  mret (if e =? CXK_BYTE_ORDER then le_combine v else byteswap n (le_combine v)).
Definition read_signed (n : nat) : M Buf Z :=
  v ← bb_read (Z.of_nat n);
  e ← gets bb_endian;
  let x := wraps (8 * Z.of_nat n) (le_combine v) in
  mret (if e =? CXK_BYTE_ORDER then x else byteswap_signed n x).

Definition readFint16 : M Buf Z := read_signed 2.
Definition readFuint16_t : M Buf Z := read_unsigned 2.
Definition readFint32 : M Buf Z := read_signed 4.
Definition readFuint32_t : M Buf Z := read_unsigned 4.
Definition readFint64 : M Buf Z := read_signed 8.
Definition readFuint64_t : M Buf Z := read_unsigned 8.

(** ** Variable-length reads: [for (int i = 0; i < w; i += 7)] *)
Fixpoint read_varint (w : Z) (fuel : nat) (i result : Z) : M Buf Z :=
  if i <? w then
    match fuel with
    | O => nofuel
    | S fuel =>
        b ← readFuint8_t;
        if b <? 0x80 then mret (Z.lor result (wrapu w (Z.shiftl b i)))
        else read_varint w fuel (i + 7) (Z.lor result (wrapu w (Z.shiftl (Z.land b 0x7F) i)))
    end
  else mret result.

Definition readUint32 : M Buf Z := read_varint 32 5 0 0.
Definition readInt32 : M Buf Z := v ← readUint32; mret (DecodeZigzag32 v).
Definition readUint64 : M Buf Z := read_varint 64 10 0 0.
Definition readInt64 : M Buf Z := v ← readUint64; mret (DecodeZigzag64 v).

Definition readFloat : M Buf Z := readFuint32_t.
Definition readDouble : M Buf Z := readFuint64_t.

(** [buff.resize(len)]: a length beyond [max_size()] throws. *)
Definition resize (len : Z) : M Buf unit :=
  if 2 ^ 63 - 1 <? len then throw LengthError else mret tt.

Definition readStringF16 : M Buf (list Z) := len ← readFuint16_t; resize len ;; bb_read len.
Definition readStringF32 : M Buf (list Z) := len ← readFuint32_t; resize len ;; bb_read len.
Definition readStringF64 : M Buf (list Z) := len ← readFuint64_t; resize len ;; bb_read len.
Definition readStringVint : M Buf (list Z) := len ← readFuint64_t; resize len ;; bb_read len.
End Codec.

(** ** The block-chain buffer as an instance *)
#[export] Instance ByteArray_buffer `{Heap} : ByteBuffer ByteArray := {|
  bb_write := ByteArray.write;
  bb_read := ByteArray.read;
  bb_endian := m__endian
|}.

(** ** Encoders and decoders

    [emits e m bs]: under byte order [e], [m] appends [bs].  [accepts e m bs a]:
    [m] takes [bs] off the unread bytes and returns [a]. *)
Section Combinators.
Context {Buf : Type} `{ByteBufferSpec Buf}.

Definition emits (e : Z) (m : M Buf unit) (bs : list Z) : Prop :=
  forall s, bb_endian s = e -> bb_can_write s (length bs) ->
  exists s', m s = (Ret tt, s') /\ bb_written s' = bb_written s ++ bs /\ bb_endian s' = e /\
    (forall n, bb_can_write s (length bs + n) -> bb_can_write s' n).

Definition accepts {A} (e : Z) (m : M Buf A) (bs : list Z) (a : A) : Prop :=
  forall s rest, bb_endian s = e -> bb_unread s = bs ++ rest -> bb_can_read s (length bs) ->
  exists s', m s = (Ret a, s') /\ bb_unread s' = rest /\ bb_endian s' = e /\
    (forall n, bb_can_read s (length bs + n) -> bb_can_read s' n).

(** A writer and a reader of values that agree on [v]. *)
Definition agree {A} (e : Z) (w : M Buf unit) (r : M Buf A) (v : A) (bs : list Z) : Prop :=
  emits e w bs /\ accepts e r bs v.

Lemma emits_write e bs : emits e (bb_write bs) bs.
Proof.
  intros s He Hc. destruct (bb_write_law s bs Hc) as (s' & ? & ? & ? & ?).
  exists s'. split_and!; auto; congruence.
Qed.
Lemma accepts_read e bs n : n = Z.of_nat (length bs) -> accepts e (bb_read n) bs bs.
Proof.
  intros -> s rest He Hu Hc. destruct (bb_read_law s bs rest Hu Hc) as (s' & ? & ? & ? & ?).
  exists s'. split_and!; auto; congruence.
Qed.
Lemma emits_seq e m1 m2 bs1 bs2 :
  emits e m1 bs1 -> emits e m2 bs2 -> emits e (m1 ;; m2) (bs1 ++ bs2).
Proof.
  intros H1 H2 s He Hc. rewrite length_app in Hc.
  destruct (H1 s He) as (s1 & Hr1 & Hw1 & He1 & Hb1).
  { eapply bb_can_write_le; [done|lia]. }
  destruct (H2 s1 He1 (Hb1 _ Hc)) as (s2 & Hr2 & Hw2 & He2 & Hb2).
  exists s2. split_and!; [|by rewrite Hw2, Hw1, app_assoc|done|].
  - mstep Hr1. done.
  - intros n Hn. apply Hb2, Hb1. by rewrite length_app, <- Nat.add_assoc in Hn.
Qed.
Lemma emits_lift {A} e (o : outcome A) a (k : A -> M Buf unit) bs :
  o = Ret a -> emits e (k a) bs -> emits e (lift o ≫= k) bs.
Proof. intros -> Hk s. apply Hk. Qed.
Lemma emits_endian e (k : Z -> M Buf unit) bs : emits e (k e) bs -> emits e (gets bb_endian ≫= k) bs.
Proof. intros Hk s He. unfold gets. msimpl. rewrite He. by apply Hk. Qed.

Lemma accepts_ret {A} e (a : A) : accepts e (mret a) [] a.
Proof. intros s rest He Hu Hc. exists s. split_and!; auto. Qed.
Lemma accepts_bind {A B} e (m : M Buf A) (k : A -> M Buf B) bs1 bs2 a b :
  accepts e m bs1 a -> accepts e (k a) bs2 b -> accepts e (m ≫= k) (bs1 ++ bs2) b.
Proof.
  intros H1 H2 s rest He Hu Hc. rewrite length_app in Hc. rewrite <- app_assoc in Hu.
  destruct (H1 s _ He Hu) as (s1 & Hr1 & Hu1 & He1 & Hb1).
  { eapply bb_can_read_le; [done|lia]. }
  destruct (H2 s1 _ He1 Hu1 (Hb1 _ Hc)) as (s2 & Hr2 & Hu2 & He2 & Hb2).
  exists s2. split_and!; [by mstep Hr1|done|done|].
  intros n Hn. apply Hb2, Hb1. by rewrite length_app, <- Nat.add_assoc in Hn.
Qed.
Lemma accepts_map {A B} e (m : M Buf A) (f : A -> B) bs a :
  accepts e m bs a -> accepts e (x ← m; mret (f x)) bs (f a).
Proof.
  intros Hm. rewrite <- (app_nil_r bs). eapply accepts_bind; [done|]. apply accepts_ret.
Qed.
Lemma accepts_endian {A} e (k : Z -> M Buf A) bs a :
  accepts e (k e) bs a -> accepts e (gets bb_endian ≫= k) bs a.
Proof. intros Hk s rest He. unfold gets. msimpl. rewrite He. by apply Hk. Qed.
Lemma accepts_eq {A} e (m : M Buf A) bs a a' : accepts e m bs a -> a = a' -> accepts e m bs a'.
Proof. by intros ? <-. Qed.

Lemma agree_seq {A B} e w1 w2 (r1 : M Buf A) (k : A -> M Buf B) v1 v2 bs1 bs2 :
  agree e w1 r1 v1 bs1 -> agree e w2 (k v1) v2 bs2 -> agree e (w1 ;; w2) (r1 ≫= k) v2 (bs1 ++ bs2).
Proof. intros [] []. split; [by apply emits_seq|by eapply accepts_bind]. Qed.
End Combinators.

(** ** Every accessor pair agrees *)

(** The bytes of an [n]-byte integer under a byte order. *)
Definition ordered (e : Z) (n : nat) (v : Z) : list Z :=
  if e =? CXK_BYTE_ORDER then le_split n v else rev (le_split n v).

Lemma length_ordered e n v : length (ordered e n v) = n.
Proof. unfold ordered. destruct (_ =? _); rewrite ?length_rev; apply length_le_split. Qed.
Lemma ordered_bytes e n v : Forall byte_ok (ordered e n v).
Proof.
  unfold ordered. destruct (_ =? _); [|apply Forall_rev]; apply le_split_bytes.
Qed.
Lemma le_split_wraps n v : (0 < n)%nat -> le_split n (wraps (8 * Z.of_nat n) v) = le_split n v.
Proof.
  intros. rewrite <- (le_split_wrapu n (wraps _ v)), <- (le_split_wrapu n v). f_equal.
  unfold wrapu, wraps. rewrite Zminus_mod_idemp_l. f_equal. lia.
Qed.
Lemma le_split_byteswap_signed n v : (0 < n)%nat -> le_split n (byteswap_signed n v) = rev (le_split n v).
Proof. intros. unfold byteswap_signed. rewrite le_split_wraps by done. apply le_split_byteswap. Qed.

Lemma le_combine_rev n v : le_combine (rev (le_split n v)) = byteswap n v.
Proof. unfold byteswap, bswap. by rewrite le_split_wrapu. Qed.

Section Accessors.
Context {Buf : Type} `{ByteBufferSpec Buf}.

Lemma emits_unsigned e n v :
  emits e (o ← gets bb_endian; bb_write (le_split n (if o =? CXK_BYTE_ORDER then v else byteswap n v)))
    (ordered e n v).
Proof.
  apply emits_endian. unfold ordered. destruct (e =? CXK_BYTE_ORDER).
  - apply emits_write.
  - rewrite le_split_byteswap. apply emits_write.
Qed.
Lemma emits_signed e n v :
  (0 < n)%nat ->
  emits e (o ← gets bb_endian; bb_write (le_split n (if o =? CXK_BYTE_ORDER then v else byteswap_signed n v)))
    (ordered e n v).
Proof.
  intros Hn. apply emits_endian. unfold ordered. destruct (e =? CXK_BYTE_ORDER).
  - apply emits_write.
  - rewrite le_split_byteswap_signed by done. apply emits_write.
Qed.
Lemma accepts_unsigned e n v :
  accepts e (read_unsigned n) (ordered e n v) (wrapu (8 * Z.of_nat n) v).
Proof.
  unfold read_unsigned. rewrite <- (app_nil_r (ordered e n v)). eapply accepts_bind.
  { apply accepts_read. by rewrite length_ordered. }
  apply accepts_endian. eapply accepts_eq; [apply accepts_ret|].
  unfold ordered. destruct (e =? CXK_BYTE_ORDER); [apply le_combine_split|].
  rewrite le_combine_rev. apply byteswap_involutive.
Qed.
Lemma accepts_signed e n v :
  (0 < n)%nat -> accepts e (read_signed n) (ordered e n v) (wraps (8 * Z.of_nat n) v).
Proof.
  intros Hn. unfold read_signed. rewrite <- (app_nil_r (ordered e n v)). eapply accepts_bind.
  { apply accepts_read. by rewrite length_ordered. }
  apply accepts_endian. eapply accepts_eq; [apply accepts_ret|]. cbv beta zeta.
  unfold ordered. destruct (e =? CXK_BYTE_ORDER).
  - by rewrite le_combine_split, wraps_wrapu by lia.
  - rewrite le_combine_rev. rewrite <- (byteswap_signed_involutive n v Hn).
    f_equal.
Qed.

Lemma agree_unsigned e n v :
  0 <= v < 2 ^ (8 * Z.of_nat n) ->
  agree e (o ← gets bb_endian; bb_write (le_split n (if o =? CXK_BYTE_ORDER then v else byteswap n v)))
    (read_unsigned n) v (ordered e n v).
Proof.
  intros Hv. split; [apply emits_unsigned|].
  rewrite <- (wrapu_id _ _ Hv) at 2. apply accepts_unsigned.
Qed.
Lemma agree_signed e n v :
  (0 < n)%nat -> - 2 ^ (8 * Z.of_nat n - 1) <= v < 2 ^ (8 * Z.of_nat n - 1) ->
  agree e (o ← gets bb_endian; bb_write (le_split n (if o =? CXK_BYTE_ORDER then v else byteswap_signed n v)))
    (read_signed n) v (ordered e n v).
Proof.
  intros Hn Hv. split; [by apply emits_signed|].
  rewrite <- (wraps_id (8 * Z.of_nat n) v) at 2 by (done || lia). by apply accepts_signed.
Qed.

Lemma accepts_byte e b : byte_ok b -> accepts e readFuint8_t [b] b.
Proof.
  intros Hb. unfold readFuint8_t. eapply accepts_eq.
  - eapply (accepts_map _ _ le_combine). by apply accepts_read.
  - simpl. lia.
Qed.
Lemma agree_uint8 e v : byte_ok v -> agree e (writeFuint8_t v) readFuint8_t v [v].
Proof.
  intros Hb. split; [|by apply accepts_byte]. unfold writeFuint8_t. simpl.
  unfold byte_ok in Hb. rewrite Z.mod_small by lia. apply emits_write.
Qed.
End Accessors.

(** ** Varints agree *)

(** A statement about the 128 seven-bit values, by evaluation. *)
Lemma seven_bits (P : Z -> bool) x :
  forallb (fun n => P (Z.of_nat n)) (seq 0 128) = true -> 0 <= x < 128 -> P x = true.
Proof.
  intros Hall Hx. rewrite forallb_forall in Hall.
  rewrite <- (Z2Nat.id x) by lia. apply Hall, in_seq. lia.
Qed.
Lemma continuation_byte x : 0 <= x < 128 ->
  u8 (Z.lor x 128) = x + 128 /\ Z.land (x + 128) 127 = x.
Proof.
  intros Hx.
  pose proof (seven_bits (fun x => (u8 (Z.lor x 128) =? x + 128) && (Z.land (x + 128) 127 =? x)) x
    ltac:(vm_compute; reflexivity) Hx) as E.
  apply andb_true_iff in E as [E1 E2]. split; by apply Z.eqb_eq.
Qed.
Lemma land_127 v : Z.land v 127 = v mod 128.
Proof. apply (Z.land_ones v 7). lia. Qed.
Lemma split_7 v : Z.lor (v mod 128) (Z.shiftl (Z.shiftr v 7) 7) = v.
Proof.
  rewrite <- land_127. apply Z.bits_inj'. intros i Hi.
  change 127 with (Z.ones 7). rewrite Z.lor_spec, Z.land_spec, Z.shiftl_spec by done.
  destruct (Z.ltb_spec i 7).
  - rewrite Z.ones_spec_low, andb_true_r, (Z.testbit_neg_r _ (i - 7)), orb_false_r by lia. done.
  - rewrite Z.ones_spec_high, andb_false_r, Z.shiftr_spec by lia. simpl. f_equal. lia.
Qed.
Lemma shiftr_7 v : Z.shiftr v 7 = v / 128.
Proof. apply (Z.shiftr_div_pow2 v 7). lia. Qed.

(** The number of bytes: one per started group of seven bits. *)
Definition varint_len (v : Z) : nat := S (Z.to_nat (Z.log2 v / 7)).

Lemma varint_len_step v : 128 <= v -> varint_len v = S (varint_len (v / 128)).
Proof.
  intros Hv. unfold varint_len.
  change 128 with (2 ^ 7). rewrite <- Z.shiftr_div_pow2, Z.log2_shiftr by lia.
  assert (7 <= Z.log2 v) by (apply Z.log2_le_pow2; lia).
  rewrite Z.max_r by lia. replace (Z.log2 v) with (Z.log2 v - 7 + 1 * 7) at 1 by lia.
  rewrite Z.div_add by lia. rewrite Z2Nat.inj_add by (try apply Z.div_pos; lia). simpl. lia.
Qed.
Lemma varint_len_small v : 0 <= v < 128 -> varint_len v = 1%nat.
Proof.
  intros Hv. unfold varint_len. rewrite Z.div_small; [done|].
  split; [apply Z.log2_nonneg|]. destruct (Z.eq_dec v 0) as [->|]; [done|].
  apply Z.log2_lt_pow2; lia.
Qed.
(** [w]-bit values need at most [k] bytes when [w <= 7 k]. *)
Lemma varint_len_bound (k : nat) v : (0 < k)%nat -> 0 <= v < 2 ^ (7 * Z.of_nat k) -> (varint_len v <= k)%nat.
Proof.
  intros Hk Hv. unfold varint_len. destruct (Z.eq_dec v 0) as [->|]; [change (1 <= k)%nat; lia|].
  assert (Z.log2 v < 7 * Z.of_nat k) by (apply Z.log2_lt_pow2; lia).
  assert (Z.log2 v / 7 < Z.of_nat k) by (apply Z.div_lt_upper_bound; lia). lia.
Qed.

Lemma varint_loop_ok room v :
  0 <= v -> (varint_len v <= room)%nat ->
  exists bs, varint_loop room v = Ret bs /\ length bs = varint_len v /\ Forall byte_ok bs.
Proof.
  revert v. induction room as [|room IH]; intros v Hv Hlen.
  { unfold varint_len in Hlen. lia. }
  cbn [varint_loop]. zcase.
  - rewrite varint_len_step in * by done.
    destruct (IH (Z.shiftr v 7)) as (bs & Hbs & Hl & Hb).
    + rewrite shiftr_7. apply Z.div_pos; lia.
    + rewrite shiftr_7. lia.
    + rewrite Hbs. msimpl. eexists; split; [done|]. rewrite shiftr_7 in Hl.
      split; [simpl; lia|]. constructor; auto with cxk.
  - eexists; split; [done|]. rewrite varint_len_small by lia. split; [done|].
    constructor; auto with cxk.
Qed.

Section Varint.
Context {Buf : Type} `{ByteBufferSpec Buf}.

Lemma read_varint_unfold w fuel i r :
  i < w ->
  read_varint (Buf := Buf) w (S fuel) i r =
    (b ← readFuint8_t;
     if b <? 0x80 then mret (Z.lor r (wrapu w (Z.shiftl b i)))
     else read_varint w fuel (i + 7) (Z.lor r (wrapu w (Z.shiftl (Z.land b 0x7F) i)))).
Proof. intros. cbn [read_varint]. by zcase. Qed.

(** Shifting a value of [w - i] bits by [i] does not wrap. *)
Lemma shift_fits w i v : 0 <= i <= w -> 0 <= v < 2 ^ (w - i) -> wrapu w (Z.shiftl v i) = Z.shiftl v i.
Proof.
  intros Hi Hv. apply wrapu_id. rewrite Z.shiftl_mul_pow2 by lia.
  replace (2 ^ w) with (2 ^ (w - i) * 2 ^ i) by (rewrite <- Z.pow_add_r by lia; f_equal; lia).
  pose proof (Z.pow_pos_nonneg 2 i). nia.
Qed.

Lemma accepts_varint e w room fuel i r v bs :
  varint_loop room v = Ret bs -> 0 <= i < w -> 0 <= v < 2 ^ (w - i) -> (length bs <= fuel)%nat ->
  accepts e (read_varint (Buf := Buf) w fuel i r) bs (Z.lor r (Z.shiftl v i)).
Proof.
  revert fuel i r v bs. induction room as [|room IH]; intros fuel i r v bs Hv Hi Hr Hf; [done|].
  cbn [varint_loop] in Hv. revert Hv. zcase; intros Hv.
  - destruct (varint_loop room (Z.shiftr v 7)) as [rest| | |] eqn:Er; simplify_eq/=.
    destruct fuel as [|fuel]; [simpl in Hf; lia|].
    rewrite read_varint_unfold by lia.
    pose proof (Z.mod_pos_bound v 128 ltac:(lia)) as Hm.
    destruct (continuation_byte (v mod 128) Hm) as [Hb1 Hb2]. rewrite land_127, Hb1.
    assert (H7 : i + 7 < w).
    { destruct (Z.lt_ge_cases (i + 7) w); [done|].
      assert (2 ^ (w - i) <= 2 ^ 7) by (apply Z.pow_le_mono_r; lia). lia. }
    rewrite shiftr_7 in Er.
    change (v mod 128 + 128 :: rest) with ([v mod 128 + 128] ++ rest).
    eapply accepts_bind; [apply accepts_byte; unfold byte_ok; lia|]. cbv beta.
    zcase. rewrite Hb2.
    assert (H27 : 2 ^ 7 <= 2 ^ (w - i)) by (apply Z.pow_le_mono_r; lia).
    rewrite shift_fits by lia.
    eapply accepts_eq; [eapply IH; [done|lia| |simpl in Hf; lia]|].
    + split; [apply Z.div_pos; lia|]. apply Z.div_lt_upper_bound; [lia|].
      replace (128 * 2 ^ (w - (i + 7))) with (2 ^ (w - i)); [lia|].
      change 128 with (2 ^ 7). rewrite <- Z.pow_add_r by lia. f_equal. lia.
    + rewrite <- Z.lor_assoc. f_equal. rewrite <- shiftr_7.
      rewrite <- (Z.add_comm 7 i), <- Z.shiftl_shiftl by lia.
      by rewrite <- Z.shiftl_lor, split_7.
  - simplify_eq/=. destruct fuel as [|fuel]; [simpl in Hf; lia|].
    rewrite read_varint_unfold by lia.
    assert (u8 v = v) as -> by (apply (wrapu_id 8); lia).
    rewrite <- (app_nil_r [v]). eapply accepts_bind; [apply accepts_byte; unfold byte_ok; lia|].
    cbv beta. zcase. rewrite shift_fits by lia. apply accepts_ret.
Qed.

Lemma agree_varint e w room v :
  0 < w <= 7 * Z.of_nat room -> 0 <= v < 2 ^ w ->
  exists bs, length bs = varint_len v /\ (length bs <= room)%nat /\ Forall byte_ok bs /\
    agree e (tmp ← lift (varint_loop room v); bb_write tmp) (read_varint (Buf := Buf) w room 0 0) v bs.
Proof.
  intros Hw Hv.
  assert (Hlen : (varint_len v <= room)%nat).
  { apply varint_len_bound; [lia|]. split; [lia|].
    eapply Z.lt_le_trans; [apply Hv|apply Z.pow_le_mono_r; lia]. }
  destruct (varint_loop_ok room v) as (bs & Hbs & Hl & Hb); [lia|done|].
  exists bs. split_and!; try done; [lia|]. split.
  - eapply emits_lift; [done|]. apply emits_write.
  - eapply accepts_eq; [eapply accepts_varint; try done; try lia|].
    + by rewrite Z.sub_0_r.
    + rewrite Z.lor_0_l, Z.shiftl_0_r. done.
Qed.
Lemma agree_uint32 e v : 0 <= v < 2 ^ 32 ->
  exists bs, length bs = varint_len v /\ (length bs <= 5)%nat /\ Forall byte_ok bs /\
    agree (Buf := Buf) e (writeUint32 v) readUint32 v bs.
Proof. intros. by apply agree_varint. Qed.
Lemma agree_uint64 e v : 0 <= v < 2 ^ 64 ->
  exists bs, length bs = varint_len v /\ (length bs <= 10)%nat /\ Forall byte_ok bs /\
    agree (Buf := Buf) e (writeUint64 v) readUint64 v bs.
Proof. intros. by apply agree_varint. Qed.
End Varint.

(** ** Zigzag round trip *)
Lemma lxor_ones n k : 0 <= n -> 0 <= k < 2 ^ n -> Z.lxor k (2 ^ n - 1) = 2 ^ n - 1 - k.
Proof.
  intros Hn Hk. replace (2 ^ n - 1) with (Z.ones n) by (rewrite Z.ones_equiv; lia).
  assert (Hhigh : forall i, n <= i -> Z.testbit k i = false).
  { intros i Hi. rewrite <- (Z.mod_small k (2 ^ n)) by done. apply Z.mod_pow2_bits_high. lia. }
  rewrite Z.sub_nocarry_ldiff.
  - apply Z.bits_inj'. intros i Hi. rewrite Z.lxor_spec, Z.ldiff_spec.
    destruct (Z.ltb_spec i n).
    + rewrite Z.ones_spec_low by lia. by destruct (Z.testbit k i).
    + rewrite Z.ones_spec_high, Hhigh by lia. done.
  - apply Z.bits_inj'. intros i Hi. rewrite Z.ldiff_spec, Z.bits_0.
    destruct (Z.ltb_spec i n).
    + rewrite Z.ones_spec_low by lia. by rewrite andb_false_r.
    + by rewrite Hhigh by lia.
Qed.

(** The bit trick of the decoder, at any width. *)
Lemma zigzag_decode_even w k : 1 < w -> 0 <= k < 2 ^ (w - 1) ->
  wraps w (Z.lxor (Z.shiftr (2 * k) 1) (wrapu w (- Z.land (2 * k) 1))) = k.
Proof.
  intros Hw Hk. rewrite (Z.land_ones _ 1) by lia.
  rewrite Z.shiftr_div_pow2 by lia. change (2 ^ 1) with 2.
  replace (2 * k / 2) with k by zdiv_lia. replace ((2 * k) mod 2) with 0 by zdiv_lia.
  unfold wrapu. simpl. rewrite Z.mod_0_l, Z.lxor_0_r by lia.
  apply wraps_id; lia.
Qed.
Lemma zigzag_decode_odd w k : 1 < w -> 0 <= k < 2 ^ (w - 1) ->
  wraps w (Z.lxor (Z.shiftr (2 * k + 1) 1) (wrapu w (- Z.land (2 * k + 1) 1))) = - k - 1.
Proof.
  intros Hw Hk. rewrite (Z.land_ones _ 1) by lia.
  rewrite Z.shiftr_div_pow2 by lia. change (2 ^ 1) with 2.
  replace ((2 * k + 1) / 2) with k by zdiv_lia. replace ((2 * k + 1) mod 2) with 1 by zdiv_lia.
  assert (E2 : 2 ^ w = 2 * 2 ^ (w - 1)) by (rewrite <- Z.pow_succ_r by lia; f_equal; lia).
  assert (E : wrapu w (- (1)) = 2 ^ w - 1).
  { unfold wrapu. symmetry. apply (Z.mod_unique _ _ (-1)); lia. }
  rewrite E, lxor_ones by lia. unfold wraps.
  replace (2 ^ w - 1 - k + 2 ^ (w - 1)) with (2 ^ (w - 1) - 1 - k + 1 * 2 ^ w) by lia.
  rewrite Z.mod_add, Z.mod_small by lia. lia.
Qed.

(** Where the encoder is defined, it is the zigzag numbering. *)
Definition zigzag (v : Z) : Z := if v <? 0 then -2 * v - 1 else 2 * v.


Lemma EncodeZigzag32_ok v : - 2 ^ 31 < v < 2 ^ 30 -> EncodeZigzag32 v = Ret (zigzag v).
Proof.
  intros Hv. unfold EncodeZigzag32, zigzag. zcase; msimpl.
  - rewrite chk_signed_Ret by lia. unfold u32.
    rewrite (wrapu_id _ (- v)), (wrapu_id _ (- v * 2)), wrapu_id by lia. f_equal. lia.
  - rewrite chk_signed_Ret by lia. unfold u32. rewrite wrapu_id by lia. f_equal. lia.
Qed.
Lemma EncodeZigzag64_ok v : - 2 ^ 63 < v < 2 ^ 62 -> EncodeZigzag64 v = Ret (zigzag v).
Proof.
  intros Hv. unfold EncodeZigzag64, zigzag. zcase; msimpl.
  - rewrite chk_signed_Ret by lia. unfold u64.
    rewrite (wrapu_id _ (- v)), (wrapu_id _ (- v * 2)), wrapu_id by lia. f_equal. lia.
  - rewrite chk_signed_Ret by lia. unfold u64. rewrite wrapu_id by lia. f_equal. lia.
Qed.
Lemma EncodeZigzag32_undefined v :
  - 2 ^ 31 <= v < 2 ^ 31 -> (v = - 2 ^ 31 \/ 2 ^ 30 <= v) -> EncodeZigzag32 v = Crash.
Proof.
  intros Hr Hv. unfold EncodeZigzag32. zcase; msimpl; rewrite chk_signed_Crash; done || lia.
Qed.
Lemma EncodeZigzag64_undefined v :
  - 2 ^ 63 <= v < 2 ^ 63 -> (v = - 2 ^ 63 \/ 2 ^ 62 <= v) -> EncodeZigzag64 v = Crash.
Proof.
  intros Hr Hv. unfold EncodeZigzag64. zcase; msimpl; rewrite chk_signed_Crash; done || lia.
Qed.
Lemma DecodeZigzag32_zigzag v : - 2 ^ 31 <= v < 2 ^ 31 -> DecodeZigzag32 (zigzag v) = v.
Proof.
  intros Hv. unfold DecodeZigzag32, zigzag. zcase.
  - replace (-2 * v - 1) with (2 * (- v - 1) + 1) by lia.
    etransitivity; [apply (zigzag_decode_odd 32); lia|lia].
  - apply (zigzag_decode_even 32); lia.
Qed.
Lemma DecodeZigzag64_zigzag v : - 2 ^ 63 <= v < 2 ^ 63 -> DecodeZigzag64 (zigzag v) = v.
Proof.
  intros Hv. unfold DecodeZigzag64, zigzag. zcase.
  - replace (-2 * v - 1) with (2 * (- v - 1) + 1) by lia.
    etransitivity; [apply (zigzag_decode_odd 64); lia|lia].
  - apply (zigzag_decode_even 64); lia.
Qed.
Lemma zigzag_range w v : - 2 ^ (w - 1) <= v < 2 ^ (w - 1) -> 1 <= w -> 0 <= zigzag v < 2 ^ w.
Proof.
  intros. replace (2 ^ w) with (2 * 2 ^ (w - 1)) by (rewrite <- Z.pow_succ_r by lia; f_equal; lia).
  unfold zigzag. zcase; lia.
Qed.

(** ** Strings agree *)
Section Strings.
Context {Buf : Type} `{ByteBufferSpec Buf}.

Lemma agree_int32 e v : - 2 ^ 31 < v < 2 ^ 30 ->
  exists bs, (length bs <= 5)%nat /\ Forall byte_ok bs /\
    agree (Buf := Buf) e (writeInt32 v) readInt32 v bs.
Proof.
  intros Hv. destruct (agree_uint32 (Buf := Buf) e (zigzag v)) as (bs & _ & Hl & Hb & Hw & Hr).
  { apply (zigzag_range 32); lia. }
  exists bs. split_and!; try done. split.
  - unfold writeInt32. eapply emits_lift; [by apply EncodeZigzag32_ok|done].
  - eapply accepts_eq; [by apply (accepts_map _ _ DecodeZigzag32)|]. apply DecodeZigzag32_zigzag. lia.
Qed.
Lemma agree_int64 e v : - 2 ^ 63 < v < 2 ^ 62 ->
  exists bs, (length bs <= 10)%nat /\ Forall byte_ok bs /\
    agree (Buf := Buf) e (writeInt64 v) readInt64 v bs.
Proof.
  intros Hv. destruct (agree_uint64 (Buf := Buf) e (zigzag v)) as (bs & _ & Hl & Hb & Hw & Hr).
  { apply (zigzag_range 64); lia. }
  exists bs. split_and!; try done. split.
  - unfold writeInt64. eapply emits_lift; [by apply EncodeZigzag64_ok|done].
  - eapply accepts_eq; [by apply (accepts_map _ _ DecodeZigzag64)|]. apply DecodeZigzag64_zigzag. lia.
Qed.

(** A length field of [n] bytes, then the bytes. *)
Lemma accepts_string e n str size :
  size = Z.of_nat (length str) -> size < 2 ^ (8 * Z.of_nat n) -> size < 2 ^ 63 ->
  accepts (Buf := Buf) e (len ← read_unsigned n; resize len ;; bb_read len) (ordered e n size ++ str) str.
Proof.
  intros E Hn H63. eapply accepts_bind; [apply (accepts_unsigned e n size)|].
  rewrite wrapu_id by lia. change str with ([] ++ str) at 1.
  eapply accepts_bind; [|by apply accepts_read].
  unfold resize. zcase. apply accepts_ret.
Qed.
Lemma agree_string e n str :
  str_size str < 2 ^ (8 * Z.of_nat n) -> str_size str < 2 ^ 63 ->
  agree (Buf := Buf) e
    ((o ← gets bb_endian;
      let v := wrapu (8 * Z.of_nat n) (str_size str) in
      bb_write (le_split n (if o =? CXK_BYTE_ORDER then v else byteswap n v))) ;; bb_write str)
    (len ← read_unsigned n; resize len ;; bb_read len) str
    (ordered e n (str_size str) ++ str).
Proof.
  intros Hn H63. unfold str_size in *. split.
  - cbv zeta. rewrite wrapu_id by lia.
    apply emits_seq; [apply emits_unsigned|apply emits_write].
  - by apply accepts_string.
Qed.
Lemma agree_stringF16 e str : str_size str < 2 ^ 16 ->
  agree (Buf := Buf) e (writeStringF16 str) readStringF16 str (ordered e 2 (str_size str) ++ str).
Proof. intros. apply (agree_string e 2); [done|]. lia. Qed.
Lemma agree_stringF32 e str : str_size str < 2 ^ 32 ->
  agree (Buf := Buf) e (writeStringF32 str) readStringF32 str (ordered e 4 (str_size str) ++ str).
Proof. intros. apply (agree_string e 4); [done|]. lia. Qed.
Lemma agree_stringF64 e str : str_size str < 2 ^ 63 ->
  agree (Buf := Buf) e (writeStringF64 str) readStringF64 str (ordered e 8 (str_size str) ++ str).
Proof. intros. apply (agree_string e 8); [|done]. simpl. lia. Qed.
Lemma agree_stringVint e str : str_size str < 2 ^ 63 ->
  agree (Buf := Buf) e (writeStringVint str) readStringVint str (ordered e 8 (str_size str) ++ str).
Proof. intros. apply (agree_string e 8); [|done]. simpl. lia. Qed.

(** A string too long for its 16-bit length field comes back cut. *)
Lemma stringF16_cut e str :
  let kept := take (Z.to_nat (str_size str mod 2 ^ 16)) str in
  emits (Buf := Buf) e (writeStringF16 str)
    (ordered e 2 (str_size kept) ++ kept ++ drop (Z.to_nat (str_size str mod 2 ^ 16)) str) /\
  accepts (Buf := Buf) e readStringF16 (ordered e 2 (str_size kept) ++ kept) kept.
Proof.
  intros kept. unfold str_size in *.
  pose proof (Z.mod_pos_bound (Z.of_nat (length str)) (2 ^ 16) ltac:(lia)) as Hm.
  assert (Hk : Z.of_nat (length kept) = Z.of_nat (length str) mod 2 ^ 16).
  { unfold kept. rewrite length_take.
    pose proof (Z.mod_le (Z.of_nat (length str)) (2 ^ 16) ltac:(lia) ltac:(lia)). lia. }
  split.
  - unfold kept at 2. rewrite take_drop, Hk. apply emits_seq; [apply emits_unsigned|apply emits_write].
  - apply accepts_string; simpl; lia.
Qed.
End Strings.

(** ** The block-chain buffer meets the interface

    Writing appends as long as the budget is within the allocated blocks and
    the cursor is at the end of the data; reading as long as it stays inside
    the current block. *)
Section ByteArrayInstance.
Context {heap : Heap}.

Definition ba_can_write (b : ByteArray) (n : nat) : Prop :=
  wf b /\ m_size b = m_position b /\ (m_position b + n <= m_capacity b)%nat /\ fits b n.
Definition ba_can_read (b : ByteArray) (n : nat) : Prop :=
  wf b /\ (m_position b < m_capacity b)%nat /\
  (m_position b mod m_baseSize b + n < m_baseSize b)%nat.

Lemma ba_write_law b bs : ba_can_write b (length bs) ->
  exists b', write bs b = (Ret tt, b') /\ written b' = written b ++ bs /\
    m__endian b' = m__endian b /\ (forall n, ba_can_write b (length bs + n) -> ba_can_write b' n).
Proof.
  intros (Hwf & Hsz & Hroom & Hfit).
  destruct (write_run b bs Hwf) as (b' & ext & Hw & Hwf' & Hp & Hs & He & Hb & Hfl & Hle & Hcap);
    auto with cxk.
  exists b'. split_and!; try done.
  - unfold written. rewrite Hfl, Hp, take_patch by done. rewrite take_app_le; [done|].
    rewrite length_flat by auto with cxk. lia.
  - intros n (_ & _ & Hn & Hf). unfold ba_can_write, fits in *. rewrite Hp, Hb.
    split_and!; try done; lia.
Qed.
Lemma ba_read_law b bs rest : unread b = bs ++ rest -> ba_can_read b (length bs) ->
  exists b', read (Z.of_nat (length bs)) b = (Ret bs, b') /\ unread b' = rest /\
    m__endian b' = m__endian b /\ (forall n, ba_can_read b (length bs + n) -> ba_can_read b' n).
Proof.
  intros Hu (Hwf & Hlt & Hblk). pose proof (wf_pos _ Hwf) as Hps. pose proof (wf_size _ Hwf) as Hsz.
  destruct (cursor_run b Hwf Hlt) as (Hcur & Hi & Hp & Hnp & Hmod & Hns & Hsub).
  assert (Hlen : (length bs <= m_size b - m_position b)%nat).
  { apply (f_equal length) in Hu. unfold unread in Hu.
    rewrite length_slice, length_app in Hu by (rewrite length_flat by auto with cxk; lia). lia. }
  assert (Hbs : bs = slice (m_position b) (length bs) (flat b)).
  { unfold unread in Hu.
    rewrite <- (Nat.sub_add (length bs) (m_size b - m_position b) Hlen), Nat.add_comm, <- slice_app in Hu.
    apply app_inj_1 in Hu; [by destruct Hu as [E _]|].
    apply length_slice. rewrite length_flat by auto with cxk. lia. }
  exists (moved b (length bs)). split_and!.
  - destruct (decide (bs = [])) as [->|Hne].
    + unfold read. msimpl. rewrite getReadSize_wf by done. simpl. zcase.
      rewrite Hmod, Hns, Hsub. simpl. f_equal.
      unfold moved. rewrite Nat.add_0_r, <- (wf_cur _ Hwf). by destruct b.
    + rewrite read_run; [by rewrite <- Hbs|done|destruct bs; [done|simpl; lia]|lia|].
      right. lia.
  - unfold unread in *. simpl.
    rewrite <- (Nat.sub_add (length bs) (m_size b - m_position b) Hlen), Nat.add_comm, <- slice_app in Hu.
    rewrite <- Hbs in Hu. apply app_inv_head in Hu. rewrite <- Hu. f_equal. lia.
  - done.
  - intros n (_ & _ & Hn). split_and!.
    + apply wf_moved; [done|lia].
    + simpl. pose proof (wf_cap _ Hwf). nia.
    + simpl. destruct (pos_unique (m_baseSize b) (m_position b / m_baseSize b)
        (m_position b mod m_baseSize b + length bs) (m_position b + length bs)) as [_ ->]; lia.
Qed.
Lemma ba_read_short b n : ba_can_read b 0 -> Z.of_nat (length (unread b)) < n ->
  read n b = (Throw OutOfRange, b).
Proof.
  intros (Hwf & _ & _) Hn. apply read_short; [done|].
  unfold unread in Hn. rewrite length_slice in Hn; [done|].
  pose proof (wf_pos _ Hwf). pose proof (wf_size _ Hwf). rewrite length_flat by auto with cxk. lia.
Qed.

#[export] Program Instance ByteArray_spec : ByteBufferSpec ByteArray := {|
  bb_written := written;
  bb_unread := unread;
  bb_can_write := ba_can_write;
  bb_can_read := ba_can_read;
  bb_write_law := ba_write_law;
  bb_read_law := ba_read_law;
  bb_read_short := ba_read_short
|}.
Next Obligation. unfold ba_can_write, fits. intros b n m (? & ? & ? & ?) ?. split_and!; try done; lia. Qed.
Next Obligation. unfold ba_can_read. intros b n m (? & ? & ?) ?. split_and!; try done; lia. Qed.

(** The same promise with the capacity and block size pinned: a client that
    stays within its budget never grows the chain. *)
Definition ba_can_write_in (cap base : nat) (b : ByteArray) (n : nat) : Prop :=
  ba_can_write b n /\ m_capacity b = cap /\ m_baseSize b = base.

Lemma ba_write_in_law cap base b bs : ba_can_write_in cap base b (length bs) ->
  exists b', write bs b = (Ret tt, b') /\ written b' = written b ++ bs /\
    m__endian b' = m__endian b /\
    (forall n, ba_can_write_in cap base b (length bs + n) -> ba_can_write_in cap base b' n).
Proof.
  intros [Hc [Hcap Hbase]]. pose proof Hc as (Hwf & _ & Hroom & Hfit).
  destruct (ba_write_law b bs Hc) as (b' & E & Hw & He & Hn).
  destruct (write_run b bs Hwf) as (b1 & ext & E1 & _ & _ & _ & _ & Hb1 & _); auto with cxk.
  pose proof (write_capacity b bs Hroom) as Hk. rewrite E in E1, Hk. injection E1 as <-.
  exists b'. split_and!; try done. intros n [Hcn _]. split; [by apply Hn|]. simpl in Hk. split; congruence.
Qed.

Program Definition ByteArray_spec_in (cap base : nat) : ByteBufferSpec ByteArray := {|
  bb_written := written;
  bb_unread := unread;
  bb_can_write := ba_can_write_in cap base;
  bb_can_read := ba_can_read;
  bb_write_law := ba_write_in_law cap base;
  bb_read_law := ba_read_law;
  bb_read_short := ba_read_short
|}.
Next Obligation.
  intros cap base b n m [? ?] ?. split; [|done]. by eapply (bb_can_write_le (ByteBufferSpec := ByteArray_spec)).
Qed.
Next Obligation.
  intros cap base b n m ? ?. by eapply (bb_can_read_le (ByteBufferSpec := ByteArray_spec)).
Qed.
End ByteArrayInstance.

(** ** Properties *)
Section Properties.
Context {Buf : Type} `{ByteBufferSpec Buf}.

(** C32: on every buffer that meets the interface and for both byte orders, each
    fixed-width integer accessor pair agrees: the writer appends the [n] bytes
    of the value in the buffer's order and the reader returns the value from
    those bytes, for every value of the C++ type. *)
Theorem fixed_width_agree e v :
  (0 <= v < 2 ^ 8 -> agree e (writeFuint8_t v) readFuint8_t v (ordered e 1 v)) /\
  (0 <= v < 2 ^ 16 -> agree e (writeFuint16_t v) readFuint16_t v (ordered e 2 v)) /\
  (- 2 ^ 15 <= v < 2 ^ 15 -> agree e (writeFint16 v) readFint16 v (ordered e 2 v)) /\
  (0 <= v < 2 ^ 32 -> agree e (writeFuint32_t v) readFuint32_t v (ordered e 4 v)) /\
  (- 2 ^ 31 <= v < 2 ^ 31 -> agree e (writeFint32 v) readFint32 v (ordered e 4 v)) /\
  (0 <= v < 2 ^ 64 -> agree e (writeFuint64_t v) readFuint64_t v (ordered e 8 v)) /\
  (- 2 ^ 63 <= v < 2 ^ 63 -> agree e (writeFint64 v) readFint64 v (ordered e 8 v)).
Proof.
  split_and!; intros Hv; [| apply agree_unsigned| apply agree_signed | apply agree_unsigned
    | apply agree_signed | apply agree_unsigned | apply agree_signed]; try done; try lia.
  replace (ordered e 1 v) with [v]; [by apply agree_uint8|].
  unfold ordered. simpl. rewrite Z.mod_small by lia. by destruct (_ =? _).
Qed.

(** C31: the varint accessors agree on every value: an unsigned value is written
    in exactly [varint_len v] bytes, one per seven bits, at most 5 for 32 bits
    and 10 for 64, and read back; a signed value in the range on which the
    zigzag encoding is defined is read back too. *)
Theorem varint_agree e v :
  (0 <= v < 2 ^ 32 -> exists bs, length bs = varint_len v /\ (length bs <= 5)%nat /\
     Forall byte_ok bs /\ agree (Buf := Buf) e (writeUint32 v) readUint32 v bs) /\
  (0 <= v < 2 ^ 64 -> exists bs, length bs = varint_len v /\ (length bs <= 10)%nat /\
     Forall byte_ok bs /\ agree (Buf := Buf) e (writeUint64 v) readUint64 v bs) /\
  (- 2 ^ 31 < v < 2 ^ 30 -> exists bs, (length bs <= 5)%nat /\
     agree (Buf := Buf) e (writeInt32 v) readInt32 v bs) /\
  (- 2 ^ 63 < v < 2 ^ 62 -> exists bs, (length bs <= 10)%nat /\
     agree (Buf := Buf) e (writeInt64 v) readInt64 v bs).
Proof.
  split_and!; intros Hv; [by apply agree_uint32|by apply agree_uint64| |].
  - destruct (agree_int32 (Buf := Buf) e v Hv) as (bs & ? & _ & ?). by exists bs.
  - destruct (agree_int64 (Buf := Buf) e v Hv) as (bs & ? & _ & ?). by exists bs.
Qed.

(** The string accessors agree on every string whose length fits the length
    field: two, four or eight length bytes in the buffer's order, then the
    characters.  [writeStringVint] uses eight fixed bytes too, not a varint. *)
Theorem string_agree e str :
  (str_size str < 2 ^ 16 ->
     agree (Buf := Buf) e (writeStringF16 str) readStringF16 str (ordered e 2 (str_size str) ++ str)) /\
  (str_size str < 2 ^ 32 ->
     agree (Buf := Buf) e (writeStringF32 str) readStringF32 str (ordered e 4 (str_size str) ++ str)) /\
  (str_size str < 2 ^ 63 ->
     agree (Buf := Buf) e (writeStringF64 str) readStringF64 str (ordered e 8 (str_size str) ++ str)) /\
  (str_size str < 2 ^ 63 ->
     agree (Buf := Buf) e (writeStringVint str) readStringVint str (ordered e 8 (str_size str) ++ str)).
Proof.
  split_and!; [apply agree_stringF16|apply agree_stringF32|apply agree_stringF64|apply agree_stringVint].
Qed.

(** C14: [writeStringF16] truncates the length of a long string to 16 bits but
    writes all its characters: what [readStringF16] returns is the string cut to
    its length modulo 65536, and the remaining characters are left unread. *)
Theorem stringF16_truncates e str :
  let kept := take (Z.to_nat (str_size str mod 2 ^ 16)) str in
  let rest := drop (Z.to_nat (str_size str mod 2 ^ 16)) str in
  emits (Buf := Buf) e (writeStringF16 str) (ordered e 2 (str_size kept) ++ kept ++ rest) /\
  accepts (Buf := Buf) e readStringF16 (ordered e 2 (str_size kept) ++ kept) kept.
Proof. apply stringF16_cut. Qed.
End Properties.

(** the zigzag encoding of a 32-bit value is the usual one (2v for v >= 0,
    -2v - 1 for v < 0) and decodes back, exactly when the intermediate signed
    arithmetic does not overflow; it overflows for -2^31 and for every value from
    2^30 on, and likewise at 64 bits for -2^63 and from 2^62 on. *)
Theorem zigzag_defined v :
  (- 2 ^ 31 <= v < 2 ^ 31 ->
    (EncodeZigzag32 v = Crash <-> v = - 2 ^ 31 \/ 2 ^ 30 <= v) /\
    (forall u, EncodeZigzag32 v = Ret u -> u = zigzag v /\ DecodeZigzag32 u = v)) /\
  (- 2 ^ 63 <= v < 2 ^ 63 ->
    (EncodeZigzag64 v = Crash <-> v = - 2 ^ 63 \/ 2 ^ 62 <= v) /\
    (forall u, EncodeZigzag64 v = Ret u -> u = zigzag v /\ DecodeZigzag64 u = v)).
Proof.
  split; intros Hv.
  - destruct (decide (v = - 2 ^ 31 \/ 2 ^ 30 <= v)) as [Hb|Hb].
    + rewrite (EncodeZigzag32_undefined v) by lia. done.
    + rewrite (EncodeZigzag32_ok v) by lia. split; [split; [done|lia]|].
      intros u [= <-]. split; [done|]. apply DecodeZigzag32_zigzag. lia.
  - destruct (decide (v = - 2 ^ 63 \/ 2 ^ 62 <= v)) as [Hb|Hb].
    + rewrite (EncodeZigzag64_undefined v) by lia. done.
    + rewrite (EncodeZigzag64_ok v) by lia. split; [split; [done|lia]|].
      intros u [= <-]. split; [done|]. apply DecodeZigzag64_zigzag. lia.
Qed.

(** ** Witnesses

    One block of 64 bytes, empty for the writers, and for the readers filled
    with the bytes the reader is to find. *)
#[local] Existing Instance zero_heap.
Definition page : ByteArray := new_ByteArray 64.
Definition filled (bs : list Z) : ByteArray := snd (setPosition 0 (snd (write bs page))).

Lemma page_writable n : (n <= 64)%nat -> ba_can_write page n.
Proof. intros. split_and!; [wf_compute|done|simpl; lia|unfold fits; simpl; lia]. Qed.
Ltac readable := split_and!; [wf_compute|cbv; lia|cbv; lia].

Lemma fixed_width_witness :
  (exists s, writeFuint32_t 305419896 page = (Ret tt, s) /\ written s = [18; 52; 86; 120]) /\
  (exists s, readFint16 (filled [255; 254]) = (Ret (-2), s)).
Proof.
  split.
  - destruct (fixed_width_agree (Buf := ByteArray) CXK_BIG_ENDIAN 305419896) as (_ & _ & _ & H & _).
    destruct (H ltac:(lia)) as [Hw _].
    destruct (Hw page eq_refl) as (s & E & Ew & _); [apply page_writable; cbv; lia|].
    exists s. split; [exact E|exact Ew].
  - destruct (fixed_width_agree (Buf := ByteArray) CXK_BIG_ENDIAN (-2)) as (_ & _ & H & _).
    destruct (H ltac:(lia)) as [_ Hr].
    destruct (Hr (filled [255; 254]) [] eq_refl eq_refl) as (s & E & _); [readable|].
    exists s. exact E.
Defined.

Lemma varint_witness :
  (exists bs, agree (Buf := ByteArray) CXK_BIG_ENDIAN (writeUint32 300) readUint32 300 bs /\ length bs = 2%nat) /\
  (exists s bs, writeInt64 (-3) page = (Ret tt, s) /\ written s = bs /\ (length bs <= 10)%nat).
Proof.
  split.
  - destruct (varint_agree (Buf := ByteArray) CXK_BIG_ENDIAN 300) as (H & _).
    destruct (H ltac:(lia)) as (bs & Hl & _ & _ & Ha). by exists bs.
  - destruct (varint_agree (Buf := ByteArray) CXK_BIG_ENDIAN (-3)) as (_ & _ & _ & H).
    destruct (H ltac:(lia)) as (bs & Hl & Hw & _).
    destruct (Hw page eq_refl) as (s & E & Ew & _); [apply page_writable; lia|].
    exists s, bs. done.
Defined.

Lemma string_witness :
  exists s, readStringF32 (filled [0; 0; 0; 3; 97; 98; 99]) = (Ret [97; 98; 99], s).
Proof.
  destruct (string_agree (Buf := ByteArray) CXK_BIG_ENDIAN [97; 98; 99]) as (_ & H & _).
  destruct (H eq_refl) as [_ Hr].
  destruct (Hr (filled [0; 0; 0; 3; 97; 98; 99]) [] eq_refl eq_refl) as (s & E & _); [readable|].
  exists s. exact E.
Defined.

Lemma zigzag_witness :
  EncodeZigzag32 (2 ^ 30) = Crash /\ EncodeZigzag32 (- 2 ^ 31) = Crash /\
  DecodeZigzag64 5 = -3.
Proof.
  split_and!.
  - apply (zigzag_defined (2 ^ 30)); lia.
  - apply (zigzag_defined (- 2 ^ 31)); lia.
  - apply (zigzag_defined (-3)); [lia|reflexivity].
Defined.
