(* ===== verification/Stream.v ===== *)
(** * Streams (cxk/stream.cpp, cxk/stream/socket_stream.cpp, cxk/socket.cpp)

    [Stream] is the abstract class: its virtual functions are the fields of the
    type class, [readFixSize] and [writeFixSize] are defined on top.
    [StreamSpec] is what its clients (the Rock and WebSocket protocols) rely
    on.  [SocketStream] implements it over a socket, whose system calls are the
    parameter [Kernel]. *)
From S2P Require Import Prelude Endian ByteArray ByteCodec.

(** ** The abstract class

    [s_read n] returns the result of the call and the bytes it stored in the
    caller's buffer.  The overloads on a [ByteArray] act on the pair of the
    stream and the array. *)
Class Stream (St : Type) := {
  s_read : Z -> M St (Z * list Z);
  s_write : list Z -> M St Z;
  s_read_ba : Z -> M (St * ByteArray) Z;
  s_write_ba : Z -> M (St * ByteArray) Z;
  s_close : M St unit
}.

Section FixSize.
Context {St : Type} `{Stream St}.

(** [int readFixSize(void*, size_t)] *)
Fixpoint readFixSize_loop (fuel : nat) (length left : Z) (acc : list Z) : M St (Z * list Z) :=
  if 0 <? left then
    match fuel with
    | O => nofuel
    | S fuel =>
        '(len, data) ← s_read left;
        if len <=? 0 then mret (len, acc)
        else readFixSize_loop fuel length (left - len) (acc ++ data)
    end
  else mret (i32 length, acc).
Definition readFixSize (length : Z) : M St (Z * list Z) :=
  readFixSize_loop (S (Z.to_nat length)) length (i64 length) [].

(** [int readFixSize(ByteArray::ptr, size_t)] *)
Fixpoint readFixSize_ba_loop (fuel : nat) (length left : Z) : M (St * ByteArray) Z :=
  if 0 <? left then
    match fuel with
    | O => nofuel
    | S fuel =>
        len ← s_read_ba left;
        if len <=? 0 then mret len
        else readFixSize_ba_loop fuel length (left - len)
    end
  else mret (i32 length).
Definition readFixSize_ba (length : Z) : M (St * ByteArray) Z :=
  readFixSize_ba_loop (S (Z.to_nat length)) length (i64 length).

(** [int writeFixSize(const void*, size_t)]: [len] is a [size_t], so a
    negative result of [write] is a huge length, not an error; the next
    address is then outside the buffer. *)
Fixpoint writeFixSize_loop (fuel : nat) (buffer : list Z) (length left offset : Z) : M St Z :=
  if 0 <? left then
    match fuel with
    | O => nofuel
    | S fuel =>
        if Z.of_nat (List.length buffer) <? offset + left then crash else
        r ← s_write (slice (Z.to_nat offset) (Z.to_nat left) buffer);
        let len := u64 r in
        if len <=? 0 then mret (i32 len)
        else writeFixSize_loop fuel buffer length (u64 (left - len)) (u64 (offset + len))
    end
  else mret (i32 length).
Definition writeFixSize (buffer : list Z) (length : Z) : M St Z :=
  writeFixSize_loop (S (Z.to_nat length)) buffer length length 0.

(** [int writeFixSize(ByteArray::ptr, size_t)]: here [len] is signed. *)
Fixpoint writeFixSize_ba_loop (fuel : nat) (length left : Z) : M (St * ByteArray) Z :=
  if 0 <? left then
    match fuel with
    | O => nofuel
    | S fuel =>
        len ← s_write_ba left;
        if len <=? 0 then mret len
        else writeFixSize_ba_loop fuel length (left - len)
    end
  else mret (i32 length).
Definition writeFixSize_ba (length : Z) : M (St * ByteArray) Z :=
  writeFixSize_ba_loop (S (Z.to_nat length)) length (i64 length).
End FixSize.

(** ** Sockets *)

(** The system calls on a connected descriptor: what [::recv]/[::recvmsg] of at
    most [n] bytes returns and stores, and what [::send]/[::sendmsg] accepts. *)
Class Kernel (K : Type) := {
  k_recv : Z -> M K (Z * list Z);
  k_send : list Z -> M K Z
}.

Record Socket (K : Type) := mkSocket { m_socket : Z; m_isConnected : bool; m_kernel : K }.
Arguments mkSocket {K}.
Arguments m_socket {K}.
Arguments m_isConnected {K}.
Arguments m_kernel {K}.

Section Socket.
Context {K : Type} `{Kernel K} {heap : Heap}.

Definition on_kernel {A} (m : M K A) : M (Socket K) A := fun s =>
  let '(r, k) := m (m_kernel s) in (r, mkSocket (m_socket s) (m_isConnected s) k).

Definition Socket_send (buffer : list Z) : M (Socket K) Z :=
  c ← gets m_isConnected; if (c : bool) then on_kernel (k_send buffer) else mret (-1).
Definition Socket_recv (length : Z) : M (Socket K) (Z * list Z) :=
  c ← gets m_isConnected; if (c : bool) then on_kernel (k_recv length) else mret (-1, []).

Definition Socket_close : M (Socket K) bool := fun s =>
  if negb (m_isConnected s) && (m_socket s =? -1) then (Ret true, s)
  else (Ret false, mkSocket (-1) false (m_kernel s)).

(** [recvmsg] fills the [iovec]s in order, as far as there are bytes. *)
Fixpoint scatter (iovs : list iovec) (data : list Z) : M ByteArray unit :=
  match iovs, data with
  | v :: iovs', _ :: _ =>
      (if (iov_len v =? 0)%nat then mret tt
       else memcpy_to (Some (iov_node v)) (iov_off v) (take (iov_len v) data)) ;;
      scatter iovs' (drop (iov_len v) data)
  | _, _ => mret tt
  end.

Definition on_fst {A B C} (m : M A C) : M (A * B) C := fun s =>
  let '(r, a) := m (fst s) in (r, (a, snd s)).
Definition on_snd {A B C} (m : M B C) : M (A * B) C := fun s =>
  let '(r, b) := m (snd s) in (r, (fst s, b)).

(** ** SocketStream *)
Definition SocketStream_read (length : Z) : M (Socket K) (Z * list Z) :=
  c ← gets m_isConnected; if (c : bool) then Socket_recv length else mret (-1, []).

Definition SocketStream_read_ba (length : Z) : M (Socket K * ByteArray) Z :=
  c ← gets (fun s => m_isConnected (fst s));
  if negb c then mret (-1) else
  '(_, iovs) ← on_snd (getWriteBuffers (Z.to_nat length));
  '(rt, data) ← on_fst (Socket_recv length);
  on_snd (scatter iovs data) ;;
  (if 0 <? rt then
     p ← gets (fun s => m_position (snd s));
     on_snd (setPosition (p + Z.to_nat rt))
   else mret tt) ;;
  mret rt.

Definition SocketStream_write (buffer : list Z) : M (Socket K) Z :=
  c ← gets m_isConnected; if (c : bool) then Socket_send buffer else mret (-1).

Definition SocketStream_write_ba (length : Z) : M (Socket K * ByteArray) Z :=
  c ← gets (fun s => m_isConnected (fst s));
  if negb c then mret (-1) else
  b ← gets snd;
  '(_, iovs) ← lift (getReadBuffers length b);
  rt ← on_fst (Socket_send (gather b iovs));
  (if 0 <? rt then
     p ← gets (fun s => m_position (snd s));
     on_snd (setPosition (p + Z.to_nat rt))
   else mret tt) ;;
  mret rt.

Definition SocketStream_close : M (Socket K) unit := Socket_close ;; mret tt.

#[export] Instance SocketStream : Stream (Socket K) := {|
  s_read := SocketStream_read;
  s_write := SocketStream_write;
  s_read_ba := SocketStream_read_ba;
  s_write_ba := SocketStream_write_ba;
  s_close := SocketStream_close
|}.
End Socket.

(** ** What a client may rely on

    [st_pending] is what the peer has sent and is still to be read, [st_sent]
    what has been sent.  While there is something pending a read makes
    progress; at the end it reports a result [<= 0].  A write makes progress. *)
Class StreamSpec (St : Type) `{Stream St} := {
  st_open : St -> Prop;
  st_pending : St -> list Z;
  st_sent : St -> list Z;
  st_read_law : forall s n, st_open s -> 0 < n -> st_pending s <> [] ->
    exists data s', s_read n s = (Ret (Z.of_nat (length data), data), s') /\
      (0 < length data)%nat /\ Z.of_nat (length data) <= n /\
      st_pending s = data ++ st_pending s' /\ st_sent s' = st_sent s /\ st_open s';
  st_eof_law : forall s n, st_open s -> 0 < n -> st_pending s = [] ->
    exists r s', s_read n s = (Ret (r, []), s') /\ r <= 0 /\
      st_pending s' = [] /\ st_sent s' = st_sent s;
  st_write_law : forall s bs, st_open s -> bs <> [] ->
    exists k s', s_write bs s = (Ret (Z.of_nat k), s') /\ (0 < k <= length bs)%nat /\
      st_sent s' = st_sent s ++ take k bs /\ st_pending s' = st_pending s /\ st_open s';
  st_read_ba_law : forall s b n, st_open s -> 0 < n -> st_pending s <> [] ->
    ba_can_write b (Z.to_nat n) ->
    exists data s' b', s_read_ba n (s, b) = (Ret (Z.of_nat (length data)), (s', b')) /\
      (0 < length data)%nat /\ Z.of_nat (length data) <= n /\
      st_pending s = data ++ st_pending s' /\ st_sent s' = st_sent s /\ st_open s' /\
      written b' = written b ++ data /\ m__endian b' = m__endian b /\
      m_baseSize b' = m_baseSize b /\
      (forall k, ba_can_write b (length data + k) -> ba_can_write b' k);
  st_write_ba_law : forall s b n, st_open s -> 0 < n <= Z.of_nat (length (unread b)) -> wf b ->
    exists k s' b', s_write_ba n (s, b) = (Ret (Z.of_nat k), (s', b')) /\
      (0 < k)%nat /\ Z.of_nat k <= n /\
      st_sent s' = st_sent s ++ take k (unread b) /\ st_pending s' = st_pending s /\ st_open s' /\
      unread b' = drop k (unread b) /\ m_size b' = m_size b /\ wf b';
  st_close_law : forall s, exists s', s_close s = (Ret tt, s') /\
    st_pending s' = st_pending s /\ st_sent s' = st_sent s /\ ~ st_open s'
}.

Lemma i32_small z : 0 <= z < 2 ^ 31 -> i32 z = z.
Proof. intros. apply wraps_id; lia. Qed.
Lemma i64_small z : 0 <= z < 2 ^ 63 -> i64 z = z.
Proof. intros. apply wraps_id; lia. Qed.
Lemma u64_small z : 0 <= z < 2 ^ 64 -> u64 z = z.
Proof. intros. by apply wrapu_id. Qed.

Section FixSizeSpec.
Context {St : Type} `{StreamSpec St}.

(** The loop as a function of what is pending: it stops after [left] bytes. *)
Lemma readFixSize_loop_ok fuel len bs rest acc s :
  st_open s -> st_pending s = bs ++ rest -> (length bs < fuel)%nat ->
  exists s', readFixSize_loop fuel len (Z.of_nat (length bs)) acc s = (Ret (i32 len, acc ++ bs), s') /\
    st_pending s' = rest /\ st_sent s' = st_sent s /\ st_open s'.
Proof.
  revert bs acc s. induction fuel as [|fuel IH]; intros bs acc s Ho Hp Hf; [lia|].
  cbn [readFixSize_loop]. destruct bs as [|x bs].
  { simpl. exists s. by rewrite app_nil_r. }
  set (l := x :: bs) in *. zcase; [|simpl in *; lia].
  destruct (st_read_law s (Z.of_nat (length l)) Ho) as (data & s1 & Hr & Hd & Hle & Hps & Hs & Ho1).
  { done. } { by rewrite Hp. }
  mstep Hr. cbv beta iota. zcase.
  rewrite Hp in Hps. apply Nat2Z.inj_le in Hle.
  assert (Hsplit : l = data ++ drop (length data) l /\ st_pending s1 = drop (length data) l ++ rest).
  { assert (E : data = take (length data) l).
    { apply (f_equal (take (length data))) in Hps. rewrite take_app_length in Hps.
      rewrite take_app_le in Hps by done. done. }
    rewrite E at 1. rewrite take_drop. split; [done|].
    rewrite <- (take_drop (length data) l), <- E, <- app_assoc in Hps at 1.
    by apply app_inv_head in Hps. }
  destruct Hsplit as [Hl Hp1].
  destruct (IH (drop (length data) l) (acc ++ data) s1 Ho1 Hp1) as (s' & Hrun & Hp' & Hs' & Ho').
  { rewrite length_drop. lia. }
  exists s'. split_and!; [|done|congruence|done].
  rewrite <- app_assoc, <- Hl in Hrun. rewrite <- Hrun. f_equal. rewrite length_drop. lia.
Qed.
Lemma readFixSize_ok bs rest s :
  st_open s -> st_pending s = bs ++ rest -> Z.of_nat (length bs) < 2 ^ 31 ->
  exists s', readFixSize (Z.of_nat (length bs)) s = (Ret (Z.of_nat (length bs), bs), s') /\
    st_pending s' = rest /\ st_sent s' = st_sent s /\ st_open s'.
Proof.
  intros Ho Hp Hl. unfold readFixSize. rewrite i64_small by lia.
  destruct (readFixSize_loop_ok (S (Z.to_nat (Z.of_nat (length bs)))) (Z.of_nat (length bs)) bs rest [] s)
    as (s' & Hrun & ?); [done|done|lia|].
  exists s'. by rewrite Hrun, i32_small by lia.
Qed.

(** Too little pending: the result says so. *)
Lemma readFixSize_loop_eof fuel len left acc s :
  st_open s -> Z.of_nat (length (st_pending s)) < left -> (length (st_pending s) < fuel)%nat ->
  exists r data s', readFixSize_loop fuel len left acc s = (Ret (r, data), s') /\ r <= 0 /\
    st_sent s' = st_sent s.
Proof.
  revert left acc s. induction fuel as [|fuel IH]; intros left acc s Ho Hp Hf; [lia|].
  cbn [readFixSize_loop]. zcase.
  destruct (decide (st_pending s = [])) as [E|E].
  - destruct (st_eof_law s left Ho ltac:(lia) E) as (r & s1 & Hr & Hr0 & _ & Hs).
    mstep Hr. cbv beta iota. zcase. by exists r, acc, s1.
  - destruct (st_read_law s left Ho ltac:(lia) E) as (data & s1 & Hr & Hd & Hle & Hps & Hs & Ho1).
    mstep Hr. cbv beta iota. zcase.
    apply (f_equal length) in Hps. rewrite length_app in Hps.
    destruct (IH (left - Z.of_nat (length data)) (acc ++ data) s1 Ho1) as (r & d & s' & ? & ? & ?);
      [lia|lia|]. exists r, d, s'. split_and!; try done. congruence.
Qed.
Lemma readFixSize_eof n s :
  st_open s -> Z.of_nat (length (st_pending s)) < n < 2 ^ 63 ->
  exists r data s', readFixSize n s = (Ret (r, data), s') /\ r <= 0 /\ st_sent s' = st_sent s.
Proof.
  intros Ho Hn. unfold readFixSize. rewrite i64_small by lia.
  apply readFixSize_loop_eof; [done|lia|lia].
Qed.

Lemma writeFixSize_loop_ok fuel buffer len (off : nat) s :
  st_open s -> (off <= length buffer)%nat -> (length buffer - off < fuel)%nat ->
  Z.of_nat (length buffer) < 2 ^ 64 ->
  exists s', writeFixSize_loop fuel buffer len (Z.of_nat (length buffer - off)) (Z.of_nat off) s
      = (Ret (i32 len), s') /\
    st_sent s' = st_sent s ++ drop off buffer /\ st_pending s' = st_pending s /\ st_open s'.
Proof.
  revert off s. induction fuel as [|fuel IH]; intros off s Ho Hoff Hf Hb; [lia|].
  cbn [writeFixSize_loop]. zcase.
  - zcase. rewrite !Nat2Z.id. unfold slice.
    rewrite take_ge by (rewrite length_drop; lia).
    destruct (st_write_law s (drop off buffer) Ho) as (k & s1 & Hr & Hk & Hs & Hp & Ho1).
    { intros E. apply (f_equal length) in E. rewrite length_drop in E. simpl in E. lia. }
    rewrite length_drop in Hk. mstep Hr. cbv zeta. rewrite (u64_small (Z.of_nat k)) by lia. zcase.
    rewrite !u64_small by lia.
    destruct (IH (off + k)%nat s1 Ho1) as (s' & Hrun & Hs' & Hp' & Ho'); [lia|lia|done|].
    exists s'. split_and!; [|rewrite Hs', Hs, <- app_assoc; f_equal|congruence|done].
    + rewrite <- Hrun. f_equal; lia.
    + by rewrite <- drop_drop, take_drop.
  - exists s. rewrite drop_ge, app_nil_r by lia. done.
Qed.
Lemma writeFixSize_ok bs s :
  st_open s -> Z.of_nat (length bs) < 2 ^ 31 ->
  exists s', writeFixSize bs (Z.of_nat (length bs)) s = (Ret (Z.of_nat (length bs)), s') /\
    st_sent s' = st_sent s ++ bs /\ st_pending s' = st_pending s /\ st_open s'.
Proof.
  intros Ho Hl. unfold writeFixSize.
  destruct (writeFixSize_loop_ok (S (Z.to_nat (Z.of_nat (length bs)))) bs (Z.of_nat (length bs)) 0 s)
    as (s' & Hrun & ?); [done|lia|lia|lia|].
  rewrite Nat.sub_0_r in Hrun. change (Z.of_nat 0) with 0 in Hrun. exists s'. by rewrite Hrun, i32_small by lia.
Qed.

Lemma readFixSize_ba_loop_ok fuel len bs rest s b :
  st_open s -> st_pending s = bs ++ rest -> (length bs < fuel)%nat -> ba_can_write b (length bs) ->
  exists s' b', readFixSize_ba_loop fuel len (Z.of_nat (length bs)) (s, b) = (Ret (i32 len), (s', b')) /\
    st_pending s' = rest /\ st_sent s' = st_sent s /\ st_open s' /\
    written b' = written b ++ bs /\ m__endian b' = m__endian b /\ m_baseSize b' = m_baseSize b /\
    ba_can_write b' 0.
Proof.
  revert bs s b. induction fuel as [|fuel IH]; intros bs s b Ho Hp Hf Hcw; [lia|].
  cbn [readFixSize_ba_loop]. destruct bs as [|x bs].
  { simpl. exists s, b. by rewrite app_nil_r. }
  set (l := x :: bs) in *. zcase; [|simpl in *; lia].
  destruct (st_read_ba_law s b (Z.of_nat (length l)) Ho)
    as (data & s1 & b1 & Hr & Hd & Hle & Hps & Hs & Ho1 & Hw1 & He1 & Hb1 & Hc1).
  { done. } { by rewrite Hp. } { by rewrite Nat2Z.id. }
  mstep Hr. cbv beta iota. zcase.
  rewrite Hp in Hps. apply Nat2Z.inj_le in Hle.
  assert (Hsplit : l = data ++ drop (length data) l /\ st_pending s1 = drop (length data) l ++ rest).
  { assert (E : data = take (length data) l).
    { apply (f_equal (take (length data))) in Hps. rewrite take_app_length in Hps.
      rewrite take_app_le in Hps by done. done. }
    rewrite E at 1. rewrite take_drop. split; [done|].
    rewrite <- (take_drop (length data) l), <- E, <- app_assoc in Hps at 1.
    by apply app_inv_head in Hps. }
  destruct Hsplit as [Hl Hp1].
  destruct (IH (drop (length data) l) s1 b1 Ho1 Hp1)
    as (s' & b' & Hrun & Hp' & Hs' & Ho' & Hw' & He' & Hb' & Hc').
  { rewrite length_drop. lia. }
  { apply Hc1. rewrite length_drop. by replace (length data + (length l - length data))%nat with (length l) by lia. }
  exists s', b'. split_and!; try done; try congruence.
  - rewrite <- Hrun. f_equal. rewrite length_drop. lia.
  - by rewrite Hw', Hw1, <- app_assoc, <- Hl.
Qed.

Lemma writeFixSize_ba_loop_ok fuel len left s b :
  st_open s -> wf b -> left = Z.of_nat (length (unread b)) -> (length (unread b) < fuel)%nat ->
  exists s' b', writeFixSize_ba_loop fuel len left (s, b) = (Ret (i32 len), (s', b')) /\
    st_sent s' = st_sent s ++ unread b /\ st_pending s' = st_pending s /\ st_open s' /\
    unread b' = [] /\ m_size b' = m_size b /\ wf b'.
Proof.
  revert left s b. induction fuel as [|fuel IH]; intros left s b Ho Hwf Hl Hf; [lia|].
  cbn [writeFixSize_ba_loop]. zcase.
  - destruct (st_write_ba_law s b left Ho ltac:(lia) Hwf)
      as (k & s1 & b1 & Hr & Hk & Hkl & Hs & Hp & Ho1 & Hu & Hz1 & Hwf1).
    mstep Hr. cbv beta. zcase.
    destruct (IH (left - Z.of_nat k) s1 b1 Ho1 Hwf1) as (s' & b' & Hrun & Hs' & Hp' & Ho' & Hu' & Hz' & Hwf').
    { rewrite Hu, length_drop. lia. } { rewrite Hu, length_drop. lia. }
    exists s', b'. split_and!; try done; try congruence.
    by rewrite Hs', Hs, Hu, <- app_assoc, take_drop.
  - assert (E : unread b = []) by (apply nil_length_inv; lia).
    exists s, b. rewrite E, app_nil_r. done.
Qed.
End FixSizeSpec.

(** A failed [write] is reported by the [ByteArray] overload only. *)
Section WriteErrors.
Context {St : Type} `{Stream St}.

Lemma writeFixSize_failed_crash buffer n s s' r :
  Z.of_nat (length buffer) = n -> 0 < n < 2 ^ 32 -> - 2 ^ 31 <= r < 0 ->
  (forall bs, s_write bs s = (Ret r, s')) ->
  fst (writeFixSize buffer n s) = Crash.
Proof.
  intros Hb Hn Hr Hw. unfold writeFixSize.
  destruct (Z.to_nat n) as [|k] eqn:Ek; [lia|].
  cbn [writeFixSize_loop]. zcase. zcase.
  rewrite (bind_Ret _ _ _ _ _ (Hw _)). cbv zeta.
  assert (E : u64 r = r + 2 ^ 64).
  { unfold u64, wrapu. symmetry. apply (Z.mod_unique _ _ (-1)); lia. }
  rewrite E. zcase.
  assert (E1 : u64 (n - (r + 2 ^ 64)) = n - r).
  { unfold u64, wrapu. symmetry. apply (Z.mod_unique _ _ (-1)); lia. }
  assert (E2 : u64 (0 + (r + 2 ^ 64)) = r + 2 ^ 64).
  { apply u64_small. lia. }
  rewrite E1, E2. zcase. zcase. done.
Qed.
End WriteErrors.

(** ** SocketStream meets the interface *)

(** What [recv(2)] and [send(2)] document for a connected blocking socket. *)
Class KernelSpec (K : Type) `{Kernel K} := {
  k_pending : K -> list Z;
  k_sent : K -> list Z;
  k_recv_law : forall k n, 0 < n -> k_pending k <> [] ->
    exists data k', k_recv n k = (Ret (Z.of_nat (length data), data), k') /\
      (0 < length data)%nat /\ Z.of_nat (length data) <= n /\
      k_pending k = data ++ k_pending k' /\ k_sent k' = k_sent k;
  k_eof_law : forall k n, 0 < n -> k_pending k = [] ->
    exists k', k_recv n k = (Ret (0, []), k') /\ k_pending k' = [] /\ k_sent k' = k_sent k;
  k_send_law : forall k bs, bs <> [] ->
    exists n k', k_send bs k = (Ret (Z.of_nat n), k') /\ (0 < n <= length bs)%nat /\
      k_sent k' = k_sent k ++ take n bs /\ k_pending k' = k_pending k
}.

Section WriteBuffers.
Context {heap : Heap}.

Lemma getWriteBuffers_within b n :
  wf b -> (0 < n)%nat -> (m_position b + n <= m_capacity b)%nat ->
  exists iovs, getWriteBuffers n b = (Ret (n, iovs), b) /\
    covers (m_baseSize b) (m_position b) iovs (m_position b + n).
Proof.
  intros Hwf Hn Hcap.
  destruct (cursor_run b Hwf) as (Hcur & Hi & Hp & Hnp & Hmod & Hns & Hsub); [lia|].
  assert (Ha : addCapacity n b = (Ret tt, b)) by (apply addCapacity_enough; lia).
  unfold getWriteBuffers. destruct (Nat.eqb_spec n 0); [lia|]. mstep Ha. msimpl.
  rewrite Hmod, Hns, Hsub, Hcur.
  destruct (buffers_loop_spec (S (length (m_nodes b))) b (m_position b / m_baseSize b) n
    (m_position b mod m_baseSize b) [] (m_position b)) as (iovs & -> & Hcov); auto with cxk; try lia.
  exists iovs. split; [done|]. by rewrite Hp at 2.
Qed.

Lemma scatter_run b iovs p q data :
  chain_ok b -> covers (m_baseSize b) p iovs q -> (q <= m_capacity b)%nat ->
  (p + length data <= q)%nat ->
  exists nodes', scatter iovs data b = (Ret tt, set_nodes nodes' b) /\
    concat nodes' = patch p data (flat b) /\
    Forall (fun nd => length nd = m_baseSize b) nodes' /\ length nodes' = length (m_nodes b).
Proof.
  revert b p data. induction iovs as [|v iovs IH]; intros b p data Hc Hcov Hq Hd;
    (destruct data as [|d data];
     [exists (m_nodes b); rewrite patch_nil; split_and!; [by destruct b|done|by destruct Hc|done]|]).
  - simpl in Hcov, Hd. lia.
  - cbn [scatter]. set (l := d :: data) in *. destruct Hcov as (Hp & Hlen & Hcov).
    destruct (Nat.eqb_spec (iov_len v) 0) as [E|E].
    { rewrite E, Nat.add_0_r in Hcov. rewrite E. by apply IH. }
    destruct (covers_gather b iovs _ q Hc Hcov Hq) as [Hle _].
    pose proof (ch_cap _ Hc). pose proof (ch_base _ Hc).
    destruct (memcpy_to_index b (iov_node v) (iov_off v) (take (iov_len v) l) Hc)
      as (n1 & Hm & Hf1 & Hfo1 & Hl1); [nia|rewrite length_take; lia|].
    mstep Hm. rewrite <- Hp in Hf1.
    destruct (IH (set_nodes n1 b) (p + iov_len v)%nat (drop (iov_len v) l))
      as (n2 & Hrun & Hf2 & Hfo2 & Hl2); auto with cxk.
    { rewrite length_drop. lia. }
    exists n2. split_and!; [done| |done|simpl in Hl2; congruence].
    rewrite Hf2. unfold flat at 1. simpl. rewrite Hf1.
    destruct (decide (length l <= iov_len v)%nat) as [Hs|Hs].
    + by rewrite drop_ge, patch_nil, take_ge by lia.
    + rewrite <- (take_drop (iov_len v) l) at 3. rewrite <- patch_patch.
      * by rewrite length_take, Nat.min_l by lia.
      * rewrite length_take, length_drop, length_flat by done. lia.
Qed.
End WriteBuffers.

Lemma on_fst_Ret {A B C} (m : M A C) (a a' : A) (b : B) r :
  m a = (Ret r, a') -> on_fst m (a, b) = (Ret r, (a', b)).
Proof. intros E. unfold on_fst. simpl. by rewrite E. Qed.
Lemma on_snd_Ret {A B C} (m : M B C) (a : A) (b b' : B) r :
  m b = (Ret r, b') -> on_snd m (a, b) = (Ret r, (a, b')).
Proof. intros E. unfold on_snd. simpl. by rewrite E. Qed.
Lemma gets_Ret {S A} (f : S -> A) s a : f s = a -> gets f s = (Ret a, s).
Proof. by intros <-. Qed.

Section SocketStreamSpec.
Context {K : Type} `{KernelSpec K} {heap : Heap}.

Definition sock_open (s : Socket K) : Prop := m_isConnected s = true.
Definition sock_pending (s : Socket K) : list Z := k_pending (m_kernel s).
Definition sock_sent (s : Socket K) : list Z := k_sent (m_kernel s).

Lemma SocketStream_recv_run s n : sock_open s -> 0 < n -> sock_pending s <> [] ->
  exists data s', Socket_recv n s = (Ret (Z.of_nat (length data), data), s') /\
    (0 < length data)%nat /\ Z.of_nat (length data) <= n /\
    sock_pending s = data ++ sock_pending s' /\ sock_sent s' = sock_sent s /\ sock_open s'.
Proof.
  intros Ho Hn Hp. destruct (k_recv_law (m_kernel s) n Hn Hp) as (data & k' & Hr & ? & ? & ? & ?).
  exists data, (mkSocket (m_socket s) (m_isConnected s) k').
  unfold Socket_recv, on_kernel. msimpl.
  rewrite Ho, Hr. unfold sock_open, sock_pending, sock_sent. simpl. rewrite ?Ho. split_and!; (done || lia).
Qed.
Lemma SocketStream_send_run s bs : sock_open s -> bs <> [] ->
  exists k s', Socket_send bs s = (Ret (Z.of_nat k), s') /\ (0 < k <= length bs)%nat /\
    sock_sent s' = sock_sent s ++ take k bs /\ sock_pending s' = sock_pending s /\ sock_open s'.
Proof.
  intros Ho Hb. destruct (k_send_law (m_kernel s) bs Hb) as (k & k' & Hr & ? & ? & ?).
  exists k, (mkSocket (m_socket s) (m_isConnected s) k').
  unfold Socket_send, on_kernel. msimpl.
  rewrite Ho, Hr. unfold sock_open, sock_pending, sock_sent. simpl. rewrite ?Ho. split_and!; (done || lia).
Qed.
Lemma SocketStream_eof_run s n : sock_open s -> 0 < n -> sock_pending s = [] ->
  exists r s', SocketStream_read n s = (Ret (r, []), s') /\ r <= 0 /\
    sock_pending s' = [] /\ sock_sent s' = sock_sent s.
Proof.
  intros Ho Hn Hp. destruct (k_eof_law (m_kernel s) n Hn Hp) as (k' & Hr & ? & ?).
  exists 0, (mkSocket (m_socket s) (m_isConnected s) k').
  unfold SocketStream_read, Socket_recv, on_kernel. msimpl.
  rewrite Ho. cbv beta iota. rewrite ?Ho, Hr. unfold sock_open, sock_pending, sock_sent. simpl. rewrite ?Ho. split_and!; (done || lia).
Qed.

Lemma SocketStream_read_run s n : sock_open s -> 0 < n -> sock_pending s <> [] ->
  exists data s', SocketStream_read n s = (Ret (Z.of_nat (length data), data), s') /\
    (0 < length data)%nat /\ Z.of_nat (length data) <= n /\
    sock_pending s = data ++ sock_pending s' /\ sock_sent s' = sock_sent s /\ sock_open s'.
Proof.
  intros Ho. unfold SocketStream_read. mstep (gets_Ret m_isConnected s true Ho).
  by apply SocketStream_recv_run.
Qed.
Lemma SocketStream_write_run s bs : sock_open s -> bs <> [] ->
  exists k s', SocketStream_write bs s = (Ret (Z.of_nat k), s') /\ (0 < k <= length bs)%nat /\
    sock_sent s' = sock_sent s ++ take k bs /\ sock_pending s' = sock_pending s /\ sock_open s'.
Proof.
  intros Ho. unfold SocketStream_write. mstep (gets_Ret m_isConnected s true Ho).
  by apply SocketStream_send_run.
Qed.

(** Receiving into the buffer: the bytes land at the cursor, which moves past
    them. *)
Lemma SocketStream_read_ba_run s b n :
  sock_open s -> 0 < n -> sock_pending s <> [] -> ba_can_write b (Z.to_nat n) ->
  exists data s' b', SocketStream_read_ba n (s, b) = (Ret (Z.of_nat (length data)), (s', b')) /\
    (0 < length data)%nat /\ Z.of_nat (length data) <= n /\
    sock_pending s = data ++ sock_pending s' /\ sock_sent s' = sock_sent s /\ sock_open s' /\
    written b' = written b ++ data /\ m__endian b' = m__endian b /\
    m_baseSize b' = m_baseSize b /\
    (forall k, ba_can_write b (length data + k) -> ba_can_write b' k).
Proof.
  intros Ho Hn Hp (Hwf & Hsz & Hcap & Hfits).
  destruct (getWriteBuffers_within b (Z.to_nat n) Hwf) as (iovs & Hgw & Hcov); [lia|done|].
  destruct (SocketStream_recv_run s n Ho Hn Hp) as (data & s1 & Hr & Hd & Hle & Hpend & Hsent & Ho1).
  destruct (scatter_run b iovs _ _ data (wf_chain _ Hwf) Hcov) as (nodes' & Hsc & Hf & Hfo & Hl);
    [lia|lia|].
  set (b1 := set_nodes nodes' b) in *. set (p := (m_position b + length data)%nat).
  assert (Hwf1 : wf b1).
  { destruct Hwf. constructor; simpl; try done; try lia. }
  assert (Hsp : setPosition p b1 = (Ret tt, sought b1 p)).
  { apply setPosition_run; [auto with cxk|apply (wf_root _ Hwf1)|simpl; unfold p; lia]. }
  exists data, s1, (sought b1 p). split_and!; try done.
  - unfold SocketStream_read_ba. mstep (gets_Ret (fun s => m_isConnected (fst s)) (s, b) true Ho).
    cbn [negb]. mstep (on_snd_Ret _ s b b _ Hgw). mstep (on_fst_Ret _ s s1 b _ Hr).
    mstep (on_snd_Ret _ s1 b b1 _ Hsc). zcase.
    msimpl. unfold on_snd. cbn [snd fst]. rewrite Nat2Z.id. unfold p in Hsp. simpl in Hsp |- *.
    by rewrite Hsp.
  - unfold written. simpl. unfold flat at 1. simpl. rewrite Hf. apply take_patch.
    rewrite length_flat by auto with cxk. lia.
  - intros k (_ & _ & Hk & Hfk). unfold ba_can_write, fits in *. simpl. split_and!.
    + apply wf_sought; [done|simpl; unfold p; lia].
    + unfold p. lia.
    + unfold p. lia.
    + unfold p. lia.
Qed.

Lemma SocketStream_write_ba_run s b n :
  sock_open s -> 0 < n <= Z.of_nat (length (unread b)) -> wf b ->
  exists k s' b', SocketStream_write_ba n (s, b) = (Ret (Z.of_nat k), (s', b')) /\
    (0 < k)%nat /\ Z.of_nat k <= n /\
    sock_sent s' = sock_sent s ++ take k (unread b) /\ sock_pending s' = sock_pending s /\
    sock_open s' /\ unread b' = drop k (unread b) /\ m_size b' = m_size b /\ wf b'.
Proof.
  intros Ho Hn Hwf. pose proof (wf_pos _ Hwf) as Hps. pose proof (wf_size _ Hwf) as Hsz.
  assert (Hlen : length (unread b) = (m_size b - m_position b)%nat).
  { unfold unread. apply length_slice. rewrite length_flat by auto with cxk. lia. }
  destruct (getReadBuffers_run b n Hwf ltac:(lia)) as (iovs & Hgr & Hcov).
  rewrite Z.min_l in * by lia.
  destruct (covers_gather b iovs _ _ (wf_chain _ Hwf) Hcov) as [_ Hg]; [lia|].
  replace (m_position b + Z.to_nat n - m_position b)%nat with (Z.to_nat n) in Hg by lia.
  assert (Hg' : gather b iovs = take (Z.to_nat n) (unread b)).
  { rewrite Hg. unfold unread, slice. rewrite take_take. f_equal. lia. }
  destruct (SocketStream_send_run s (gather b iovs) Ho) as (k & s1 & Hr & Hk & Hs & Hp & Ho1).
  { rewrite Hg'. intros E. apply (f_equal length) in E. rewrite length_take in E. simpl in E. lia. }
  assert (Hk' : (0 < k <= Z.to_nat n)%nat).
  { rewrite Hg', length_take in Hk. lia. }
  assert (Hsp : setPosition (m_position b + k) b = (Ret tt, sought b (m_position b + k))).
  { apply setPosition_run; [auto with cxk|apply (wf_root _ Hwf)|lia]. }
  exists k, s1, (sought b (m_position b + k)). split_and!; try done; try lia.
  - unfold SocketStream_write_ba. mstep (gets_Ret (fun s => m_isConnected (fst s)) (s, b) true Ho).
    cbn [negb]. mstep (gets_Ret snd (s, b) b eq_refl). rewrite Hgr.
    rewrite (bind_Ret (lift _) _ _ _ _ eq_refl). mstep (on_fst_Ret _ s s1 b _ Hr). zcase.
    msimpl. unfold on_snd. cbn [snd fst]. rewrite Nat2Z.id.
    by rewrite Hsp.
  - rewrite Hs, Hg', take_take. do 2 f_equal. lia.
  - unfold unread, slice. simpl. rewrite Nat.max_l by lia. change (flat (sought b _)) with (flat b).
    rewrite skipn_firstn_comm, drop_drop. f_equal. lia.
  - simpl. lia.
  - apply wf_sought; [done|lia].
Qed.

Lemma SocketStream_close_run s : exists s', s_close s = (Ret tt, s') /\
  sock_pending s' = sock_pending s /\ sock_sent s' = sock_sent s /\ ~ sock_open s'.
Proof.
  change (s_close s) with (SocketStream_close s). unfold SocketStream_close, Socket_close. msimpl.
  unfold sock_open. destruct (m_isConnected s) eqn:Ec; cbn [negb andb]; [|destruct (m_socket s =? -1)];
    (eexists; split; [done|]); destruct s; cbn in *; by rewrite ?Ec.
Qed.

#[export] Instance SocketStream_spec : StreamSpec (Socket K) := {|
  st_open := sock_open;
  st_pending := sock_pending;
  st_sent := sock_sent;
  st_read_law := SocketStream_read_run;
  st_eof_law := SocketStream_eof_run;
  st_write_law := SocketStream_write_run;
  st_read_ba_law := SocketStream_read_ba_run;
  st_write_ba_law := SocketStream_write_ba_run;
  st_close_law := SocketStream_close_run
|}.
End SocketStreamSpec.

(** A wire that carries at most [wire_mtu + 1] bytes per system call. *)
Record Wire := mkWire { wire_in : list Z; wire_out : list Z; wire_mtu : nat }.

#[export] Instance Wire_kernel : Kernel Wire := {|
  k_recv n := fun w =>
    let data := take (Nat.min (Z.to_nat n) (S (wire_mtu w))) (wire_in w) in
    (Ret (Z.of_nat (length data), data), mkWire (drop (length data) (wire_in w)) (wire_out w) (wire_mtu w));
  k_send bs := fun w =>
    let data := take (S (wire_mtu w)) bs in
    (Ret (Z.of_nat (length data)), mkWire (wire_in w) (wire_out w ++ data) (wire_mtu w))
|}.

#[export] Program Instance Wire_spec : KernelSpec Wire := {|
  k_pending := wire_in;
  k_sent := wire_out
|}.
Next Obligation.
  intros k n Hn Hp. simpl. eexists _, _. split; [done|]. rewrite length_take. simpl.
  split_and!; try done.
  - destruct (wire_in k); [done|]. simpl. lia.
  - lia.
  - set (n' := Nat.min (Z.to_nat n) (S (wire_mtu k))).
    destruct (decide (n' <= length (wire_in k))%nat).
    + by rewrite (Nat.min_l _ (length _)), take_drop by done.
    + by rewrite (Nat.min_r _ (length _)), take_ge, drop_all, app_nil_r by lia.
Qed.
Next Obligation.
  intros k n Hn Hp. simpl. rewrite Hp, take_nil. simpl. eexists. split_and!; try done.
Qed.
Next Obligation.
  intros k bs Hb. cbn [k_send Wire_kernel]. eexists _, _. split; [done|]. cbn [wire_out wire_in].
  rewrite length_take. destruct bs; [done|]. split_and!; try done; [simpl; lia|simpl; lia|].
  f_equal. destruct (decide (S (wire_mtu k) <= length (z :: bs))%nat).
  - by rewrite Nat.min_l.
  - rewrite Nat.min_r by lia. rewrite !take_ge by lia. done.
Qed.

(** ** Properties *)
Section Properties.
Context {St : Type} `{StreamSpec St}.

(** on every stream that meets the interface, however its reads are cut up,
    [readFixSize] terminates; it returns exactly the next [length] bytes when
    the peer sent that many, leaving the rest pending, and a result [<= 0] when
    the stream ends before. *)
Theorem readFixSize_exact n s :
  st_open s -> 0 <= n < 2 ^ 31 ->
  (n <= Z.of_nat (length (st_pending s)) ->
     exists s', readFixSize n s = (Ret (n, take (Z.to_nat n) (st_pending s)), s') /\
       st_pending s' = drop (Z.to_nat n) (st_pending s) /\ st_sent s' = st_sent s) /\
  (Z.of_nat (length (st_pending s)) < n ->
     exists r data s', readFixSize n s = (Ret (r, data), s') /\ r <= 0 /\ st_sent s' = st_sent s).
Proof.
  intros Ho Hn. split; intros Hl.
  - destruct (readFixSize_ok (take (Z.to_nat n) (st_pending s)) (drop (Z.to_nat n) (st_pending s)) s Ho)
      as (s' & Hr & Hp & Hs & _).
    { by rewrite take_drop. } { rewrite length_take. lia. }
    assert (E : Z.of_nat (length (take (Z.to_nat n) (st_pending s))) = n).
    { rewrite length_take. lia. }
    rewrite E in Hr. by exists s'.
  - apply readFixSize_eof; [done|lia].
Qed.

(** [readFixSize] into a [ByteArray] appends exactly the next [length]
    pending bytes to what the buffer holds, and [writeFixSize] from a
    [ByteArray] sends exactly its unread bytes, leaving nothing unread. *)
Theorem fixSize_bytearray {heap : Heap} s b :
  st_open s ->
  (forall bs rest, st_pending s = bs ++ rest -> Z.of_nat (length bs) < 2 ^ 31 ->
     ba_can_write b (length bs) ->
     exists s' b', readFixSize_ba (Z.of_nat (length bs)) (s, b) = (Ret (Z.of_nat (length bs)), (s', b')) /\
       st_pending s' = rest /\ written b' = written b ++ bs /\ wf b' /\ m__endian b' = m__endian b) /\
  (wf b -> Z.of_nat (length (unread b)) < 2 ^ 31 ->
     exists s' b', writeFixSize_ba (Z.of_nat (length (unread b))) (s, b)
         = (Ret (Z.of_nat (length (unread b))), (s', b')) /\
       st_sent s' = st_sent s ++ unread b /\ st_pending s' = st_pending s /\
       unread b' = [] /\ wf b').
Proof.
  intros Ho. split.
  - intros bs rest Hp Hl Hc. unfold readFixSize_ba. rewrite i64_small by lia.
    destruct (readFixSize_ba_loop_ok (S (Z.to_nat (Z.of_nat (length bs)))) (Z.of_nat (length bs)) bs rest s b
      Ho Hp) as (s' & b' & Hr & Hp' & _ & _ & Hw & He & _ & [Hwf _]); [lia|done|].
    exists s', b'. by rewrite Hr, i32_small by lia.
  - intros Hwf Hl. unfold writeFixSize_ba. rewrite i64_small by lia.
    destruct (writeFixSize_ba_loop_ok (S (Z.to_nat (Z.of_nat (length (unread b)))))
      (Z.of_nat (length (unread b))) (Z.of_nat (length (unread b))) s b Ho Hwf eq_refl)
      as (s' & b' & Hr & Hs & Hp & _ & Hu & _ & Hwf'); [lia|].
    exists s', b'. by rewrite Hr, i32_small by lia.
Qed.

(** [writeFixSize] sends exactly the buffer, in order, however the writes
    are cut up, and returns the length. *)
Theorem writeFixSize_exact bs s :
  st_open s -> Z.of_nat (length bs) < 2 ^ 31 ->
  exists s', writeFixSize bs (Z.of_nat (length bs)) s = (Ret (Z.of_nat (length bs)), s') /\
    st_sent s' = st_sent s ++ bs /\ st_pending s' = st_pending s /\ st_open s'.
Proof. apply writeFixSize_ok. Qed.
End Properties.

(** a [write] that fails with a negative result is not reported by
    [writeFixSize(const void*, size_t)]: the result is compared as an unsigned
    number, so the loop goes on with an address outside the buffer. *)
Theorem writeFixSize_misses_error {St : Type} `{Stream St} buffer n s s' r :
  Z.of_nat (length buffer) = n -> 0 < n < 2 ^ 32 -> - 2 ^ 31 <= r < 0 ->
  (forall bs, s_write bs s = (Ret r, s')) ->
  fst (writeFixSize buffer n s) = Crash.
Proof.
  intros Hb Hn Hr Hw. by apply (writeFixSize_failed_crash buffer n s s' r).
Qed.

(** ** Witnesses *)
#[local] Existing Instance zero_heap.
(** Three bytes per system call; "hello" pending. *)
Definition wire : Socket Wire := mkSocket 5 true (mkWire [104; 101; 108; 108; 111] [] 2).

Lemma wire_open : st_open wire.
Proof. reflexivity. Qed.

Lemma readFixSize_witness :
  (exists s, readFixSize 4 wire = (Ret (4, [104; 101; 108; 108]), s)) /\
  (exists r d s, readFixSize 6 wire = (Ret (r, d), s) /\ r <= 0).
Proof.
  split.
  - destruct (readFixSize_exact 4 wire wire_open ltac:(lia)) as [H _].
    destruct H as (s & E & _); [cbv; discriminate|]. exists s. exact E.
  - destruct (readFixSize_exact 6 wire wire_open ltac:(lia)) as [_ H].
    destruct H as (r & d & s & E & Hr & _); [reflexivity|]. by exists r, d, s.
Defined.

Lemma fixSize_bytearray_witness :
  exists s b, readFixSize_ba 4 (wire, small) = (Ret 4, (s, b)) /\ written b = [104; 101; 108; 108].
Proof.
  destruct (fixSize_bytearray wire small wire_open) as [H _].
  destruct (H [104; 101; 108; 108] [111] eq_refl eq_refl) as (s & b & E & _ & Ew & _).
  { split_and!; [wf_compute|done|cbv; lia|reflexivity]. }
  exists s, b. split; [exact E|exact Ew].
Defined.

Lemma writeFixSize_witness :
  exists s, writeFixSize [1; 2; 3; 4; 5; 6; 7] 7 wire = (Ret 7, s) /\ st_sent s = [1; 2; 3; 4; 5; 6; 7].
Proof.
  destruct (writeFixSize_exact [1; 2; 3; 4; 5; 6; 7] wire wire_open eq_refl) as (s & E & Es & _).
  exists s. split; [exact E|exact Es].
Defined.

Lemma writeFixSize_misses_witness :
  let closed := mkSocket (-1) false (mkWire [] [] 0) in
  fst (writeFixSize [1; 2] 2 closed) = Crash.
Proof. intros closed. by apply (writeFixSize_misses_error [1; 2] 2 closed closed (-1)). Defined.
