(* ===== verification/Zlib.v ===== *)
(** * ZlibStream (cxk/stream/zlib_stream.cpp)

    A [ZlibStream] feeds its input to zlib and collects the output in a list of
    buffers of [m_buffsize] bytes.  zlib itself is the parameter [Zlib]; what
    its manual promises is [ZlibSpec]. *)
From S2P Require Import Prelude Endian ByteArray ByteCodec Stream.

Definition Z_OK : Z := 0.
Definition Z_STREAM_ERROR : Z := -2.
Definition Z_NO_FLUSH : Z := 0.
Definition Z_FINISH : Z := 4.

(** [z_deflate st input avail_out flush] is the call [deflate(&strm, flush)]
    with [input] at [next_in]: its result, how many input bytes it consumed and
    the output it stored; [z_inflate] likewise.  [z_bound st input] bounds the
    output still to come. *)
Class Zlib (Zs : Type) := {
  z_init : bool -> Z -> Z -> Z -> Z -> Z * Zs;
  z_deflate : Zs -> list Z -> nat -> Z -> Z * nat * list Z * Zs;
  z_inflate : Zs -> list Z -> nat -> Z -> Z * nat * list Z * Zs;
  z_end : Zs -> Zs;
  z_bound : Zs -> list Z -> nat
}.

(** enum Type *)
Inductive ZType : Type := ZLIB | DEFLATE | GZIP.
Definition DEFAULT_COMPRESSION : Z := -1.
Definition DEFAULT_STRATEGY : Z := 0.

Record ZlibStream (Zs : Type) := mkZlibStream {
  m_zstream : Zs;
  m_next_in : list Z;
  m_buffsize : nat;
  m_encode : bool;
  m_buffs : list (list Z)
}.
Arguments mkZlibStream {Zs}.
Arguments m_zstream {Zs}.
Arguments m_next_in {Zs}.
Arguments m_buffsize {Zs}.
Arguments m_encode {Zs}.
Arguments m_buffs {Zs}.

Section ZlibStream.
Context {Zs : Type} `{Zlib Zs} {heap : Heap}.
Implicit Types (s : ZlibStream Zs).

Definition set_buffs (v : list (list Z)) s : ZlibStream Zs :=
  mkZlibStream (m_zstream s) (m_next_in s) (m_buffsize s) (m_encode s) v.
Definition set_next_in (v : list Z) s : ZlibStream Zs :=
  mkZlibStream (m_zstream s) v (m_buffsize s) (m_encode s) (m_buffs s).
Definition set_zstream (v : Zs) s : ZlibStream Zs :=
  mkZlibStream v (m_next_in s) (m_buffsize s) (m_encode s) (m_buffs s).

(** ** init and Create: a failed assertion is [Crash]. *)
Definition init (encode : bool) (type : ZType) (level window_bits memlevel strategy : Z) : outcome (Z * Zs) :=
  if negb (((0 <=? level) && (level <=? 9)) || (level =? DEFAULT_COMPRESSION)) then Crash else
  if negb ((8 <=? window_bits) && (window_bits <=? 15)) then Crash else
  if negb ((1 <=? memlevel) && (memlevel <=? 9)) then Crash else
  let window_bits :=
    match type with
    | DEFLATE => - window_bits
    | GZIP => window_bits + 16
    | ZLIB => window_bits
    end in
  Ret (z_init encode level window_bits memlevel strategy).

Definition Create (encode : bool) (buff_size : nat) (type : ZType) (level window_bits memlevel strategy : Z) :
    outcome (option (ZlibStream Zs)) :=
  '(rc, zs) ← init encode type level window_bits memlevel strategy;
  Ret (if rc =? Z_OK then Some (mkZlibStream zs [] buff_size encode []) else None).
(** The default [buff_size] of the [Create] functions is that of a [ByteArray]. *)
Definition default_buff_size : nat := default_base_size.
Definition CreateGzip (encode : bool) : outcome (option (ZlibStream Zs)) :=
  Create encode default_buff_size GZIP DEFAULT_COMPRESSION 15 8 DEFAULT_STRATEGY.
Definition CreateDeflate (encode : bool) : outcome (option (ZlibStream Zs)) :=
  Create encode default_buff_size DEFLATE DEFAULT_COMPRESSION 15 8 DEFAULT_STRATEGY.
Definition CreateZlib (encode : bool) : outcome (option (ZlibStream Zs)) :=
  Create encode default_buff_size ZLIB DEFAULT_COMPRESSION 15 8 DEFAULT_STRATEGY.

(** ** encode and decode

    The two functions differ only in the zlib calls. *)

(** A last buffer with room, a new one when there is none. *)
Definition with_room (s : ZlibStream Zs) : list (list Z) * list Z :=
  match rev (m_buffs s) with
  | b :: full => if (length b =? m_buffsize s)%nat then (m_buffs s, []) else (rev full, b)
  | [] => ([], [])
  end.

(** The [do ... while(avail_out == 0)] loop on one input block; [Some rc] is
    the early return. *)
Fixpoint z_do (call : Zs -> list Z -> nat -> Z -> Z * nat * list Z * Zs) (fuel : nat) (flush : Z) :
    M (ZlibStream Zs) (option Z) :=
  match fuel with
  | O => nofuel
  | S fuel =>
      s ← get;
      let '(full, b) := with_room s in
      let avail_out := (m_buffsize s - length b)%nat in
      let '(ret, consumed, out, zs) := call (m_zstream s) (m_next_in s) avail_out flush in
      modify (fun s => set_zstream zs (set_next_in (drop consumed (m_next_in s)) (set_buffs (full ++ [b]) s))) ;;
      if ret =? Z_STREAM_ERROR then mret (Some ret) else
      modify (set_buffs (full ++ [b ++ out])) ;;
      if (avail_out =? length out)%nat then z_do call fuel flush else mret None
  end.

Fixpoint z_blocks (call : Zs -> list Z -> nat -> Z -> Z * nat * list Z * Zs) (v : list (list Z)) (finish : bool) :
    M (ZlibStream Zs) Z :=
  match v with
  | [] => mret Z_OK
  | blk :: v' =>
      modify (set_next_in blk) ;;
      let flush := if finish && (length v' =? 0)%nat then Z_FINISH else Z_NO_FLUSH in
      s ← get;
      early ← z_do call (S (z_bound (m_zstream s) blk)) flush;
      match early with
      | Some ret => mret ret
      | None =>
          if (length v' =? 0)%nat then
            (if flush =? Z_FINISH then modify (fun s => set_zstream (z_end (m_zstream s)) s) else mret tt) ;;
            mret Z_OK
          else z_blocks call v' finish
      end
  end.

Definition encode (v : list (list Z)) (finish : bool) : M (ZlibStream Zs) Z := z_blocks z_deflate v finish.
Definition decode (v : list (list Z)) (finish : bool) : M (ZlibStream Zs) Z := z_blocks z_inflate v finish.

Definition code (v : list (list Z)) (finish : bool) : M (ZlibStream Zs) Z :=
  e ← gets m_encode; if (e : bool) then encode v finish else decode v finish.

(** ** The Stream operations *)
Definition ZlibStream_read (length : Z) : M (ZlibStream Zs) (Z * list Z) := throw LogicError.
Definition ZlibStream_read_ba (length : Z) : M (ZlibStream Zs * ByteArray) Z := throw LogicError.
Definition ZlibStream_write (buffer : list Z) : M (ZlibStream Zs) Z := code [buffer] false.

(** The contents of the [iovec]s. *)
Definition chunks (b : ByteArray) (iovs : list iovec) : list (list Z) :=
  map (fun v => slice (iov_off v) (iov_len v) (nth (iov_node v) (m_nodes b) [])) iovs.

Definition ZlibStream_write_ba (length : Z) : M (ZlibStream Zs * ByteArray) Z :=
  b ← gets snd;
  '(_, iovs) ← lift (getReadBuffers (u64 length) b);
  on_fst (code (chunks b iovs) false).

Definition flush : M (ZlibStream Zs) Z := code [[]] true.
Definition ZlibStream_close : M (ZlibStream Zs) unit := flush ;; mret tt.

#[export] Instance ZlibStream_stream : Stream (ZlibStream Zs) := {|
  s_read := ZlibStream_read;
  s_write := ZlibStream_write;
  s_read_ba := ZlibStream_read_ba;
  s_write_ba := ZlibStream_write_ba;
  s_close := ZlibStream_close
|}.

(** ** The results *)
Definition getResult (s : ZlibStream Zs) : list Z := concat (m_buffs s).

Fixpoint write_all (bufs : list (list Z)) : M ByteArray unit :=
  match bufs with
  | [] => mret tt
  | b :: bufs' => write b ;; write_all bufs'
  end.
Definition getByteArray (s : ZlibStream Zs) : outcome ByteArray :=
  match (write_all (m_buffs s) ;; setPosition 0) (new_ByteArray default_base_size) with
  | (Ret _, b) => Ret b
  | (Throw e, _) => Throw e
  | (Crash, _) => Crash
  | (NoFuel, _) => NoFuel
  end.
End ZlibStream.

(** ** What the zlib manual promises

    [z_in] and [z_out] are all the input consumed and all the output produced
    so far; [z_format wb x] is the complete compressed form of [x].  A call with
    output space never fails with [Z_STREAM_ERROR] on an initialised stream; if
    it leaves output space unused it has consumed all its input, and with
    [Z_FINISH] the stream is then complete.  [inflate] promises this while its
    input is a part of a compressed stream. *)
Definition z_valid (format : list Z -> list Z) (e : bool) (input : list Z) : Prop :=
  e = true \/ exists x rest, format x = input ++ rest.

Class ZlibSpec (Zs : Type) `{Zlib Zs} := {
  z_ok : bool -> Z -> Zs -> Prop;
  z_in : Zs -> list Z;
  z_out : Zs -> list Z;
  z_format : Z -> list Z -> list Z;
  z_init_law : forall e l wb m st zs, z_init e l wb m st = (Z_OK, zs) ->
    z_ok e wb zs /\ z_in zs = [] /\ z_out zs = [];
  z_call_law : forall e wb zs input avail fl ret n out zs',
    z_ok e wb zs -> (0 < avail)%nat -> z_valid (z_format wb) e (z_in zs ++ input) ->
    (if e then z_deflate else z_inflate) zs input avail fl = (ret, n, out, zs') ->
    ret <> Z_STREAM_ERROR /\ (length out <= avail)%nat /\ z_ok e wb zs' /\
    z_in zs' = z_in zs ++ take n input /\ z_out zs' = z_out zs ++ out /\
    (z_bound zs' (drop n input) + length out <= z_bound zs input)%nat /\
    ((length out < avail)%nat -> drop n input = []);
  z_finish_law : forall wb zs input avail ret n out zs',
    z_ok true wb zs -> z_deflate zs input avail Z_FINISH = (ret, n, out, zs') ->
    (length out < avail)%nat -> z_out zs' = z_format wb (z_in zs');
  z_inflate_law : forall wb zs input avail fl ret n out zs' x,
    z_ok false wb zs -> z_inflate zs input avail fl = (ret, n, out, zs') ->
    (length out < avail)%nat -> z_in zs' = z_format wb x -> z_out zs' = x;
  z_end_law : forall zs, z_in (z_end zs) = z_in zs /\ z_out (z_end zs) = z_out zs
}.

Section ZlibRun.
Context {Zs : Type} `{ZlibSpec Zs}.
Implicit Types (s : ZlibStream Zs).

(** All buffers but the last are full. *)
Definition packed (size : nat) (bufs : list (list Z)) : Prop :=
  match rev bufs with
  | [] => True
  | b :: full => (length b <= size)%nat /\ Forall (fun x => length x = size) full
  end.
Record zwf (wb : Z) s : Prop := {
  zw_size : (0 < m_buffsize s)%nat;
  zw_packed : packed (m_buffsize s) (m_buffs s);
  zw_ok : z_ok (m_encode s) wb (m_zstream s);
  zw_out : getResult s = z_out (m_zstream s)
}.

Lemma packed_snoc size full b :
  Forall (fun x => length x = size) full -> (length b <= size)%nat -> packed size (full ++ [b]).
Proof. intros. unfold packed. rewrite rev_app_distr. simpl. split; [done|]. by apply Forall_rev. Qed.
Lemma with_room_spec s : packed (m_buffsize s) (m_buffs s) -> (0 < m_buffsize s)%nat ->
  exists full b, with_room s = (full, b) /\ Forall (fun x => length x = m_buffsize s) full /\
    (length b < m_buffsize s)%nat /\ concat full ++ b = getResult s.
Proof.
  unfold packed, with_room, getResult. intros Hp Hs.
  destruct (rev (m_buffs s)) as [|b full] eqn:E.
  - exists [], []. apply (f_equal (@rev _)) in E. rewrite rev_involutive in E. rewrite E. by simpl.
  - destruct Hp as [Hb Hf]. apply (f_equal (@rev _)) in E. rewrite rev_involutive in E. simpl in E.
    rewrite E. destruct (Nat.eqb_spec (length b) (m_buffsize s)).
    + exists (rev full ++ [b]), []. split_and!; [done| |simpl; lia|by rewrite app_nil_r].
      apply Forall_app. split; [by apply Forall_rev|by constructor].
    + exists (rev full), b. split_and!; [done|by apply Forall_rev|lia|].
      rewrite concat_app. simpl. by rewrite app_nil_r.
Qed.

Definition z_call (e : bool) : Zs -> list Z -> nat -> Z -> Z * nat * list Z * Zs :=
  if e then z_deflate else z_inflate.

(** When the call of the loop ends, everything given is consumed, everything
    produced is in the buffers, and the last call left output space unused. *)
Definition complete (wb : Z) (e : bool) (fl : Z) (zs : Zs) : Prop :=
  (e = true -> fl = Z_FINISH -> z_out zs = z_format wb (z_in zs)) /\
  (e = false -> forall x, z_in zs = z_format wb x -> z_out zs = x).

Lemma z_do_run wb fuel fl s :
  zwf wb s -> (z_bound (m_zstream s) (m_next_in s) < fuel)%nat ->
  z_valid (z_format wb) (m_encode s) (z_in (m_zstream s) ++ m_next_in s) ->
  exists s', z_do (z_call (m_encode s)) fuel fl s = (Ret None, s') /\ zwf wb s' /\
    m_buffsize s' = m_buffsize s /\ m_encode s' = m_encode s /\
    z_in (m_zstream s') = z_in (m_zstream s) ++ m_next_in s /\
    complete wb (m_encode s) fl (m_zstream s').
Proof.
  revert s. induction fuel as [|fuel IH]; intros s Hwf Hf Hv; [lia|].
  destruct Hwf as [Hsize Hpk Hok Hout].
  destruct (with_room_spec s Hpk Hsize) as (full & b & Hroom & Hfull & Hb & Hcat).
  cbn [z_do]. rewrite (bind_Ret get _ s s s eq_refl), Hroom.
  destruct (z_call (m_encode s) (m_zstream s) (m_next_in s) (m_buffsize s - length b) fl)
    as [[[ret n] out] zs'] eqn:Ecall.
  destruct (z_call_law (m_encode s) wb (m_zstream s) (m_next_in s) (m_buffsize s - length b) fl ret n out zs')
    as (Hret & Hlen & Hok' & Hin & Ho & Hbd & Hrest); [done|lia|done|exact Ecall|].
  msimpl. destruct (Z.eqb_spec ret Z_STREAM_ERROR); [done|].
  set (s1 := set_buffs (full ++ [b ++ out]) _).
  assert (Hwf1 : zwf wb s1).
  { constructor; simpl; [done| |done|].
    - apply packed_snoc; [done|]. rewrite length_app. lia.
    - unfold getResult. simpl. rewrite concat_app. simpl.
      rewrite app_nil_r, app_assoc, Hcat, Hout, Ho. done. }
  destruct (Nat.eqb_spec (m_buffsize s - length b) (length out)) as [E|E].
  - destruct (IH s1 Hwf1) as (s' & Hrun & Hwf' & Hs' & He' & Hin' & Hc').
    { simpl. lia. }
    { simpl. rewrite Hin, <- app_assoc, take_drop. done. }
    exists s'. split_and!; try done. by rewrite Hin'; simpl; rewrite Hin, <- app_assoc, take_drop.
  - assert (Hdrop : drop n (m_next_in s) = []) by (apply Hrest; lia).
    exists s1. split_and!; try done.
    + simpl. rewrite Hin. rewrite <- (take_drop n (m_next_in s)) at 2. by rewrite Hdrop, app_nil_r.
    + change (m_zstream s1) with zs'. unfold z_call in Ecall. split; intros Ee; rewrite Ee in Ecall, Hok.
      * intros ->. apply (z_finish_law wb _ _ _ _ _ _ _ Hok Ecall). lia.
      * intros x. apply (z_inflate_law wb _ _ _ _ _ _ _ _ _ Hok Ecall). lia.
Qed.

(** All blocks of a call. *)
Lemma z_blocks_run wb v finish s :
  zwf wb s -> z_valid (z_format wb) (m_encode s) (z_in (m_zstream s) ++ concat v) ->
  exists s', z_blocks (z_call (m_encode s)) v finish s = (Ret Z_OK, s') /\
    packed (m_buffsize s) (m_buffs s') /\ m_buffsize s' = m_buffsize s /\ m_encode s' = m_encode s /\
    z_in (m_zstream s') = z_in (m_zstream s) ++ concat v /\ getResult s' = z_out (m_zstream s') /\
    (finish = false -> zwf wb s') /\
    (v <> [] -> complete wb (m_encode s) (if finish then Z_FINISH else Z_NO_FLUSH) (m_zstream s')).
Proof.
  revert s. induction v as [|blk v IH]; intros s Hwf Hv.
  { exists s. destruct Hwf. simpl. rewrite app_nil_r. split_and!; try done. }
  cbn [z_blocks]. msimpl.
  set (s0 := set_next_in blk s). set (fl := if finish && (length v =? 0)%nat then Z_FINISH else Z_NO_FLUSH).
  assert (Hwf0 : zwf wb s0) by (destruct Hwf; by constructor).
  destruct (z_do_run wb (S (z_bound (m_zstream s0) blk)) fl s0 Hwf0)
    as (s1 & Hrun & Hwf1 & Hs1 & He1 & Hin1 & Hc1).
  { simpl. lia. }
  { simpl. destruct Hv as [?|(x & rest & Hx)]; [by left|right].
    exists x, (concat v ++ rest). rewrite Hx. simpl. by rewrite <- !app_assoc. }
  change (m_encode s0) with (m_encode s) in *. rewrite Hrun.
  destruct v as [|blk' v].
  - simpl in Hin1. cbn [length]. unfold fl in *. rewrite andb_true_r in *. clear fl IH.
    simpl. rewrite app_nil_r. destruct Hwf1 as [W1 W2 W3 W4]. rewrite Hs1 in W2.
    destruct finish; simpl.
    + destruct (z_end_law (m_zstream s1)) as [Ei Eo]. eexists; split; [done|]. simpl.
      rewrite Ei, Eo. split_and!; try done. intros _. destruct Hc1 as [C1 C2].
      split; rewrite ?Ei, ?Eo; done.
    + exists s1. split_and!; try done. intros _. constructor; try done. by rewrite Hs1.
  - unfold fl in *. simpl in fl. cbn [length]. cbn [Nat.eqb].
    destruct (IH s1 Hwf1) as (s2 & Hr2 & Hp2 & Hs2 & He2 & Hin2 & Ho2 & Hw2 & Hc2).
    { rewrite He1, Hin1. simpl in Hv |- *. by rewrite <- app_assoc. }
    rewrite He1 in Hr2, Hc2. exists s2. rewrite Hs1 in *. split_and!; try done; try congruence.
    + rewrite Hin2, Hin1. simpl. by rewrite <- app_assoc.
    + intros _. by apply Hc2.
Qed.
End ZlibRun.

Section ByteArrayResult.
Context {Zs : Type} `{ZlibSpec Zs} {heap : Heap}.
Let page_size : Z.of_nat default_base_size = 4096 := default_base_sizeE.

Lemma packed_cons size x l :
  packed size (x :: l) -> (l <> [] -> length x = size) /\ (length x <= size)%nat /\ packed size l.
Proof.
  unfold packed. simpl. destruct (rev l) as [|b full] eqn:E; simpl.
  - intros [Hx _]. apply (f_equal (@rev _)) in E. rewrite rev_involutive in E. done.
  - intros [Hb Hf]. apply Forall_app in Hf as [Hf Hx]. inversion Hx; subst.
    split_and!; try done.
Qed.

Lemma write_all_run bufs b :
  wf b -> m_size b = m_position b -> (m_position b mod m_baseSize b = 0)%nat ->
  packed (m_baseSize b) bufs ->
  Z.of_nat (m_position b + length (concat bufs) + m_baseSize b) < 2 ^ 64 ->
  exists b', write_all bufs b = (Ret tt, b') /\ wf b' /\ written b' = written b ++ concat bufs /\
    m_size b' = m_position b' /\ m_position b' = (m_position b + length (concat bufs))%nat /\
    m__endian b' = m__endian b /\ m_baseSize b' = m_baseSize b.
Proof.
  revert b. induction bufs as [|x bufs IH]; intros b Hwf Hsz Hm Hp Hfit.
  { exists b. simpl. rewrite app_nil_r. split_and!; try done. }
  destruct (packed_cons _ _ _ Hp) as (Hfull & Hle & Hp'). simpl in Hfit. rewrite length_app in Hfit.
  pose proof (length_flat b (wf_chain _ Hwf)). pose proof (wf_pos _ Hwf). pose proof (wf_size _ Hwf).
  destruct (write_run b x Hwf) as (b1 & ext & Hw & Hwf1 & Hp1 & Hs1 & He1 & Hb1 & Hfl & Hle1 & _).
  { by apply grows_enough_boundary. }
  { unfold fits. lia. }
  assert (Hwr : written b1 = written b ++ x).
  { unfold written. rewrite Hfl, Hp1, take_patch, take_app_le by (done || lia). done. }
  cbn [write_all]. mstep Hw. destruct bufs as [|y bufs].
  - exists b1. simpl. rewrite app_nil_r. split_and!; try done. lia.
  - destruct (IH b1 Hwf1) as (b2 & Hr & Hwf2 & Hw2 & Hs2 & Hp2 & He2 & Hb2).
    { lia. }
    { rewrite Hp1, Hb1, Hfull by done. rewrite <- Nat.Div0.add_mod_idemp_l, Hm, Nat.add_0_l.
      apply Nat.Div0.mod_same. }
    { by rewrite Hb1. }
    { simpl. rewrite Hp1, Hb1. simpl in Hfit. lia. }
    exists b2. cbn [concat] in *. split_and!; try done; try congruence.
    + by rewrite Hw2, Hwr, <- app_assoc.
    + rewrite Hp2, Hp1, (length_app x). lia.
Qed.

Lemma getByteArray_run (s : ZlibStream Zs) :
  packed default_base_size (m_buffs s) -> Z.of_nat (length (getResult s)) < 2 ^ 63 ->
  exists b, getByteArray s = Ret b /\ wf b /\ m_position b = 0%nat /\ unread b = getResult s /\
    m_size b = length (getResult s) /\ m__endian b = CXK_BIG_ENDIAN /\ m_baseSize b = default_base_size.
Proof.
  intros Hp Hl. unfold getByteArray, getResult in *.
  assert (Hwf0 : wf (new_ByteArray default_base_size)) by (apply wf_new; lia).
  destruct (write_all_run (m_buffs s) (new_ByteArray default_base_size) Hwf0)
    as (b & Hr & Hwf & Hw & Hs & Hpos & He & Hb); [done|done|done|simpl; lia|].
  simpl in Hpos, Hb. pose proof (wf_size _ Hwf).
  exists (sought b 0). rewrite (bind_Ret _ _ _ _ _ Hr).
  rewrite setPosition_run by (auto with cxk; apply (wf_root _ Hwf) || lia).
  split_and!; try done; [by apply wf_sought; [|lia]| |simpl; lia].
  unfold unread, slice. simpl. rewrite Nat.max_l, Nat.sub_0_r, drop_0 by lia.
  change (flat (sought b 0)) with (flat b). unfold written in Hw. rewrite Hs, Hw. done.
Qed.
End ByteArrayResult.

(** ** Properties *)
Section Properties.
Context {Zs : Type} `{ZlibSpec Zs} {heap : Heap}.
Let page_size : Z.of_nat default_base_size = 4096 := default_base_sizeE.

(** What a client does: create, write the unread bytes of a buffer, flush. *)
Definition run_stream (e : bool) (b : ByteArray) : outcome (option (Z * Z * ZlibStream Zs)) :=
  o ← CreateGzip e;
  match o with
  | None => Ret None
  | Some s0 =>
      match ZlibStream_write_ba (-1) (s0, b) with
      | (Ret rc1, (s1, _)) =>
          match flush s1 with
          | (Ret rc2, s2) => Ret (Some (rc1, rc2, s2))
          | _ => Crash
          end
      | _ => Crash
      end
  end.

Lemma run_stream_ok e b s0 :
  CreateGzip e = Ret (Some s0) -> wf b ->
  z_valid (z_format 31) e (unread b) ->
  exists s, run_stream e b = Ret (Some (Z_OK, Z_OK, s)) /\ packed default_base_size (m_buffs s) /\
    z_in (m_zstream s) = unread b /\ getResult s = z_out (m_zstream s) /\
    complete 31 e Z_FINISH (m_zstream s).
Proof.
  intros Hcr Hwf Hv. unfold run_stream. rewrite Hcr.
  assert (Hs0 : zwf 31 s0 /\ m_encode s0 = e /\ m_buffsize s0 = default_base_size /\ z_in (m_zstream s0) = []).
  { revert Hcr. unfold CreateGzip, Create, init. msimpl. simpl.
    destruct (z_init _ _ _ _ _) as [rc zs] eqn:Ei. destruct (Z.eqb_spec rc Z_OK) as [->|]; [|done].
    intros [= <-]. destruct (z_init_law _ _ _ _ _ _ Ei) as (Hok & Hin & Hout).
    split_and!; [|done..]. constructor; simpl; [unfold default_buff_size; lia|done|done|by rewrite Hout]. }
  destruct Hs0 as (Hz0 & He0 & Hb0 & Hin0).
  destruct (getReadBuffers_run b (2 ^ 64 - 1) Hwf ltac:(lia)) as (iovs & Hgr & Hcov).
  pose proof (wf_size _ Hwf). pose proof (wf_pos _ Hwf). pose proof (wf_fits _ Hwf).
  rewrite Z.min_r in * by lia. rewrite !Nat2Z.id in *.
  destruct (covers_gather b iovs _ _ (wf_chain _ Hwf) Hcov) as [_ Hg]; [lia|].
  assert (Hch : concat (chunks b iovs) = unread b).
  { change (concat (chunks b iovs)) with (gather b iovs). rewrite Hg. unfold unread. f_equal. lia. }
  destruct (z_blocks_run 31 (chunks b iovs) false s0 Hz0) as (s1 & Hr1 & Hp1 & Hb1 & He1 & Hin1 & Ho1 & Hw1 & _).
  { by rewrite Hin0, Hch, He0. }
  specialize (Hw1 eq_refl). rewrite Hin0, Hch in Hin1. simpl in Hin1.
  destruct (z_blocks_run 31 [[]] true s1 Hw1) as (s2 & Hr2 & Hp2 & Hb2 & He2 & Hin2 & Ho2 & _ & Hc2).
  { rewrite He1, He0, Hin1. simpl. by rewrite app_nil_r. }
  assert (Hw : ZlibStream_write_ba (-1) (s0, b) = (Ret Z_OK, (s1, b))).
  { unfold ZlibStream_write_ba. rewrite (bind_Ret _ _ _ _ _ (gets_Ret snd (s0, b) b eq_refl)).
    change (u64 (-1)) with (2 ^ 64 - 1). rewrite Hgr. rewrite (bind_Ret (lift _) _ _ _ _ eq_refl).
    apply on_fst_Ret. unfold code. rewrite (bind_Ret _ _ _ _ _ (gets_Ret m_encode s0 _ eq_refl)).
    rewrite <- Hr1. unfold encode, decode, z_call. by destruct (m_encode s0). }
  assert (Hf : flush s1 = (Ret Z_OK, s2)).
  { unfold flush, code. rewrite (bind_Ret _ _ _ _ _ (gets_Ret m_encode s1 _ eq_refl)).
    rewrite <- Hr2. unfold encode, decode, z_call. by destruct (m_encode s1). }
  msimpl. rewrite Hw, Hf. exists s2. rewrite Hb1, Hb0 in Hp2. simpl in Hin2. rewrite app_nil_r in Hin2.
  split_and!; try done; [by rewrite Hin2, Hin1|]. rewrite <- He0, <- He1. by apply Hc2.
Qed.

(** compressing with [ZlibStream]: for a zlib that keeps its manual's
    promises, writing a buffer to a gzip encoder and flushing it terminates,
    both calls return [Z_OK], and [getResult] is the complete compressed form of
    the buffer's unread bytes, held in full buffers of 4096 bytes (the last
    one perhaps shorter). *)
Theorem gzip_encode b s0 :
  CreateGzip (Zs := Zs) true = Ret (Some s0) -> wf b ->
  exists s, run_stream true b = Ret (Some (Z_OK, Z_OK, s)) /\
    getResult s = z_format 31 (unread b) /\ packed default_base_size (m_buffs s).
Proof.
  intros Hcr Hwf. destruct (run_stream_ok true b s0 Hcr Hwf) as (s & Hr & Hp & Hin & Hout & Hc & _); [by left|].
  exists s. split_and!; try done. by rewrite Hout, Hc, Hin.
Qed.

(** decompressing undoes compressing: writing the complete compressed form
    of [x] to a gzip decoder and flushing it terminates, returns [Z_OK] twice and
    gives [x] back; and [getByteArray] is a well-formed big-endian buffer with
    the cursor at its start whose unread bytes are [x]. *)
Theorem gzip_decode b s0 x :
  CreateGzip (Zs := Zs) false = Ret (Some s0) -> wf b -> unread b = z_format 31 x ->
  Z.of_nat (length x) < 2 ^ 63 ->
  exists s b', run_stream false b = Ret (Some (Z_OK, Z_OK, s)) /\ getResult s = x /\
    getByteArray s = Ret b' /\ wf b' /\ m_position b' = 0%nat /\ unread b' = x.
Proof.
  intros Hcr Hwf Hx Hl. destruct (run_stream_ok false b s0 Hcr Hwf) as (s & Hr & Hp & Hin & Hout & _ & Hc).
  { right. exists x, []. by rewrite app_nil_r. }
  assert (Hres : getResult s = x) by (rewrite Hout; apply Hc; congruence).
  destruct (getByteArray_run s Hp) as (b' & Hb & Hwf' & Hpos & Hu & _); [by rewrite Hres|].
  exists s, b'. split_and!; try done. by rewrite Hu.
Qed.
End Properties.

(** [decode] reports no error but [Z_STREAM_ERROR]: when [inflate] rejects
    the input (any other negative result, such as [Z_DATA_ERROR]), the result of
    [ZlibStream::write] is still [Z_OK]. *)
Theorem decode_hides_errors {Zs : Type} `{Zlib Zs} (s : ZlibStream Zs) blk ret n out zs' :
  m_encode s = false -> m_buffs s = [] -> (length out < m_buffsize s)%nat -> ret <> Z_STREAM_ERROR ->
  z_inflate (m_zstream s) blk (m_buffsize s) Z_NO_FLUSH = (ret, n, out, zs') ->
  fst (ZlibStream_write blk s) = Ret Z_OK.
Proof.
  intros He Hb Hl Hr Hcall. unfold ZlibStream_write, code.
  rewrite (bind_Ret _ _ _ _ _ (gets_Ret m_encode s _ eq_refl)), He. unfold decode. cbn [z_blocks].
  msimpl. simpl. cbn [z_do]. msimpl. unfold with_room. simpl. rewrite Hb. simpl.
  rewrite Nat.sub_0_r, Hcall. destruct (Z.eqb_spec ret Z_STREAM_ERROR); [done|].
  destruct (Nat.eqb_spec (m_buffsize s) (length out)); [lia|]. done.
Qed.

(** ** Witnesses

    A zlib whose compressed form of [x] is [31 :: x]: the first output byte is
    a header, then everything given comes out. *)
Record stored := mkStored { st_kind : bool; st_input : list Z; st_output : list Z }.

Definition target (kind : bool) (input : list Z) : list Z := if kind then 31 :: input else tail input.
Definition stored_call (s : stored) (input : list Z) (avail : nat) (fl : Z) : Z * nat * list Z * stored :=
  let all := st_input s ++ input in
  let out := take avail (drop (length (st_output s)) (target (st_kind s) all)) in
  (0, length input, out, mkStored (st_kind s) all (st_output s ++ out)).

#[local] Instance stored_zlib : Zlib stored := {|
  z_init e _ _ _ _ := (0, mkStored e [] []);
  z_deflate := stored_call;
  z_inflate := stored_call;
  z_end s := s;
  z_bound s input := (length (target (st_kind s) (st_input s ++ input)) - length (st_output s))%nat
|}.

Lemma target_prefix k a b : target k a `prefix_of` target k (a ++ b).
Proof.
  destruct k; simpl.
  - exists b. done.
  - destruct a; simpl; [apply prefix_nil|]. by exists b.
Qed.
Lemma prefix_extend {A} (o l : list A) n :
  o `prefix_of` l -> o ++ take n (drop (length o) l) `prefix_of` l.
Proof. intros [r ->]. rewrite drop_app_length. exists (drop n r). by rewrite <- app_assoc, take_drop. Qed.
Lemma prefix_all {A} (o l : list A) n :
  o `prefix_of` l -> (length (take n (drop (length o) l)) < n)%nat -> o ++ take n (drop (length o) l) = l.
Proof.
  intros [r ->]. rewrite drop_app_length, length_take. intros. by rewrite take_ge by lia.
Qed.

#[local] Program Instance stored_spec : ZlibSpec stored := {|
  z_ok e _ s := st_kind s = e /\ st_output s `prefix_of` target e (st_input s);
  z_in := st_input;
  z_out := st_output;
  z_format _ x := 31 :: x
|}.
Next Obligation. intros. simpl in *. simplify_eq. split_and!; try done. apply prefix_nil. Qed.
Next Obligation.
  intros e wb zs input avail fl ret n out zs' [He Hp] Ha _ Hc.
  assert (Hc' : stored_call zs input avail fl = (ret, n, out, zs')) by (by destruct e).
  unfold stored_call in Hc'. injection Hc' as <- <- <- <-. simpl. rewrite He.
  assert (Hp' : st_output zs `prefix_of` target e (st_input zs ++ input)).
  { etrans; [exact Hp|apply target_prefix]. }
  rewrite firstn_all, drop_all, app_nil_r, length_app, length_take, length_drop.
  split_and!; try done; [lia|by apply prefix_extend|lia].
Qed.
Next Obligation.
  intros wb zs input avail ret n out zs' [He Hp] Hc Hl. simpl in Hc.
  unfold stored_call in Hc. injection Hc as <- <- <- <-. simpl. rewrite He in *.
  rewrite prefix_all; [done| |done]. etrans; [exact Hp|apply target_prefix].
Qed.
Next Obligation.
  intros wb zs input avail fl ret n out zs' x [He Hp] Hc Hl Hx. simpl in Hc.
  unfold stored_call in Hc. injection Hc as <- <- <- <-. simpl in *. rewrite He in *.
  rewrite prefix_all; [by rewrite Hx| |done]. etrans; [exact Hp|apply target_prefix].
Qed.
Next Obligation. done. Qed.

#[local] Existing Instance zero_heap.
Definition abc : ByteArray := snd ((write [97; 98; 99] ;; setPosition 0) (new_ByteArray 16)).
Definition packed_abc : ByteArray := snd ((write [31; 97; 98; 99] ;; setPosition 0) (new_ByteArray 16)).

Definition new_stored (e : bool) : ZlibStream stored := mkZlibStream (mkStored e [] []) [] default_buff_size e [].
Lemma create_stored e : CreateGzip e = Ret (Some (new_stored e)).
Proof. reflexivity. Qed.

Lemma gzip_encode_witness :
  exists s : ZlibStream stored, run_stream true abc = Ret (Some (Z_OK, Z_OK, s)) /\
    getResult s = [31; 97; 98; 99].
Proof.
  destruct (gzip_encode abc _ (create_stored true)) as (s & Hr & Hres & _); [wf_compute|].
  exists s. split; [exact Hr|exact Hres].
Defined.

Lemma gzip_decode_witness :
  exists (s : ZlibStream stored) b, run_stream false packed_abc = Ret (Some (Z_OK, Z_OK, s)) /\
    getByteArray s = Ret b /\ unread b = [97; 98; 99].
Proof.
  destruct (gzip_decode packed_abc _ [97; 98; 99] (create_stored false))
    as (s & b & Hr & _ & Hb & _ & _ & Hu); [wf_compute|reflexivity|reflexivity|].
  exists s, b. split_and!; [exact Hr|exact Hb|exact Hu].
Defined.

(** A zlib whose [inflate] rejects everything with [Z_DATA_ERROR]. *)
Definition rejecting : Zlib unit := {|
  z_init _ _ _ _ _ := (0, tt);
  z_deflate _ input avail _ := (0, 0%nat, [], tt);
  z_inflate _ input avail _ := (-3, 0%nat, [], tt);
  z_end s := s;
  z_bound _ _ := 0%nat
|}.
Lemma decode_hides_witness :
  fst (ZlibStream_write (H := rejecting) [1; 2; 3] (mkZlibStream tt [] 16 false [])) = Ret Z_OK.
Proof.
  apply (decode_hides_errors (H := rejecting) (mkZlibStream tt [] 16 false []) [1; 2; 3] (-3) 0 [] tt);
    [reflexivity|reflexivity|cbv; lia|discriminate|reflexivity].
Defined.
