(* ===== verification/Protocol.v ===== *)
(** * Messages (cxk/protocol.h, cxk/protocol.cpp, cxk/rock/rock_protocol.cpp)

    The message classes over any byte buffer.  [RockRequest] and its siblings
    inherit from a message class and from [RockBody]: a pair of the two parts,
    each with its own (de)serializer.  A parser works on the pair of the message
    object and the buffer, since it changes both. *)
From S2P Require Import Prelude Endian ByteArray ByteCodec Stream.

(** enum MessageType *)
Definition REQUEST : Z := 1.
Definition RESPONSE : Z := 2.
Definition NOTIFY : Z := 3.

Record Request := mkRequest { rq_sn : Z; rq_cmd : Z }.
Record Response := mkResponse { rs_sn : Z; rs_cmd : Z; rs_result : Z; rs_resultStr : list Z }.
Record Notify := mkNotify { nt_notify : Z }.
(** RockBody *)
Record RockBody := mkRockBody { m_body : list Z }.

Definition RockRequest : Type := Request * RockBody.
Definition RockResponse : Type := Response * RockBody.
Definition RockNotify : Type := Notify * RockBody.

(** A pointer to the abstract class [Message]. *)
Inductive Message : Type :=
| MRequest (m : RockRequest)
| MResponse (m : RockResponse)
| MNotify (m : RockNotify).

(** The constructors: "unhandle" is the default result string. *)
Definition new_Request : Request := mkRequest 0 0.
Definition new_Response : Response := mkResponse 0 0 404 [117; 110; 104; 97; 110; 100; 108; 101].
Definition new_Notify : Notify := mkNotify 0.
Definition new_RockBody : RockBody := mkRockBody [].

Definition getType (m : Message) : Z :=
  match m with
  | MRequest _ => REQUEST
  | MResponse _ => RESPONSE
  | MNotify _ => NOTIFY
  end.

(** [RockRequest::createResponse] *)
Definition createResponse (m : RockRequest) : RockResponse :=
  (mkResponse (rq_sn (fst m)) (rq_cmd (fst m)) (rs_result new_Response) (rs_resultStr new_Response),
   new_RockBody).

Section Messages.
Context {Buf : Type} `{ByteBuffer Buf}.

(** An assignment [this->field = bytearray->readX()]. *)
Definition assign {T A} (r : M Buf A) (f : A -> T -> T) : M (T * Buf) unit :=
  v ← on_snd r; modify (fun s => (f v (fst s), snd s)).
(** A method of the first or second part of a message. *)
Definition on_part1 {T U A} (m : M (T * Buf) A) : M ((T * U) * Buf) A := fun s =>
  let '(r, (t, b)) := m (fst (fst s), snd s) in (r, ((t, snd (fst s)), b)).
Definition on_part2 {T U A} (m : M (U * Buf) A) : M ((T * U) * Buf) A := fun s =>
  let '(r, (u, b)) := m (snd (fst s), snd s) in (r, ((fst (fst s), u), b)).

(** ** Serialization

    The type byte is the virtual [getType] of the complete object. *)
Definition Request_serialize (type : Z) (m : Request) : M Buf bool :=
  writeFuint8_t (u8 type) ;; writeUint32 (rq_sn m) ;; writeUint32 (rq_cmd m) ;; mret true.
Definition Response_serialize (type : Z) (m : Response) : M Buf bool :=
  writeFuint8_t (u8 type) ;; writeUint32 (rs_sn m) ;; writeUint32 (rs_cmd m) ;;
  writeUint32 (rs_result m) ;; writeStringVint (rs_resultStr m) ;; mret true.
Definition Notify_serialize (type : Z) (m : Notify) : M Buf bool :=
  writeFuint8_t (u8 type) ;; writeUint32 (nt_notify m) ;; mret true.
Definition RockBody_serialize (m : RockBody) : M Buf bool :=
  writeStringVint (m_body m) ;; mret true.

(** [v &= base; v &= body], every exception caught. *)
Definition serialize_parts (base body : M Buf bool) : M Buf bool :=
  catch_all (v1 ← base; v2 ← body; mret (v1 && v2)) (mret false).
Definition RockRequest_serialize (m : RockRequest) : M Buf bool :=
  serialize_parts (Request_serialize REQUEST (fst m)) (RockBody_serialize (snd m)).
Definition RockResponse_serialize (m : RockResponse) : M Buf bool :=
  serialize_parts (Response_serialize RESPONSE (fst m)) (RockBody_serialize (snd m)).
Definition RockNotify_serialize (m : RockNotify) : M Buf bool :=
  serialize_parts (Notify_serialize NOTIFY (fst m)) (RockBody_serialize (snd m)).

Definition serializeToByteArray (m : Message) : M Buf bool :=
  match m with
  | MRequest m => RockRequest_serialize m
  | MResponse m => RockResponse_serialize m
  | MNotify m => RockNotify_serialize m
  end.

(** ** Parsing: the type byte has been read already. *)
Definition Request_parse : M (Request * Buf) bool :=
  assign readUint32 (fun v m => mkRequest v (rq_cmd m)) ;;
  assign readUint32 (fun v m => mkRequest (rq_sn m) v) ;;
  mret true.
Definition Response_parse : M (Response * Buf) bool :=
  assign readUint32 (fun v m => mkResponse v (rs_cmd m) (rs_result m) (rs_resultStr m)) ;;
  assign readUint32 (fun v m => mkResponse (rs_sn m) v (rs_result m) (rs_resultStr m)) ;;
  assign readUint32 (fun v m => mkResponse (rs_sn m) (rs_cmd m) v (rs_resultStr m)) ;;
  assign readStringVint (fun v m => mkResponse (rs_sn m) (rs_cmd m) (rs_result m) v) ;;
  mret true.
Definition Notify_parse : M (Notify * Buf) bool :=
  assign readUint32 (fun v m => mkNotify v) ;;
  mret true.
Definition RockBody_parse : M (RockBody * Buf) bool :=
  assign readStringVint (fun v m => mkRockBody v) ;;
  mret true.

Definition parse_parts {T U} (base : M (T * Buf) bool) (body : M (U * Buf) bool) : M ((T * U) * Buf) bool :=
  catch_all (v1 ← on_part1 base; v2 ← on_part2 body; mret (v1 && v2)) (mret false).
Definition RockRequest_parse : M (RockRequest * Buf) bool := parse_parts Request_parse RockBody_parse.
Definition RockResponse_parse : M (RockResponse * Buf) bool := parse_parts Response_parse RockBody_parse.
Definition RockNotify_parse : M (RockNotify * Buf) bool := parse_parts Notify_parse RockBody_parse.

(** [msg.reset(new T); msg->parseFromByteArray(ba)] *)
Definition parse_new {T} (new_T : T) (wrap : T -> Message) (p : M (T * Buf) bool) : M Buf (option Message) := fun b =>
  match p (new_T, b) with
  | (Ret true, (m, b')) => (Ret (Some (wrap m)), b')
  | (Ret false, (_, b')) => (Ret None, b')
  | (Throw e, (_, b')) => (Throw e, b')
  | (Crash, (_, b')) => (Crash, b')
  | (NoFuel, (_, b')) => (NoFuel, b')
  end.
(** The [switch] on the type byte of [RockMessageDecoder::parseFrom]. *)
Definition parse_message : M Buf (option Message) :=
  type ← readFuint8_t;
  if type =? REQUEST then parse_new (new_Request, new_RockBody) MRequest RockRequest_parse
  else if type =? RESPONSE then parse_new (new_Response, new_RockBody) MResponse RockResponse_parse
  else if type =? NOTIFY then parse_new (new_Notify, new_RockBody) MNotify RockNotify_parse
  else mret None.
End Messages.

(** ** What serialization writes and parsing reads *)
Section Combinators.
Context {Buf : Type} `{ByteBufferSpec Buf}.

(** [emits] with a result. *)
Definition emits_val {A} (e : Z) (m : M Buf A) (bs : list Z) (a : A) : Prop :=
  forall s, bb_endian s = e -> bb_can_write s (length bs) ->
  exists s', m s = (Ret a, s') /\ bb_written s' = bb_written s ++ bs /\ bb_endian s' = e /\
    (forall n, bb_can_write s (length bs + n) -> bb_can_write s' n).

Lemma emits_val_ret {A} e (a : A) : emits_val e (mret a) [] a.
Proof. intros s He Hc. exists s. rewrite app_nil_r. split_and!; auto. Qed.
Lemma emits_val_bind {A B} e (m : M Buf A) (k : A -> M Buf B) bs1 bs2 a b :
  emits_val e m bs1 a -> emits_val e (k a) bs2 b -> emits_val e (m ≫= k) (bs1 ++ bs2) b.
Proof.
  intros H1 H2 s He Hc. rewrite length_app in Hc.
  destruct (H1 s He) as (s1 & E1 & W1 & B1 & C1); [eapply bb_can_write_le; [done|lia]|].
  destruct (H2 s1 B1 (C1 _ Hc)) as (s2 & E2 & W2 & B2 & C2).
  exists s2. mstep E1. split_and!; try done.
  - by rewrite W2, W1, app_assoc.
  - intros n Hn. apply C2, C1. rewrite length_app in Hn. by rewrite Nat.add_assoc.
Qed.
Lemma emits_then {A} e (m1 : M Buf unit) (m2 : M Buf A) bs1 bs2 a :
  emits e m1 bs1 -> emits_val e m2 bs2 a -> emits_val e (m1 ;; m2) (bs1 ++ bs2) a.
Proof. intros H1 H2. exact (emits_val_bind e m1 (fun _ => m2) bs1 bs2 tt a H1 H2). Qed.
Lemma emits_val_catch {A} e (m h : M Buf A) bs a : emits_val e m bs a -> emits_val e (catch_all m h) bs a.
Proof.
  intros H1 s He Hc. destruct (H1 s He Hc) as (s' & E & ?). exists s'. unfold catch_all. by rewrite E.
Qed.

(** A parser takes the bytes [bs] and turns the object [t] into [t']. *)
Definition fills {T A} (e : Z) (m : M (T * Buf) A) (bs : list Z) (t t' : T) (a : A) : Prop :=
  forall s rest, bb_endian s = e -> bb_unread s = bs ++ rest -> bb_can_read s (length bs) ->
  exists s', m (t, s) = (Ret a, (t', s')) /\ bb_unread s' = rest /\ bb_endian s' = e /\
    (forall n, bb_can_read s (length bs + n) -> bb_can_read s' n).

Lemma fills_ret {T A} e (t : T) (a : A) : fills e (mret a) [] t t a.
Proof. intros s rest He Hu Hc. exists s. split_and!; auto. Qed.
Lemma fills_bind {T A B} e (m : M (T * Buf) A) (k : A -> M (T * Buf) B) bs1 bs2 t t1 t2 a b :
  fills e m bs1 t t1 a -> fills e (k a) bs2 t1 t2 b -> fills e (m ≫= k) (bs1 ++ bs2) t t2 b.
Proof.
  intros H1 H2 s rest He Hu Hc. rewrite length_app in Hc. rewrite <- app_assoc in Hu.
  destruct (H1 s (bs2 ++ rest) He Hu) as (s1 & E1 & U1 & B1 & C1); [eapply bb_can_read_le; [done|lia]|].
  destruct (H2 s1 rest B1 U1 (C1 _ Hc)) as (s2 & E2 & U2 & B2 & C2).
  exists s2. mstep E1. split_and!; try done.
  intros n Hn. apply C2, C1. rewrite length_app in Hn. by rewrite Nat.add_assoc.
Qed.
Lemma fills_assign {T A} e (r : M Buf A) (f : A -> T -> T) bs v t :
  accepts e r bs v -> fills e (assign r f) bs t (f v t) tt.
Proof.
  intros H1 s rest He Hu Hc. destruct (H1 s rest He Hu Hc) as (s' & E & ?).
  exists s'. unfold assign. by rewrite (bind_Ret _ _ _ _ _ (on_snd_Ret _ t s s' v E)).
Qed.
Lemma fills_then {T A B} e (r : M Buf B) (f : B -> T -> T) (m : M (T * Buf) A) bs1 bs2 v t t' a :
  accepts e r bs1 v -> fills e m bs2 (f v t) t' a -> fills e (assign r f ;; m) (bs1 ++ bs2) t t' a.
Proof. intros H1 H2. by eapply (fills_bind _ _ (fun _ => m)); [apply fills_assign|]. Qed.
Lemma fills_parts {T U} e (base : M (T * Buf) bool) (body : M (U * Buf) bool) bs1 bs2 t t' u u' :
  fills e base bs1 t t' true -> fills e body bs2 u u' true ->
  fills e (parse_parts base body) (bs1 ++ bs2) (t, u) (t', u') true.
Proof.
  intros H1 H2 s rest He Hu Hc. rewrite length_app in Hc. rewrite <- app_assoc in Hu.
  destruct (H1 s (bs2 ++ rest) He Hu) as (s1 & E1 & U1 & B1 & C1); [eapply bb_can_read_le; [done|lia]|].
  destruct (H2 s1 rest B1 U1 (C1 _ Hc)) as (s2 & E2 & U2 & B2 & C2).
  exists s2. unfold parse_parts, catch_all, on_part1, on_part2. msimpl. cbn [fst snd]. rewrite E1.
  cbn [fst snd]. rewrite E2.
  split_and!; try done.
  intros n Hn. apply C2, C1. rewrite length_app in Hn. by rewrite Nat.add_assoc.
Qed.
Lemma accepts_parse_new {T} e (t0 t : T) wrap (p : M (T * Buf) bool) bs :
  fills e p bs t0 t true -> accepts e (parse_new t0 wrap p) bs (Some (wrap t)).
Proof.
  intros H1 s rest He Hu Hc. destruct (H1 s rest He Hu Hc) as (s' & E & ?).
  exists s'. unfold parse_new. by rewrite E.
Qed.
End Combinators.

(** The fields are values of their C++ types. *)
Definition uint32_ok (v : Z) : Prop := 0 <= v < 2 ^ 32.
Definition message_ok (m : Message) : Prop :=
  match m with
  | MRequest (r, b) => uint32_ok (rq_sn r) /\ uint32_ok (rq_cmd r) /\ str_size (m_body b) < 2 ^ 63
  | MResponse (r, b) =>
      uint32_ok (rs_sn r) /\ uint32_ok (rs_cmd r) /\ uint32_ok (rs_result r) /\
      str_size (rs_resultStr r) < 2 ^ 63 /\ str_size (m_body b) < 2 ^ 63
  | MNotify (n, b) => uint32_ok (nt_notify n) /\ str_size (m_body b) < 2 ^ 63
  end.
(** The serialized length. *)
Definition message_size (m : Message) : nat :=
  match m with
  | MRequest (r, b) => 1 + varint_len (rq_sn r) + varint_len (rq_cmd r) + (8 + length (m_body b))
  | MResponse (r, b) =>
      1 + varint_len (rs_sn r) + varint_len (rs_cmd r) + varint_len (rs_result r) +
      (8 + length (rs_resultStr r)) + (8 + length (m_body b))
  | MNotify (n, b) => 1 + varint_len (nt_notify n) + (8 + length (m_body b))
  end.

Section RoundTrip.
Context {Buf : Type} `{ByteBufferSpec Buf}.

(** Serializer and parser of a part agree on [bs]. *)
Definition part_agree {T} (e : Z) (w : M Buf bool) (p : M (T * Buf) bool) (t0 t : T) (bs : list Z) : Prop :=
  emits_val e w bs true /\ fills e p bs t0 t true.

Lemma part_ret {T} e (t : T) : part_agree e (mret true) (mret true) t t [].
Proof. split; [apply emits_val_ret|apply fills_ret]. Qed.
Lemma part_field {T A} e (w : M Buf unit) (r : M Buf A) (f : A -> T -> T) v wk (pk : M (T * Buf) bool) t0 t bs1 bs2 :
  agree e w r v bs1 -> part_agree e wk pk (f v t0) t bs2 ->
  part_agree e (w ;; wk) (assign r f ;; pk) t0 t (bs1 ++ bs2).
Proof. intros [Hw Hr] [Hwk Hpk]. split; [by apply emits_then|by eapply fills_then]. Qed.

Lemma body_agree e b b0 : str_size (m_body b) < 2 ^ 63 ->
  exists bs, length bs = (8 + length (m_body b))%nat /\
    part_agree e (RockBody_serialize (Buf := Buf) b) RockBody_parse b0 b bs.
Proof.
  intros Hb. exists ((ordered e 8 (str_size (m_body b)) ++ m_body b) ++ []). split.
  - rewrite app_nil_r, length_app, length_ordered. done.
  - destruct b as [body]. eapply part_field; [by apply agree_stringVint|]. apply part_ret.
Qed.

(** The type byte, then the two parts. *)
Lemma message_agree {T} e type (w1 w2 : M Buf bool) (p1 : M (T * Buf) bool) p2
    (wrap : T * RockBody -> Message) t0 t b0 b bs1 bs2 :
  byte_ok type -> part_agree e w1 p1 t0 t bs1 -> part_agree e w2 p2 b0 b bs2 ->
  emits_val e (serialize_parts (writeFuint8_t (u8 type) ;; w1) w2) ([type] ++ bs1 ++ bs2) true /\
  accepts e (parse_new (t0, b0) wrap (parse_parts p1 p2)) (bs1 ++ bs2) (Some (wrap (t, b))).
Proof.
  intros Ht [Hw1 Hp1] [Hw2 Hp2]. split.
  - apply emits_val_catch. rewrite app_assoc. eapply emits_val_bind.
    + apply emits_then; [|done]. unfold u8. rewrite wrapu_id by exact Ht. by apply agree_uint8.
    + rewrite <- (app_nil_r bs2). eapply emits_val_bind; [done|]. simpl. apply emits_val_ret.
  - apply accepts_parse_new. by apply fills_parts.
Qed.

Lemma accepts_type {A} e type (k : Z -> M Buf A) bs a :
  byte_ok type -> accepts e (k type) bs a -> accepts e (readFuint8_t ≫= k) ([type] ++ bs) a.
Proof. intros Ht Hk. eapply accepts_bind; [by apply accepts_byte|done]. Qed.

Ltac part_fields :=
  repeat (eapply part_field; [eassumption || (by apply agree_stringVint)|]); apply part_ret.

(** Every message with fields of their types. *)
Lemma message_run e m : message_ok m ->
  exists bs, length bs = message_size m /\
    emits_val (Buf := Buf) e (serializeToByteArray m) bs true /\
    accepts (Buf := Buf) e parse_message bs (Some m).
Proof.
  destruct m as [[[sn cmd] b]|[[sn cmd res str] b]|[[n] b]];
    cbn [message_ok message_size rq_sn rq_cmd rs_sn rs_cmd rs_result rs_resultStr nt_notify]; intros Hok.
  - destruct Hok as (H1 & H2 & Hb).
    destruct (agree_uint32 (Buf := Buf) e sn H1) as (b1 & L1 & _ & _ & A1).
    destruct (agree_uint32 (Buf := Buf) e cmd H2) as (b2 & L2 & _ & _ & A2).
    destruct (body_agree e b new_RockBody Hb) as (bb & Lb & Ab).
    destruct (message_agree e REQUEST (writeUint32 sn ;; writeUint32 cmd ;; mret true) (RockBody_serialize b)
      Request_parse RockBody_parse MRequest new_Request (mkRequest sn cmd) new_RockBody b (b1 ++ b2 ++ []) bb)
      as [Hw Hr]; [done|part_fields|done|].
    exists ([REQUEST] ++ (b1 ++ b2 ++ []) ++ bb). split_and!; [rewrite !length_app; cbn [length]; lia|done|].
    by apply accepts_type.
  - destruct Hok as (H1 & H2 & H3 & Hs & Hb).
    destruct (agree_uint32 (Buf := Buf) e sn H1) as (b1 & L1 & _ & _ & A1).
    destruct (agree_uint32 (Buf := Buf) e cmd H2) as (b2 & L2 & _ & _ & A2).
    destruct (agree_uint32 (Buf := Buf) e res H3) as (b3 & L3 & _ & _ & A3).
    destruct (body_agree e b new_RockBody Hb) as (bb & Lb & Ab).
    set (bs := ordered e 8 (str_size str) ++ str).
    assert (Ls : length bs = (8 + length str)%nat) by (unfold bs; rewrite length_app, length_ordered; done).
    destruct (message_agree e RESPONSE
      (writeUint32 sn ;; writeUint32 cmd ;; writeUint32 res ;; writeStringVint str ;; mret true)
      (RockBody_serialize b) Response_parse RockBody_parse MResponse new_Response (mkResponse sn cmd res str)
      new_RockBody b (b1 ++ b2 ++ b3 ++ bs ++ []) bb) as [Hw Hr]; [done|part_fields|done|].
    exists ([RESPONSE] ++ (b1 ++ b2 ++ b3 ++ bs ++ []) ++ bb).
    split_and!; [rewrite !length_app; cbn [length]; lia|done|].
    by apply accepts_type.
  - destruct Hok as (H1 & Hb).
    destruct (agree_uint32 (Buf := Buf) e n H1) as (b1 & L1 & _ & _ & A1).
    destruct (body_agree e b new_RockBody Hb) as (bb & Lb & Ab).
    destruct (message_agree e NOTIFY (writeUint32 n ;; mret true) (RockBody_serialize b)
      Notify_parse RockBody_parse MNotify new_Notify (mkNotify n) new_RockBody b (b1 ++ []) bb)
      as [Hw Hr]; [done|part_fields|done|].
    exists ([NOTIFY] ++ (b1 ++ []) ++ bb). split_and!; [rewrite !length_app; cbn [length]; lia|done|].
    by apply accepts_type.
Qed.

(** The part of a message before its body. *)
Definition base_serialize (m : Message) : M Buf bool :=
  match m with
  | MRequest m => Request_serialize REQUEST (fst m)
  | MResponse m => Response_serialize RESPONSE (fst m)
  | MNotify m => Notify_serialize NOTIFY (fst m)
  end.
Definition body_of (m : Message) : RockBody :=
  match m with MRequest m => snd m | MResponse m => snd m | MNotify m => snd m end.
Lemma serialize_split m :
  serializeToByteArray m = serialize_parts (base_serialize m) (RockBody_serialize (body_of m)).
Proof. by destruct m as [[]|[]|[]]. Qed.

Lemma base_run e m : message_ok m ->
  exists bs, message_size m = (length bs + 8 + length (m_body (body_of m)))%nat /\
    emits_val e (base_serialize m) bs true.
Proof.
  assert (Htype : forall t, byte_ok t -> emits e (writeFuint8_t (Buf := Buf) (u8 t)) [t]).
  { intros t Ht. unfold u8. rewrite wrapu_id by exact Ht. by apply agree_uint8. }
  destruct m as [[[sn cmd] b]|[[sn cmd res str] b]|[[n] b]];
    cbn [message_ok message_size body_of snd rq_sn rq_cmd rs_sn rs_cmd rs_result rs_resultStr nt_notify]; intros Hok.
  - destruct Hok as (H1 & H2 & _).
    destruct (agree_uint32 (Buf := Buf) e sn H1) as (b1 & L1 & _ & _ & A1 & _).
    destruct (agree_uint32 (Buf := Buf) e cmd H2) as (b2 & L2 & _ & _ & A2 & _).
    exists ([REQUEST] ++ b1 ++ b2 ++ []). split; [rewrite !length_app; cbn [length]; lia|].
    repeat (apply emits_then; [by apply Htype || done|]). apply emits_val_ret.
  - destruct Hok as (H1 & H2 & H3 & Hs & _).
    destruct (agree_uint32 (Buf := Buf) e sn H1) as (b1 & L1 & _ & _ & A1 & _).
    destruct (agree_uint32 (Buf := Buf) e cmd H2) as (b2 & L2 & _ & _ & A2 & _).
    destruct (agree_uint32 (Buf := Buf) e res H3) as (b3 & L3 & _ & _ & A3 & _).
    destruct (agree_stringVint (Buf := Buf) e str Hs) as [As _].
    exists ([RESPONSE] ++ b1 ++ b2 ++ b3 ++ (ordered e 8 (str_size str) ++ str) ++ []).
    split; [rewrite !length_app, length_ordered; cbn [length]; lia|].
    repeat (apply emits_then; [by apply Htype || done|]). apply emits_val_ret.
  - destruct Hok as (H1 & _).
    destruct (agree_uint32 (Buf := Buf) e n H1) as (b1 & L1 & _ & _ & A1 & _).
    exists ([NOTIFY] ++ b1 ++ []). split; [rewrite !length_app; cbn [length]; lia|].
    repeat (apply emits_then; [by apply Htype || done|]). apply emits_val_ret.
Qed.

(** C35: every message (request, response, notification; any field values of
    their types, any strings below 2^63 bytes) is written as [message_size]
    bytes to any buffer that meets the interface, and parsing these bytes
    gives the same message back, whatever follows them. *)
Theorem message_roundtrip e m : message_ok m ->
  exists bs, length bs = message_size m /\
    emits_val (Buf := Buf) e (serializeToByteArray m) bs true /\
    accepts (Buf := Buf) e parse_message bs (Some m).
Proof. apply message_run. Qed.
End RoundTrip.

#[local] Existing Instance zero_heap.
(** A request of the kind a client sends. *)
Definition sample : Message := MRequest (mkRequest 7 300, mkRockBody [104; 105]).
Lemma message_roundtrip_witness :
  exists bs, length bs = 14%nat /\
    accepts (Buf := ByteArray) CXK_BIG_ENDIAN parse_message bs (Some sample).
Proof.
  destruct (message_roundtrip (Buf := ByteArray) CXK_BIG_ENDIAN sample) as (bs & Hl & _ & Hr).
  - unfold message_ok, sample, uint32_ok. simpl. split_and!; lia || reflexivity.
  - exists bs. split; [rewrite Hl; reflexivity | exact Hr].
Defined.
