(* ===== verification/Rock.v ===== *)
(** * The Rock wire protocol (cxk/rock/rock_protocol.cpp)

    [RockMessageDecoder] frames a message with an eight-byte header (magic,
    version, flag, big-endian length), compresses it from a configured length on,
    and parses the same from a stream. *)
From S2P Require Import Prelude Endian ByteArray ByteCodec Stream Zlib Protocol.

(** The configuration variables rock.protocol.max_length and
    rock.protocol.gzip_min_length ([uint32_t]). *)
Class RockConfig := { rock_max_length : Z; rock_gzip_min_length : Z }.
Definition default_config : RockConfig :=
  {| rock_max_length := 1024 * 1024 * 64; rock_gzip_min_length := 1024 * 4 |}.

Record RockMsgHeader := mkRockMsgHeader {
  magic : list Z;
  version : Z;
  flag : Z;
  length_field : Z
}.
Definition new_RockMsgHeader : RockMsgHeader := mkRockMsgHeader [0xab; 0xcd] 1 0 0.
Definition s_rock_magic : list Z := [0xab; 0xcd].

(** The header as the eight bytes of the struct. *)
Definition header_bytes (h : RockMsgHeader) : list Z :=
  magic h ++ [version h; flag h] ++ le_split 4 (length_field h).
Definition header_of (data : list Z) : RockMsgHeader :=
  mkRockMsgHeader (take 2 data) (nth 2 data 0) (nth 3 data 0) (wraps 32 (le_combine (slice 4 4 data))).

Section Rock.
Context {St : Type} `{Stream St} {Zs : Type} `{Zlib Zs} {heap : Heap} {cfg : RockConfig}.

(** A stream operation with a local [ByteArray]. *)
Definition with_ba {A} (b : ByteArray) (m : M (St * ByteArray) A) : M St (A * ByteArray) := fun s =>
  match m (s, b) with
  | (Ret a, (s', b')) => (Ret (a, b'), s')
  | (Throw e, (s', _)) => (Throw e, s')
  | (Crash, (s', _)) => (Crash, s')
  | (NoFuel, (s', _)) => (NoFuel, s')
  end.
(** An operation on a local [ByteArray] alone. *)
Definition local_ba {A} (b : ByteArray) (m : M ByteArray A) : outcome (A * ByteArray) :=
  match m b with
  | (Ret a, b') => Ret (a, b')
  | (Throw e, _) => Throw e
  | (Crash, _) => Crash
  | (NoFuel, _) => NoFuel
  end.

(** [CreateGzip(encode)], [write(ba, -1)], [flush], [getByteArray]: [None] when
    a call does not return [Z_OK]; a null stream is dereferenced. *)
Definition gzip (e : bool) (b : ByteArray) : outcome (option ByteArray) :=
  o ← CreateGzip e;
  match o with
  | None => Crash
  | Some z0 =>
      let '(r1, (z1, _)) := ZlibStream_write_ba (-1) (z0, b) in
      rc1 ← r1;
      if negb (rc1 =? Z_OK) then Ret None else
      let '(r2, z2) := flush z1 in
      rc2 ← r2;
      if negb (rc2 =? Z_OK) then Ret None else
      ba ← getByteArray z2;
      Ret (Some ba)
  end.

(** [Message::toByteArray] *)
Definition toByteArray (msg : Message) : outcome (option ByteArray) :=
  '(ok, ba) ← local_ba (new_ByteArray default_base_size) (serializeToByteArray msg);
  Ret (if (ok : bool) then Some ba else None).

(** The part after the header. *)
Definition parse_payload (fl length : Z) : M St (option Message) :=
  '(rt, ba) ← with_ba (new_ByteArray default_base_size) (readFixSize_ba (u64 length));
  if rt <=? 0 then mret None else
  '(_, ba) ← lift (local_ba ba (setPosition 0));
  z ← (if negb (Z.land fl 1 =? 0) then lift (gzip false ba) else mret (Some ba));
  match z with
  | None => mret None
  | Some ba =>
      '(msg, _) ← lift (local_ba ba parse_message);
      mret msg
  end.

Definition parseFrom_body : M St (option Message) :=
  '(rt, data) ← readFixSize 8;
  if rt <=? 0 then mret None else
  let header := header_of data in
  if negb (bool_decide (magic header = s_rock_magic)) then mret None else
  if negb (version header =? 1) then mret None else
  let length := byteswapOnLittleEndian_signed 4 (length_field header) in
  if rock_max_length <=? u32 length then mret None else
  parse_payload (flag header) length.
(** The [try] block: every exception gives a null message. *)
Definition parseFrom : M St (option Message) := catch_all parseFrom_body (mret None).

Definition serializeTo (msg : Message) : M St Z :=
  o ← lift (toByteArray msg);
  match o with
  | None => crash
  | Some ba =>
      '(_, ba) ← lift (local_ba ba (setPosition 0));
      let length := i32 (Z.of_nat (m_size ba)) in
      z ← (if rock_gzip_min_length <=? u32 length then
             z ← lift (gzip true ba);
             mret (match z with
                   | None => None
                   | Some ba => Some (1, i32 (Z.of_nat (m_size ba)), ba)
                   end)
           else mret (Some (0, length, ba)));
      match z with
      | None => mret (-1)
      | Some (fl, length, ba) =>
          let header := mkRockMsgHeader [0xab; 0xcd] 1 fl (byteswapOnLittleEndian_signed 4 length) in
          rt ← writeFixSize (header_bytes header) 8;
          if rt <=? 0 then mret (-1) else
          '(rt, ba) ← with_ba ba (writeFixSize_ba (getReadSize ba));
          if rt <=? 0 then mret (-1) else
          mret (i32 (8 + Z.of_nat (m_size ba)))
      end
  end.
End Rock.

(** ** The frame *)

(** Header for a payload of [n] bytes: the length is big-endian on the wire. *)
Definition wire_header (fl n : Z) : list Z := [0xab; 0xcd; 1; fl] ++ rev (le_split 4 n).

Lemma header_bytes_wire fl n :
  header_bytes (mkRockMsgHeader [0xab; 0xcd] 1 fl (byteswapOnLittleEndian_signed 4 n)) = wire_header fl n.
Proof.
  unfold header_bytes, wire_header, byteswapOnLittleEndian_signed. simpl magic.
  by rewrite <- le_split_byteswap_signed by lia.
Qed.
Lemma length_wire_header fl n : length (wire_header fl n) = 8%nat.
Proof. unfold wire_header. rewrite length_app, length_rev, length_le_split. done. Qed.
Lemma header_of_wire fl n : 0 <= n < 2 ^ 31 ->
  let h := header_of (wire_header fl n) in
  magic h = s_rock_magic /\ version h = 1 /\ flag h = fl /\
  byteswapOnLittleEndian_signed 4 (length_field h) = n.
Proof.
  intros Hn h. unfold h, header_of, wire_header. split_and!; [done..|].
  unfold slice. simpl drop. simpl length_field.
  assert (E : le_combine (take 4 (rev (le_split 4 n))) = byteswap 4 n).
  { rewrite take_ge by (by rewrite length_rev, length_le_split). by rewrite le_combine_rev. }
  unfold byteswapOnLittleEndian_signed. simpl in E |- *. rewrite E.
  change (wraps 32 (byteswap 4 n)) with (wraps (8 * Z.of_nat 4) (bswap 4 (wrapu (8 * Z.of_nat 4) n))).
  fold (byteswap_signed 4 n). rewrite byteswap_signed_involutive by lia. apply wraps_id; lia.
Qed.

Section RockRun.
Context {St : Type} `{StreamSpec St} {Zs : Type} `{ZlibSpec Zs} {heap : Heap} {cfg : RockConfig}.
Let page_size : Z.of_nat default_base_size = 4096 := default_base_sizeE.

Lemma with_ba_Ret {A} b b' (m : M (St * ByteArray) A) s s' a :
  m (s, b) = (Ret a, (s', b')) -> with_ba b m s = (Ret (a, b'), s').
Proof. intros E. unfold with_ba. by rewrite E. Qed.
Lemma local_ba_Ret {A} b b' (m : M ByteArray A) a : m b = (Ret a, b') -> local_ba b m = Ret (a, b').
Proof. intros E. unfold local_ba. by rewrite E. Qed.
Lemma lift_Ret {S A} (o : outcome A) a (s : S) : o = Ret a -> lift o s = (Ret a, s).
Proof. by intros ->. Qed.

(** A fresh buffer of one page. *)
Lemma page_can_write n : (n <= default_base_size)%nat -> ba_can_write (new_ByteArray default_base_size) n.
Proof. intros. split_and!; [apply wf_new; lia|done|simpl; lia|unfold fits; simpl; lia]. Qed.

(** The header is taken off the stream, whatever the payload is. *)
Lemma parse_header_run fl n rest s :
  st_open s -> st_pending s = wire_header fl n ++ rest -> 0 <= n < 2 ^ 31 -> n < rock_max_length ->
  exists s', parseFrom_body s = parse_payload fl n s' /\
    st_pending s' = rest /\ st_sent s' = st_sent s /\ st_open s'.
Proof.
  intros Ho Hp Hn Hmax.
  destruct (readFixSize_ok (wire_header fl n) rest s Ho Hp) as (s' & Hr & ? & ? & ?).
  { rewrite length_wire_header. lia. }
  rewrite length_wire_header in Hr. exists s'. split_and!; try done.
  unfold parseFrom_body. mstep Hr. zcase.
  destruct (header_of_wire fl n Hn) as (E1 & E2 & E3 & E4). cbv zeta in *.
  rewrite E1, E2, E3, E4, bool_decide_true by done. simpl.
  unfold u32. rewrite wrapu_id by lia. by zcase.
Qed.

(** A page read from the stream and rewound. *)
Lemma payload_read bs rest s :
  st_open s -> st_pending s = bs ++ rest -> (0 < length bs < default_base_size)%nat ->
  exists s' b, with_ba (new_ByteArray default_base_size) (readFixSize_ba (u64 (Z.of_nat (length bs)))) s
      = (Ret (Z.of_nat (length bs), b), s') /\
    local_ba b (setPosition 0) = Ret (tt, sought b 0) /\
    unread (sought b 0) = bs /\ wf (sought b 0) /\ m_position (sought b 0) = 0%nat /\
    m__endian (sought b 0) = CXK_BIG_ENDIAN /\ m_baseSize (sought b 0) = default_base_size /\
    (0 < m_capacity b)%nat /\
    st_pending s' = rest /\ st_sent s' = st_sent s /\ st_open s'.
Proof.
  intros Ho Hp Hl. rewrite u64_small by lia.
  destruct (readFixSize_ba_loop_ok (S (Z.to_nat (Z.of_nat (length bs)))) (Z.of_nat (length bs)) bs rest s
    (new_ByteArray default_base_size) Ho Hp) as (s' & b & Hr & ? & ? & ? & Hw & He & Hb & (Hwf & Hsz & Hcap & _)).
  { lia. } { apply page_can_write. lia. }
  exists s', b.
  assert (Hsp : setPosition 0 b = (Ret tt, sought b 0)).
  { apply setPosition_run; [auto with cxk|apply (wf_root _ Hwf)|lia]. }
  pose proof (wf_base _ Hwf). pose proof (wf_root _ Hwf). pose proof (wf_cap _ Hwf).
  split_and!; try done.
  - apply with_ba_Ret. unfold readFixSize_ba. rewrite i64_small by lia. by rewrite Hr, i32_small by lia.
  - by apply local_ba_Ret.
  - by rewrite unread_rewind, Hw by done.
  - apply wf_sought; [done|lia].
  - rewrite (wf_cap _ Hwf), Hb. simpl. lia.
Qed.

(** Parsing a rewound page. *)
Lemma page_parse b bs m rest :
  wf b -> m_position b = 0%nat -> m__endian b = CXK_BIG_ENDIAN -> m_baseSize b = default_base_size ->
  unread b = bs ++ rest -> (length bs < default_base_size)%nat ->
  accepts CXK_BIG_ENDIAN parse_message bs (Some m) ->
  exists b', local_ba b parse_message = Ret (Some m, b').
Proof.
  intros Hwf Hp He Hb Hu Hl Hacc.
  destruct (Hacc b rest He Hu) as (b' & E & _).
  - split_and!; [done|rewrite Hp, (wf_cap _ Hwf); pose proof (wf_root _ Hwf); lia|].
    rewrite Hp, Hb. rewrite Nat.Div0.mod_0_l. lia.
  - exists b'. by apply local_ba_Ret.
Qed.

Lemma parse_plain_run fl bs m rest s :
  st_open s -> st_pending s = bs ++ rest -> (0 < length bs < default_base_size)%nat -> Z.land fl 1 = 0 ->
  accepts CXK_BIG_ENDIAN parse_message bs (Some m) ->
  exists s', parse_payload fl (Z.of_nat (length bs)) s = (Ret (Some m), s') /\ st_pending s' = rest /\
    st_sent s' = st_sent s /\ st_open s'.
Proof.
  intros Ho Hp Hl Hfl Hacc.
  destruct (payload_read bs rest s Ho Hp Hl) as (s' & b & Hr & Hsp & Hu & Hwf & Hpos & He & Hb & Hc & ? & ? & ?).
  exists s'. split_and!; try done. unfold parse_payload. mstep Hr. zcase.
  rewrite (bind_Ret _ _ _ _ _ (lift_Ret _ _ s' Hsp)), Hfl. simpl.
  rewrite (bind_Ret (mret (Some (sought b 0))) _ s' (Some (sought b 0)) s' eq_refl).
  destruct (page_parse (sought b 0) bs m []) as (b' & E); try done; [by rewrite app_nil_r|lia|].
  by rewrite (bind_Ret _ _ _ _ _ (lift_Ret _ _ s' E)).
Qed.

Lemma gzip_decode_run b x z0 :
  CreateGzip false = Ret (Some z0) -> wf b -> unread b = z_format 31 x -> Z.of_nat (length x) < 2 ^ 63 ->
  exists b', gzip false b = Ret (Some b') /\ wf b' /\ m_position b' = 0%nat /\ unread b' = x /\
    m__endian b' = CXK_BIG_ENDIAN /\ m_baseSize b' = default_base_size.
Proof.
  intros Hcr Hwf Hx Hl.
  destruct (run_stream_ok false b z0 Hcr Hwf) as (z & Hr & Hp & Hin & Hout & _ & Hc).
  { right. exists x, []. by rewrite app_nil_r. }
  assert (Hres : getResult z = x) by (rewrite Hout; apply Hc; congruence).
  destruct (getByteArray_run z Hp) as (b' & Hb & Hwf' & Hpos & Hu & _ & He & Hbs); [by rewrite Hres|].
  exists b'. rewrite Hres in Hu. split_and!; try done.
  revert Hr. unfold run_stream, gzip. rewrite Hcr. msimpl.
  destruct (ZlibStream_write_ba _ _) as [[rc1| | |] [z1 b1]]; try done.
  destruct (flush z1) as [[rc2| | |] z2]; try done. intros [= -> -> ->]. simpl. by rewrite Hb.
Qed.

Lemma parse_gzip_run fl z x m rest s z0 :
  st_open s -> st_pending s = z ++ rest -> (0 < length z < default_base_size)%nat -> Z.land fl 1 = 1 ->
  CreateGzip false = Ret (Some z0) -> z = z_format 31 x -> (length x < default_base_size)%nat ->
  accepts CXK_BIG_ENDIAN parse_message x (Some m) ->
  exists s', parse_payload fl (Z.of_nat (length z)) s = (Ret (Some m), s') /\ st_pending s' = rest /\
    st_sent s' = st_sent s /\ st_open s'.
Proof.
  intros Ho Hp Hl Hfl Hcr Hz Hx Hacc.
  destruct (payload_read z rest s Ho Hp Hl) as (s' & b & Hr & Hsp & Hu & Hwf & Hpos & He & Hb & Hc & ? & ? & ?).
  exists s'. split_and!; try done. unfold parse_payload. mstep Hr. zcase.
  rewrite (bind_Ret _ _ _ _ _ (lift_Ret _ _ s' Hsp)), Hfl. simpl.
  destruct (gzip_decode_run (sought b 0) x z0) as (b1 & Hg & Hwf1 & Hp1 & Hu1 & He1 & Hb1); try done;
    [congruence|lia|].
  rewrite (bind_Ret _ _ _ _ _ (lift_Ret _ _ s' Hg)).
  destruct (page_parse b1 x m []) as (b' & E); try done; [by rewrite app_nil_r|].
  by rewrite (bind_Ret _ _ _ _ _ (lift_Ret _ _ s' E)).
Qed.

(** Serialization of a message that fits in a page. *)
Lemma toByteArray_run msg bs :
  emits_val CXK_BIG_ENDIAN (serializeToByteArray msg) bs true -> (length bs <= default_base_size)%nat ->
  exists b, toByteArray msg = Ret (Some b) /\ local_ba b (setPosition 0) = Ret (tt, sought b 0) /\
    wf (sought b 0) /\ unread (sought b 0) = bs /\ m_size (sought b 0) = length bs.
Proof.
  intros Hem Hl. destruct (Hem (new_ByteArray default_base_size) eq_refl) as (b & E & Hw & He & Hc).
  { by apply page_can_write. }
  destruct (Hc 0%nat) as (Hwf & Hsz & Hcap & _). { rewrite Nat.add_0_r. by apply page_can_write. }
  exists b. unfold toByteArray. rewrite (local_ba_Ret _ _ _ _ E). split_and!; try done.
  - apply local_ba_Ret, setPosition_run; [auto with cxk|apply (wf_root _ Hwf)|lia].
  - apply wf_sought; [done|lia].
  - rewrite unread_rewind by done. exact Hw.
  - pose proof (length_written b Hwf) as L. change (bb_written b) with (written b) in Hw.
    rewrite Hw in L. simpl in L |- *. lia.
Qed.

Lemma serializeTo_run msg bs s :
  st_open s -> emits_val CXK_BIG_ENDIAN (serializeToByteArray msg) bs true -> (0 < length bs <= default_base_size)%nat ->
  Z.of_nat (length bs) < rock_gzip_min_length ->
  exists s', serializeTo msg s = (Ret (8 + Z.of_nat (length bs)), s') /\
    st_sent s' = st_sent s ++ wire_header 0 (Z.of_nat (length bs)) ++ bs /\
    st_pending s' = st_pending s /\ st_open s'.
Proof.
  intros Ho Hem Hl Hgz. destruct (toByteArray_run msg bs Hem) as (b & Ht & Hsp & Hwf & Hu & Hs); [lia|].
  unfold serializeTo. rewrite (bind_Ret _ _ _ _ _ (lift_Ret _ _ s Ht)).
  rewrite (bind_Ret _ _ _ _ _ (lift_Ret _ _ s Hsp)), Hs, i32_small by lia. cbv zeta.
  unfold u32. rewrite wrapu_id by lia. zcase.
  rewrite (bind_Ret (mret (Some (0, Z.of_nat (length bs), sought b 0))) _ s _ s eq_refl). cbv beta iota zeta.
  rewrite header_bytes_wire.
  destruct (writeFixSize_ok (wire_header 0 (Z.of_nat (length bs))) s Ho) as (s1 & Hr1 & Hs1 & Hp1 & Ho1).
  { rewrite length_wire_header. lia. }
  rewrite length_wire_header in Hr1. mstep Hr1. zcase.
  destruct (writeFixSize_ba_loop_ok (S (length bs)) (Z.of_nat (length bs)) (Z.of_nat (length bs)) s1 (sought b 0)
    Ho1 Hwf) as (s2 & b2 & Hr2 & Hs2 & Hp2 & Ho2 & Hu2 & Hz2 & Hwf2); [by rewrite Hu|rewrite Hu; lia|].
  assert (Hrs : getReadSize (sought b 0) = Z.of_nat (length bs)).
  { rewrite getReadSize_wf by done. rewrite Hs. simpl. lia. }
  assert (Hwb : with_ba (sought b 0) (writeFixSize_ba (getReadSize (sought b 0))) s1
    = (Ret (Z.of_nat (length bs), b2), s2)).
  { apply with_ba_Ret. unfold writeFixSize_ba. rewrite Hrs, i64_small, Nat2Z.id by lia.
    by rewrite Hr2, i32_small by lia. }
  rewrite (bind_Ret _ _ _ _ _ Hwb). zcase.
  exists s2. rewrite Hz2, Hs. unfold mret, M_ret. rewrite i32_small by lia. split_and!; try done.
  - by rewrite Hs2, Hs1, Hu, <- app_assoc.
  - congruence.
Qed.
End RockRun.

(** ** Messages larger than a page *)
Section Oversize.
Context {heap : Heap}.
Let page_size : Z.of_nat default_base_size = 4096 := default_base_sizeE.

Lemma catch_all_Crash {S A} (m h : M S A) s : fst (m s) = Crash -> fst (catch_all m h s) = Crash.
Proof. unfold catch_all. by destruct (m s) as [[] ?]. Qed.
Lemma bind_fst_Crash {S A B} (m : M S A) (k : A -> M S B) s : fst (m s) = Crash -> fst ((m ≫= k) s) = Crash.
Proof. unfold mbind, M_bind. by destruct (m s) as [[] ?]. Qed.
Lemma with_ba_Crash {St A} b (m : M (St * ByteArray) A) s : fst (m (s, b)) = Crash -> fst (with_ba b m s) = Crash.
Proof. unfold with_ba. by destruct (m (s, b)) as [[] []]. Qed.
Lemma on_snd_Crash {A B C} (m : M B C) (a : A) b : fst (m b) = Crash -> fst (on_snd m (a, b)) = Crash.
Proof. unfold on_snd. simpl. by destruct (m b) as [[] ?]. Qed.

Lemma page_undergrown n : (default_base_size < n)%nat -> (n mod default_base_size <> 0)%nat ->
  ~ grows_enough (new_ByteArray default_base_size) n.
Proof.
  intros Hn Hm. unfold grows_enough. cbn [m_capacity m_position m_baseSize new_ByteArray].
  rewrite Nat.sub_0_r.
  replace n with ((n - default_base_size) + 1 * default_base_size)%nat in Hm by lia. rewrite Nat.Div0.mod_add in Hm.
  pose proof (Nat.mod_upper_bound (n - default_base_size) default_base_size ltac:(lia)). lia.
Qed.

(** Receiving a payload of such a length. *)
Lemma SocketStream_oversize {K} `{Kernel K} (s : Socket K) n :
  m_isConnected s = true -> 4096 < n < 2 ^ 31 -> n mod 4096 <> 0 ->
  fst (readFixSize_ba (u64 n) (s, new_ByteArray default_base_size)) = Crash.
Proof.
  intros Ho Hn Hm. rewrite u64_small by lia. unfold readFixSize_ba. rewrite i64_small by lia.
  cbn [readFixSize_ba_loop]. zcase. apply bind_fst_Crash.
  change (fst (SocketStream_read_ba n (s, new_ByteArray default_base_size)) = Crash). unfold SocketStream_read_ba.
  rewrite (bind_Ret _ _ _ _ _ (gets_Ret (fun s => m_isConnected (fst s)) (s, new_ByteArray default_base_size) true Ho)).
  cbn [negb]. apply bind_fst_Crash, on_snd_Crash, getWriteBuffers_undergrown; [apply wf_new; lia|].
  apply page_undergrown; [lia|]. intros E. apply Hm.
  rewrite <- (Z2Nat.id n), <- page_size, <- Nat2Z.inj_mod, E by lia. done.
Qed.

(** Serializing a message of such a length: the body is written after [p]
    bytes. *)
Lemma toByteArray_oversize msg :
  message_ok msg ->
  let size := message_size msg in
  let p := (size - length (m_body (body_of msg)))%nat in
  (p <= default_base_size < size)%nat ->
  (0 < (size - default_base_size) mod default_base_size <= default_base_size - p)%nat ->
  toByteArray msg = Crash.
Proof.
  intros Hok size p Hp Hmod.
  destruct (base_run (H0 := ByteArray_spec_in default_base_size default_base_size) CXK_BIG_ENDIAN msg Hok) as (bs & Hsize & Hem).
  set (body := m_body (body_of msg)) in *.
  assert (Hpb : p = (length bs + 8)%nat) by (unfold p, size; lia).
  assert (Hc : ba_can_write_in default_base_size default_base_size (new_ByteArray default_base_size) (length bs + (8 + (default_base_size - p)))).
  { split; [|done]. apply page_can_write. lia. }
  destruct (Hem (new_ByteArray default_base_size) eq_refl) as (b1 & E1 & W1 & He1 & C1).
  { eapply (bb_can_write_le (ByteBufferSpec := ByteArray_spec_in default_base_size default_base_size)); [exact Hc|lia]. }
  destruct (emits_unsigned (H0 := ByteArray_spec_in default_base_size default_base_size) CXK_BIG_ENDIAN 8 (u64 (str_size body)) b1 He1)
    as (b2 & E2 & W2 & He2 & C2).
  { rewrite length_ordered.
    eapply (bb_can_write_le (ByteBufferSpec := ByteArray_spec_in default_base_size default_base_size)); [by apply C1|lia]. }
  destruct (C2 (default_base_size - p)%nat) as [(Hwf2 & Hs2 & _ & _) [Hcap2 Hbase2]].
  { rewrite length_ordered. by apply C1. }
  assert (Hpos : m_position b2 = p).
  { rewrite <- (length_written b2 Hwf2). cbn [bb_written ByteArray_spec_in] in W1, W2.
    rewrite W2, W1, !length_app, length_ordered. simpl. lia. }
  assert (Hcr : fst (write body b2) = Crash).
  { apply write_undergrown; [done|]. unfold grows_enough. rewrite Hpos, Hcap2, Hbase2. cbv zeta.
    unfold size in *. replace (message_size msg - default_base_size)%nat with (length body - (default_base_size - p))%nat in Hmod by lia. lia. }
  unfold toByteArray, local_ba. rewrite serialize_split.
  assert (Hall : fst (serialize_parts (base_serialize msg) (RockBody_serialize (body_of msg))
    (new_ByteArray default_base_size)) = Crash).
  { unfold serialize_parts. apply catch_all_Crash. rewrite (bind_Ret _ _ _ _ _ E1).
    apply bind_fst_Crash. unfold RockBody_serialize. apply bind_fst_Crash.
    unfold writeStringVint. fold body. unfold writeFuint64_t.
    rewrite (bind_Ret _ _ _ _ _ E2). exact Hcr. }
  by destruct (serialize_parts _ _ _) as [[] ?].
Qed.
End Oversize.

(** ** Properties *)
Section Properties.
Context {St : Type} `{StreamSpec St} {Zs : Type} `{ZlibSpec Zs} {heap : Heap} {cfg : RockConfig}.
Let page_size : Z.of_nat default_base_size = 4096 := default_base_sizeE.

(** C13: the wire protocol round trip: a message whose serialized size is below a
    page (4096 bytes), the compression threshold and the maximum is sent by
    [serializeTo] as one frame, and [parseFrom], on any stream where that frame
    is next, returns the same message and takes exactly the frame. *)
Theorem rock_roundtrip m s1 :
  message_ok m -> Z.of_nat (message_size m) < 4096 ->
  Z.of_nat (message_size m) < rock_gzip_min_length -> Z.of_nat (message_size m) < rock_max_length ->
  st_open s1 ->
  exists frame s1', serializeTo m s1 = (Ret (8 + Z.of_nat (message_size m)), s1') /\
    st_sent s1' = st_sent s1 ++ frame /\ st_pending s1' = st_pending s1 /\
    (forall s2 rest, st_open s2 -> st_pending s2 = frame ++ rest ->
       exists s2', parseFrom s2 = (Ret (Some m), s2') /\ st_pending s2' = rest /\ st_sent s2' = st_sent s2).
Proof.
  intros Hok Hsize Hgz Hmax Ho.
  destruct (message_run (Buf := ByteArray) CXK_BIG_ENDIAN m Hok) as (bs & Hl & Hem & Hacc).
  assert (Hpos : (0 < length bs)%nat) by (rewrite Hl; destruct m as [[? ?]|[? ?]|[? ?]]; simpl; lia).
  destruct (serializeTo_run m bs s1 Ho Hem) as (s1' & Hr & Hs & Hp & _); [lia|congruence|].
  exists (wire_header 0 (Z.of_nat (length bs)) ++ bs), s1'. rewrite <- Hl. split_and!; try done.
  intros s2 rest Ho2 Hp2. rewrite <- app_assoc in Hp2.
  destruct (parse_header_run 0 (Z.of_nat (length bs)) (bs ++ rest) s2 Ho2 Hp2) as (s3 & E3 & Hp3 & Hs3 & Ho3);
    [lia|congruence|].
  destruct (parse_plain_run 0 bs m rest s3 Ho3 Hp3) as (s4 & E4 & Hp4 & Hs4 & _); [lia|done|done|].
  exists s4. unfold parseFrom, catch_all. rewrite E3, E4. split_and!; try done. congruence.
Qed.

(** Compressed frames are understood: a frame with the compression flag, whose
    payload is the gzip form (for any zlib that keeps its promises) of the
    serialization of a message below a page, is parsed to that message. *)
Theorem rock_parse_compressed m b z rest s z0 :
  message_ok m -> Z.of_nat (message_size m) < 4096 -> toByteArray m = Ret (Some b) ->
  CreateGzip (Zs := Zs) false = Ret (Some z0) ->
  z = z_format 31 (written b) -> 0 < Z.of_nat (length z) < 4096 -> Z.of_nat (length z) < rock_max_length ->
  st_open s -> st_pending s = wire_header 1 (Z.of_nat (length z)) ++ z ++ rest ->
  exists s', parseFrom s = (Ret (Some m), s') /\ st_pending s' = rest /\ st_sent s' = st_sent s.
Proof.
  intros Hok Hsize Ht Hcr Hz Hzl Hmax Ho Hp.
  destruct (message_run (Buf := ByteArray) CXK_BIG_ENDIAN m Hok) as (bs & Hl & Hem & Hacc).
  assert (Hbs : written b = bs).
  { destruct (Hem (new_ByteArray default_base_size) eq_refl) as (b' & E & Hw & _).
    { apply page_can_write. lia. }
    unfold toByteArray in Ht. rewrite (local_ba_Ret _ _ _ _ E) in Ht. injection Ht as <-. exact Hw. }
  rewrite Hbs in Hz.
  destruct (parse_header_run 1 (Z.of_nat (length z)) (z ++ rest) s Ho Hp) as (s3 & E3 & Hp3 & Hs3 & Ho3);
    [lia|done|].
  destruct (parse_gzip_run 1 z bs m rest s3 z0 Ho3 Hp3 ltac:(lia)) as (s4 & E4 & Hp4 & Hs4 & _);
    [done|done|done|lia|done|].
  exists s4. unfold parseFrom, catch_all. rewrite E3, E4. split_and!; try done. congruence.
Qed.

(** C33: a frame is rejected, with a null message and without reading past its
    header, when the magic bytes or the version differ or when the announced
    length (taken as unsigned) reaches the maximum; a stream that ends inside
    the header gives a null message too. *)
Theorem rock_rejects s :
  st_open s ->
  (forall hdr rest, st_pending s = hdr ++ rest -> length hdr = 8%nat ->
     magic (header_of hdr) <> s_rock_magic \/ version (header_of hdr) <> 1 \/
     rock_max_length <= u32 (byteswapOnLittleEndian_signed 4 (length_field (header_of hdr))) ->
     exists s', parseFrom s = (Ret None, s') /\ st_pending s' = rest /\ st_sent s' = st_sent s) /\
  ((length (st_pending s) < 8)%nat ->
     exists s', parseFrom s = (Ret None, s') /\ st_sent s' = st_sent s).
Proof.
  intros Ho. split.
  - intros hdr rest Hp Hl Hbad.
    destruct (readFixSize_ok hdr rest s Ho Hp) as (s' & Hr & ? & ? & _); [lia|].
    rewrite Hl in Hr. exists s'. split_and!; try done.
    unfold parseFrom, catch_all, parseFrom_body. mstep Hr. zcase.
    destruct (decide (magic (header_of hdr) = s_rock_magic)) as [E|E];
      [rewrite bool_decide_true by done|by rewrite bool_decide_false by done].
    cbn [negb]. destruct (Z.eqb_spec (version (header_of hdr)) 1); [|done]. cbn [negb].
    destruct Hbad as [?|[?|?]]; try done. by zcase.
  - intros Hl. destruct (readFixSize_eof 8 s Ho) as (r & d & s' & Hr & Hr0 & Hs); [lia|].
    exists s'. unfold parseFrom, catch_all, parseFrom_body. mstep Hr. by zcase.
Qed.

(** a message above a page is fatal for its sender: with [p] bytes in front of
    the body, [serializeTo] crashes when the size exceeds 4096 and its excess
    modulo 4096 lies between 1 and 4096 - p, before anything is sent. *)
Theorem rock_send_oversize_crash m (s : St) :
  message_ok m ->
  let size := Z.of_nat (message_size m) in
  let p := size - str_size (m_body (body_of m)) in
  p <= 4096 < size -> 0 < (size - 4096) mod 4096 <= 4096 - p ->
  serializeTo m s = (Crash, s).
Proof.
  intros Hok size p Hp Hm. unfold serializeTo. unfold lift at 1.
  destruct (base_run (Buf := ByteArray) CXK_BIG_ENDIAN m Hok) as (bs & Hsize & _).
  unfold p, size, str_size in *. rewrite (toByteArray_oversize m Hok); [reflexivity|lia|].
  rewrite <- page_size in Hm. rewrite <- Nat2Z.inj_sub, <- Nat2Z.inj_mod in Hm by lia. lia.
Qed.
End Properties.

(** A peer can crash a server with eight bytes: a header that announces an
    (accepted) length above 4096 and not a multiple of 4096 makes [parseFrom] on a
    connected socket dereference null, whatever the payload and the flag. *)
Theorem rock_receive_oversize_crash {K} `{KernelSpec K} {Zs} `{Zlib Zs} {heap : Heap} {cfg : RockConfig}
    (s : Socket K) fl n rest :
  st_open s -> st_pending s = wire_header fl n ++ rest ->
  4096 < n < 2 ^ 31 -> n < rock_max_length -> n mod 4096 <> 0 ->
  fst (parseFrom s) = Crash.
Proof.
  intros Ho Hp Hn Hmax Hm. unfold parseFrom. apply catch_all_Crash.
  destruct (parse_header_run fl n rest s Ho Hp) as (s' & -> & _ & _ & Ho'); [lia|done|].
  unfold parse_payload. apply bind_fst_Crash, with_ba_Crash. by apply SocketStream_oversize.
Qed.

(** ** Witnesses: a socket over a wire, the default configuration and the stored
    zlib of the file Zlib. *)
#[local] Existing Instance zero_heap.
#[local] Existing Instance default_config.
#[local] Existing Instance stored_zlib.
#[local] Existing Instance stored_spec.

Definition peer (pending : list Z) : Socket Wire := mkSocket 5 true (mkWire pending [] 2).
Lemma peer_open pending : st_open (peer pending).
Proof. reflexivity. Qed.
Definition hello : Message := MRequest (mkRequest 7 300, mkRockBody [104; 105]).
Lemma hello_ok : message_ok hello.
Proof. unfold message_ok, hello, uint32_ok. simpl. split_and!; lia || reflexivity. Qed.

Lemma rock_roundtrip_witness :
  exists frame s1 s2, serializeTo (Zs := stored) hello (peer []) = (Ret 22, s1) /\ st_sent s1 = frame /\
    parseFrom (Zs := stored) (peer (frame ++ [1; 2])) = (Ret (Some hello), s2) /\ st_pending s2 = [1; 2].
Proof.
  destruct (rock_roundtrip (Zs := stored) hello (peer []) hello_ok) as (frame & s1 & Hr & Hs & _ & Hparse);
    [by vm_compute|reflexivity|reflexivity|apply peer_open|].
  destruct (Hparse (peer (frame ++ [1; 2])) [1; 2] (peer_open _) eq_refl) as (s2 & Hr2 & Hp2 & _).
  exists frame, s1, s2. split_and!; [exact Hr|exact Hs|exact Hr2|exact Hp2].
Defined.

Definition hello_page : ByteArray :=
  match toByteArray hello with Ret (Some b) => b | _ => new_ByteArray 0 end.
Lemma rock_compressed_witness :
  exists s, parseFrom (Zs := stored) (peer (wire_header 1 15 ++ 31 :: written hello_page)) = (Ret (Some hello), s).
Proof.
  destruct (rock_parse_compressed (Zs := stored) hello hello_page (31 :: written hello_page) []
    (peer (wire_header 1 15 ++ 31 :: written hello_page)) (new_stored false) hello_ok) as (s & E & _);
    [by vm_compute|vm_compute; reflexivity|apply create_stored|reflexivity|by vm_compute|
     reflexivity|apply peer_open|vm_compute; reflexivity|].
  exists s. exact E.
Defined.

Lemma rock_rejects_witness :
  exists s, parseFrom (Zs := stored) (peer [1; 2; 3; 4; 5; 6; 7; 8; 9]) = (Ret None, s) /\ st_pending s = [9].
Proof.
  destruct (rock_rejects (Zs := stored) (peer [1; 2; 3; 4; 5; 6; 7; 8; 9]) (peer_open _)) as [H _].
  destruct (H [1; 2; 3; 4; 5; 6; 7; 8] [9] eq_refl eq_refl) as (s & E & Hp & _); [by left|].
  exists s. split; [exact E|exact Hp].
Defined.

Definition big : Message := MNotify (mkNotify 1, mkRockBody (replicate 5000 0)).
Lemma rock_send_oversize_witness :
  serializeTo (Zs := stored) big (peer []) = (Crash, peer []).
Proof.
  apply (rock_send_oversize_crash (Zs := stored) big (peer [])); by vm_compute.
Defined.

Lemma rock_receive_oversize_witness :
  fst (parseFrom (Zs := stored) (peer (wire_header 0 5000))) = Crash.
Proof.
  apply (rock_receive_oversize_crash (Zs := stored) (peer (wire_header 0 5000)) 0 5000 []);
    [apply peer_open|vm_compute; reflexivity|lia|reflexivity|done].
Defined.
