(* ===== verification/Lru.v ===== *)
(** * The LRU caches (cxk/ds/lru_cache.h, cxk/ds/cache_status.h)

    A [LruCache] is a hash map from keys to iterators into a list of pairs, the
    most recently used first.  An iterator is the identity of a list node, kept
    across [splice]: the list is a list of nodes with their identities, and
    using an iterator that is not in the list is [Crash].  The statistics are a
    separate object that several caches may share, so the operations act on
    the pair of the cache and the statistics. *)
From S2P Require Import Prelude.

(** ** CacheStatus: counters of 64 bits, updated atomically. *)
Record CacheStatus := mkCacheStatus {
  cs_get : Z; cs_set : Z; cs_del : Z; cs_timeout : Z; cs_prune : Z; cs_hit : Z
}.
Definition new_CacheStatus : CacheStatus := mkCacheStatus 0 0 0 0 0 0.
Definition incGet (v : Z) (s : CacheStatus) : CacheStatus :=
  mkCacheStatus (i64 (cs_get s + v)) (cs_set s) (cs_del s) (cs_timeout s) (cs_prune s) (cs_hit s).
Definition incSet (v : Z) (s : CacheStatus) : CacheStatus :=
  mkCacheStatus (cs_get s) (i64 (cs_set s + v)) (cs_del s) (cs_timeout s) (cs_prune s) (cs_hit s).
Definition incDel (v : Z) (s : CacheStatus) : CacheStatus :=
  mkCacheStatus (cs_get s) (cs_set s) (i64 (cs_del s + v)) (cs_timeout s) (cs_prune s) (cs_hit s).
Definition incPrune (v : Z) (s : CacheStatus) : CacheStatus :=
  mkCacheStatus (cs_get s) (cs_set s) (cs_del s) (cs_timeout s) (i64 (cs_prune s + v)) (cs_hit s).
Definition incHit (v : Z) (s : CacheStatus) : CacheStatus :=
  mkCacheStatus (cs_get s) (cs_set s) (cs_del s) (cs_timeout s) (cs_prune s) (i64 (cs_hit s + v)).
(** [+=] on the counters: signed overflow is undefined. *)
Definition merge (o s : CacheStatus) : outcome CacheStatus :=
  g ← chk_signed 64 (cs_get s + cs_get o);
  st ← chk_signed 64 (cs_set s + cs_set o);
  d ← chk_signed 64 (cs_del s + cs_del o);
  t ← chk_signed 64 (cs_timeout s + cs_timeout o);
  p ← chk_signed 64 (cs_prune s + cs_prune o);
  h ← chk_signed 64 (cs_hit s + cs_hit o);
  Ret (mkCacheStatus g st d t p h).

Section Lru.
Context {K V : Type} `{Countable K}.

(** [m_cb] tells whether a callback is set; [m_pruned] is the trace of its
    calls. *)
Record LruCache := mkLruCache {
  m_cache : gmap K nat;
  m_keys : list (nat * (K * V));
  m_fresh : nat;
  m_maxSize : Z;
  m_elasticity : Z;
  m_cb : bool;
  m_pruned : list (K * V)
}.
Implicit Types (c : LruCache).

Definition new_LruCache (max_size elasticity : Z) : LruCache :=
  mkLruCache ∅ [] 0 max_size elasticity false [].
Definition set_index (m : gmap K nat) (l : list (nat * (K * V))) c : LruCache :=
  mkLruCache m l (m_fresh c) (m_maxSize c) (m_elasticity c) (m_cb c) (m_pruned c).

(** ** The list of nodes *)
Definition node (it : nat) (l : list (nat * (K * V))) : option (K * V) :=
  snd <$> find (fun n => (fst n =? it)%nat) l.
Definition erase_node (it : nat) (l : list (nat * (K * V))) : list (nat * (K * V)) :=
  filter (fun n => fst n <> it) l.
(** [splice(begin(), m_keys, it)] *)
Definition splice_front (it : nat) (kv : K * V) (l : list (nat * (K * V))) : list (nat * (K * V)) :=
  (it, kv) :: erase_node it l.

Definition LruSt : Type := LruCache * CacheStatus.
Definition on_status (f : CacheStatus -> CacheStatus) : M LruSt unit := modify (fun s => (fst s, f (snd s))).
Definition on_cache (f : LruCache -> LruCache) : M LruSt unit := modify (fun s => (f (fst s), snd s)).
Definition cache : M LruSt LruCache := gets fst.

(** ** Operations *)
Definition getMaxAllowedSize c : Z := u64 (m_maxSize c + m_elasticity c).

(** The loop of [prune]. *)
Fixpoint prune_loop (fuel : nat) (count : Z) : M LruSt Z :=
  c ← cache;
  if m_maxSize c <? Z.of_nat (size (m_cache c)) then
    match fuel with
    | O => nofuel
    | S fuel =>
        match rev (m_keys c) with
        | [] => crash
        | (_, (k, v)) :: rest =>
            on_cache (fun c =>
              mkLruCache (delete k (m_cache c)) (rev rest) (m_fresh c) (m_maxSize c) (m_elasticity c) (m_cb c)
                (if m_cb c then m_pruned c ++ [(k, v)] else m_pruned c)) ;;
            prune_loop fuel (count + 1)
        end
    end
  else mret count.
Definition prune : M LruSt Z :=
  c ← cache;
  if (m_maxSize c =? 0) || (Z.of_nat (size (m_cache c)) <? getMaxAllowedSize c) then mret 0 else
  count ← prune_loop (S (length (m_keys c))) 0;
  on_status (incPrune count) ;;
  mret count.

Definition set (k : K) (v : V) : M LruSt unit :=
  on_status (incSet 1) ;;
  c ← cache;
  match m_cache c !! k with
  | Some it =>
      match node it (m_keys c) with
      | None => crash
      | Some (k', _) => on_cache (fun c => set_index (m_cache c) (splice_front it (k', v) (m_keys c)) c)
      end
  | None =>
      on_cache (fun c =>
        mkLruCache (<[k := m_fresh c]> (m_cache c)) ((m_fresh c, (k, v)) :: m_keys c) (S (m_fresh c))
          (m_maxSize c) (m_elasticity c) (m_cb c) (m_pruned c)) ;;
      prune ;; mret tt
  end.

(** [bool get(const K&, V&)]: the result is [v] converted to [bool], and the
    value assigned to the reference ([None]: not assigned).  [to_bool] is the
    conversion of the value type. *)
Definition get (to_bool : V -> bool) (k : K) : M LruSt (bool * option V) :=
  on_status (incGet 1) ;;
  c ← cache;
  match m_cache c !! k with
  | None => mret (false, None)
  | Some it =>
      match node it (m_keys c) with
      | None => crash
      | Some (k', v) =>
          on_cache (fun c => set_index (m_cache c) (splice_front it (k', v) (m_keys c)) c) ;;
          on_status (incHit 1) ;;
          mret (to_bool v, Some v)
      end
  end.

Definition del (k : K) : M LruSt bool :=
  on_status (incDel 1) ;;
  c ← cache;
  match m_cache c !! k with
  | None => mret false
  | Some it =>
      match node it (m_keys c) with
      | None => crash
      | Some _ => on_cache (fun c => set_index (delete k (m_cache c)) (erase_node it (m_keys c)) c) ;; mret true
      end
  end.

Definition exists_ (k : K) c : bool := match m_cache c !! k with Some _ => true | None => false end.
Definition size_ c : Z := Z.of_nat (size (m_cache c)).
Definition empty c : bool := (size (m_cache c) =? 0)%nat.
Definition clear : M LruSt bool := on_cache (set_index ∅ []) ;; mret true.
Definition setMaxSize (v : Z) c : LruCache :=
  mkLruCache (m_cache c) (m_keys c) (m_fresh c) v (m_elasticity c) (m_cb c) (m_pruned c).
Definition setElasticity (v : Z) c : LruCache :=
  mkLruCache (m_cache c) (m_keys c) (m_fresh c) (m_maxSize c) v (m_cb c) (m_pruned c).
Definition setPruneCallback (cb : bool) c : LruCache :=
  mkLruCache (m_cache c) (m_keys c) (m_fresh c) (m_maxSize c) (m_elasticity c) cb (m_pruned c).

(** ** The specification: the pairs in order of use *)
Definition abs c : list (K * V) := map snd (m_keys c).
Definition lookup_ (k : K) (l : list (K * V)) : option V :=
  snd <$> find (fun kv => bool_decide (fst kv = k)) l.
Definition remove_ (k : K) (l : list (K * V)) : list (K * V) := filter (fun kv => fst kv <> k) l.
(** Nothing is dropped below the allowed size; then the oldest are, down to the
    maximum. *)
Definition trims c (n : nat) : bool := negb ((m_maxSize c =? 0) || (Z.of_nat n <? getMaxAllowedSize c)).
Definition trim c (l : list (K * V)) : list (K * V) :=
  if trims c (length l) then take (Z.to_nat (m_maxSize c)) l else l.

Record lru_wf c : Prop := {
  lw_ids : NoDup (map fst (m_keys c));
  lw_names : NoDup (map fst (abs c));
  lw_index : forall k it, m_cache c !! k = Some it <-> exists v, (it, (k, v)) ∈ m_keys c;
  lw_fresh : Forall (fun n => (fst n < m_fresh c)%nat) (m_keys c);
  lw_max : 0 <= m_maxSize c
}.

(** ** Lemmas *)
Lemma map_filter_agree {A B} (f : A -> B) (P : A -> Prop) (Q : B -> Prop)
    `{forall x, Decision (P x)} `{forall x, Decision (Q x)} l :
  (forall x, x ∈ l -> P x <-> Q (f x)) -> map f (filter P l) = filter Q (map f l).
Proof.
  induction l as [|x l IH]; intros Ha; [done|]. simpl. rewrite !filter_cons.
  pose proof (Ha x ltac:(left)) as Hx. rewrite <- IH by (intros; apply Ha; by right).
  destruct (decide (P x)), (decide (Q (f x))); tauto || done.
Qed.

Lemma find_In {A} (f : A -> bool) l x : find f l = Some x -> x ∈ l /\ f x = true.
Proof. intros Hf. apply find_some in Hf as [Hi ?]. split; [by apply list_elem_of_In|done]. Qed.

Lemma node_sound it l kv : node it l = Some kv -> (it, kv) ∈ l.
Proof.
  unfold node. destruct (find _ l) as [[i kv']|] eqn:E; [|done]. simpl. intros [= ->].
  apply find_In in E as [E Hi]. simpl in Hi. apply Nat.eqb_eq in Hi as ->. done.
Qed.
Lemma ids_unique (l : list (nat * (K * V))) it kv kv' :
  NoDup (map fst l) -> (it, kv) ∈ l -> (it, kv') ∈ l -> kv = kv'.
Proof.
  induction l as [|n l IH]; intros Hn H1 H2; [by apply elem_of_nil in H1|]. simpl in Hn.
  apply list.NoDup_cons in Hn as [Hn Hl].
  assert (Hout : forall kv, (it, kv) ∈ l -> fst n <> it).
  { intros kv0 Hin <-. apply Hn. apply list_elem_of_In, in_map_iff. exists (fst n, kv0).
    split; [done|by apply list_elem_of_In]. }
  apply elem_of_cons in H1 as [H1|H1]; apply elem_of_cons in H2 as [H2|H2]; subst; eauto; try congruence.
  - by destruct (Hout _ H2).
  - by destruct (Hout _ H1).
Qed.
Lemma node_complete it l kv : NoDup (map fst l) -> (it, kv) ∈ l -> node it l = Some kv.
Proof.
  intros Hn Hi. destruct (node it l) as [kv'|] eqn:E.
  - apply node_sound in E. by rewrite (ids_unique l it kv kv').
  - unfold node in E. destruct (find _ l) eqn:Ef; [done|].
    apply list_elem_of_In in Hi. eapply find_none in Ef; [|exact Hi]. simpl in Ef.
    by rewrite Nat.eqb_refl in Ef.
Qed.
Lemma names_unique c it it' k v v' : lru_wf c -> (it, (k, v)) ∈ m_keys c -> (it', (k, v')) ∈ m_keys c ->
  it = it'.
Proof.
  intros Hwf H1 H2. assert (m_cache c !! k = Some it) by (apply (lw_index _ Hwf); eauto).
  assert (m_cache c !! k = Some it') by (apply (lw_index _ Hwf); eauto). congruence.
Qed.

Lemma elem_of_erase it l n : n ∈ erase_node it l <-> n ∈ l /\ fst n <> it.
Proof. unfold erase_node. rewrite list_elem_of_filter. tauto. Qed.
Lemma NoDup_map_filter {A B} (f : A -> B) (P : A -> Prop) `{forall x, Decision (P x)} l :
  NoDup (map f l) -> NoDup (map f (filter P l)).
Proof.
  induction l as [|x l IH]; intros Hn; [done|]. simpl in Hn. apply list.NoDup_cons in Hn as [Hx Hl].
  rewrite filter_cons. destruct (decide (P x)); [|auto]. simpl. apply list.NoDup_cons. split; [|auto].
  intros Hi. apply Hx. apply list_elem_of_In, in_map_iff in Hi as (y & E & Hy).
  apply list_elem_of_In, list_elem_of_filter in Hy as [_ Hy].
  apply list_elem_of_In, in_map_iff. exists y. split; [done|by apply list_elem_of_In].
Qed.

(** Removing a node and its key keeps the invariant and is [remove_]. *)
Lemma erase_abs c it k : lru_wf c -> m_cache c !! k = Some it ->
  map snd (erase_node it (m_keys c)) = remove_ k (abs c).
Proof.
  intros Hwf Hk. unfold erase_node, remove_, abs. apply map_filter_agree.
  apply (lw_index _ Hwf) in Hk as [v Hv]. intros [i [k' v']] Hi. simpl. split; intros Hne E; apply Hne; subst.
  - by rewrite (names_unique c it i k v v').
  - by pose proof (ids_unique _ _ _ _ (lw_ids _ Hwf) Hv Hi) as [= -> ->].
Qed.
Lemma wf_erase c it k : lru_wf c -> m_cache c !! k = Some it ->
  lru_wf (set_index (delete k (m_cache c)) (erase_node it (m_keys c)) c).
Proof.
  intros Hwf Hk. pose proof (erase_abs c it k Hwf Hk) as Habs. constructor; simpl.
  - apply NoDup_map_filter, (lw_ids _ Hwf).
  - unfold abs. simpl. rewrite Habs. apply NoDup_map_filter, (lw_names _ Hwf).
  - apply (lw_index _ Hwf) in Hk as [v0 Hv0]. intros k' it'. rewrite lookup_delete_Some, (lw_index _ Hwf). split.
    + intros [Hne [v Hv]]. exists v. apply elem_of_erase. split; [done|]. simpl. intros ->.
      by pose proof (ids_unique _ _ _ _ (lw_ids _ Hwf) Hv0 Hv) as [= -> ->].
    + intros [v Hv]. apply elem_of_erase in Hv as [Hv Hne]. split; [|eauto]. intros <-.
      apply Hne. simpl. by rewrite (names_unique c it' it k v v0).
  - apply list.Forall_forall. intros n Hn. apply elem_of_erase in Hn as [Hn _]. 
    pose proof (lw_fresh _ Hwf) as Hf. rewrite list.Forall_forall in Hf. by apply Hf.
  - apply (lw_max _ Hwf).
Qed.
Lemma wf_push c it k v : lru_wf c -> m_cache c !! k = None -> (it < m_fresh c)%nat ->
  it ∉ map fst (m_keys c) ->
  lru_wf (set_index (<[k := it]> (m_cache c)) ((it, (k, v)) :: m_keys c) c).
Proof.
  intros Hwf Hk Hf Hi. constructor; simpl.
  - apply list.NoDup_cons. split; [done|apply (lw_ids _ Hwf)].
  - apply list.NoDup_cons. split; [|apply (lw_names _ Hwf)]. intros Hin.
    unfold abs in Hin. rewrite map_map in Hin. apply list_elem_of_In, in_map_iff in Hin as ([i [k' v']] & E & Hin).
    simpl in E. subst k'. apply list_elem_of_In in Hin.
    assert (Hs : m_cache c !! k = Some i) by (apply (lw_index _ Hwf); eauto). congruence.
  - intros k' it'. destruct (decide (k = k')) as [<-|Hne].
    + rewrite lookup_insert_eq. split.
      * intros [= <-]. exists v. left.
      * intros [v' Hv]. apply elem_of_cons in Hv as [[= -> ->]|Hv]; [done|].
        assert (Hs : m_cache c !! k = Some it') by (apply (lw_index _ Hwf); eauto). congruence.
    + rewrite lookup_insert_ne by done. rewrite (lw_index _ Hwf). split.
      * intros [v' Hv]. exists v'. by right.
      * intros [v' Hv]. apply elem_of_cons in Hv as [[= -> ->]|Hv]; [done|eauto].
  - constructor; [done|apply (lw_fresh _ Hwf)].
  - apply (lw_max _ Hwf).
Qed.

Lemma lookup_abs c k : lru_wf c ->
  lookup_ k (abs c) = match m_cache c !! k with Some it => snd <$> node it (m_keys c) | None => None end.
Proof.
  intros Hwf. unfold lookup_. destruct (find _ (abs c)) as [[k' v]|] eqn:Ef.
  - apply find_In in Ef as [Hin Hk]. simpl in Hk. apply bool_decide_eq_true in Hk as ->.
    unfold abs in Hin. apply list_elem_of_In, in_map_iff in Hin as ([it kv] & E & Hin). simpl in E. subst kv.
    apply list_elem_of_In in Hin. replace (m_cache c !! k) with (Some it) by (symmetry; apply (lw_index _ Hwf); eauto).
    by rewrite (node_complete it _ (k, v)) by (done || apply (lw_ids _ Hwf)).
  - destruct (m_cache c !! k) as [it|] eqn:Ek; [|done]. apply (lw_index _ Hwf) in Ek as [v Hv].
    assert (Hin : In (k, v) (abs c)) by (apply in_map_iff; exists (it, (k, v)); split; [done|by apply list_elem_of_In]).
    eapply find_none in Ef; [|exact Hin]. simpl in Ef. by rewrite bool_decide_true in Ef.
Qed.
Lemma size_cache c : lru_wf c -> size (m_cache c) = length (m_keys c).
Proof.
  intros Hwf. set (idx := map (fun n : nat * (K * V) => (fst (snd n), fst n)) (m_keys c)).
  assert (Hn : NoDup (idx.*1)).
  { unfold idx. pose proof (lw_names _ Hwf) as Hn. unfold abs in Hn. rewrite map_map in Hn.
    replace (_.*1) with (map (fun n : nat * (K * V) => fst (snd n)) (m_keys c)); [done|].
    clear. induction (m_keys c) as [|? ? IHl]; csimpl; [done|]. f_equal. exact IHl. }
  assert (E : m_cache c = list_to_map idx).
  { apply map_eq. intros k. apply option_eq. intros it. rewrite (lw_index _ Hwf).
    rewrite <- elem_of_list_to_map by done. unfold idx. split.
    - intros [v Hv]. apply list_elem_of_In, in_map_iff. exists (it, (k, v)). split; [done|by apply list_elem_of_In].
    - intros Hi. apply list_elem_of_In, in_map_iff in Hi as ([it' [k' v]] & [= -> ->] & Hi).
      exists v. by apply list_elem_of_In. }
  rewrite E, map_size_list_to_map by done. unfold idx. by rewrite length_map.
Qed.

(** What [prune] does not change. *)
Definition same_params c c' : Prop :=
  m_maxSize c' = m_maxSize c /\ m_elasticity c' = m_elasticity c /\ m_cb c' = m_cb c /\ m_fresh c' = m_fresh c.

Lemma erase_last (l : list (nat * (K * V))) it kv :
  NoDup (map fst (l ++ [(it, kv)])) -> erase_node it (l ++ [(it, kv)]) = l.
Proof.
  intros Hn. unfold erase_node. rewrite list.filter_app.
  rewrite list.filter_cons_False by (simpl; tauto). rewrite list.filter_nil, app_nil_r.
  apply list_filter_true. intros n Hi E. rewrite map_app in Hn. apply list.NoDup_app in Hn as (_ & Hd & _).
  apply (Hd it); [|by left]. rewrite <- E. apply list_elem_of_In, in_map. by apply list_elem_of_In.
Qed.

(** The last node is dropped. *)
Lemma wf_drop_last c rest it k v :
  lru_wf c -> rev (m_keys c) = (it, (k, v)) :: rest ->
  lru_wf (set_index (delete k (m_cache c)) (rev rest) c) /\ abs c = map snd (rev rest) ++ [(k, v)] /\
  length (m_keys c) = S (length (rev rest)).
Proof.
  intros Hwf Hr. apply (f_equal (@rev _)) in Hr. rewrite rev_involutive in Hr. simpl in Hr.
  assert (Hk : m_cache c !! k = Some it).
  { apply (lw_index _ Hwf). exists v. rewrite Hr. apply elem_of_app. right. by left. }
  split_and!.
  - pose proof (wf_erase c it k Hwf Hk) as Hw. rewrite Hr in Hw.
    by rewrite erase_last in Hw by (rewrite <- Hr; apply (lw_ids _ Hwf)).
  - unfold abs. rewrite Hr, map_app. done.
  - rewrite Hr, length_app. simpl. lia.
Qed.

Lemma prune_loop_run fuel count c st :
  lru_wf c -> (length (m_keys c) <= fuel)%nat ->
  let n := Z.to_nat (m_maxSize c) in
  exists c', prune_loop fuel count (c, st) =
      (Ret (count + Z.of_nat (length (abs c) - n)), (c', st)) /\
    lru_wf c' /\ abs c' = take n (abs c) /\ same_params c c' /\
    m_pruned c' = m_pruned c ++ (if m_cb c then rev (drop n (abs c)) else []).
Proof.
  revert count c. induction fuel as [|fuel IH]; intros count c Hwf Hf n;
    pose proof (lw_max _ Hwf) as Hmax; unfold cache; cbn [prune_loop];
    rewrite (bind_Ret (gets fst) _ (c, st) c (c, st) eq_refl), size_cache by done;
    assert (Hla : length (abs c) = length (m_keys c)) by (unfold abs; by rewrite length_map).
  - zcase. exists c. replace (length (abs c) - n)%nat with 0%nat by lia. rewrite Z.add_0_r.
    rewrite take_ge, drop_ge by lia. split_and!; try done. destruct (m_cb c); by rewrite app_nil_r.
  - zcase; [|exists c; replace (length (abs c) - n)%nat with 0%nat by lia; rewrite Z.add_0_r, take_ge, drop_ge by lia;
             split_and!; try done; destruct (m_cb c); by rewrite app_nil_r].
    destruct (rev (m_keys c)) as [|[it [k v]] rest] eqn:Er.
    { apply (f_equal (@length _)) in Er. rewrite length_rev in Er. simpl in Er. lia. }
    destruct (wf_drop_last c rest it k v Hwf Er) as (Hwf1 & Habs & Hlen).
    set (c1 := mkLruCache (delete k (m_cache c)) (rev rest) (m_fresh c) (m_maxSize c) (m_elasticity c) (m_cb c)
      (if m_cb c then m_pruned c ++ [(k, v)] else m_pruned c)).
    assert (Hwf1' : lru_wf c1) by (destruct Hwf1; constructor; done).
    destruct (IH (count + 1) c1 Hwf1') as (c2 & Hr & Hwf2 & Ha2 & Hs2 & Hp2).
    { unfold c1. simpl. lia. }
    exists c2. unfold on_cache. rewrite (bind_Ret (modify _) _ (c, st) tt (c1, st) eq_refl), Hr.
    change (abs c1) with (map snd (rev rest)) in *. change (m_maxSize c1) with (m_maxSize c) in *. fold n in Ha2, Hp2 |- *.
    assert (Hn : (n <= length (map snd (rev rest)))%nat) by (rewrite length_map; lia).
    rewrite Habs, length_app, take_app_le, drop_app_le by done. split_and!; try done.
    + do 2 f_equal. simpl. lia.
    + rewrite Hp2. unfold c1. simpl. destruct (m_cb c); [|done]. rewrite rev_app_distr, <- app_assoc. done.
Qed.

Lemma prune_run c st : lru_wf c ->
  exists c' count, prune (c, st) = (Ret count, (c', if trims c (length (abs c)) then incPrune count st else st)) /\
    lru_wf c' /\ abs c' = trim c (abs c) /\ same_params c c' /\
    m_pruned c' = m_pruned c ++
      (if trims c (length (abs c)) && m_cb c then rev (drop (Z.to_nat (m_maxSize c)) (abs c)) else []).
Proof.
  intros Hwf. unfold prune, trim, trims, cache. rewrite (bind_Ret (gets fst) _ (c, st) c (c, st) eq_refl), size_cache by done.
  assert (Hla : length (abs c) = length (m_keys c)) by (unfold abs; by rewrite length_map).
  rewrite Hla. destruct (_ || _) eqn:E; simpl.
  - exists c, 0. rewrite app_nil_r. by split_and!.
  - destruct (prune_loop_run (S (length (m_keys c))) 0 c st Hwf) as (c' & Hr & ? & ? & ? & ?); [lia|].
    exists c', (0 + Z.of_nat (length (abs c) - Z.to_nat (m_maxSize c))). mstep Hr. split_and!; try done.
Qed.

Lemma set_run c st k v : lru_wf c ->
  exists c' st', set k v (c, st) = (Ret tt, (c', st')) /\ lru_wf c' /\
    abs c' = (match lookup_ k (abs c) with
              | Some _ => (k, v) :: remove_ k (abs c)
              | None => trim c ((k, v) :: abs c)
              end) /\
    m_maxSize c' = m_maxSize c /\ m_elasticity c' = m_elasticity c /\ m_cb c' = m_cb c /\
    m_pruned c' = m_pruned c ++
      (match lookup_ k (abs c) with
       | None => if trims c (S (length (abs c))) && m_cb c
                 then rev (drop (Z.to_nat (m_maxSize c)) ((k, v) :: abs c)) else []
       | Some _ => []
       end).
Proof.
  intros Hwf. rewrite lookup_abs by done. unfold set, on_status, cache, on_cache. msimpl. simpl.
  destruct (m_cache c !! k) as [it|] eqn:Ek.
  - pose proof Ek as Hv. apply (lw_index _ Hwf) in Hv as [v0 Hv].
    rewrite (node_complete it _ (k, v0)) by (done || apply (lw_ids _ Hwf)). simpl.
    eexists _, _. split; [done|]. rewrite app_nil_r. split_and!; [|by rewrite <- (erase_abs c it k)|done..].
    pose proof (wf_push _ it k v (wf_erase c it k Hwf Ek)) as Hp. simpl in Hp.
    rewrite lookup_delete_eq in Hp. rewrite insert_delete_id in Hp by done. apply Hp; [done| |].
    + pose proof (lw_fresh _ Hwf) as Hf. rewrite list.Forall_forall in Hf. apply (Hf _ Hv).
    + intros Hi. apply list_elem_of_In, in_map_iff in Hi as (n & E & Hi). apply list_elem_of_In, elem_of_erase in Hi.
      tauto.
  - set (c1 := mkLruCache _ _ _ _ _ _ _).
    assert (Hwf1 : lru_wf c1).
    { assert (Hw : lru_wf (mkLruCache (m_cache c) (m_keys c) (S (m_fresh c)) (m_maxSize c) (m_elasticity c)
        (m_cb c) (m_pruned c))).
      { destruct Hwf. constructor; try done. simpl. rewrite list.Forall_forall in *.
        intros n Hn. specialize (lw_fresh0 n Hn). lia. }
      pose proof (wf_push _ (m_fresh c) k v Hw Ek) as Hp. apply Hp; [simpl; lia|].
      simpl. intros Hi. apply list_elem_of_In, in_map_iff in Hi as (n & E & Hi). apply list_elem_of_In in Hi.
      pose proof (lw_fresh _ Hwf) as Hf. rewrite list.Forall_forall in Hf. specialize (Hf _ Hi). lia. }
    destruct (prune_run c1 (incSet 1 st) Hwf1) as (c' & count & Hr & Hwf' & Ha & (E1 & E2 & E3 & _) & Hp).
    cbn [snd]. rewrite Hr. eexists c', _. split; [done|]. split_and!; done.
Qed.

Lemma get_run to_bool c st k : lru_wf c ->
  exists c' st', get to_bool k (c, st) =
      (Ret (match lookup_ k (abs c) with Some v => (to_bool v, Some v) | None => (false, None) end), (c', st')) /\
    lru_wf c' /\
    abs c' = (match lookup_ k (abs c) with Some v => (k, v) :: remove_ k (abs c) | None => abs c end) /\
    m_maxSize c' = m_maxSize c /\ m_elasticity c' = m_elasticity c.
Proof.
  intros Hwf. rewrite lookup_abs by done. unfold get, on_status, cache, on_cache. msimpl. simpl.
  destruct (m_cache c !! k) as [it|] eqn:Ek; [|by eexists _, _].
  pose proof Ek as Hv. apply (lw_index _ Hwf) in Hv as [v Hv].
  rewrite (node_complete it _ (k, v)) by (done || apply (lw_ids _ Hwf)). simpl.
  eexists _, _. split; [done|]. split_and!; [|by rewrite <- (erase_abs c it k)|done..].
  pose proof (wf_push _ it k v (wf_erase c it k Hwf Ek)) as Hp. simpl in Hp.
  rewrite lookup_delete_eq in Hp. rewrite insert_delete_id in Hp by done. apply Hp; [done| |].
  - pose proof (lw_fresh _ Hwf) as Hf. rewrite list.Forall_forall in Hf. apply (Hf _ Hv).
  - intros Hi. apply list_elem_of_In, in_map_iff in Hi as (n & E & Hi). apply list_elem_of_In, elem_of_erase in Hi.
    tauto.
Qed.

Lemma del_run c st k : lru_wf c ->
  exists c' st', del k (c, st) =
      (Ret (match lookup_ k (abs c) with Some _ => true | None => false end), (c', st')) /\
    lru_wf c' /\ abs c' = remove_ k (abs c) /\
    m_maxSize c' = m_maxSize c /\ m_elasticity c' = m_elasticity c.
Proof.
  intros Hwf. pose proof (lookup_abs c k Hwf) as Hl. rewrite Hl. unfold del, on_status, cache, on_cache. msimpl. simpl.
  destruct (m_cache c !! k) as [it|] eqn:Ek.
  - pose proof Ek as Hv. apply (lw_index _ Hwf) in Hv as [v Hv].
    rewrite (node_complete it _ (k, v)) by (done || apply (lw_ids _ Hwf)). simpl.
    eexists _, _. split; [done|]. split_and!; [by apply wf_erase|by rewrite <- (erase_abs c it k)|done..].
  - eexists _, _. split; [done|]. split_and!; try done. symmetry. apply list_filter_true.
    intros [k' v] Hi E. simpl in E. subst k'. unfold lookup_ in Hl.
    destruct (find _ (abs c)) as [|] eqn:Ef; [done|]. apply list_elem_of_In in Hi.
    eapply find_none in Ef; [|exact Hi]. simpl in Ef. by rewrite bool_decide_true in Ef.
Qed.

Lemma lookup_remove k l : lookup_ k (remove_ k l) = @None V.
Proof.
  unfold lookup_. destruct (find _ _) as [[k' v]|] eqn:E; [|done].
  apply find_In in E as [Hi Hk]. simpl in Hk. apply bool_decide_eq_true in Hk as ->.
  apply list_elem_of_filter in Hi as [Hne _]. done.
Qed.

(** ** Properties *)

(** C28: the cache implements its specification, a list of pairs ordered from the
    most to the least recently used: on every well-formed cache each operation
    returns (no dangling iterator is used), keeps the invariant, and acts on the
    list: [set] moves an existing key to the front with its new value, and
    inserts a new one at the front, then trims to the maximum when the allowed
    size is reached; [get] moves the key to the front; [del] removes it; [exists]
    and [size] are those of the list. *)
Theorem lru_refines to_bool c st k v : lru_wf c ->
  (exists c' st', set k v (c, st) = (Ret tt, (c', st')) /\ lru_wf c' /\
     abs c' = (match lookup_ k (abs c) with
               | Some _ => (k, v) :: remove_ k (abs c)
               | None => trim c ((k, v) :: abs c)
               end)) /\
  (exists c' st', get to_bool k (c, st) =
       (Ret (match lookup_ k (abs c) with Some w => (to_bool w, Some w) | None => (false, None) end), (c', st')) /\
     lru_wf c' /\
     abs c' = (match lookup_ k (abs c) with Some w => (k, w) :: remove_ k (abs c) | None => abs c end)) /\
  (exists c' st', del k (c, st) =
       (Ret (match lookup_ k (abs c) with Some _ => true | None => false end), (c', st')) /\
     lru_wf c' /\ abs c' = remove_ k (abs c)) /\
  exists_ k c = (match lookup_ k (abs c) with Some _ => true | None => false end) /\
  size_ c = Z.of_nat (length (abs c)).
Proof.
  intros Hwf. split_and!.
  - destruct (set_run c st k v Hwf) as (c' & st' & ? & ? & ? & _). by exists c', st'.
  - destruct (get_run to_bool c st k Hwf) as (c' & st' & ? & ? & ? & _). by exists c', st'.
  - destruct (del_run c st k Hwf) as (c' & st' & ? & ? & ? & _). by exists c', st'.
  - unfold exists_. rewrite lookup_abs by done. destruct (m_cache c !! k) as [it|] eqn:E; [|done].
    apply (lw_index _ Hwf) in E as [w Hw]. by rewrite (node_complete it _ _ (lw_ids _ Hwf) Hw).
  - unfold size_, abs. by rewrite size_cache, length_map.
Qed.

(** The size bound and what is evicted: inserting a new key into a cache that
    reaches its allowed size (maximum plus elasticity) leaves exactly the
    [m_maxSize] most recently used pairs, and the callback is called on the
    dropped ones, the least recently used first; below the allowed size nothing
    is dropped.  So a cache within max(m_maxSize, m_maxSize + m_elasticity - 1)
    stays within it. *)
Theorem lru_bound c st k v :
  lru_wf c -> 0 < m_maxSize c -> 0 <= m_elasticity c -> m_maxSize c + m_elasticity c < 2 ^ 64 ->
  let bound := Z.max (m_maxSize c) (m_maxSize c + m_elasticity c - 1) in
  Z.of_nat (length (abs c)) <= bound -> lookup_ k (abs c) = None ->
  exists c' st', set k v (c, st) = (Ret tt, (c', st')) /\ Z.of_nat (length (abs c')) <= bound /\
    (if Z.of_nat (S (length (abs c))) <? m_maxSize c + m_elasticity c
     then abs c' = (k, v) :: abs c /\ m_pruned c' = m_pruned c
     else abs c' = take (Z.to_nat (m_maxSize c)) ((k, v) :: abs c) /\
          m_pruned c' = m_pruned c ++
            (if m_cb c then rev (drop (Z.to_nat (m_maxSize c)) ((k, v) :: abs c)) else [])).
Proof.
  intros Hwf Hm He Hsum bound Hb Hk.
  destruct (set_run c st k v Hwf) as (c' & st' & Hr & _ & Ha & _ & _ & _ & Hp). rewrite Hk in Ha, Hp.
  exists c', st'. split; [done|]. unfold trim, trims, getMaxAllowedSize in *.
  rewrite (Z.eqb_neq (m_maxSize c) 0) in * || rewrite (proj2 (Z.eqb_neq (m_maxSize c) 0)) in * by lia.
  unfold u64 in *. rewrite wrapu_id in * by lia. simpl length in *.
  destruct (Z.ltb_spec (Z.of_nat (S (length (abs c)))) (m_maxSize c + m_elasticity c)); simpl in *;
    rewrite Ha, Hp.
  - rewrite app_nil_r. simpl. split_and!; try done. lia.
  - split_and!; try done. rewrite length_take. lia.
Qed.
End Lru.

(** ** HashLruCache: [m_bucket] caches that share one set of statistics *)
Section HashLru.
Context {K V : Type} `{Countable K}.
Context (to_bool : V -> bool).
(** [std::hash]: a [size_t]. *)
Context (m_hash : K -> Z).

Record HashLruCache := mkHashLruCache {
  m_datas : list (LruCache (K := K) (V := V));
  h_maxSize : Z;
  m_bucket : Z;
  h_elasticity : Z;
  m_status : CacheStatus
}.
Implicit Types (h : HashLruCache).

(** [std::ceil(v * 1.0 / bucket)], which is exact below 2^53. *)
Definition ceil_div (v bucket : Z) : Z := (v + bucket - 1) / bucket.

(** The constructor's parameter [m_elasticity] hides the member of that name,
    which keeps the indeterminate value [garbage].  With no bucket the division
    gives infinity, whose conversion is undefined. *)
Definition new_HashLruCache (garbage bucket max_size elasticity : Z) : outcome HashLruCache :=
  if bucket =? 0 then Crash else
  let pre_max_size := ceil_div max_size bucket in
  let pre_elasticity := ceil_div elasticity bucket in
  Ret (mkHashLruCache (replicate (Z.to_nat bucket) (new_LruCache pre_max_size pre_elasticity))
         (u64 (pre_max_size * bucket)) bucket garbage new_CacheStatus).

(** [m_datas\[m_hash(k) % m_bucket\]->op(k)] *)
Definition on_bucket {A} (k : K) (op : M (LruSt (K := K) (V := V)) A) : M HashLruCache A := fun h =>
  if m_bucket h =? 0 then (Crash, h) else
  let i := Z.to_nat (m_hash k mod m_bucket h) in
  match m_datas h !! i with
  | None => (Crash, h)
  | Some c =>
      let '(r, (c', st')) := op (c, m_status h) in
      (r, mkHashLruCache (<[i := c']> (m_datas h)) (h_maxSize h) (m_bucket h) (h_elasticity h) st')
  end.
Definition hash_set (k : K) (v : V) : M HashLruCache unit := on_bucket k (set k v).
Definition hash_get (k : K) : M HashLruCache (bool * option V) := on_bucket k (get to_bool k).
Definition hash_del (k : K) : M HashLruCache bool := on_bucket k (del k).
Definition hash_exists (k : K) : M HashLruCache bool := on_bucket k (c ← cache; mret (exists_ k c)).

Definition hash_size h : Z := foldl (fun total c => u64 (total + size_ c)) 0 (m_datas h).
Definition hash_empty h : bool := forallb (fun c => empty c) (m_datas h).
Definition hash_clear h : HashLruCache :=
  mkHashLruCache (map (fun c => set_index ∅ [] c) (m_datas h)) (h_maxSize h) (m_bucket h) (h_elasticity h) (m_status h).
Definition hash_getMaxAllowedSize h : Z := u64 (h_maxSize h + h_elasticity h).
Definition hash_setMaxSize (v : Z) h : outcome HashLruCache :=
  if m_bucket h =? 0 then Crash else
  let pre_max_size := ceil_div v (m_bucket h) in
  Ret (mkHashLruCache (map (setMaxSize pre_max_size) (m_datas h)) (u64 (pre_max_size * m_bucket h)) (m_bucket h)
         (h_elasticity h) (m_status h)).
Definition hash_setElasticity (v : Z) h : outcome HashLruCache :=
  if m_bucket h =? 0 then Crash else
  let pre_elasticity := ceil_div v (m_bucket h) in
  Ret (mkHashLruCache (map (setElasticity pre_elasticity) (m_datas h)) (h_maxSize h) (m_bucket h)
         (u64 (pre_elasticity * m_bucket h)) (m_status h)).
Definition hash_setPruneCallback (cb : bool) h : HashLruCache :=
  mkHashLruCache (map (setPruneCallback cb) (m_datas h)) (h_maxSize h) (m_bucket h) (h_elasticity h) (m_status h).

Record hash_wf h : Prop := {
  hw_bucket : 0 < m_bucket h;
  hw_datas : Z.of_nat (length (m_datas h)) = m_bucket h;
  hw_all : Forall lru_wf (m_datas h)
}.
Definition bucket_of h (k : K) : nat := Z.to_nat (m_hash k mod m_bucket h).
(** What the whole cache holds for a key. *)
Definition hash_lookup h (k : K) : option V :=
  match m_datas h !! bucket_of h k with Some c => lookup_ k (abs c) | None => None end.

Lemma bucket_ok h k : hash_wf h -> exists c, m_datas h !! bucket_of h k = Some c /\ lru_wf c.
Proof.
  intros [Hb Hl Ha]. pose proof (Z.mod_pos_bound (m_hash k) (m_bucket h) Hb).
  destruct (lookup_lt_is_Some_2 (m_datas h) (bucket_of h k)) as [c Hc]; [unfold bucket_of; lia|].
  exists c. split; [done|]. by apply (Forall_lookup_1 _ _ _ _ Ha Hc).
Qed.

(** An operation that is right on its bucket is right on the whole. *)
Lemma on_bucket_run {A} h k (op : M (LruSt (K := K) (V := V)) A) (a : A) (P : LruCache -> LruCache -> Prop) :
  hash_wf h ->
  (forall c st, m_datas h !! bucket_of h k = Some c -> lru_wf c ->
     exists c' st', op (c, st) = (Ret a, (c', st')) /\ lru_wf c' /\ P c c') ->
  exists h', on_bucket k op h = (Ret a, h') /\ hash_wf h' /\ m_bucket h' = m_bucket h /\
    (forall j, j <> bucket_of h k -> m_datas h' !! j = m_datas h !! j) /\
    (exists c c', m_datas h !! bucket_of h k = Some c /\ m_datas h' !! bucket_of h k = Some c' /\ P c c').
Proof.
  intros Hwf Hop. destruct (bucket_ok h k Hwf) as (c & Hc & Hwc).
  destruct (Hop c (m_status h) Hc Hwc) as (c' & st' & Hr & Hwc' & HP). destruct Hwf as [Hb Hl Ha].
  unfold on_bucket. destruct (Z.eqb_spec (m_bucket h) 0); [lia|]. fold (bucket_of h k). rewrite Hc, Hr.
  pose proof (lookup_lt_Some _ _ _ Hc) as Hlt.
  eexists. split; [done|]. simpl. split_and!; try done.
  - constructor; simpl; [done|by rewrite length_insert|by apply Forall_insert].
  - intros j Hj. by rewrite list_lookup_insert_ne.
  - exists c, c'. split_and!; [done|by apply list_lookup_insert_eq|done].
Qed.

Lemma lookup_front k v (l : list (K * V)) : lookup_ k ((k, v) :: l) = Some v.
Proof. unfold lookup_. simpl. by rewrite bool_decide_true. Qed.
Lemma lookup_trim_front c k v (l : list (K * V)) : 0 <= m_maxSize c ->
  lookup_ k (trim c ((k, v) :: l)) = Some v.
Proof.
  intros Hm. unfold trim, trims. destruct (m_maxSize c =? 0) eqn:E; simpl; [apply lookup_front|].
  apply Z.eqb_neq in E. destruct (_ <? _); simpl; [apply lookup_front|].
  destruct (Z.to_nat (m_maxSize c)) eqn:En; [lia|]. simpl. apply lookup_front.
Qed.

(** What is stored is found: on a well-formed [HashLruCache], [set k v] keeps
    it well formed and the next [get k] assigns [v] (and returns [v] converted to
    [bool], not [true]); keys of other buckets are untouched; [del k] makes the
    key absent. *)
Theorem hash_set_get h k v :
  hash_wf h ->
  exists h1, hash_set k v h = (Ret tt, h1) /\ hash_wf h1 /\
    (exists h2, hash_get k h1 = (Ret (to_bool v, Some v), h2) /\ hash_wf h2) /\
    (forall k', bucket_of h k' <> bucket_of h k -> hash_lookup h1 k' = hash_lookup h k') /\
    (exists b h3, hash_del k h1 = (Ret b, h3) /\ hash_wf h3 /\ b = true /\ hash_lookup h3 k = None).
Proof.
  intros Hwf.
  destruct (on_bucket_run h k (set k v) tt (fun _ c' => lookup_ k (abs c') = Some v) Hwf)
    as (h1 & Hr & Hwf1 & Hb1 & Hother & (c & c1 & Hc & Hc1 & Hl1)).
  { intros c st _ Hwc. destruct (set_run c st k v Hwc) as (c' & st' & E & Hw & Ha & _).
    exists c', st'. split_and!; try done. rewrite Ha. destruct (lookup_ k (abs c)); [apply lookup_front|].
    apply lookup_trim_front, (lw_max _ Hwc). }
  assert (Hbk : forall k', bucket_of h1 k' = bucket_of h k') by (intros; unfold bucket_of; by rewrite Hb1).
  exists h1. split_and!; [done|done| | |].
  - destruct (on_bucket_run h1 k (get to_bool k) (to_bool v, Some v) (fun _ _ => True) Hwf1) as (h2 & Hr2 & Hwf2 & _).
    { intros c2 st Hc2 Hwc. rewrite Hbk, Hc1 in Hc2. injection Hc2 as <-.
      destruct (get_run to_bool c1 st k Hwc) as (c' & st' & E & Hw & _). rewrite Hl1 in E. by exists c', st'. }
    by exists h2.
  - intros k' Hne. unfold hash_lookup. rewrite Hbk, Hother by done. done.
  - destruct (on_bucket_run h1 k (del k) true (fun _ c' => lookup_ k (abs c') = None) Hwf1)
      as (h3 & Hr3 & Hwf3 & Hb3 & _ & (c2 & c3 & _ & Hc3 & Hl3)).
    { intros c2 st Hc2 Hwc. rewrite Hbk, Hc1 in Hc2. injection Hc2 as <-.
      destruct (del_run c1 st k Hwc) as (c' & st' & E & Hw & Ha & _). rewrite Hl1 in E. exists c', st'.
      split_and!; try done. rewrite Ha. apply lookup_remove. }
    exists true, h3. split_and!; try done. unfold hash_lookup.
    replace (bucket_of h3 k) with (bucket_of h1 k) by (unfold bucket_of; by rewrite Hb3). by rewrite Hc3.
Qed.
End HashLru.

(** ** Witnesses *)
Lemma wf_new_cache {K V} `{Countable K} m e : 0 <= m -> lru_wf (new_LruCache (K := K) (V := V) m e).
Proof.
  intros. constructor; simpl; [constructor|constructor| |constructor|done].
  intros k it. rewrite lookup_empty. split; [done|]. intros [v Hv]. by apply elem_of_nil in Hv.
Qed.
Lemma wf_after_set {K V} `{Countable K} (c : LruCache (K := K) (V := V)) st k v :
  lru_wf c -> lru_wf (fst (snd (set k v (c, st)))).
Proof. intros Hwf. destruct (set_run c st k v Hwf) as (c' & st' & E & Hw & _). by rewrite E. Qed.

(** A full cache of one pair, with a callback. *)
Definition one : LruCache (K := Z) (V := Z) :=
  fst (snd (set 1 10 (setPruneCallback true (new_LruCache 1 1), new_CacheStatus))).
Lemma one_wf : lru_wf one.
Proof. apply wf_after_set. destruct (wf_new_cache (K := Z) (V := Z) 1 1 ltac:(lia)). constructor; done. Qed.

Lemma lru_refines_witness :
  lru_wf one /\ exists c st, get (fun v => negb (v =? 0)) 1 (one, new_CacheStatus) = (Ret (true, Some 10), (c, st)) /\
    abs c = [(1, 10)].
Proof.
  split; [exact one_wf|].
  destruct (lru_refines (fun v => negb (v =? 0)) one new_CacheStatus 1 0 one_wf) as (_ & (c & st & E & _ & Ha) & _).
  exists c, st. split; [exact E|exact Ha].
Defined.

Lemma lru_bound_witness :
  exists c st, set 2 20 (one, new_CacheStatus) = (Ret tt, (c, st)) /\ abs c = [(2, 20)] /\
    m_pruned c = [(1, 10)].
Proof.
  destruct (lru_bound one new_CacheStatus 2 20 one_wf) as (c & st & E & _ & Ha & Hp);
    [reflexivity|discriminate|reflexivity|discriminate|reflexivity|].
  exists c, st. split_and!; [exact E|exact Ha|exact Hp].
Defined.

Definition two_buckets : HashLruCache (K := Z) (V := Z) :=
  mkHashLruCache [new_LruCache 1 0; new_LruCache 1 0] 2 2 0 new_CacheStatus.
Lemma hash_set_get_witness :
  exists h1 h2, hash_set (fun k => k) 5 0 two_buckets = (Ret tt, h1) /\
    hash_get (fun v => negb (v =? 0)) (fun k => k) 5 h1 = (Ret (false, Some 0), h2).
Proof.
  destruct (hash_set_get (fun v => negb (v =? 0)) (fun k => k) two_buckets 5 0) as (h1 & E1 & _ & (h2 & E2 & _) & _).
  - constructor; [done|done|]. repeat constructor; apply wf_new_cache; lia.
  - exists h1, h2. split; [exact E1|exact E2].
Defined.
