(* ===== verification/TimerManager.v ===== *)
(** * Timers (cxk/timer.h, cxk/timer.cpp)

    [Timer] objects live in a heap indexed by their address; the manager's
    [std::set] is the list of the addresses in the order of [Comparetor] (due
    time, then address).  The clock is an argument of the operations that read
    it, and the address [new] returns one of [addTimer].  Erasing the end
    iterator and dereferencing the begin iterator of an empty set are [Crash]. *)
From Stdlib Require Import Sorting.Sorted.
From S2P Require Import Prelude.

(** A callback: a user function, or one bound to a condition by
    [addConditionTimer]. *)
Inductive callback : Type :=
| Cb (f : nat)
| OnTimer (weak_cond : nat) (cb : callback).

(** Calling it, with the conditions that are still alive: the user functions
    called. *)
Fixpoint onTimer (alive : nat -> bool) (cb : callback) : list nat :=
  match cb with
  | Cb f => [f]
  | OnTimer c cb => if alive c then onTimer alive cb else []
  end.

Record Timer := mkTimer { m_recurring : bool; m_ms : Z; m_next : Z; m_callback : option callback }.

(** [m_notified] counts the calls of [onTimerInsertedAtFront]. *)
Record TimerManager := mkTM {
  m_heap : gmap nat Timer;
  m_timers : list nat;
  m_tickled : bool;
  m_previousTime : Z;
  m_notified : nat
}.
Definition set_heap (v : gmap nat Timer) (s : TimerManager) : TimerManager :=
  mkTM v (m_timers s) (m_tickled s) (m_previousTime s) (m_notified s).
Definition set_timers (v : list nat) (s : TimerManager) : TimerManager :=
  mkTM (m_heap s) v (m_tickled s) (m_previousTime s) (m_notified s).
Definition set_tickled (v : bool) (s : TimerManager) : TimerManager :=
  mkTM (m_heap s) (m_timers s) v (m_previousTime s) (m_notified s).
Definition set_previousTime (v : Z) (s : TimerManager) : TimerManager :=
  mkTM (m_heap s) (m_timers s) (m_tickled s) v (m_notified s).
Definition notify (s : TimerManager) : TimerManager :=
  mkTM (m_heap s) (m_timers s) (m_tickled s) (m_previousTime s) (S (m_notified s)).

Definition with_next (v : Z) (t : Timer) : Timer := mkTimer (m_recurring t) (m_ms t) v (m_callback t).
Definition with_ms (v : Z) (t : Timer) : Timer := mkTimer (m_recurring t) v (m_next t) (m_callback t).
Definition with_callback (v : option callback) (t : Timer) : Timer := mkTimer (m_recurring t) (m_ms t) (m_next t) v.

(** ** The ordered set *)
Definition next_of (h : gmap nat Timer) (a : nat) : Z := match h !! a with Some t => m_next t | None => 0 end.
(** [Comparetor] on two non-null pointers *)
Definition Comparetor (h : gmap nat Timer) (l r : nat) : bool :=
  if next_of h l <? next_of h r then true
  else if next_of h r <? next_of h l then false
  else (l <? r)%nat.

Fixpoint set_insert (h : gmap nat Timer) (x : nat) (l : list nat) : list nat :=
  match l with
  | [] => [x]
  | y :: l' =>
      if Comparetor h x y then x :: l
      else if Comparetor h y x then y :: set_insert h x l' else l
  end.
(** [find] and [erase] of what it found; [None]: [find] returned [end()]. *)
Fixpoint set_erase (h : gmap nat Timer) (x : nat) (l : list nat) : option (list nat) :=
  match l with
  | [] => None
  | y :: l' =>
      if Comparetor h y x then cons y <$> set_erase h x l'
      else if Comparetor h x y then None else Some l'
  end.

Definition the_timer (a : nat) : M TimerManager Timer := fun s =>
  match m_heap s !! a with Some t => (Ret t, s) | None => (Crash, s) end.
Definition update_timer (a : nat) (f : Timer -> Timer) : M TimerManager unit :=
  modify (fun s => set_heap (alter f a (m_heap s)) s).

(** ** Adding *)

(** [addTimer(Timer::ptr, WriteLock&)] *)
Definition addTimer_locked (val : nat) : M TimerManager unit :=
  modify (fun s => set_timers (set_insert (m_heap s) val (m_timers s)) s) ;;
  s ← get;
  let at_front := bool_decide (head (m_timers s) = Some val) && negb (m_tickled s) in
  (if at_front then modify (set_tickled true) else mret tt) ;;
  (if at_front then modify notify else mret tt).

Definition addTimer (addr : nat) (now ms : Z) (cb : option callback) (recurring : bool) : M TimerManager nat :=
  modify (fun s => set_heap (<[addr := mkTimer recurring ms (u64 (now + ms)) cb]> (m_heap s)) s) ;;
  addTimer_locked addr ;;
  mret addr.
Definition addConditionTimer (addr : nat) (now ms : Z) (cb : callback) (weak_cond : nat) (recurring : bool) :
    M TimerManager nat :=
  addTimer addr now ms (Some (OnTimer weak_cond cb)) recurring.

(** ** Operations of a timer *)
Definition cancel (a : nat) : M TimerManager bool :=
  t ← the_timer a;
  match m_callback t with
  | None => mret false
  | Some _ =>
      update_timer a (with_callback None) ;;
      s ← get;
      match set_erase (m_heap s) a (m_timers s) with
      | None => crash
      | Some l => modify (set_timers l) ;; mret true
      end
  end.

Definition refresh (a : nat) (now : Z) : M TimerManager bool :=
  t ← the_timer a;
  match m_callback t with
  | None => mret false
  | Some _ =>
      s ← get;
      match set_erase (m_heap s) a (m_timers s) with
      | None => mret false
      | Some l =>
          modify (set_timers l) ;;
          update_timer a (fun t => with_next (u64 (now + m_ms t)) t) ;;
          modify (fun s => set_timers (set_insert (m_heap s) a (m_timers s)) s) ;;
          mret true
      end
  end.

Definition reset (a : nat) (ms : Z) (from_now : bool) (now : Z) : M TimerManager bool :=
  t ← the_timer a;
  if (ms =? m_ms t) && negb from_now then mret true else
  match m_callback t with
  | None => mret false
  | Some _ =>
      s ← get;
      match set_erase (m_heap s) a (m_timers s) with
      | None => mret false
      | Some l =>
          modify (set_timers l) ;;
          let start := if from_now then now else u64 (m_next t - m_ms t) in
          update_timer a (with_ms ms) ;;
          update_timer a (with_next (u64 (start + ms))) ;;
          addTimer_locked a ;;
          mret true
      end
  end.

(** ** The manager *)
Definition hasTimer (s : TimerManager) : bool := match m_timers s with [] => false | _ => true end.

Definition getNextTimer (now : Z) : M TimerManager Z :=
  modify (set_tickled false) ;;
  s ← get;
  match m_timers s with
  | [] => mret (2 ^ 64 - 1)
  | a :: _ =>
      t ← the_timer a;
      if m_next t <=? now then mret 0 else mret (m_next t - now)
  end.

Definition detectClockRollover (now : Z) : M TimerManager bool :=
  s ← get;
  let rollover := (now <? m_previousTime s) && (now <? u64 (m_previousTime s - 60 * 60 * 1000)) in
  modify (set_previousTime now) ;;
  mret rollover.

(** [lower_bound(now_timer)] for a new timer at [addr], then the loop past the
    timers due now: the timers before the iterator and those from it on. *)
Fixpoint lower_bound (h : gmap nat Timer) (now : Z) (addr : nat) (l : list nat) : list nat * list nat :=
  match l with
  | [] => ([], [])
  | y :: l' =>
      if (next_of h y <? now) || ((next_of h y =? now) && (y <? addr)%nat)
      then let '(a, b) := lower_bound h now addr l' in (y :: a, b)
      else ([], l)
  end.
Fixpoint skip_now (h : gmap nat Timer) (now : Z) (l : list nat) : list nat * list nat :=
  match l with
  | [] => ([], [])
  | y :: l' => if next_of h y =? now then let '(a, b) := skip_now h now l' in (y :: a, b) else ([], l)
  end.

(** The loop over the expired timers. *)
Fixpoint expire_loop (now : Z) (expired : list nat) (cbs : list (option callback)) :
    M TimerManager (list (option callback)) :=
  match expired with
  | [] => mret cbs
  | a :: expired' =>
      t ← the_timer a;
      (if m_recurring t then
         update_timer a (with_next (u64 (now + m_ms t))) ;;
         modify (fun s => set_timers (set_insert (m_heap s) a (m_timers s)) s)
       else update_timer a (with_callback None)) ;;
      expire_loop now expired' (cbs ++ [m_callback t])
  end.

(** [listExpiredCb] reads the clock, looks under the read lock whether there is a
    timer, gives the lock back, and works under the write lock: two atomic
    steps, between which other threads may run. *)
Definition listExpired_check : M TimerManager bool := gets hasTimer.
Definition listExpired_body (now : Z) (addr : nat) : M TimerManager (list (option callback)) :=
  rollover ← detectClockRollover now;
  s ← get;
  due ← (if (rollover : bool) then mret true else
         match m_timers s with
         | [] => crash
         | a :: _ => mret (next_of (m_heap s) a <=? now)
         end);
  if negb due then mret [] else
  let '(before, from) :=
    if (rollover : bool) then (m_timers s, []) else lower_bound (m_heap s) now addr (m_timers s) in
  let '(skipped, rest) := skip_now (m_heap s) now from in
  modify (set_timers rest) ;;
  expire_loop now (before ++ skipped) [].
Definition listExpiredCb (now : Z) (addr : nat) : M TimerManager (list (option callback)) :=
  b ← listExpired_check;
  if (b : bool) then listExpired_body now addr else mret [].

(** ** The order of the set *)
Definition lt_timer (h : gmap nat Timer) (a b : nat) : Prop := Comparetor h a b = true.

Lemma lt_timer_iff h a b :
  lt_timer h a b <-> next_of h a < next_of h b \/ (next_of h a = next_of h b /\ (a < b)%nat).
Proof.
  unfold lt_timer, Comparetor. zcase; [split; [lia|done]|]. zcase; [split; [done|lia]|].
  rewrite Nat.ltb_lt. lia.
Qed.
Lemma lt_timer_trans h a b c : lt_timer h a b -> lt_timer h b c -> lt_timer h a c.
Proof. rewrite !lt_timer_iff. lia. Qed.
Lemma lt_timer_irrefl h a : ~ lt_timer h a a.
Proof. rewrite lt_timer_iff. lia. Qed.
Lemma lt_timer_total h a b : a <> b -> lt_timer h a b \/ lt_timer h b a.
Proof. rewrite !lt_timer_iff. lia. Qed.
Lemma Comparetor_false h a b : Comparetor h a b = false <-> ~ lt_timer h a b.
Proof. unfold lt_timer. by destruct (Comparetor h a b). Qed.

Definition sorted (h : gmap nat Timer) (l : list nat) : Prop := StronglySorted (lt_timer h) l.

Lemma sorted_inv h x l : sorted h (x :: l) <-> (forall y, y ∈ l -> lt_timer h x y) /\ sorted h l.
Proof.
  unfold sorted. split.
  - intros Hs. apply StronglySorted_inv in Hs as [Hl Hx]. rewrite list.Forall_forall in Hx. done.
  - intros [Hx Hl]. constructor; [done|]. by rewrite list.Forall_forall.
Qed.
Lemma sorted_ext h h' l : (forall a, a ∈ l -> next_of h' a = next_of h a) -> sorted h l -> sorted h' l.
Proof.
  induction l as [|x l IH]; intros He Hs; [constructor|]. apply sorted_inv in Hs as [Hx Hl].
  apply sorted_inv. split.
  - intros y Hy. specialize (Hx y Hy). rewrite lt_timer_iff in *. rewrite !He; [done|by right|by left].
  - apply IH; [|done]. intros a Ha. apply He. by right.
Qed.
Lemma sorted_filter h (P : nat -> Prop) `{forall x, Decision (P x)} l : sorted h l -> sorted h (filter P l).
Proof.
  induction l as [|x l IH]; intros Hs; [done|]. apply sorted_inv in Hs as [Hx Hl]. rewrite list.filter_cons.
  destruct (decide (P x)); [|auto]. apply sorted_inv. split; [|auto].
  intros y Hy. apply list_elem_of_filter in Hy as [_ Hy]. auto.
Qed.
Lemma sorted_NoDup h l : sorted h l -> NoDup l.
Proof.
  induction l as [|x l IH]; intros Hs; [constructor|]. apply sorted_inv in Hs as [Hx Hl].
  constructor; [|auto]. intros Hi. by apply (lt_timer_irrefl h x), Hx.
Qed.

Lemma set_insert_spec h x l : sorted h l ->
  sorted h (set_insert h x l) /\ (forall y, y ∈ set_insert h x l <-> y = x \/ y ∈ l).
Proof.
  induction l as [|z l IH]; intros Hs; simpl.
  - split; [by apply sorted_inv; split; [intros y Hy; by apply elem_of_nil in Hy|constructor]|].
    intros y. rewrite list_elem_of_singleton, elem_of_nil. tauto.
  - apply sorted_inv in Hs as [Hz Hl]. destruct (IH Hl) as [Hsi Hin].
    destruct (Comparetor h x z) eqn:Exz; [|destruct (Comparetor h z x) eqn:Ezx].
    + split; [|intros y; rewrite !elem_of_cons; tauto].
      apply sorted_inv. split; [|by apply sorted_inv]. intros y Hy. apply elem_of_cons in Hy as [->|Hy]; [done|].
      by eapply lt_timer_trans, Hz.
    + split.
      * apply sorted_inv. split; [|done]. intros y Hy. apply Hin in Hy as [->|Hy]; [done|by apply Hz].
      * intros y. rewrite !elem_of_cons, Hin. tauto.
    + assert (x = z) as ->.
      { apply Comparetor_false in Exz, Ezx. destruct (decide (x = z)) as [|Hne]; [done|].
        destruct (lt_timer_total h x z Hne); tauto. }
      split; [by apply sorted_inv|]. intros y. rewrite !elem_of_cons. tauto.
Qed.

Lemma set_erase_spec h x l : sorted h l ->
  set_erase h x l = if decide (x ∈ l) then Some (filter (fun y => y <> x) l) else None.
Proof.
  induction l as [|z l IH]; intros Hs; simpl; [done|].
  apply sorted_inv in Hs as [Hz Hl]. rewrite IH by done.
  destruct (decide (x = z)) as [->|Hne].
  - assert (E : Comparetor h z z = false) by apply Comparetor_false, lt_timer_irrefl. rewrite E.
    rewrite decide_True by left. f_equal. rewrite list.filter_cons_False by tauto.
    symmetry. apply list_filter_true. intros y Hy ->. by apply (lt_timer_irrefl h z), Hz.
  - destruct (Comparetor h z x) eqn:Ezx.
    + destruct (decide (x ∈ l)) as [Hi|Hi].
      * rewrite decide_True by (by right). simpl. by rewrite list.filter_cons_True by done.
      * rewrite decide_False; [done|]. by rewrite elem_of_cons; intros [|].
    + apply Comparetor_false in Ezx. destruct (lt_timer_total h x z Hne) as [Hlt|]; [|tauto].
      unfold lt_timer in Hlt. rewrite Hlt, decide_False; [done|].
      rewrite elem_of_cons. intros [|Hi]; [done|]. by apply Ezx, Hz.
Qed.

(** The iterator of [listExpiredCb] splits the set at the current time. *)
Lemma skip_now_spec h now l : sorted h l -> (forall y, y ∈ l -> now <= next_of h y) ->
  skip_now h now l = (filter (fun y => next_of h y <= now) l, filter (fun y => now < next_of h y) l).
Proof.
  induction l as [|z l IH]; intros Hs Hge; [done|]. apply sorted_inv in Hs as [Hz Hl]. simpl.
  pose proof (Hge z ltac:(by left)). rewrite !list.filter_cons. zcase.
  - rewrite IH by (done || (intros; apply Hge; by right)).
    rewrite decide_True, decide_False by lia. done.
  - rewrite decide_False, decide_True by lia. f_equal; [|f_equal].
    + symmetry. apply list_filter_none. intros y Hy Hle. specialize (Hz y Hy). rewrite lt_timer_iff in Hz. lia.
    + symmetry. apply list_filter_true. intros y Hy. specialize (Hz y Hy). rewrite lt_timer_iff in Hz. lia.
Qed.
Lemma lower_bound_spec h now addr l a b c d : sorted h l ->
  lower_bound h now addr l = (a, b) -> skip_now h now b = (c, d) ->
  a ++ c = filter (fun y => next_of h y <= now) l /\ d = filter (fun y => now < next_of h y) l.
Proof.
  revert a b. induction l as [|z l IH]; intros a b Hs Hlb Hsk; simpl in Hlb.
  { injection Hlb as <- <-. by injection Hsk as <- <-. }
  pose proof Hs as Hs'. apply sorted_inv in Hs' as [Hz Hl]. destruct (_ || _) eqn:E.
  - destruct (lower_bound h now addr l) as [a' b'] eqn:El. injection Hlb as <- <-.
    destruct (IH a' b' Hl eq_refl Hsk) as [H1 H2].
    apply orb_true_iff in E. rewrite andb_true_iff, Z.ltb_lt, Z.eqb_eq in E. rewrite !list.filter_cons.
    rewrite decide_True, decide_False by lia. simpl. by rewrite H1, H2.
  - injection Hlb as <- <-.
    apply orb_false_iff in E as [E _]. apply Z.ltb_ge in E.
    rewrite skip_now_spec in Hsk; [by injection Hsk as <- <-|done|].
    intros y Hy. apply elem_of_cons in Hy as [->|Hy]; [done|]. specialize (Hz y Hy). rewrite lt_timer_iff in Hz. lia.
Qed.

(** ** The invariant

    The set is in order and holds live timers, and every timer that still has a
    callback is in it (so [cancel] never erases the end iterator). *)
Record tm_wf (s : TimerManager) : Prop := {
  tw_sorted : sorted (m_heap s) (m_timers s);
  tw_live : forall a, a ∈ m_timers s -> is_Some (m_heap s !! a);
  tw_armed : forall a t, m_heap s !! a = Some t -> m_callback t <> None -> a ∈ m_timers s
}.

Lemma next_alter_ne h f a b : a <> b -> next_of (alter f a h) b = next_of h b.
Proof. intros. unfold next_of. by rewrite lookup_alter_ne. Qed.
Lemma next_insert_ne h t a b : a <> b -> next_of (<[a := t]> h) b = next_of h b.
Proof. intros. unfold next_of. by rewrite lookup_insert_ne. Qed.
Lemma next_alter_same h f a b : (forall t, m_next (f t) = m_next t) -> next_of (alter f a h) b = next_of h b.
Proof.
  intros Hf. unfold next_of. destruct (decide (a = b)) as [<-|]; [|by rewrite lookup_alter_ne].
  rewrite lookup_alter_eq. destruct (h !! a); simpl; auto.
Qed.

(** The timers and the heap after [addTimer_locked]. *)
Lemma addTimer_locked_run a s :
  exists tk n, addTimer_locked a s =
    (Ret tt, mkTM (m_heap s) (set_insert (m_heap s) a (m_timers s)) tk (m_previousTime s) n) /\
    (n = S (m_notified s) <-> head (set_insert (m_heap s) a (m_timers s)) = Some a /\ m_tickled s = false) /\
    (n = m_notified s \/ n = S (m_notified s)).
Proof.
  unfold addTimer_locked. msimpl. simpl.
  destruct (bool_decide _) eqn:E; [apply bool_decide_eq_true in E|apply bool_decide_eq_false in E];
    destruct (m_tickled s) eqn:Et; simpl; eexists _, _; (split; [done|]); rewrite ?Et; simpl; split; try lia; split;
    try (intros; split; done || lia); try (intros [? ?]; done || lia); intros Hx; simpl in Hx; lia.
Qed.

(** Putting a timer in, with a new due time. *)
Lemma wf_insert h a t l tk p n :
  sorted h l -> a ∉ l -> (forall b, b ∈ l -> is_Some (h !! b)) ->
  (forall b u, b <> a -> h !! b = Some u -> m_callback u <> None -> b ∈ l) ->
  tm_wf (mkTM (<[a := t]> h) (set_insert (<[a := t]> h) a l) tk p n).
Proof.
  intros Hs Ha Hlive Harm.
  assert (Hs' : sorted (<[a := t]> h) l).
  { eapply sorted_ext; [|exact Hs]. intros b Hb. apply next_insert_ne. intros ->. done. }
  destruct (set_insert_spec (<[a := t]> h) a l Hs') as [Hsi Hin]. constructor; simpl; [done| |].
  - intros b Hb. apply Hin in Hb as [->|Hb]; [rewrite lookup_insert_eq; eauto|].
    rewrite lookup_insert_ne; [auto|]. intros ->. done.
  - intros b u Hb Hc. apply Hin. destruct (decide (b = a)) as [->|Hne]; [by left|right].
    rewrite lookup_insert_ne in Hb by done. eauto.
Qed.

(** [new Timer] returns an address no live timer has. *)
Lemma addTimer_run addr now ms cb recurring s :
  tm_wf s -> m_heap s !! addr = None ->
  exists s', addTimer addr now ms cb recurring s = (Ret addr, s') /\ tm_wf s' /\
    m_heap s' = <[addr := mkTimer recurring ms (u64 (now + ms)) cb]> (m_heap s) /\
    (forall a, a ∈ m_timers s' <-> a = addr \/ a ∈ m_timers s) /\
    (m_notified s' = S (m_notified s) <-> head (m_timers s') = Some addr /\ m_tickled s = false).
Proof.
  intros [Hs Hlive Harm] Hfresh. unfold addTimer.
  set (s1 := set_heap (<[addr := mkTimer recurring ms (u64 (now + ms)) cb]> (m_heap s)) s).
  destruct (addTimer_locked_run addr s1) as (tk & n & Hr & Hn & _).
  rewrite bind_modify. fold s1. mstep Hr.
  assert (Hnot : addr ∉ m_timers s) by (intros Hi; destruct (Hlive _ Hi); congruence).
  eexists. split; [done|]. simpl. split_and!; [|done| |exact Hn].
  - apply wf_insert; try done. intros b u _. apply Harm.
  - apply set_insert_spec. eapply sorted_ext; [|exact Hs]. intros b Hb. apply next_insert_ne. intros ->. done.
Qed.

(** Taking a live timer out. *)
Lemma erase_live s a : tm_wf s -> a ∈ m_timers s ->
  set_erase (m_heap s) a (m_timers s) = Some (filter (fun y => y <> a) (m_timers s)).
Proof. intros Hwf Ha. rewrite set_erase_spec by apply (tw_sorted _ Hwf). by rewrite decide_True. Qed.

Lemma cancel_run a t s :
  tm_wf s -> m_heap s !! a = Some t ->
  exists b s', cancel a s = (Ret b, s') /\ tm_wf s' /\
    (b = true <-> m_callback t <> None) /\
    (b = true -> (a ∉ m_timers s') /\ m_heap s' = alter (with_callback None) a (m_heap s)) /\ (b = false -> s' = s) /\
    (forall c, c <> a -> c ∈ m_timers s' <-> c ∈ m_timers s).
Proof.
  intros Hwf Ha. unfold cancel, the_timer. msimpl. rewrite Ha.
  destruct (m_callback t) as [cb|] eqn:Ec; [|exists false, s; by split_and!].
  assert (Hi : a ∈ m_timers s) by (eapply (tw_armed _ Hwf); [done|congruence]).
  simpl. set (h := alter (with_callback None) a (m_heap s)).
  assert (Hsh : sorted h (m_timers s)).
  { eapply sorted_ext; [|apply (tw_sorted _ Hwf)]. intros b _. by apply next_alter_same. }
  rewrite set_erase_spec by done. rewrite decide_True by done.
  eexists true, _. split; [done|]. simpl. split_and!; try done.
  - constructor; simpl.
    + by apply sorted_filter.
    + intros b Hb. apply list_elem_of_filter in Hb as [Hne Hb]. unfold h. rewrite lookup_alter_ne by done.
      by apply (tw_live _ Hwf).
    + intros b u Hb Hc. apply list_elem_of_filter. destruct (decide (b = a)) as [->|Hne].
      * unfold h in Hb. rewrite lookup_alter_eq, Ha in Hb. by injection Hb as <-.
      * unfold h in Hb. rewrite lookup_alter_ne in Hb by done. split; [done|]. by eapply (tw_armed _ Hwf).
  - intros _. split; [|done]. intros Hb. by apply list_elem_of_filter in Hb as [? _].
  - intros c Hc. rewrite list_elem_of_filter. tauto.
Qed.

(** [refresh] and [reset] re-insert with a new due time. *)
Lemma wf_reinsert s a t t' tk p n : tm_wf s -> m_heap s !! a = Some t ->
  tm_wf (mkTM (<[a := t']> (m_heap s))
    (set_insert (<[a := t']> (m_heap s)) a (filter (fun y => y <> a) (m_timers s))) tk p n).
Proof.
  intros Hwf Ha. apply wf_insert.
  - apply sorted_filter, (tw_sorted _ Hwf).
  - intros Hi. by apply list_elem_of_filter in Hi as [? _].
  - intros b Hb. apply list_elem_of_filter in Hb as [_ Hb]. by apply (tw_live _ Hwf).
  - intros b u Hne Hb Hc. apply list_elem_of_filter. split; [done|]. by eapply (tw_armed _ Hwf).
Qed.
Lemma refresh_run a t now s : tm_wf s -> m_heap s !! a = Some t ->
  exists b s', refresh a now s = (Ret b, s') /\ tm_wf s' /\
    (b = true <-> m_callback t <> None) /\ (b = false -> s' = s) /\
    (b = true -> m_heap s' = <[a := with_next (u64 (now + m_ms t)) t]> (m_heap s)).
Proof.
  intros Hwf Ha. unfold refresh, the_timer. msimpl. rewrite Ha.
  destruct (m_callback t) as [cb|] eqn:Ec; [|exists false, s; by split_and!].
  rewrite erase_live by (done || (eapply (tw_armed _ Hwf); [done|congruence])).
  unfold update_timer. msimpl. simpl.
  rewrite (alter_insert_lookup _ _ _ _ Ha). eexists true, _. split; [done|]. split_and!; try done.
  by eapply wf_reinsert.
Qed.
Lemma reset_run a t ms from_now now s : tm_wf s -> m_heap s !! a = Some t ->
  exists b s', reset a ms from_now now s = (Ret b, s') /\ tm_wf s' /\
    (m_callback t <> None -> b = true) /\
    (m_callback t = None -> b = ((ms =? m_ms t) && negb from_now) /\ s' = s) /\
    (m_callback t <> None -> (ms =? m_ms t) && negb from_now = false ->
       m_heap s' = <[a := with_next (u64 ((if from_now then now else u64 (m_next t - m_ms t)) + ms)) (with_ms ms t)]> (m_heap s)).
Proof.
  intros Hwf Ha. unfold reset, the_timer. rewrite (bind_Ret _ _ s t s) by (by rewrite Ha).
  destruct ((ms =? m_ms t) && negb from_now) eqn:Em; [exists true, s; by split_and!|].
  destruct (m_callback t) as [cb|] eqn:Ec; [|exists false, s; by split_and!].
  rewrite bind_get.
  rewrite erase_live by (done || (eapply (tw_armed _ Hwf); [done|congruence])).
  unfold update_timer. rewrite bind_modify. cbv zeta. rewrite !bind_modify. simpl.
  set (start := if from_now then now else _).
  destruct (addTimer_locked_run a (set_heap (alter (with_next (u64 (start + ms))) a (alter (with_ms ms) a (m_heap s)))
    (set_heap (alter (with_ms ms) a (m_heap s)) (set_timers (filter (fun y => y <> a) (m_timers s)) s))))
    as (tk & n & Hr & _). mstep Hr. simpl.
  rewrite (alter_insert_lookup _ _ _ _ Ha).
  rewrite (alter_insert_lookup _ _ _ (with_ms ms t)) by apply lookup_insert_eq. rewrite insert_insert_eq.
  eexists true, _. split; [done|]. split_and!; try done. by eapply wf_reinsert.
Qed.

(** ** Expiry *)

(** What happens to an expired timer. *)
Definition fire (now : Z) (t : Timer) : Timer :=
  if m_recurring t then with_next (u64 (now + m_ms t)) t else with_callback None t.

Lemma expire_loop_run now expired cbs s :
  NoDup expired -> (forall a, a ∈ expired -> is_Some (m_heap s !! a)) -> (forall a, a ∈ expired -> a ∉ m_timers s) ->
  sorted (m_heap s) (m_timers s) ->
  exists s', expire_loop now expired cbs s =
      (Ret (cbs ++ map (fun a => match m_heap s !! a with Some t => m_callback t | None => None end) expired), s') /\
    sorted (m_heap s') (m_timers s') /\
    (forall a, m_heap s' !! a = if decide (a ∈ expired) then fire now <$> m_heap s !! a else m_heap s !! a) /\
    (forall a, a ∈ m_timers s' <-> a ∈ m_timers s \/
       (a ∈ expired /\ exists t, m_heap s !! a = Some t /\ m_recurring t = true)).
Proof.
  revert cbs s. induction expired as [|a expired IH]; intros cbs s Hnd Hlive Hout Hs.
  { exists s. simpl. rewrite app_nil_r. split_and!; try done. intros b. rewrite elem_of_nil. tauto. }
  apply list.NoDup_cons in Hnd as [Ha Hnd]. destruct (Hlive a ltac:(left)) as [t Ht].
  assert (Hat : a ∉ m_timers s) by (apply Hout; left).
  set (s1 := mkTM (<[a := fire now t]> (m_heap s))
    (if m_recurring t then set_insert (<[a := fire now t]> (m_heap s)) a (m_timers s) else m_timers s)
    (m_tickled s) (m_previousTime s) (m_notified s)).
  assert (Hs1 : sorted (<[a := fire now t]> (m_heap s)) (m_timers s)).
  { eapply sorted_ext; [|exact Hs]. intros b Hb. apply next_insert_ne. intros ->. done. }
  destruct (set_insert_spec _ a _ Hs1) as [Hsi Hin].
  assert (Hrun : expire_loop now (a :: expired) cbs s = expire_loop now expired (cbs ++ [m_callback t]) s1).
  { cbn [expire_loop]. unfold the_timer. rewrite (bind_Ret _ _ s t s) by (by rewrite Ht).
    unfold s1, update_timer, fire. destruct (m_recurring t); msimpl; simpl;
      by rewrite (alter_insert_lookup _ _ _ _ Ht). }
  destruct (IH (cbs ++ [m_callback t]) s1 Hnd) as (s' & Hr & Hs' & Hheap & Htim).
  - intros b Hb. simpl. rewrite lookup_insert_ne by congruence. apply Hlive. by right.
  - intros b Hb Hi. unfold s1 in Hi. simpl in Hi. assert (b ∈ m_timers s).
    { destruct (m_recurring t); [|done]. apply Hin in Hi as [->|]; done. }
    by apply (Hout b); [right|].
  - simpl. destruct (m_recurring t); done.
  - exists s'. rewrite Hrun, Hr. split_and!; [|done| |].
    + f_equal. f_equal. rewrite <- app_assoc. f_equal. simpl. rewrite Ht. f_equal.
      apply map_ext_in. intros b Hb%list_elem_of_In. rewrite lookup_insert_ne by congruence. done.
    + intros b. rewrite Hheap. simpl. destruct (decide (b = a)) as [->|Hne].
      * rewrite decide_False by done. rewrite decide_True by left. rewrite lookup_insert_eq, Ht. done.
      * rewrite lookup_insert_ne by done.
        destruct (decide (b ∈ expired)); [rewrite decide_True by (by right); done|].
        rewrite decide_False; [done|]. by rewrite elem_of_cons; intros [|].
    + intros b. rewrite Htim. unfold s1. simpl. destruct (decide (b = a)) as [->|Hne].
      * rewrite elem_of_cons. split.
        -- intros [Hi|[Hi _]]; [|done]. right. split; [by left|]. exists t. split; [done|].
           by destruct (m_recurring t).
        -- intros [Hi|[_ (u & Hu & Hrec)]]; [done|]. left. rewrite Ht in Hu. injection Hu as <-. rewrite Hrec.
           apply Hin. by left.
      * rewrite lookup_insert_ne by done. rewrite elem_of_cons.
        destruct (m_recurring t); [rewrite Hin|]; tauto.
Qed.

Definition rolled_over (s : TimerManager) (now : Z) : bool :=
  (now <? m_previousTime s) && (now <? u64 (m_previousTime s - 60 * 60 * 1000)).
(** The timers whose callbacks are due: all of them when the clock was set back
    by more than an hour. *)
Definition due_timers (s : TimerManager) (now : Z) : list nat :=
  if rolled_over s now then m_timers s else filter (fun a => next_of (m_heap s) a <= now) (m_timers s).

Lemma sorted_none_due h now a l : sorted h (a :: l) -> now < next_of h a ->
  filter (fun y => next_of h y <= now) (a :: l) = [].
Proof.
  intros Hs Hn. apply sorted_inv in Hs as [Ha _]. apply list_filter_none. intros y Hy Hle.
  apply elem_of_cons in Hy as [->|Hy]; [lia|]. specialize (Ha y Hy). rewrite lt_timer_iff in Ha. lia.
Qed.

(** The body after the split into expired timers and the rest. *)
Lemma expire_split s now addr :
  tm_wf s -> (m_timers s <> []) ->
  exists before from skipped rest,
    (if rolled_over s now then (m_timers s, []) else lower_bound (m_heap s) now addr (m_timers s)) = (before, from) /\
    skip_now (m_heap s) now from = (skipped, rest) /\
    before ++ skipped = due_timers s now /\
    (forall a, a ∈ m_timers s <-> a ∈ due_timers s now \/ a ∈ rest) /\
    (forall a, a ∈ due_timers s now -> a ∉ rest) /\ sorted (m_heap s) rest /\
    NoDup (due_timers s now).
Proof.
  intros Hwf Hne. pose proof (tw_sorted _ Hwf) as Hs. unfold due_timers.
  destruct (rolled_over s now).
  - eexists (m_timers s), [], [], []. split_and!; try done.
    + by rewrite app_nil_r.
    + intros a. rewrite elem_of_nil. tauto.
    + intros a _. by apply not_elem_of_nil.
    + constructor.
    + by eapply sorted_NoDup.
  - destruct (lower_bound (m_heap s) now addr (m_timers s)) as [b f] eqn:El.
    destruct (skip_now (m_heap s) now f) as [c d] eqn:Ek.
    destruct (lower_bound_spec _ _ _ _ _ _ _ _ Hs El Ek) as [H1 H2].
    exists b, f, c, d. split_and!; try done.
    + intros a. rewrite H2, !list_elem_of_filter. destruct (Z.le_gt_cases (next_of (m_heap s) a) now); intuition lia.
    + intros a Ha Hd. rewrite H2 in Hd. apply list_elem_of_filter in Ha as [? _], Hd as [? _]. lia.
    + rewrite H2. by apply sorted_filter.
    + apply list.NoDup_filter. by eapply sorted_NoDup.
Qed.

Lemma listExpired_body_run s now addr :
  tm_wf s -> m_timers s <> [] ->
  exists s', listExpired_body now addr s =
      (Ret (map (fun a => match m_heap s !! a with Some t => m_callback t | None => None end) (due_timers s now)), s') /\
    tm_wf s' /\
    (forall a, m_heap s' !! a = if decide (a ∈ due_timers s now) then fire now <$> m_heap s !! a else m_heap s !! a).
Proof.
  intros Hwf Hne. unfold listExpired_body.
  destruct (expire_split s now addr Hwf Hne) as (before & from & skipped & rest & E1 & E2 & E3 & Hpart & Hdis & Hsr & Hnd).
  assert (Hro : detectClockRollover now s = (Ret (rolled_over s now), set_previousTime now s)) by done.
  mstep Hro. rewrite bind_get. simpl.
  destruct (m_timers s) as [|a0 l0] eqn:El; [done|].
  assert (Hdue : (if rolled_over s now then mret true else mret (next_of (m_heap s) a0 <=? now) : M TimerManager bool)
    (set_previousTime now s) =
    (Ret (rolled_over s now || (next_of (m_heap s) a0 <=? now)), set_previousTime now s)).
  { by destruct (rolled_over s now). }
  rewrite (bind_Ret _ _ _ _ _ Hdue).
  destruct (rolled_over s now || (next_of (m_heap s) a0 <=? now)) eqn:Ed; cbn [negb].
  - rewrite E1, E2, bind_modify, E3.
    destruct (expire_loop_run now (due_timers s now) [] (set_timers rest (set_previousTime now s)) Hnd)
      as (s' & Hr & Hs' & Hheap & Htim); [| |done|].
    + intros a Ha. simpl. apply (tw_live _ Hwf). rewrite El. apply Hpart. by left.
    + intros a Ha. simpl. by apply Hdis.
    + exists s'. rewrite Hr. split_and!; [done| |done].
      constructor; [done| |].
        -- intros a Ha. apply Htim in Ha. rewrite Hheap. simpl in Ha |- *.
           assert (is_Some (m_heap s !! a)) as [t Ht].
           { apply (tw_live _ Hwf). rewrite El. apply Hpart. tauto. }
           rewrite Ht. by destruct (decide _); eauto.
        -- intros a t Ha Hc. apply Htim. rewrite Hheap in Ha. simpl in Ha |- *. destruct (decide _) as [Hd|Hd].
           ++ right. split; [done|]. destruct (m_heap s !! a) as [u|]; [|done]. simpl in Ha. injection Ha as <-.
              exists u. split; [done|]. unfold fire in Hc. by destruct (m_recurring u).
           ++ left. assert (Hin : a ∈ m_timers s) by (by eapply (tw_armed _ Hwf)). rewrite El in Hin.
              apply Hpart in Hin. tauto.
  - exists (set_previousTime now s). apply orb_false_iff in Ed as [Er Ed]. apply Z.leb_gt in Ed.
    assert (Hnone : due_timers s now = []).
    { unfold due_timers. rewrite Er, El. apply sorted_none_due; [|done].
      rewrite <- El. apply (tw_sorted _ Hwf). }
    rewrite Hnone. split_and!; try done.
    destruct Hwf. by constructor.
Qed.

Lemma getNextTimer_run now s : tm_wf s ->
  getNextTimer now s =
    (Ret (match m_timers s with
          | [] => 2 ^ 64 - 1
          | a :: _ => Z.max 0 (next_of (m_heap s) a - now)
          end), set_tickled false s).
Proof.
  intros Hwf. unfold getNextTimer. rewrite bind_modify, bind_get. simpl.
  destruct (m_timers s) as [|a l] eqn:El; [done|].
  destruct (tw_live _ Hwf a) as [t Ht]; [rewrite El; left|].
  unfold the_timer. rewrite (bind_Ret _ _ _ t (set_tickled false s)) by (simpl; by rewrite Ht).
  unfold next_of. rewrite Ht. zcase; unfold mret, M_ret; do 2 f_equal; lia.
Qed.
Lemma tm_wf_same s s' : tm_wf s -> m_heap s' = m_heap s -> m_timers s' = m_timers s -> tm_wf s'.
Proof. intros [] E1 E2. constructor; rewrite ?E1, ?E2; done. Qed.

Lemma listExpiredCb_run s now addr : tm_wf s ->
  exists s', listExpiredCb now addr s =
      (Ret (map (fun a => match m_heap s !! a with Some t => m_callback t | None => None end)
              (due_timers s now)), s') /\ tm_wf s' /\
    (forall a, m_heap s' !! a = if decide (a ∈ due_timers s now) then fire now <$> m_heap s !! a else m_heap s !! a).
Proof.
  intros Hwf. unfold listExpiredCb, listExpired_check. rewrite bind_gets. unfold hasTimer.
  destruct (m_timers s) as [|a l] eqn:El.
  - exists s. unfold due_timers. rewrite El. simpl. destruct (rolled_over s now); split_and!; done.
  - apply listExpired_body_run; [done|congruence].
Qed.

(** ** Properties *)

(** The manager as a transition system: the operations that returned. *)
Inductive tm_step : TimerManager -> TimerManager -> Prop :=
| step_add addr now ms cb recurring s r s' :
    m_heap s !! addr = None -> addTimer addr now ms cb recurring s = (Ret r, s') -> tm_step s s'
| step_cancel a s r s' : is_Some (m_heap s !! a) -> cancel a s = (Ret r, s') -> tm_step s s'
| step_refresh a now s r s' : is_Some (m_heap s !! a) -> refresh a now s = (Ret r, s') -> tm_step s s'
| step_reset a ms from_now now s r s' :
    is_Some (m_heap s !! a) -> reset a ms from_now now s = (Ret r, s') -> tm_step s s'
| step_next now s r s' : getNextTimer now s = (Ret r, s') -> tm_step s s'
| step_expired now addr s r s' : listExpiredCb now addr s = (Ret r, s') -> tm_step s s'.
Definition new_TimerManager (now : Z) : TimerManager := mkTM ∅ [] false now 0.
Definition tm_reachable (s : TimerManager) : Prop := exists now, rtc tm_step (new_TimerManager now) s.

Lemma reachable_wf s : tm_reachable s -> tm_wf s.
Proof.
  intros [now Hr].
  assert (H0 : tm_wf (new_TimerManager now)).
  { constructor; simpl; [constructor|intros a Ha; by apply elem_of_nil in Ha|done]. }
  induction Hr as [|s1 s2 s3 Hst _ IH]; [done|]. apply IH. clear IH.
  destruct Hst as [addr n ms cb rec s r s' Hf E|a s r s' [t Ht] E|a n s r s' [t Ht] E|a ms fn n s r s' [t Ht] E
    |n s r s' E|n addr s r s' E].
  - destruct (addTimer_run addr n ms cb rec s H0 Hf) as (x & Ex & Hx & _). congruence.
  - destruct (cancel_run a t s H0 Ht) as (b & x & Ex & Hx & _). congruence.
  - destruct (refresh_run a t n s H0 Ht) as (b & x & Ex & Hx & _). congruence.
  - destruct (reset_run a t ms fn n s H0 Ht) as (b & x & Ex & Hx & _). congruence.
  - rewrite getNextTimer_run in E by done. injection E as _ <-. by eapply tm_wf_same.
  - destruct (listExpiredCb_run s n addr H0) as (x & Ex & Hx & _). congruence.
Qed.

Lemma reset_same ms from_now t : (ms =? m_ms t) && negb from_now = true <-> ms = m_ms t /\ from_now = false.
Proof. by rewrite andb_true_iff, negb_true_iff, Z.eqb_eq. Qed.
(** C25: in every state the timer manager reaches by its operations, the set is
    ordered by due time, holds live timers, and holds every timer that still has
    a callback; hence no operation run alone crashes: [cancel] never erases the
    end iterator, [listExpiredCb] never dereferences an empty set, and [cancel]
    and [refresh] report whether the timer was still armed; [reset] does so too,
    except that it returns true, of any timer, when it is given the interval
    that the timer has and is not asked to start anew. *)
Theorem timers_safe s : tm_reachable s ->
  tm_wf s /\
  (forall a t, m_heap s !! a = Some t ->
     (exists b s', cancel a s = (Ret b, s') /\ (b = true <-> m_callback t <> None) /\ (b = true -> a ∉ m_timers s')) /\
     (forall now, exists b s', refresh a now s = (Ret b, s') /\ (b = true <-> m_callback t <> None)) /\
     (forall ms from_now now, exists b s', reset a ms from_now now s = (Ret b, s') /\
        (b = true <-> m_callback t <> None \/ ms = m_ms t /\ from_now = false))) /\
  (forall now addr, exists cbs s', listExpiredCb now addr s = (Ret cbs, s')).
Proof.
  intros Hr. pose proof (reachable_wf s Hr) as Hwf. split_and!; [done| |].
  - intros a t Ht. split_and!.
    + destruct (cancel_run a t s Hwf Ht) as (b & s' & E & _ & Hb & Hout & _). exists b, s'.
      split_and!; [done|done|]. intros Hbt. by destruct (Hout Hbt).
    + intros now. destruct (refresh_run a t now s Hwf Ht) as (b & s' & E & _ & Hb & _). by exists b, s'.
    + intros ms fn now. destruct (reset_run a t ms fn now s Hwf Ht) as (b & s' & E & _ & Hb & Hn & _). exists b, s'. split; [done|].
      rewrite <- (reset_same ms fn t). destruct (m_callback t) as [cb|] eqn:Ec; [split; [by left|by intros; apply Hb]|].
      destruct (Hn eq_refl) as [-> _]. split; [by right|by intros [?|?]].
  - intros now addr. destruct (listExpiredCb_run s now addr Hwf) as (s' & E & _). eauto.
Qed.

(** [listExpiredCb] takes exactly the timers due at the current time, or all of
    them when the clock went back by more than an hour, and returns their
    callbacks in the order of their due times; each one-shot timer loses its
    callback, each recurring one is due again one period from now, and the other
    timers are unchanged. *)
Theorem listExpiredCb_spec s now addr : tm_wf s ->
  exists s', listExpiredCb now addr s =
      (Ret (map (fun a => match m_heap s !! a with Some t => m_callback t | None => None end)
              (due_timers s now)), s') /\ tm_wf s' /\
    (forall a, m_heap s' !! a =
       if decide (a ∈ due_timers s now) then fire now <$> m_heap s !! a else m_heap s !! a).
Proof. apply listExpiredCb_run. Qed.

(** [getNextTimer] is the time until some timer is due: 0 exactly when a
    callback would be returned by [listExpiredCb] now (clock not set back), the
    largest [uint64_t] when there is no timer, else the wait until the earliest
    one. *)
Theorem getNextTimer_spec s now : tm_wf s -> 0 <= now ->
  exists w, fst (getNextTimer now s) = Ret w /\
    (m_timers s = [] -> w = 2 ^ 64 - 1) /\
    (m_timers s <> [] ->
       (w = 0 <-> exists a, a ∈ m_timers s /\ next_of (m_heap s) a <= now) /\
       (forall a, a ∈ m_timers s -> w <= Z.max 0 (next_of (m_heap s) a - now)) /\
       (exists a, a ∈ m_timers s /\ w = Z.max 0 (next_of (m_heap s) a - now))).
Proof.
  intros Hwf Hnow. rewrite getNextTimer_run by done. eexists. split; [done|].
  pose proof (tw_sorted _ Hwf) as Hs. destruct (m_timers s) as [|a l]; [done|]. split; [done|]. intros _.
  apply sorted_inv in Hs as [Ha _].
  assert (Hmin : forall b, b ∈ a :: l -> next_of (m_heap s) a <= next_of (m_heap s) b).
  { intros b Hb. apply elem_of_cons in Hb as [->|Hb]; [lia|]. specialize (Ha b Hb). rewrite lt_timer_iff in Ha. lia. }
  split_and!.
  - split; [intros; exists a; split; [left|lia]|]. intros (b & Hb & Hle). specialize (Hmin b Hb). lia.
  - intros b Hb. specialize (Hmin b Hb). lia.
  - exists a. split; [left|done].
Qed.

(** run by two threads, [listExpiredCb] can dereference the begin iterator of an
    empty set: with one due one-shot timer, both threads see a timer under the
    read lock; the first takes it; the second then finds the set empty. *)
Theorem listExpiredCb_race s now addr addr' a t :
  tm_wf s -> m_timers s = [a] -> m_heap s !! a = Some t -> m_recurring t = false -> m_next t <= now ->
  m_previousTime s <= now ->
  fst (listExpired_check s) = Ret true /\
  exists s1, listExpired_body now addr s = (Ret [m_callback t], s1) /\
    fst (listExpired_body now addr' s1) = Crash.
Proof.
  intros Hwf Hl Ht Hrec Hdue Hprev. split; [unfold listExpired_check, gets, hasTimer; by rewrite Hl|].
  unfold listExpired_body.
  assert (Hro : detectClockRollover now s = (Ret false, set_previousTime now s)).
  { unfold detectClockRollover. msimpl. by zcase. }
  mstep Hro. rewrite bind_get. simpl. rewrite Hl.
  assert (Hn : next_of (m_heap s) a = m_next t) by (unfold next_of; by rewrite Ht).
  rewrite (bind_Ret (mret _) _ (set_previousTime now s) true (set_previousTime now s))
    by (rewrite Hn; unfold mret, M_ret; do 2 f_equal; by apply Z.leb_le).
  cbn [negb]. simpl. rewrite Hn.
  set (s1 := mkTM (<[a := with_callback None t]> (m_heap s)) [] (m_tickled s) now (m_notified s)).
  exists s1. split.
  - destruct ((m_next t <? now) || ((m_next t =? now) && (a <? addr)%nat)) eqn:E; simpl.
    + rewrite bind_modify. simpl. unfold the_timer. msimpl. simpl. rewrite Ht, Hrec. simpl.
      by rewrite (alter_insert_lookup _ _ _ _ Ht).
    + apply orb_false_iff in E as [E _]. apply Z.ltb_ge in E. rewrite Hn.
      destruct (Z.eqb_spec (m_next t) now); [|lia]. simpl. rewrite bind_modify. simpl. unfold the_timer. msimpl.
      simpl. rewrite Ht, Hrec. simpl. by rewrite (alter_insert_lookup _ _ _ _ Ht).
  - assert (Hro1 : detectClockRollover now s1 = (Ret false, s1)).
    { unfold detectClockRollover. msimpl. simpl. by zcase. }
    by mstep Hro1.
Qed.

(** ** Witnesses: one timer, added at time 100 and due at 150. *)
Definition one_timer : TimerManager :=
  snd (addTimer 7 100 50 (Some (Cb 1)) false (new_TimerManager 100)).
Lemma one_timer_reachable : tm_reachable one_timer.
Proof.
  exists 100. eapply rtc_l; [|apply rtc_refl].
  eapply (step_add 7 100 50 (Some (Cb 1)) false); [done|vm_compute; reflexivity].
Qed.

Lemma timers_safe_witness :
  tm_reachable one_timer /\ exists s, cancel 7 one_timer = (Ret true, s) /\ 7%nat ∉ m_timers s.
Proof.
  split; [exact one_timer_reachable|].
  destruct (timers_safe one_timer one_timer_reachable) as (_ & H & _).
  destruct (H 7%nat (mkTimer false 50 150 (Some (Cb 1))) eq_refl) as ((b & s & E & Hb & Hout) & _).
  destruct b; [|exfalso; by destruct (proj2 Hb ltac:(done))]. exists s. split; [exact E|by apply Hout].
Defined.

Lemma listExpired_witness :
  tm_wf one_timer /\ exists s, listExpiredCb 150 9 one_timer = (Ret [Some (Cb 1)], s).
Proof.
  assert (Hwf : tm_wf one_timer) by apply reachable_wf, one_timer_reachable. split; [done|].
  destruct (listExpiredCb_spec one_timer 150 9 Hwf) as (s & E & _). exists s. exact E.
Defined.

Lemma getNextTimer_witness : exists w, fst (getNextTimer 120 one_timer) = Ret w /\ w <= 30.
Proof.
  destruct (getNextTimer_spec one_timer 120) as (w & E & _ & H);
    [apply reachable_wf, one_timer_reachable|lia|].
  exists w. split; [exact E|]. destruct H as (_ & H & _); [done|]. apply (H 7%nat). left.
Defined.

Lemma listExpired_race_witness :
  exists s1, listExpired_body 150 9 one_timer = (Ret [Some (Cb 1)], s1) /\
    fst (listExpired_body 150 8 s1) = Crash.
Proof.
  apply (listExpiredCb_race one_timer 150 9 8 7 (mkTimer false 50 150 (Some (Cb 1))));
    [apply reachable_wf, one_timer_reachable|reflexivity|reflexivity|reflexivity|done|done].
Defined.
