(* ===== verification/FdManager.v ===== *)
(** * Descriptors and their modes (cxk/fd_manager.h/.cpp, and the calls of
    cxk/hook.cpp that change a descriptor's mode)

    [FdCtx] objects live in a heap indexed by their address; [m_datas] is the
    manager's vector of shared pointers.  The kernel's table of descriptors is
    the class [FileSys]: a state and the system calls on it.  [hook] is the
    calling thread's [t_hook_enable]. *)
From S2P Require Import Prelude.

(** ** Numbers of <fcntl.h>, <sys/socket.h>, <asm/ioctls.h> and <errno.h> *)
Definition F_DUPFD : Z := 0.
Definition F_GETFD : Z := 1.
Definition F_SETFD : Z := 2.
Definition F_GETFL : Z := 3.
Definition F_SETFL : Z := 4.
Definition F_GETLK : Z := 5.
Definition F_SETLK : Z := 6.
Definition F_SETLKW : Z := 7.
Definition F_SETOWN : Z := 8.
Definition F_GETOWN : Z := 9.
Definition F_SETSIG : Z := 10.
Definition F_GETSIG : Z := 11.
Definition F_SETOWN_EX : Z := 15.
Definition F_GETOWN_EX : Z := 16.
Definition F_SETLEASE : Z := 1024.
Definition F_GETLEASE : Z := 1025.
Definition F_NOTIFY : Z := 1026.
Definition F_DUPFD_CLOEXEC : Z := 1030.
Definition F_SETPIPE_SZ : Z := 1031.
Definition F_GETPIPE_SZ : Z := 1032.
Definition O_NONBLOCK : Z := 2048.
Definition FIONBIO : Z := 0x5421.
Definition SOL_SOCKET : Z := 1.
Definition SO_RCVTIMEO : Z := 20.
Definition SO_SNDTIMEO : Z := 21.
Definition NO_TIMEOUT : Z := 2 ^ 64 - 1.   (* (uint64_t)-1 *)

(** ** The system calls *)
Class FileSys (F : Type) := {
  fstat : F -> Z -> option bool;                              (* S_ISSOCK; None: -1 *)
  fcntl_f : F -> Z -> Z -> option Z -> Z * F;                 (* fd, cmd, the argument if any *)
  ioctl_f : F -> Z -> Z -> Z -> Z * F;                        (* fd, request, the int at the argument *)
  socket_f : F -> Z -> Z -> Z -> Z * F;
  accept_f : F -> Z -> Z * F;
  close_f : F -> Z -> Z * F;
  setsockopt_f : F -> Z -> Z -> Z -> option (Z * Z) -> Z * F  (* the timeval of a timeout *)
}.

(** [FdCtx]; the times are [uint64_t]. *)
Record FdCtx := mkFdCtx {
  m_isInit : bool;
  m_isSocket : bool;
  m_sysNoblock : bool;
  m_userNoblock : bool;
  m_isClosed : bool;
  m_fd : Z;
  m_recvTimeOut : Z;
  m_sendTimeOut : Z
}.
Definition setUserNoblock (v : bool) (c : FdCtx) : FdCtx :=
  mkFdCtx (m_isInit c) (m_isSocket c) (m_sysNoblock c) v (m_isClosed c) (m_fd c) (m_recvTimeOut c) (m_sendTimeOut c).
Definition setSysNoblock (v : bool) (c : FdCtx) : FdCtx :=
  mkFdCtx (m_isInit c) (m_isSocket c) v (m_userNoblock c) (m_isClosed c) (m_fd c) (m_recvTimeOut c) (m_sendTimeOut c).
Definition setTimeOut (type v : Z) (c : FdCtx) : FdCtx :=
  if type =? SO_RCVTIMEO
  then mkFdCtx (m_isInit c) (m_isSocket c) (m_sysNoblock c) (m_userNoblock c) (m_isClosed c) (m_fd c) v (m_sendTimeOut c)
  else mkFdCtx (m_isInit c) (m_isSocket c) (m_sysNoblock c) (m_userNoblock c) (m_isClosed c) (m_fd c) (m_recvTimeOut c) v.
Definition getTimeOut (type : Z) (c : FdCtx) : Z :=
  if type =? SO_RCVTIMEO then m_recvTimeOut c else m_sendTimeOut c.

Record FdManager (F : Type) := mkFds { fm_kernel : F; fm_heap : list FdCtx; m_datas : list (option nat) }.
Arguments mkFds {F}.
Arguments fm_kernel {F}.
Arguments fm_heap {F}.
Arguments m_datas {F}.

Section FdManager.
Context {F : Type} `{FileSys F}.

Definition set_fm_heap (v : list FdCtx) (s : FdManager F) : FdManager F := mkFds (fm_kernel s) v (m_datas s).
Definition set_datas (v : list (option nat)) (s : FdManager F) : FdManager F := mkFds (fm_kernel s) (fm_heap s) v.
(** A system call: its result, and the kernel's new state. *)
Definition sys {A} (call : F -> A * F) : M (FdManager F) A := fun s =>
  let '(a, k) := call (fm_kernel s) in (Ret a, mkFds k (fm_heap s) (m_datas s)).
Definition the_fdctx (a : nat) : M (FdManager F) FdCtx := s ← get; lift (from_option Ret Crash (fm_heap s !! a)).
Definition upd_fdctx (a : nat) (g : FdCtx -> FdCtx) : M (FdManager F) unit :=
  modify (fun s => set_fm_heap (alter g a (fm_heap s)) s).

Definition nonblocking (flags : Z) : bool := negb (Z.land flags O_NONBLOCK =? 0).

(** [FdCtx::init]. *)
Definition init (c : FdCtx) : M (FdManager F) (FdCtx * bool) :=
  if m_isInit c then mret (c, true) else
  s ← get;
  let st := fstat (fm_kernel s) (m_fd c) in
  let isSocket := from_option id false st in
  (if isSocket then
     flags ← sys (fun k => fcntl_f k (m_fd c) F_GETFL (Some 0));
     if negb (nonblocking flags)
     then sys (fun k => fcntl_f k (m_fd c) F_SETFL (Some (Z.lor flags O_NONBLOCK))) ;; mret tt
     else mret tt
   else mret tt) ;;
  let isInit := bool_decide (is_Some st) in
  mret (mkFdCtx isInit isSocket isSocket false false (m_fd c) NO_TIMEOUT NO_TIMEOUT, isInit).
Definition new_FdCtx (fd : Z) : M (FdManager F) FdCtx :=
  '(c, _) ← init (mkFdCtx false false false false false fd NO_TIMEOUT NO_TIMEOUT); mret c.

Definition new_FdManager (k : F) : FdManager F := mkFds k [] (replicate 64 None).
(** [(int)m_datas.size()] *)
Definition datas_size (s : FdManager F) : Z := i32 (Z.of_nat (length (m_datas s))).
(** [m_datas[fd]] *)
Definition datas_at (fd : Z) : M (FdManager F) (option nat) :=
  s ← get; if fd <? 0 then crash else lift (from_option Ret Crash (m_datas s !! Z.to_nat fd)).
(** [get] under the read lock; [None]: the lock is given up and the descriptor
    gets a new context under the write lock. *)
Definition get_read (fd : Z) (auto_create : bool) : M (FdManager F) (option (option nat)) :=
  s ← get;
  if datas_size s <=? fd then mret (if auto_create then None else Some None)
  else p ← datas_at fd; mret (if bool_decide (is_Some p) || negb auto_create then Some p else None).
Definition get_create (fd : Z) : M (FdManager F) nat :=
  c ← new_FdCtx fd;
  s ← get;
  let a := length (fm_heap s) in
  modify (set_fm_heap (fm_heap s ++ [c])) ;;
  (if datas_size s <=? fd
   then modify (set_datas (resize (Z.to_nat (Z.quot (fd * 3) 2)) None (m_datas s))) else mret tt) ;;
  datas_at fd ;;
  s ← get;
  modify (set_datas (<[Z.to_nat fd := Some a]> (m_datas s))) ;;
  mret a.
Definition get_ctx (fd : Z) (auto_create : bool) : M (FdManager F) (option nat) :=
  if fd =? -1 then mret None else
  r ← get_read fd auto_create;
  match r with
  | Some p => mret p
  | None => a ← get_create fd; mret (Some a)
  end.
Definition del (fd : Z) : M (FdManager F) unit :=
  s ← get;
  if datas_size s <=? fd then mret tt else
  datas_at fd ;; modify (set_datas (<[Z.to_nat fd := None]> (m_datas s))).

(** ** Hooked calls that do not wait *)
Section Hooked.
Context (hook : bool).

Definition socket (domain type protocol : Z) : M (FdManager F) Z :=
  fd ← sys (fun k => socket_f k domain type protocol);
  if negb hook then mret fd else
  if fd =? -1 then mret fd else get_ctx fd true ;; mret fd.
(** [accept] after its [do_io], which answered [fd]. *)
Definition accepted (fd : Z) : M (FdManager F) Z :=
  (if 0 <=? fd then get_ctx fd true ;; mret tt else mret tt) ;; mret fd.
(** [close]; [cancelAll] works on the IOManager. *)
Definition close (fd : Z) : M (FdManager F) Z :=
  (if hook then
     p ← get_ctx fd false;
     match p with Some _ => del fd | None => mret tt end
   else mret tt) ;;
  sys (fun k => close_f k fd).

(** [!ctx || ctx->isClose() || !ctx->isSocket()] is [None]. *)
Definition socket_ctx (fd : Z) : M (FdManager F) (option (nat * FdCtx)) :=
  p ← get_ctx fd false;
  match p with
  | None => mret None
  | Some a => c ← the_fdctx a; mret (if m_isClosed c || negb (m_isSocket c) then None else Some (a, c))
  end.
Definition fcntl_setfl (fd arg : Z) : M (FdManager F) Z :=
  p ← socket_ctx fd;
  match p with
  | None => sys (fun k => fcntl_f k fd F_SETFL (Some arg))
  | Some (a, c) =>
      upd_fdctx a (setUserNoblock (nonblocking arg)) ;;
      let arg := if m_sysNoblock c then Z.lor arg O_NONBLOCK else Z.land arg (Z.lnot O_NONBLOCK) in
      sys (fun k => fcntl_f k fd F_SETFL (Some arg))
  end.
Definition fcntl_getfl (fd : Z) : M (FdManager F) Z :=
  arg ← sys (fun k => fcntl_f k fd F_GETFL None);
  p ← socket_ctx fd;
  match p with
  | None => mret arg
  | Some (_, c) => mret (if m_userNoblock c then Z.lor arg O_NONBLOCK else Z.land arg (Z.lnot O_NONBLOCK))
  end.
(** The commands passed on with their argument; the others lose it. *)
Definition with_argument : list Z :=
  [F_DUPFD; F_DUPFD_CLOEXEC; F_SETFD; F_SETOWN; F_SETSIG; F_SETLEASE; F_NOTIFY; F_SETPIPE_SZ;
   F_SETLK; F_SETLKW; F_GETLK; F_GETOWN_EX; F_SETOWN_EX].
Definition fcntl (fd cmd arg : Z) : M (FdManager F) Z :=
  if cmd =? F_SETFL then fcntl_setfl fd arg
  else if cmd =? F_GETFL then fcntl_getfl fd
  else if bool_decide (cmd ∈ with_argument) then sys (fun k => fcntl_f k fd cmd (Some arg))
  else sys (fun k => fcntl_f k fd cmd None).

Definition ioctl (fd request arg : Z) : M (FdManager F) Z :=
  (if request =? FIONBIO then
     p ← socket_ctx fd;
     match p with
     | Some (a, _) => upd_fdctx a (setUserNoblock (negb (arg =? 0)))
     | None => mret tt
     end
   else mret tt) ;;
  sys (fun k => ioctl_f k fd request arg).

(** [tv] is the timeval behind [optval]; a null or shorter one is read all the
    same. *)
Definition setsockopt (sockfd level optname : Z) (tv : option (Z * Z)) : M (FdManager F) Z :=
  (if hook && (level =? SOL_SOCKET) && ((optname =? SO_RCVTIMEO) || (optname =? SO_SNDTIMEO)) then
     p ← get_ctx sockfd false;
     match p with
     | None => mret tt
     | Some a =>
         match tv with
         | None => crash
         | Some (tv_sec, tv_usec) =>
             ms ← lift (chk_signed 64 (tv_sec * 1000));
             ms ← lift (chk_signed 64 (ms + Z.quot tv_usec 1000));
             upd_fdctx a (setTimeOut optname (u64 ms))
         end
     end
   else mret tt) ;;
  sys (fun k => setsockopt_f k sockfd level optname tv).
End Hooked.
End FdManager.

(** ** The kernel, as its manual pages have it

    [files]: the open descriptors, whether each is a socket, and its O_NONBLOCK.
    Two descriptors of one open file (dup) are outside the interface. *)
Class FileSpec (F : Type) `{FileSys F} := {
  files : F -> gmap Z (bool * bool);
  fstat_law : forall k fd, fstat k fd = fst <$> files k !! fd;
  getfl_law : forall k fd arg, exists fl, fcntl_f k fd F_GETFL arg = (fl, k) /\
    match files k !! fd with
    | Some (_, nb) => 0 <= fl /\ nonblocking fl = nb
    | None => fl = -1
    end;
  setfl_law : forall k fd arg,
    match files k !! fd with
    | Some (true, _) => files (snd (fcntl_f k fd F_SETFL (Some arg))) = <[fd := (true, nonblocking arg)]> (files k)
    | Some (false, _) => exists nb, files (snd (fcntl_f k fd F_SETFL (Some arg))) = <[fd := (false, nb)]> (files k)
    | None => files (snd (fcntl_f k fd F_SETFL (Some arg))) = files k
    end;
  fcntl_law : forall k fd cmd arg, cmd <> F_SETFL -> cmd <> F_DUPFD -> cmd <> F_DUPFD_CLOEXEC ->
    files (snd (fcntl_f k fd cmd arg)) = files k;
  ioctl_law : forall k fd arg,
    match files k !! fd with
    | Some (true, _) => files (snd (ioctl_f k fd FIONBIO arg)) = <[fd := (true, negb (arg =? 0))]> (files k)
    | Some (false, _) => exists nb, files (snd (ioctl_f k fd FIONBIO arg)) = <[fd := (false, nb)]> (files k)
    | None => files (snd (ioctl_f k fd FIONBIO arg)) = files k
    end;
  ioctl_other_law : forall k fd request arg, request <> FIONBIO -> files (snd (ioctl_f k fd request arg)) = files k;
  (* a new descriptor was free, and ulimit -n keeps it small *)
  socket_law : forall k domain type protocol,
    let '(fd, k') := socket_f k domain type protocol in
    fd = -1 /\ files k' = files k \/
    0 <= fd < 2 ^ 30 /\ files k !! fd = None /\ exists nb, files k' = <[fd := (true, nb)]> (files k);
  accept_law : forall k lfd,
    let '(fd, k') := accept_f k lfd in
    fd = -1 /\ files k' = files k \/
    0 <= fd < 2 ^ 30 /\ files k !! fd = None /\ exists nb, files k' = <[fd := (true, nb)]> (files k);
  close_law : forall k fd, files (snd (close_f k fd)) = delete fd (files k);
  setsockopt_law : forall k fd level optname tv, files (snd (setsockopt_f k fd level optname tv)) = files k
}.

Lemma nonblocking_testbit fl : nonblocking fl = Z.testbit fl 11.
Proof.
  unfold nonblocking, O_NONBLOCK. change 2048 with (2 ^ 11). destruct (Z.testbit fl 11) eqn:E.
  - apply negb_true_iff, Z.eqb_neq. intros Hz. apply (f_equal (fun z => Z.testbit z 11)) in Hz.
    rewrite Z.land_spec, E, Z.pow2_bits_true, Z.bits_0 in Hz by lia. done.
  - apply negb_false_iff, Z.eqb_eq. apply Z.bits_inj'. intros n Hn.
    rewrite Z.land_spec, Z.bits_0. destruct (Z.eq_dec n 11) as [->|]; [by rewrite E|].
    rewrite Z.pow2_bits_false by lia. apply andb_false_r.
Qed.
Lemma nonblocking_set fl : nonblocking (Z.lor fl O_NONBLOCK) = true.
Proof. rewrite nonblocking_testbit, Z.lor_spec. change (Z.testbit O_NONBLOCK 11) with true. apply orb_true_r. Qed.
Lemma nonblocking_clear fl : nonblocking (Z.land fl (Z.lnot O_NONBLOCK)) = false.
Proof. rewrite nonblocking_testbit, Z.land_spec. change (Z.testbit (Z.lnot O_NONBLOCK) 11) with false. apply andb_false_r. Qed.

(** ** The manager's invariant *)
Section Invariant.
Context {F : Type} `{FileSpec F}.
Implicit Types s : FdManager F.

(** The context the manager holds for a descriptor. *)
Definition ctx_of s (fd : Z) : option FdCtx :=
  if fd <? 0 then None else p ← m_datas s !! Z.to_nat fd; a ← p; fm_heap s !! a.
Definition modes s : gmap Z (bool * bool) := files (fm_kernel s).
(** A context knows whether its descriptor is a socket, and a socket that has
    one never blocks in the kernel. *)
Definition fdctx_ok (m : gmap Z (bool * bool)) (fd : Z) (c : FdCtx) : Prop :=
  m_fd c = fd /\ m_isClosed c = false /\ m_sysNoblock c = m_isSocket c /\
  (m !! fd = None \/ m !! fd = Some (m_isSocket c, true) \/ (m_isSocket c = false /\ exists nb, m !! fd = Some (false, nb))).
Record fds_ok s : Prop := {
  ok_ctx : forall i a, m_datas s !! i = Some (Some a) ->
    exists c, fm_heap s !! a = Some c /\ fdctx_ok (modes s) (Z.of_nat i) c;
  ok_size : (64 <= length (m_datas s))%nat /\ Z.of_nat (length (m_datas s)) < 2 ^ 31
}.

Lemma datas_size_ok s : fds_ok s -> datas_size s = Z.of_nat (length (m_datas s)).
Proof. intros [_ Hs]. unfold datas_size. apply wraps_id; lia. Qed.
Lemma ctx_of_inv s fd c : ctx_of s fd = Some c ->
  0 <= fd /\ exists a, m_datas s !! Z.to_nat fd = Some (Some a) /\ fm_heap s !! a = Some c.
Proof.
  unfold ctx_of. destruct (Z.ltb_spec fd 0); [done|]. intros Hc.
  destruct (m_datas s !! Z.to_nat fd) as [[a|]|] eqn:E; [|done..]. split; [lia|]. by exists a.
Qed.
Lemma ctx_of_at s fd a : 0 <= fd -> m_datas s !! Z.to_nat fd = Some (Some a) -> ctx_of s fd = fm_heap s !! a.
Proof. intros Hfd E. unfold ctx_of. rewrite (proj2 (Z.ltb_ge _ _) Hfd). by rewrite E. Qed.
Lemma ctx_of_none s fd : 0 <= fd -> fds_ok s ->
  ctx_of s fd = None <-> (forall a, m_datas s !! Z.to_nat fd <> Some (Some a)).
Proof.
  intros Hfd Hok. split.
  - intros Hn a Ha. destruct (ok_ctx s Hok _ _ Ha) as (c & Hc & _). rewrite (ctx_of_at s fd a), Hc in Hn by done. done.
  - intros Hn. destruct (ctx_of s fd) as [c|] eqn:E; [|done]. apply ctx_of_inv in E as (_ & a & Ha & _). by apply Hn in Ha.
Qed.
Lemma ctx_of_ok s fd c : fds_ok s -> ctx_of s fd = Some c -> fdctx_ok (modes s) fd c.
Proof.
  intros Hok Hc. apply ctx_of_inv in Hc as (Hfd & a & Ha & Hc).
  destruct (ok_ctx s Hok _ _ Ha) as (c' & Hc' & Hk). rewrite Z2Nat.id in Hk by lia. congruence.
Qed.

(** Looking a context up. *)
Lemma get_ctx_run s fd :
  fds_ok s -> -1 <= fd ->
  exists p, get_ctx fd false s = (Ret p, s) /\
    match p with
    | Some a => 0 <= fd /\ m_datas s !! Z.to_nat fd = Some (Some a) /\ exists c, ctx_of s fd = Some c /\ fm_heap s !! a = Some c
    | None => ctx_of s fd = None
    end.
Proof.
  intros Hok Hfd. unfold get_ctx. destruct (Z.eqb_spec fd (-1)) as [->|Hne]; [by exists None|].
  unfold get_read. unfold mbind at 1, M_bind at 1. rewrite bind_get, (datas_size_ok s Hok).
  destruct (Z.leb_spec (Z.of_nat (length (m_datas s))) fd) as [Hge|Hlt].
  - exists None. split; [done|]. apply ctx_of_none; [lia|done|]. intros a. rewrite lookup_ge_None_2 by lia. done.
  - unfold datas_at. unfold mbind at 1, M_bind at 1. rewrite bind_get.
    replace (fd <? 0) with false by (symmetry; apply Z.ltb_ge; lia).
    destruct (lookup_lt_is_Some_2 (m_datas s) (Z.to_nat fd) ltac:(lia)) as [p Hp]. rewrite Hp. cbn.
    rewrite orb_true_r. exists p. split; [done|]. destruct p as [a|].
    + destruct (ok_ctx s Hok _ _ Hp) as (c & Hc & _). split_and!; [lia|done|]. exists c.
      split; [|done]. by rewrite (ctx_of_at s fd a) by (done || lia).
    + apply ctx_of_none; [lia|done|]. intros a. by rewrite Hp.
Qed.

(** The kernel's modes after [FdCtx::init] on a descriptor. *)
Definition settle (fd : Z) (m : gmap Z (bool * bool)) : gmap Z (bool * bool) :=
  match m !! fd with Some (true, _) => <[fd := (true, true)]> m | _ => m end.
Lemma settle_other fd m fd' : fd' <> fd -> settle fd m !! fd' = m !! fd'.
Proof. intros Hne. unfold settle. destruct (m !! fd) as [[[] nb]|]; [by rewrite lookup_insert_ne by done|done..]. Qed.
Lemma sys_run {A} (call : F -> A * F) s :
  sys call s = (Ret (fst (call (fm_kernel s))), mkFds (snd (call (fm_kernel s))) (fm_heap s) (m_datas s)).
Proof. unfold sys. by destruct (call (fm_kernel s)). Qed.
Lemma new_FdCtx_run s fd :
  exists c k', new_FdCtx fd s = (Ret c, mkFds k' (fm_heap s) (m_datas s)) /\
    files k' = settle fd (modes s) /\ fdctx_ok (files k') fd c /\ m_userNoblock c = false /\
    (forall b nb, modes s !! fd = Some (b, nb) -> m_isSocket c = b).
Proof.
  unfold new_FdCtx, init. cbn [m_isInit m_fd]. unfold mbind at 1, M_bind at 1. rewrite bind_get.
  rewrite fstat_law. unfold settle, modes.
  destruct (files (fm_kernel s) !! fd) as [[sock nb]|] eqn:E; cbn [fmap option_fmap option_map fst from_option id].
  - destruct sock.
    + unfold mbind at 1, M_bind at 1. unfold mbind at 1, M_bind at 1. rewrite sys_run.
      destruct (getfl_law (fm_kernel s) fd (Some 0)) as (fl & Efl & Hfl). rewrite Efl. cbn [fst snd].
      rewrite E in Hfl. destruct Hfl as [_ Hnb]. rewrite Hnb.
      assert (Hfin : forall k', files k' = <[fd := (true, true)]> (files (fm_kernel s)) ->
        fdctx_ok (files k') fd (mkFdCtx true true true false false fd NO_TIMEOUT NO_TIMEOUT)).
      { intros k' Ek. split_and!; try done. right. left. by rewrite Ek, lookup_insert_eq. }
      destruct nb; cbn [negb].
      * eexists _, _. split; [reflexivity|].
        assert (Ek : files (fm_kernel s) = <[fd := (true, true)]> (files (fm_kernel s))) by (symmetry; by apply insert_id).
        split_and!; [exact Ek | by apply Hfin | done |]. intros b nb Hb. by simplify_eq.
      * unfold mbind at 1, M_bind at 1. rewrite sys_run. cbn [fm_kernel fm_heap m_datas].
        eexists _, _. split; [reflexivity|].
        pose proof (setfl_law (fm_kernel s) fd (Z.lor fl O_NONBLOCK)) as Hset. rewrite E, nonblocking_set in Hset.
        split_and!; [exact Hset | by apply Hfin | done |]. intros b nb Hb. by simplify_eq.
    + eexists _, (fm_kernel s). split; [destruct s; reflexivity|]. split_and!; try done.
      * split_and!; try done. right. right. split; [done|]. by exists nb.
      * intros b nb' Hb. by simplify_eq.
  - eexists _, (fm_kernel s). split; [destruct s; reflexivity|]. split_and!; try done. split_and!; try done. by left.
Qed.

Lemma get_ctx_known s fd a b :
  fds_ok s -> 0 <= fd -> m_datas s !! Z.to_nat fd = Some (Some a) -> get_ctx fd b s = (Ret (Some a), s).
Proof.
  intros Hok Hfd Ha. unfold get_ctx. rewrite (proj2 (Z.eqb_neq fd (-1))) by lia.
  pose proof (lookup_lt_Some _ _ _ Ha) as Hlt.
  unfold get_read, datas_at, mbind, M_bind, get. rewrite (datas_size_ok s Hok), (proj2 (Z.leb_gt _ _)) by lia.
  by rewrite (proj2 (Z.ltb_ge _ _) Hfd), Ha.
Qed.

(** Growing the vector. *)
Lemma resize_lookup (l : list (option nat)) n i :
  (length l <= n)%nat -> resize n None l !! i = if decide (i < length l)%nat then l !! i else if decide (i < n)%nat then Some None else None.
Proof.
  intros Hn. rewrite resize_ge by done. destruct (decide (i < length l)%nat) as [Hlt|Hge].
  - by rewrite lookup_app_l.
  - rewrite lookup_app_r by lia. destruct (decide (i < n)%nat) as [Hlt|Hge2].
    + by apply lookup_replicate_2; lia.
    + apply lookup_ge_None_2. rewrite length_replicate. lia.
Qed.

(** The operations keep the contexts of the other descriptors, and the kernel's
    modes where a context depends on them. *)
Lemma fds_ok_intro s s' :
  fds_ok s -> (64 <= length (m_datas s'))%nat -> Z.of_nat (length (m_datas s')) < 2 ^ 31 ->
  (forall fd a, 0 <= fd -> m_datas s' !! Z.to_nat fd = Some (Some a) ->
    exists c, fm_heap s' !! a = Some c /\ fdctx_ok (modes s') fd c) ->
  fds_ok s'.
Proof.
  intros _ H1 H2 Hc. split; [|done]. intros i a Ha. apply (Hc (Z.of_nat i) a); [lia|]. by rewrite Nat2Z.id.
Qed.
Lemma fdctx_ok_settle m fd fd' c : fdctx_ok m fd' c -> fd' <> fd -> fdctx_ok (settle fd m) fd' c.
Proof. intros (H1 & H2 & H3 & H4) Hne. unfold fdctx_ok. by rewrite settle_other. Qed.
Lemma get_ctx_create_run s fd :
  fds_ok s -> 0 <= fd < 2 ^ 30 ->
  exists a c s', get_ctx fd true s = (Ret (Some a), s') /\ fds_ok s' /\ ctx_of s' fd = Some c /\
    m_datas s' !! Z.to_nat fd = Some (Some a) /\
    (forall fd', fd' <> fd -> ctx_of s' fd' = ctx_of s fd') /\
    match ctx_of s fd with
    | Some c0 => c = c0 /\ s' = s
    | None => modes s' = settle fd (modes s) /\ m_userNoblock c = false /\
        forall b nb, modes s !! fd = Some (b, nb) -> m_isSocket c = b
    end.
Proof.
  intros Hok [Hfd Hmax]. pose proof (datas_size_ok s Hok) as Hsz.
  assert (Hread : exists r, get_read fd true s = (Ret r, s) /\
    match ctx_of s fd with
    | Some c => exists a, r = Some (Some a) /\ fm_heap s !! a = Some c /\ m_datas s !! Z.to_nat fd = Some (Some a)
    | None => r = None
    end).
  { unfold get_read, mbind, M_bind, get. rewrite Hsz. destruct (Z.leb_spec (Z.of_nat (length (m_datas s))) fd) as [Hge|Hlt].
    - exists None. split; [done|]. destruct (ctx_of s fd) as [c|] eqn:E; [|done].
      apply ctx_of_inv in E as (_ & a & Ha & _). rewrite lookup_ge_None_2 in Ha by lia. done.
    - unfold datas_at, mbind, M_bind, get. rewrite (proj2 (Z.ltb_ge _ _) Hfd).
      destruct (lookup_lt_is_Some_2 (m_datas s) (Z.to_nat fd) ltac:(lia)) as [p Hp]. rewrite Hp.
      destruct p as [a|]; (eexists; split; [reflexivity|]); cbn.
      + rewrite (ctx_of_at s fd a) by done. destruct (ok_ctx s Hok _ _ Hp) as (c & Hc & _). rewrite Hc. by exists a.
      + rewrite (proj2 (ctx_of_none s fd Hfd Hok)); [done|]. intros a. by rewrite Hp. }
  destruct Hread as (r & Er & Hr). unfold get_ctx. rewrite (proj2 (Z.eqb_neq fd (-1))) by lia. mstep Er.
  destruct (ctx_of s fd) as [c|] eqn:Ec.
  { destruct Hr as (a & -> & Ha & Hda). exists a, c, s. by split_and!. }
  subst r. destruct (new_FdCtx_run s fd) as (c & k' & En & Ek & Hc & Hu & Hsock).
  unfold get_create. unfold mbind at 1, M_bind at 1. mstep En. rewrite bind_get, bind_modify.
  set (s1 := set_fm_heap _ _). pose (n := length (fm_heap s)).
  pose (s2 := if datas_size s <=? fd then set_datas (resize (Z.to_nat (Z.quot (fd * 3) 2)) None (m_datas s)) s1 else s1).
  assert (E2 : (if datas_size s1 <=? fd then modify (set_datas (resize (Z.to_nat (Z.quot (fd * 3) 2)) None (m_datas s1))) else mret tt) s1 = (Ret tt, s2)).
  { subst s2. change (datas_size s1) with (datas_size s). by destruct (datas_size s <=? fd). }
  assert (Hlook : (Z.to_nat fd < length (m_datas s2))%nat /\ (length (m_datas s) <= length (m_datas s2))%nat /\
    Z.of_nat (length (m_datas s2)) < 2 ^ 31 /\
    forall i a, m_datas s2 !! i = Some (Some a) <-> m_datas s !! i = Some (Some a)).
  { subst s2. destruct (ok_size s Hok) as [Hs1 Hs2]. rewrite Hsz.
    destruct (Z.leb_spec (Z.of_nat (length (m_datas s))) fd) as [Hge|Hlt]; [|cbn; split_and!; (done || lia)].
    cbn. assert (Hq : fd + 1 <= Z.quot (fd * 3) 2 < 2 ^ 31) by (rewrite Z.quot_div_nonneg by lia; zdiv_lia).
    rewrite length_resize. split_and!; [lia..|]. intros i a. rewrite resize_lookup by lia.
    destruct (decide (i < _)%nat); [done|]. rewrite lookup_ge_None_2 by lia. by destruct (decide _). }
  destruct Hlook as (Hl1 & Hl2 & Hl3 & Hl4).
  assert (E3 : exists p, datas_at fd s2 = (Ret p, s2)).
  { unfold datas_at, mbind, M_bind, get. rewrite (proj2 (Z.ltb_ge _ _) Hfd).
    destruct (lookup_lt_is_Some_2 (m_datas s2) (Z.to_nat fd) Hl1) as [p ->]. by exists p. }
  destruct E3 as [p E3]. mstep E2. mstep E3. rewrite bind_get, bind_modify.
  assert (Hheap : fm_heap s2 = fm_heap s ++ [c]) by (subst s2 s1; by destruct (_ <=? fd)).
  assert (Hmode : modes s2 = settle fd (modes s)) by (subst s2 s1; by destruct (_ <=? fd)).
  set (s3 := set_datas _ s2).
  assert (Hn : fm_heap s3 !! n = Some c) by (cbn; rewrite Hheap; by apply list_lookup_middle).
  assert (Hd : m_datas s3 !! Z.to_nat fd = Some (Some n)) by by apply list_lookup_insert_eq.
  assert (Hother : forall fd' a, 0 <= fd' -> fd' <> fd ->
    m_datas s3 !! Z.to_nat fd' = Some (Some a) <-> m_datas s !! Z.to_nat fd' = Some (Some a)).
  { intros fd' a H1 Hne. cbn. rewrite list_lookup_insert_ne by lia. apply Hl4. }
  exists n, c, s3. split_and!; [reflexivity| | |exact Hd| |exact Hmode|done|exact Hsock].
  - apply (fds_ok_intro s); [done|cbn; rewrite length_insert; destruct (ok_size s Hok); lia..|].
    intros fd' a Hfd' Ha. change (modes s3) with (modes s2). rewrite Hmode.
    destruct (decide (fd' = fd)) as [->|Hne].
    + rewrite Hd in Ha. injection Ha as <-. exists c. split; [done|]. by rewrite <- Ek.
    + apply Hother in Ha; [|done..]. destruct (ok_ctx s Hok _ _ Ha) as (c' & Hc' & Hk). rewrite Z2Nat.id in Hk by done.
      exists c'. split; [cbn; rewrite Hheap; by apply lookup_app_l_Some|]. by apply fdctx_ok_settle.
  - by rewrite (ctx_of_at s3 fd n).
  - intros fd' Hne. destruct (Z.ltb_spec fd' 0) as [Hneg|Hpos]; [unfold ctx_of; by rewrite (proj2 (Z.ltb_lt _ _) Hneg)|].
    destruct (ctx_of s fd') as [c'|] eqn:E'.
    + apply ctx_of_inv in E' as (_ & a & Ha & Hc'). rewrite (ctx_of_at s3 fd' a) by (done || by apply Hother).
      cbn. rewrite Hheap. by apply lookup_app_l_Some.
    + pose proof (proj1 (ctx_of_none s fd' Hpos Hok) E') as Hno. unfold ctx_of. rewrite (proj2 (Z.ltb_ge _ _) Hpos).
      destruct (m_datas s3 !! Z.to_nat fd') as [[a|]|] eqn:Ea; [|done..]. apply Hother in Ea; [|done..]. by apply Hno in Ea.
Qed.

(** Changing one context, the kernel's modes, or dropping a context. *)
Lemma datas_inj s i j a : fds_ok s -> m_datas s !! i = Some (Some a) -> m_datas s !! j = Some (Some a) -> i = j.
Proof.
  intros Hok Hi Hj. destruct (ok_ctx s Hok _ _ Hi) as (c & Hc & E1 & _).
  destruct (ok_ctx s Hok _ _ Hj) as (c' & Hc' & E2 & _). simplify_eq. lia.
Qed.
Lemma upd_fdctx_run s fd a c g :
  fds_ok s -> 0 <= fd -> m_datas s !! Z.to_nat fd = Some (Some a) -> fm_heap s !! a = Some c ->
  exists s', upd_fdctx a g s = (Ret tt, s') /\ fm_kernel s' = fm_kernel s /\ m_datas s' = m_datas s /\
    ctx_of s' fd = Some (g c) /\ (forall fd', fd' <> fd -> ctx_of s' fd' = ctx_of s fd').
Proof.
  intros Hok Hfd Ha Hc. eexists. split; [reflexivity|]. split_and!; [done|done| |].
  - rewrite (ctx_of_at _ fd a) by done. cbn. by rewrite list_lookup_alter_eq, Hc.
  - intros fd' Hne. unfold ctx_of. cbn. destruct (Z.ltb_spec fd' 0); [done|].
    destruct (m_datas s !! Z.to_nat fd') as [[b|]|] eqn:Eb; [|done..]. cbn. apply list_lookup_alter_ne.
    intros ->. assert (Z.to_nat fd = Z.to_nat fd') by (by apply (datas_inj s _ _ b)). lia.
Qed.
Lemma fds_ok_modes s s' :
  fds_ok s -> length (m_datas s') = length (m_datas s) ->
  (forall fd a, 0 <= fd -> m_datas s' !! Z.to_nat fd = Some (Some a) -> exists c, ctx_of s' fd = Some c) ->
  (forall fd c, ctx_of s' fd = Some c -> fdctx_ok (modes s') fd c) -> fds_ok s'.
Proof.
  intros Hok Hlen Hsome Hc. destruct (ok_size s Hok) as [H1 H2]. apply (fds_ok_intro s); [done|lia..|].
  intros fd a Hfd Ha. destruct (Hsome fd a Hfd Ha) as [c E]. exists c. rewrite <- (ctx_of_at s' fd a) by done.
  split; [done|]. by apply Hc.
Qed.
Lemma fd_del_run s fd :
  fds_ok s -> 0 <= fd ->
  exists s', del fd s = (Ret tt, s') /\ fds_ok s' /\ fm_kernel s' = fm_kernel s /\
    ctx_of s' fd = None /\ (forall fd', fd' <> fd -> ctx_of s' fd' = ctx_of s fd').
Proof.
  intros Hok Hfd. unfold del. rewrite bind_get, (datas_size_ok s Hok).
  destruct (Z.leb_spec (Z.of_nat (length (m_datas s))) fd) as [Hge|Hlt].
  - exists s. split_and!; try done. apply ctx_of_none; [done..|]. intros a. rewrite lookup_ge_None_2 by lia. done.
  - assert (E : exists p, datas_at fd s = (Ret p, s)).
    { unfold datas_at, mbind, M_bind, get. rewrite (proj2 (Z.ltb_ge _ _) Hfd).
      destruct (lookup_lt_is_Some_2 (m_datas s) (Z.to_nat fd) ltac:(lia)) as [p ->]. by exists p. }
    destruct E as [p E]. mstep E. eexists. split; [reflexivity|].
    assert (Hother : forall fd', fd' <> fd -> ctx_of (set_datas (<[Z.to_nat fd := None]> (m_datas s)) s) fd' = ctx_of s fd').
    { intros fd' Hne. unfold ctx_of. cbn. destruct (Z.ltb_spec fd' 0); [done|]. by rewrite list_lookup_insert_ne by lia. }
    split_and!; [|done| |exact Hother].
    + destruct (ok_size s Hok). apply (fds_ok_intro s); [done|cbn; rewrite length_insert; lia..|].
      intros fd' a Hfd' Ha. cbn in Ha. destruct (decide (fd' = fd)) as [->|Hne].
      * rewrite list_lookup_insert_eq in Ha by lia. done.
      * rewrite list_lookup_insert_ne in Ha by lia. destruct (ok_ctx s Hok _ _ Ha) as (c & Hc & Hk).
        rewrite Z2Nat.id in Hk by done. by exists c.
    + unfold ctx_of. rewrite (proj2 (Z.ltb_ge _ _) Hfd). cbn. by rewrite list_lookup_insert_eq by lia.
Qed.
End Invariant.

(** ** Hooked threads *)
Inductive FdOp : Type :=
| FSocket (domain type protocol : Z)
| FAccept (sockfd : Z)
| FFcntl (fd cmd arg : Z)
| FIoctl (fd request arg : Z)
| FSetsockopt (fd level optname : Z) (tv : option (Z * Z))
| FClose (fd : Z).

Section Theorems.
Context {F : Type} `{FileSpec F}.
Implicit Types s : FdManager F.

Definition fd_run (o : FdOp) : M (FdManager F) Z :=
  match o with
  | FSocket domain type protocol => socket true domain type protocol
  | FAccept sockfd => fd ← sys (fun k => accept_f k sockfd); accepted fd
  | FFcntl fd cmd arg => fcntl fd cmd arg
  | FIoctl fd request arg => ioctl fd request arg
  | FSetsockopt fd level optname tv => setsockopt true fd level optname tv
  | FClose fd => close true fd
  end.
(** The calls of the theorems: no duplicate of a descriptor is made, and
    FIONBIO is not used ([ioctl_blocks]). *)
Definition fd_op_ok (o : FdOp) : Prop :=
  match o with
  | FFcntl _ cmd _ => cmd <> F_DUPFD /\ cmd <> F_DUPFD_CLOEXEC
  | FIoctl _ request _ => request <> FIONBIO
  | _ => True
  end.
(** Where a call runs into undefined behaviour: [m_datas[fd]] with [fd] below -1,
    a null timeval, or one whose milliseconds overflow. *)
Definition timeout_option (level optname : Z) : bool :=
  (level =? SOL_SOCKET) && ((optname =? SO_RCVTIMEO) || (optname =? SO_SNDTIMEO)).
Definition bad_timeval (tv : option (Z * Z)) : bool :=
  match tv with
  | None => true
  | Some (sec, usec) => negb (in_signed 64 (sec * 1000)) || negb (in_signed 64 (sec * 1000 + Z.quot usec 1000))
  end.
Definition fd_undefined (o : FdOp) s : bool :=
  match o with
  | FFcntl fd cmd _ => (fd <? -1) && ((cmd =? F_SETFL) || (cmd =? F_GETFL))
  | FSetsockopt fd level optname tv =>
      timeout_option level optname && ((fd <? -1) || (bool_decide (is_Some (ctx_of s fd)) && bad_timeval tv))
  | FClose fd => fd <? -1
  | _ => false
  end.
(** The modes that users chose: what a call that returned [r] does to them. *)
Definition choose (o : FdOp) (r : Z) (m : gmap Z bool) : gmap Z bool :=
  match o with
  | FSocket _ _ _ | FAccept _ => if 0 <=? r then <[r := false]> m else m
  | FFcntl fd cmd arg =>
      if cmd =? F_SETFL then match m !! fd with Some _ => <[fd := nonblocking arg]> m | None => m end else m
  | FClose fd => delete fd m
  | _ => m
  end.
(** A history of calls, with the modes that users chose. *)
Inductive fd_history (k : F) : gmap Z bool -> FdManager F -> Prop :=
| fd_start : fd_history k ∅ (new_FdManager k)
| fd_next m s o r s' : fd_history k m s -> fd_op_ok o -> fd_run o s = (Ret r, s') -> fd_history k (choose o r m) s'.
Definition fd_reachable (k : F) s : Prop := exists m, fd_history k m s.
Definition users (m : gmap Z bool) s : Prop := forall fd, m_userNoblock <$> ctx_of s fd = m !! fd.

(** Every context is that of an open socket, which never blocks in the kernel. *)
Record managed s : Prop := {
  mg_ok : fds_ok s;
  mg_socket : forall fd c, ctx_of s fd = Some c -> m_isSocket c = true /\ modes s !! fd = Some (true, true)
}.

Lemma managed_sys s k' :
  managed s -> (forall fd c, ctx_of s fd = Some c -> files k' !! fd = modes s !! fd) ->
  managed (mkFds k' (fm_heap s) (m_datas s)).
Proof.
  intros [Hok Hs] Hk. split.
  - apply (fds_ok_modes s); [done|done| |].
    + intros fd a Hfd Ha. destruct (ok_ctx s Hok _ _ Ha) as (c & Hc & _). exists c. by rewrite (ctx_of_at _ fd a).
    + intros fd c Hc. destruct (ctx_of_ok s fd c Hok Hc) as (E1 & E2 & E3 & E4). unfold fdctx_ok, modes. cbn.
      by rewrite (Hk fd c Hc).
  - intros fd c Hc. unfold modes. cbn. rewrite (Hk fd c Hc). by apply Hs.
Qed.
Lemma managed_upd s fd a c g :
  managed s -> 0 <= fd -> m_datas s !! Z.to_nat fd = Some (Some a) -> fm_heap s !! a = Some c ->
  (m_fd (g c), m_isClosed (g c), m_isSocket (g c), m_sysNoblock (g c)) = (m_fd c, m_isClosed c, m_isSocket c, m_sysNoblock c) ->
  exists s', upd_fdctx a g s = (Ret tt, s') /\ managed s' /\ fm_kernel s' = fm_kernel s /\
    ctx_of s' fd = Some (g c) /\ (forall fd', fd' <> fd -> ctx_of s' fd' = ctx_of s fd').
Proof.
  intros [Hok Hs] Hfd Ha Hc Hg. destruct (upd_fdctx_run s fd a c g Hok Hfd Ha Hc) as (s' & E & Ek & Ed & Efd & Eo).
  exists s'. split_and!; try done. assert (Em : modes s' = modes s) by (unfold modes; by rewrite Ek).
  assert (Hcfd : ctx_of s fd = Some c) by (by rewrite (ctx_of_at s fd a)). injection Hg as G1 G2 G3 G4.
  split.
  - apply (fds_ok_modes s); [done|by rewrite Ed| |].
    + intros fd' b Hfd' Hb. rewrite Ed in Hb. destruct (decide (fd' = fd)) as [->|Hne]; [by eexists|].
      rewrite Eo by done. destruct (ok_ctx s Hok _ _ Hb) as (c' & Hc' & _). exists c'. by rewrite (ctx_of_at s fd' b).
    + intros fd' c' Hc'. rewrite Em. destruct (decide (fd' = fd)) as [->|Hne].
      * rewrite Efd in Hc'. injection Hc' as <-. destruct (ctx_of_ok s fd c Hok Hcfd) as (? & ? & ? & ?).
        unfold fdctx_ok. by rewrite G1, G2, G3, G4.
      * rewrite Eo in Hc' by done. by apply ctx_of_ok.
  - intros fd' c' Hc'. rewrite Em. destruct (decide (fd' = fd)) as [->|Hne].
    + rewrite Efd in Hc'. injection Hc' as <-. rewrite G3. by apply Hs.
    + rewrite Eo in Hc' by done. by apply Hs.
Qed.
(** [!ctx || ctx->isClose() || !ctx->isSocket()] *)
Lemma socket_ctx_run s fd :
  managed s -> -1 <= fd ->
  exists r, socket_ctx fd s = (Ret r, s) /\
    match r with
    | Some (a, c) => 0 <= fd /\ m_datas s !! Z.to_nat fd = Some (Some a) /\ fm_heap s !! a = Some c /\ ctx_of s fd = Some c
    | None => ctx_of s fd = None
    end.
Proof.
  intros [Hok Hs] Hfd. destruct (get_ctx_run s fd Hok Hfd) as (p & E & Hp). unfold socket_ctx. mstep E.
  destruct p as [a|]; [|by exists None]. destruct Hp as (H0fd & Ha & c & Hc & Hac).
  destruct (ctx_of_ok s fd c Hok Hc) as (_ & Hcl & _). destruct (Hs fd c Hc) as [Hsock _].
  unfold the_fdctx, mbind, M_bind, get, lift. rewrite Hac. cbn. rewrite Hcl, Hsock. cbn. exists (Some (a, c)). by split_and!.
Qed.

(** F_SETFL and F_GETFL. *)
Lemma fcntl_setfl_run s fd arg :
  managed s -> -1 <= fd ->
  exists r s', fcntl_setfl fd arg s = (Ret r, s') /\ managed s' /\
    (forall fd', fd' <> fd -> ctx_of s' fd' = ctx_of s fd' /\ modes s' !! fd' = modes s !! fd') /\
    match ctx_of s fd with
    | Some c => ctx_of s' fd = Some (setUserNoblock (nonblocking arg) c) /\ modes s' = modes s
    | None => ctx_of s' fd = None /\ (is_Some (modes s !! fd) -> is_Some (modes s' !! fd))
    end.
Proof.
  intros Hm Hfd. destruct (socket_ctx_run s fd Hm Hfd) as (r & E & Hr). unfold fcntl_setfl. mstep E.
  destruct r as [[a c]|].
  - destruct Hr as (H0fd & Ha & Hac & Hc). rewrite Hc.
    destruct (managed_upd s fd a c (setUserNoblock (nonblocking arg)) Hm H0fd Ha Hac eq_refl) as (s1 & E1 & M1 & K1 & C1 & O1).
    mstep E1. rewrite sys_run. eexists _, _. split; [reflexivity|].
    destruct (mg_socket s Hm fd c Hc) as [Hsock Hmode]. destruct (ctx_of_ok s fd c (mg_ok s Hm) Hc) as (_ & _ & Hsys & _).
    rewrite Hsys, Hsock. pose proof (setfl_law (fm_kernel s1) fd (Z.lor arg O_NONBLOCK)) as Hset.
    rewrite K1 in Hset |- *. unfold modes in Hmode. rewrite Hmode, nonblocking_set, insert_id in Hset by done.
    split_and!; [| | |unfold modes; by cbn; rewrite Hset].
    + apply managed_sys; [done|]. intros fd' c' _. unfold modes. by rewrite Hset, K1.
    + intros fd' Hne. split; [exact (O1 fd' Hne) | unfold modes; cbn; by rewrite Hset].
    + exact C1.
  - rewrite Hr, sys_run. eexists _, _. split; [reflexivity|].
    assert (Hother : forall fd', fd' <> fd -> files (snd (fcntl_f (fm_kernel s) fd F_SETFL (Some arg))) !! fd' = modes s !! fd').
    { intros fd' Hne. pose proof (setfl_law (fm_kernel s) fd arg) as Hset. unfold modes.
      destruct (files (fm_kernel s) !! fd) as [[[] nb]|]; [|destruct Hset as [nb' Hset]|]; rewrite Hset;
        rewrite ?lookup_insert_ne by done; done. }
    split_and!; [|intros fd' Hne; split; [done|by apply Hother]|exact Hr|].
    2: { intros [[b nb] Hb]. unfold modes in Hb |- *. cbn. pose proof (setfl_law (fm_kernel s) fd arg) as Hset. rewrite Hb in Hset.
         destruct b; [|destruct Hset as [nb' Hset]]; rewrite Hset, lookup_insert_eq; by eexists. }
    apply managed_sys; [done|]. intros fd' c' Hc'. apply Hother. intros ->. congruence.
Qed.
Lemma fcntl_getfl_run s fd :
  managed s -> -1 <= fd ->
  exists r s', fcntl_getfl fd s = (Ret r, s') /\ s' = s /\
    forall c, ctx_of s fd = Some c -> nonblocking r = m_userNoblock c.
Proof.
  intros Hm Hfd. unfold fcntl_getfl. unfold mbind at 1, M_bind at 1. rewrite sys_run.
  destruct (getfl_law (fm_kernel s) fd None) as (fl & Efl & _). rewrite Efl. cbn [fst snd].
  destruct s as [k h d]. cbn [fm_kernel fm_heap m_datas].
  destruct (socket_ctx_run _ fd Hm Hfd) as (r & E & Hr). mstep E. destruct r as [[a c]|].
  - eexists _, _. split; [reflexivity|]. split; [done|]. intros c' Hc'. destruct Hr as (_ & _ & _ & Hc). simplify_eq.
    destruct (m_userNoblock c); [apply nonblocking_set | apply nonblocking_clear].
  - eexists _, _. split; [reflexivity|]. split; [done|]. intros c Hc. congruence.
Qed.

(** No call but close closes a descriptor, and an open descriptor without a
    context gets none. *)
Definition keeps s s' : Prop :=
  forall fd, is_Some (modes s !! fd) -> is_Some (modes s' !! fd) /\ (ctx_of s fd = None -> ctx_of s' fd = None).
Lemma keeps_frame s s' : modes s' = modes s -> (forall fd, ctx_of s fd = None -> ctx_of s' fd = None) -> keeps s s'.
Proof. intros E Hc fd Hfd. rewrite E. auto. Qed.
Lemma keeps_sys s (call : F -> Z * F) r s' :
  sys call s = (Ret r, s') -> (forall fd, is_Some (modes s !! fd) -> is_Some (files (snd (call (fm_kernel s))) !! fd)) -> keeps s s'.
Proof. rewrite sys_run. intros [= _ <-] Hk fd Hfd. split; [by apply Hk | done]. Qed.
Lemma keeps_trans s1 s2 s3 : keeps s1 s2 -> keeps s2 s3 -> keeps s1 s3.
Proof. intros H1 H2 fd Hfd. destruct (H1 fd Hfd) as [Hfd2 Hc]. destruct (H2 fd Hfd2). auto. Qed.
(** A new descriptor is registered. *)
Lemma register_run s k' fd :
  managed s -> 0 <= fd < 2 ^ 30 -> modes s !! fd = None -> (exists nb, files k' = <[fd := (true, nb)]> (modes s)) ->
  exists a c s', get_ctx fd true (mkFds k' (fm_heap s) (m_datas s)) = (Ret (Some a), s') /\ managed s' /\
    ctx_of s' fd = Some c /\ m_userNoblock c = false /\ (forall fd', fd' <> fd -> ctx_of s' fd' = ctx_of s fd') /\ keeps s s'.
Proof.
  intros Hm Hfd Hfree [nb Hk].
  assert (Hnone : ctx_of s fd = None).
  { destruct (ctx_of s fd) as [c|] eqn:E; [|done]. destruct (mg_socket s Hm fd c E). congruence. }
  set (s1 := mkFds k' _ _).
  assert (Hkeep : forall fd' c, ctx_of s fd' = Some c -> files k' !! fd' = modes s !! fd').
  { intros fd' c Hc. rewrite Hk, lookup_insert_ne; [done|]. intros ->. congruence. }
  pose proof (managed_sys s k' Hm Hkeep) as Hm1.
  destruct (get_ctx_create_run s1 fd (mg_ok _ Hm1) Hfd) as (a & c & s' & E & Hok' & Hc & Hd & Ho & Hcase).
  change (ctx_of s1 fd) with (ctx_of s fd) in Hcase. rewrite Hnone in Hcase. destruct Hcase as (Hmode & Hu & Hsock).
  assert (Hmfd : modes s1 !! fd = Some (true, nb)) by (unfold modes; cbn; rewrite Hk; apply lookup_insert_eq).
  exists a, c, s'. split_and!; try done; [split; [done|]|].
  2: { intros fd' Hopen. assert (fd' <> fd) as Hne by (intros ->; rewrite Hfree in Hopen; by destruct Hopen).
       assert (Em : modes s1 !! fd' = modes s !! fd') by (transitivity (files k' !! fd'); [done|]; by rewrite Hk, lookup_insert_ne).
       rewrite Hmode, settle_other, Em, Ho by done. done. }
  intros fd' c' Hc'. destruct (decide (fd' = fd)) as [->|Hne].
  - rewrite Hc in Hc'. injection Hc' as <-. split; [by apply (Hsock true nb)|].
    rewrite Hmode. unfold settle. rewrite Hmfd. apply lookup_insert_eq.
  - rewrite Ho in Hc' by done. rewrite Hmode, settle_other by done. by apply (mg_socket s1 Hm1).
Qed.
Lemma new_managed k : managed (new_FdManager k).
Proof.
  assert (Hno : forall i a, replicate 64 None !! i <> Some (Some a : option nat)).
  { intros i a Ha. apply lookup_replicate in Ha as [? _]. done. }
  split.
  - split; [|cbn; lia]. intros i a Ha. by apply Hno in Ha.
  - intros fd c Hc. apply ctx_of_inv in Hc as (_ & a & Ha & _). by apply Hno in Ha.
Qed.
Lemma sys_keeps s (call : F -> Z * F) :
  managed s -> files (snd (call (fm_kernel s))) = modes s ->
  exists r s', sys call s = (Ret r, s') /\ managed s' /\ keeps s s'.
Proof.
  intros Hm Hk. rewrite sys_run. eexists _, _. split; [reflexivity|]. split.
  - apply managed_sys; [done|]. intros. by rewrite Hk.
  - by apply keeps_frame.
Qed.
Lemma weaken s (m : M (FdManager F) Z) (b : bool) :
  (exists r s', m s = (Ret r, s') /\ managed s' /\ keeps s s') -> exists r s', m s = (Ret r, s') /\ managed s' /\ (b = false -> keeps s s').
Proof. intros (r & s' & ? & ? & ?). by exists r, s'. Qed.
Definition closes (o : FdOp) : bool := match o with FClose _ => true | _ => false end.

(** What a call that returns does. *)
Record fd_done (o : FdOp) s (r : Z) s' : Prop := {
  dn_managed : managed s';
  dn_keeps : closes o = false -> keeps s s';
  dn_users : forall m, users m s -> users (choose o r m) s'
}.
Lemma users_same m s s' : (forall fd, ctx_of s' fd = ctx_of s fd) -> users m s -> users m s'.
Proof. intros Hc Hu fd. rewrite Hc. apply Hu. Qed.
Lemma users_frame s s' : (forall fd, m_userNoblock <$> ctx_of s' fd = m_userNoblock <$> ctx_of s fd) ->
  forall m, users m s -> users m s'.
Proof. intros Hc m Hu fd. rewrite Hc. apply Hu. Qed.
Lemma users_one m s s' fd c : users m s -> ctx_of s' fd = Some c -> (forall fd', fd' <> fd -> ctx_of s' fd' = ctx_of s fd') ->
  users (<[fd := m_userNoblock c]> m) s'.
Proof.
  intros Hu Hc Ho fd'. destruct (decide (fd' = fd)) as [->|Hne]; [by rewrite Hc, lookup_insert_eq|].
  by rewrite lookup_insert_ne, Ho by done.
Qed.
Lemma get_ctx_below s fd b : fds_ok s -> fd < -1 -> get_ctx fd b s = (Crash, s).
Proof.
  intros Hok Hfd. unfold get_ctx. rewrite (proj2 (Z.eqb_neq fd (-1))) by lia.
  unfold get_read. msimpl. rewrite (datas_size_ok s Hok), (proj2 (Z.leb_gt _ _)) by lia.
  unfold datas_at. msimpl. by rewrite (proj2 (Z.ltb_lt fd 0)) by lia.
Qed.
Lemma ctx_of_below s fd : fd < 0 -> ctx_of s fd = None.
Proof. intros Hfd. unfold ctx_of. by rewrite (proj2 (Z.ltb_lt _ _)). Qed.
(** A call that only asks the kernel, and closes nothing. *)
Lemma sys_done s o (call : F -> Z * F) : managed s -> files (snd (call (fm_kernel s))) = modes s -> (forall r m, choose o r m = m) ->
  exists r s', sys call s = (Ret r, s') /\ fd_done o s r s'.
Proof.
  intros Hm Hk Hch. destruct (sys_keeps s call Hm Hk) as (r & s' & E & Hm' & Hkp). exists r, s'. split; [done|]. split; [done..|].
  intros m Hu. rewrite Hch. rewrite sys_run in E. injection E as _ <-. exact Hu.
Qed.
(** [socket] and [accept]: the kernel's answer, and the context of a new one. *)
Lemma new_done o s fd k' : managed s -> (forall r m, choose o r m = if 0 <=? r then <[r := false]> m else m) ->
  (fd = -1 /\ files k' = modes s \/ 0 <= fd < 2 ^ 30 /\ modes s !! fd = None /\ exists nb, files k' = <[fd := (true, nb)]> (modes s)) ->
  exists s', (if 0 <=? fd then get_ctx fd true ;; mret tt else mret tt) (mkFds k' (fm_heap s) (m_datas s)) = (Ret tt, s') /\
    fd_done o s fd s'.
Proof.
  intros Hm Hch [[-> Hk]|(Hfd & Hfree & Hk)].
  - eexists. split; [reflexivity|]. split; [apply managed_sys; [done|]; intros; by rewrite Hk|intros _; by apply keeps_frame|].
    intros m Hu. by rewrite Hch.
  - rewrite (proj2 (Z.leb_le 0 fd)) by lia.
    destruct (register_run s k' fd Hm Hfd Hfree Hk) as (a & c & s' & E & Hm' & Hc & Hu & Ho & Hkp). mstep E. exists s'. split; [done|].
    split; [done..|]. intros m Hum. rewrite Hch, (proj2 (Z.leb_le 0 fd)), <- Hu by lia. by apply (users_one m s).
Qed.
Lemma fcntl_done s fd cmd arg : managed s -> cmd <> F_DUPFD -> cmd <> F_DUPFD_CLOEXEC ->
  if (fd <? -1) && ((cmd =? F_SETFL) || (cmd =? F_GETFL)) then exists s', fcntl fd cmd arg s = (Crash, s')
  else exists r s', fcntl fd cmd arg s = (Ret r, s') /\ fd_done (FFcntl fd cmd arg) s r s'.
Proof.
  intros Hm H1 H2. unfold fcntl. destruct (Z.eqb_spec cmd F_SETFL) as [->|H3]; [|destruct (Z.eqb_spec cmd F_GETFL) as [->|H4]];
    cbn [orb]; rewrite ?andb_true_r, ?andb_false_r; [destruct (Z.ltb_spec fd (-1)) as [Hneg|Hpos]..|].
  - exists s. unfold fcntl_setfl, socket_ctx. unfold mbind at 1, M_bind at 1. unfold mbind at 1, M_bind at 1.
    by rewrite (get_ctx_below s fd false (mg_ok s Hm) Hneg).
  - destruct (fcntl_setfl_run s fd arg Hm Hpos) as (r & s' & E & Hm' & Ho & Hcase). exists r, s'. split; [done|]. split; [done| |].
    + intros _ fd' Hopen. destruct (decide (fd' = fd)) as [->|Hne]; [|by destruct (Ho fd' Hne) as [-> ->]].
      destruct (ctx_of s fd); [|tauto]. destruct Hcase as [_ ->]. done.
    + intros m Hu. cbn [choose]. rewrite Z.eqb_refl, <- (Hu fd). destruct (ctx_of s fd) as [c|] eqn:Ec.
      * destruct Hcase as [Hc' _]. apply (users_one m s s' fd _ Hu Hc'). intros fd' Hne. by apply Ho.
      * apply (users_same m s); [|done]. intros fd'. destruct (decide (fd' = fd)) as [->|Hne]; [|by apply Ho].
        destruct Hcase as [-> _]. by rewrite Ec.
  - unfold fcntl_getfl. unfold mbind at 1, M_bind at 1. rewrite sys_run.
    destruct (getfl_law (fm_kernel s) fd None) as (fl & Efl & _). rewrite Efl. destruct s as [k h d]. cbn [fst snd fm_kernel fm_heap m_datas]. eexists.
    unfold socket_ctx. unfold mbind at 1, M_bind at 1. unfold mbind at 1, M_bind at 1.
    by rewrite (get_ctx_below (mkFds k h d) fd false (mg_ok _ Hm) Hneg).
  - destruct (fcntl_getfl_run s fd Hm Hpos) as (r & s' & E & -> & _). exists r, s. split; [done|]. by split.
  - assert (Hch : forall r m, choose (FFcntl fd cmd arg) r m = m) by (intros; cbn; by rewrite (proj2 (Z.eqb_neq _ _) H3)).
    destruct (bool_decide _); (apply sys_done; [done|by apply fcntl_law|done]).
Qed.
(** The part of [setsockopt] before the system call. *)
Definition keep_timeout (fd optname : Z) (tv : option (Z * Z)) : M (FdManager F) unit :=
  p ← get_ctx fd false;
  match p with
  | None => mret tt
  | Some a =>
      match tv with
      | None => crash
      | Some (tv_sec, tv_usec) =>
          ms ← lift (chk_signed 64 (tv_sec * 1000));
          ms ← lift (chk_signed 64 (ms + Z.quot tv_usec 1000));
          upd_fdctx a (setTimeOut optname (u64 ms))
      end
  end.
Lemma keep_timeout_run s fd optname tv : managed s ->
  if (fd <? -1) || (bool_decide (is_Some (ctx_of s fd)) && bad_timeval tv) then keep_timeout fd optname tv s = (Crash, s)
  else exists s', keep_timeout fd optname tv s = (Ret tt, s') /\ managed s' /\ fm_kernel s' = fm_kernel s /\
    (forall fd', m_userNoblock <$> ctx_of s' fd' = m_userNoblock <$> ctx_of s fd').
Proof.
  intros Hm. unfold keep_timeout. destruct (Z.ltb_spec fd (-1)) as [Hneg|Hpos]; cbn [orb].
  { unfold mbind at 1, M_bind at 1. by rewrite (get_ctx_below s fd false (mg_ok s Hm) Hneg). }
  destruct (get_ctx_run s fd (mg_ok s Hm) Hpos) as (p & E & Hp). mstep E.
  destruct p as [a|]; [|rewrite Hp; by exists s]. destruct Hp as (H0fd & Ha & c & Hc & Hac). rewrite Hc.
  rewrite bool_decide_eq_true_2 by (by eexists). cbn [andb].
  destruct tv as [[sec usec]|]; [|done]. cbn [bad_timeval]. unfold chk_signed. destruct (in_signed 64 (sec * 1000)) eqn:E1; [|done].
  cbn [negb orb]. rewrite !(bind_Ret (lift (Ret (sec * 1000))) _ s _ s) by done. destruct (in_signed 64 (sec * 1000 + Z.quot usec 1000)) eqn:E2; [|done].
  cbn [negb]. rewrite !(bind_Ret (lift (Ret (sec * 1000 + Z.quot usec 1000))) _ s _ s) by done.
  destruct (managed_upd s fd a c (setTimeOut optname (u64 (sec * 1000 + Z.quot usec 1000))) Hm H0fd Ha Hac) as (s1 & Eu & M1 & K1 & C1 & O1).
  { unfold setTimeOut. by destruct (_ =? _). }
  exists s1. split; [exact Eu|]. split; [done|]. split; [done|]. intros fd'. destruct (decide (fd' = fd)) as [->|Hne]; [|by rewrite O1].
  rewrite C1, Hc. cbn. f_equal. unfold setTimeOut. by destruct (_ =? _).
Qed.
Lemma setsockopt_done s fd level optname tv : managed s ->
  if fd_undefined (FSetsockopt fd level optname tv) s then exists s', setsockopt true fd level optname tv s = (Crash, s')
  else exists r s', setsockopt true fd level optname tv s = (Ret r, s') /\ fd_done (FSetsockopt fd level optname tv) s r s'.
Proof.
  intros Hm. cbn [fd_undefined].
  assert (Hset : forall s1, managed s1 -> modes s1 = modes s ->
    (forall fd', m_userNoblock <$> ctx_of s1 fd' = m_userNoblock <$> ctx_of s fd') ->
    exists r s', sys (fun k => setsockopt_f k fd level optname tv) s1 = (Ret r, s') /\ fd_done (FSetsockopt fd level optname tv) s r s').
  { intros s1 M1 K1 U1. destruct (sys_keeps s1 (fun k => setsockopt_f k fd level optname tv) M1) as (r & s2 & E2 & M2 & Hk2); [apply setsockopt_law|].
    exists r, s2. split; [done|]. split; [done| |].
    - intros _. apply (keeps_trans _ s1); [|done]. apply keeps_frame; [done|]. intros fd' Hn. specialize (U1 fd'). rewrite Hn in U1.
      by destruct (ctx_of s1 fd').
    - intros m Hu. rewrite sys_run in E2. injection E2 as _ <-. exact (users_frame s s1 U1 m Hu). }
  unfold setsockopt. cbn [andb]. fold (timeout_option level optname). destruct (timeout_option level optname); cbn [andb].
  - pose proof (keep_timeout_run s fd optname tv Hm) as Hkt. unfold keep_timeout in Hkt. destruct (_ || _).
    + exists s. unfold mbind at 1, M_bind at 1. rewrite Hkt. reflexivity.
    + destruct Hkt as (s1 & E1 & M1 & K1 & U1). mstep E1. apply Hset; [done|unfold modes; by rewrite K1|done].
  - rewrite (bind_Ret (mret tt) _ s tt s) by done. by apply Hset.
Qed.
Lemma close_done s fd : managed s ->
  if fd <? -1 then exists s', close true fd s = (Crash, s')
  else exists r s', close true fd s = (Ret r, s') /\ fd_done (FClose fd) s r s'.
Proof.
  intros Hm. unfold close. destruct (Z.ltb_spec fd (-1)) as [Hneg|Hpos].
  { exists s. unfold mbind at 1, M_bind at 1. unfold mbind at 1, M_bind at 1. by rewrite (get_ctx_below s fd false (mg_ok s Hm) Hneg). }
  destruct (get_ctx_run s fd (mg_ok s Hm) Hpos) as (p & E & Hp).
  assert (Hdel : exists s1, (p ← get_ctx fd false; match p with Some _ => del fd | None => mret tt end) s = (Ret tt, s1) /\
    managed s1 /\ ctx_of s1 fd = None /\ forall fd', fd' <> fd -> ctx_of s1 fd' = ctx_of s fd').
  { mstep E. destruct p as [a|]; [|by exists s]. destruct Hp as (H0fd & _).
    destruct (fd_del_run s fd (mg_ok s Hm) H0fd) as (s1 & E1 & Hok1 & K1 & C1 & O1). exists s1. split_and!; try done.
    split; [done|]. intros fd' c Hc. unfold modes. rewrite K1. destruct (decide (fd' = fd)) as [->|Hne]; [congruence|].
    rewrite O1 in Hc by done. by apply (mg_socket s Hm). }
  destruct Hdel as (s1 & E1 & M1 & C1 & O1). mstep E1. rewrite sys_run. eexists _, _. split; [reflexivity|]. split; [|done|].
  - apply managed_sys; [done|]. intros fd' c Hc. rewrite close_law, lookup_delete_ne; [done|]. intros ->. congruence.
  - intros m Hu fd'. change (ctx_of _ fd') with (ctx_of s1 fd'). cbn [choose]. destruct (decide (fd' = fd)) as [->|Hne].
    + by rewrite C1, lookup_delete_eq.
    + by rewrite O1, lookup_delete_ne.
Qed.
Lemma fd_run_cases s o : managed s -> fd_op_ok o ->
  if fd_undefined o s then exists s', fd_run o s = (Crash, s') else exists r s', fd_run o s = (Ret r, s') /\ fd_done o s r s'.
Proof.
  intros Hm Hok. destruct o as [domain type protocol|lfd|fd cmd arg|fd request arg|fd level optname tv|fd]; cbn [fd_run fd_undefined].
  - unfold socket. unfold mbind at 1, M_bind at 1. rewrite sys_run. cbn [negb].
    pose proof (socket_law (fm_kernel s) domain type protocol) as Hl. destruct (socket_f _ _ _ _) as [fd k']. cbn [fst snd].
    destruct (new_done (FSocket domain type protocol) s fd k' Hm (fun _ _ => eq_refl) Hl) as (s' & E & Hd). exists fd, s'. split; [|done].
    destruct Hl as [[-> _]|[Hfd _]]; [by injection E as <-|]. revert E. rewrite (proj2 (Z.leb_le 0 fd)), (proj2 (Z.eqb_neq fd (-1))) by lia.
    unfold mbind, M_bind. destruct (get_ctx fd true _) as [[| | |] ?]; try done. by intros [= <-].
  - unfold mbind at 1, M_bind at 1. rewrite sys_run. unfold accepted.
    pose proof (accept_law (fm_kernel s) lfd) as Hl. destruct (accept_f _ _) as [fd k']. cbn [fst snd].
    destruct (new_done (FAccept lfd) s fd k' Hm (fun _ _ => eq_refl) Hl) as (s' & E & Hd). mstep E. by exists fd, s'.
  - destruct Hok as [H1 H2]. by apply fcntl_done.
  - unfold ioctl. rewrite (proj2 (Z.eqb_neq _ _) Hok). rewrite (bind_Ret (mret tt) _ s tt s) by done.
    apply sys_done; [done|by apply ioctl_other_law|done].
  - by apply setsockopt_done.
  - by apply close_done.
Qed.
Lemma fd_history_ok k m s : fd_history k m s -> managed s /\ users m s.
Proof.
  induction 1 as [|m s o r s' _ [IH1 IH2] Hok E].
  - split; [apply new_managed|]. intros fd. rewrite lookup_empty. destruct (ctx_of _ fd) as [c|] eqn:Ec; [|done].
    apply ctx_of_inv in Ec as (_ & a & Ha & _). by apply lookup_replicate in Ha as [? _].
  - pose proof (fd_run_cases s o IH1 Hok) as Hc. rewrite E in Hc. destruct (fd_undefined o s); [by destruct Hc|].
    destruct Hc as (r' & s'' & [= <- <-] & [H1 _ H2]). auto.
Qed.
Lemma fd_reachable_managed k s : fd_reachable k s -> managed s.
Proof. intros [m Hh]. by apply fd_history_ok in Hh as [? _]. Qed.

(** C19: After any calls of socket, accept, fcntl (but the commands that
    duplicate a descriptor), ioctl (but FIONBIO), setsockopt and close by threads
    with hooks, one after the other, each descriptor the manager knows is an open
    socket that the kernel never blocks on, so that a hooked call never blocks
    its worker; the modes that it keeps are those that users chose ([choose]:
    blocking when the socket was made, then what the last fcntl(F_SETFL) asked
    for, and nothing else changes them), and fcntl(F_GETFL) answers with them,
    while F_SETFL changes no mode of the kernel. The next call returns, unless it
    is given a descriptor below -1, or a timeout of a known descriptor that is
    null or overflows: then it is undefined. *)
Theorem sockets_nonblocking k m s :
  fd_history k m s ->
  (forall fd, m_userNoblock <$> ctx_of s fd = m !! fd) /\
  (forall o, fd_op_ok o -> if fd_undefined o s then exists s', fd_run o s = (Crash, s') else exists r s', fd_run o s = (Ret r, s')) /\
  forall fd c, ctx_of s fd = Some c ->
    m_isSocket c = true /\ m_isClosed c = false /\ modes s !! fd = Some (true, true) /\
    (exists fl, fcntl fd F_GETFL 0 s = (Ret fl, s) /\ m !! fd = Some (nonblocking fl)) /\
    (forall arg, exists r s', fcntl fd F_SETFL arg s = (Ret r, s') /\
      ctx_of s' fd = Some (setUserNoblock (nonblocking arg) c) /\ modes s' = modes s /\
      forall fd', fd' <> fd -> ctx_of s' fd' = ctx_of s fd').
Proof.
  intros Hh. destruct (fd_history_ok k m s Hh) as [Hm Hu]. split; [exact Hu|]. split.
  { intros o Hok. pose proof (fd_run_cases s o Hm Hok) as Hc. destruct (fd_undefined o s); [done|].
    destruct Hc as (r & s' & E & _). by exists r, s'. }
  intros fd c Hc. destruct (mg_socket s Hm fd c Hc) as [Hsock Hmode].
  destruct (ctx_of_ok s fd c (mg_ok s Hm) Hc) as (_ & Hcl & _). pose proof (ctx_of_inv s fd c Hc) as [Hfd _].
  split_and!; try done.
  - destruct (fcntl_getfl_run s fd Hm ltac:(lia)) as (r & s' & E & -> & Hnb). exists r. split; [exact E|].
    by rewrite <- (Hu fd), (Hnb c Hc), Hc.
  - intros arg. destruct (fcntl_setfl_run s fd arg Hm ltac:(lia)) as (r & s' & E & _ & Ho & Hcase). rewrite Hc in Hcase.
    destruct Hcase as [Hc' Hmode']. exists r, s'. split_and!; try done. intros fd' Hne. by apply Ho.
Qed.

(** ioctl(FIONBIO), unlike fcntl, passes the user's mode on: after a caller
    asks for blocking mode the kernel blocks on the socket, while its context
    still says that it does not; the next hooked read blocks the whole worker
    thread. *)
Theorem ioctl_blocks k s fd c :
  fd_reachable k s -> ctx_of s fd = Some c ->
  exists r s', ioctl fd FIONBIO 0 s = (Ret r, s') /\
    ctx_of s' fd = Some (setUserNoblock false c) /\ m_sysNoblock c = true /\ modes s' !! fd = Some (true, false).
Proof.
  intros Hr Hc. pose proof (fd_reachable_managed k s Hr) as Hm. pose proof (ctx_of_inv s fd c Hc) as [Hfd _].
  destruct (mg_socket s Hm fd c Hc) as [Hsock Hmode]. destruct (ctx_of_ok s fd c (mg_ok s Hm) Hc) as (_ & _ & Hsys & _).
  unfold ioctl. rewrite Z.eqb_refl. destruct (socket_ctx_run s fd Hm ltac:(lia)) as (r & E & Hrr).
  destruct r as [[a c0]|]; [|congruence]. destruct Hrr as (_ & Ha & Hac & Hc0). assert (c0 = c) as -> by congruence.
  destruct (managed_upd s fd a c (setUserNoblock false) Hm Hfd Ha Hac eq_refl) as (s1 & E1 & M1 & K1 & C1 & _).
  unfold mbind at 1, M_bind at 1. mstep E. change (negb (0 =? 0)) with false. rewrite E1, sys_run.
  eexists _, _. split; [reflexivity|]. split_and!; [exact C1 | by rewrite Hsys, Hsock |]. unfold modes. cbn. rewrite K1.
  pose proof (ioctl_law (fm_kernel s) fd 0) as Hl. unfold modes in Hmode. rewrite Hmode in Hl. rewrite Hl. apply lookup_insert_eq.
Qed.

(** The manager is a map from descriptors to contexts: get(fd) looks one
    up, get(fd, true) adds one when there is none and returns the same one from
    then on, del(fd) removes it; other descriptors keep theirs. *)
Theorem fd_manager_map k s fd :
  fd_reachable k s -> 0 <= fd < 2 ^ 30 ->
  (exists p, get_ctx fd false s = (Ret p, s) /\ (p ≫= fun a => fm_heap s !! a) = ctx_of s fd) /\
  (exists a c s', get_ctx fd true s = (Ret (Some a), s') /\ ctx_of s' fd = Some c /\ m_fd c = fd /\
    get_ctx fd true s' = (Ret (Some a), s') /\ (forall c0, ctx_of s fd = Some c0 -> c = c0 /\ s' = s) /\
    forall fd', fd' <> fd -> ctx_of s' fd' = ctx_of s fd') /\
  (exists s', del fd s = (Ret tt, s') /\ ctx_of s' fd = None /\ fm_kernel s' = fm_kernel s /\
    forall fd', fd' <> fd -> ctx_of s' fd' = ctx_of s fd').
Proof.
  intros Hr Hfd. pose proof (mg_ok s (fd_reachable_managed k s Hr)) as Hok. split_and!.
  - destruct (get_ctx_run s fd Hok ltac:(lia)) as (p & E & Hp). exists p. split; [done|].
    destruct p as [a|]; [|done]. destruct Hp as (_ & _ & c & -> & Hc). exact Hc.
  - destruct (get_ctx_create_run s fd Hok Hfd) as (a & c & s' & E & Hok' & Hc & Hd & Ho & Hcase). exists a, c, s'.
    destruct (ctx_of_ok s' fd c Hok' Hc) as [Hfdc _]. split_and!; try done.
    + apply get_ctx_known; [done|lia|done].
    + intros c0 Hc0. by rewrite Hc0 in Hcase.
  - destruct (fd_del_run s fd Hok ltac:(lia)) as (s' & E & _ & K & C & O). by exists s'.
Qed.

(** setsockopt of a timeout: the context keeps it in milliseconds, rounded
    down, apart from the timeout of the other direction; below one millisecond
    it is 0, and so is the zero timeval, with which socket(7) means no timeout:
    only a context that was never told has NO_TIMEOUT. *)
Theorem setsockopt_timeout k s fd c optname sec usec :
  fd_reachable k s -> ctx_of s fd = Some c -> optname = SO_RCVTIMEO \/ optname = SO_SNDTIMEO ->
  0 <= sec < 2 ^ 52 -> 0 <= usec < 1000000 ->
  exists r s' c', setsockopt true fd SOL_SOCKET optname (Some (sec, usec)) s = (Ret r, s') /\ ctx_of s' fd = Some c' /\
    getTimeOut optname c' = sec * 1000 + usec / 1000 /\ getTimeOut optname c' <> NO_TIMEOUT /\
    (forall o, o = SO_RCVTIMEO \/ o = SO_SNDTIMEO -> o <> optname -> getTimeOut o c' = getTimeOut o c) /\
    (sec = 0 -> usec < 1000 -> getTimeOut optname c' = 0) /\ modes s' = modes s.
Proof.
  intros Hr Hc Hopt Hsec Husec. pose proof (fd_reachable_managed k s Hr) as Hm.
  pose proof (ctx_of_inv s fd c Hc) as [Hfd _]. unfold setsockopt. cbn [andb].
  replace ((SOL_SOCKET =? SOL_SOCKET) && ((optname =? SO_RCVTIMEO) || (optname =? SO_SNDTIMEO))) with true
    by (by destruct Hopt as [-> | ->]).
  destruct (get_ctx_run s fd (mg_ok s Hm) ltac:(lia)) as (p & E & Hp). destruct p as [a|]; [|congruence].
  destruct Hp as (_ & Ha & c0 & Hc0 & Hac). assert (c0 = c) as -> by congruence.
  assert (Hq : Z.quot usec 1000 = usec / 1000) by (apply Z.quot_div_nonneg; lia).
  assert (Hq2 : 0 <= usec / 1000 < 1000) by zdiv_lia.
  destruct (managed_upd s fd a c (setTimeOut optname (sec * 1000 + usec / 1000)) Hm Hfd Ha Hac) as (s1 & E1 & M1 & K1 & C1 & _).
  { unfold setTimeOut. by destruct (_ =? _). }
  unfold mbind at 1, M_bind at 1. mstep E.
  rewrite (bind_Ret _ _ s (sec * 1000) s) by (unfold lift; by rewrite chk_signed_Ret by lia).
  rewrite (bind_Ret _ _ s (sec * 1000 + Z.quot usec 1000) s) by (unfold lift; by rewrite chk_signed_Ret by lia).
  rewrite Hq. unfold u64. rewrite wrapu_id, E1, sys_run by lia. eexists _, _, _. split; [reflexivity|]. split; [exact C1|].
  assert (Hg : getTimeOut optname (setTimeOut optname (sec * 1000 + usec / 1000) c) = sec * 1000 + usec / 1000)
    by (by destruct Hopt as [-> | ->]).
  rewrite Hg. split_and!; [done | unfold NO_TIMEOUT; lia | | intros; zdiv_lia |].
  - intros o [-> | ->] Hne; destruct Hopt as [-> | ->]; done.
  - unfold modes. cbn. by rewrite setsockopt_law, K1.
Qed.
End Theorems.

(** ** A table of descriptors as the kernel *)
Abbreviation fdtable := (gmap Z (bool * bool)) (only parsing).
Definition free_fd (k : fdtable) : Z :=
  match list_find (fun fd => k !! fd = None) (map Z.of_nat (seq 3 1024)) with Some (_, fd) => fd | None => -1 end.
Definition new_socket (nb : bool) (k : fdtable) : Z * fdtable :=
  let fd := free_fd k in if fd =? -1 then (-1, k) else (fd, <[fd := (true, nb)]> k).
Definition set_mode (k : fdtable) (fd : Z) (nb : bool) : Z * fdtable :=
  match k !! fd with Some (sock, _) => (0, <[fd := (sock, nb)]> k) | None => (-1, k) end.
Definition table_fcntl (k : fdtable) (fd cmd : Z) (arg : option Z) : Z * fdtable :=
  if cmd =? F_SETFL then set_mode k fd (nonblocking (default 0 arg))
  else if cmd =? F_GETFL
       then (match k !! fd with Some (_, true) => 2050 | Some (_, false) => 2 | None => -1 end, k) else (0, k).
#[local] Instance table_files : FileSys fdtable := {|
  fstat k fd := fst <$> (k : gmap Z (bool * bool)) !! fd;
  fcntl_f := table_fcntl;
  ioctl_f k fd request arg := if request =? FIONBIO then set_mode k fd (negb (arg =? 0)) else (0, k);
  socket_f k _ type _ := new_socket (nonblocking type) k;
  accept_f k _ := new_socket false k;
  close_f k fd := (0, delete fd (k : gmap Z (bool * bool)));
  setsockopt_f k _ _ _ _ := (0, k)
|}.
Lemma new_socket_law nb k :
  let '(fd, k') := new_socket nb k in
  fd = -1 /\ k' = k \/ 0 <= fd < 2 ^ 30 /\ k !! fd = None /\ exists nb, k' = <[fd := (true, nb)]> k.
Proof.
  unfold new_socket. destruct (Z.eqb_spec (free_fd k) (-1)) as [E|E]; [by left|]. right. unfold free_fd in *.
  destruct (list_find _ _) as [[i fd]|] eqn:Ef; [|done]. apply list_find_Some in Ef as (Hi & Hfree & _).
  apply list_elem_of_lookup_2, list_elem_of_In, in_map_iff in Hi as (n & <- & Hn). apply in_seq in Hn.
  split_and!; [lia|lia|done|]. by exists nb.
Qed.
Lemma set_mode_law k fd nb :
  match k !! fd with
  | Some (sock, _) => snd (set_mode k fd nb) = <[fd := (sock, nb)]> k
  | None => snd (set_mode k fd nb) = k
  end.
Proof. unfold set_mode. by destruct (k !! fd) as [[]|]. Qed.
#[local] Program Instance table_filespec : FileSpec fdtable := {| files := fun k => k |}.
Next Obligation. done. Qed.
Next Obligation.
  intros k fd arg. eexists. split; [reflexivity|]. cbn beta.
  destruct (k !! fd) as [[b []]|] eqn:E; try done; (split; [lia|done]).
Qed.
Next Obligation.
  intros k fd arg. cbn [fcntl_f table_files]. unfold table_fcntl. cbn [default from_option id]. change (F_SETFL =? F_SETFL) with true. cbn iota.
  pose proof (set_mode_law k fd (nonblocking arg)) as Hl. destruct (k !! fd) as [[[] nb]|]; eauto.
Qed.
Next Obligation.
  intros k fd cmd arg Hne _ _. cbn [fcntl_f table_files]. unfold table_fcntl. rewrite (proj2 (Z.eqb_neq _ _) Hne). by destruct (cmd =? F_GETFL).
Qed.
Next Obligation.
  intros k fd arg. cbn [ioctl_f table_files]. change (FIONBIO =? FIONBIO) with true. cbn iota.
  pose proof (set_mode_law k fd (negb (arg =? 0))) as Hl. destruct (k !! fd) as [[[] nb]|]; eauto.
Qed.
Next Obligation. intros k fd request arg Hne. cbn [ioctl_f table_files]. by rewrite (proj2 (Z.eqb_neq _ _) Hne). Qed.
Next Obligation. intros k domain type protocol. apply new_socket_law. Qed.
Next Obligation. intros k lfd. apply new_socket_law. Qed.
Next Obligation. done. Qed.
Next Obligation. done. Qed.

Fixpoint fd_trace (os : list FdOp) (s : FdManager fdtable) : FdManager fdtable :=
  match os with [] => s | o :: os => fd_trace os (snd (fd_run o s)) end.
(** Two sockets, of which the second is nonblocking for its user. *)
Definition two_sockets : FdManager fdtable :=
  fd_trace [FSocket 2 1 0; FAccept 3; FFcntl 4 F_SETFL O_NONBLOCK] (new_FdManager (∅ : fdtable)).
Lemma two_sockets_history : fd_history (∅ : fdtable) {[ 3 := false; 4 := true ]} two_sockets.
Proof.
  pose (s1 := fd_trace [FSocket 2 1 0] (new_FdManager (∅ : fdtable))).
  pose (s2 := fd_trace [FSocket 2 1 0; FAccept 3] (new_FdManager (∅ : fdtable))).
  assert (H1 : fd_history (∅ : fdtable) {[ 3 := false ]} s1).
  { apply (fd_next ∅ ∅ (new_FdManager ∅) (FSocket 2 1 0) 3); [constructor|done|vm_compute; reflexivity]. }
  assert (H2 : fd_history (∅ : fdtable) {[ 3 := false; 4 := false ]} s2).
  { apply (fd_next ∅ {[ 3 := false ]} s1 (FAccept 3) 4 s2 H1); [done|vm_compute; reflexivity]. }
  apply (fd_next ∅ {[ 3 := false; 4 := false ]} s2 (FFcntl 4 F_SETFL O_NONBLOCK) 0 two_sockets H2); [done|vm_compute; reflexivity].
Qed.
Lemma two_sockets_reachable : fd_reachable (∅ : fdtable) two_sockets.
Proof. eexists. apply two_sockets_history. Qed.
Definition socket_4 : FdCtx := mkFdCtx true true true true false 4 NO_TIMEOUT NO_TIMEOUT.

Lemma sockets_nonblocking_witness :
  modes two_sockets !! 4 = Some (true, true) /\
  (exists fl, fcntl 4 F_GETFL 0 two_sockets = (Ret fl, two_sockets) /\ nonblocking fl = true) /\
  exists s', setsockopt true 4 SOL_SOCKET SO_RCVTIMEO None two_sockets = (Crash, s').
Proof.
  destruct (sockets_nonblocking ∅ {[ 3 := false; 4 := true ]} two_sockets two_sockets_history) as (_ & Hrun & H).
  destruct (H 4 socket_4) as (_ & _ & Hm & (fl & E & Hg) & _); [vm_compute; reflexivity|]. split; [exact Hm|]. split.
  - exists fl. split; [exact E|]. assert (Hl : ({[ 3 := false; 4 := true ]} : gmap Z bool) !! 4 = Some true) by reflexivity.
    rewrite Hl in Hg. by injection Hg as <-.
  - exact (Hrun (FSetsockopt 4 SOL_SOCKET SO_RCVTIMEO None) I).
Defined.
Lemma ioctl_blocks_witness :
  exists r s', ioctl 4 FIONBIO 0 two_sockets = (Ret r, s') /\ modes s' !! 4 = Some (true, false).
Proof.
  destruct (ioctl_blocks ∅ two_sockets 4 socket_4 two_sockets_reachable) as (r & s' & E & _ & _ & Hm);
    [vm_compute; reflexivity|]. by exists r, s'.
Defined.
Lemma fd_manager_map_witness :
  exists s', del 4 two_sockets = (Ret tt, s') /\ ctx_of s' 4 = None /\ ctx_of s' 3 = ctx_of two_sockets 3.
Proof.
  destruct (fd_manager_map ∅ two_sockets 4 two_sockets_reachable) as (_ & _ & s' & E & Hn & _ & Ho); [lia|].
  exists s'. split_and!; [exact E | exact Hn | by apply Ho].
Defined.
Lemma setsockopt_timeout_witness :
  exists r s' c', setsockopt true 4 SOL_SOCKET SO_SNDTIMEO (Some (0, 999)) two_sockets = (Ret r, s') /\
    ctx_of s' 4 = Some c' /\ getTimeOut SO_SNDTIMEO c' = 0 /\ getTimeOut SO_RCVTIMEO c' = NO_TIMEOUT.
Proof.
  destruct (setsockopt_timeout ∅ two_sockets 4 socket_4 SO_SNDTIMEO 0 999 two_sockets_reachable)
    as (r & s' & c' & E & Hc & _ & _ & Ho & H0 & _); [vm_compute; reflexivity | by right | lia | lia |].
  exists r, s', c'. split_and!; [exact E | exact Hc | apply H0; lia | rewrite Ho; [reflexivity | by left | done]].
Defined.
