(* ===== verification/HashUtil.v ===== *)
(** * String and hash utilities (cxk/util/hash_util.cpp)

    Strings are lists of bytes.  [find] and [substr] of [std::string] are
    written out; positions are [nat], [None] is [npos].  The digests of OpenSSL
    are parameters. *)
From S2P Require Import Prelude.

(** ** murmur3 *)
Definition ROTL (x r : Z) : Z := Z.lor (u32 (Z.shiftl x r)) (Z.shiftr x (32 - r)).

Definition fmix32 (h : Z) : Z :=
  let h := Z.lxor h (Z.shiftr h 16) in
  let h := u32 (h * 0x85ebca6b) in
  let h := Z.lxor h (Z.shiftr h 13) in
  let h := u32 (h * 0xc2b2ae35) in
  Z.lxor h (Z.shiftr h 16).

Definition murmur_scramble (s : Z) : Z := u32 (ROTL (u32 (s * 0xcc9e2d51)) 15 * 0x1b873593).

(** The loop over the blocks of four bytes, read as little-endian words. *)
Fixpoint murmur_blocks (blk : nat) (str : list Z) (h : Z) : Z :=
  match blk with
  | O => h
  | S blk =>
      let s := murmur_scramble (le_combine (take 4 str)) in
      let h := ROTL (Z.lxor h s) 13 in
      murmur_blocks blk (drop 4 str) (u32 (u32 (h * 5) + 0xe6546b64))
  end.

(** [murmur3_hash(const void*, size, seed)], [None] for the null pointer; [data]
    holds [size] bytes.  A size of 2^31 or more makes [len] negative; its tail is
    then before the data. *)
Definition murmur3_hash (data : option (list Z)) (size seed : Z) : outcome Z :=
  match data with
  | None => Ret 0
  | Some str =>
      let len := i32 size in
      let blk := Z.quot len 4 in
      let h := murmur_blocks (Z.to_nat blk) str seed in
      let rem := Z.land len 3 in
      if rem =? 0 then Ret (fmix32 (Z.lxor h (u32 len)))
      else if len <? 0 then Crash
      else
        let tail := drop (Z.to_nat (blk * 4)) str in
        let s := le_combine (take (Z.to_nat rem) tail) in
        Ret (fmix32 (Z.lxor (Z.lxor h (murmur_scramble s)) (u32 len)))
  end.
(** [murmur3_hash(const char*, seed)]: up to the terminating null character. *)
Definition murmur3_hash_str (str : option (list Z)) (seed : Z) : outcome Z :=
  match str with
  | None => Ret 0
  | Some s => murmur3_hash (Some (c_str s)) (Z.of_nat (length (c_str s))) seed
  end.
Definition murmur3_hash64 (str : option (list Z)) (size seed seed2 : Z) : outcome Z :=
  h1 ← murmur3_hash str size seed;
  h2 ← murmur3_hash str size seed2;
  Ret (Z.lor (u64 (Z.shiftl h1 32)) h2).
Definition murmur3_hash64_str (str : option (list Z)) (seed seed2 : Z) : outcome Z :=
  h1 ← murmur3_hash_str str seed;
  h2 ← murmur3_hash_str str seed2;
  Ret (Z.lor (u64 (Z.shiftl h1 32)) h2).

(** ** quick_hash: a [char] is signed. *)
Definition quick_hash (str : list Z) : Z :=
  foldl (fun h c => u32 (31 * h + wraps 8 c)) 0 (c_str str).
(** [quick_hash(const void*, size)]: the pointer is never advanced. *)
Fixpoint quick_hash_loop (n : nat) (c h : Z) : Z :=
  match n with O => h | S n => quick_hash_loop n c (u32 (31 * h + wraps 8 c)) end.
Definition quick_hash_mem (tmp : list Z) (size : Z) : outcome Z :=
  if size =? 0 then Ret 0 else
  match tmp with [] => Crash | c :: _ => Ret (quick_hash_loop (Z.to_nat size) c 0) end.

(** ** base64 *)
Definition base64 : list Z :=
  map (fun n => Z.of_nat n + 65) (seq 0 26) ++ map (fun n => Z.of_nat n + 97) (seq 0 26) ++
  map (fun n => Z.of_nat n + 48) (seq 0 10) ++ [43; 47].
Definition base64_char (i : Z) : Z := nth (Z.to_nat i) base64 0.

(** One round of the encoder's loop: up to three bytes. *)
Definition encode_group (grp : list Z) : list Z :=
  let i := length grp in
  let padding := match i with 2%nat => 1%nat | 1%nat => 2%nat | _ => 0%nat end in
  let packed := foldl (fun p b => u32 (Z.lor (u32 (Z.shiftl p 8)) b)) 0 grp in
  let packed := Nat.iter (3 - i) (fun p => u32 (Z.shiftl p 8)) packed in
  [base64_char (Z.shiftr packed 18); base64_char (Z.land (Z.shiftr packed 12) 0x3f)]
    ++ (if (padding =? 2)%nat then [] else [base64_char (Z.land (Z.shiftr packed 6) 0x3f)])
    ++ (if (padding =? 0)%nat then [base64_char (Z.land packed 0x3f)] else [])
    ++ replicate padding 61.
Fixpoint base64encode_loop (fuel : nat) (data : list Z) : list Z :=
  match fuel, data with
  | S fuel, _ :: _ => encode_group (take 3 data) ++ base64encode_loop fuel (drop 3 data)
  | _, _ => []
  end.
Definition base64encode (data : list Z) : list Z := base64encode_loop (length data) data.

(** The value of a character; [None] is an invalid one. *)
Definition base64_val (c : Z) : option Z :=
  if (65 <=? c) && (c <=? 90) then Some (c - 65)
  else if (97 <=? c) && (c <=? 122) then Some (c - 97 + 26)
  else if (48 <=? c) && (c <=? 57) then Some (c - 48 + 52)
  else if c =? 43 then Some 62
  else if c =? 47 then Some 63
  else None.
(** The inner loop on a group; [None] is the early [return ""]. *)
Fixpoint decode_group (grp : list Z) (packed : Z) (padding : nat) : option (Z * nat) :=
  match grp with
  | [] => Some (packed, padding)
  | c :: grp =>
      if c =? 61 then decode_group grp (Z.shiftl packed 6) (S padding)
      else if (0 <? padding)%nat then None
      else match base64_val c with
           | None => None
           | Some v => decode_group grp (Z.lor (Z.shiftl packed 6) v) padding
           end
  end.
Fixpoint base64decode_loop (fuel : nat) (src : list Z) (out : list Z) : list Z :=
  match fuel, src with
  | S fuel, _ :: _ =>
      let grp := take 4 src in
      match decode_group grp 0 0 with
      | None => []
      | Some (packed, padding) =>
          if negb (length grp =? 4)%nat then [] else
          if (0 <? padding)%nat && negb (length (drop 4 src) =? 0)%nat then [] else
          if (2 <? padding)%nat then [] else
          base64decode_loop fuel (drop 4 src)
            (out ++ [Z.land (Z.shiftr packed 16) 0xff]
               ++ (if (padding =? 2)%nat then [] else [Z.land (Z.shiftr packed 8) 0xff])
               ++ (if (padding =? 0)%nat then [Z.land packed 0xff] else []))
      end
  | _, _ => out
  end.
Definition base64decode (src : list Z) : list Z := base64decode_loop (length src) src [].

(** ** Hexadecimal *)
Definition hex_char (c : Z) : Z := if 9 <? c then c + 97 - 10 else c + 48.
Fixpoint hexstring_from_data (data : list Z) : list Z :=
  match data with
  | [] => []
  | b :: data => hex_char (Z.land (Z.shiftr b 4) 0xf) :: hex_char (Z.land b 0xf) :: hexstring_from_data data
  end.
Definition hex_val (c : Z) : option Z :=
  if (97 <=? c) && (c <=? 102) then Some (c - 97 + 10)
  else if (65 <=? c) && (c <=? 70) then Some (c - 65 + 10)
  else if (48 <=? c) && (c <=? 57) then Some (c - 48)
  else None.
Fixpoint data_from_hexstring_loop (s : list Z) : outcome (list Z) :=
  match s with
  | hi :: lo :: s =>
      match hex_val hi with
      | None => Throw InvalidArgument
      | Some h =>
          match hex_val lo with
          | None => Throw InvalidArgument
          | Some l => rest ← data_from_hexstring_loop s; Ret (Z.lor (u8 (Z.shiftl h 4)) l :: rest)
          end
      end
  | _ => Ret []
  end.
Definition data_from_hexstring (hexstring : list Z) : outcome (list Z) :=
  if negb (Z.of_nat (length hexstring) mod 2 =? 0) then Throw InvalidArgument
  else data_from_hexstring_loop hexstring.

(** ** Digests: what [Init], [Update]s and [Final] compute is a function of the
    bytes given. *)
Section Digest.
Context (digest : list Z -> list Z).
(** [hmac<..., B, L>] *)
Definition hmac (B L : nat) (text key : list Z) : list Z :=
  let keyLocal := if (B <? length key)%nat then take L (digest key) else key in
  let keyLocal := keyLocal ++ replicate (B - length keyLocal) 0 in
  let ipad := map (fun c => Z.lxor c 0x36) keyLocal in
  let opad := map (fun c => Z.lxor c 0x5c) keyLocal in
  let result := take L (digest (ipad ++ text)) in
  take L (digest (opad ++ result)).
(** [md5sum], [sha0sum] and [sha1sum] differ only in the digest and its length. *)
Definition digest_sum (L : nat) (data : list Z) : list Z := take L (digest data).
Definition digest_hex (L : nat) (data : list Z) : list Z := hexstring_from_data (digest_sum L data).
End Digest.

(** ** std::string *)
Fixpoint find_char (c : Z) (i : nat) (l : list Z) : option nat :=
  match l with [] => None | x :: l => if x =? c then Some i else find_char c (S i) l end.
(** [str.find(c, pos)] *)
Definition find_from (c : Z) (pos : nat) (str : list Z) : option nat := find_char c pos (drop pos str).
Fixpoint find_any (cs : list Z) (i : nat) (l : list Z) : option nat :=
  match l with [] => None | x :: l => if bool_decide (x ∈ cs) then Some i else find_any cs (S i) l end.
(** [str.find_first_of(delims, pos)] *)
Definition find_first_of (cs : list Z) (pos : nat) (str : list Z) : option nat := find_any cs pos (drop pos str).
Fixpoint find_sub (p : list Z) (i : nat) (l : list Z) : option nat :=
  if bool_decide (take (length p) l = p) then Some i else
  match l with [] => None | _ :: l => find_sub p (S i) l end.
(** [str.find(p, pos)] *)
Definition find_str (p : list Z) (pos : nat) (str : list Z) : option nat :=
  if (length str <? pos)%nat then None else find_sub p pos (drop pos str).

(** ** replace *)
Fixpoint replace_char_loop (fuel : nat) (find replaceWith : Z) (index : option nat) (str : list Z) : outcome (list Z) :=
  match index with
  | None => Ret str
  | Some i =>
      match fuel with
      | O => NoFuel
      | S fuel =>
          let str := <[i := replaceWith]> str in
          replace_char_loop fuel find replaceWith (find_from find (S i) str) str
      end
  end.
Definition replace_char (find replaceWith : Z) (str : list Z) : outcome (list Z) :=
  replace_char_loop (length str) find replaceWith (find_from find 0 str) str.

Fixpoint replace_char_str_loop (fuel : nat) (find : Z) (replaceWith : list Z) (index : option nat) (str : list Z) :
    outcome (list Z) :=
  match index with
  | None => Ret str
  | Some i =>
      match fuel with
      | O => NoFuel
      | S fuel =>
          let str := take i str ++ replaceWith ++ drop (S i) str in
          replace_char_str_loop fuel find replaceWith (find_from find (i + length replaceWith) str) str
      end
  end.
Definition replace_char_str (find : Z) (replaceWith str : list Z) : outcome (list Z) :=
  replace_char_str_loop (length str) find replaceWith (find_from find 0 str) str.

(** [replace(str, find, replaceWith)] on strings, with the fuel given. *)
Fixpoint replace_str_loop (fuel : nat) (find replaceWith : list Z) (index : option nat) (str : list Z) :
    outcome (list Z) :=
  match index with
  | None => Ret str
  | Some i =>
      match fuel with
      | O => NoFuel
      | S fuel =>
          let str := take i str ++ replaceWith ++ drop (i + length find) str in
          replace_str_loop fuel find replaceWith (find_str find (i + length replaceWith) str) str
      end
  end.
Definition replace_str (fuel : nat) (find replaceWith str : list Z) : outcome (list Z) :=
  replace_str_loop fuel find replaceWith (find_str find 0 str) str.

(** ** split: [next last] finds the next delimiter; [max] is a [size_t], decreased
    (with wrap-around) at every piece. *)
Fixpoint split_loop (fuel : nat) (next : nat -> option nat) (str : list Z) (last : nat) (pos : option nat) (max : Z) :
    outcome (list (list Z)) :=
  match pos with
  | None => Ret [drop last str]
  | Some p =>
      match fuel with
      | O => NoFuel
      | S fuel =>
          let piece := slice last (p - last) str in
          let last := S p in
          let max := u64 (max - 1) in
          if max =? 1 then Ret [piece; drop last str]
          else rest ← split_loop fuel next str last (next last) max; Ret (piece :: rest)
      end
  end.
Definition split_on (next : nat -> option nat) (str : list Z) (max : Z) : outcome (list (list Z)) :=
  if (length str =? 0)%nat then Ret [] else split_loop (length str) next str 0 (next 0%nat) max.
Definition split (str : list Z) (delim : Z) (max : Z) : outcome (list (list Z)) :=
  split_on (fun pos => find_from delim pos str) str max.
Definition split_any (str delims : list Z) (max : Z) : outcome (list (list Z)) :=
  split_on (fun pos => find_first_of delims pos str) str max.

(** ** random_string: the results of [rand()] are given; [sizeof(CHARS)] counts
    the terminating null. *)
Definition CHARS : list Z :=
  map (fun n => Z.of_nat n + 48) (seq 0 10) ++ map (fun n => Z.of_nat n + 97) (seq 0 26) ++
  map (fun n => Z.of_nat n + 65) (seq 0 26) ++ [0].
Definition random_string (rands : list Z) : list Z :=
  map (fun r => nth (Z.to_nat (r mod Z.of_nat (length CHARS))) CHARS 0) rands.


(** ** Lemmas on bits *)
Lemma lor_shiftl_add k a b : 0 <= k -> 0 <= b < 2 ^ k -> Z.lor (Z.shiftl a k) b = a * 2 ^ k + b.
Proof.
  intros Hk Hb.
  assert (Hd : Z.land (Z.shiftl a k) b = 0).
  { apply Z.bits_inj'. intros i Hi. rewrite Z.land_spec, Z.bits_0.
    destruct (Z.lt_ge_cases i k).
    - by rewrite Z.shiftl_spec_low.
    - replace b with (b mod 2 ^ k) by (by apply Z.mod_small).
      rewrite Z.mod_pow2_bits_high by lia. apply andb_false_r. }
  rewrite <- Z.lxor_lor, <- Z.add_nocarry_lxor, Z.shiftl_mul_pow2 by done. done.
Qed.
Lemma land_63 p : Z.land p 0x3f = p mod 64.
Proof. apply (Z.land_ones p 6). lia. Qed.
Lemma land_255 p : Z.land p 0xff = p mod 256.
Proof. apply (Z.land_ones p 8). lia. Qed.
Lemma land_15 p : Z.land p 0xf = p mod 16.
Proof. apply (Z.land_ones p 4). lia. Qed.
(** ** base64 *)
Definition val_check (i : Z) : bool :=
  match base64_val (base64_char i) with Some v => (v =? i) && negb (base64_char i =? 61) | None => false end.
Lemma base64_char_val i : 0 <= i < 64 -> base64_val (base64_char i) = Some i /\ base64_char i <> 61.
Proof.
  intros Hi. assert (H : val_check i = true) by (apply (forallb_range 64); [by vm_compute | lia]).
  unfold val_check in H. destruct (base64_val _); [|done]. split; [f_equal|]; bool_lia.
Qed.
Lemma decode_group_char i grp packed :
  0 <= i < 64 ->
  decode_group (base64_char i :: grp) packed 0 = decode_group grp (packed * 64 + i) 0.
Proof.
  intros Hi. destruct (base64_char_val i Hi) as [Hv Hne]. cbn [decode_group].
  rewrite (proj2 (Z.eqb_neq _ _) Hne), Hv. cbn [Nat.ltb Nat.leb].
  by rewrite (lor_shiftl_add 6) by lia.
Qed.
Lemma decode_group_pad grp packed n :
  decode_group (61 :: grp) packed n = decode_group grp (packed * 64) (S n).
Proof. cbn [decode_group]. by rewrite Z.shiftl_mul_pow2. Qed.

(** The word the encoder packs, as a number. *)
Lemma pack_byte p b : 0 <= p < 2 ^ 16 -> byte_ok b -> u32 (Z.lor (u32 (Z.shiftl p 8)) b) = p * 256 + b.
Proof.
  unfold byte_ok. intros Hp Hb. unfold u32.
  rewrite (wrapu_id 32 (Z.shiftl p 8)) by (rewrite Z.shiftl_mul_pow2 by lia; lia).
  rewrite (lor_shiftl_add 8) by lia. apply wrapu_id. lia.
Qed.
Lemma pack_zero p : 0 <= p < 2 ^ 16 -> u32 (Z.shiftl p 8) = p * 256.
Proof. intros Hp. unfold u32. rewrite Z.shiftl_mul_pow2 by lia. apply wrapu_id. lia. Qed.

Ltac chars_lia :=
  rewrite !land_63, ?Z.shiftr_div_pow2 by lia;
  repeat first [apply (f_equal2 cons) | apply (f_equal base64_char) | reflexivity];
  change (2 ^ 18) with 262144; change (2 ^ 12) with 4096; change (2 ^ 6) with 64; zdiv_lia.

Lemma encode_group_3 a b c :
  byte_ok a -> byte_ok b -> byte_ok c ->
  encode_group [a; b; c] = map base64_char [a / 4; a mod 4 * 16 + b / 16; b mod 16 * 4 + c / 64; c mod 64].
Proof.
  intros Ha Hb Hc. unfold encode_group. cbn [length foldl Nat.iter nat_rect Nat.sub Nat.eqb replicate app map].
  unfold byte_ok in *. rewrite (pack_byte 0 a), (pack_byte _ b), (pack_byte _ c) by (unfold byte_ok; lia).
  chars_lia.
Qed.
Lemma encode_group_2 a b :
  byte_ok a -> byte_ok b ->
  encode_group [a; b] = map base64_char [a / 4; a mod 4 * 16 + b / 16; b mod 16 * 4] ++ [61].
Proof.
  intros Ha Hb. unfold encode_group. cbn [length foldl Nat.iter nat_rect Nat.sub Nat.eqb replicate app map].
  unfold byte_ok in *. rewrite (pack_byte 0 a), (pack_byte _ b) by (unfold byte_ok; lia).
  rewrite pack_zero by lia.
  chars_lia.
Qed.
Lemma encode_group_1 a :
  byte_ok a -> encode_group [a] = map base64_char [a / 4; a mod 4 * 16] ++ [61; 61].
Proof.
  intros Ha. unfold encode_group. cbn [length foldl Nat.iter nat_rect Nat.sub Nat.eqb replicate app map].
  unfold byte_ok in *. rewrite (pack_byte 0 a) by (unfold byte_ok; lia).
  rewrite (pack_zero (_ + _)) by lia. rewrite pack_zero by lia.
  chars_lia.
Qed.

(** Splitting off one group on both sides. *)
Lemma decode_loop_group fuel grp src out p pad :
  length grp = 4%nat -> decode_group grp 0 0 = Some (p, pad) -> (pad <= 2)%nat ->
  (pad = 0%nat \/ src = []) ->
  base64decode_loop (S fuel) (grp ++ src) out =
    base64decode_loop fuel src (out ++ take (3 - pad) [p / 65536 mod 256; p / 256 mod 256; p mod 256]).
Proof.
  intros Hl Hd Hp Hs. destruct grp as [|x grp]; [done|]. cbn [base64decode_loop app].
  rewrite app_comm_cons, take_app_length', drop_app_length' by done. rewrite Hd, Hl. cbn [Nat.eqb negb].
  rewrite !land_255, !Z.shiftr_div_pow2 by lia.
  change (2 ^ 16) with 65536. change (2 ^ 8) with 256.
  destruct Hs as [-> | ->]; [done|]. cbn [length Nat.eqb negb]. rewrite andb_false_r.
  destruct pad as [|[|[|?]]]; [done..|lia].
Qed.
Lemma decode_encode_group grp :
  Forall byte_ok grp -> (1 <= length grp <= 3)%nat ->
  length (encode_group grp) = 4%nat /\
  exists p, decode_group (encode_group grp) 0 0 = Some (p, (3 - length grp)%nat) /\
    take (length grp) [p / 65536 mod 256; p / 256 mod 256; p mod 256] = grp.
Proof.
  intros Hb Hl.
  destruct grp as [|a [|b [|c [|? ?]]]]; cbn [length] in Hl; try lia;
    rewrite ?list.Forall_cons in Hb; unfold byte_ok in Hb;
    rewrite ?encode_group_1, ?encode_group_2, ?encode_group_3 by (unfold byte_ok; lia);
    (split; [done|]); eexists; cbn [map app];
    (split; [rewrite !decode_group_char by zdiv_lia; rewrite ?decode_group_pad; reflexivity|]);
    cbn [take length]; repeat (apply (f_equal2 cons); [zdiv_lia|]); done.
Qed.

Lemma base64_loops n1 n2 data out :
  Forall byte_ok data -> (length data <= n1)%nat -> (length (base64encode_loop n1 data) <= n2)%nat ->
  length (base64encode_loop n1 data) = (4 * ((length data + 2) / 3))%nat /\
  base64decode_loop n2 (base64encode_loop n1 data) out = out ++ data.
Proof.
  revert n2 data out. induction n1 as [|n1 IH]; intros n2 data out Hb H1 H2.
  { destruct data; [|simpl in H1; lia]. split; [done|]. rewrite app_nil_r. by destruct n2. }
  destruct data as [|d data]; [rewrite app_nil_r; by destruct n2|].
  remember (d :: data) as l eqn:El. assert (Hne : (1 <= length l)%nat) by (subst; simpl; lia).
  assert (E : base64encode_loop (S n1) l = encode_group (take 3 l) ++ base64encode_loop n1 (drop 3 l))
    by (by rewrite El).
  rewrite E in H2 |- *. clear E El d data.
  destruct (decode_encode_group (take 3 l)) as (Hl4 & p & Hd & Hp).
  { by apply list.Forall_take. }
  { rewrite length_take. lia. }
  rewrite length_app, Hl4 in H2. destruct n2 as [|n2]; [lia|].
  destruct (IH n2 (drop 3 l) (out ++ take 3 l)) as [IH1 IH2].
  { by apply list.Forall_drop. } { rewrite length_drop. lia. } { lia. }
  split.
  { rewrite length_app, Hl4, IH1, length_drop.
    destruct (Nat.le_gt_cases 3 (length l)) as [H3|H3].
    - replace (length l + 2)%nat with ((length l - 3 + 2) + 1 * 3)%nat by lia.
      rewrite Nat.div_add by lia. lia.
    - assert (length l = 1 \/ length l = 2)%nat as [-> | ->] by lia; done. }
  rewrite (decode_loop_group n2 _ _ _ p _ Hl4 Hd).
  2: { rewrite length_take. lia. }
  2: { rewrite length_take. destruct (Nat.le_gt_cases 3 (length l)); [left; lia | right].
       rewrite drop_ge by lia. by destruct n1. }
  replace (3 - (3 - length (take 3 l)))%nat with (length (take 3 l)) by (rewrite length_take; lia).
  rewrite Hp, IH2, <- app_assoc, take_drop. done.
Qed.

(** [base64decode] undoes [base64encode] for every byte string, and the
    encoding takes four characters for every three bytes begun. *)
Theorem base64_roundtrip data :
  Forall byte_ok data ->
  base64decode (base64encode data) = data /\
  length (base64encode data) = (4 * ((length data + 2) / 3))%nat.
Proof.
  intros Hb. unfold base64decode, base64encode.
  destruct (base64_loops (length data) _ data [] Hb (le_n _) (le_n _)) as [-> ->]. done.
Qed.
Lemma base64_roundtrip_witness :
  base64encode [77; 97; 110; 255] = [84; 87; 70; 117; 47; 119; 61; 61] /\
  base64decode [84; 87; 70; 117; 47; 119; 61; 61] = [77; 97; 110; 255].
Proof.
  split; [by vm_compute|].
  apply (base64_roundtrip [77; 97; 110; 255]). repeat constructor; done.
Defined.

(** ** Hexadecimal *)
Definition is_hex (c : Z) : bool := match hex_val c with Some _ => true | None => false end.
Definition lower (c : Z) : Z := if (65 <=? c) && (c <=? 70) then c + 32 else c.

Lemma hex_val_spec c v : hex_val c = Some v -> 0 <= v < 16 /\ hex_char v = lower c.
Proof.
  unfold hex_val. repeat (zcase; cbn [andb]); intros [= <-]; unfold hex_char, lower;
    (split; [lia | repeat (zcase; cbn [andb]); lia]).
Qed.
Lemma hex_val_char v : 0 <= v < 16 -> hex_val (hex_char v) = Some v.
Proof. intros. unfold hex_char. zcase; unfold hex_val; repeat (zcase; cbn [andb]); first [f_equal; lia | exfalso; lia]. Qed.
Lemma hex_byte h l :
  0 <= h < 16 -> 0 <= l < 16 -> Z.lor (u8 (Z.shiftl h 4)) l = h * 16 + l.
Proof.
  intros. unfold u8. rewrite wrapu_id by (rewrite Z.shiftl_mul_pow2 by lia; lia).
  by rewrite (lor_shiftl_add 4) by lia.
Qed.
Lemma hexstring_app b data :
  byte_ok b -> hexstring_from_data (b :: data) = hex_char (b / 16) :: hex_char (b mod 16) :: hexstring_from_data data.
Proof.
  intros Hb. cbn [hexstring_from_data]. rewrite !land_15, Z.shiftr_div_pow2 by lia.
  change (2 ^ 4) with 16. by rewrite (Z.mod_small (b / 16)) by (unfold byte_ok in Hb; zdiv_lia).
Qed.
Lemma hex_loop_roundtrip data :
  Forall byte_ok data -> data_from_hexstring_loop (hexstring_from_data data) = Ret data.
Proof.
  induction 1 as [|b data Hb _ IH]; [done|]. rewrite hexstring_app by done. unfold byte_ok in Hb.
  cbn [data_from_hexstring_loop]. rewrite !hex_val_char by zdiv_lia.
  rewrite IH. cbn. rewrite hex_byte by zdiv_lia. do 2 f_equal. zdiv_lia.
Qed.
Lemma hex_loop_spec n s :
  (length s <= n)%nat -> Nat.even (length s) = true ->
  match data_from_hexstring_loop s with
  | Ret data => forallb is_hex s = true /\ Forall byte_ok data /\ hexstring_from_data data = map lower s
  | Throw e => e = InvalidArgument /\ forallb is_hex s = false
  | _ => False
  end.
Proof.
  revert s. induction n as [|n IH]; intros s Hn He; destruct s as [|hi [|lo s]]; try done; cbn [length] in Hn; try lia.
  specialize (IH s ltac:(lia) He). cbn [data_from_hexstring_loop forallb map].
  assert (Eq : forall c, is_hex c = match hex_val c with Some _ => true | None => false end) by done.
  rewrite (Eq hi), (Eq lo).
  destruct (hex_val hi) as [h|] eqn:Eh; [|done].
  destruct (hex_val lo) as [l|] eqn:El; [|split; [done | apply andb_false_r]].
  apply hex_val_spec in Eh as [Hh Eh]. apply hex_val_spec in El as [Hl El].
  destruct (data_from_hexstring_loop s) as [data|e| |]; cbn; [|done..].
  destruct IH as (-> & IH2 & IH3). rewrite hex_byte by done.
  assert (byte_ok (h * 16 + l)) by (unfold byte_ok; lia).
  split_and!; [done | by constructor |].
  change (hexstring_from_data ((h * 16 + l) :: data) = lower hi :: lower lo :: map lower s).
  rewrite hexstring_app, IH3, <- Eh, <- El by done.
  repeat apply (f_equal2 cons); [f_equal; zdiv_lia.. | done].
Qed.
Lemma even_mod2 n : (Z.of_nat n mod 2 =? 0) = Nat.even n.
Proof.
  destruct (Nat.even n) eqn:E.
  - apply Nat.even_spec in E as [k ->]. apply Z.eqb_eq. zdiv_lia.
  - rewrite <- Nat.negb_odd in E. apply negb_false_iff, Nat.odd_spec in E as [k ->].
    apply Z.eqb_neq. zdiv_lia.
Qed.
Lemma length_hexstring data : length (hexstring_from_data data) = (2 * length data)%nat.
Proof. induction data as [|b data IH]; [done|]. cbn [hexstring_from_data length]. lia. Qed.

(** [data_from_hexstring] undoes [hexstring_from_data] on every byte string.
    On an arbitrary string it succeeds exactly when the length is even and every
    character is a hexadecimal digit of either case; it then returns bytes whose
    hexadecimal form is the string in lower case.  Otherwise it throws
    [std::invalid_argument]. *)
Theorem hex_roundtrip :
  (forall data, Forall byte_ok data -> data_from_hexstring (hexstring_from_data data) = Ret data) /\
  (forall s, match data_from_hexstring s with
             | Ret data => Nat.even (length s) && forallb is_hex s = true /\ Forall byte_ok data /\
                           hexstring_from_data data = map lower s
             | Throw e => e = InvalidArgument /\ Nat.even (length s) && forallb is_hex s = false
             | _ => False
             end).
Proof.
  split.
  - intros data Hb. unfold data_from_hexstring. rewrite even_mod2, length_hexstring, Nat.even_mul.
    by apply hex_loop_roundtrip.
  - intros s. unfold data_from_hexstring. rewrite even_mod2. destruct (Nat.even (length s)) eqn:He; [|done].
    apply (hex_loop_spec (length s)); done.
Qed.
Lemma hex_roundtrip_witness :
  data_from_hexstring (hexstring_from_data [0; 175; 255]) = Ret [0; 175; 255] /\
  data_from_hexstring [65; 102] = Ret [175].
Proof.
  split; [|by vm_compute].
  apply (proj1 hex_roundtrip). repeat constructor; done.
Defined.

(** ** find *)
Lemma find_any_cases cs i l :
  (find_any cs i l = None /\ Forall (.∉ cs) l) \/
  exists a x b, l = a ++ x :: b /\ Forall (.∉ cs) a /\ x ∈ cs /\ find_any cs i l = Some (i + length a)%nat.
Proof.
  revert i. induction l as [|x l IH]; intros i; [by left|]. cbn [find_any].
  case_bool_decide as Hx.
  - right. exists [], x, l. split_and!; [done.. |]. f_equal. simpl. lia.
  - destruct (IH (S i)) as [[-> Hl] | (a & y & b & -> & Ha & Hy & ->)].
    + left. split; [done | by constructor].
    + right. exists (x :: a), y, b. split_and!; [done | by constructor | done |]. f_equal. simpl. lia.
Qed.
Lemma find_char_any c i l : find_char c i l = find_any [c] i l.
Proof.
  revert i. induction l as [|x l IH]; intros i; [done|]. cbn [find_char find_any]. rewrite IH.
  case_bool_decide as H; rewrite list_elem_of_singleton in H; destruct (Z.eqb_spec x c); congruence.
Qed.
Lemma find_from_app c pre l : find_from c (length pre) (pre ++ l) = find_any [c] (length pre) l.
Proof. unfold find_from. by rewrite drop_app_length, find_char_any. Qed.
Lemma find_from_cases c pre l :
  (find_from c (length pre) (pre ++ l) = None /\ Forall (.≠ c) l) \/
  exists a b, l = a ++ c :: b /\ Forall (.≠ c) a /\ find_from c (length pre) (pre ++ l) = Some (length (pre ++ a)).
Proof.
  rewrite find_from_app.
  assert (Hi : forall l, Forall (.∉ [c]) l -> Forall (.≠ c) l).
  { intros l' H. eapply list.Forall_impl; [exact H|]. intros x Hx ->. apply Hx. by left. }
  destruct (find_any_cases [c] (length pre) l) as [[-> H] | (a & x & b & -> & Ha & Hx & ->)].
  - left. auto.
  - right. apply list_elem_of_singleton in Hx as ->. exists a, b. rewrite length_app. auto.
Qed.

(** ** replace *)
Lemma map_not_char {B} (c : Z) (f g : Z -> B) (l : list Z) :
  Forall (.≠ c) l -> map (fun x => if x =? c then f x else g x) l = map g l.
Proof. induction 1 as [|x l Hx _ IH]; [done|]. cbn. rewrite IH, (proj2 (Z.eqb_neq _ _)); done. Qed.

Definition replace_ref (find : Z) (replaceWith : list Z) (str : list Z) : list Z :=
  concat (map (fun c => if c =? find then replaceWith else [c]) str).
Lemma replace_ref_none find rw l : Forall (.≠ find) l -> replace_ref find rw l = l.
Proof.
  intros H. unfold replace_ref. rewrite (map_not_char find (fun _ => rw) (fun c => [c])) by done.
  induction l; [done|]. cbn. f_equal. apply IHl. by apply list.Forall_cons in H as [_ ?].
Qed.
Lemma replace_ref_step find rw a b :
  Forall (.≠ find) a -> replace_ref find rw (a ++ find :: b) = a ++ rw ++ replace_ref find rw b.
Proof.
  intros Ha. rewrite <- (replace_ref_none find rw a) at 2 by done.
  unfold replace_ref. rewrite map_app, concat_app. cbn. by rewrite Z.eqb_refl.
Qed.

Lemma replace_char_loop_spec fuel f r pre l :
  (length l <= fuel)%nat ->
  replace_char_loop fuel f r (find_from f (length pre) (pre ++ l)) (pre ++ l) = Ret (pre ++ replace_ref f [r] l).
Proof.
  revert pre l. induction fuel as [|fuel IH]; intros pre l Hl.
  { destruct l; [|simpl in Hl; lia]. rewrite find_from_app. done. }
  destruct (find_from_cases f pre l) as [[-> H] | (a & b & -> & Ha & ->)].
  - by rewrite replace_ref_none.
  - cbn [replace_char_loop]. rewrite app_assoc, <- (Nat.add_0_r (length (pre ++ a))), insert_app_r.
    change (<[0%nat := r]> (f :: b)) with (r :: b).
    rewrite (cons_middle r), app_assoc.
    replace (S (length (pre ++ a) + 0)) with (length ((pre ++ a) ++ [r])) by (rewrite (length_app (pre ++ a)); simpl; lia).
    rewrite length_app in Hl. simpl in Hl.
    rewrite IH by lia. rewrite replace_ref_step by done.
    by rewrite <- !app_assoc.
Qed.
Lemma replace_char_str_loop_spec fuel f rw pre l :
  (length l <= fuel)%nat ->
  replace_char_str_loop fuel f rw (find_from f (length pre) (pre ++ l)) (pre ++ l) = Ret (pre ++ replace_ref f rw l).
Proof.
  revert pre l. induction fuel as [|fuel IH]; intros pre l Hl.
  { destruct l; [|simpl in Hl; lia]. rewrite find_from_app. done. }
  destruct (find_from_cases f pre l) as [[-> H] | (a & b & -> & Ha & ->)].
  - by rewrite replace_ref_none.
  - cbn [replace_char_str_loop]. rewrite (app_assoc pre a), take_app_length.
    replace (S (length (pre ++ a))) with (length ((pre ++ a) ++ [f])) by (rewrite (length_app (pre ++ a)); simpl; lia).
    rewrite (cons_middle f (pre ++ a) b), (app_assoc (pre ++ a) [f] b), drop_app_length.
    rewrite <- (length_app (pre ++ a) rw), (app_assoc (pre ++ a) rw b).
    rewrite length_app in Hl. simpl in Hl.
    rewrite IH by lia. rewrite replace_ref_step by done.
    by rewrite <- !app_assoc.
Qed.

(** Left-most, non-overlapping replacement; [skip] characters belong to a match. *)
Fixpoint replace_str_ref (find rw : list Z) (skip : nat) (l : list Z) : list Z :=
  match l with
  | [] => []
  | x :: t =>
      match skip with
      | S k => replace_str_ref find rw k t
      | O => if bool_decide (take (length find) l = find)
             then rw ++ replace_str_ref find rw (pred (length find)) t
             else x :: replace_str_ref find rw 0 t
      end
  end.
Lemma replace_str_ref_skip find rw a b :
  replace_str_ref find rw (length a) (a ++ b) = replace_str_ref find rw 0 b.
Proof. induction a as [|x a IH]; [done|]. exact IH. Qed.
Lemma replace_str_ref_hit find rw b :
  find <> [] -> replace_str_ref find rw 0 (find ++ b) = rw ++ replace_str_ref find rw 0 b.
Proof.
  intros Hne. rewrite <- (replace_str_ref_skip find rw (tail find) b).
  destruct find as [|x p]; [done|]. cbn [app replace_str_ref].
  rewrite bool_decide_eq_true_2; [done|]. change (x :: p ++ b) with ((x :: p) ++ b). apply take_app_length.
Qed.
Lemma find_sub_cases p rw i l :
  p <> [] ->
  (find_sub p i l = None /\ replace_str_ref p rw 0 l = l) \/
  exists a b, l = a ++ p ++ b /\ find_sub p i l = Some (i + length a)%nat /\
    replace_str_ref p rw 0 l = a ++ rw ++ replace_str_ref p rw 0 b.
Proof.
  intros Hne. revert i. induction l as [|x l IH]; intros i.
  { left. destruct p; done. }
  cbn [find_sub]. case_bool_decide as Hx.
  - right. exists [], (drop (length p) (x :: l)).
    assert (E : x :: l = p ++ drop (length p) (x :: l)) by (rewrite <- Hx at 1; by rewrite take_drop).
    split_and!; [done | f_equal; simpl; lia |]. rewrite E at 1. by rewrite replace_str_ref_hit.
  - assert (Hr : replace_str_ref p rw 0 (x :: l) = x :: replace_str_ref p rw 0 l)
      by (cbn [replace_str_ref]; by rewrite bool_decide_eq_false_2).
    destruct (IH (S i)) as [[-> Hl] | (a & b & E & -> & Hl)].
    + left. by rewrite Hr, Hl.
    + right. exists (x :: a), b. split_and!; [by rewrite E | f_equal; simpl; lia | by rewrite Hr, Hl].
Qed.
Lemma find_str_app p pre l : find_str p (length pre) (pre ++ l) = find_sub p (length pre) l.
Proof.
  unfold find_str. rewrite drop_app_length, length_app.
  by replace (length pre + length l <? length pre)%nat with false by (symmetry; apply Nat.ltb_ge; lia).
Qed.
Lemma replace_str_loop_spec fuel p rw pre l :
  p <> [] -> (length l <= fuel)%nat ->
  replace_str_loop fuel p rw (find_str p (length pre) (pre ++ l)) (pre ++ l) = Ret (pre ++ replace_str_ref p rw 0 l).
Proof.
  intros Hne. revert pre l. induction fuel as [|fuel IH]; intros pre l Hl.
  all: rewrite find_str_app; destruct (find_sub_cases p rw (length pre) l Hne) as [[-> ->] | (a & b & -> & -> & ->)]; [done|].
  { rewrite !length_app in Hl. destruct p; [done | simpl in Hl; lia]. }
  cbn [replace_str_loop]. rewrite <- length_app, (app_assoc pre a), take_app_length.
  rewrite <- (length_app (pre ++ a) p), (app_assoc (pre ++ a) p b), drop_app_length.
  rewrite <- (length_app (pre ++ a) rw), (app_assoc (pre ++ a) rw b).
  rewrite IH; [by rewrite <- !app_assoc|]. rewrite !length_app in Hl. destruct p; [done | simpl in Hl; lia].
Qed.
Lemma find_sub_nil i l : find_sub [] i l = Some i.
Proof. destruct l; cbn [find_sub length take]; by rewrite bool_decide_eq_true_2. Qed.
Lemma replace_str_loop_empty fuel rw i str :
  (i <= length str)%nat -> replace_str_loop fuel [] rw (Some i) str = NoFuel.
Proof.
  revert i str. induction fuel as [|fuel IH]; intros i str Hi; [done|]. cbn [replace_str_loop].
  set (str' := take i str ++ rw ++ drop (i + length []) str).
  assert (Hi' : (i + length rw <= length str')%nat)
    by (unfold str'; rewrite !length_app, length_take; lia).
  replace (find_str [] (i + length rw) str') with (Some (i + length rw)%nat); [by apply IH|].
  unfold find_str. replace (length str' <? i + length rw)%nat with false by (symmetry; apply Nat.ltb_ge; lia).
  by rewrite find_sub_nil.
Qed.

(** The three [replace] functions.  Replacing a character replaces its every
    occurrence, by the character or by the string, and the replacement is not
    searched again.  Replacing a non-empty string does the left-most,
    non-overlapping replacements and ends after at most one round per
    character; with an empty [find] the loop never ends, whatever the fuel. *)
Theorem replace_spec :
  (forall f r str, replace_char f r str = Ret (map (fun c => if c =? f then r else c) str)) /\
  (forall f rw str, replace_char_str f rw str =
                    Ret (concat (map (fun c => if c =? f then rw else [c]) str))) /\
  (forall p rw str, p <> [] -> replace_str (length str) p rw str = Ret (replace_str_ref p rw 0 str)) /\
  (forall fuel rw str, replace_str fuel [] rw str = NoFuel).
Proof.
  split_and!.
  - intros f r str. unfold replace_char. rewrite (replace_char_loop_spec _ f r [] str) by done.
    cbn [app]. f_equal. unfold replace_ref.
    induction str as [|x str IH]; [done|]. cbn. rewrite IH. by destruct (x =? f).
  - intros f rw str. by apply (replace_char_str_loop_spec _ f rw [] str).
  - intros p rw str Hne. by apply (replace_str_loop_spec _ p rw [] str).
  - intros fuel rw str. unfold replace_str.
    replace (find_str [] 0 str) with (Some 0%nat) by (unfold find_str; cbn; by rewrite find_sub_nil).
    apply replace_str_loop_empty. lia.
Qed.
Lemma replace_spec_witness :
  replace_char 97 98 [97; 99; 97] = Ret [98; 99; 98] /\
  replace_str 5 [97; 97] [97] [97; 97; 97; 97; 98] = Ret [97; 97; 98].
Proof.
  destruct replace_spec as (H1 & _ & H3 & _). split.
  - apply (H1 97 98 [97; 99; 97]).
  - apply (H3 [97; 97] [97] [97; 97; 97; 97; 98]). done.
Defined.

(** ** split *)
Fixpoint join (d : Z) (ps : list (list Z)) : list Z :=
  match ps with
  | [] => []
  | [p] => p
  | p :: ps => p ++ d :: join d ps
  end.
Lemma join_cons d p ps : ps <> [] -> join d (p :: ps) = p ++ d :: join d ps.
Proof. by destruct ps. Qed.

(** What [split] promises of its pieces for a limit [max]. *)
Record pieces_ok (d max : Z) (str : list Z) (ps : list (list Z)) : Prop := {
  po_join : join d ps = str;
  po_nonempty : ps <> [];
  po_limit : 2 <= max -> Z.of_nat (length ps) <= max;
  po_init : Forall (Forall (.≠ d)) (removelast ps);
  po_free : max <= 1 \/ Z.of_nat (length ps) < max -> Forall (Forall (.≠ d)) ps;
  po_count : (length ps <= S (length str))%nat
}.
Lemma pieces_one d max l : Forall (.≠ d) l -> pieces_ok d max l [l].
Proof. intros H. split; cbn; try done; [lia | auto | lia]. Qed.
Lemma pieces_two d a b : Forall (.≠ d) a -> pieces_ok d 2 (a ++ d :: b) [a; b].
Proof. intros H. split; cbn; try done; [auto | lia | rewrite length_app; simpl; lia]. Qed.
Lemma pieces_cons d max max' a b ps :
  Forall (.≠ d) a -> pieces_ok d max' b ps ->
  (max' = max - 1 /\ 2 < max) \/ max' <= 1 /\ max <= 1 \/ max = 0 /\ Z.of_nat (length b) + 1 < max' ->
  pieces_ok d max (a ++ d :: b) (a :: ps).
Proof.
  intros Ha [H1 H2 H3 H4 H5 H6] Hm. split.
  - by rewrite join_cons, H1.
  - done.
  - intros. cbn [length]. lia.
  - destruct ps; [done|]. by constructor.
  - intros Hx. constructor; [done|]. apply H5. cbn [length] in Hx. lia.
  - rewrite length_app. cbn [length]. lia.
Qed.

Lemma split_loop_spec c str fuel pre l max :
  str = pre ++ l -> (length l <= fuel)%nat -> Z.of_nat (length l) < 2 ^ 63 -> 0 <= max < 2 ^ 64 ->
  exists ps, split_loop fuel (fun pos => find_from c pos str) str (length pre) (find_from c (length pre) str) max = Ret ps /\
    pieces_ok c max l ps.
Proof.
  intros ->. revert pre l max. induction fuel as [|fuel IH]; intros pre l max Hf Hl Hm.
  { destruct l; [|simpl in Hf; lia]. rewrite find_from_app. cbn. rewrite drop_app_length.
    eexists. split; [done|]. by apply pieces_one. }
  destruct (find_from_cases c pre l) as [[-> H] | (a & b & -> & Ha & ->)].
  { cbn. rewrite drop_app_length. eexists. split; [done|]. by apply pieces_one. }
  cbn [split_loop].
  assert (Ep : slice (length pre) (length (pre ++ a) - length pre) (pre ++ a ++ c :: b) = a).
  { unfold slice. rewrite drop_app_length, length_app.
    replace (length pre + length a - length pre)%nat with (length a) by lia. apply take_app_length. }
  assert (Es : pre ++ a ++ c :: b = ((pre ++ a) ++ [c]) ++ b) by (by rewrite <- !app_assoc).
  assert (El : S (length (pre ++ a)) = length ((pre ++ a) ++ [c])) by (rewrite (length_app (pre ++ a)); simpl; lia).
  rewrite Ep, El, Es. rewrite length_app in Hf, Hl. cbn [length] in Hf, Hl.
  destruct (Z.eqb_spec (u64 (max - 1)) 1) as [E1|E1].
  - rewrite drop_app_length. eexists. split; [done|].
    assert (max = 2) as -> by (unfold u64, wrapu in E1; zdiv_lia). by apply pieces_two.
  - destruct (IH ((pre ++ a) ++ [c]) b (u64 (max - 1))) as (ps & -> & Hps);
      [lia | lia | apply (wrapu_range 64); lia |].
    cbn. eexists. split; [done|]. eapply pieces_cons; [done.. |].
    unfold u64, wrapu in *. zdiv_lia.
Qed.

(** [split] on a delimiter: the pieces, joined by the delimiter, are the
    string; every piece but the last is free of the delimiter; with a limit
    [max >= 2] there are at most [max] pieces and, when there are fewer, the last
    is free of the delimiter too.  A limit of 0 or of 1 is no limit: the string
    is split at every delimiter ([--max == 1] is tested after a first piece is
    already cut, so 1 wraps around through 0).  The empty string has no piece. *)
Theorem split_spec str delim max :
  Z.of_nat (length str) < 2 ^ 63 -> 0 <= max < 2 ^ 64 ->
  split [] delim max = Ret [] /\
  (str <> [] -> exists ps, split str delim max = Ret ps /\
    join delim ps = str /\
    Forall (Forall (.≠ delim)) (removelast ps) /\
    (2 <= max -> Z.of_nat (length ps) <= max) /\
    (max <= 1 \/ Z.of_nat (length ps) < max -> Forall (Forall (.≠ delim)) ps)).
Proof.
  intros Hl Hm. split; [done|]. intros Hne. unfold split, split_on.
  replace (length str =? 0)%nat with false by (by destruct str).
  destruct (split_loop_spec delim str (length str) [] str max eq_refl (le_n _) Hl Hm) as (ps & E & H).
  exists ps. split; [exact E|]. by destruct H.
Qed.
Lemma split_spec_witness :
  split [97; 44; 98; 44; 99] 44 1 = Ret [[97]; [98]; [99]] /\
  exists ps, split [97; 44; 98; 44; 99] 44 2 = Ret ps /\ Z.of_nat (length ps) <= 2.
Proof.
  split; [by vm_compute|].
  destruct (split_spec [97; 44; 98; 44; 99] 44 2) as [_ H]; [cbn; lia | lia |].
  destruct H as (ps & E & _ & _ & H & _); [done|]. exists ps. split; [exact E | apply H; lia].
Defined.

(** [quick_hash(const void*, size)] reads only the first byte: two buffers
    that begin with the same byte have the same hash at every size. *)
Lemma quick_hash_mem_first c s1 s2 size :
  quick_hash_mem (c :: s1) size = quick_hash_mem (c :: s2) size.
Proof. done. Qed.
