(* ===== verification/Fiber.v ===== *)
(** * Fibers (cxk/fiber.h, cxk/fiber.cpp)

    [Fiber] objects live in a heap indexed by their address; the thread-local
    variables of fiber.cpp and scheduler.cpp are a record per thread.  A context
    ([ucontext_t]) is abstracted to what resuming it would do: enter the start
    function, continue a suspended body, run past the end of [MainFunc] (an
    assertion) or, when it is on a processor now, overwrite a stack in use. *)
From S2P Require Import Prelude.

(** enum State *)
Inductive State : Type := INIT | HOLD | EXEC | TERM | READY | EXCEPT.
#[export] Instance State_eq_dec : EqDecision State.
Proof. solve_decision. Defined.

(** What resuming a context does. *)
Inductive Ctx : Type :=
| Entry (use_caller : bool)   (* [makecontext] with MainFunc or CallerMainFunc *)
| Suspended                   (* saved by [swapcontext] in the middle of the body *)
| Ended                       (* saved by the last [swapcontext] of the start function *)
| OnCpu.                      (* running now, on some thread *)
#[export] Instance Ctx_eq_dec : EqDecision Ctx.
Proof. solve_decision. Defined.

(** A [std::function<void()>]: user code is named by a number; the scheduler
    binds its own [idel] and [run]. *)
Inductive Func : Type := User (n : nat) | SchedulerIdel | SchedulerRun.
#[export] Instance Func_eq_dec : EqDecision Func.
Proof. solve_decision. Defined.
Record Fiber := mkFiber {
  m_id : Z;
  m_stacksize : Z;
  m_state : State;
  m_ctx : Ctx;
  m_stack : bool;
  m_cb : option Func
}.
Definition with_state (v : State) (f : Fiber) : Fiber :=
  mkFiber (m_id f) (m_stacksize f) v (m_ctx f) (m_stack f) (m_cb f).
Definition with_ctx (v : Ctx) (f : Fiber) : Fiber :=
  mkFiber (m_id f) (m_stacksize f) (m_state f) v (m_stack f) (m_cb f).
Definition with_cb (v : option Func) (f : Fiber) : Fiber :=
  mkFiber (m_id f) (m_stacksize f) (m_state f) (m_ctx f) (m_stack f) v.

(** The thread-local variables: fiber.cpp's [t_fiber] and [t_threadFiber],
    scheduler.cpp's [t_scheduler] (is it this scheduler?) and [t_fiber], here
    [t_main].  [t_cpu] is the fiber whose stack the thread runs on, [None] until
    the thread has a fiber; [t_leaving] is set once the running body has set its
    state and is about to swap out, to what its saved context will be. *)
Record Tls := mkTls {
  t_fiber : option nat;
  t_threadFiber : option nat;
  t_scheduler : bool;
  t_main : option nat;
  t_cpu : option nat;
  t_leaving : option Ctx
}.
Definition new_Tls : Tls := mkTls None None false None None None.
Definition set_fiber v (s : Tls) := mkTls v (t_threadFiber s) (t_scheduler s) (t_main s) (t_cpu s) (t_leaving s).
Definition set_threadFiber v (s : Tls) := mkTls (t_fiber s) v (t_scheduler s) (t_main s) (t_cpu s) (t_leaving s).
Definition set_scheduler v (s : Tls) := mkTls (t_fiber s) (t_threadFiber s) v (t_main s) (t_cpu s) (t_leaving s).
Definition set_main v (s : Tls) := mkTls (t_fiber s) (t_threadFiber s) (t_scheduler s) v (t_cpu s) (t_leaving s).
Definition set_cpu v (s : Tls) := mkTls (t_fiber s) (t_threadFiber s) (t_scheduler s) (t_main s) v (t_leaving s).
Definition set_leaving v (s : Tls) := mkTls (t_fiber s) (t_threadFiber s) (t_scheduler s) (t_main s) (t_cpu s) v.

Record Fibers := mkFibers {
  w_fibers : gmap nat Fiber;
  w_tls : Z -> Tls;
  w_next : nat;
  s_fiber_id : Z;
  s_fiber_count : Z
}.
Definition map_fibers (g : gmap nat Fiber -> gmap nat Fiber) (w : Fibers) : Fibers :=
  mkFibers (g (w_fibers w)) (w_tls w) (w_next w) (s_fiber_id w) (s_fiber_count w).
Definition map_tls (t : Z) (g : Tls -> Tls) (w : Fibers) : Fibers :=
  mkFibers (w_fibers w) (fun t' => if t' =? t then g (w_tls w t) else w_tls w t') (w_next w)
    (s_fiber_id w) (s_fiber_count w).
(** [new]: the object at the next address. *)
Definition alloc (f : Fiber) (id count : Z) (w : Fibers) : Fibers :=
  mkFibers (<[w_next w := f]> (w_fibers w)) (w_tls w) (S (w_next w)) id count.

(** g_fiber_stacksize, "fiber.stack_size" *)
Definition g_fiber_stacksize : Z := 1024 * 1024.

Section Fiber.
Context (t : Z). (* the calling thread *)

Definition tls {A} (f : Tls -> A) : M Fibers A := gets (fun w => f (w_tls w t)).
Definition upd_tls (g : Tls -> Tls) : M Fibers unit := modify (map_tls t g).
(** [f->field] of a pointer to a fiber. *)
Definition the_fiber (a : nat) : M Fibers Fiber := fun w =>
  match w_fibers w !! a with Some f => (Ret f, w) | None => (Crash, w) end.
Definition deref (a : option nat) : M Fibers nat :=
  match a with Some a => the_fiber a ;; mret a | None => crash end.
Definition upd_fiber (a : nat) (g : Fiber -> Fiber) : M Fibers unit :=
  the_fiber a ;; modify (map_fibers (alter g a)).
Definition CXK_ASSERT (b : bool) : M Fibers unit := if b then mret tt else crash.

Definition SetThis (f : option nat) : M Fibers unit := upd_tls (set_fiber f).

(** [Fiber::Fiber()]: the fiber of the thread itself; [getcontext] succeeds. *)
Definition new_thread_Fiber : M Fibers nat :=
  w ← get;
  let a := w_next w in
  modify (alloc (mkFiber 0 0 EXEC OnCpu false None) (s_fiber_id w) (u64 (s_fiber_count w + 1))) ;;
  SetThis (Some a) ;;
  upd_tls (set_cpu (Some a)) ;;
  mret a.
(** [Fiber::Fiber(cb, stacksize, use_caller)] *)
Definition new_Fiber (cb : option Func) (stacksize : Z) (use_caller : bool) : M Fibers nat :=
  w ← get;
  let id := u64 (s_fiber_id w + 1) in
  let size := u32 (if stacksize =? 0 then g_fiber_stacksize else stacksize) in
  modify (alloc (mkFiber id size INIT (Entry use_caller) true cb) id (u64 (s_fiber_count w + 1))) ;;
  mret (w_next w).
Definition resettable (s : State) : bool :=
  match s with TERM | INIT | EXCEPT => true | _ => false end.
(** [Fiber::~Fiber()] *)
Definition destroy_Fiber (a : nat) : M Fibers unit :=
  modify (fun w => mkFibers (w_fibers w) (w_tls w) (w_next w) (s_fiber_id w) (u64 (s_fiber_count w - 1))) ;;
  f ← the_fiber a;
  (if m_stack f then CXK_ASSERT (resettable (m_state f))
   else
     CXK_ASSERT (match m_cb f with None => true | Some _ => false end) ;;
     CXK_ASSERT (bool_decide (m_state f = EXEC)) ;;
     cur ← tls t_fiber;
     if bool_decide (cur = Some a) then SetThis None else mret tt) ;;
  modify (map_fibers (delete a)).

Definition reset (a : nat) (cb : option Func) : M Fibers unit :=
  f ← the_fiber a;
  CXK_ASSERT (m_stack f) ;;
  CXK_ASSERT (resettable (m_state f)) ;;
  upd_fiber a (fun f => with_state INIT (with_ctx (Entry false) (with_cb cb f))).

(** [swapcontext(&from->m_ctx, &to->m_ctx)] by code that runs on [from]'s stack:
    [saved] is what [from]'s context then stands for.  Resuming a context that
    is on a processor already runs two threads on one stack. *)
Definition swapcontext (from : nat) (saved : Ctx) (to : nat) : M Fibers unit :=
  cpu ← tls t_cpu;
  CXK_ASSERT (bool_decide (cpu = Some from)) ;;
  upd_fiber from (with_ctx saved) ;;
  f ← the_fiber to;
  match m_ctx f with
  | OnCpu | Ended => crash
  | Entry _ | Suspended =>
      upd_fiber to (with_ctx OnCpu) ;;
      upd_tls (fun s => set_leaving None (set_cpu (Some to) s))
  end.

(** [swapIn] up to the [swapcontext]. *)
Definition swapIn_mark (a : nat) : M Fibers unit :=
  SetThis (Some a) ;;
  f ← the_fiber a;
  CXK_ASSERT (bool_decide (m_state f <> EXEC)) ;;
  upd_fiber a (with_state EXEC).
Definition swapIn_swap (a : nat) : M Fibers unit :=
  m ← tls t_main;
  m ← deref m;
  swapcontext m Suspended a.
Definition swapIn (a : nat) : M Fibers unit := swapIn_mark a ;; swapIn_swap a.
Definition call (a : nat) : M Fibers unit :=
  SetThis (Some a) ;;
  upd_fiber a (with_state EXEC) ;;
  m ← tls t_threadFiber;
  m ← deref m;
  swapcontext m Suspended a.
(** [saved] is [Ended] when the call is the last one of the start function. *)
Definition back (saved : Ctx) (a : nat) : M Fibers unit :=
  m ← tls t_threadFiber;
  SetThis m ;;
  m ← deref m;
  swapcontext a saved m.
Definition swapOut (saved : Ctx) (a : nat) : M Fibers unit :=
  m ← tls t_main;
  SetThis m ;;
  m ← deref m;
  swapcontext a saved m.

Definition GetThis : M Fibers nat :=
  cur ← tls t_fiber;
  match cur with
  | Some a => mret a
  | None =>
      a ← new_thread_Fiber;
      cur ← tls t_fiber;
      CXK_ASSERT (bool_decide (cur = Some a)) ;;
      upd_tls (set_threadFiber (Some a)) ;;
      mret a
  end.
Definition GetFiberId : M Fibers Z :=
  cur ← tls t_fiber;
  match cur with Some a => f ← the_fiber a; mret (m_id f) | None => mret 0 end.
Definition TotalFiber : M Fibers Z := gets s_fiber_count.

(** The yields, up to the [swapOut]. *)
Definition yield_mark (s : State) : M Fibers nat :=
  cur ← GetThis;
  upd_fiber cur (with_state s) ;;
  upd_tls (set_leaving (Some Suspended)) ;;
  mret cur.
Definition YieldToReady : M Fibers unit := cur ← yield_mark READY; swapOut Suspended cur.
Definition YieldToHold : M Fibers unit := cur ← yield_mark HOLD; swapOut Suspended cur.

(** The end of [MainFunc] and of [CallerMainFunc]: the callback returned, or an
    exception (an empty callback throws one) was caught. *)
Definition main_end (threw : bool) : M Fibers nat :=
  cur ← GetThis;
  (if threw then upd_fiber cur (with_state EXCEPT)
   else upd_fiber cur (fun f => with_state TERM (with_cb None f))) ;;
  upd_tls (set_leaving (Some Ended)) ;;
  mret cur.
Definition MainFunc_end (threw : bool) : M Fibers unit := cur ← main_end threw; swapOut Ended cur.
Definition CallerMainFunc_end (threw : bool) : M Fibers unit := cur ← main_end threw; back Ended cur.
End Fiber.

(** ** What the operations do on fibers that exist *)
Section Runs.
Context (t : Z).

Lemma tls_self g w : w_tls (map_tls t g w) t = g (w_tls w t).
Proof. cbn. by rewrite Z.eqb_refl. Qed.
Lemma the_fiber_run a F w : w_fibers w !! a = Some F -> the_fiber a w = (Ret F, w).
Proof. intros H. unfold the_fiber. by rewrite H. Qed.
Lemma upd_fiber_run a g F w :
  w_fibers w !! a = Some F -> upd_fiber a g w = (Ret tt, map_fibers (alter g a) w).
Proof. intros H. unfold upd_fiber. by mstep (the_fiber_run a F w H). Qed.
Lemma deref_run a F w : w_fibers w !! a = Some F -> deref (Some a) w = (Ret a, w).
Proof. intros H. cbn [deref]. by mstep (the_fiber_run a F w H). Qed.
Lemma GetThis_run a w : t_fiber (w_tls w t) = Some a -> GetThis t w = (Ret a, w).
Proof. intros H. unfold GetThis, tls. rewrite bind_gets. by rewrite H. Qed.

Lemma swapIn_mark_run a F w :
  w_fibers w !! a = Some F -> m_state F <> EXEC ->
  swapIn_mark t a w = (Ret tt, map_fibers (alter (with_state EXEC) a) (map_tls t (set_fiber (Some a)) w)).
Proof.
  intros H Hs. unfold swapIn_mark, SetThis, upd_tls. rewrite bind_modify.
  mstep (the_fiber_run a F (map_tls t (set_fiber (Some a)) w) H).
  rewrite bool_decide_eq_true_2 by done. cbn [CXK_ASSERT]. by apply (upd_fiber_run a _ F).
Qed.
(** The states of the two fibers and the thread after a switch. *)
Definition switched (from : nat) (saved : Ctx) (to : nat) (w : Fibers) : Fibers :=
  map_tls t (fun s => set_leaving None (set_cpu (Some to) s))
    (map_fibers (alter (with_ctx OnCpu) to) (map_fibers (alter (with_ctx saved) from) w)).
Definition resumable (c : Ctx) : bool := match c with Entry _ | Suspended => true | _ => false end.
Lemma swapcontext_run from saved to F G w :
  t_cpu (w_tls w t) = Some from -> from <> to ->
  w_fibers w !! from = Some F -> w_fibers w !! to = Some G -> resumable (m_ctx G) = true ->
  swapcontext t from saved to w = (Ret tt, switched from saved to w).
Proof.
  intros Hc Hne HF HG Hr. unfold swapcontext, tls. rewrite bind_gets, Hc, bool_decide_eq_true_2 by done.
  cbn [CXK_ASSERT]. rewrite (bind_Ret (mret tt) _ w tt w) by done.
  mstep (upd_fiber_run from (with_ctx saved) F w HF).
  assert (HG' : w_fibers (map_fibers (alter (with_ctx saved) from) w) !! to = Some G)
    by (cbn; by rewrite lookup_alter_ne).
  mstep (the_fiber_run to G _ HG').
  destruct (m_ctx G); try discriminate; by mstep (upd_fiber_run to (with_ctx OnCpu) G _ HG').
Qed.
Lemma swapIn_swap_run m a F G w :
  t_main (w_tls w t) = Some m -> t_cpu (w_tls w t) = Some m -> m <> a ->
  w_fibers w !! m = Some F -> w_fibers w !! a = Some G -> resumable (m_ctx G) = true ->
  swapIn_swap t a w = (Ret tt, switched m Suspended a w).
Proof.
  intros Hm Hc Hne HF HG Hr. unfold swapIn_swap, tls. rewrite bind_gets, Hm.
  mstep (deref_run m F w HF). by eapply swapcontext_run.
Qed.
Lemma swapOut_run saved m a F G w :
  t_main (w_tls w t) = Some m -> t_cpu (w_tls w t) = Some a -> m <> a ->
  w_fibers w !! m = Some F -> w_fibers w !! a = Some G -> resumable (m_ctx F) = true ->
  swapOut t saved a w = (Ret tt, switched a saved m (map_tls t (set_fiber (Some m)) w)).
Proof.
  intros Hm Hc Hne HF HG Hr. unfold swapOut, tls, SetThis, upd_tls. rewrite bind_gets, Hm, bind_modify.
  mstep (deref_run m F (map_tls t (set_fiber (Some m)) w) HF).
  eapply swapcontext_run; try done. by rewrite tls_self.
Qed.
Lemma yield_mark_run s a F w :
  t_fiber (w_tls w t) = Some a -> w_fibers w !! a = Some F ->
  yield_mark t s w =
    (Ret a, map_tls t (set_leaving (Some Suspended)) (map_fibers (alter (with_state s) a) w)).
Proof.
  intros Hf HF. unfold yield_mark. mstep (GetThis_run a w Hf). by mstep (upd_fiber_run a (with_state s) F w HF).
Qed.
Definition finished (threw : bool) (f : Fiber) : Fiber :=
  if threw then with_state EXCEPT f else with_state TERM (with_cb None f).
Lemma main_end_run threw a F w :
  t_fiber (w_tls w t) = Some a -> w_fibers w !! a = Some F ->
  main_end t threw w =
    (Ret a, map_tls t (set_leaving (Some Ended)) (map_fibers (alter (finished threw) a) w)).
Proof.
  intros Hf HF. unfold main_end. mstep (GetThis_run a w Hf).
  destruct threw.
  - by mstep (upd_fiber_run a (with_state EXCEPT) F w HF).
  - by mstep (upd_fiber_run a (fun f => with_state TERM (with_cb None f)) F w HF).
Qed.
Definition reborn (cb : option Func) (f : Fiber) : Fiber := with_state INIT (with_ctx (Entry false) (with_cb cb f)).
Lemma fiber_reset_run a cb F w :
  w_fibers w !! a = Some F -> m_stack F = true -> resettable (m_state F) = true ->
  reset a cb w = (Ret tt, map_fibers (alter (reborn cb) a) w).
Proof.
  intros HF Hs Hr. unfold reset. mstep (the_fiber_run a F w HF). rewrite Hs, Hr. cbn [CXK_ASSERT].
  rewrite !(bind_Ret (mret tt) _ w tt w) by done. by eapply upd_fiber_run.
Qed.
End Runs.
