(* ===== verification/Scheduler.v ===== *)
(** * The scheduler (cxk/scheduler.h, cxk/scheduler.cpp)

    Every thread runs [Scheduler::run]; its program counter is a [Loop].  A step
    is one region of the code between two points where another thread can
    interfere: the scan under [m_mutex], the dispatch, the marking of a fiber, the
    context switch, the return from it.  User code is the action a running fiber
    chooses next. *)
From S2P Require Import Prelude Fiber.

(** struct FiberAndThread *)
Record FiberAndThread := mkFT { ft_fiber : option nat; ft_cb : option nat; ft_thread : Z }.
Definition no_task : FiberAndThread := mkFT None None (-1).
#[export] Instance FiberAndThread_eq_dec : EqDecision FiberAndThread.
Proof. solve_decision. Defined.

Record Scheduler := mkScheduler {
  m_fibers : list FiberAndThread;
  m_rootFiber : option nat;
  m_threadIds : list Z;
  m_threadCount : Z;
  m_activeThreadCount : Z;
  m_idelThreadCount : Z;
  m_autoStop : bool;
  m_stopping : bool;
  m_rootThread : Z;
  m_threads : list Z   (* the pool, by thread id *)
}.
Definition set_fibers v s := mkScheduler v (m_rootFiber s) (m_threadIds s) (m_threadCount s)
  (m_activeThreadCount s) (m_idelThreadCount s) (m_autoStop s) (m_stopping s) (m_rootThread s) (m_threads s).
Definition set_threadIds v s := mkScheduler (m_fibers s) (m_rootFiber s) v (m_threadCount s)
  (m_activeThreadCount s) (m_idelThreadCount s) (m_autoStop s) (m_stopping s) (m_rootThread s) (m_threads s).
(** The counters are [std::atomic<size_t>]. *)
Definition add_active d s := mkScheduler (m_fibers s) (m_rootFiber s) (m_threadIds s) (m_threadCount s)
  (u64 (m_activeThreadCount s + d)) (m_idelThreadCount s) (m_autoStop s) (m_stopping s) (m_rootThread s) (m_threads s).
Definition add_idel d s := mkScheduler (m_fibers s) (m_rootFiber s) (m_threadIds s) (m_threadCount s)
  (m_activeThreadCount s) (u64 (m_idelThreadCount s + d)) (m_autoStop s) (m_stopping s) (m_rootThread s) (m_threads s).
Definition set_autoStop v s := mkScheduler (m_fibers s) (m_rootFiber s) (m_threadIds s) (m_threadCount s)
  (m_activeThreadCount s) (m_idelThreadCount s) v (m_stopping s) (m_rootThread s) (m_threads s).
Definition set_stopping v s := mkScheduler (m_fibers s) (m_rootFiber s) (m_threadIds s) (m_threadCount s)
  (m_activeThreadCount s) (m_idelThreadCount s) (m_autoStop s) v (m_rootThread s) (m_threads s).
Definition set_threads v s := mkScheduler (m_fibers s) (m_rootFiber s) (m_threadIds s) (m_threadCount s)
  (m_activeThreadCount s) (m_idelThreadCount s) (m_autoStop s) (m_stopping s) (m_rootThread s) v.

(** [scheduleNoLock]: the queue, and whether it was empty. *)
Definition scheduleNoLock (ft : FiberAndThread) (s : Scheduler) : bool * Scheduler :=
  (match m_fibers s with [] => true | _ => false end,
   match ft_fiber ft, ft_cb ft with
   | None, None => s
   | _, _ => set_fibers (m_fibers s ++ [ft]) s
   end).
(** [schedule]: [need_tickle] is the result. *)
Definition schedule (fc : FiberAndThread) : Scheduler -> bool * Scheduler := scheduleNoLock fc.
(** The batch version: [scheduleNoLock(...) || need_tickle]. *)
Fixpoint schedule_all (fcs : list FiberAndThread) (need_tickle : bool) (s : Scheduler) : bool * Scheduler :=
  match fcs with
  | [] => (need_tickle, s)
  | fc :: fcs => let '(b, s) := scheduleNoLock fc s in schedule_all fcs (b || need_tickle) s
  end.
Definition hasIdelThreads (s : Scheduler) : bool := 0 <? m_idelThreadCount s.
Definition stopping (s : Scheduler) : bool :=
  m_stopping s && m_autoStop s && match m_fibers s with [] => true | _ => false end &&
  (m_activeThreadCount s =? 0).

(** The scan of [run] under the lock, by thread [self]: the task taken, the
    queue left, and [tickle_me]. *)
Fixpoint scan (state : nat -> option State) (self : Z) (q : list FiberAndThread) :
    outcome (option FiberAndThread * list FiberAndThread * bool) :=
  match q with
  | [] => Ret (None, [], false)
  | it :: q' =>
      if negb (ft_thread it =? -1) && negb (ft_thread it =? self) then
        r ← scan state self q';
        Ret (r.1.1, it :: r.1.2, true)
      else match ft_fiber it, ft_cb it with
      | None, None => Crash
      | None, Some _ => Ret (Some it, q', match q' with [] => false | _ => true end)
      | Some f, _ =>
          match state f with
          | None => Crash
          | Some EXEC => r ← scan state self q'; Ret (r.1.1, it :: r.1.2, r.2)
          | Some _ => Ret (Some it, q', match q' with [] => false | _ => true end)
          end
      end
  end.

(** ** The run loop *)
Inductive Kind : Type := KFiber | KCb | KIdle.
Inductive Pc : Type :=
| RStart
| RScan
| RDispatch
| RSwapIn (k : Kind) (f : nat)  (* before [swapIn] *)
| RSwap (k : Kind) (f : nat)    (* in [swapIn], before [swapcontext] *)
| RIn (k : Kind) (f : nat)      (* in [swapcontext] *)
| RBack (k : Kind) (f : nat)    (* the counter is decremented *)
| RDone.
#[export] Instance Kind_eq_dec : EqDecision Kind.
Proof. solve_decision. Defined.
#[export] Instance Pc_eq_dec : EqDecision Pc.
Proof. solve_decision. Defined.
(** The program counter and the local variables. *)
Record Loop := mkLoop {
  l_pc : Pc;
  l_idle : option nat;  (* idle_fiber *)
  l_cb : option nat;    (* cb_fiber *)
  l_ft : FiberAndThread;
  l_active : bool       (* is_active *)
}.
Definition new_Loop : Loop := mkLoop RStart None None no_task false.
Definition set_pc v l := mkLoop v (l_idle l) (l_cb l) (l_ft l) (l_active l).
Definition set_idle v l := mkLoop (l_pc l) v (l_cb l) (l_ft l) (l_active l).
Definition set_cbf v l := mkLoop (l_pc l) (l_idle l) v (l_ft l) (l_active l).
Definition set_ft v l := mkLoop (l_pc l) (l_idle l) (l_cb l) v (l_active l).
Definition set_active v l := mkLoop (l_pc l) (l_idle l) (l_cb l) (l_ft l) v.

Record World := mkWorld { w_fw : Fibers; w_sc : Scheduler; w_loops : Z -> Loop; w_tickles : nat }.
Definition map_fw g w := mkWorld (g (w_fw w)) (w_sc w) (w_loops w) (w_tickles w).
Definition map_sc g w := mkWorld (w_fw w) (g (w_sc w)) (w_loops w) (w_tickles w).
Definition map_loop (t : Z) g w :=
  mkWorld (w_fw w) (w_sc w) (fun t' => if t' =? t then g (w_loops w t) else w_loops w t') (w_tickles w).
(** [tickle()] of the base class only logs; its calls are counted. *)
Definition tickle : M World unit :=
  modify (fun w => mkWorld (w_fw w) (w_sc w) (w_loops w) (S (w_tickles w))).

Definition fibers {A} (m : M Fibers A) : M World A := fun w =>
  let '(r, fw) := m (w_fw w) in (r, map_fw (fun _ => fw) w).
Definition sched (g : Scheduler -> Scheduler) : M World unit := modify (map_sc g).
Definition do_schedule (ft : FiberAndThread) : M World unit :=
  w ← get;
  let '(need_tickle, sc) := schedule ft (w_sc w) in
  sched (fun _ => sc) ;;
  if need_tickle then tickle else mret tt.

Section Run.
Context (t : Z). (* cxk::getThreadId() *)

Definition loop (g : Loop -> Loop) : M World unit := modify (map_loop t g).
Definition goto (pc : Pc) : M World unit := loop (set_pc pc).
Definition state_of (w : World) (f : nat) : option State := m_state <$> w_fibers (w_fw w) !! f.

(** Up to the loop. *)
Definition run_start : M World unit :=
  fibers (upd_tls t (set_scheduler true)) ;;
  root ← gets (fun w => m_rootThread (w_sc w));
  (if t =? root then mret tt
   else m ← fibers (GetThis t); fibers (upd_tls t (set_main (Some m)))) ;;
  i ← fibers (new_Fiber (Some SchedulerIdel) 0 false);
  loop (set_idle (Some i)) ;;
  goto RScan.
Definition run_scan : M World unit :=
  loop (fun l => set_ft no_task (set_active false l)) ;;
  w ← get;
  r ← lift (scan (state_of w) t (m_fibers (w_sc w)));
  let '(task, q, tickle_me) := (r : option FiberAndThread * list FiberAndThread * bool) in
  sched (set_fibers q) ;;
  match task with
  | Some ft => sched (add_active 1) ;; loop (fun l => set_ft ft (set_active true l))
  | None => mret tt
  end ;;
  (if tickle_me then tickle else mret tt) ;;
  goto RDispatch.
Definition run_dispatch : M World unit :=
  l ← gets (fun w => w_loops w t);
  w ← get;
  let runnable := match ft_fiber (l_ft l) with
    | Some f => match state_of w f with Some TERM | Some EXCEPT | None => None | Some _ => Some f end
    | None => None
    end in
  match runnable, ft_cb (l_ft l) with
  | Some f, _ => goto (RSwapIn KFiber f)
  | None, Some cb =>
      f ← match l_cb l with
          | Some f => fibers (reset f (Some (User cb))) ;; mret f
          | None => f ← fibers (new_Fiber (Some (User cb)) 0 false); loop (set_cbf (Some f)) ;; mret f
          end;
      loop (set_ft no_task) ;;
      goto (RSwapIn KCb f)
  | None, None =>
      if l_active l then sched (add_active (-1)) ;; goto RScan
      else
        i ← fibers (deref (l_idle l));
        w ← get;
        if bool_decide (state_of w i = Some TERM) then goto RDone
        else sched (add_idel 1) ;; goto (RSwapIn KIdle i)
  end.
(** After [swapIn] has returned. *)
Definition run_back (k : Kind) (f : nat) : M World unit :=
  w ← get;
  match k with
  | KFiber =>
      match state_of w f with
      | None => crash
      | Some READY => do_schedule (mkFT (Some f) None (-1))
      | Some TERM | Some EXCEPT => mret tt
      | Some _ => fibers (upd_fiber f (with_state HOLD))
      end ;;
      loop (set_ft no_task)
  | KCb =>
      match state_of w f with
      | None => crash
      | Some READY => do_schedule (mkFT (Some f) None (-1)) ;; loop (set_cbf None)
      | Some TERM | Some EXCEPT => fibers (reset f None)
      | Some _ => fibers (upd_fiber f (with_state HOLD)) ;; loop (set_cbf None)
      end
  | KIdle =>
      match state_of w f with
      | None => crash
      | Some TERM | Some EXCEPT => mret tt
      | Some _ => fibers (upd_fiber f (with_state HOLD))
      end
  end ;;
  goto RScan.
Definition run_step : M World unit :=
  l ← gets (fun w => w_loops w t);
  match l_pc l with
  | RStart => run_start
  | RScan => run_scan
  | RDispatch => run_dispatch
  | RSwapIn k f => fibers (swapIn_mark t f) ;; goto (RSwap k f)
  | RSwap k f => fibers (swapIn_swap t f) ;; goto (RIn k f)
  | RIn KIdle f => sched (add_idel (-1)) ;; goto (RBack KIdle f)
  | RIn k f => sched (add_active (-1)) ;; goto (RBack k f)
  | RBack k f => run_back k f
  | RDone => mret tt
  end.

(** [idel()]: entered, or resumed after its yield. *)
Definition idel_step : M World unit :=
  w ← get;
  if stopping (w_sc w) then fibers (main_end t false) ;; mret tt
  else fibers (yield_mark t HOLD) ;; mret tt.
Definition leave (f : nat) : M World unit :=
  lv ← gets (fun w => t_leaving (w_tls (w_fw w) t));
  match lv with Some saved => fibers (swapOut t saved f) | None => mret tt end.

(** [switchTo(thread)] on this scheduler, from a fiber that runs on it. *)
Definition switchTo (thread : Z) : M World unit :=
  s ← gets (fun w => t_scheduler (w_tls (w_fw w) t));
  if s && ((thread =? -1) || (thread =? t)) then mret tt else
  cur ← fibers (GetThis t);
  do_schedule (mkFT (Some cur) None thread) ;;
  fibers (YieldToHold t).
End Run.

(** ** Construction and start *)
Definition empty_Scheduler : Scheduler := mkScheduler [] None [] 0 0 0 false true 0 [].
(** [Scheduler::Scheduler(threads, use_caller, name)] on thread [t]. *)
Definition new_Scheduler (t threads : Z) (use_caller : bool) : M World unit :=
  sched (fun _ => empty_Scheduler) ;;
  (if 0 <? threads then mret tt else crash) ;;
  if use_caller then
    fibers (GetThis t) ;;
    s ← gets (fun w => t_scheduler (w_tls (w_fw w) t));
    (if s : bool then crash else mret tt) ;;
    fibers (upd_tls t (set_scheduler true)) ;;
    r ← fibers (new_Fiber (Some SchedulerRun) 0 true);
    fibers (upd_tls t (set_main (Some r))) ;;
    sched (fun _ => mkScheduler [] (Some r) [t] (threads - 1) 0 0 false true t [])
  else sched (fun _ => mkScheduler [] None [] threads 0 0 false true (-1) []).
(** [start()]: [ids] are the ids of the threads it creates. *)
Definition start (ids : list Z) : M World unit :=
  sc ← gets w_sc;
  if negb (m_stopping sc) then mret tt else
  sched (set_stopping false) ;;
  match m_threads sc with
  | _ :: _ => crash
  | [] =>
      let ids := take (Z.to_nat (m_threadCount sc)) ids in
      sched (set_threads ids) ;;
      sched (fun sc => set_threadIds (m_threadIds sc ++ ids) sc)
  end.

(** ** The system: worker threads, the fibers they run, and other threads *)
Inductive Action : Type :=
| ASchedule (ft : FiberAndThread)
| ANew (cb : nat)            (* construct a [Fiber] *)
| AYield (s : State)         (* YieldToReady, YieldToHold, up to the switch *)
| AReturn
| AThrow.
Inductive Label : Type :=
| LRun (t : Z)               (* a region of [run] *)
| LIdel (t : Z)              (* a turn of [idel]'s loop, up to the switch *)
| LLeave (t : Z)             (* the switch out of a fiber *)
| LDo (t : Z) (a : Action)   (* the fiber on thread [t] does [a] *)
| LSchedule (ft : FiberAndThread)  (* another thread calls [schedule], *)
| LNew (cb : nat)                  (* constructs a fiber, *)
| LStop.                           (* calls [stop], up to its joins *)

Definition thread_of (l : Label) : option Z :=
  match l with LRun t | LIdel t | LLeave t | LDo t _ => Some t | _ => None end.

(** A task a client may schedule: a function, or a fiber made by its public
    constructor that is not an idle fiber. *)
Definition schedulable (w : World) (ft : FiberAndThread) : bool :=
  match ft_fiber ft, ft_cb ft with
  | None, None => true
  | None, Some _ => true
  | Some f, _ =>
      match w_fibers (w_fw w) !! f with
      | Some F => m_stack F && negb (bool_decide (m_cb F = Some SchedulerIdel))
      | None => false
      end
  end.
(** The fiber a thread runs, when it is not the thread's main fiber. *)
Definition guest (w : World) (t : Z) : option nat :=
  let s := w_tls (w_fw w) t in
  match t_cpu s with
  | Some c => if bool_decide (Some c = t_main s) then None else Some c
  | None => None
  end.
Definition leaving (w : World) (t : Z) : bool :=
  match t_leaving (w_tls (w_fw w) t) with Some _ => true | None => false end.
(** What a running body can do: an empty function only throws. *)
Definition can_do (w : World) (c : nat) (a : Action) : bool :=
  match w_fibers (w_fw w) !! c with
  | None => false
  | Some F =>
      match a, m_cb F with
      | AThrow, _ => true
      | _, None => false
      | ASchedule ft, _ => schedulable w ft
      | AYield s, _ => bool_decide (s = READY) || bool_decide (s = HOLD)
      | _, _ => true
      end
  end.
Definition enabled (workers : list Z) (w : World) (l : Label) : bool :=
  match thread_of l with
  | Some t =>
      bool_decide (t ∈ workers) &&
      match guest w t, l with
      | None, LRun _ => negb (bool_decide (l_pc (w_loops w t) = RDone))
      | Some c, LLeave _ => leaving w t
      | Some c, LIdel _ => negb (leaving w t) && bool_decide (l_idle (w_loops w t) = Some c)
      | Some c, LDo _ a =>
          negb (leaving w t) && negb (bool_decide (l_idle (w_loops w t) = Some c)) && can_do w c a
      | _, _ => false
      end
  | None =>
      match l with
      | LSchedule ft => schedulable w ft
      | _ => true
      end
  end.
Definition do_action (t : Z) (a : Action) : M World unit :=
  match a with
  | ASchedule ft => do_schedule ft
  | ANew cb => fibers (new_Fiber (Some (User cb)) 0 false) ;; mret tt
  | AYield s => fibers (yield_mark t s) ;; mret tt
  | AReturn => fibers (main_end t false) ;; mret tt
  | AThrow => fibers (main_end t true) ;; mret tt
  end.
(** [stop()] up to its joins, by thread [t]; [self] says whether its
    [Scheduler::GetThis()] is this scheduler.  With a root fiber it ends in the
    [call] that runs it. *)
Definition stop (t : Z) (self : bool) : M World unit :=
  sched (set_autoStop true) ;;
  w ← get;
  let sc := w_sc w in
  early ← match m_rootFiber sc with
    | Some r =>
        if (m_threadCount sc =? 0) &&
           (bool_decide (state_of w r = Some TERM) || bool_decide (state_of w r = Some INIT))
        then sched (set_stopping true) ;; gets (fun w => stopping (w_sc w))
        else mret false
    | None => mret false
    end;
  if early : bool then mret tt else
  (if negb (m_rootThread sc =? -1) then if self then mret tt else crash
   else if self then crash else mret tt) ;;
  sched (set_stopping true) ;;
  Nat.iter (Z.to_nat (m_threadCount sc)) (fun m => tickle ;; m) (mret tt) ;;
  match m_rootFiber sc with
  | None => mret tt
  | Some r =>
      tickle ;;
      w ← get;
      if stopping (w_sc w) then mret tt else fibers (call t r)
  end.
(** The rest of [stop]: the pool is emptied and joined. *)
Definition stop_join : M World unit := sched (set_threads []).
Definition step (l : Label) : M World unit :=
  match l with
  | LRun t => run_step t
  | LIdel t => idel_step t
  | LLeave t => c ← gets (fun w => guest w t); match c with Some c => leave t c | None => mret tt end
  | LDo t a => do_action t a
  | LSchedule ft => do_schedule ft
  | LNew cb => fibers (new_Fiber (Some (User cb)) 0 false) ;; mret tt
  | LStop => stop 0 false
  end.

(** [Scheduler(n, false, name)] followed by [start()]: the threads have been
    created and none has run yet. *)
Definition started (workers : list Z) : World :=
  mkWorld (mkFibers ∅ (fun _ => new_Tls) 0 0 0)
    (mkScheduler [] None workers (Z.of_nat (length workers)) 0 0 false false (-1) workers)
    (fun _ => new_Loop) 0.
Inductive reachable (workers : list Z) : World -> Prop :=
| reach_start : reachable workers (started workers)
| reach_step w l w' :
    reachable workers w -> enabled workers w l = true -> step l w = (Ret tt, w') -> reachable workers w'.
(** A run given by its labels: [None] when a label is not enabled. *)
Fixpoint run_trace (workers : list Z) (ls : list Label) (w : World) : option (outcome unit * World) :=
  match ls with
  | [] => Some (Ret tt, w)
  | l :: ls =>
      if enabled workers w l then
        match step l w with
        | (Ret tt, w') => run_trace workers ls w'
        | r => Some r
        end
      else None
  end.

(** ** The scan *)
Definition eligible (state : nat -> option State) (self : Z) (it : FiberAndThread) : bool :=
  ((ft_thread it =? -1) || (ft_thread it =? self)) &&
  match ft_fiber it with Some f => negb (bool_decide (state f = Some EXEC)) | None => true end.
Definition foreign (self : Z) (it : FiberAndThread) : bool :=
  negb (ft_thread it =? -1) && negb (ft_thread it =? self).
(** Every task of the queue has a function or an existing fiber. *)
Definition task_live (state : nat -> option State) (it : FiberAndThread) : Prop :=
  match ft_fiber it, ft_cb it with
  | None, None => False
  | None, Some _ => True
  | Some f, _ => is_Some (state f)
  end.

Lemma scan_run state self q :
  Forall (task_live state) q ->
  exists task q' tickle_me, scan state self q = Ret (task, q', tickle_me) /\
    match task with
    | Some ft => exists pre post, q = pre ++ ft :: post /\ q' = pre ++ post /\ eligible state self ft = true /\
        Forall (fun it => eligible state self it = false) pre /\
        tickle_me = existsb (foreign self) pre || negb (bool_decide (post = []))
    | None => q' = q /\ Forall (fun it => eligible state self it = false) q /\
        tickle_me = existsb (foreign self) q
    end.
Proof.
  induction 1 as [|it q Hit Hq (task & q' & tk & E & IH)].
  { by eexists _, _, _. }
  cbn [scan]. unfold task_live in Hit.
  assert (Hskip : forall b, eligible state self it = false -> foreign self it = b ->
    match task with
    | Some ft => exists pre post, it :: q = pre ++ ft :: post /\ it :: q' = pre ++ post /\
        eligible state self ft = true /\ Forall (fun it => eligible state self it = false) pre /\
        b || tk = existsb (foreign self) pre || negb (bool_decide (post = []))
    | None => it :: q' = it :: q /\ Forall (fun it => eligible state self it = false) (it :: q) /\
        b || tk = existsb (foreign self) (it :: q)
    end).
  { intros b He <-. destruct task as [ft|].
    - destruct IH as (pre & post & -> & -> & ? & ? & ->).
      exists (it :: pre), post. cbn [existsb]. rewrite orb_assoc. split_and!; auto.
    - destruct IH as (-> & ? & ->). split_and!; auto. }
  destruct (negb (ft_thread it =? -1) && negb (ft_thread it =? self)) eqn:Hf.
  - rewrite E. eexists _, _, _. split; [done|]. apply (Hskip true); [|done].
    unfold eligible. by rewrite <- negb_orb, negb_true_iff in Hf; rewrite Hf.
  - assert (Hmine : (ft_thread it =? -1) || (ft_thread it =? self) = true)
      by (by rewrite <- negb_orb, negb_false_iff in Hf).
    assert (Htake : eligible state self it = true -> exists task q'0 tickle_me,
        Ret (Some it, q, match q with [] => false | _ => true end) = Ret (task, q'0, tickle_me) /\
        match task with
        | Some ft => exists pre post, it :: q = pre ++ ft :: post /\ q'0 = pre ++ post /\
            eligible state self ft = true /\ Forall (fun it => eligible state self it = false) pre /\
            tickle_me = existsb (foreign self) pre || negb (bool_decide (post = []))
        | None => q'0 = it :: q /\ Forall (fun it => eligible state self it = false) (it :: q) /\
            tickle_me = existsb (foreign self) (it :: q)
        end).
    { intros He. eexists _, _, _. split; [done|]. exists [], q. split_and!; try done. by destruct q. }
    unfold eligible in Htake. rewrite Hmine in Htake. cbn [andb] in Htake.
    destruct (ft_fiber it) as [f|] eqn:Ef; [|destruct (ft_cb it); [by apply Htake | done]].
    destruct Hit as [s Hs]. rewrite Hs in *.
    destruct s; try (apply Htake; by rewrite bool_decide_eq_false_2).
    rewrite E. eexists _, _, _. split; [done|]. apply (Hskip false); [|done].
    unfold eligible. by rewrite Ef, Hs, bool_decide_eq_true_2, andb_false_r.
Qed.

(** ** The counters *)
Definition holds_task (l : Loop) : bool :=
  match l_pc l with
  | RDispatch => l_active l
  | RSwapIn k _ | RSwap k _ | RIn k _ => negb (bool_decide (k = KIdle))
  | _ => false
  end.
Definition holds_idle (l : Loop) : bool :=
  match l_pc l with
  | RSwapIn k _ | RSwap k _ | RIn k _ => bool_decide (k = KIdle)
  | _ => false
  end.
Definition count_held (p : Loop -> bool) (workers : list Z) (w : World) : Z :=
  Z.of_nat (length (filter (fun t => p (w_loops w t) = true) workers)).

Lemma loops_self t g w : w_loops (map_loop t g w) t = g (w_loops w t).
Proof. cbn. by rewrite Z.eqb_refl. Qed.
Lemma loops_other t t' g w : t' <> t -> w_loops (map_loop t g w) t' = w_loops w t'.
Proof. intros H. cbn. by rewrite (proj2 (Z.eqb_neq _ _) H). Qed.

(** At the dispatch an inactive loop has no task. *)
Definition dispatch_ok (l : Loop) : Prop := l_pc l = RDispatch -> l_active l = false -> l_ft l = no_task.

(** What a step of thread [t] does to the counters, as its loop moves. *)
Record counted (t : Z) (w w' : World) : Prop := {
  c_other : forall t', t' <> t -> w_loops w' t' = w_loops w t';
  c_dispatch : dispatch_ok (w_loops w t) -> dispatch_ok (w_loops w' t);
  c_active : m_activeThreadCount (w_sc w') =
    u64 (m_activeThreadCount (w_sc w) + (Z.b2z (holds_task (w_loops w' t)) - Z.b2z (holds_task (w_loops w t))));
  c_idle : m_idelThreadCount (w_sc w') =
    u64 (m_idelThreadCount (w_sc w) + (Z.b2z (holds_idle (w_loops w' t)) - Z.b2z (holds_idle (w_loops w t))))
}.
Definition counters_ok (w : World) : Prop :=
  0 <= m_activeThreadCount (w_sc w) < 2 ^ 64 /\ 0 <= m_idelThreadCount (w_sc w) < 2 ^ 64.


(** Parts of a step that leave the counters and the program counter alone. *)
Definition neutral {A} (t : Z) (m : M World A) : Prop := forall w a w',
  m w = (Ret a, w') ->
  (forall t', t' <> t -> w_loops w' t' = w_loops w t') /\
  (dispatch_ok (w_loops w t) -> dispatch_ok (w_loops w' t)) /\
  l_pc (w_loops w' t) = l_pc (w_loops w t) /\ l_active (w_loops w' t) = l_active (w_loops w t) /\
  m_activeThreadCount (w_sc w') = m_activeThreadCount (w_sc w) /\
  m_idelThreadCount (w_sc w') = m_idelThreadCount (w_sc w).

Lemma bind_inv {S A B} (m : M S A) (k : A -> M S B) s b s' :
  (m ≫= k) s = (Ret b, s') -> exists a s1, m s = (Ret a, s1) /\ k a s1 = (Ret b, s').
Proof. unfold mbind, M_bind. destruct (m s) as [[] s1] eqn:E; try discriminate. eauto. Qed.

Lemma neutral_ret {A} t (a : A) : neutral t (mret a).
Proof. intros w b w' [= <- <-]. done. Qed.
Lemma neutral_crash {A} t : neutral (A := A) t crash.
Proof. intros w b w' [=]. Qed.
Lemma neutral_lift {A} t (o : outcome A) : neutral t (lift o).
Proof. intros w b w' [= _ <-]. done. Qed.
Lemma neutral_gets {A} t (g : World -> A) : neutral t (gets g).
Proof. intros w b w' [= _ <-]. done. Qed.
Lemma neutral_get t : neutral t get.
Proof. intros w b w' [= _ <-]. done. Qed.
Lemma neutral_bind {A B} t (m : M World A) (k : A -> M World B) :
  neutral t m -> (forall a, neutral t (k a)) -> neutral t (m ≫= k).
Proof.
  intros Hm Hk w b w' H. apply bind_inv in H as (a & w1 & H1 & H2).
  apply Hm in H1 as (O1 & D1 & P1 & A1 & C1 & I1). apply Hk in H2 as (O2 & D2 & P2 & A2 & C2 & I2).
  split_and!; try congruence; [intros t' Ht; by rewrite O2, O1 | by auto].
Qed.
Lemma neutral_fibers {A} t (m : M Fibers A) : neutral t (fibers m).
Proof. intros w b w' H. unfold fibers in H. destruct (m (w_fw w)) as [r fw]. injection H as -> <-. done. Qed.
Lemma neutral_tickle t : neutral t tickle.
Proof. intros w b w' [= _ <-]. done. Qed.
Lemma neutral_set_fibers t q : neutral t (sched (set_fibers q)).
Proof. intros w b w' [= _ <-]. done. Qed.
Lemma neutral_loop t g :
  (forall l, l_pc (g l) = l_pc l /\ l_active (g l) = l_active l /\ (l_ft (g l) = l_ft l \/ l_ft (g l) = no_task)) ->
  neutral t (loop t g).
Proof.
  intros Hg w b w' [= _ <-]. rewrite !loops_self. destruct (Hg (w_loops w t)) as (Hp & Ha & Hf).
  split_and!; try done; [intros; by apply loops_other|].
  unfold dispatch_ok. rewrite Hp, Ha. destruct Hf as [-> | ->]; auto.
Qed.
Lemma neutral_schedule t ft : neutral t (do_schedule ft).
Proof.
  intros w b w' H. unfold do_schedule, schedule, scheduleNoLock in H.
  unfold tickle, sched in H. cbv [mbind mret M_bind M_ret get modify] in H.
  destruct (m_fibers (w_sc w)) eqn:E, (ft_fiber ft), (ft_cb ft); injection H as _ <-; done.
Qed.
Create HintDb neutral.
#[export] Hint Resolve neutral_ret neutral_crash neutral_lift neutral_gets neutral_get neutral_fibers
  neutral_tickle neutral_set_fibers neutral_schedule : neutral.
#[export] Hint Extern 1 (neutral _ (loop _ _)) => apply neutral_loop; intros; cbn; auto : neutral.
Ltac neutral := repeat first [solve [eauto with neutral] | apply neutral_bind; [|intros ?] | case_match].

Lemma holds_same l l' :
  l_pc l = l_pc l' -> l_active l = l_active l' -> holds_task l = holds_task l' /\ holds_idle l = holds_idle l'.
Proof. intros E1 E2. unfold holds_task, holds_idle. by rewrite E1, E2. Qed.

(** A step is counted part by part. *)
Lemma counted_refl t w : counters_ok w -> counted t w w.
Proof.
  intros [Ha Hi]. split; [done|done|..]; rewrite Z.sub_diag, Z.add_0_r; symmetry; by apply wrapu_id.
Qed.
Lemma neutral_ok {A} t (m : M World A) w a w' : neutral t m -> m w = (Ret a, w') -> counters_ok w -> counters_ok w'.
Proof. intros Hm H [Ha Hi]. apply Hm in H as (_ & _ & _ & _ & C & I). unfold counters_ok. by rewrite C, I. Qed.
Lemma neutral_then {A B} t (m : M World A) (k : A -> M World B) w b w' :
  neutral t m -> counters_ok w -> (m ≫= k) w = (Ret b, w') ->
  (forall a w1, m w = (Ret a, w1) -> counters_ok w1 -> l_pc (w_loops w1 t) = l_pc (w_loops w t) ->
    l_active (w_loops w1 t) = l_active (w_loops w t) -> k a w1 = (Ret b, w') -> counted t w1 w') ->
  counted t w w'.
Proof.
  intros Hm Hok H Hk. apply bind_inv in H as (a & w1 & H1 & H2).
  pose proof (neutral_ok _ _ _ _ _ Hm H1 Hok) as Hok1.
  pose proof (Hm _ _ _ H1) as (O1 & D1 & P1 & A1 & C1 & I1).
  destruct (Hk a w1 H1 Hok1 P1 A1 H2) as [O2 D2 C2 I2].
  destruct (holds_same _ _ P1 A1) as [X1 X2]. split.
  - intros t' Hne. by rewrite O2, O1.
  - auto.
  - by rewrite C2, C1, X1.
  - by rewrite I2, I1, X2.
Qed.
Lemma counted_neutral {A} t (m : M World A) w a w' :
  counters_ok w -> neutral t m -> m w = (Ret a, w') -> counted t w w'.
Proof.
  intros Hok Hm H. eapply (neutral_then t m (fun a => mret a)); [done..| |].
  - by mstep H.
  - intros ? ? _ Hok1 _ _ [= _ <-]. by apply counted_refl.
Qed.
(** A change of the counters and a jump. *)
Lemma counted_jump t g pc w w' :
  pc <> RDispatch ->
  (sched g ;; goto t pc) w = (Ret tt, w') ->
  m_activeThreadCount (g (w_sc w)) = u64 (m_activeThreadCount (w_sc w) +
    (Z.b2z (holds_task (set_pc pc (w_loops w t))) - Z.b2z (holds_task (w_loops w t)))) ->
  m_idelThreadCount (g (w_sc w)) = u64 (m_idelThreadCount (w_sc w) +
    (Z.b2z (holds_idle (set_pc pc (w_loops w t))) - Z.b2z (holds_idle (w_loops w t)))) ->
  counted t w w'.
Proof.
  intros Hpc [= <-] Ha Hi. split; [intros; by rewrite loops_other|..]; rewrite loops_self; try done.
  by unfold dispatch_ok.
Qed.
Lemma counted_goto t pc w w' :
  pc <> RDispatch ->
  counters_ok w -> goto t pc w = (Ret tt, w') ->
  holds_task (set_pc pc (w_loops w t)) = holds_task (w_loops w t) ->
  holds_idle (set_pc pc (w_loops w t)) = holds_idle (w_loops w t) ->
  counted t w w'.
Proof.
  intros Hpc [Ha Hi] H Ht Hid. apply (counted_jump t (fun s => s) pc); [done | by destruct w |..];
    rewrite ?Ht, ?Hid, Z.sub_diag, Z.add_0_r; symmetry; by apply wrapu_id.
Qed.
Ltac next_part H :=
  eapply neutral_then; [| | exact H |]; [solve [neutral] | assumption |]; clear H;
  intros ? ? _ ? ? ? H; cbv beta in H.
(** The final jump from the program counter [pc]. *)
Ltac jump t pc H :=
  match type of H with
  | _ ?w = _ =>
      assert (l_pc (w_loops w t) = pc) as Hjump by congruence;
      first [ eapply (counted_goto t); [| assumption | exact H |..]; [done |..]
            | eapply (counted_jump t); [| exact H |..]; [done |..] ];
      unfold holds_task, holds_idle; cbn; rewrite ?Hjump; cbn; try done
  end.

Lemma run_start_counted t w w' :
  counters_ok w -> l_pc (w_loops w t) = RStart -> run_start t w = (Ret tt, w') -> counted t w w'.
Proof.
  intros Hok Hpc H. unfold run_start in H. repeat next_part H. by jump t RStart H.
Qed.
Lemma run_scan_counted t w w' :
  counters_ok w -> l_pc (w_loops w t) = RScan -> run_scan t w = (Ret tt, w') -> counted t w w'.
Proof.
  intros [Ha Hi] Hpc H. unfold run_scan, loop, goto, sched, tickle in H.
  cbv beta iota delta [mbind mret M_bind M_ret get gets lift modify] in H. cbn [w_sc map_loop] in H.
  assert (Hc : forall w2 b, (forall t', t' <> t -> w_loops w2 t' = w_loops w t') ->
    l_pc (w_loops w2 t) = RDispatch -> l_active (w_loops w2 t) = b -> (b = false -> l_ft (w_loops w2 t) = no_task) ->
    m_activeThreadCount (w_sc w2) = u64 (m_activeThreadCount (w_sc w) + Z.b2z b) ->
    m_idelThreadCount (w_sc w2) = u64 (m_idelThreadCount (w_sc w) + 0) -> counted t w w2).
  { intros w2 b E1 E2 E3 Ef E4 E5. split; [done|by intros _ _; rewrite E3|..];
      unfold holds_task, holds_idle; rewrite E2, Hpc, ?E3, ?E4, ?E5; by rewrite Z.sub_0_r. }
  assert (Hz : forall x, 0 <= x < 2 ^ 64 -> x = u64 (x + 0)) by (intros; rewrite Z.add_0_r; symmetry; by apply wrapu_id).
  destruct (scan _ _ _) as [[[[ft|] q] tk]| | |]; try discriminate; destruct tk; injection H as <-;
    [apply (Hc _ true) | apply (Hc _ true) | apply (Hc _ false) | apply (Hc _ false)];
    cbn; rewrite ?Z.eqb_refl; try done; try (by apply Hz); intros t' Hne; by rewrite (proj2 (Z.eqb_neq _ _) Hne).
Qed.
Lemma run_dispatch_counted t w w' :
  counters_ok w -> dispatch_ok (w_loops w t) -> l_pc (w_loops w t) = RDispatch ->
  run_dispatch t w = (Ret tt, w') -> counted t w w'.
Proof.
  intros Hok Hd Hpc H. unfold run_dispatch in H. rewrite bind_gets, bind_get in H.
  assert (Hact : forall A (x : option A), l_active (w_loops w t) = true \/ l_ft (w_loops w t) = no_task).
  { intros. destruct (l_active _) eqn:E; auto. }
  destruct (match ft_fiber _ with Some _ => _ | None => _ end) as [f|] eqn:Er.
  - jump t RDispatch H. destruct (Hact _ (Some f)) as [-> | E]; [done | by rewrite E in Er].
  - destruct (ft_cb (l_ft (w_loops w t))) as [cb|] eqn:Ec.
    + assert (Ha : l_active (w_loops w t) = true) by (destruct (Hact _ (Some cb)) as [|E]; [done | by rewrite E in Ec]).
      repeat next_part H. jump t RDispatch H. by replace (l_active _) with true by congruence.
    + destruct (l_active (w_loops w t)) eqn:Ha.
      * jump t RDispatch H; [by rewrite Ha | by rewrite Z.add_0_r; symmetry; apply wrapu_id, Hok].
      * next_part H. rewrite bind_get in H.
        case_bool_decide; jump t RDispatch H; replace (l_active _) with false by congruence; [done|].
        replace (Z.b2z _ - _) with 0 by done. rewrite Z.add_0_r. symmetry. by apply wrapu_id, H0.
Qed.
Lemma run_back_counted t k f w w' :
  counters_ok w -> l_pc (w_loops w t) = RBack k f -> run_back t k f w = (Ret tt, w') -> counted t w w'.
Proof.
  intros Hok Hpc H. unfold run_back in H. rewrite bind_get in H.
  next_part H. jump t (RBack k f) H.
Qed.
Lemma run_step_counted t w w' :
  counters_ok w -> dispatch_ok (w_loops w t) -> run_step t w = (Ret tt, w') -> counted t w w'.
Proof.
  intros Hok Hd H. unfold run_step in H. rewrite bind_gets in H.
  destruct (l_pc (w_loops w t)) as [| | |k f|k f|k f|k f|] eqn:Hpc.
  - by apply run_start_counted.
  - by apply run_scan_counted.
  - by apply run_dispatch_counted.
  - next_part H. jump t (RSwapIn k f) H.
  - next_part H. jump t (RSwap k f) H.
  - destruct Hok as [Ha Hi].
    destruct k; [jump t (RIn KFiber f) H | jump t (RIn KCb f) H | jump t (RIn KIdle f) H]; rewrite Z.add_0_r; symmetry; by apply wrapu_id.
  - by eapply run_back_counted.
  - injection H as <-. by apply counted_refl.
Qed.
Lemma stop_neutral t t' self : neutral t (stop t' self).
Proof.
  assert (Hs : forall b, neutral t (sched (set_autoStop b)) /\ neutral t (sched (set_stopping b))).
  { intros b. split; intros w a w' [= _ <-]; done. }
  assert (Ht : forall n, neutral t (Nat.iter n (fun m => tickle ;; m) (mret tt))).
  { induction n as [|n IH]; cbn; [neutral|]. apply neutral_bind; [neutral | done]. }
  unfold stop. repeat first [ apply Hs | apply Ht | solve [eauto with neutral]
    | apply neutral_bind; [|intros ?] | case_match ].
Qed.
Lemma idel_neutral t t' : neutral t (idel_step t').
Proof. unfold idel_step. neutral. Qed.
Lemma action_neutral t t' a : neutral t (do_action t' a).
Proof. destruct a; cbn; neutral. Qed.
Lemma leave_neutral t t' f : neutral t (leave t' f).
Proof. unfold leave. neutral. Qed.
Lemma outside_neutral t l : thread_of l = None -> neutral t (step l).
Proof.
  destruct l as [| | | |ft|cb|]; try done; intros _; cbn [step]; [neutral | neutral | apply stop_neutral].
Qed.
Lemma step_counted t l w w' :
  thread_of l = Some t -> counters_ok w -> dispatch_ok (w_loops w t) -> step l w = (Ret tt, w') -> counted t w w'.
Proof.
  intros Ht Hok Hd H. destruct l as [t'|t'|t'|t' a|ft|cb|]; cbn in Ht; try discriminate; injection Ht as ->.
  - by apply run_step_counted.
  - eapply counted_neutral; [done | apply idel_neutral | exact H].
  - eapply counted_neutral; [done | | exact H]. cbn [step].
    apply neutral_bind; [neutral | intros [c|]; [apply leave_neutral | neutral]].
  - eapply counted_neutral; [done | apply action_neutral | exact H].
Qed.

Lemma count_other p workers w w' t :
  t ∉ workers -> (forall t', t' <> t -> w_loops w' t' = w_loops w t') ->
  count_held p workers w' = count_held p workers w.
Proof.
  intros Ht Ho. unfold count_held. induction workers as [|x ws IH]; [done|].
  apply not_elem_of_cons in Ht as [Hx Ht]. rewrite !list.filter_cons, Ho by done.
  case_decide; cbn [length]; specialize (IH Ht); lia.
Qed.
Lemma count_step p workers w w' t :
  NoDup workers -> t ∈ workers -> (forall t', t' <> t -> w_loops w' t' = w_loops w t') ->
  count_held p workers w' =
    count_held p workers w + (Z.b2z (p (w_loops w' t)) - Z.b2z (p (w_loops w t))).
Proof.
  intros Hnd Ht Ho. induction workers as [|x ws IH]; [by apply not_elem_of_nil in Ht|].
  apply list.NoDup_cons in Hnd as [Hx Hnd].
  unfold count_held in *. rewrite !list.filter_cons. destruct (decide (x = t)) as [->|Hne].
  - pose proof (count_other p ws w w' t Hx Ho) as E. unfold count_held in E.
    destruct (p (w_loops w' t)), (p (w_loops w t)); cbn [decide length]; repeat case_decide; cbn [length Z.b2z]; try done; lia.
  - apply elem_of_cons in Ht as [|Ht]; [done|]. rewrite Ho by done. specialize (IH Hnd Ht).
    case_decide; cbn [length]; lia.
Qed.
Lemma count_bound p workers w : 0 <= count_held p workers w <= Z.of_nat (length workers).
Proof. unfold count_held. split; [lia|]. apply inj_le, length_filter. Qed.

Definition counters_exact (workers : list Z) (w : World) : Prop :=
  m_activeThreadCount (w_sc w) = count_held holds_task workers w /\
  m_idelThreadCount (w_sc w) = count_held holds_idle workers w /\
  (forall t, dispatch_ok (w_loops w t)).
Lemma started_counters workers : counters_exact workers (started workers).
Proof.
  split_and!; [| |by intros t]; unfold count_held, started; cbn; by induction workers.
Qed.
Lemma enabled_worker workers w l t : enabled workers w l = true -> thread_of l = Some t -> t ∈ workers.
Proof.
  intros He Ht. unfold enabled in He. rewrite Ht in He. apply andb_true_iff in He as [He _].
  by apply bool_decide_eq_true_1 in He.
Qed.
Lemma counters_run workers w :
  NoDup workers -> Z.of_nat (length workers) < 2 ^ 64 -> reachable workers w -> counters_exact workers w.
Proof.
  intros Hnd Hlen. induction 1 as [|w l w' Hr (Ha & Hi & Hd) Hen Hst]; [apply started_counters|].
  assert (Hb : forall p, 0 <= count_held p workers w' < 2 ^ 64)
    by (intros p; pose proof (count_bound p workers w'); lia).
  assert (Hok : counters_ok w).
  { pose proof (count_bound holds_task workers w). pose proof (count_bound holds_idle workers w).
    unfold counters_ok. lia. }
  destruct (thread_of l) as [t|] eqn:Et.
  - destruct (step_counted t l w w' Et Hok (Hd t) Hst) as [O D A I].
    assert (Ht : t ∈ workers) by (by eapply enabled_worker).
    split_and!.
    + rewrite A, Ha, <- count_step by done. by apply wrapu_id.
    + rewrite I, Hi, <- count_step by done. by apply wrapu_id.
    + intros t'. destruct (decide (t' = t)) as [->|Hne]; [auto | by rewrite O].
  - assert (Hn : forall t, neutral t (step l)) by (intros; by apply outside_neutral).
    assert (Hsame : forall t, holds_task (w_loops w' t) = holds_task (w_loops w t) /\
                              holds_idle (w_loops w' t) = holds_idle (w_loops w t)).
    { intros t. destruct (Hn t _ _ _ Hst) as (_ & _ & P & A & _). by apply holds_same. }
    pose proof (Hn 0 _ _ _ Hst) as (_ & _ & _ & _ & CA & CI).
    split_and!; [rewrite CA, Ha | rewrite CI, Hi | intros t; by apply (Hn t _ _ _ Hst)];
      unfold count_held; do 2 f_equal; apply list_filter_iff; intros t; destruct (Hsame t) as [E1 E2]; by rewrite ?E1, ?E2.
Qed.

(** In every reachable state of a scheduler with any number of worker
    threads, under every interleaving, [m_activeThreadCount] is the number of
    workers between taking a task off the queue and having run it, and
    [m_idelThreadCount] the number of workers in their idle fiber; neither wraps
    around.  So when [stopping()] says yes, the queue is empty and no worker holds
    a task. *)
Theorem counters_correct workers w :
  NoDup workers -> Z.of_nat (length workers) < 2 ^ 64 -> reachable workers w ->
  m_activeThreadCount (w_sc w) = count_held holds_task workers w /\
  m_idelThreadCount (w_sc w) = count_held holds_idle workers w /\
  (stopping (w_sc w) = true ->
    m_fibers (w_sc w) = [] /\ forall t, t ∈ workers -> holds_task (w_loops w t) = false).
Proof.
  intros Hnd Hlen Hr. destruct (counters_run workers w Hnd Hlen Hr) as (Ha & Hi & _).
  split_and!; [done..|]. unfold stopping. rewrite !andb_true_iff, Z.eqb_eq, Ha. intros [[_ Hq] Hz].
  split; [by destruct (m_fibers (w_sc w))|]. intros t Ht.
  unfold count_held in Hz. apply not_true_iff_false. intros Hh.
  assert (Hin : t ∈ filter (fun t => holds_task (w_loops w t) = true) workers) by (by apply list_elem_of_filter).
  destruct (filter _ workers); [by apply not_elem_of_nil in Hin | cbn in Hz; lia].
Qed.
