(* ===== verification/SingleWorker.v ===== *)
(** * A scheduler with one worker thread (cxk/scheduler.cpp)

    The invariant of [Scheduler::run] with the fibers it runs, for one worker and
    any clients, and with it that no assertion fails and no context is resumed
    that must not be.  The same with two workers is refuted by a run. *)
From S2P Require Import Prelude Fiber Scheduler.

(** ** Heaps of fibers *)
Definition coherent (F : Fiber) : Prop :=
  match m_state F, m_ctx F with
  | INIT, Entry _ | HOLD, Suspended | READY, Suspended | TERM, Ended | EXCEPT, Ended => True
  | _, _ => False
  end.
(** [m] is the thread's main fiber, with context [mc]; every other fiber but
    [cur] is coherent. *)
Record heap_ok (m : nat) (cur : option nat) (mc : Ctx) (fw : Fibers) : Prop := {
  ho_main : exists F, w_fibers fw !! m = Some F /\ m_stack F = false /\ m_ctx F = mc;
  ho_stack : forall a F, w_fibers fw !! a = Some F -> a <> m -> m_stack F = true;
  ho_coherent : forall a F, w_fibers fw !! a = Some F -> a <> m -> Some a <> cur -> coherent F;
  ho_next : forall a F, w_fibers fw !! a = Some F -> (a < w_next fw)%nat
}.
Lemma heap_tls m cur mc t g fw : heap_ok m cur mc fw -> heap_ok m cur mc (map_tls t g fw).
Proof. intros [? ? ? ?]. by split. Qed.
Lemma lookup_alter_cases (g : Fiber -> Fiber) (a b : nat) (h : gmap nat Fiber) F :
  alter g a h !! b = Some F ->
  (b = a /\ exists F0, h !! a = Some F0 /\ F = g F0) \/ (b <> a /\ h !! b = Some F).
Proof.
  destruct (decide (b = a)) as [->|Hne].
  - rewrite lookup_alter_eq. intros (F0 & H & ->)%fmap_Some_1. left. eauto.
  - rewrite lookup_alter_ne by done. auto.
Qed.
(** A change of the fiber that runs, or stops running. *)
Lemma heap_update m cur cur' mc fw a g F :
  heap_ok m cur mc fw -> w_fibers fw !! a = Some F -> a <> m ->
  (cur = Some a \/ cur = None) -> m_stack (g F) = m_stack F ->
  (cur' = Some a \/ cur' = None /\ coherent (g F)) ->
  heap_ok m cur' mc (map_fibers (alter g a) fw).
Proof.
  intros [HM HS HC HN] HF Ha Hcur Hst Hcur'. split; cbn.
  - destruct HM as (F0 & ? & ? & ?). exists F0. by rewrite lookup_alter_ne.
  - intros b G HG Hb. apply lookup_alter_cases in HG as [(-> & F0 & HF0 & ->) | [_ HG]]; [|by eauto].
    rewrite HF in HF0. injection HF0 as <-. rewrite Hst. eauto.
  - intros b G HG Hb Hc. apply lookup_alter_cases in HG as [(-> & F0 & HF0 & ->) | [Hne HG]].
    + rewrite HF in HF0. injection HF0 as <-. destruct Hcur' as [-> | [_ ?]]; done.
    + apply (HC b); [done..|]. destruct Hcur as [-> | ->]; congruence.
  - intros b G HG. apply lookup_alter_cases in HG as [(-> & F0 & HF0 & ->) | [_ HG]]; eauto.
Qed.
Lemma heap_main m cur mc mc' fw :
  heap_ok m cur mc fw -> heap_ok m cur mc' (map_fibers (alter (with_ctx mc') m) fw).
Proof.
  intros [(F & HF & HS0 & HM) HS HC HN]. split; cbn.
  - exists (with_ctx mc' F). by rewrite lookup_alter_eq, HF.
  - intros b G HG Hb. rewrite lookup_alter_ne in HG by done. eauto.
  - intros b G HG Hb Hc. rewrite lookup_alter_ne in HG by done. eauto.
  - intros b G HG. apply lookup_alter_cases in HG as [(-> & F0 & HF0 & ->) | [_ HG]]; eauto.
Qed.
Lemma heap_alloc m cur mc fw f id n :
  heap_ok m cur mc fw -> m_stack f = true -> coherent f -> heap_ok m cur mc (alloc f id n fw).
Proof.
  intros [HM HS HC HN] Hst Hco. split; cbn.
  - destruct HM as (F & HF & ? & ?). exists F. rewrite lookup_insert_ne; [done|].
    intros <-. apply HN in HF. lia.
  - intros b G HG Hb. destruct (decide (w_next fw = b)) as [<-|];
      [rewrite lookup_insert_eq in HG; by injection HG as <- | rewrite lookup_insert_ne in HG by done; eauto].
  - intros b G HG Hb Hc. destruct (decide (w_next fw = b)) as [<-|];
      [rewrite lookup_insert_eq in HG; by injection HG as <- | rewrite lookup_insert_ne in HG by done; eauto].
  - intros b G HG. destruct (decide (w_next fw = b)) as [<-|]; [lia|].
    rewrite lookup_insert_ne in HG by done. apply HN in HG. lia.
Qed.

(** Fibers stay, with their stack, and only an idle fiber runs [idel]. *)
Definition grows (fw fw' : Fibers) : Prop := forall a F, w_fibers fw !! a = Some F ->
  exists F', w_fibers fw' !! a = Some F' /\ m_stack F' = m_stack F /\
    (m_cb F <> Some SchedulerIdel -> m_cb F' <> Some SchedulerIdel).
Lemma grows_refl fw : grows fw fw.
Proof. intros a F H. eauto. Qed.
Lemma grows_trans fw1 fw2 fw3 : grows fw1 fw2 -> grows fw2 fw3 -> grows fw1 fw3.
Proof.
  intros H1 H2 a F HF. apply H1 in HF as (F' & HF' & S' & C'). apply H2 in HF' as (F'' & HF'' & S'' & C'').
  exists F''. split_and!; [done | congruence | auto].
Qed.
Lemma grows_tls t g fw : grows fw (map_tls t g fw).
Proof. intros a F H. eauto. Qed.
Lemma grows_alter a g fw :
  (forall F, m_stack (g F) = m_stack F) ->
  (forall F, m_cb F <> Some SchedulerIdel -> m_cb (g F) <> Some SchedulerIdel) ->
  grows fw (map_fibers (alter g a) fw).
Proof.
  intros Hs Hc b F HF. cbn. destruct (decide (b = a)) as [->|Hne].
  - exists (g F). rewrite lookup_alter_eq, HF. auto.
  - exists F. by rewrite lookup_alter_ne.
Qed.
Lemma grows_alloc f id n fw : w_fibers fw !! w_next fw = None -> grows fw (alloc f id n fw).
Proof. intros Hn b F HF. exists F. cbn. rewrite lookup_insert_ne; [done|]. congruence. Qed.
Lemma heap_fresh m cur mc fw : heap_ok m cur mc fw -> w_fibers fw !! w_next fw = None.
Proof.
  intros [_ _ _ HN]. destruct (w_fibers fw !! w_next fw) eqn:E; [|done]. apply HN in E. lia.
Qed.

(** A task with a function, or with a fiber that the loop may run. *)
Definition task_good (fw : Fibers) (ft : FiberAndThread) : Prop :=
  match ft_fiber ft, ft_cb ft with
  | None, None => False
  | None, Some _ => True
  | Some f, _ => exists F, w_fibers fw !! f = Some F /\ m_stack F = true /\ m_cb F <> Some SchedulerIdel
  end.
Lemma task_good_grows fw fw' ft : grows fw fw' -> task_good fw ft -> task_good fw' ft.
Proof.
  intros Hg. unfold task_good. destruct (ft_fiber ft) as [f|]; [|done].
  intros (F & HF & Hs & Hc). apply Hg in HF as (F' & HF' & S' & C'). exists F'. split_and!; [done | congruence | auto].
Qed.

(** ** The invariant *)
Section Invariant.
Context (t : Z).

Definition tls_of (w : World) : Tls := w_tls (w_fw w) t.
Definition fiber_at (w : World) (a : nat) : option Fiber := w_fibers (w_fw w) !! a.

(** The thread runs its main fiber, and every other fiber is at rest. *)
Definition at_main (m : nat) (w : World) : Prop :=
  t_fiber (tls_of w) = Some m /\ t_cpu (tls_of w) = Some m /\ t_leaving (tls_of w) = None /\
  heap_ok m None OnCpu (w_fw w).
(** The thread runs [f], which is in its body or about to swap out. *)
Definition at_guest (m f : nat) (w : World) : Prop :=
  t_fiber (tls_of w) = Some f /\ t_cpu (tls_of w) = Some f /\ heap_ok m (Some f) Suspended (w_fw w) /\
  exists F, fiber_at w f = Some F /\
    match t_leaving (tls_of w) with
    | None => m_state F = EXEC
    | Some saved => coherent (with_ctx saved F) /\ m_state F <> INIT
    end.
Definition kind_ok (i : nat) (w : World) (k : Kind) (f : nat) : Prop :=
  match k with KIdle => f = i | KCb => l_cb (w_loops w t) = Some f | KFiber => f <> i end.
Definition ready_to_run (w : World) (f : nat) : Prop :=
  exists F, fiber_at w f = Some F /\ (m_state F = INIT \/ m_state F = HOLD \/ m_state F = READY).
Definition came_back (w : World) (f : nat) : Prop :=
  exists F, fiber_at w f = Some F /\ m_state F <> INIT.
Definition phase_ok (m i : nat) (w : World) : Prop :=
  match l_pc (w_loops w t) with
  | RStart => False
  | RScan | RDispatch | RDone => at_main m w
  | RSwapIn k f => at_main m w /\ kind_ok i w k f /\ f <> m /\ ready_to_run w f
  | RSwap k f =>
      t_fiber (tls_of w) = Some f /\ t_cpu (tls_of w) = Some m /\ t_leaving (tls_of w) = None /\
      heap_ok m (Some f) OnCpu (w_fw w) /\ kind_ok i w k f /\ f <> m /\
      exists F, fiber_at w f = Some F /\ m_state F = EXEC /\ resumable (m_ctx F) = true
  | RIn k f => kind_ok i w k f /\ f <> m /\ (at_guest m f w \/ at_main m w /\ came_back w f)
  | RBack k f => at_main m w /\ kind_ok i w k f /\ f <> m /\ came_back w f
  end.
(** [cb_fiber] while it does not run as such: finished, or without a function. *)
Definition cb_at_rest (F : Fiber) : Prop :=
  match m_state F with
  | INIT | EXEC => m_cb F = None
  | TERM | EXCEPT => True
  | HOLD | READY => False
  end.
Definition running_cb (pc : Pc) : option nat :=
  match pc with RSwapIn KCb f | RSwap KCb f | RIn KCb f | RBack KCb f => Some f | _ => None end.
Definition idle_ok (m i : nat) (w : World) : Prop :=
  i <> m /\
  (forall a F, fiber_at w a = Some F -> a <> m -> m_cb F = Some SchedulerIdel -> a = i) /\
  exists F, fiber_at w i = Some F /\
    (m_cb F = Some SchedulerIdel \/ m_state F = TERM) /\ m_state F <> EXCEPT.
Definition cb_ok (m i : nat) (w : World) : Prop := forall c, l_cb (w_loops w t) = Some c ->
  c <> m /\ c <> i /\ exists F, fiber_at w c = Some F /\
    (running_cb (l_pc (w_loops w t)) = Some c \/ cb_at_rest F).

(** The scheduler has no caller thread. *)
Definition root_of (sc : Scheduler) : Z * option nat := (m_rootThread sc, m_rootFiber sc).
Record inv (m i : nat) (w : World) : Prop := {
  iv_main : t_main (tls_of w) = Some m;
  iv_lidle : l_idle (w_loops w t) = Some i;
  iv_root : root_of (w_sc w) = (-1, None);
  iv_idle : idle_ok m i w;
  iv_queue : Forall (task_good (w_fw w)) (m_fibers (w_sc w));
  iv_ft : l_pc (w_loops w t) = RDispatch -> l_ft (w_loops w t) = no_task \/ task_good (w_fw w) (l_ft (w_loops w t));
  iv_cb : cb_ok m i w;
  iv_phase : phase_ok m i w
}.
(** Before the thread has run. *)
Record inv_start (w : World) : Prop := {
  is_pc : l_pc (w_loops w t) = RStart;
  is_tls : t_fiber (tls_of w) = None /\ t_cpu (tls_of w) = None /\ t_leaving (tls_of w) = None;
  is_cb : l_cb (w_loops w t) = None;
  is_root : root_of (w_sc w) = (-1, None);
  is_queue : Forall (task_good (w_fw w)) (m_fibers (w_sc w));
  is_heap : forall a F, fiber_at w a = Some F -> m_stack F = true /\ coherent F /\
    m_cb F <> Some SchedulerIdel /\ (a < w_next (w_fw w))%nat
}.

(** ** Keeping the invariant *)

(** A step that changes the fiber [f] by [g], and else the main fiber only. *)
Definition changes (m f : nat) (g : Fiber -> Fiber) (w w' : World) : Prop :=
  fiber_at w' f = g <$> fiber_at w f /\ forall a, a <> f -> a <> m -> fiber_at w' a = fiber_at w a.
Definition idle_fiber (F : Fiber) : Prop :=
  (m_cb F = Some SchedulerIdel \/ m_state F = TERM) /\ m_state F <> EXCEPT.
Lemma idle_changes m i f g w w' :
  idle_ok m i w -> f <> m -> changes m f g w w' ->
  (forall F, m_cb (g F) = Some SchedulerIdel -> m_cb F = Some SchedulerIdel) ->
  (forall F, fiber_at w f = Some F -> f = i -> idle_fiber F -> idle_fiber (g F)) -> idle_ok m i w'.
Proof.
  intros (Hne & Hu & F & HF & Hi) Hf [H1 H2] Hcb Hg. split_and!; [done|..].
  { intros a G HG Ha Hid. destruct (decide (a = f)) as [->|Haf].
    - rewrite H1 in HG. apply fmap_Some_1 in HG as (G0 & HG0 & ->). eauto.
    - rewrite H2 in HG by done. eauto. }
  destruct (decide (f = i)) as [<-|Hfi].
  - exists (g F). rewrite H1, HF. split; [done|]. by apply Hg.
  - exists F. split; [by rewrite H2|done].
Qed.
Lemma cb_changes m i f g w w' :
  cb_ok m i w -> l_cb (w_loops w' t) = l_cb (w_loops w t) -> f <> m -> changes m f g w w' ->
  (forall c, running_cb (l_pc (w_loops w t)) = Some c -> c = f \/ running_cb (l_pc (w_loops w' t)) = Some c) ->
  (forall F, fiber_at w f = Some F -> l_cb (w_loops w t) = Some f ->
    running_cb (l_pc (w_loops w t)) = Some f \/ cb_at_rest F ->
    running_cb (l_pc (w_loops w' t)) = Some f \/ cb_at_rest (g F)) ->
  cb_ok m i w'.
Proof.
  intros Hc El Hf [H1 H2] Hr Hg c Hl. rewrite El in Hl.
  destruct (Hc c Hl) as (Hm & Hi & F & HF & Hor). split_and!; [done..|].
  destruct (decide (c = f)) as [->|Hne].
  - exists (g F). rewrite H1, HF. split; [done|]. by apply Hg.
  - exists F. split; [by rewrite H2|]. destruct Hor as [Hor|]; [|auto].
    destruct (Hr c Hor) as [|]; [done | auto].
Qed.
Lemma inv_next m i w w' :
  inv m i w ->
  t_main (tls_of w') = t_main (tls_of w) -> l_idle (w_loops w' t) = l_idle (w_loops w t) ->
  root_of (w_sc w') = root_of (w_sc w) -> grows (w_fw w) (w_fw w') ->
  (forall ft, ft ∈ m_fibers (w_sc w') -> ft ∈ m_fibers (w_sc w) \/ task_good (w_fw w') ft) ->
  (l_pc (w_loops w' t) = RDispatch -> l_ft (w_loops w' t) = no_task \/ task_good (w_fw w') (l_ft (w_loops w' t))) ->
  idle_ok m i w' -> cb_ok m i w' -> phase_ok m i w' -> inv m i w'.
Proof.
  intros [HM HL HR HI HQ HF HC HP] E1 E2 E3 Hg Hq Hft Hi Hc Hp. split; try done; try congruence.
  apply list.Forall_forall. intros ft Hin. apply Hq in Hin as [Hin|]; [|done].
  rewrite list.Forall_forall in HQ. eapply task_good_grows; [done | by apply HQ].
Qed.
Lemma changes_alter m f g w w' :
  w_fibers (w_fw w') = alter g f (w_fibers (w_fw w)) -> changes m f g w w'.
Proof.
  intros E. unfold changes, fiber_at. rewrite E, lookup_alter_eq. split; [done|]. intros. by rewrite lookup_alter_ne.
Qed.
Lemma grows_alter_eq f g fw fw' :
  w_fibers fw' = alter g f (w_fibers fw) ->
  (forall F, m_stack (g F) = m_stack F) ->
  (forall F, m_cb F <> Some SchedulerIdel -> m_cb (g F) <> Some SchedulerIdel) -> grows fw fw'.
Proof.
  intros E Hs Hc a F HF. destruct (grows_alter f g fw Hs Hc a F HF) as (F' & HF' & ?).
  exists F'. split; [by rewrite E | done].
Qed.

(** ** Steps of the run loop

    A step from [w] ends in [w'], and the invariant goes on to hold. *)
Definition goes (m i : nat) (x : M World unit) (w : World) : Prop :=
  exists w', x w = (Ret tt, w') /\ inv m i w'.

Lemma fibers_run {A} (x : M Fibers A) w a fw :
  x (w_fw w) = (Ret a, fw) -> fibers x w = (Ret a, map_fw (fun _ => fw) w).
Proof. intros H. unfold fibers. by rewrite H. Qed.
Ltac fields := unfold tls_of, fiber_at in *; cbn; rewrite ?Z.eqb_refl; cbn; try done.

Lemma kind_frame i w w' k f :
  l_cb (w_loops w' t) = l_cb (w_loops w t) -> kind_ok i w k f -> kind_ok i w' k f.
Proof. intros E. destruct k; cbn; by rewrite ?E. Qed.

Lemma swapIn_goes m i w k f :
  inv m i w -> l_pc (w_loops w t) = RSwapIn k f -> goes m i (run_step t) w.
Proof.
  intros Hinv Hpc. pose proof Hinv as [HM HL HR HI HQ HF HC HP]. unfold phase_ok in HP. rewrite Hpc in HP.
  destruct HP as ((H1 & H2 & H3 & H4) & Hk & Hne & F & HFf & Hst).
  unfold goes, run_step. rewrite bind_gets, Hpc.
  assert (Hs : m_state F <> EXEC) by (destruct Hst as [-> | [-> | ->]]; done).
  rewrite (bind_Ret _ _ _ _ _ (fibers_run _ w tt _ (swapIn_mark_run t f F _ HFf Hs))).
  eexists. split; [reflexivity|].
  apply (inv_next m i w); [done | by fields.. | | | | | |].
  - by eapply grows_alter_eq.
  - fields. auto.
  - fields.
  - eapply idle_changes; [done | done | by apply changes_alter | done |]. intros G HG _ [[?|E] ?].
    { by split; [left|]. }
    rewrite HFf in HG. injection HG as <-. rewrite E in Hst. by destruct Hst as [|[|]].
  - eapply cb_changes; [done | by fields | done | by apply changes_alter | |].
    { fields. rewrite Hpc. intros c Hr. destruct k; [done | | done]. injection Hr as ->. by left. }
    intros G HG Hl Hr. rewrite HFf in HG. injection HG as <-. fields. rewrite Hpc in Hr.
    destruct Hr as [Hr|Hr]; [by left|right].
    unfold cb_at_rest in *. destruct Hst as [E | [E | E]]; by rewrite E in Hr.
  - unfold phase_ok. fields. split_and!; try done.
    + eapply heap_update; [by apply heap_tls | done | done | by right | done | by left].
    + eapply kind_frame; [|done]. by fields.
    + eexists. rewrite lookup_alter_eq, HFf. split_and!; [done..|]. cbn.
      pose proof (ho_coherent _ _ _ _ H4 f F HFf Hne ltac:(done)) as Hco. unfold coherent in Hco.
      destruct Hst as [E | [E | E]]; rewrite E in Hco; by destruct (m_ctx F).
Qed.

(** What the fiber [a <> m] becomes in a switch between [m] and [f]. *)
Lemma switched_changes m saved f w w' :
  f <> m ->
  (w_fw w' = switched t m saved f (w_fw w) \/ w_fw w' = switched t f saved m (w_fw w)) ->
  exists c, changes m f (with_ctx c) w w' /\ grows (w_fw w) (w_fw w').
Proof.
  intros Hne [E | E]; [exists OnCpu | exists saved]; unfold changes, fiber_at; rewrite E; cbn; split.
  1, 3: split; [by rewrite ?lookup_alter_eq, ?lookup_alter_ne, ?lookup_alter_eq by done
               | intros; by rewrite !lookup_alter_ne by done].
  all: eapply grows_trans; [|apply grows_tls]; eapply grows_trans; by apply grows_alter.
Qed.
Lemma cb_frame m i w w' :
  cb_ok m i w -> l_cb (w_loops w' t) = l_cb (w_loops w t) -> w_fibers (w_fw w') = w_fibers (w_fw w) ->
  running_cb (l_pc (w_loops w' t)) = running_cb (l_pc (w_loops w t)) -> cb_ok m i w'.
Proof.
  intros Hc E1 E2 E3 c Hl. rewrite E1 in Hl. unfold fiber_at. rewrite E2, E3. by apply Hc.
Qed.
(** Contexts do not matter to the idle fiber and to [cb_fiber]. *)
Lemma idle_ctx m i f c w w' : idle_ok m i w -> f <> m -> changes m f (with_ctx c) w w' -> idle_ok m i w'.
Proof. intros Hi Hf Hc. by eapply idle_changes. Qed.
Lemma cb_ctx m i f c w w' :
  cb_ok m i w -> l_cb (w_loops w' t) = l_cb (w_loops w t) -> f <> m -> changes m f (with_ctx c) w w' ->
  running_cb (l_pc (w_loops w' t)) = running_cb (l_pc (w_loops w t)) -> cb_ok m i w'.
Proof.
  intros Hc El Hf Hch Hr. eapply cb_changes; [done | done | done | done | |]; rewrite Hr; auto.
Qed.

Lemma swap_goes m i w k f :
  inv m i w -> l_pc (w_loops w t) = RSwap k f -> goes m i (run_step t) w.
Proof.
  intros Hinv Hpc. pose proof Hinv as [HM HL HR HI HQ HF HC HP]. unfold phase_ok in HP. rewrite Hpc in HP.
  destruct HP as (H1 & H2 & H3 & H4 & Hk & Hne & F & HFf & Hst & Hres).
  destruct (ho_main _ _ _ _ H4) as (Fm & HFm & HSm & HCm).
  unfold goes, run_step. rewrite bind_gets, Hpc.
  rewrite (bind_Ret _ _ _ _ _ (fibers_run _ w tt _
    (swapIn_swap_run t m f Fm F _ HM H2 (not_eq_sym Hne) HFm HFf Hres))).
  eexists. split; [reflexivity|].
  set (w' := map_loop t (set_pc (RIn k f)) _).
  destruct (switched_changes m Suspended f w w' Hne (or_introl eq_refl)) as (c & Hch & Hg).
  apply (inv_next m i w); [done | by unfold w'; fields.. | done | | | | |].
  - unfold w'. fields. auto.
  - unfold w'. fields.
  - by eapply idle_ctx.
  - eapply cb_ctx; [done | by unfold w'; fields | done | done |]. unfold w'. fields. by rewrite Hpc.
  - unfold phase_ok. unfold w' at 1. fields. split_and!; [eapply kind_frame; [|done]; by unfold w'; fields | done | left].
    unfold at_guest, w'. fields. split_and!; [done | done | |].
    + apply heap_tls.
      eapply (heap_update m (Some f) (Some f) Suspended _ f (with_ctx OnCpu) F); [|by fields; rewrite lookup_alter_ne by done|done|by left|done|by left].
      by eapply heap_main.
    + exists (with_ctx OnCpu F). rewrite lookup_alter_eq, lookup_alter_ne, HFf by done. done.
Qed.

Lemma return_goes m i w k f :
  inv m i w -> l_pc (w_loops w t) = RIn k f -> at_main m w -> goes m i (run_step t) w.
Proof.
  intros Hinv Hpc Hmain. pose proof Hinv as [HM HL HR HI HQ HF HC HP]. unfold phase_ok in HP. rewrite Hpc in HP.
  destruct HP as (Hk & Hne & [(_ & Hcpu & _) | [_ Hback]]).
  { destruct Hmain as (_ & Hcpu' & _). congruence. }
  assert (Hgo : forall g, m_fibers (g (w_sc w)) = m_fibers (w_sc w) -> root_of (g (w_sc w)) = root_of (w_sc w) ->
    inv m i (map_loop t (set_pc (RBack k f)) (map_sc g w))).
  { intros g Hg1 Hg2. apply (inv_next m i w); [done | by fields.. | | | | | |].
    - apply grows_refl.
    - cbn. rewrite Hg1. auto.
    - fields.
    - exact HI.
    - eapply cb_frame; [done | by fields | done |]. fields. by rewrite Hpc.
    - unfold phase_ok. fields. split_and!; [done | | done | done]. eapply kind_frame; [|done]. by fields. }
  unfold goes, run_step. rewrite bind_gets, Hpc.
  destruct k; eexists; (split; [reflexivity | by apply Hgo]).
Qed.

(** The end of a turn of the loop: back to the scan with the main fiber
    running and [cb_fiber] at rest. *)
Lemma turn_ends m i w w' :
  inv m i w -> l_pc (w_loops w' t) = RScan -> at_main m w' ->
  t_main (tls_of w') = t_main (tls_of w) -> l_idle (w_loops w' t) = l_idle (w_loops w t) ->
  root_of (w_sc w') = root_of (w_sc w) -> grows (w_fw w) (w_fw w') ->
  (forall ft, ft ∈ m_fibers (w_sc w') -> ft ∈ m_fibers (w_sc w) \/ task_good (w_fw w') ft) ->
  idle_ok m i w' -> cb_ok m i w' -> inv m i w'.
Proof.
  intros Hinv Hpc Hm E1 E2 E3 Hg Hq Hi Hc. apply (inv_next m i w); try done.
  - by rewrite Hpc.
  - unfold phase_ok. by rewrite Hpc.
Qed.
(** [schedule] of a good task changes the queue, and it succeeds. *)
Lemma do_schedule_run ft w :
  exists w', do_schedule ft w = (Ret tt, w') /\ w_fw w' = w_fw w /\ w_loops w' = w_loops w /\
    root_of (w_sc w') = root_of (w_sc w) /\
    m_fibers (w_sc w') = m_fibers (w_sc w) ++ match ft_fiber ft, ft_cb ft with None, None => [] | _, _ => [ft] end.
Proof.
  unfold do_schedule, schedule, scheduleNoLock, sched, tickle. msimpl.
  destruct (m_fibers (w_sc w)) eqn:Eq, (ft_fiber ft), (ft_cb ft); cbn;
    (eexists; split; [reflexivity|]); cbn; rewrite ?Eq, ?app_nil_r; done.
Qed.

Lemma idle_frame m i w w' : idle_ok m i w -> w_fibers (w_fw w') = w_fibers (w_fw w) -> idle_ok m i w'.
Proof. intros Hi E. unfold idle_ok, fiber_at. by rewrite E. Qed.
Lemma at_main_frame m w w' : at_main m w -> w_fw w' = w_fw w -> at_main m w'.
Proof. intros H E. unfold at_main, tls_of in *. by rewrite E. Qed.

(** The two ways a turn ends: the fibers as they are, or [f] changed. *)
Lemma ends_frame m i w w' f k :
  inv m i w -> at_main m w -> l_pc (w_loops w t) = RBack k f ->
  w_fw w' = w_fw w -> l_pc (w_loops w' t) = RScan -> l_idle (w_loops w' t) = l_idle (w_loops w t) ->
  root_of (w_sc w') = root_of (w_sc w) ->
  (forall ft, ft ∈ m_fibers (w_sc w') -> ft ∈ m_fibers (w_sc w) \/ task_good (w_fw w') ft) ->
  (l_cb (w_loops w' t) = None \/ l_cb (w_loops w' t) = l_cb (w_loops w t) /\ k <> KCb) -> inv m i w'.
Proof.
  intros Hinv Hm Hpc Ef Ep Ei Er Hq Hcb. pose proof Hinv as [_ _ _ HI _ _ HC _].
  apply (turn_ends m i w); try done.
  - by eapply at_main_frame.
  - unfold tls_of. by rewrite Ef.
  - rewrite Ef. apply grows_refl.
  - eapply idle_frame; [done | by rewrite Ef].
  - destruct Hcb as [E | [E Hk]]; [intros c Hc; congruence|].
    eapply cb_frame; [done | done | by rewrite Ef |]. rewrite Ep, Hpc. by destruct k.
Qed.
Lemma ends_change m i w w' f g F k :
  inv m i w -> at_main m w -> l_pc (w_loops w t) = RBack k f -> f <> m ->
  fiber_at w f = Some F -> coherent (g F) ->
  (forall F, m_stack (g F) = m_stack F) ->
  (forall F, m_cb (g F) = m_cb F \/ m_cb (g F) = None) ->
  (f = i -> idle_fiber (g F)) ->
  w_fw w' = map_fibers (alter g f) (w_fw w) -> l_pc (w_loops w' t) = RScan ->
  l_idle (w_loops w' t) = l_idle (w_loops w t) -> w_sc w' = w_sc w ->
  (l_cb (w_loops w' t) = None \/
   l_cb (w_loops w' t) = l_cb (w_loops w t) /\
   (l_cb (w_loops w t) = Some f -> k = KCb \/ cb_at_rest F -> cb_at_rest (g F)) /\ (k = KCb -> l_cb (w_loops w t) = Some f)) ->
  inv m i w'.
Proof.
  intros Hinv Hm Hpc Hne HF Hco Hst Hcb Hi Ef Ep Ei Es Hc. pose proof Hinv as [_ _ _ HI _ _ HC _].
  pose proof Hm as (M1 & M2 & M3 & M4).
  assert (Hch : changes m f g w w') by (apply changes_alter; by rewrite Ef).
  apply (turn_ends m i w); try done; try by rewrite Es.
  - unfold at_main, tls_of. rewrite Ef. split_and!; [done..|]. eapply heap_update; [done|done|done|by right|done|by right].
  - unfold tls_of. by rewrite Ef.
  - eapply grows_alter_eq; [by rewrite Ef | done|]. intros G. destruct (Hcb G) as [-> | ->]; done.
  - rewrite Es. auto.
  - eapply idle_changes; [done | done | done | |].
    + intros G HG. destruct (Hcb G) as [E | E]; congruence.
    + intros G HG -> _. rewrite HF in HG. injection HG as <-. by apply Hi.
  - destruct Hc as [E | (E & Hrest & Hk)]; [intros c Hc; congruence|].
    eapply cb_changes; [done | done | done | done | |]; rewrite Hpc, Ep; cbn.
    + intros c Hr. destruct k; [done| |done]. injection Hr as ->. by left.
    + intros G HG Hl Hor. rewrite HF in HG. injection HG as <-. right. apply Hrest; [done|].
      destruct Hor as [Hr|]; [|auto]. destruct k; [done|auto|done].
Qed.
Lemma back_goes m i w k f :
  inv m i w -> l_pc (w_loops w t) = RBack k f -> goes m i (run_step t) w.
Proof.
  intros Hinv Hpc. pose proof Hinv as [HM HL HR HI HQ HF HC HP]. unfold phase_ok in HP. rewrite Hpc in HP.
  destruct HP as (Hm & Hk & Hne & F & HFf & Hni).
  pose proof Hm as (_ & _ & _ & Hheap).
  pose proof (ho_coherent _ _ _ _ Hheap f F HFf Hne ltac:(done)) as Hco.
  pose proof (ho_stack _ _ _ _ Hheap f F HFf Hne) as Hst.
  unfold goes, run_step. rewrite bind_gets, Hpc. unfold run_back. rewrite bind_get.
  assert (Es : state_of w f = Some (m_state F)) by (unfold state_of; unfold fiber_at in HFf; by rewrite HFf).
  rewrite Es. clear Es.
  destruct (do_schedule_run (mkFT (Some f) None (-1)) w) as (ws & Ew & E1 & E2 & E3 & E4).
  assert (Hidle : f = i -> m_cb F = Some SchedulerIdel \/ m_state F = TERM).
  { intros ->. destruct HI as (_ & _ & G & HG & Hc & _). rewrite HFf in HG. by injection HG as <-. }
  assert (Hup : upd_fiber f (with_state HOLD) (w_fw w) = (Ret tt, map_fibers (alter (with_state HOLD) f) (w_fw w)))
    by (by apply (upd_fiber_run f (with_state HOLD) F)).
  unfold coherent in Hco.
  destruct k, (m_state F) eqn:EF; try done; unfold fibers, loop, goto; msimpl; rewrite ?Ew, ?Hup;
    try rewrite (fiber_reset_run f None F) by (by rewrite ?EF);
    (eexists; split; [reflexivity|]).
  (* the fiber is set to HOLD *)
  1, 5, 9, 11: apply (ends_change m i w _ f (with_state HOLD) F _ Hinv Hm Hpc Hne HFf);
    [ unfold coherent; cbn; by destruct (m_ctx F) | done | by left
    | intros Hfi; split; [left; by destruct (Hidle Hfi) | done]
    | done | by fields | by fields | done | ]; fields;
    try (by left); right; split_and!; try done; unfold cb_at_rest; rewrite EF; by intros _ [|].
  (* cb_fiber is reset *)
  4, 6: destruct (HC f Hk) as (_ & Hfi & _);
    apply (ends_change m i w _ f (reborn None) F _ Hinv Hm Hpc Hne HFf);
    [ done | done | by right | done | done | by fields | by fields | done | fields ];
    right; split_and!; done.
  (* the fibers stay as they are *)
  all: assert (Hgood : f <> i -> forall ft, ft ∈ m_fibers (w_sc ws) -> ft ∈ m_fibers (w_sc w) \/ task_good (w_fw ws) ft).
  1, 3, 5, 7, 9, 11: intros Hfi ft Hin; rewrite E4 in Hin; apply elem_of_app in Hin as [|Hin]; [by left | right];
    apply list_elem_of_singleton in Hin as ->; exists F; rewrite E1; split_and!; [done..|];
    intros Hid; destruct HI as (_ & Hu & _); by apply Hfi, (Hu f F).
  all: eapply (ends_frame m i w); [done | done | done | fields; by rewrite ?E1 | by fields
    | fields; by rewrite ?E2 | fields; by rewrite ?E3 | | ]; cbn -[elem_of]; rewrite ?Z.eqb_refl, ?E2; cbn -[elem_of]; auto.
  apply Hgood. by destruct (HC f Hk) as (_ & ? & _).
Qed.

(** The scan and the dispatch. *)
Lemma task_good_live w ft :
  task_good (w_fw w) ft -> task_live (state_of w) ft.
Proof.
  unfold task_good, task_live, state_of. destruct (ft_fiber ft) as [f|]; [|done].
  intros (F & HF & _). rewrite HF. by eexists.
Qed.
Lemma scan_goes m i w :
  inv m i w -> l_pc (w_loops w t) = RScan -> goes m i (run_step t) w.
Proof.
  intros Hinv Hpc. pose proof Hinv as [HM HL HR HI HQ HF HC HP]. unfold phase_ok in HP. rewrite Hpc in HP.
  assert (Hlive : Forall (task_live (state_of w)) (m_fibers (w_sc w))).
  { eapply list.Forall_impl; [exact HQ|]. intros. by apply task_good_live. }
  destruct (scan_run (state_of w) t _ Hlive) as (task & q & tk & E & Hspec).
  assert (Hq : forall ft, ft ∈ q -> ft ∈ m_fibers (w_sc w)).
  { intros ft Hin. destruct task as [ft'|].
    - destruct Hspec as (pre & post & -> & -> & _). apply elem_of_app in Hin as [|]; set_solver.
    - by destruct Hspec as [-> _]. }
  assert (Htask : forall ft, task = Some ft -> task_good (w_fw w) ft).
  { intros ft ->. destruct Hspec as (pre & post & Eq & _). rewrite list.Forall_forall in HQ.
    apply HQ. rewrite Eq. set_solver. }
  assert (Hgo : forall w', w_fw w' = w_fw w -> l_pc (w_loops w' t) = RDispatch ->
    l_idle (w_loops w' t) = l_idle (w_loops w t) -> l_cb (w_loops w' t) = l_cb (w_loops w t) ->
    l_ft (w_loops w' t) = default no_task task -> m_fibers (w_sc w') = q ->
    root_of (w_sc w') = root_of (w_sc w) -> inv m i w').
  { intros w' E1 E2 E3 E4 E5 E6 E7. apply (inv_next m i w); try done.
    - unfold tls_of. by rewrite E1.
    - rewrite E1. apply grows_refl.
    - rewrite E6. auto.
    - intros _. rewrite E5, E1. destruct task; [right; by apply Htask | by left].
    - eapply idle_frame; [done | by rewrite E1].
    - eapply cb_frame; [done | done | by rewrite E1 | by rewrite E2, Hpc].
    - unfold phase_ok. rewrite E2. by eapply at_main_frame. }
  unfold goes, run_step. rewrite bind_gets, Hpc. unfold run_scan, loop, sched, goto. rewrite bind_modify, bind_get.
  change (state_of (map_loop t _ w)) with (state_of w).
  change (m_fibers (w_sc (map_loop t _ w))) with (m_fibers (w_sc w)). rewrite E. unfold tickle. msimpl.
  destruct task, tk; (eexists; split; [reflexivity|]); apply Hgo; fields.
Qed.

(** A jump that leaves the fibers as they are. *)
Lemma inv_frame m i w w' :
  inv m i w -> w_fw w' = w_fw w -> l_idle (w_loops w' t) = l_idle (w_loops w t) ->
  l_cb (w_loops w' t) = l_cb (w_loops w t) -> root_of (w_sc w') = root_of (w_sc w) ->
  (forall ft, ft ∈ m_fibers (w_sc w') -> ft ∈ m_fibers (w_sc w) \/ task_good (w_fw w) ft) ->
  running_cb (l_pc (w_loops w' t)) = running_cb (l_pc (w_loops w t)) -> l_pc (w_loops w' t) <> RDispatch ->
  phase_ok m i w' -> inv m i w'.
Proof.
  intros Hinv E1 E2 E3 E4 Hq E5 Hpc Hp. pose proof Hinv as [_ _ _ HI _ _ HC _].
  apply (inv_next m i w); try done.
  - unfold tls_of. by rewrite E1.
  - rewrite E1. apply grows_refl.
  - by rewrite E1.
  - eapply idle_frame; [done | by rewrite E1].
  - by eapply cb_frame; [done | done | rewrite E1 |].
Qed.
Lemma rest_resettable m f w F :
  heap_ok m None OnCpu (w_fw w) -> fiber_at w f = Some F -> f <> m -> cb_at_rest F ->
  m_stack F = true /\ resettable (m_state F) = true.
Proof.
  intros Hh HF Hne Hr. split; [by eapply ho_stack|].
  pose proof (ho_coherent _ _ _ _ Hh f F HF Hne ltac:(done)) as Hco. unfold cb_at_rest, coherent in *.
  by destruct (m_state F).
Qed.
(** [cb_fiber] is there: it is reset to the new function. *)
Lemma dispatch_reset m i w c cb :
  inv m i w -> l_pc (w_loops w t) = RDispatch -> l_cb (w_loops w t) = Some c ->
  goes m i ((fibers (reset c (Some (User cb))) ;; mret c) ≫= fun f =>
            loop t (set_ft no_task) ;; goto t (RSwapIn KCb f)) w.
Proof.
  intros Hinv Hpc Hl. pose proof Hinv as [HM HL HR HI HQ HF HC HP]. unfold phase_ok in HP. rewrite Hpc in HP.
  pose proof HP as (M1 & M2 & M3 & Hheap).
  destruct (HC c Hl) as (Hcm & Hci & F & HFc & [Hr|Hr]); [by rewrite Hpc in Hr|].
  destruct (rest_resettable m c w F Hheap HFc Hcm Hr) as [Hs Hres].
  unfold goes, fibers, loop, goto. msimpl. rewrite (fiber_reset_run c (Some (User cb)) F _ HFc Hs Hres).
  eexists. split; [reflexivity|].
  set (w' := map_loop t _ _).
  assert (Hch : changes m c (reborn (Some (User cb))) w w') by by apply changes_alter.
  apply (inv_next m i w); [done | by unfold w'; fields.. | | | | | |].
  - by eapply grows_alter_eq.
  - unfold w'. fields. auto.
  - unfold w'. fields.
  - by eapply idle_changes.
  - eapply cb_changes; [done | by unfold w'; fields | done | done | |]; rewrite Hpc.
    + done.
    + left. unfold w'. fields.
  - unfold phase_ok. unfold w' at 1. fields. split_and!; [|by unfold w'; fields | done |].
    + unfold at_main, w'. fields. split_and!; [done..|].
      eapply heap_update; [done | done | done | by right | done | by right].
    + exists (reborn (Some (User cb)) F). unfold w'. fields. rewrite lookup_alter_eq, HFc. auto.
Qed.
(** There is none: a new fiber. *)
Lemma idle_alloc m i w w' f id n :
  idle_ok m i w -> heap_ok m None OnCpu (w_fw w) -> m_cb f <> Some SchedulerIdel ->
  w_fibers (w_fw w') = w_fibers (alloc f id n (w_fw w)) -> idle_ok m i w'.
Proof.
  intros (Hne & Hu & F & HF & Hi) Hh Hcb E. pose proof (heap_fresh _ _ _ _ Hh) as Hfr.
  unfold idle_ok, fiber_at in *. rewrite E. cbn. split_and!; [done..| |].
  - intros a G HG Ha. destruct (decide (w_next (w_fw w) = a)) as [<-|];
      [rewrite lookup_insert_eq in HG; by injection HG as <- | rewrite lookup_insert_ne in HG by done; eauto].
  - exists F. rewrite lookup_insert_ne by congruence. done.
Qed.
Lemma dispatch_new m i w cb :
  inv m i w -> l_pc (w_loops w t) = RDispatch -> l_cb (w_loops w t) = None ->
  goes m i ((f ← fibers (new_Fiber (Some (User cb)) 0 false); loop t (set_cbf (Some f)) ;; mret f) ≫= fun f =>
            loop t (set_ft no_task) ;; goto t (RSwapIn KCb f)) w.
Proof.
  intros Hinv Hpc Hl. pose proof Hinv as [HM HL HR HI HQ HF HC HP]. unfold phase_ok in HP. rewrite Hpc in HP.
  pose proof HP as (M1 & M2 & M3 & Hheap). pose proof (heap_fresh _ _ _ _ Hheap) as Hfr.
  destruct (ho_main _ _ _ _ Hheap) as (Fm & HFm & _).
  pose proof HI as (_ & _ & Fi & HFi & _).
  unfold goes, fibers, loop, goto, new_Fiber. msimpl.
  eexists. split; [reflexivity|]. set (w' := map_loop t _ _).
  apply (inv_next m i w); [done | by unfold w'; fields.. | | | | | |].
  - by apply grows_alloc.
  - unfold w'. fields. auto.
  - unfold w'. fields.
  - eapply (idle_alloc m i w _ _ 0 0); [done | done | | by unfold w'; fields]. done.
  - intros c Hc. unfold w' in Hc. cbn in Hc. rewrite !Z.eqb_refl in Hc. cbn in Hc. injection Hc as <-.
    unfold fiber_at in *. split_and!; [congruence..|]. unfold w'. fields. rewrite lookup_insert_eq. eexists. eauto.
  - unfold phase_ok. unfold w' at 1. fields. split_and!; [|by unfold w'; fields | congruence |].
    + unfold at_main, w'. fields. split_and!; [done..|]. by apply heap_alloc.
    + unfold ready_to_run, w'. fields. rewrite lookup_insert_eq. eexists. split; [done|]. by left.
Qed.
Lemma dispatch_goes m i w :
  inv m i w -> l_pc (w_loops w t) = RDispatch -> goes m i (run_step t) w.
Proof.
  intros Hinv Hpc. pose proof Hinv as [HM HL HR HI HQ HF HC HP]. unfold phase_ok in HP. rewrite Hpc in HP.
  pose proof HP as (_ & _ & _ & Hheap). specialize (HF Hpc).
  unfold goes, run_step. rewrite bind_gets, Hpc. unfold run_dispatch. rewrite bind_gets, bind_get.
  destruct (match ft_fiber _ with Some _ => _ | None => _ end) as [f|] eqn:Er.
  - assert (Hf : exists F, fiber_at w f = Some F /\ f <> m /\ f <> i /\
        (m_state F = INIT \/ m_state F = HOLD \/ m_state F = READY)).
    { destruct HF as [E|HF]; [by rewrite E in Er|]. unfold task_good in HF.
      destruct (ft_fiber (l_ft (w_loops w t))) as [g|]; [|done].
      destruct HF as (F & HFg & Hs & Hcb). unfold state_of in Er. rewrite HFg in Er. cbn in Er.
      assert (Hgm : g <> m).
      { intros ->. destruct (ho_main _ _ _ _ Hheap) as (Fm & HFm & ? & _). congruence. }
      pose proof (ho_coherent _ _ _ _ Hheap g F HFg Hgm ltac:(done)) as Hco. unfold coherent in Hco.
      assert (Hgi : m_state F <> TERM -> g <> i).
      { intros Ht ->. destruct HI as (_ & _ & G & HG & [|] & _); unfold fiber_at in HG; congruence. }
      destruct (m_state F) eqn:Es; try done; injection Er as <-; exists F; rewrite Es;
        (split_and!; [done | done | by apply Hgi | auto]). }
    destruct Hf as (F & HFf & Hfm & Hfi & Hst).
    eexists. split; [reflexivity|]. apply (inv_frame m i w); try done; try (by fields); [by auto | by fields; rewrite Hpc |].
    unfold phase_ok. fields. split_and!; [done | done | done | by exists F].
  - destruct (ft_cb (l_ft (w_loops w t))) as [cb|].
    + destruct (l_cb (w_loops w t)) as [c|] eqn:El; [by apply dispatch_reset | by apply dispatch_new].
    + destruct (l_active (w_loops w t)).
      * eexists. split; [reflexivity|]. apply (inv_frame m i w); try done; try (by fields); [by auto | by fields; rewrite Hpc |].
        unfold phase_ok. fields.
      * pose proof HI as (Him & _ & F & HFi & Hid & Hne). rewrite HL.
        rewrite (bind_Ret _ _ _ _ _ (fibers_run _ w i _ (deref_run i F _ HFi))). rewrite bind_get.
        case_bool_decide as Ht; (eexists; split; [reflexivity|]);
          (apply (inv_frame m i w); try done; try (by fields); [by auto | by fields; rewrite Hpc |]);
          unfold phase_ok; fields.
        split_and!; [done.. | exists F; split; [done|]].
        pose proof (ho_coherent _ _ _ _ Hheap i F HFi Him ltac:(done)) as Hco. unfold coherent in Hco.
        unfold state_of in Ht. cbn in Ht. unfold fiber_at in HFi. rewrite HFi in Ht. cbn in Ht.
        destruct (m_state F); try done; auto.
Qed.

(** ** Steps of the running fiber *)

(** It sets its state and is about to leave. *)
Lemma guest_change m i w k f g saved F :
  inv m i w -> l_pc (w_loops w t) = RIn k f -> at_guest m f w -> fiber_at w f = Some F ->
  coherent (with_ctx saved (g F)) -> m_state (g F) <> INIT ->
  (forall F, m_stack (g F) = m_stack F) -> (forall F, m_cb (g F) = m_cb F \/ m_cb (g F) = None) ->
  (f = i -> idle_fiber F -> idle_fiber (g F)) ->
  (l_cb (w_loops w t) = Some f -> k <> KCb -> cb_at_rest F -> cb_at_rest (g F)) ->
  inv m i (map_fw (fun _ => map_tls t (set_leaving (Some saved)) (map_fibers (alter g f) (w_fw w))) w).
Proof.
  intros Hinv Hpc Hg HF Hco Hni Hst Hcb Hi Hc. pose proof Hinv as [HM HL HR HI HQ _ HC HP].
  unfold phase_ok in HP. rewrite Hpc in HP. destruct HP as (Hk & Hne & _).
  destruct Hg as (G1 & G2 & G3 & _).
  set (w' := map_fw _ w).
  assert (Hch : changes m f g w w') by by apply changes_alter.
  apply (inv_next m i w); [done | by unfold w'; fields.. | | | | | |].
  - eapply (grows_alter_eq f g); [done | done|]. intros G. destruct (Hcb G) as [-> | ->]; done.
  - auto.
  - unfold w'. fields. by rewrite Hpc.
  - eapply idle_changes; [done | done | done | |].
    + intros G HG. destruct (Hcb G) as [E | E]; congruence.
    + intros G HG Hfi HidG. rewrite HF in HG. injection HG as <-. by apply Hi.
  - eapply cb_changes; [done | done | done | done | |]; change (w_loops w') with (w_loops w); rewrite Hpc; cbn [running_cb].
    + auto.
    + intros G HG Hl Hor. rewrite HF in HG. injection HG as <-.
      destruct k; [right|by left|right]; apply Hc; try done; destruct Hor; done.
  - unfold phase_ok. change (w_loops w' t) with (w_loops w t). rewrite Hpc. split_and!; [done | done | left].
    unfold at_guest, w'. fields. split_and!; [done | done | |].
    + apply heap_tls. eapply heap_update; [done | done | done | by left | done | by left].
    + exists (g F). fields. rewrite lookup_alter_eq. unfold fiber_at in HF. by rewrite HF.
Qed.
Lemma leave_goes m i w k f saved :
  inv m i w -> l_pc (w_loops w t) = RIn k f -> at_guest m f w -> t_leaving (tls_of w) = Some saved ->
  goes m i (leave t f) w.
Proof.
  intros Hinv Hpc Hg Hlv. pose proof Hinv as [HM HL HR HI HQ _ HC HP].
  unfold phase_ok in HP. rewrite Hpc in HP. destruct HP as (Hk & Hne & _).
  destruct Hg as (G1 & G2 & G3 & F & HF & Hst). rewrite Hlv in Hst. destruct Hst as [Hco Hni].
  destruct (ho_main _ _ _ _ G3) as (Fm & HFm & HSm & HCm).
  unfold goes, leave. rewrite bind_gets. unfold tls_of in Hlv. rewrite Hlv.
  rewrite (fibers_run _ w tt _ (swapOut_run t saved m f Fm F _ HM G2 (not_eq_sym Hne) HFm HF ltac:(by rewrite HCm))).
  eexists. split; [reflexivity|]. set (w' := map_fw _ w).
  destruct (switched_changes m saved f (map_fw (map_tls t (set_fiber (Some m))) w) w' Hne (or_intror eq_refl))
    as (c & Hch & Hgr).
  apply (inv_next m i w); [done | by unfold w'; fields.. | | | | | |].
  - eapply grows_trans; [apply grows_tls | exact Hgr].
  - auto.
  - unfold w'. fields. by rewrite Hpc.
  - eapply idle_ctx; [done | done | exact Hch].
  - eapply cb_ctx; [done | done | done | exact Hch | done].
  - unfold phase_ok. change (w_loops w' t) with (w_loops w t). rewrite Hpc. split_and!; [done | done | right]. split.
    + unfold at_main, w'. fields. split_and!; [done..|]. apply heap_tls. eapply heap_main.
      eapply (heap_update m (Some f) None Suspended _ f (with_ctx saved) F); [by apply heap_tls | done | done | by left | done | by right].
    + exists (with_ctx saved F). unfold w'. fields. rewrite lookup_alter_ne, lookup_alter_eq by done.
      unfold fiber_at in HF. by rewrite HF.
Qed.

Lemma idel_goes m i w k :
  inv m i w -> l_pc (w_loops w t) = RIn k i -> at_guest m i w -> t_leaving (tls_of w) = None ->
  goes m i (idel_step t) w.
Proof.
  intros Hinv Hpc Hg Hl. pose proof Hinv as [_ _ _ (_ & _ & _) _ _ HC _]. pose proof Hg as (G1 & _ & _ & F & HF & Hs).
  rewrite Hl in Hs.
  assert (Hcbi : l_cb (w_loops w t) <> Some i) by (intros E; by destruct (HC i E) as (_ & ? & _)).
  unfold goes, idel_step. rewrite bind_get. destruct (stopping (w_sc w)).
  - rewrite (bind_Ret _ _ _ _ _ (fibers_run _ w i _ (main_end_run t false i F _ G1 HF))).
    eexists. split; [reflexivity|]. eapply guest_change; try done.
    + by right.
    + intros _ _. split; [by right | done].
  - rewrite (bind_Ret _ _ _ _ _ (fibers_run _ w i _ (yield_mark_run t HOLD i F _ G1 HF))).
    eexists. split; [reflexivity|]. eapply guest_change; try done.
    + by left.
    + intros _ [[?|?] _]; [|congruence]. split; [by left | done].
Qed.

(** A change of the queue, in any phase. *)
Lemma phase_frame m i w w' :
  phase_ok m i w -> w_fw w' = w_fw w -> w_loops w' = w_loops w -> phase_ok m i w'.
Proof.
  intros Hp E1 E2. unfold phase_ok, at_main, at_guest, kind_ok, ready_to_run, came_back, tls_of, fiber_at in *.
  by rewrite E1, E2.
Qed.
Lemma queue_change m i w w' :
  inv m i w -> w_fw w' = w_fw w -> w_loops w' = w_loops w -> root_of (w_sc w') = root_of (w_sc w) ->
  (forall ft, ft ∈ m_fibers (w_sc w') -> ft ∈ m_fibers (w_sc w) \/ task_good (w_fw w) ft) -> inv m i w'.
Proof.
  intros Hinv E1 E2 E3 Hq. pose proof Hinv as [_ _ _ HI _ HF HC HP].
  apply (inv_next m i w); try done; rewrite ?E1, ?E2; try done.
  - unfold tls_of. by rewrite E1.
  - apply grows_refl.
  - eapply idle_frame; [done | by rewrite E1].
  - eapply cb_frame; [done | by rewrite E2 | by rewrite E1 | by rewrite E2].
  - by eapply phase_frame.
Qed.
Lemma schedulable_good w ft :
  schedulable w ft = true -> match ft_fiber ft, ft_cb ft with None, None => True | _, _ => task_good (w_fw w) ft end.
Proof.
  unfold schedulable, task_good. destruct (ft_fiber ft) as [f|], (ft_cb ft); try done;
    destruct (w_fibers (w_fw w) !! f) as [F|]; try done; rewrite andb_true_iff, negb_true_iff;
    intros [? ?%bool_decide_eq_false_1]; eauto.
Qed.
Lemma schedule_tasks w w' ft :
  schedulable w ft = true ->
  m_fibers (w_sc w') = m_fibers (w_sc w) ++ match ft_fiber ft, ft_cb ft with None, None => [] | _, _ => [ft] end ->
  forall ft', ft' ∈ m_fibers (w_sc w') -> ft' ∈ m_fibers (w_sc w) \/ task_good (w_fw w) ft'.
Proof.
  intros Hs E ft' Hin. rewrite E in Hin. apply elem_of_app in Hin as [|Hin]; [by left | right].
  pose proof (schedulable_good w ft Hs). destruct (ft_fiber ft), (ft_cb ft); try (by apply list_elem_of_singleton in Hin as ->);
    by apply not_elem_of_nil in Hin.
Qed.
Lemma schedule_goes m i w ft : inv m i w -> schedulable w ft = true -> goes m i (do_schedule ft) w.
Proof.
  intros Hinv Hs. destruct (do_schedule_run ft w) as (w' & E & E1 & E2 & E3 & E4).
  exists w'. split; [done|]. eapply queue_change; try done. by eapply schedule_tasks.
Qed.

(** A new fiber, in any phase. *)
Lemma fiber_at_alloc w f id n a F cur mc m :
  heap_ok m cur mc (w_fw w) -> fiber_at w a = Some F -> w_fibers (alloc f id n (w_fw w)) !! a = Some F.
Proof. intros Hh HF. cbn. rewrite lookup_insert_ne; [done|]. intros <-. apply heap_fresh in Hh. unfold fiber_at in HF. congruence. Qed.
Lemma phase_heap m i w : phase_ok m i w -> exists cur mc, heap_ok m cur mc (w_fw w).
Proof.
  unfold phase_ok, at_main, at_guest. destruct (l_pc (w_loops w t)); [done|..]; intros Hp; destruct_and?; eauto.
  match goal with H : _ \/ _ |- _ => destruct H; destruct_and?; eauto end.
Qed.
Lemma phase_alloc m i w f id n :
  phase_ok m i w -> m_stack f = true -> coherent f ->
  phase_ok m i (map_fw (alloc f id n) w).
Proof.
  intros Hp Hs Hc. destruct (phase_heap m i w Hp) as (cur & mc & Hh).
  assert (Hkeep : forall a F, fiber_at w a = Some F -> fiber_at (map_fw (alloc f id n) w) a = Some F)
    by (intros; by eapply fiber_at_alloc).
  assert (Hmain : at_main m w -> at_main m (map_fw (alloc f id n) w)).
  { intros (? & ? & ? & ?). split_and!; try done. by apply heap_alloc. }
  unfold phase_ok in *. change (w_loops (map_fw (alloc f id n) w)) with (w_loops w).
  destruct (l_pc (w_loops w t)) as [| | |k g|k g|k g|k g|]; try done; try by apply Hmain.
  - destruct Hp as (? & ? & ? & G & HG & ?). split_and!; auto. exists G. auto.
  - destruct Hp as (? & ? & ? & ? & ? & ? & G & HG & ?). split_and!; try done; [by apply heap_alloc|]. exists G. auto.
  - destruct Hp as (? & ? & Hor). split_and!; [done..|].
    destruct Hor as [(? & ? & ? & G & HG & ?) | (? & G & HG & ?)]; [left | right].
    + split_and!; try done; [by apply heap_alloc|]. exists G. auto.
    + split; [auto|]. exists G. auto.
  - destruct Hp as (? & ? & ? & G & HG & ?). split_and!; auto. exists G. auto.
Qed.
Lemma new_goes m i w cb :
  inv m i w -> goes m i (fibers (new_Fiber (Some (User cb)) 0 false) ;; mret tt) w.
Proof.
  intros Hinv. pose proof Hinv as [HM HL HR HI HQ HF HC HP].
  destruct (phase_heap m i w HP) as (cur & mc & Hh). pose proof (heap_fresh _ _ _ _ Hh) as Hfr.
  unfold goes, fibers, new_Fiber. msimpl. eexists. split; [reflexivity|].
  set (f := mkFiber _ _ INIT _ _ _). set (id := u64 _). set (n := u64 _).
  change (inv m i (map_fw (alloc f id n) w)).
  assert (Hkeep : forall a F, fiber_at w a = Some F -> fiber_at (map_fw (alloc f id n) w) a = Some F)
    by (intros; by eapply fiber_at_alloc).
  apply (inv_next m i w); try done.
  - by apply grows_alloc.
  - auto.
  - intros Hpc. destruct (HF Hpc) as [|]; [by left | right]. eapply task_good_grows; [|done]. by apply grows_alloc.
  - destruct HI as (? & Hu & F & HFi & ?). split_and!; [done| |exists F; auto].
    intros a G HG Ha Hid. unfold fiber_at in HG. cbn in HG. destruct (decide (w_next (w_fw w) = a)) as [<-|];
      [rewrite lookup_insert_eq in HG; by injection HG as <- | rewrite lookup_insert_ne in HG by done; eauto].
  - intros c Hc. destruct (HC c Hc) as (? & ? & F & HFc & ?). split_and!; [done..|]. exists F. auto.
  - by apply phase_alloc.
Qed.

(** What the fiber that runs may do, when it is not the idle fiber. *)
Lemma action_goes m i w k f a :
  inv m i w -> l_pc (w_loops w t) = RIn k f -> at_guest m f w -> t_leaving (tls_of w) = None ->
  f <> i -> can_do w f a = true -> goes m i (do_action t a) w.
Proof.
  intros Hinv Hpc Hg Hl Hfi Hcan. pose proof Hg as (G1 & _ & _ & F & HF & Hs). rewrite Hl in Hs.
  unfold can_do in Hcan. unfold fiber_at in HF. rewrite HF in Hcan.
  assert (Hrest : a <> AThrow -> cb_at_rest F -> False).
  { intros Ha Hr. unfold cb_at_rest in Hr. rewrite Hs in Hr. rewrite Hr in Hcan. by destruct a. }
  destruct a as [ft|cb|s| |]; cbn [do_action].
  - apply schedule_goes; [done|]. by destruct (m_cb F).
  - by apply new_goes.
  - unfold goes. rewrite (bind_Ret _ _ _ _ _ (fibers_run _ w f _ (yield_mark_run t s f F _ G1 HF))).
    eexists. split; [reflexivity|]. destruct (m_cb F); [|done].
    apply orb_true_iff in Hcan as [E%bool_decide_eq_true_1 | E%bool_decide_eq_true_1]; subst s;
      (eapply guest_change; [done | done | done | exact HF | done | done | done | by left | done
      | intros _ _ Hr; exfalso; by apply Hrest]).
  - unfold goes. rewrite (bind_Ret _ _ _ _ _ (fibers_run _ w f _ (main_end_run t false f F _ G1 HF))).
    eexists. split; [reflexivity|].
    eapply guest_change; [done | done | done | exact HF | done | done | done | by right | done
      | intros _ _ Hr; exfalso; by apply Hrest].
  - unfold goes. rewrite (bind_Ret _ _ _ _ _ (fibers_run _ w f _ (main_end_run t true f F _ G1 HF))).
    eexists. split; [reflexivity|].
    eapply guest_change; [done | done | done | exact HF | done | done | done | by left | done | done].
Qed.

(** ** The thread's first step *)
Lemma GetThis_new w :
  t_fiber (w_tls w t) = None ->
  GetThis t w = (Ret (w_next w), map_tls t (set_threadFiber (Some (w_next w))) (map_tls t (set_cpu (Some (w_next w)))
    (map_tls t (set_fiber (Some (w_next w)))
      (alloc (mkFiber 0 0 EXEC OnCpu false None) (s_fiber_id w) (u64 (s_fiber_count w + 1)) w)))).
Proof.
  intros H. unfold GetThis, new_thread_Fiber, tls, upd_tls, SetThis. rewrite bind_gets, H.
  msimpl. unfold upd_tls, modify. rewrite !tls_self. cbn. by rewrite bool_decide_eq_true_2.
Qed.
Lemma start_goes w : t <> -1 -> inv_start w -> exists m i, goes m i (run_step t) w.
Proof.
  intros Ht1 [Hpc (T1 & T2 & T3) Hcb Hroot Hq Hh].
  set (m := w_next (w_fw w)). exists m, (S m). unfold goes, run_step. rewrite bind_gets, Hpc.
  unfold run_start. rewrite (bind_Ret _ _ w tt (map_fw (map_tls t (set_scheduler true)) w)) by done.
  rewrite bind_gets. cbn [map_fw w_sc]. unfold root_of in Hroot. rewrite (proj2 (Z.eqb_neq _ _)) by congruence.
  unfold tls_of in T1, T2, T3.
  assert (Hn : t_fiber (w_tls (map_tls t (set_scheduler true) (w_fw w)) t) = None) by (by rewrite tls_self).
  rewrite (bind_Ret _ _ _ _ _ (bind_Ret _ _ _ _ _ (fibers_run _ (map_fw (map_tls t (set_scheduler true)) w) _ _ (GetThis_new _ Hn)))).
  unfold fibers, goto, loop, upd_tls, new_Fiber. msimpl.
  eexists. split; [reflexivity|]. fold m.
  assert (Hfresh : forall a F, w_fibers (w_fw w) !! a = Some F -> a <> m /\ a <> S m).
  { intros a F HF. apply Hh in HF as (_ & _ & _ & Hlt). unfold m. lia. }
  assert (Hlook : forall X Y a F, <[S m := Y]> (<[m := X]> (w_fibers (w_fw w))) !! a = Some F ->
    a = S m /\ F = Y \/ a = m /\ F = X \/ w_fibers (w_fw w) !! a = Some F).
  { intros X Y a F HF. destruct (decide (a = S m)) as [->|H1]; [rewrite lookup_insert_eq in HF; injection HF; auto|].
    rewrite lookup_insert_ne in HF by done. destruct (decide (a = m)) as [->|H2];
      [rewrite lookup_insert_eq in HF; injection HF; auto | rewrite lookup_insert_ne in HF by done; auto]. }
  split; unfold tls_of; cbn; rewrite ?Z.eqb_refl; cbn; rewrite ?Z.eqb_refl; cbn; try done.
  - split_and!; [lia | |].
    + intros a F HF Ha Hid. apply Hlook in HF as [[-> _] | [[-> _] | HF]]; [done | done |].
      apply Hh in HF as (_ & _ & ? & _). done.
    + eexists. unfold fiber_at. cbn. rewrite lookup_insert_eq. split; [done|]. split; [by left | done].
  - eapply list.Forall_impl; [exact Hq|]. intros ft Hg. eapply task_good_grows; [|exact Hg].
    intros a F HF. destruct (Hfresh a F HF). exists F. cbn. rewrite !lookup_insert_ne by done. auto.
  - intros c Hc. cbn in Hc. rewrite !Z.eqb_refl in Hc. cbn in Hc. congruence.
  - unfold phase_ok, at_main, tls_of. cbn. rewrite !Z.eqb_refl. cbn. rewrite ?Z.eqb_refl. cbn. rewrite ?Z.eqb_refl. cbn.
    split_and!; [done | done | done |]. split; cbn.
    + eexists. rewrite lookup_insert_ne, lookup_insert_eq by lia. split_and!; done.
    + intros a F HF Ha. apply Hlook in HF as [[-> ->] | [[-> _] | HF]]; [done | done | by apply Hh in HF as (? & _)].
    + intros a F HF Ha _. apply Hlook in HF as [[-> ->] | [[-> _] | HF]]; [done | done | by apply Hh in HF as (_ & ? & _)].
    + intros a F HF. apply Hlook in HF as [[-> _] | [[-> _] | HF]]; [unfold m; lia | unfold m; lia|].
      apply Hh in HF as (_ & _ & _ & ?). lia.
Qed.

(** ** Every step *)
Definition safe (w : World) : Prop := inv_start w \/ exists m i, inv m i w.

Lemma stop_run w t' : root_of (w_sc w) = (-1, None) ->
  exists w', stop t' false w = (Ret tt, w') /\ w_fw w' = w_fw w /\ w_loops w' = w_loops w /\
    root_of (w_sc w') = root_of (w_sc w) /\ m_fibers (w_sc w') = m_fibers (w_sc w).
Proof.
  intros [= Hr1 Hr2]. unfold stop, sched, tickle. rewrite bind_modify, bind_get.
  set (w1 := map_sc (set_autoStop true) w).
  replace (m_rootFiber (w_sc w1)) with (@None nat) by (by cbn). replace (m_rootThread (w_sc w1)) with (-1) by (by cbn).
  rewrite (bind_Ret _ _ w1 false w1), (bind_Ret _ _ w1 tt w1), bind_modify by done.
  set (w2 := map_sc (set_stopping true) w1). generalize (Z.to_nat (m_threadCount (w_sc w1))) as n. intros n.
  enough (Hx : forall n w, exists w', Nat.iter n (fun m => modify (fun w => mkWorld (w_fw w) (w_sc w) (w_loops w)
      (S (w_tickles w))) ;; m) (mret tt) w = (Ret tt, w') /\ w_fw w' = w_fw w /\ w_loops w' = w_loops w /\ w_sc w' = w_sc w).
  { destruct (Hx n w2) as (w' & E & E1 & E2 & E3). mstep E. exists w'. rewrite E1, E2, E3. auto. }
  clear. induction n as [|n IH]; intros w0; [by exists w0|].
  destruct (IH (mkWorld (w_fw w0) (w_sc w0) (w_loops w0) (S (w_tickles w0)))) as (w' & E & E1 & E2 & E3).
  exists w'. cbn [Nat.iter nat_rect]. rewrite bind_modify. auto.
Qed.
Lemma start_outside w l :
  inv_start w -> thread_of l = None -> enabled [t] w l = true -> exists w', step l w = (Ret tt, w') /\ inv_start w'.
Proof.
  intros [Hpc Ht Hcb Hroot Hq Hh] Hl Hen.
  assert (Hquiet : forall w', w_fw w' = w_fw w -> w_loops w' = w_loops w ->
    root_of (w_sc w') = root_of (w_sc w) ->
    (forall ft, ft ∈ m_fibers (w_sc w') -> ft ∈ m_fibers (w_sc w) \/ task_good (w_fw w) ft) -> inv_start w').
  { intros w' E1 E2 E3 E4. split; unfold tls_of, fiber_at in *; rewrite ?E1, ?E2, ?E3; try done.
    apply list.Forall_forall. intros ft Hin. rewrite list.Forall_forall in Hq. destruct (E4 ft Hin); auto. }
  destruct l as [| | | |ft|cb|]; try done; cbn [step].
  - destruct (do_schedule_run ft w) as (w' & E & E1 & E2 & E3 & E4).
    exists w'. split; [done|]. apply Hquiet; try done. exact (schedule_tasks w w' ft Hen E4).
  - unfold fibers, new_Fiber. msimpl. eexists. split; [reflexivity|].
    split; unfold tls_of, fiber_at in *; cbn; try done.
    + eapply list.Forall_impl; [exact Hq|]. intros ft Hg. eapply task_good_grows; [|exact Hg].
      intros a F HF. exists F. cbn. rewrite lookup_insert_ne; [done|]. intros <-. apply Hh in HF as (_ & _ & _ & ?). lia.
    + intros a F HF. destruct (decide (w_next (w_fw w) = a)) as [<-|].
      * rewrite lookup_insert_eq in HF. injection HF as <-. split_and!; try done. lia.
      * rewrite lookup_insert_ne in HF by done. destruct (Hh a F HF) as (? & ? & ? & ?). split_and!; try done. lia.
  - destruct (stop_run w 0 Hroot) as (w' & E & E1 & E2 & E3 & E4). exists w'. split; [done|]. apply Hquiet; try done.
    rewrite E4. auto.
Qed.
Lemma inv_outside m i w l :
  inv m i w -> thread_of l = None -> enabled [t] w l = true -> goes m i (step l) w.
Proof.
  intros Hinv Hl Hen. destruct l as [| | | |ft|cb|]; try done; cbn [step].
  - by apply schedule_goes.
  - by apply new_goes.
  - destruct (stop_run w 0 (iv_root _ _ _ Hinv)) as (w' & E & E1 & E2 & E3 & E4). exists w'. split; [done|].
    apply (queue_change m i w); try done. rewrite E4. auto.
Qed.

(** The thread is in its main fiber, or in the guest of its [RIn]. *)
Lemma inv_guest m i w :
  inv m i w ->
  guest w t = None /\ (l_pc (w_loops w t) = RDone \/ goes m i (run_step t) w) \/
  exists k f, guest w t = Some f /\ l_pc (w_loops w t) = RIn k f /\ kind_ok i w k f /\ at_guest m f w.
Proof.
  intros Hinv. pose proof Hinv as [HM _ _ _ _ _ _ HP]. unfold phase_ok in HP.
  assert (Hm : t_cpu (tls_of w) = Some m -> guest w t = None).
  { intros E. unfold guest, tls_of in *. by rewrite E, HM, bool_decide_eq_true_2. }
  destruct (l_pc (w_loops w t)) as [| | |k f|k f|k f|k f|] eqn:Hpc; [done| | | | | | |].
  - left. split; [by apply Hm, HP | right; by apply scan_goes].
  - left. split; [by apply Hm, HP | right; by apply dispatch_goes].
  - left. split; [by apply Hm; destruct HP as ((? & ? & ?) & _) | right; by eapply swapIn_goes].
  - left. split; [by apply Hm; destruct HP as (? & ? & ?) | right; by eapply swap_goes].
  - destruct HP as (Hk & Hne & [Hg | [Hmain _]]).
    + right. exists k, f. split_and!; try done. unfold guest, tls_of in *. destruct Hg as (_ & E & _). unfold tls_of in E.
      rewrite E, HM, bool_decide_eq_false_2; [done | congruence].
    + left. split; [apply Hm; by destruct Hmain as (? & ? & ?) | right; by eapply return_goes].
  - left. split; [by apply Hm; destruct HP as ((? & ? & ?) & _) | right; by eapply back_goes].
  - left. split; [by apply Hm, HP | by left].
Qed.
Lemma safe_step w l :
  t <> -1 -> safe w -> enabled [t] w l = true -> exists w', step l w = (Ret tt, w') /\ safe w'.
Proof.
  intros Ht1 Hsafe Hen. destruct (thread_of l) as [t'|] eqn:El.
  - assert (t' = t) as -> by (apply (enabled_worker _ _ _ _ Hen) in El; by apply list_elem_of_singleton in El).
    unfold enabled in Hen. rewrite El in Hen. apply andb_true_iff in Hen as [_ Hen].
    destruct Hsafe as [Hstart | (m & i & Hinv)].
    + assert (Hgu : guest w t = None) by (destruct Hstart as [_ (_ & E & _) _ _ _ _]; unfold guest, tls_of in *; by rewrite E).
      rewrite Hgu in Hen. destruct l; try done. injection El as ->.
      destruct (start_goes w Ht1 Hstart) as (m & i & w' & E & ?). exists w'. split; [done | right; eauto].
    + destruct (inv_guest m i w Hinv) as [(Hgu & Hgo) | (k & f & Hgu & Hpc & Hk & Hg)]; rewrite Hgu in Hen.
      * destruct l; try done. injection El as ->. apply negb_true_iff, bool_decide_eq_false_1 in Hen.
        destruct Hgo as [|(w' & E & ?)]; [done|]. exists w'. split; [done | right; eauto].
      * enough (Hx : goes m i (step l) w) by (destruct Hx as (w' & ? & ?); exists w'; split; [done | right; eauto]).
        unfold leaving in Hen. pose proof (iv_lidle _ _ _ Hinv) as Hli.
        destruct l as [t'|t'|t'|t' a| | |]; try done; injection El as ->; cbn [step].
        -- apply andb_true_iff in Hen as [Hlv Hi%bool_decide_eq_true_1]. rewrite Hli in Hi. injection Hi as <-.
           eapply idel_goes; [done | done | done|]. unfold tls_of. by destruct (t_leaving _).
        -- unfold goes. rewrite bind_gets, Hgu.
           destruct (t_leaving (w_tls (w_fw w) t)) as [saved|] eqn:Elv; [|done]. by eapply leave_goes.
        -- rewrite !andb_true_iff, negb_true_iff in Hen. destruct Hen as [[Hlv Hi] Hcan].
           apply negb_true_iff, bool_decide_eq_false_1 in Hi.
           eapply action_goes; [done | done | done | | | done].
           ++ unfold tls_of. by destruct (t_leaving _).
           ++ congruence.
  - destruct Hsafe as [Hstart | (m & i & Hinv)].
    + destruct (start_outside w l Hstart El Hen) as (w' & ? & ?). exists w'. split; [done | by left].
    + destruct (inv_outside m i w l Hinv El Hen) as (w' & ? & ?). exists w'. split; [done | right; eauto].
Qed.
Lemma reachable_safe w : t <> -1 -> reachable [t] w -> safe w.
Proof.
  intros Ht. induction 1 as [|w l w' _ IH Hen Hst].
  - left. by split.
  - destruct (safe_step w l Ht IH Hen) as (w'' & E & ?). rewrite Hst in E. by injection E as <-.
Qed.
End Invariant.

(** C1: A scheduler with one worker thread never fails.  Whatever functions and
    fibers are scheduled, from other threads or by the fibers that run, and
    whatever these do (yield in either way, schedule themselves or others,
    return, throw), every step of the run loop, of the idle fiber and of a
    running fiber completes: no assertion of fiber.cpp or scheduler.cpp fails, no
    null or stale fiber is dereferenced, and no context is resumed while it runs
    or after its end. *)
Theorem single_worker_safe t w l :
  t <> -1 -> reachable [t] w -> enabled [t] w l = true -> exists w', step l w = (Ret tt, w').
Proof.
  intros Ht Hr Hen. destruct (safe_step t w l Ht (reachable_safe t w Ht Hr) Hen) as (w' & ? & _). by exists w'.
Qed.

(** A run with one callback that yields and is resumed by its own task. *)
Definition one_worker_trace : list Label :=
  [LSchedule (mkFT None (Some 7%nat) (-1)); LRun 1; LRun 1; LRun 1; LRun 1; LRun 1;
   LDo 1 (ASchedule (mkFT (Some 2%nat) None (-1))); LDo 1 (AYield HOLD)].
Lemma reachable_trace workers ls w w' :
  reachable workers w -> run_trace workers ls w = Some (Ret tt, w') -> reachable workers w'.
Proof.
  revert w. induction ls as [|l ls IH]; intros w Hr H; cbn in H; [injection H as <-; done|].
  destruct (enabled workers w l) eqn:He; [|done].
  destruct (step l w) as [[[]| | |] w1] eqn:Es; try done. eapply IH; [|done]. by eapply reach_step.
Qed.
Definition final (workers : list Z) (ls : list Label) : World :=
  match run_trace workers ls (started workers) with Some (_, w) => w | None => started workers end.
Lemma single_worker_witness :
  exists w', step (LLeave 1) (final [1] one_worker_trace) = (Ret tt, w').
Proof.
  apply (single_worker_safe 1 (final [1] one_worker_trace) (LLeave 1)).
  - lia.
  - apply (reachable_trace [1] one_worker_trace (started [1])); [constructor | vm_compute; reflexivity].
  - vm_compute. reflexivity.
Defined.

(** ** Two workers *)

(** [Scheduler::switchTo]: thread 1's fiber schedules itself on thread 2 and
    yields; thread 2 resumes it before thread 1 has left its stack. *)
Definition switchTo_race : list Label :=
  [LSchedule (mkFT None (Some 7%nat) (-1)); LRun 1; LRun 2; LRun 1; LRun 1; LRun 1; LRun 1;
   LDo 1 (ASchedule (mkFT (Some 4%nat) None 2)); LDo 1 (AYield HOLD); LRun 2; LRun 2; LRun 2].

(** With two workers the same is false, for [switchTo]'s own sequence of
    [schedule(GetThis(), thread)] and [YieldToHold()]: between [m_state = HOLD] and
    the [swapcontext] that leaves the fiber's stack another worker takes the
    fiber, marks it running and resumes its context while the first worker still
    runs on that stack. *)
Theorem two_workers_race :
  exists w, reachable [1; 2] w /\ enabled [1; 2] w (LRun 2) = true /\
    guest w 1 = Some 4%nat /\ l_pc (w_loops w 2) = RSwap KFiber 4 /\
    fst (step (LRun 2) w) = Crash.
Proof.
  exists (final [1; 2] switchTo_race). split.
  - apply (reachable_trace [1; 2] switchTo_race (started [1; 2])); [constructor | vm_compute; reflexivity].
  - vm_compute. split_and!; reflexivity.
Qed.

(** C21: The scan of the queue, for any queue of live tasks: it takes the first
    task that is not pinned to another thread and whose fiber does not run; the
    others keep their order; with no such task the queue is untouched.
    [tickle_me] is set exactly when a task pinned to another thread was passed
    or tasks are left behind the one taken. *)
Theorem scan_spec state self q :
  Forall (task_live state) q ->
  exists task q' tickle_me, scan state self q = Ret (task, q', tickle_me) /\
    match task with
    | Some ft => exists pre post, q = pre ++ ft :: post /\ q' = pre ++ post /\ eligible state self ft = true /\
        Forall (fun it => eligible state self it = false) pre /\
        tickle_me = existsb (foreign self) pre || negb (bool_decide (post = []))
    | None => q' = q /\ Forall (fun it => eligible state self it = false) q /\
        tickle_me = existsb (foreign self) q
    end.
Proof. apply scan_run. Qed.
Lemma scan_spec_witness :
  exists r, scan (fun f => if (f =? 0)%nat then Some EXEC else Some HOLD) 1
    [mkFT None (Some 5%nat) 2; mkFT (Some 0%nat) None (-1); mkFT (Some 3%nat) None 1] = Ret r /\
    r.1.1 = Some (mkFT (Some 3%nat) None 1).
Proof.
  destruct (scan_spec (fun f => if (f =? 0)%nat then Some EXEC else Some HOLD) 1
    [mkFT None (Some 5%nat) 2; mkFT (Some 0%nat) None (-1); mkFT (Some 3%nat) None 1]) as (task & q & tk & E & _).
  - repeat constructor; by eexists.
  - exists (task, q, tk). split; [exact E|]. vm_compute in E. injection E as <- _ _. reflexivity.
Defined.
Lemma counters_witness :
  m_activeThreadCount (w_sc (final [1; 2] switchTo_race)) = 2.
Proof.
  rewrite (proj1 (counters_correct [1; 2] (final [1; 2] switchTo_race) ltac:(by apply (bool_decide_unpack _); vm_compute) ltac:(reflexivity)
    ltac:(apply (reachable_trace [1; 2] switchTo_race (started [1; 2])); [constructor | vm_compute; reflexivity]))).
  vm_compute. reflexivity.
Defined.
