(* ===== verification/IOManager.v ===== *)
(** * The I/O manager (cxk/iomanager.h, cxk/iomanager.cpp)

    [FdContext] objects live in a heap indexed by their address, [m_fdContexts] is
    the vector of the addresses; the calls of [schedule] are recorded in order.
    epoll is the parameter [Epoll]: a state and the system call on it. *)
From S2P Require Import Prelude Scheduler.

(** enum Event, the epoll flags and operations *)
Definition NONE : Z := 0.
Definition READ : Z := 1.
Definition WRITE : Z := 4.
Definition EPOLLIN : Z := 0x001.
Definition EPOLLOUT : Z := 0x004.
Definition EPOLLERR : Z := 0x008.
Definition EPOLLHUP : Z := 0x010.
Definition EPOLLET : Z := 2 ^ 31.
Definition EPOLL_CTL_ADD : Z := 1.
Definition EPOLL_CTL_DEL : Z := 2.
Definition EPOLL_CTL_MOD : Z := 3.

(** [epoll_ctl k op fd events ptr]: the result and the new state. *)
Class Epoll (K : Type) := { epoll_ctl : K -> Z -> Z -> Z -> nat -> Z * K }.

Record EventContext := mkEC { ec_scheduler : option nat; ec_fiber : option nat; ec_cb : option nat }.
Definition no_event : EventContext := mkEC None None None.
Record FdContext := mkFd { fd_fd : Z; fd_read : EventContext; fd_write : EventContext; fd_events : Z }.
Definition new_FdContext (fd : nat) : FdContext := mkFd (Z.of_nat fd) no_event no_event NONE.
Definition with_events v (c : FdContext) := mkFd (fd_fd c) (fd_read c) (fd_write c) v.

Record IOManager (K : Type) := mkIO {
  io_heap : list FdContext;
  m_fdContexts : list nat;
  m_appendingEventCount : Z;
  io_kernel : K;
  io_scheduled : list (nat * FiberAndThread);
  io_tickles : nat
}.
Arguments mkIO {K}.
Arguments io_heap {K}.
Arguments m_fdContexts {K}.
Arguments m_appendingEventCount {K}.
Arguments io_kernel {K}.
Arguments io_scheduled {K}.
Arguments io_tickles {K}.

Section IOManager.
Context {K : Type} `{Epoll K}.
Implicit Types s : IOManager K.

Definition set_heap v s := mkIO v (m_fdContexts s) (m_appendingEventCount s) (io_kernel s) (io_scheduled s) (io_tickles s).
Definition set_contexts v s := mkIO (io_heap s) v (m_appendingEventCount s) (io_kernel s) (io_scheduled s) (io_tickles s).
(** [std::atomic<size_t>] *)
Definition add_count d s := mkIO (io_heap s) (m_fdContexts s) (u64 (m_appendingEventCount s + d)) (io_kernel s)
  (io_scheduled s) (io_tickles s).
Definition set_kernel (v : K) s := mkIO (io_heap s) (m_fdContexts s) (m_appendingEventCount s) v (io_scheduled s) (io_tickles s).
Definition push_task x s := mkIO (io_heap s) (m_fdContexts s) (m_appendingEventCount s) (io_kernel s)
  (io_scheduled s ++ [x]) (io_tickles s).
Definition add_tickle s := mkIO (io_heap s) (m_fdContexts s) (m_appendingEventCount s) (io_kernel s) (io_scheduled s)
  (S (io_tickles s)).

Definition the_ctx (a : nat) : M (IOManager K) FdContext := fun s =>
  match io_heap s !! a with Some c => (Ret c, s) | None => (Crash, s) end.
Definition upd_ctx (a : nat) (g : FdContext -> FdContext) : M (IOManager K) unit :=
  modify (fun s => set_heap (alter g a (io_heap s)) s).
Definition ctl (op fd mask : Z) (ptr : nat) : M (IOManager K) Z := fun s =>
  let '(rc, k) := epoll_ctl (io_kernel s) op fd mask ptr in (Ret rc, set_kernel k s).
(** [ctx.scheduler->schedule(&...)]: a null pointer is dereferenced, an empty
    task is dropped. *)
Definition schedule_on (sched : option nat) (fiber cb : option nat) : M (IOManager K) unit :=
  match sched with
  | None => crash
  | Some sc =>
      match fiber, cb with
      | None, None => mret tt
      | _, _ => modify (push_task (sc, mkFT fiber cb (-1)))
      end
  end.

(** [getcontext(event)] *)
Definition getcontext (event : Z) (c : FdContext) : outcome EventContext :=
  if event =? READ then Ret (fd_read c) else if event =? WRITE then Ret (fd_write c) else Crash.
Definition set_context (event : Z) (e : EventContext) (c : FdContext) : FdContext :=
  if event =? READ then mkFd (fd_fd c) e (fd_write c) (fd_events c)
  else mkFd (fd_fd c) (fd_read c) e (fd_events c).
Definition resetContext (e : EventContext) : EventContext := no_event.

Definition CXK_ASSERT (b : bool) : M (IOManager K) unit := if b then mret tt else crash.
Definition has (events event : Z) : bool := negb (Z.land events event =? 0).
Definition without (events event : Z) : Z := Z.land events (Z.lnot event).

Definition triggerEvent (a : nat) (event : Z) : M (IOManager K) unit :=
  c ← the_ctx a;
  CXK_ASSERT (has (fd_events c) event) ;;
  upd_ctx a (with_events (without (fd_events c) event)) ;;
  ctx ← lift (getcontext event c);
  match ec_cb ctx with
  | Some cb =>
      schedule_on (ec_scheduler ctx) None (Some cb) ;;
      upd_ctx a (set_context event (mkEC None (ec_fiber ctx) None))
  | None =>
      schedule_on (ec_scheduler ctx) (ec_fiber ctx) None ;;
      upd_ctx a (set_context event (mkEC None None None))
  end.

(** [m_fdContexts.resize(size)], then a new context for every null. *)
Definition contextResize (size : nat) : M (IOManager K) unit :=
  s ← get;
  let old := m_fdContexts s in
  let n := length (io_heap s) in
  let fresh := seq (length old) (size - length old) in
  modify (set_heap (io_heap s ++ map new_FdContext fresh)) ;;
  modify (set_contexts (take size old ++ seq n (size - length old))).

(** *** What a thread does between two locks

    [addEvent], [delEvent], [cancelEvent] and [cancelAll] find the context of the
    descriptor with [m_mutex] read-locked; [addEvent] grows the vector, when the
    descriptor was not in it, with [m_mutex] write-locked; the rest is done with
    the mutex of the context. *)

(** [m_fdContexts[fd]] with [(int)m_fdContexts.size() > fd]; [None]: it is not. *)
Definition find_context (fd : Z) : M (IOManager K) (option nat) :=
  s ← get;
  if fd <? i32 (Z.of_nat (length (m_fdContexts s))) then
    match (if fd <? 0 then None else m_fdContexts s !! Z.to_nat fd) with
    | Some a => mret (Some a)
    | None => crash
    end
  else mret None.
(** [contextResize(fd * 1.5)], which cuts the vector when another thread has
    made it longer since. *)
Definition add_grow (fd : Z) : M (IOManager K) nat :=
  contextResize (Z.to_nat (Z.quot (fd * 3) 2)) ;;
  s ← get;
  match m_fdContexts s !! Z.to_nat fd with Some a => mret a | None => crash end.
(** The caller: [Scheduler::GetThis()], [Fiber::GetThis()] and whether its state
    is EXEC. *)
Record Caller := mkCaller { cl_scheduler : option nat; cl_fiber : nat; cl_exec : bool }.
Definition add_locked (me : Caller) (a : nat) (fd events : Z) (cb : option nat) : M (IOManager K) Z :=
  c ← the_ctx a;
  CXK_ASSERT (negb (has (fd_events c) events)) ;;
  let op := if negb (fd_events c =? 0) then EPOLL_CTL_MOD else EPOLL_CTL_ADD in
  rt ← ctl op fd (Z.lor (Z.lor EPOLLET (fd_events c)) events) a;
  if negb (rt =? 0) then mret (-1) else
  modify (add_count 1) ;;
  upd_ctx a (with_events (Z.lor (fd_events c) events)) ;;
  ctx ← lift (getcontext events c);
  CXK_ASSERT (bool_decide (ec_scheduler ctx = None)) ;;
  CXK_ASSERT (bool_decide (ec_cb ctx = None)) ;;
  CXK_ASSERT (bool_decide (ec_fiber ctx = None)) ;;
  match cb with
  | Some _ => upd_ctx a (set_context events (mkEC (cl_scheduler me) None cb)) ;; mret 0
  | None =>
      upd_ctx a (set_context events (mkEC (cl_scheduler me) (Some (cl_fiber me)) None)) ;;
      CXK_ASSERT (cl_exec me) ;;
      mret 0
  end.

(** The common part of [delEvent] and [cancelEvent]: [None] is [return false]. *)
Definition remove_interest (a : nat) (fd events : Z) : M (IOManager K) (option Z) :=
  c ← the_ctx a;
  if negb (has (fd_events c) events) then mret None else
  let new_events := without (fd_events c) events in
  let op := if negb (new_events =? 0) then EPOLL_CTL_MOD else EPOLL_CTL_DEL in
  rt ← ctl op fd (Z.lor EPOLLET new_events) a;
  if negb (rt =? 0) then mret None else mret (Some new_events).
Definition del_locked (a : nat) (fd events : Z) : M (IOManager K) bool :=
  r ← remove_interest a fd events;
  match r with
  | None => mret false
  | Some new_events =>
      modify (add_count (-1)) ;;
      upd_ctx a (with_events new_events) ;;
      c ← the_ctx a;
      ctx ← lift (getcontext events c);
      upd_ctx a (set_context events (resetContext ctx)) ;;
      mret true
  end.
Definition cancel_locked (a : nat) (fd events : Z) : M (IOManager K) bool :=
  r ← remove_interest a fd events;
  match r with
  | None => mret false
  | Some _ =>
      triggerEvent a events ;;
      modify (add_count (-1)) ;;
      mret true
  end.
(** [if(fd_ctx->events & event) { triggerEvent(event); --m_appendingEventCount; }] *)
Definition trigger_if (a : nat) (event : Z) : M (IOManager K) unit :=
  c ← the_ctx a;
  if has (fd_events c) event then triggerEvent a event ;; modify (add_count (-1)) else mret tt.
Definition cancelAll_locked (a : nat) (fd : Z) : M (IOManager K) bool :=
  c ← the_ctx a;
  if fd_events c =? 0 then mret false else
  rt ← ctl EPOLL_CTL_DEL fd 0 a;
  if negb (rt =? 0) then mret false else
  trigger_if a READ ;;
  trigger_if a WRITE ;;
  c ← the_ctx a;
  CXK_ASSERT (fd_events c =? 0) ;;
  mret true.

(** [tickle()]: a byte is written to the pipe when a thread idles. *)
Definition tickle (sc : Scheduler) : M (IOManager K) unit :=
  if hasIdelThreads sc then modify add_tickle else mret tt.
Definition onTimerInsertedAtFront : Scheduler -> M (IOManager K) unit := tickle.
(** [stopping(timeout)], with the result of [getNextTimer()]. *)
Definition stopping (next_timer : Z) (sc : Scheduler) (s : IOManager K) : bool :=
  (next_timer =? 2 ^ 64 - 1) && (m_appendingEventCount s =? 0) && Scheduler.stopping sc.

(** ** idel

    One turn of its loop: the wait, and what it returned. *)
Definition MAX_TIMEOUT : Z := 3000.
(** The [int] passed to [epoll_wait]; [next_timeout] is a [uint64_t]. *)
Definition wait_timeout (next_timeout : Z) : Z :=
  let next := if negb (next_timeout =? 2 ^ 64 - 1)
              then (if MAX_TIMEOUT <? i32 next_timeout then MAX_TIMEOUT else next_timeout)
              else MAX_TIMEOUT in
  i32 next.
(** An [epoll_event]: its flags, and its data, the read end of the pipe or a
    context. *)
Inductive Ready : Type := RTickle | RContext (events : Z) (ptr : nat).
(** [events->events |= ...] changes the first event of the array, which is the
    event at hand only in the first round. *)
Definition real_events (first : bool) (events : Z) : Z :=
  let events := if first && has events (Z.lor EPOLLERR EPOLLHUP)
                then Z.lor events (Z.lor EPOLLIN EPOLLOUT) else events in
  Z.lor (if has events EPOLLIN then READ else 0) (if has events EPOLLOUT then WRITE else 0).
Definition handle_event (first : bool) (r : Ready) : M (IOManager K) unit :=
  match r with
  | RTickle => mret tt
  | RContext events a =>
      c ← the_ctx a;
      let real := real_events first events in
      if Z.land (fd_events c) real =? NONE then mret tt else
      let left_events := without (fd_events c) real in
      let op := if negb (left_events =? 0) then EPOLL_CTL_MOD else EPOLL_CTL_DEL in
      rt ← ctl op (fd_fd c) (Z.lor EPOLLET left_events) a;
      if negb (rt =? 0) then mret tt else
      trigger_if a READ ;;
      trigger_if a WRITE
  end.
(** The expired callbacks go to this scheduler, then the events are handled. *)
Fixpoint schedule_cbs (me : nat) (cbs : list nat) : M (IOManager K) unit :=
  match cbs with
  | [] => mret tt
  | cb :: cbs => schedule_on (Some me) None (Some cb) ;; schedule_cbs me cbs
  end.

(** ** Calls

    A call of a thread, by the next thing it locks; the last four have
    returned.  [Idel] is one turn of [idel] behind [epoll_wait]. *)
Inductive IoCall : Type :=
| AddFind (me : Caller) (fd events : Z) (cb : option nat)
| AddGrow (me : Caller) (fd events : Z) (cb : option nat)
| AddLocked (me : Caller) (fd events : Z) (cb : option nat) (a : nat)
| DelFind (fd events : Z)
| DelLocked (fd events : Z) (a : nat)
| CancelFind (fd events : Z)
| CancelLocked (fd events : Z) (a : nat)
| CancelAllFind (fd : Z)
| CancelAllLocked (fd : Z) (a : nat)
| Idel (me : nat) (cbs : list nat) (rs : list Ready)
| IdelEvents (first : bool) (rs : list Ready)
| AddReturns (rt : Z)
| Returns (b : bool)
| IdelReturns.
Definition addEvent (me : Caller) (fd events : Z) (cb : option nat) : IoCall := AddFind me fd events cb.
Definition delEvent (fd events : Z) : IoCall := DelFind fd events.
Definition cancelEvent (fd events : Z) : IoCall := CancelFind fd events.
Definition cancelAll (fd : Z) : IoCall := CancelAllFind fd.
(** [if((int)m_fdContexts.size() <= fd) return false;] *)
Definition found (f : nat -> IoCall) (p : option nat) : IoCall := match p with Some a => f a | None => Returns false end.
(** One section of a call. *)
Definition io_section (o : IoCall) : M (IOManager K) IoCall :=
  match o with
  | AddFind me fd events cb =>
      p ← find_context fd;
      mret (match p with Some a => AddLocked me fd events cb a | None => AddGrow me fd events cb end)
  | AddGrow me fd events cb => a ← add_grow fd; mret (AddLocked me fd events cb a)
  | AddLocked me fd events cb a => rt ← add_locked me a fd events cb; mret (AddReturns rt)
  | DelFind fd events => p ← find_context fd; mret (found (DelLocked fd events) p)
  | DelLocked fd events a => b ← del_locked a fd events; mret (Returns b)
  | CancelFind fd events => p ← find_context fd; mret (found (CancelLocked fd events) p)
  | CancelLocked fd events a => b ← cancel_locked a fd events; mret (Returns b)
  | CancelAllFind fd => p ← find_context fd; mret (found (CancelAllLocked fd) p)
  | CancelAllLocked fd a => b ← cancelAll_locked a fd; mret (Returns b)
  | Idel me cbs rs => schedule_cbs me cbs ;; mret (IdelEvents true rs)
  | IdelEvents first [] => mret IdelReturns
  | IdelEvents first (r :: rs) => handle_event first r ;; mret (IdelEvents false rs)
  | AddReturns _ | Returns _ | IdelReturns => mret o
  end.

(** The constructor, after the pipe is registered. *)
Definition new_IOManager (k : K) : IOManager K :=
  snd (contextResize 32 (mkIO [] [] 0 k [] 0)).
End IOManager.

(** ** Contexts *)

(** The flags of a pair of booleans. *)
Definition mask (r w : bool) : Z := (if r then READ else 0) + (if w then WRITE else 0).
(** What a slot has to run, a function or a fiber, and the waiter: the same with
    its scheduler. *)
Definition work (e : EventContext) : option FiberAndThread :=
  match ec_cb e, ec_fiber e with
  | Some cb, None => Some (mkFT None (Some cb) (-1))
  | None, Some f => Some (mkFT (Some f) None (-1))
  | _, _ => None
  end.
Definition waiter (e : EventContext) : option (nat * FiberAndThread) :=
  sc ← ec_scheduler e; x ← work e; Some (sc, x).
Definition slot_ok (set : bool) (e : EventContext) : Prop :=
  if set then is_Some (work e) else e = no_event.
(** The events of a context are the slots with something to run. *)
Definition ctx_ok (c : FdContext) : Prop :=
  exists r w, fd_events c = mask r w /\ slot_ok r (fd_read c) /\ slot_ok w (fd_write c).
Definition weight (c : FdContext) : Z :=
  Z.b2z (has (fd_events c) READ) + Z.b2z (has (fd_events c) WRITE).
Definition total (h : list FdContext) : Z := foldr (fun c n => weight c + n) 0 h.

Lemma has_mask r w : has (mask r w) READ = r /\ has (mask r w) WRITE = w.
Proof. by destruct r, w. Qed.
Lemma without_mask r w :
  without (mask r w) READ = mask false w /\ without (mask r w) WRITE = mask r false.
Proof. by destruct r, w. Qed.
Lemma mask_lor r w : Z.lor (mask r w) READ = mask true w /\ Z.lor (mask r w) WRITE = mask r true.
Proof. by destruct r, w. Qed.
Lemma mask_zero r w : (mask r w =? 0) = negb (r || w).
Proof. by destruct r, w. Qed.
Lemma weight_mask c r w : fd_events c = mask r w -> weight c = Z.b2z r + Z.b2z w.
Proof. intros E. unfold weight. rewrite E. by destruct (has_mask r w) as [-> ->]. Qed.
Lemma work_inv e x : work e = Some x ->
  (exists cb, ec_cb e = Some cb /\ ec_fiber e = None /\ x = mkFT None (Some cb) (-1)) \/
  (exists f, ec_cb e = None /\ ec_fiber e = Some f /\ x = mkFT (Some f) None (-1)).
Proof. unfold work. destruct (ec_cb e), (ec_fiber e); intros [= <-]; eauto. Qed.
Lemma waiter_inv e sc x : waiter e = Some (sc, x) -> ec_scheduler e = Some sc /\ work e = Some x.
Proof. unfold waiter. destruct (ec_scheduler e), (work e); cbn; by intros [= <- <-]. Qed.
Lemma waiter_make e sc x : ec_scheduler e = Some sc -> work e = Some x -> waiter e = Some (sc, x).
Proof. unfold waiter. by intros -> ->. Qed.

Definition event_ok (event : Z) : Prop := event = READ \/ event = WRITE.
(** The slot of an event, and the context after it has fired. *)
Definition slot (event : Z) (c : FdContext) : EventContext := if event =? READ then fd_read c else fd_write c.
Definition fired (event : Z) (c : FdContext) : FdContext :=
  set_context event no_event (with_events (without (fd_events c) event) c).

Lemma fired_ok event c : event_ok event -> ctx_ok c -> ctx_ok (fired event c) /\ fd_fd (fired event c) = fd_fd c.
Proof.
  intros [-> | ->] (r & w & E & Hr & Hw); (split; [|done]).
  - exists false, w. split_and!; [|done..]. cbn. rewrite E. apply without_mask.
  - exists r, false. split_and!; [|done..]. cbn. rewrite E. apply without_mask.
Qed.
Lemma fired_weight event c :
  event_ok event -> ctx_ok c -> has (fd_events c) event = true -> weight (fired event c) = weight c - 1.
Proof.
  intros Hev (r & w & E & _ & _) Hh. rewrite E in Hh. pose proof (has_mask r w) as [H1 H2].
  pose proof (without_mask r w) as [W1 W2].
  rewrite (weight_mask c r w E). destruct Hev as [-> | ->].
  - rewrite H1 in Hh. subst. rewrite (weight_mask (fired READ c) false w) by (cbn; by rewrite E). cbn. lia.
  - rewrite H2 in Hh. subst. rewrite (weight_mask (fired WRITE c) r false) by (cbn; by rewrite E). cbn. lia.
Qed.
Lemma ctx_slot event c :
  event_ok event -> ctx_ok c ->
  if has (fd_events c) event then is_Some (work (slot event c)) else slot event c = no_event.
Proof.
  intros Hev (r & w & E & Hr & Hw). rewrite E. destruct (has_mask r w) as [H1 H2].
  destruct Hev as [-> | ->]; cbn; rewrite ?H1, ?H2; [by destruct r | by destruct w].
Qed.
(** Firing the event does not call a null scheduler. *)
Definition can_fire (event : Z) (c : FdContext) : bool :=
  negb (has (fd_events c) event) || bool_decide (ec_scheduler (slot event c) <> None).
Lemma can_fire_waiter event c :
  event_ok event -> ctx_ok c -> can_fire event c = true -> has (fd_events c) event = true -> is_Some (waiter (slot event c)).
Proof.
  intros Hev Hc Hf Hh. pose proof (ctx_slot event c Hev Hc) as Hsl. unfold can_fire in Hf. rewrite Hh in Hf, Hsl.
  apply bool_decide_eq_true in Hf. destruct Hsl as [x Hx]. destruct (ec_scheduler (slot event c)) as [sc|] eqn:Es; [|done].
  eexists. by apply waiter_make.
Qed.
Lemma getcontext_slot event c : event_ok event -> getcontext event c = Ret (slot event c).
Proof. by intros [-> | ->]. Qed.

(** ** Lists of contexts *)
Lemma total_insert h a c c' : h !! a = Some c -> total (<[a := c']> h) = total h + (weight c' - weight c).
Proof.
  revert a. induction h as [|x h IH]; intros a Ha; [done|]. destruct a as [|a]; cbn in *.
  - injection Ha as ->. lia.
  - etransitivity; [exact (f_equal (Z.add (weight x)) (IH a Ha)) | unfold total; lia].
Qed.
Lemma total_app h1 h2 : total (h1 ++ h2) = total h1 + total h2.
Proof. induction h1 as [|x h1 IH]; [done|]. unfold total in *. cbn. lia. Qed.
Lemma total_new n i : total (map new_FdContext (seq i n)) = 0.
Proof. revert i. induction n as [|n IH]; intros i; [done|]. cbn [seq map total foldr]. by rewrite IH. Qed.
Lemma alter_lookup (g : FdContext -> FdContext) (a : nat) (h : list FdContext) c :
  h !! a = Some c -> alter g a h = <[a := g c]> h.
Proof.
  intros Ha. apply list_eq. intros i. destruct (decide (i = a)) as [->|Hne].
  - rewrite list_lookup_insert_eq by (by eapply lookup_lt_Some). by rewrite list_lookup_alter_eq, Ha.
  - by rewrite list_lookup_alter_ne, list_lookup_insert_ne by done.
Qed.

(** ** The invariant of the manager *)
Section Invariant.
Context {K : Type} `{Epoll K}.
Implicit Types s : IOManager K.

Record io_wf s : Prop := {
  wf_ctx : Forall ctx_ok (io_heap s);
  wf_count : m_appendingEventCount s = u64 (total (io_heap s));
  wf_vector : forall i a, m_fdContexts s !! i = Some a -> exists c, io_heap s !! a = Some c /\ fd_fd c = Z.of_nat i
}.
Lemma io_wf_ctx s a c : io_wf s -> io_heap s !! a = Some c -> ctx_ok c.
Proof. intros [Hc _ _] Ha. rewrite list.Forall_forall in Hc. apply Hc. by eapply list_elem_of_lookup_2. Qed.

(** A context is replaced and the counter adjusted. *)
Lemma io_wf_replace s s' a c c' d :
  io_wf s -> io_heap s !! a = Some c -> ctx_ok c' -> fd_fd c' = fd_fd c -> d = weight c' - weight c ->
  io_heap s' = <[a := c']> (io_heap s) -> m_fdContexts s' = m_fdContexts s ->
  m_appendingEventCount s' = u64 (m_appendingEventCount s + d) -> io_wf s'.
Proof.
  intros [Hc Hn Hv] Ha Hc' Hfd -> E1 E2 E3. split; rewrite ?E1, ?E2; try done.
  - by apply Forall_insert.
  - rewrite E3, Hn, (total_insert _ _ _ _ Ha). unfold u64, wrapu. by rewrite Zplus_mod_idemp_l.
  - intros i b Hb. destruct (Hv i b Hb) as (c0 & Hc0 & Hi). destruct (decide (b = a)) as [->|Hne].
    + exists c'. rewrite list_lookup_insert_eq by (by eapply lookup_lt_Some). split; [done|]. congruence.
    + exists c0. by rewrite list_lookup_insert_ne.
Qed.
Lemma io_wf_frame s s' :
  io_wf s -> io_heap s' = io_heap s -> m_fdContexts s' = m_fdContexts s ->
  m_appendingEventCount s' = m_appendingEventCount s -> io_wf s'.
Proof. intros [? ? ?] E1 E2 E3. split; by rewrite ?E1, ?E2, ?E3. Qed.

(** ** What the parts do *)
Lemma the_ctx_run s a c : io_heap s !! a = Some c -> the_ctx a s = (Ret c, s).
Proof. intros Ha. unfold the_ctx. by rewrite Ha. Qed.
Lemma upd_ctx_run s a c g : io_heap s !! a = Some c -> upd_ctx a g s = (Ret tt, set_heap (<[a := g c]> (io_heap s)) s).
Proof. intros Ha. unfold upd_ctx, modify. by rewrite (alter_lookup g a _ c Ha). Qed.
(** Whether epoll accepts a change, and the state behind it. *)
Definition accepts s (op fd mask : Z) (a : nat) : bool := fst (epoll_ctl (io_kernel s) op fd mask a) =? 0.
Definition told s (op fd mask : Z) (a : nat) : IOManager K := set_kernel (snd (epoll_ctl (io_kernel s) op fd mask a)) s.
Lemma ctl_bind {A} s op fd mask a (f : Z -> M (IOManager K) A) :
  (ctl op fd mask a ≫= f) s = f (fst (epoll_ctl (io_kernel s) op fd mask a)) (told s op fd mask a).
Proof. unfold ctl, told, mbind, M_bind. by destruct (epoll_ctl _ _ _ _ _). Qed.
Lemma told_wf s op fd mask a : io_wf s -> io_wf (told s op fd mask a).
Proof. intros Hwf. by apply (io_wf_frame s). Qed.

(** Finding a context. *)
Definition find_undefined s (fd : Z) : bool := (fd <? 0) && (fd <? i32 (Z.of_nat (length (m_fdContexts s)))).
Lemma find_context_run s fd :
  if find_undefined s fd then find_context fd s = (Crash, s) else
  exists p, find_context fd s = (Ret p, s) /\
    match p with
    | Some a => 0 <= fd /\ m_fdContexts s !! Z.to_nat fd = Some a
    | None => i32 (Z.of_nat (length (m_fdContexts s))) <= fd
    end.
Proof.
  unfold find_undefined, find_context. rewrite bind_get. destruct (Z.ltb_spec fd 0) as [Hn|Hp]; cbn [andb].
  - destruct (Z.ltb_spec fd (i32 (Z.of_nat (length (m_fdContexts s))))); [done|by exists None].
  - destruct (Z.ltb_spec fd (i32 (Z.of_nat (length (m_fdContexts s))))) as [Hlt|]; [|by exists None].
    assert (i32 (Z.of_nat (length (m_fdContexts s))) <= Z.of_nat (length (m_fdContexts s))) by (unfold i32, wraps; zdiv_lia).
    destruct (lookup_lt_is_Some_2 (m_fdContexts s) (Z.to_nat fd) ltac:(lia)) as [a Ha]. rewrite Ha. by exists (Some a).
Qed.

(** Firing a slot that is set. *)
Definition fire (event : Z) (a : nat) (c : FdContext) (s : IOManager K) : IOManager K :=
  match waiter (slot event c) with
  | Some x => push_task x (set_heap (<[a := fired event c]> (io_heap s)) s)
  | None => s
  end.
Lemma triggerEvent_run s a event c x :
  event_ok event -> io_heap s !! a = Some c -> has (fd_events c) event = true -> waiter (slot event c) = Some x ->
  triggerEvent a event s = (Ret tt, fire event a c s).
Proof.
  intros Hev Ha Hh Hx. destruct x as [sc x]. unfold fire. rewrite Hx.
  unfold triggerEvent. mstep (the_ctx_run s a c Ha). rewrite Hh. cbn [CXK_ASSERT].
  rewrite (bind_Ret _ _ s tt s) by done.
  mstep (upd_ctx_run s a c (with_events (without (fd_events c) event)) Ha).
  rewrite (getcontext_slot event c Hev). set (s1 := set_heap _ s).
  rewrite (bind_Ret _ _ s1 (slot event c) s1) by done.
  assert (Ha1 : io_heap s1 !! a = Some (with_events (without (fd_events c) event) c))
    by (cbn; apply list_lookup_insert_eq; by eapply lookup_lt_Some).
  apply waiter_inv in Hx as [Hsc [(cb & Hcb & Hf & ->) | (f & Hcb & Hf & ->)]%work_inv];
    rewrite Hcb, ?Hf, Hsc; cbn [schedule_on]; rewrite bind_modify;
    rewrite (upd_ctx_run (push_task _ s1) a (with_events (without (fd_events c) event) c)) by done;
    do 2 f_equal; unfold set_heap, push_task; cbn; by rewrite list_insert_insert_eq.
Qed.
(** An event that is neither READ nor WRITE, or a null scheduler. *)
Lemma triggerEvent_undefined s a event c :
  io_heap s !! a = Some c -> has (fd_events c) event = true ->
  ~ event_ok event \/ event_ok event /\ ec_scheduler (slot event c) = None ->
  exists s', triggerEvent a event s = (Crash, s').
Proof.
  intros Ha Hh Hx. unfold triggerEvent. mstep (the_ctx_run s a c Ha). rewrite Hh. cbn [CXK_ASSERT].
  rewrite (bind_Ret _ _ s tt s) by done. mstep (upd_ctx_run s a c (with_events (without (fd_events c) event)) Ha).
  destruct Hx as [Hev|[Hev Hsc]].
  - assert (getcontext event c = Crash) as ->; [|by eexists]. unfold getcontext.
    destruct (Z.eqb_spec event READ) as [->|]; [by destruct Hev; left|].
    destruct (Z.eqb_spec event WRITE) as [->|]; [by destruct Hev; right|done].
  - rewrite (getcontext_slot event c Hev). set (s1 := set_heap _ s).
    rewrite (bind_Ret _ _ s1 (slot event c) s1) by done. rewrite Hsc. destruct (ec_cb (slot event c)); by eexists.
Qed.

(** The effect of a fired slot on the state. *)
Lemma fire_state s a event c x :
  waiter (slot event c) = Some x ->
  io_heap (fire event a c s) = <[a := fired event c]> (io_heap s) /\
  m_fdContexts (fire event a c s) = m_fdContexts s /\
  m_appendingEventCount (fire event a c s) = m_appendingEventCount s /\
  io_kernel (fire event a c s) = io_kernel s /\ io_scheduled (fire event a c s) = io_scheduled s ++ [x].
Proof. intros Hx. unfold fire. by rewrite Hx. Qed.
Definition fired_if (event : Z) (c : FdContext) : FdContext := if has (fd_events c) event then fired event c else c.
Definition fire_if (event : Z) (a : nat) (c : FdContext) (s : IOManager K) : IOManager K :=
  if has (fd_events c) event then add_count (-1) (fire event a c s) else s.
(** The tasks a context gives up for an event. *)
Definition tasks_if (event : Z) (c : FdContext) : list (nat * FiberAndThread) :=
  if has (fd_events c) event then match waiter (slot event c) with Some x => [x] | None => [] end else [].

Lemma trigger_if_run s a event c :
  event_ok event -> io_wf s -> io_heap s !! a = Some c -> can_fire event c = true ->
  trigger_if a event s = (Ret tt, fire_if event a c s) /\ io_wf (fire_if event a c s) /\
  io_heap (fire_if event a c s) = <[a := fired_if event c]> (io_heap s) /\
  m_fdContexts (fire_if event a c s) = m_fdContexts s /\ io_kernel (fire_if event a c s) = io_kernel s /\
  io_scheduled (fire_if event a c s) = io_scheduled s ++ tasks_if event c.
Proof.
  intros Hev Hwf Ha Hcan. pose proof (io_wf_ctx s a c Hwf Ha) as Hc.
  unfold trigger_if. mstep (the_ctx_run s a c Ha). unfold fire_if, fired_if, tasks_if.
  destruct (has (fd_events c) event) eqn:Hh.
  - destruct (can_fire_waiter event c Hev Hc Hcan Hh) as [x Ex].
    pose proof (triggerEvent_run s a event c x Hev Ha Hh Ex) as E.
    destruct (fire_state s a event c x Ex) as (E1 & E2 & E3 & E4 & E5).
    mstep E. rewrite Ex. split; [done|]. split; [|done].
    eapply (io_wf_replace s _ a c (fired event c) (-1)); try done.
    + by apply fired_ok.
    + by apply fired_ok.
    + rewrite (fired_weight event c Hev Hc Hh). lia.
    + cbn. by rewrite E3.
  - split; [done|]. split_and!; try done; [|by rewrite app_nil_r]. by rewrite list_insert_id.
Qed.
Lemma trigger_if_undefined s a event c :
  event_ok event -> io_heap s !! a = Some c -> can_fire event c = false -> exists s', trigger_if a event s = (Crash, s').
Proof.
  intros Hev Ha Hcan. unfold can_fire in Hcan. apply orb_false_iff in Hcan as [Hh%negb_false_iff Hn%bool_decide_eq_false].
  unfold trigger_if. mstep (the_ctx_run s a c Ha). rewrite Hh.
  destruct (triggerEvent_undefined s a event c Ha Hh) as [s' E].
  - right. split; [done|]. destruct (ec_scheduler (slot event c)); [by destruct Hn|done].
  - exists s'. unfold mbind, M_bind. by rewrite E.
Qed.
(** Both slots. *)
Definition drained (c : FdContext) : FdContext := fired_if WRITE (fired_if READ c).
Definition fire_both (a : nat) (c : FdContext) (s : IOManager K) : IOManager K :=
  fire_if WRITE a (fired_if READ c) (fire_if READ a c s).
Definition tasks_of (c : FdContext) : list (nat * FiberAndThread) := tasks_if READ c ++ tasks_if WRITE c.
Definition can_fire_both (c : FdContext) : bool := can_fire READ c && can_fire WRITE c.
Lemma drained_empty c : ctx_ok c -> drained c = mkFd (fd_fd c) no_event no_event 0.
Proof.
  intros (r & w & E & Hr & Hw). unfold drained, fired_if. destruct c as [fd er ew ev]. cbn in *. subst ev.
  destruct (has_mask r w) as [-> H2]. destruct (without_mask r w) as [W1 W2].
  destruct r; unfold fired, set_context, with_events; cbn [fd_events fd_fd fd_read fd_write Z.eqb Pos.eqb READ].
  - rewrite W1. destruct (has_mask false w) as [_ ->]. destruct w; [|by rewrite Hw].
    cbn. destruct (without_mask false true) as [_ W3]. done.
  - rewrite H2. cbn in Hr. destruct w; [|by rewrite Hr, Hw]. cbn. by rewrite Hr.
Qed.
Lemma after_read c : ctx_ok c ->
  tasks_if WRITE (fired_if READ c) = tasks_if WRITE c /\ can_fire WRITE (fired_if READ c) = can_fire WRITE c.
Proof.
  intros (r & w & E & _). unfold fired_if. rewrite E. destruct (has_mask r w) as [-> H2]. destruct r; [|done].
  unfold tasks_if, can_fire. rewrite E, H2. unfold fired, set_context, with_events, slot. cbn [fd_events fd_write Z.eqb READ WRITE Pos.eqb].
  rewrite E. destruct (without_mask true w) as [-> _]. by destruct (has_mask false w) as [_ ->].
Qed.
Lemma trigger_both_run s a c :
  io_wf s -> io_heap s !! a = Some c -> can_fire_both c = true ->
  (trigger_if a READ ;; trigger_if a WRITE) s = (Ret tt, fire_both a c s) /\ io_wf (fire_both a c s) /\
  io_heap (fire_both a c s) = <[a := mkFd (fd_fd c) no_event no_event 0]> (io_heap s) /\
  m_fdContexts (fire_both a c s) = m_fdContexts s /\ io_kernel (fire_both a c s) = io_kernel s /\
  io_scheduled (fire_both a c s) = io_scheduled s ++ tasks_of c.
Proof.
  intros Hwf Ha [Hcr Hcw]%andb_true_iff. pose proof (io_wf_ctx s a c Hwf Ha) as Hc. destruct (after_read c Hc) as [T1 T2].
  destruct (trigger_if_run s a READ c (or_introl eq_refl) Hwf Ha Hcr) as (R1 & R2 & R3 & R4 & R5 & R6).
  assert (Ha' : io_heap (fire_if READ a c s) !! a = Some (fired_if READ c))
    by (rewrite R3; apply list_lookup_insert_eq; by eapply lookup_lt_Some).
  rewrite <- T2 in Hcw.
  destruct (trigger_if_run _ a WRITE _ (or_intror eq_refl) R2 Ha' Hcw) as (W1 & W2 & W3 & W4 & W5 & W6).
  mstep R1. split; [exact W1|]. unfold fire_both.
  split_and!; [done | | by rewrite W4 | by rewrite W5 |].
  - rewrite W3, R3, list_insert_insert_eq. by rewrite <- (drained_empty c Hc).
  - by rewrite W6, R6, <- app_assoc, T1.
Qed.
Lemma trigger_both_undefined s a c {A} (m : M (IOManager K) A) :
  io_wf s -> io_heap s !! a = Some c -> can_fire_both c = false ->
  exists s', (trigger_if a READ ;; trigger_if a WRITE ;; m) s = (Crash, s').
Proof.
  intros Hwf Ha Hn. pose proof (io_wf_ctx s a c Hwf Ha) as Hc. destruct (after_read c Hc) as [_ T2].
  destruct (can_fire READ c) eqn:Hr.
  - destruct (trigger_if_run s a READ c (or_introl eq_refl) Hwf Ha Hr) as (R1 & R2 & R3 & _). mstep R1.
    assert (Ha' : io_heap (fire_if READ a c s) !! a = Some (fired_if READ c))
      by (rewrite R3; apply list_lookup_insert_eq; by eapply lookup_lt_Some).
    unfold can_fire_both in Hn. rewrite Hr in Hn. cbn in Hn. rewrite <- T2 in Hn.
    destruct (trigger_if_undefined _ a WRITE _ (or_intror eq_refl) Ha' Hn) as [s' E]. exists s'. unfold mbind, M_bind. by rewrite E.
  - destruct (trigger_if_undefined s a READ c (or_introl eq_refl) Ha Hr) as [s' E]. exists s'. unfold mbind, M_bind. by rewrite E.
Qed.

(** ** The operations on a context *)

(** The change [delEvent] and [cancelEvent] ask for, and whether they get it. *)
Definition removal (event : Z) (c : FdContext) : Z :=
  if negb (without (fd_events c) event =? 0) then EPOLL_CTL_MOD else EPOLL_CTL_DEL.
Definition removes s (a : nat) (c : FdContext) (fd event : Z) : bool :=
  has (fd_events c) event && accepts s (removal event c) fd (Z.lor EPOLLET (without (fd_events c) event)) a.
Definition same_contexts s s' : Prop :=
  io_heap s' = io_heap s /\ m_fdContexts s' = m_fdContexts s /\ m_appendingEventCount s' = m_appendingEventCount s /\
  io_scheduled s' = io_scheduled s.
Lemma remove_interest_run s a c fd event :
  io_heap s !! a = Some c ->
  exists s', remove_interest a fd event s =
    (Ret (if removes s a c fd event then Some (without (fd_events c) event) else None), s') /\ same_contexts s s'.
Proof.
  intros Ha. unfold remove_interest, removes, accepts, removal. mstep (the_ctx_run s a c Ha).
  destruct (has (fd_events c) event) eqn:Hh; [|by exists s]. cbn [negb andb]. cbv zeta. rewrite ctl_bind.
  destruct (fst _ =? 0); cbn [negb]; by eexists.
Qed.
Definition event_okb (event : Z) : bool := (event =? READ) || (event =? WRITE).
Lemma event_okP event : if event_okb event then event_ok event else ~ event_ok event.
Proof.
  unfold event_okb, event_ok. destruct (Z.eqb_spec event READ); [by left|]. destruct (Z.eqb_spec event WRITE); [by right|].
  by intros [|].
Qed.

(** [cancelEvent]: the waiter of the event is scheduled exactly when it says so. *)
Lemma cancel_locked_run s a c fd event :
  io_wf s -> io_heap s !! a = Some c -> event_ok event -> can_fire event c = true ->
  exists s', cancel_locked a fd event s = (Ret (removes s a c fd event), s') /\ io_wf s' /\
    m_fdContexts s' = m_fdContexts s /\
    if removes s a c fd event then exists x, waiter (slot event c) = Some x /\
      io_heap s' = <[a := fired event c]> (io_heap s) /\ io_scheduled s' = io_scheduled s ++ [x]
    else io_heap s' = io_heap s /\ io_scheduled s' = io_scheduled s.
Proof.
  intros Hwf Ha Hev Hcan. destruct (remove_interest_run s a c fd event Ha) as (s1 & E & H1 & V1 & N1 & S1).
  assert (W1 : io_wf s1) by by apply (io_wf_frame s).
  unfold cancel_locked. mstep E. destruct (removes s a c fd event) eqn:Hr; [|by exists s1].
  apply andb_true_iff in Hr as [Hh _]. rewrite <- H1 in Ha.
  destruct (trigger_if_run s1 a event c Hev W1 Ha Hcan) as (R1 & R2 & R3 & R4 & R5 & R6).
  destruct (can_fire_waiter event c Hev (io_wf_ctx s1 a c W1 Ha) Hcan Hh) as [x Hx].
  unfold fire_if, fired_if, tasks_if in R2, R3, R4, R6. rewrite Hh in R2, R3, R4, R6.
  mstep (triggerEvent_run s1 a event c x Hev Ha Hh Hx). rewrite Hx in R6.
  eexists. split; [reflexivity|]. split; [exact R2|]. split; [by rewrite <- V1|]. exists x. rewrite <- H1, <- S1. done.
Qed.
Lemma cancel_locked_undefined s a c fd event :
  io_heap s !! a = Some c -> removes s a c fd event = true ->
  ~ event_ok event \/ event_ok event /\ can_fire event c = false -> exists s', cancel_locked a fd event s = (Crash, s').
Proof.
  intros Ha Hr Hx. destruct (remove_interest_run s a c fd event Ha) as (s1 & E & H1 & _). unfold cancel_locked. mstep E.
  rewrite Hr. rewrite <- H1 in Ha. apply andb_true_iff in Hr as [Hh _].
  destruct (triggerEvent_undefined s1 a event c Ha Hh) as [s' E'].
  - destruct Hx as [|[Hev Hcan]]; [by left|right]. split; [done|]. unfold can_fire in Hcan. rewrite Hh in Hcan. cbn in Hcan.
    apply bool_decide_eq_false in Hcan. destruct (ec_scheduler (slot event c)); [by destruct Hcan|done].
  - exists s'. unfold mbind, M_bind. by rewrite E'.
Qed.
(** [delEvent]: the same, and the waiter is forgotten. *)
Lemma del_locked_run s a c fd event :
  io_wf s -> io_heap s !! a = Some c -> event_ok event ->
  exists s', del_locked a fd event s = (Ret (removes s a c fd event), s') /\ io_wf s' /\
    m_fdContexts s' = m_fdContexts s /\ io_scheduled s' = io_scheduled s /\
    io_heap s' = if removes s a c fd event then <[a := fired event c]> (io_heap s) else io_heap s.
Proof.
  intros Hwf Ha Hev. destruct (remove_interest_run s a c fd event Ha) as (s1 & E & H1 & V1 & N1 & S1).
  assert (W1 : io_wf s1) by by apply (io_wf_frame s).
  unfold del_locked. mstep E. destruct (removes s a c fd event) eqn:Hr; [|by exists s1].
  apply andb_true_iff in Hr as [Hh _]. rewrite <- H1 in Ha.
  pose proof (io_wf_ctx s1 a c W1 Ha) as Hc. rewrite bind_modify.
  set (s2 := add_count (-1) s1). mstep (upd_ctx_run s2 a c (with_events (without (fd_events c) event)) Ha).
  set (s3 := set_heap _ s2).
  assert (Ha3 : io_heap s3 !! a = Some (with_events (without (fd_events c) event) c))
    by (cbn; apply list_lookup_insert_eq; by eapply lookup_lt_Some).
  mstep (the_ctx_run s3 a _ Ha3). rewrite (getcontext_slot event _ Hev).
  unfold lift. rewrite (bind_Ret _ _ s3 (slot event (with_events (without (fd_events c) event) c)) s3) by done.
  mstep (upd_ctx_run s3 a _ (set_context event (resetContext (slot event (with_events (without (fd_events c) event) c)))) Ha3).
  eexists. split; [reflexivity|].
  assert (Eh : <[a := fired event c]> (io_heap s1) =
    <[a := set_context event (resetContext (slot event (with_events (without (fd_events c) event) c)))
             (with_events (without (fd_events c) event) c)]> (io_heap s3))
    by (cbn; by rewrite list_insert_insert_eq).
  split_and!; [|done|done|cbn [set_heap io_heap]; by rewrite <- Eh, H1].
  eapply (io_wf_replace s1 _ a c (fired event c) (-1)); try done.
  - by apply fired_ok.
  - by apply fired_ok.
  - rewrite (fired_weight event c Hev Hc Hh). lia.
Qed.
Lemma del_locked_undefined s a c fd event :
  io_heap s !! a = Some c -> removes s a c fd event = true -> ~ event_ok event ->
  exists s', del_locked a fd event s = (Crash, s').
Proof.
  intros Ha Hr Hev. destruct (remove_interest_run s a c fd event Ha) as (s1 & E & H1 & _). unfold del_locked. mstep E.
  rewrite Hr, bind_modify. rewrite <- H1 in Ha. set (s2 := add_count (-1) s1).
  mstep (upd_ctx_run s2 a c (with_events (without (fd_events c) event)) Ha). set (s3 := set_heap _ s2).
  assert (Ha3 : io_heap s3 !! a = Some (with_events (without (fd_events c) event) c))
    by (cbn; apply list_lookup_insert_eq; by eapply lookup_lt_Some).
  mstep (the_ctx_run s3 a _ Ha3).
  assert (getcontext event (with_events (without (fd_events c) event) c) = Crash) as ->; [|by eexists].
  unfold getcontext. destruct (Z.eqb_spec event READ) as [->|]; [by destruct Hev; left|].
  destruct (Z.eqb_spec event WRITE) as [->|]; [by destruct Hev; right|done].
Qed.
(** [cancelAll]: both waiters are scheduled. *)
Definition drains s (a : nat) (c : FdContext) (fd : Z) : bool :=
  negb (fd_events c =? 0) && accepts s EPOLL_CTL_DEL fd 0 a.
Lemma cancelAll_locked_run s a c fd :
  io_wf s -> io_heap s !! a = Some c ->
  if drains s a c fd && negb (can_fire_both c) then exists s', cancelAll_locked a fd s = (Crash, s') else
  exists s', cancelAll_locked a fd s = (Ret (drains s a c fd), s') /\ io_wf s' /\ m_fdContexts s' = m_fdContexts s /\
    if drains s a c fd then io_heap s' = <[a := mkFd (fd_fd c) no_event no_event 0]> (io_heap s) /\
      io_scheduled s' = io_scheduled s ++ tasks_of c
    else io_heap s' = io_heap s /\ io_scheduled s' = io_scheduled s.
Proof.
  intros Hwf Ha. unfold cancelAll_locked, drains, accepts.
  destruct (fd_events c =? 0) eqn:Ez; cbn [negb andb]; [exists s; mstep (the_ctx_run s a c Ha); by rewrite Ez|].
  set (s1 := told s EPOLL_CTL_DEL fd 0 a). assert (W1 : io_wf s1) by by apply told_wf.
  destruct (fst _ =? 0) eqn:Ea; cbn [andb].
  2:{ exists s1. mstep (the_ctx_run s a c Ha). rewrite Ez, ctl_bind, Ea. done. }
  destruct (can_fire_both c) eqn:Hcan; cbn [negb].
  - destruct (trigger_both_run s1 a c W1 Ha Hcan) as (R1 & R2 & R3 & R4 & R5 & R6). exists (fire_both a c s1).
    assert (Ha2 : io_heap (fire_both a c s1) !! a = Some (mkFd (fd_fd c) no_event no_event 0))
      by (rewrite R3; apply list_lookup_insert_eq; by eapply lookup_lt_Some).
    split; [|done]. mstep (the_ctx_run s a c Ha). rewrite Ez, ctl_bind, Ea. cbn [negb]. fold s1.
    apply bind_inv in R1 as ([] & s2 & R11 & R12). mstep R11. mstep R12. by mstep (the_ctx_run _ a _ Ha2).
  - destruct (trigger_both_undefined s1 a c (c ← the_ctx a; CXK_ASSERT (fd_events c =? 0) ;; mret true) W1 Ha Hcan) as [s' E].
    exists s'. mstep (the_ctx_run s a c Ha). rewrite Ez, ctl_bind, Ea. exact E.
Qed.

(** [addEvent]: the growth of the vector, then the locked part. *)
Lemma contextResize_run s size :
  io_wf s -> exists s', contextResize size s = (Ret tt, s') /\ io_wf s' /\ length (m_fdContexts s') = size /\
    io_scheduled s' = io_scheduled s /\ io_kernel s' = io_kernel s /\
    io_heap s' = io_heap s ++ map new_FdContext (seq (length (m_fdContexts s)) (size - length (m_fdContexts s))) /\
    forall i, (i < length (m_fdContexts s))%nat -> (i < size)%nat -> m_fdContexts s' !! i = m_fdContexts s !! i.
Proof.
  intros [Hc Hn Hv]. unfold contextResize. rewrite bind_get, bind_modify.
  set (old := m_fdContexts s) in *. set (n := length (io_heap s)).
  eexists. split; [reflexivity|]. cbn -[seq take].
  assert (Hlen : length (take size old ++ seq n (size - length old)) = size)
    by (rewrite length_app, length_seq, length_take; lia).
  split_and!; try done; [|intros i Hi Hs; rewrite lookup_app_l by (rewrite length_take; lia); by apply lookup_take_lt].
  split; cbn -[seq take].
  - apply Forall_app. split; [done|]. apply list.Forall_forall. intros c Hin.
    apply list_elem_of_In, in_map_iff in Hin as (i & <- & _). by exists false, false.
  - by rewrite total_app, total_new, Z.add_0_r.
  - intros i a Hi. destruct (Nat.lt_ge_cases i (length (take size old))) as [Hlt|Hge].
    + rewrite lookup_app_l in Hi by done. rewrite length_take in Hlt. rewrite lookup_take_lt in Hi by lia.
      destruct (Hv i a Hi) as (c & Hac & Hf). exists c. rewrite lookup_app_l by (by eapply lookup_lt_Some). done.
    + rewrite lookup_app_r in Hi by done. rewrite length_take in Hge, Hi. apply lookup_seq in Hi as [-> Hi].
      exists (new_FdContext i). split; [|done]. unfold n. rewrite lookup_app_r by lia.
      replace (length (io_heap s) + (i - size `min` length old) - length (io_heap s))%nat with (i - length old)%nat by lia.
      rewrite list_lookup_fmap, lookup_seq_lt by lia. cbn. do 2 f_equal. lia.
Qed.
(** The vector after [add_grow], which also cuts it, has the descriptor unless
    that is 0 or 1. *)
Definition grown (fd : Z) : nat := Z.to_nat (Z.quot (fd * 3) 2).
Lemma grown_above fd : 2 <= fd -> (Z.to_nat fd < grown fd)%nat.
Proof. intros Hfd. unfold grown. rewrite Z.quot_div_nonneg by lia. zdiv_lia. Qed.
Lemma add_grow_run s fd :
  io_wf s -> 2 <= fd ->
  exists a s', add_grow fd s = (Ret a, s') /\ io_wf s' /\ m_fdContexts s' !! Z.to_nat fd = Some a /\
    length (m_fdContexts s') = grown fd /\ io_scheduled s' = io_scheduled s /\ io_kernel s' = io_kernel s /\
    io_heap s' = io_heap s ++ map new_FdContext (seq (length (m_fdContexts s)) (grown fd - length (m_fdContexts s))).
Proof.
  intros Hwf Hfd. unfold add_grow. fold (grown fd).
  destruct (contextResize_run s (grown fd) Hwf) as (s' & E & W & Hlen & Hs & Hk & Hh & _). mstep E. rewrite bind_get.
  destruct (lookup_lt_is_Some_2 (m_fdContexts s') (Z.to_nat fd)) as [a Ha]; [rewrite Hlen; by apply grown_above|].
  rewrite Ha. by exists a, s'.
Qed.
Lemma add_grow_undefined s fd : io_wf s -> fd <= 1 -> exists s', add_grow fd s = (Crash, s').
Proof.
  intros Hwf Hfd. unfold add_grow. fold (grown fd).
  destruct (contextResize_run s (grown fd) Hwf) as (s' & E & W & Hlen & _). mstep E. rewrite bind_get. exists s'.
  rewrite lookup_ge_None_2; [done|]. rewrite Hlen. unfold grown.
  destruct (Z.le_gt_cases fd 0); [|assert (fd = 1) as -> by lia; done].
  assert (Z.quot (fd * 3) 2 <= 0) by (Z.to_euclidean_division_equations; lia). lia.
Qed.

Definition wait_slot (me : Caller) (cb : option nat) : EventContext :=
  match cb with
  | Some _ => mkEC (cl_scheduler me) None cb
  | None => mkEC (cl_scheduler me) (Some (cl_fiber me)) None
  end.
(** The context with a waiter added. *)
Definition added (me : Caller) (event : Z) (cb : option nat) (c : FdContext) : FdContext :=
  set_context event (wait_slot me cb) (with_events (Z.lor (fd_events c) event) c).
Lemma added_ok me event cb c :
  event_ok event -> ctx_ok c -> has (fd_events c) event = false ->
  ctx_ok (added me event cb c) /\ fd_fd (added me event cb c) = fd_fd c /\ weight (added me event cb c) = weight c + 1 /\
  fired event (added me event cb c) = c /\ slot event (added me event cb c) = wait_slot me cb /\
  has (fd_events (added me event cb c)) event = true.
Proof.
  intros Hev (r & w & E & Hr & Hw) Hh. rewrite E in Hh.
  destruct (has_mask r w) as [H1 H2]. destruct (mask_lor r w) as [L1 L2].
  assert (Hslot : is_Some (work (wait_slot me cb))) by (unfold work, wait_slot; destruct cb; cbn; by eexists).
  destruct c as [fd er ew ev]. cbn in E, Hr, Hw. subst ev.
  destruct Hev as [-> | ->]; unfold added, set_context, with_events; cbn [fd_events fd_fd fd_read fd_write Z.eqb READ WRITE Pos.eqb].
  - rewrite H1 in Hh. subst r. rewrite L1. destruct (has_mask true w) as [H3 _]. cbn in Hr. subst er.
    split_and!; try done; [by exists true, w | | ].
    + rewrite (weight_mask _ true w), (weight_mask _ false w) by done. cbn. lia.
    + unfold fired, set_context, with_events. cbn [fd_events fd_fd fd_read fd_write Z.eqb READ WRITE Pos.eqb].
      by destruct (without_mask true w) as [-> _].
  - rewrite H2 in Hh. subst w. rewrite L2. destruct (has_mask r true) as [_ H3]. cbn in Hw. subst ew.
    split_and!; try done; [by exists r, true | | ].
    + rewrite (weight_mask _ r true), (weight_mask _ r false) by done. cbn. lia.
    + unfold fired, set_context, with_events. cbn [fd_events fd_fd fd_read fd_write Z.eqb READ WRITE Pos.eqb].
      by destruct (without_mask r true) as [_ ->].
Qed.
(** What [addEvent] asks for, and whether it gets it. *)
Definition addition (c : FdContext) : Z := if negb (fd_events c =? 0) then EPOLL_CTL_MOD else EPOLL_CTL_ADD.
Definition adds s (a : nat) (c : FdContext) (fd event : Z) : bool :=
  accepts s (addition c) fd (Z.lor (Z.lor EPOLLET (fd_events c)) event) a.
(** A waiter already, an event that is neither READ nor WRITE, or a fiber that
    does not run: an assertion fails. *)
Definition add_undefined s (me : Caller) (a : nat) (c : FdContext) (fd event : Z) (cb : option nat) : bool :=
  has (fd_events c) event ||
  adds s a c fd event && (negb (event_okb event) || match cb with Some _ => false | None => negb (cl_exec me) end).
Lemma add_locked_run s me a c fd event cb :
  io_wf s -> io_heap s !! a = Some c ->
  if add_undefined s me a c fd event cb then exists s', add_locked me a fd event cb s = (Crash, s') else
  exists s', add_locked me a fd event cb s = (Ret (if adds s a c fd event then 0 else -1), s') /\ io_wf s' /\
    io_scheduled s' = io_scheduled s /\ m_fdContexts s' = m_fdContexts s /\
    io_kernel s' = io_kernel (told s (addition c) fd (Z.lor (Z.lor EPOLLET (fd_events c)) event) a) /\
    if adds s a c fd event then event_ok event /\ has (fd_events c) event = false /\
      io_heap s' = <[a := added me event cb c]> (io_heap s)
    else io_heap s' = io_heap s.
Proof.
  intros Hwf Ha. pose proof (io_wf_ctx s a c Hwf Ha) as Hc. unfold add_undefined, add_locked.
  destruct (has (fd_events c) event) eqn:Hh; cbn [orb]; [exists s; mstep (the_ctx_run s a c Ha); by rewrite Hh|].
  assert (Hstart : forall (m : M (IOManager K) Z),
    (c ← the_ctx a; CXK_ASSERT (negb (has (fd_events c) event)) ;; m) s = m s).
  { intros m. mstep (the_ctx_run s a c Ha). by rewrite Hh. }
  mstep (the_ctx_run s a c Ha). rewrite Hh. cbn [negb CXK_ASSERT]. rewrite (bind_Ret _ _ s tt s) by done.
  cbv zeta. rewrite ctl_bind. fold (addition c). fold (accepts s (addition c) fd (Z.lor (Z.lor EPOLLET (fd_events c)) event) a).
  fold (adds s a c fd event). clear Hstart. set (s1 := told s _ _ _ _). assert (W1 : io_wf s1) by by apply told_wf.
  destruct (adds s a c fd event); cbn [negb andb]; [|by exists s1].
  rewrite bind_modify. set (s2 := add_count 1 s1).
  mstep (upd_ctx_run s2 a c (with_events (Z.lor (fd_events c) event)) Ha). set (s3 := set_heap _ s2).
  pose proof (event_okP event) as Hev. destruct (event_okb event); cbn [negb orb].
  2:{ assert (getcontext event c = Crash) as ->; [|by eexists].
      unfold getcontext. destruct (Z.eqb_spec event READ) as [->|]; [by destruct Hev; left|].
      destruct (Z.eqb_spec event WRITE) as [->|]; [by destruct Hev; right|done]. }
  destruct (added_ok me event cb c Hev Hc Hh) as (A1 & A2 & A3 & _).
  pose proof (ctx_slot event c Hev Hc) as Hsl. rewrite Hh in Hsl.
  rewrite (getcontext_slot event _ Hev). unfold lift. rewrite Hsl.
  rewrite (bind_Ret _ _ s3 no_event s3) by done. cbn [ec_scheduler ec_cb ec_fiber no_event].
  rewrite !bool_decide_eq_true_2 by done. cbn [CXK_ASSERT]. rewrite !(bind_Ret (mret tt) _ s3 tt s3) by done.
  assert (Ha3 : io_heap s3 !! a = Some (with_events (Z.lor (fd_events c) event) c))
    by (cbn; apply list_lookup_insert_eq; by eapply lookup_lt_Some).
  pose proof (upd_ctx_run s3 a _ (set_context event (wait_slot me cb)) Ha3) as Eu.
  assert (W : io_wf (set_heap (<[a := added me event cb c]> (io_heap s)) s3))
    by (eapply (io_wf_replace s1 _ a c (added me event cb c) 1); try done; lia).
  assert (Es : set_heap (<[a := set_context event (wait_slot me cb) (with_events (Z.lor (fd_events c) event) c)]> (io_heap s3)) s3
    = set_heap (<[a := added me event cb c]> (io_heap s)) s3) by (unfold set_heap; cbn; by rewrite list_insert_insert_eq).
  rewrite Es in Eu. destruct cb as [cb|]; cbn [wait_slot] in Eu; mstep Eu; [by eexists|].
  destruct (cl_exec me); cbn [negb]; by eexists.
Qed.

(** [idel]: an event of a context. *)
Definition handles s (first : bool) (events : Z) (a : nat) (c : FdContext) : bool :=
  let real := real_events first events in
  negb (Z.land (fd_events c) real =? NONE) &&
  accepts s (removal real c) (fd_fd c) (Z.lor EPOLLET (without (fd_events c) real)) a.
Lemma handle_context_run s first events a c :
  io_wf s -> io_heap s !! a = Some c ->
  if handles s first events a c && negb (can_fire_both c)
  then exists s', handle_event first (RContext events a) s = (Crash, s') else
  exists s', handle_event first (RContext events a) s = (Ret tt, s') /\ io_wf s' /\ m_fdContexts s' = m_fdContexts s /\
    if handles s first events a c then io_heap s' = <[a := mkFd (fd_fd c) no_event no_event 0]> (io_heap s) /\
      io_scheduled s' = io_scheduled s ++ tasks_of c
    else io_heap s' = io_heap s /\ io_scheduled s' = io_scheduled s.
Proof.
  intros Hwf Ha. unfold handle_event, handles, accepts, removal. cbv zeta.
  destruct (Z.land (fd_events c) _ =? NONE) eqn:Ez; cbn [negb andb]; [exists s; mstep (the_ctx_run s a c Ha); by rewrite Ez|].
  set (real := real_events first events) in *. set (op := if negb _ then _ else _). set (mk := Z.lor EPOLLET _).
  set (s1 := told s op (fd_fd c) mk a). assert (W1 : io_wf s1) by by apply told_wf.
  destruct (fst _ =? 0) eqn:Ea; cbn [andb].
  2:{ exists s1. mstep (the_ctx_run s a c Ha). fold real. rewrite Ez. fold op mk. rewrite ctl_bind, Ea. done. }
  destruct (can_fire_both c) eqn:Hcan; cbn [negb].
  - destruct (trigger_both_run s1 a c W1 Ha Hcan) as (R1 & R2 & R3 & R4 & R5 & R6). exists (fire_both a c s1).
    split; [|done]. mstep (the_ctx_run s a c Ha). fold real. rewrite Ez. fold op mk. by rewrite ctl_bind, Ea.
  - destruct (trigger_both_undefined s1 a c (mret tt) W1 Ha Hcan) as [s' E]. exists s'.
    mstep (the_ctx_run s a c Ha). fold real. rewrite Ez. fold op mk. rewrite ctl_bind, Ea. cbn [negb]. fold s1.
    clear -E. revert E. unfold mbind, M_bind. destruct (trigger_if a READ s1) as [[]]; try done.
    by destruct (trigger_if a WRITE _) as [[[]| | |]].
Qed.
Lemma schedule_cbs_run me cbs s :
  exists s', schedule_cbs me cbs s = (Ret tt, s') /\ io_heap s' = io_heap s /\ m_fdContexts s' = m_fdContexts s /\
    m_appendingEventCount s' = m_appendingEventCount s /\ io_kernel s' = io_kernel s /\
    io_scheduled s' = io_scheduled s ++ map (fun cb => (me, mkFT None (Some cb) (-1))) cbs.
Proof.
  revert s. induction cbs as [|cb cbs IH]; intros s; [exists s; by rewrite app_nil_r|].
  cbn [schedule_cbs schedule_on]. rewrite bind_modify.
  destruct (IH (push_task (me, mkFT None (Some cb) (-1)) s)) as (s' & E & E1 & E2 & E3 & E4 & E5).
  exists s'. split_and!; try done. rewrite E5. cbn. by rewrite <- app_assoc.
Qed.
End Invariant.

(** ** Threads *)

(** epoll as its manual page has it: the registered descriptors with their
    masks; adding one twice and changing an absent one fail. *)
Class EpollSpec (K : Type) `{Epoll K} := {
  interest : K -> gmap Z Z;
  ctl_law : forall k op fd mask ptr, 0 <= fd ->
    let '(rc, k') := epoll_ctl k op fd mask ptr in
    (rc = 0 \/ rc = -1 /\ interest k' = interest k) /\
    (rc = 0 -> op = EPOLL_CTL_ADD -> interest k !! fd = None /\ interest k' = <[fd := mask]> (interest k)) /\
    (rc = 0 -> op = EPOLL_CTL_MOD -> is_Some (interest k !! fd) /\ interest k' = <[fd := mask]> (interest k)) /\
    (rc = 0 -> op = EPOLL_CTL_DEL -> is_Some (interest k !! fd) /\ interest k' = delete fd (interest k))
}.

Section Threads.
Context {K : Type} `{Epoll K}.
Implicit Types s : IOManager K.

(** epoll reports contexts it was given. *)
Definition ready_ok s (r : Ready) : Prop := match r with RTickle => True | RContext _ a => is_Some (io_heap s !! a) end.
Inductive starts s : IoCall -> Prop :=
| starts_add me fd events cb : starts s (addEvent me fd events cb)
| starts_del fd events : starts s (delEvent fd events)
| starts_cancel fd events : starts s (cancelEvent fd events)
| starts_cancelAll fd : starts s (cancelAll fd)
| starts_idel me cbs rs : Forall (ready_ok s) rs -> starts s (Idel me cbs rs).
(** A thread calls the manager; a thread does the next section of its call. *)
Inductive io_reachable (k : K) : IOManager K -> list IoCall -> Prop :=
| io_start : io_reachable k (new_IOManager k) []
| io_call s ts o : io_reachable k s ts -> starts s o -> io_reachable k s (ts ++ [o])
| io_next s ts i o o' s' : io_reachable k s ts -> ts !! i = Some o -> io_section o s = (Ret o', s') ->
    io_reachable k s' (<[i := o']> ts).

(** Where a section is undefined: a negative descriptor (read in front of the
    vector), or one of 0 and 1 behind a vector of 2^31 contexts; an assertion of
    [addEvent]; an event that is neither READ nor WRITE; a waiter that has no
    scheduler. *)
Definition io_undefined s (o : IoCall) : bool :=
  match o with
  | AddFind _ fd _ _ | DelFind fd _ | CancelFind fd _ | CancelAllFind fd => find_undefined s fd
  | AddGrow _ fd _ _ => fd <=? 1
  | AddLocked me fd events cb a =>
      match io_heap s !! a with Some c => add_undefined s me a c fd events cb | None => false end
  | DelLocked fd events a =>
      match io_heap s !! a with Some c => removes s a c fd events && negb (event_okb events) | None => false end
  | CancelLocked fd events a =>
      match io_heap s !! a with
      | Some c => removes s a c fd events && negb (event_okb events && can_fire events c)
      | None => false
      end
  | CancelAllLocked fd a =>
      match io_heap s !! a with Some c => drains s a c fd && negb (can_fire_both c) | None => false end
  | IdelEvents first (RContext events a :: _) =>
      match io_heap s !! a with Some c => handles s first events a c && negb (can_fire_both c) | None => false end
  | _ => false
  end.
(** The addresses a call keeps are those of contexts. *)
Definition call_ok s (o : IoCall) : Prop :=
  match o with
  | AddLocked _ fd _ _ a | DelLocked fd _ a | CancelLocked fd _ a | CancelAllLocked fd a =>
      exists c, io_heap s !! a = Some c /\ fd_fd c = fd
  | Idel _ _ rs | IdelEvents _ rs => Forall (ready_ok s) rs
  | _ => True
  end.
(** Contexts stay where they are, for their descriptors. *)
Definition heap_keeps s s' : Prop :=
  forall a c, io_heap s !! a = Some c -> exists c', io_heap s' !! a = Some c' /\ fd_fd c' = fd_fd c.
Lemma heap_keeps_same s s' : io_heap s' = io_heap s -> heap_keeps s s'.
Proof. intros E a c Ha. exists c. by rewrite E. Qed.
Lemma heap_keeps_insert s s' a c c' :
  io_heap s !! a = Some c -> fd_fd c' = fd_fd c -> io_heap s' = <[a := c']> (io_heap s) -> heap_keeps s s'.
Proof.
  intros Ha Hf E b d Hb. rewrite E. destruct (decide (b = a)) as [->|Hne].
  - exists c'. rewrite list_lookup_insert_eq by (by eapply lookup_lt_Some). split; [done|congruence].
  - exists d. by rewrite list_lookup_insert_ne.
Qed.
Lemma heap_keeps_app s s' l : io_heap s' = io_heap s ++ l -> heap_keeps s s'.
Proof. intros E a c Ha. exists c. rewrite E. split; [by apply lookup_app_l_Some|done]. Qed.
Lemma heap_keeps_trans s1 s2 s3 : heap_keeps s1 s2 -> heap_keeps s2 s3 -> heap_keeps s1 s3.
Proof. intros H1 H2 a c Ha. destruct (H1 a c Ha) as (c2 & Hc2 & E2). destruct (H2 a c2 Hc2) as (c3 & Hc3 & E3). exists c3. split; [done|congruence]. Qed.
Lemma call_ok_keeps s s' o : heap_keeps s s' -> call_ok s o -> call_ok s' o.
Proof.
  intros Hk. assert (Hr : forall rs, Forall (ready_ok s) rs -> Forall (ready_ok s') rs).
  { intros rs Hrs. eapply list.Forall_impl; [exact Hrs|]. intros [|e a]; [done|]. intros [c Hc].
    destruct (Hk a c Hc) as (c' & Hc' & _). by exists c'. }
  destruct o; cbn; auto; intros (c & Hc & Hf); destruct (Hk _ c Hc) as (c' & Hc' & Hf'); exists c'; (split; [done|congruence]).
Qed.
Lemma starts_ok s o : starts s o -> call_ok s o.
Proof. by destruct 1. Qed.

Lemma find_section s fd (f : option nat -> IoCall) :
  io_wf s -> (forall a c, io_heap s !! a = Some c -> fd_fd c = fd -> call_ok s (f (Some a))) -> call_ok s (f None) ->
  if find_undefined s fd then exists s', (p ← find_context fd; mret (f p)) s = (Crash, s') else
  exists o' s', (p ← find_context fd; mret (f p)) s = (Ret o', s') /\ io_wf s' /\ heap_keeps s s' /\ call_ok s' o'.
Proof.
  intros Hwf Hf Hn. pose proof (find_context_run s fd) as Hfind. destruct (find_undefined s fd).
  - exists s. by mstep Hfind.
  - destruct Hfind as (p & E & Hp). exists (f p), s. mstep E. split_and!; [done..|by apply heap_keeps_same|].
    destruct p as [a|]; [|done]. destruct Hp as [Hfd Hv]. destruct (wf_vector s Hwf _ _ Hv) as (c & Hc & Ec).
    apply (Hf a c Hc). lia.
Qed.
Lemma section_run s o :
  io_wf s -> call_ok s o ->
  if io_undefined s o then exists s', io_section o s = (Crash, s') else
  exists o' s', io_section o s = (Ret o', s') /\ io_wf s' /\ heap_keeps s s' /\ call_ok s' o'.
Proof.
  intros Hwf Hok. destruct o as [me fd ev cb|me fd ev cb|me fd ev cb a|fd ev|fd ev a|fd ev|fd ev a|fd|fd a|me cbs rs|first rs| | |];
    cbn [io_undefined io_section]; cbn [call_ok] in Hok.
  - apply (find_section s fd (fun p => match p with Some a => AddLocked me fd ev cb a | None => AddGrow me fd ev cb end)); eauto.
    intros a c Hc Hf. by exists c.
  - destruct (Z.leb_spec fd 1) as [Hle|Hgt].
    + destruct (add_grow_undefined s fd Hwf Hle) as [s' E]. exists s'. by mstep E.
    + destruct (add_grow_run s fd Hwf ltac:(lia)) as (a & s' & E & W & Hv & _ & _ & _ & Hh). mstep E. eexists _, s'.
      split; [reflexivity|]. split_and!; [done|by eapply heap_keeps_app|].
      destruct (wf_vector s' W _ _ Hv) as (c & Hc & Ec). exists c. split; [done|lia].
  - destruct Hok as (c & Ha & Hf). rewrite Ha. pose proof (add_locked_run s me a c fd ev cb Hwf Ha) as Hadd.
    destruct (add_undefined s me a c fd ev cb); [destruct Hadd as [s' E]; exists s'; by mstep E|].
    destruct Hadd as (s' & E & W & _ & _ & _ & Hh). mstep E. eexists _, s'. split; [reflexivity|]. split_and!; [done| |done].
    destruct (adds s a c fd ev); [|by apply heap_keeps_same]. destruct Hh as (Hev & Hno & Hh).
    apply (heap_keeps_insert s s' a c (added me ev cb c) Ha); [|done]. by apply added_ok; [..|apply (io_wf_ctx s a)|].
  - apply (find_section s fd (found (DelLocked fd ev))); [done| |done]. intros a c Hc Hf. by exists c.
  - destruct Hok as (c & Ha & Hf). rewrite Ha. pose proof (event_okP ev) as Hev.
    destruct (removes s a c fd ev && negb (event_okb ev)) eqn:Hu.
    + apply andb_true_iff in Hu as [Hr Hno]. destruct (event_okb ev); [done|].
      destruct (del_locked_undefined s a c fd ev Ha Hr Hev) as [s' E]. exists s'. by mstep E.
    + assert (Hcase : removes s a c fd ev = false \/ event_ok ev).
      { destruct (removes s a c fd ev); [right|by left]. by destruct (event_okb ev). }
      destruct Hcase as [Hr|Hev'].
      * destruct (remove_interest_run s a c fd ev Ha) as (s1 & E & H1 & V1 & N1 & S1). rewrite Hr in E.
        assert (E' : del_locked a fd ev s = (Ret false, s1)) by (unfold del_locked; by mstep E). mstep E'.
        eexists _, s1. split; [reflexivity|]. split_and!; [by apply (io_wf_frame s)|by apply heap_keeps_same|done].
      * destruct (del_locked_run s a c fd ev Hwf Ha Hev') as (s' & E & W & _ & _ & Hh). mstep E. eexists _, s'.
        split; [reflexivity|]. split_and!; [done| |done]. destruct (removes s a c fd ev); [|by apply heap_keeps_same].
        apply (heap_keeps_insert s s' a c (fired ev c) Ha); [|done]. by apply fired_ok; [|apply (io_wf_ctx s a)].
  - apply (find_section s fd (found (CancelLocked fd ev))); [done| |done]. intros a c Hc Hf. by exists c.
  - destruct Hok as (c & Ha & Hf). rewrite Ha. pose proof (event_okP ev) as Hev.
    destruct (removes s a c fd ev && negb (event_okb ev && can_fire ev c)) eqn:Hu.
    + apply andb_true_iff in Hu as [Hr Hno].
      destruct (cancel_locked_undefined s a c fd ev Ha Hr) as [s' E]; [|exists s'; by mstep E].
      destruct (event_okb ev); [right; by destruct (can_fire ev c)|by left].
    + destruct (removes s a c fd ev) eqn:Hr.
      * cbn [andb] in Hu. apply negb_false_iff, andb_true_iff in Hu as [Hb Hcan]. rewrite Hb in Hev.
        destruct (cancel_locked_run s a c fd ev Hwf Ha Hev Hcan) as (s' & E & W & _ & Hh). rewrite Hr in E, Hh. mstep E. eexists _, s'.
        split; [reflexivity|]. split_and!; [done| |done]. destruct Hh as (x & _ & Hh & _).
        apply (heap_keeps_insert s s' a c (fired ev c) Ha); [|done]. by apply fired_ok; [|apply (io_wf_ctx s a)].
      * destruct (remove_interest_run s a c fd ev Ha) as (s1 & E & H1 & V1 & N1 & S1). rewrite Hr in E.
        assert (E' : cancel_locked a fd ev s = (Ret false, s1)) by (unfold cancel_locked; by mstep E). mstep E'.
        eexists _, s1. split; [reflexivity|]. split_and!; [by apply (io_wf_frame s)|by apply heap_keeps_same|done].
  - apply (find_section s fd (found (CancelAllLocked fd))); [done| |done]. intros a c Hc Hf. by exists c.
  - destruct Hok as (c & Ha & Hf). rewrite Ha. pose proof (cancelAll_locked_run s a c fd Hwf Ha) as Hall.
    destruct (drains s a c fd && _); [destruct Hall as [s' E]; exists s'; by mstep E|].
    destruct Hall as (s' & E & W & _ & Hh). mstep E. eexists _, s'. split; [reflexivity|]. split_and!; [done| |done].
    destruct (drains s a c fd); [|by apply heap_keeps_same; destruct Hh].
    by apply (heap_keeps_insert s s' a c (mkFd (fd_fd c) no_event no_event 0) Ha); [|destruct Hh].
  - destruct (schedule_cbs_run me cbs s) as (s1 & E & E1 & E2 & E3 & _). mstep E. eexists _, s1. split; [reflexivity|].
    assert (Hk : heap_keeps s s1) by by apply heap_keeps_same. split_and!; [by apply (io_wf_frame s)|done|].
    by apply (call_ok_keeps s s1 (IdelEvents true rs)).
  - destruct rs as [|r rs]; [exists IdelReturns, s; split_and!; try done; by apply heap_keeps_same|].
    apply list.Forall_cons in Hok as [Hr Hrs]. destruct r as [|events a].
    + eexists _, s. split; [reflexivity|]. split_and!; [done|by apply heap_keeps_same|done].
    + destruct Hr as [c Ha]. rewrite Ha. pose proof (handle_context_run s first events a c Hwf Ha) as Hh.
      destruct (handles s first events a c && _); [destruct Hh as [s' E]; exists s'; by mstep E|].
      destruct Hh as (s' & E & W & _ & Hh). mstep E. eexists _, s'. split; [reflexivity|].
      assert (Hk : heap_keeps s s').
      { destruct (handles s first events a c); [|by apply heap_keeps_same; destruct Hh].
        by apply (heap_keeps_insert s s' a c (mkFd (fd_fd c) no_event no_event 0) Ha); [|destruct Hh]. }
      split_and!; [done|done|]. by apply (call_ok_keeps s s' (IdelEvents false rs)).
  - eexists _, s. split; [reflexivity|]. split_and!; [done|by apply heap_keeps_same|done].
  - eexists _, s. split; [reflexivity|]. split_and!; [done|by apply heap_keeps_same|done].
  - eexists _, s. split; [reflexivity|]. split_and!; [done|by apply heap_keeps_same|done].
Qed.

Lemma new_IOManager_wf (k : K) : io_wf (new_IOManager k).
Proof.
  replace (new_IOManager k) with (mkIO (map new_FdContext (seq 0 32)) (seq 0 32) 0 k [] 0) by reflexivity.
  split; cbn [io_heap m_appendingEventCount m_fdContexts].
  - apply list.Forall_forall. intros c Hin. apply list_elem_of_In, in_map_iff in Hin as (i & <- & _). by exists false, false.
  - by rewrite total_new.
  - intros i a Hi. apply lookup_seq in Hi as [-> Hi]. exists (new_FdContext i). split; [|done].
    by rewrite list_lookup_fmap, lookup_seq_lt by lia.
Qed.
Lemma io_reachable_ok k s ts : io_reachable k s ts -> io_wf s /\ Forall (call_ok s) ts.
Proof.
  induction 1 as [|s ts o _ [IH1 IH2] Ho|s ts i o o' s' _ [IH1 IH2] Hi E].
  - split; [apply new_IOManager_wf|constructor].
  - split; [done|]. apply Forall_app. split; [done|]. apply list.Forall_singleton. by apply starts_ok.
  - pose proof (section_run s o IH1) as Hs. rewrite list.Forall_forall in IH2.
    specialize (Hs (IH2 o (list_elem_of_lookup_2 _ _ _ Hi))). rewrite E in Hs.
    destruct (io_undefined s o); [by destruct Hs|]. destruct Hs as (o1 & s1 & [= <- <-] & W & Hk & Ho).
    split; [done|]. apply Forall_insert; [|done]. apply list.Forall_forall. intros x Hx. by apply (call_ok_keeps s), IH2.
Qed.

(** C5: Whatever epoll answers, and however the threads in [addEvent],
    [delEvent], [cancelEvent], [cancelAll] and [idel] take their turns at the
    locks, the manager stays consistent: a context's flags are exactly its slots
    that hold something to run, one function or one fiber;
    [m_appendingEventCount] is the number of set flags (as a [size_t]);
    [m_fdContexts] holds contexts of their descriptors.  The next section of
    every call returns, unless it is undefined ([io_undefined] says exactly when):
    a descriptor below 0, or below 2 behind a vector of 2^31 contexts; an
    assertion of [addEvent] (someone waits already, the fiber does not run); an
    event that is neither READ nor WRITE; a waiter without a scheduler to fire. *)
Theorem iomanager_safe k s ts :
  io_reachable k s ts ->
  Forall ctx_ok (io_heap s) /\ m_appendingEventCount s = u64 (total (io_heap s)) /\
  (forall i a, m_fdContexts s !! i = Some a -> exists c, io_heap s !! a = Some c /\ fd_fd c = Z.of_nat i) /\
  (forall i o, ts !! i = Some o ->
    if io_undefined s o then exists s', io_section o s = (Crash, s') else exists o' s', io_section o s = (Ret o', s')).
Proof.
  intros Hr. destruct (io_reachable_ok k s ts Hr) as [Hwf Hts]. pose proof Hwf as [? ? ?].
  split_and!; [done..|]. intros i o Ho. rewrite list.Forall_forall in Hts.
  pose proof (section_run s o Hwf (Hts o (list_elem_of_lookup_2 _ _ _ Ho))) as Hs.
  destruct (io_undefined s o); [done|]. destruct Hs as (o' & s' & E & _). by exists o', s'.
Qed.

(** C6: What the calls do with the waiters of a context, behind its lock.
    [addEvent] schedules nothing and, when epoll accepts, leaves the caller's
    function or fiber in the slot of the event, which is what [cancelEvent] takes
    out again.  [cancelEvent] returns true exactly when somebody waits and epoll
    accepts; then the waiter is scheduled, once, on its own scheduler.
    [delEvent] takes it out and schedules nothing; [cancelAll] takes and
    schedules both.  A call that returns false or -1 leaves every context and the
    scheduled tasks as they were. *)
Theorem event_operations s a c fd event :
  io_wf s -> io_heap s !! a = Some c -> event_ok event ->
  (can_fire event c = true -> exists s', io_section (CancelLocked fd event a) s = (Ret (Returns (removes s a c fd event)), s') /\
    if removes s a c fd event then exists x, waiter (slot event c) = Some x /\
      io_heap s' = <[a := fired event c]> (io_heap s) /\ io_scheduled s' = io_scheduled s ++ [x]
    else io_heap s' = io_heap s /\ io_scheduled s' = io_scheduled s) /\
  (exists s', io_section (DelLocked fd event a) s = (Ret (Returns (removes s a c fd event)), s') /\
    io_scheduled s' = io_scheduled s /\
    io_heap s' = if removes s a c fd event then <[a := fired event c]> (io_heap s) else io_heap s) /\
  (can_fire_both c = true -> exists s', io_section (CancelAllLocked fd a) s = (Ret (Returns (drains s a c fd)), s') /\
    if drains s a c fd then io_heap s' = <[a := mkFd (fd_fd c) no_event no_event 0]> (io_heap s) /\
      io_scheduled s' = io_scheduled s ++ tasks_of c
    else io_heap s' = io_heap s /\ io_scheduled s' = io_scheduled s) /\
  (forall me cb, has (fd_events c) event = false -> cb <> None \/ cl_exec me = true ->
    exists s', io_section (AddLocked me fd event cb a) s = (Ret (AddReturns (if adds s a c fd event then 0 else -1)), s') /\
      io_scheduled s' = io_scheduled s /\
      if adds s a c fd event then exists c', io_heap s' = <[a := c']> (io_heap s) /\
        slot event c' = wait_slot me cb /\ has (fd_events c') event = true /\ fired event c' = c
      else io_heap s' = io_heap s).
Proof.
  intros Hwf Ha Hev. pose proof (io_wf_ctx s a c Hwf Ha) as Hc. cbn [io_section]. refine (conj _ (conj _ (conj _ _))).
  - intros Hcan. destruct (cancel_locked_run s a c fd event Hwf Ha Hev Hcan) as (s' & E & _ & _ & Hh). mstep E. by eexists.
  - destruct (del_locked_run s a c fd event Hwf Ha Hev) as (s' & E & _ & _ & Hs & Hh). mstep E. by eexists.
  - intros Hcan. pose proof (cancelAll_locked_run s a c fd Hwf Ha) as Hall. rewrite Hcan, andb_false_r in Hall.
    destruct Hall as (s' & E & _ & _ & Hh). mstep E. by eexists.
  - intros me cb Hno Hcb. pose proof (add_locked_run s me a c fd event cb Hwf Ha) as Hadd.
    assert (Hu : add_undefined s me a c fd event cb = false).
    { unfold add_undefined. rewrite Hno. cbn [orb]. pose proof (event_okP event) as Hb. destruct (event_okb event); [|done].
      destruct cb; cbn [negb orb]; [by rewrite andb_false_r|]. destruct Hcb as [|Hx]; [done|]. rewrite Hx. by rewrite andb_false_r. }
    rewrite Hu in Hadd. destruct Hadd as (s' & E & _ & Hs & _ & _ & Hh). mstep E. eexists. split; [reflexivity|]. split; [done|].
    destruct (adds s a c fd event); [|done]. destruct Hh as (_ & _ & Hh). exists (added me event cb c). split; [done|].
    destruct (added_ok me event cb c Hev Hc Hno) as (_ & _ & _ & ? & ? & ?). done.
Qed.

(** C40: Two threads that grow the vector can lose contexts.  A thread that has
    found the vector too short for [fd'] grows it after another has made it
    longer, and so cuts it to [fd' * 1.5]: then whoever waits on a descriptor
    [fd] from there on still waits, in a context that the vector does not hold,
    and nothing but epoll will wake him: [cancelEvent], [delEvent] and
    [cancelAll] return false without a look at the context. *)
Theorem growing_loses_contexts k s ts i me fd' event' cb fd a c :
  io_reachable k s ts -> ts !! i = Some (AddGrow me fd' event' cb) -> 2 <= fd' < 2 ^ 30 ->
  Z.quot (fd' * 3) 2 <= fd -> m_fdContexts s !! Z.to_nat fd = Some a -> io_heap s !! a = Some c ->
  exists s' a', io_section (AddGrow me fd' event' cb) s = (Ret (AddLocked me fd' event' cb a'), s') /\
    io_reachable k s' (<[i := AddLocked me fd' event' cb a']> ts) /\
    io_heap s' !! a = Some c /\ (a ∉ m_fdContexts s') /\ io_scheduled s' = io_scheduled s /\
    forall event, io_section (cancelEvent fd event) s' = (Ret (Returns false), s') /\
      io_section (delEvent fd event) s' = (Ret (Returns false), s') /\ io_section (cancelAll fd) s' = (Ret (Returns false), s').
Proof.
  intros Hr Hi [Hlo Hhi] Hfd Hv Ha. destruct (io_reachable_ok k s ts Hr) as [Hwf _].
  destruct (add_grow_run s fd' Hwf Hlo) as (a' & s' & E & W & Hv' & Hlen & Hs & _ & Hh). exists s', a'.
  assert (Es : io_section (AddGrow me fd' event' cb) s = (Ret (AddLocked me fd' event' cb a'), s')) by (cbn [io_section]; by mstep E).
  assert (Hq : Z.of_nat (grown fd') = Z.quot (fd' * 3) 2) by (unfold grown; rewrite Z2Nat.id; [done|Z.to_euclidean_division_equations; lia]).
  assert (Hq' : Z.quot (fd' * 3) 2 < 2 ^ 31) by (Z.to_euclidean_division_equations; lia).
  assert (Hc' : io_heap s' !! a = Some c) by (rewrite Hh; by apply lookup_app_l_Some).
  split; [done|]. split; [by eapply io_next|]. split; [done|]. split.
  - intros [j Hj]%list_elem_of_lookup. destruct (wf_vector s' W j a Hj) as (c1 & Hc1 & E1).
    destruct (wf_vector s Hwf _ _ Hv) as (c2 & Hc2 & E2). assert (c1 = c) as -> by congruence. assert (c2 = c) as -> by congruence.
    apply lookup_lt_Some in Hj. rewrite Hlen in Hj. lia.
  - split; [done|]. assert (Hnone : find_context fd s' = (Ret None, s')).
    { unfold find_context. rewrite bind_get, Hlen, Hq. assert (i32 (Z.quot (fd' * 3) 2) = Z.quot (fd' * 3) 2) as ->
        by (apply wraps_id; split; [Z.to_euclidean_division_equations; lia|done]).
      by rewrite (proj2 (Z.ltb_ge _ _)) by done. }
    intros event. unfold cancelEvent, delEvent, cancelAll. cbn [io_section]. split_and!; by mstep Hnone.
Qed.

(** When one of the two events of a descriptor becomes ready while both are
    waited for, [idel] schedules both waiters, the other one spuriously, and
    clears the context, although it told epoll to keep the other event: the
    context and epoll now disagree, and every [addEvent] on the descriptor,
    taking it for unregistered, is refused by epoll and returns -1. *)
Theorem idel_wakes_both `{!EpollSpec K} s a c me fd event cb rs :
  io_wf s -> io_heap s !! a = Some c -> fd_fd c = fd -> 0 <= fd ->
  fd_events c = mask true true -> can_fire_both c = true -> event_ok event ->
  accepts s EPOLL_CTL_MOD fd (Z.lor EPOLLET WRITE) a = true ->
  exists s' s'', io_section (IdelEvents true (RContext EPOLLIN a :: rs)) s = (Ret (IdelEvents false rs), s') /\
    io_scheduled s' = io_scheduled s ++ tasks_if READ c ++ tasks_if WRITE c /\
    (exists x y, tasks_if READ c ++ tasks_if WRITE c = [x; y]) /\
    io_heap s' !! a = Some (mkFd fd no_event no_event 0) /\
    interest (io_kernel s') !! fd = Some (Z.lor EPOLLET WRITE) /\
    io_section (AddLocked me fd event cb a) s' = (Ret (AddReturns (-1)), s'').
Proof.
  intros Hwf Ha Hfdc Hfd Hev Hcan Hevent Hacc.
  pose proof (io_wf_ctx s a c Hwf Ha) as Hc. cbn [io_section].
  pose proof (ctl_law (io_kernel s) EPOLL_CTL_MOD fd (Z.lor EPOLLET WRITE) a ltac:(lia)) as Hlaw.
  set (s1 := told s EPOLL_CTL_MOD fd (Z.lor EPOLLET WRITE) a).
  assert (Hint : interest (io_kernel s1) = <[fd := Z.lor EPOLLET WRITE]> (interest (io_kernel s))).
  { unfold accepts in Hacc. unfold s1, told. cbn [set_kernel io_kernel]. destruct (epoll_ctl _ _ _ _ _) as [rc k]. cbn [fst snd] in *.
    apply Z.eqb_eq in Hacc. subst rc. destruct Hlaw as (_ & _ & Hmod & _). by destruct (Hmod eq_refl eq_refl). }
  assert (W1 : io_wf s1) by by apply told_wf.
  destruct (trigger_both_run s1 a c W1 Ha Hcan) as (R1 & R2 & R3 & R4 & R5 & R6).
  assert (Hempty : io_heap (fire_both a c s1) !! a = Some (mkFd fd no_event no_event 0))
    by (rewrite R3, Hfdc; apply list_lookup_insert_eq; by eapply lookup_lt_Some).
  assert (Hreg : interest (io_kernel (fire_both a c s1)) !! fd = Some (Z.lor EPOLLET WRITE))
    by (rewrite R5, Hint; apply lookup_insert_eq).
  pose proof (add_locked_run _ me a _ fd event cb R2 Hempty) as Hadd.
  assert (Hno : adds (fire_both a c s1) a (mkFd fd no_event no_event 0) fd event = false).
  { unfold adds, accepts.
    pose proof (ctl_law (io_kernel (fire_both a c s1)) EPOLL_CTL_ADD fd (Z.lor (Z.lor EPOLLET 0) event) a ltac:(lia)) as Hl.
    change ((fst (epoll_ctl (io_kernel (fire_both a c s1)) EPOLL_CTL_ADD fd (Z.lor (Z.lor EPOLLET 0) event) a) =? 0) = false).
    destruct (epoll_ctl (io_kernel (fire_both a c s1)) _ _ _ _) as [rc k2]. cbn [fst]. destruct Hl as (_ & Hl & _).
    destruct (Z.eqb_spec rc 0) as [->|]; [|done]. destruct (Hl eq_refl eq_refl) as [Hn _]. congruence. }
  unfold add_undefined in Hadd. rewrite Hno in Hadd. cbn [fd_events] in Hadd.
  assert (Hh0 : has 0 event = false) by (by destruct Hevent as [-> | ->]). rewrite Hh0 in Hadd. cbn [orb andb] in Hadd.
  destruct Hadd as (s2 & E2 & _). exists (fire_both a c s1), s2.
  assert (E1 : handle_event true (RContext EPOLLIN a) s = (Ret tt, fire_both a c s1)).
  { unfold handle_event. mstep (the_ctx_run s a c Ha). rewrite Hev.
    change (real_events true EPOLLIN) with READ. change (without (mask true true) READ) with WRITE.
    change (Z.land (mask true true) READ =? NONE) with false. rewrite Hfdc. cbv zeta.
    change (negb (WRITE =? 0)) with true. cbn iota. rewrite ctl_bind. fold s1. unfold accepts in Hacc. by rewrite Hacc. }
  split; [by mstep E1|]. split; [done|]. split; [|split; [done|split; [done|cbn [io_section]; by mstep E2]]].
  apply andb_true_iff in Hcan as [C1 C2]. unfold tasks_if. destruct (has_mask true true) as [H1 H2].
  pose proof (can_fire_waiter READ c (or_introl eq_refl) Hc C1) as X. pose proof (can_fire_waiter WRITE c (or_intror eq_refl) Hc C2) as Y.
  rewrite Hev in *. rewrite H1 in *. rewrite H2 in *. destruct (X eq_refl) as [x ->], (Y eq_refl) as [y ->]. by exists x, y.
Qed.
End Threads.

(** The wait of [idel]: with a timer due in less than 2^31 ms, or none, it is
    at most 3000 ms; from 2^31 to 2^32 - 1 ms the [int] it passes is negative, and
    [epoll_wait] waits for ever. *)
Theorem idel_timeout next :
  (0 <= next < 2 ^ 31 -> wait_timeout next = Z.min next 3000) /\
  (next = 2 ^ 64 - 1 -> wait_timeout next = 3000) /\
  (2 ^ 31 <= next < 2 ^ 32 -> wait_timeout next < 0).
Proof.
  unfold wait_timeout, MAX_TIMEOUT. split_and!; intros Hn.
  - rewrite (proj2 (Z.eqb_neq next _)) by lia. cbn [negb].
    assert (E : i32 next = next) by (apply wraps_id; lia). rewrite E.
    destruct (Z.ltb_spec 3000 next); [rewrite Z.min_r by lia; done | rewrite E; lia].
  - subst. done.
  - rewrite (proj2 (Z.eqb_neq next _)) by lia. cbn [negb].
    assert (E : i32 next = next - 2 ^ 32) by (unfold i32, wraps; zdiv_lia). rewrite E.
    destruct (Z.ltb_spec 3000 (next - 2 ^ 32)); [lia|]. rewrite E. lia.
Qed.
Lemma idel_timeout_witness : wait_timeout (30 * 24 * 3600 * 1000) < 0 /\ wait_timeout 10 = 10.
Proof.
  destruct (idel_timeout (30 * 24 * 3600 * 1000)) as (_ & _ & H). destruct (idel_timeout 10) as (H2 & _).
  split; [apply H; lia | rewrite H2; lia].
Defined.

(** ** A table of registrations as epoll *)
Definition table : Type := gmap Z Z.
Definition table_ctl (k : table) (op fd mask : Z) (ptr : nat) : Z * table :=
  match k !! fd with
  | None => if op =? EPOLL_CTL_ADD then (0, <[fd := mask]> k) else (-1, k)
  | Some _ => if op =? EPOLL_CTL_MOD then (0, <[fd := mask]> k)
              else if op =? EPOLL_CTL_DEL then (0, delete fd k) else (-1, k)
  end.
#[local] Instance table_epoll : Epoll table := {| epoll_ctl := table_ctl |}.
#[local] Program Instance table_spec : EpollSpec table := {| interest := fun k => k |}.
Next Obligation.
  intros k op fd mask ptr _. cbn. unfold table_ctl. destruct (k !! fd) eqn:E.
  - destruct (Z.eqb_spec op EPOLL_CTL_MOD) as [->|]; [|destruct (Z.eqb_spec op EPOLL_CTL_DEL) as [->|]];
      split_and!; intros; try done; try (by left); try (by right); eauto.
  - destruct (Z.eqb_spec op EPOLL_CTL_ADD) as [->|]; split_and!; intros; try done; try (by left); try (by right).
Qed.

Definition fiber_of (n : nat) : Caller := mkCaller (Some 0%nat) n true.
(** Turns of the threads: a new call, or the next section of a call. *)
Inductive Turn : Type := Calls (o : IoCall) | Does (i : nat).
Abbreviation io_world := (IOManager table * list IoCall)%type.
Definition turn (t : Turn) (w : io_world) : option io_world :=
  match t with
  | Calls o => match o with AddFind _ _ _ _ | DelFind _ _ | CancelFind _ _ | CancelAllFind _ => Some (w.1, w.2 ++ [o]) | _ => None end
  | Does i =>
      match w.2 !! i with
      | Some o => match io_section o w.1 with (Ret o', s') => Some (s', <[i := o']> w.2) | _ => None end
      | None => None
      end
  end.
Fixpoint turns (l : list Turn) (w : io_world) : option io_world :=
  match l with [] => Some w | t :: l => w' ← turn t w; turns l w' end.
Lemma turns_reachable l w w' :
  io_reachable (∅ : table) w.1 w.2 -> turns l w = Some w' -> io_reachable (∅ : table) w'.1 w'.2.
Proof.
  revert w. induction l as [|t l IH]; intros w Hr E; cbn [turns] in E; [by injection E as <-|].
  destruct (turn t w) as [w1|] eqn:Et; [|done]. cbn in E. apply (IH w1); [|done]. destruct t as [o|i]; cbn [turn] in Et.
  - destruct o; simplify_eq; cbn; apply io_call; try done; constructor.
  - destruct (w.2 !! i) as [o|] eqn:Ei; [|done]. destruct (io_section o w.1) as [[o'| | |] s'] eqn:Es; simplify_eq. by eapply io_next.
Qed.
Definition world_after (l : list Turn) : io_world := default (new_IOManager ∅, []) (turns l (new_IOManager ∅, [])).
Lemma world_after_reachable l : is_Some (turns l (new_IOManager ∅, [])) ->
  io_reachable (∅ : table) (world_after l).1 (world_after l).2.
Proof.
  intros [w E]. unfold world_after. rewrite E. cbn [default]. apply (turns_reachable l (new_IOManager ∅, [])); [constructor|done].
Qed.
(** A reader and a writer wait on descriptor 5; a third thread is about to
    cancel the writer, a fourth to wait for the reader's event. *)
Definition both_turns : list Turn :=
  [Calls (addEvent (fiber_of 8) 5 READ None); Does 0; Does 0; Calls (addEvent (fiber_of 9) 5 WRITE None); Does 1; Does 1;
   Calls (cancelEvent 5 WRITE); Does 2; Calls (addEvent (fiber_of 10) 5 READ None); Does 3].
Definition both_wait : IOManager table := (world_after both_turns).1.
Lemma both_wait_reachable : io_reachable (∅ : table) both_wait (world_after both_turns).2.
Proof. apply world_after_reachable. vm_compute. by eexists. Qed.
Lemma both_wait_wf : io_wf both_wait.
Proof. exact (proj1 (io_reachable_ok _ _ _ both_wait_reachable)). Qed.
Definition ctx_5 : FdContext := mkFd 5 (mkEC (Some 0%nat) (Some 8%nat) None) (mkEC (Some 0%nat) (Some 9%nat) None) 5.

Lemma iomanager_safe_witness :
  m_appendingEventCount both_wait = 2 /\
  (exists o s', io_section (CancelLocked 5 WRITE 5) both_wait = (Ret o, s')) /\
  exists s', io_section (AddLocked (fiber_of 10) 5 READ None 5) both_wait = (Crash, s').
Proof.
  destruct (iomanager_safe ∅ both_wait _ both_wait_reachable) as (_ & Hc & _ & Hr).
  split; [rewrite Hc; vm_compute; reflexivity|]. split.
  - apply (Hr 2%nat (CancelLocked 5 WRITE 5)). vm_compute. reflexivity.
  - apply (Hr 3%nat (AddLocked (fiber_of 10) 5 READ None 5)). vm_compute. reflexivity.
Defined.
Lemma event_operations_witness :
  exists s', io_section (CancelLocked 5 WRITE 5) both_wait = (Ret (Returns true), s') /\
    io_scheduled s' = [(0%nat, mkFT (Some 9%nat) None (-1))].
Proof.
  destruct (event_operations both_wait 5 ctx_5 5 WRITE both_wait_wf) as (Hc & _);
    [vm_compute; reflexivity | by right |].
  destruct (Hc ltac:(vm_compute; reflexivity)) as (s' & E & Hs). exists s'. split; [exact E|].
  change (removes both_wait 5 ctx_5 5 WRITE) with true in Hs. destruct Hs as (x & Hx & _ & Hs).
  vm_compute in Hx. injection Hx as <-. exact Hs.
Defined.
(** A thread finds the vector too short for 40; another one adds a reader of
    100; then the first one grows the vector, to 60. *)
Definition growing : list Turn :=
  [Calls (addEvent (fiber_of 8) 40 READ None); Does 0; Calls (addEvent (fiber_of 9) 100 READ None); Does 1; Does 1; Does 1].
Lemma growing_loses_contexts_witness :
  exists s' : IOManager table, io_heap s' !! 100%nat = Some (mkFd 100 (mkEC (Some 0%nat) (Some 9%nat) None) no_event READ) /\
    ~ (exists i, m_fdContexts s' !! i = Some 100%nat) /\
    io_section (cancelEvent 100 READ) s' = (Ret (Returns false), s').
Proof.
  assert (Hr : io_reachable (∅ : table) (world_after growing).1 (world_after growing).2)
    by (apply world_after_reachable; vm_compute; by eexists).
  destruct (growing_loses_contexts ∅ _ _ 0 (fiber_of 8) 40 READ None 100 100
    (mkFd 100 (mkEC (Some 0%nat) (Some 9%nat) None) no_event READ) Hr) as (s' & a' & _ & _ & Hh & Hn & _ & Hc).
  - vm_compute. reflexivity.
  - lia.
  - by vm_compute.
  - vm_compute. reflexivity.
  - vm_compute. reflexivity.
  - exists s'. split; [exact Hh|]. split; [intros [i Hi]; exact (Hn (list_elem_of_lookup_2 _ _ _ Hi))|exact (proj1 (Hc READ))].
Defined.
Lemma idel_wakes_both_witness :
  exists s' s'', io_section (IdelEvents true [RContext EPOLLIN 5]) both_wait = (Ret (IdelEvents false []), s') /\
    length (io_scheduled s') = 2%nat /\ io_section (AddLocked (fiber_of 9) 5 WRITE None 5) s' = (Ret (AddReturns (-1)), s'').
Proof.
  destruct (idel_wakes_both both_wait 5 ctx_5 (fiber_of 9) 5 WRITE None [] both_wait_wf) as (s' & s'' & E & Es & _ & _ & _ & Ea);
    [vm_compute; reflexivity | reflexivity | lia | reflexivity | vm_compute; reflexivity | by right | vm_compute; reflexivity |].
  exists s', s''. split_and!; [exact E | rewrite Es; vm_compute; reflexivity | exact Ea].
Defined.
