(* ===== verification/Hook.v ===== *)
(** * Hooked calls that wait (cxk/hook.cpp)

    [do_io], the body of read, write, accept and their variants, and
    [connect_with_timeout], over the I/O manager ([IOManager]) and the contexts
    of descriptors ([FdManager]).  A call is a record with a program counter;
    every region between two calls of other components is one step, and so is
    every section of such a call under one lock ([IOManager]); the
    regions of all calls, the expiry of timers, their callbacks and the events
    epoll reports interleave.  The results of the original functions come from
    outside. *)
From S2P Require Import Prelude Scheduler FdManager IOManager.

(** ** Sleeping: the milliseconds given to [addTimer], a [uint64_t] *)
Definition sleep_ms (seconds : Z) : Z := u32 (u32 seconds * 1000).
Definition usleep_ms (usec : Z) : Z := u32 usec / 1000.
(** [int timeout_ms = req->tv_sec * 1000 + rem->tv_nsec / 1000 / 1000]; [rem] may
    be null. *)
Definition nanosleep_ms (req : Z * Z) (rem : option (Z * Z)) : outcome Z :=
  ms ← chk_signed 64 (fst req * 1000);
  match rem with
  | None => Crash
  | Some (_, tv_nsec) => ms ← chk_signed 64 (ms + Z.quot (Z.quot tv_nsec 1000) 1000); Ret (u64 (i32 ms))
  end.

(** errno *)
Definition EINTR : Z := 4.
Definition EBADF : Z := 9.
Definition EAGAIN : Z := 11.
Definition ETIMEDOUT : Z := 110.
Definition EINPROGRESS : Z := 115.

(** ** Calls *)
Inductive Pc : Type :=
| Direct                       (* return fun(fd, ...) *)
| Try                          (* retry: fun(fd, ...), or connect_f *)
| AddTimer                     (* it would block *)
| AddEvent (timer : option nat)      (* addEvent: finds the context, *)
| GrowContexts (timer : option nat)  (* grows the vector, *)
| LockContext (timer : option nat) (a : nat)   (* and locks the context *)
| AddFailed (timer : option nat)
| Parked (timer : option nat)  (* Fiber::YieldToHold *)
| Resumed (timer : option nat)
| CheckInfo             (* if(tinfo->cancelled) *)
| GetError                     (* connect: getsockopt(SO_ERROR) *)
| CloseAll | CloseLocked (a : nat) (* cancelAll: finds the context, and locks it *)
| CloseDel | CloseF
| Done (n errno : Z).
(** [c_to] is the timeout, [c_cancelled] the field of the call's [timer_info];
    [c_entry], [c_last], [c_failed] and [c_addr] are not in the code: how the call
    began, the last result of the original function, whether addEvent failed, and
    the context in which it put the fiber. *)
Record Call := mkCall {
  c_connect : bool;
  c_fd : Z;
  c_event : Z;
  c_to : Z;
  c_scheduler : nat;
  c_fiber : nat;
  c_cancelled : Z;
  c_pc : Pc;
  c_entry : Pc;
  c_last : Z * Z;
  c_failed : bool;
  c_addr : nat
}.
Definition set_pc v c := mkCall (c_connect c) (c_fd c) (c_event c) (c_to c) (c_scheduler c) (c_fiber c) (c_cancelled c) v (c_entry c) (c_last c) (c_failed c) (c_addr c).
Definition set_cancelled v c := mkCall (c_connect c) (c_fd c) (c_event c) (c_to c) (c_scheduler c) (c_fiber c) v (c_pc c) (c_entry c) (c_last c) (c_failed c) (c_addr c).
Definition set_last v c := mkCall (c_connect c) (c_fd c) (c_event c) (c_to c) (c_scheduler c) (c_fiber c) (c_cancelled c) (c_pc c) (c_entry c) v (c_failed c) (c_addr c).
Definition set_failed c := mkCall (c_connect c) (c_fd c) (c_event c) (c_to c) (c_scheduler c) (c_fiber c) (c_cancelled c) (c_pc c) (c_entry c) (c_last c) true (c_addr c).

Definition set_addr v c := mkCall (c_connect c) (c_fd c) (c_event c) (c_to c) (c_scheduler c) (c_fiber c) (c_cancelled c) (c_pc c) (c_entry c) (c_last c) (c_failed c) v.

Record Hook (K F : Type) := mkHook {
  w_io : IOManager K;
  w_fds : FdManager F;
  w_calls : list Call;
  w_timers : gmap nat nat;   (* the live condition timers, with their calls *)
  w_expired : list nat;      (* callbacks listExpiredCb has collected, not run yet *)
  w_cancels : list (nat * option nat); (* callbacks before their cancelEvent, or with the context it has found *)
  w_next : nat;
  w_missed : list nat        (* not in the code: the calls whose callback has ended without waking them *)
}.
Arguments mkHook {K F}.
Arguments w_io {K F}.
Arguments w_fds {K F}.
Arguments w_calls {K F}.
Arguments w_timers {K F}.
Arguments w_expired {K F}.
Arguments w_cancels {K F}.
Arguments w_next {K F}.
Arguments w_missed {K F}.

Section Hook.
Context {K F : Type} `{Epoll K} `{FileSys F}.
Abbreviation World := (Hook K F).
Implicit Types w : World.

Definition on_io g w : World := mkHook (g (w_io w)) (w_fds w) (w_calls w) (w_timers w) (w_expired w) (w_cancels w) (w_next w) (w_missed w).
Definition on_fds g w : World := mkHook (w_io w) (g (w_fds w)) (w_calls w) (w_timers w) (w_expired w) (w_cancels w) (w_next w) (w_missed w).
Definition on_calls g w : World := mkHook (w_io w) (w_fds w) (g (w_calls w)) (w_timers w) (w_expired w) (w_cancels w) (w_next w) (w_missed w).
Definition on_wtimers g w : World := mkHook (w_io w) (w_fds w) (w_calls w) (g (w_timers w)) (w_expired w) (w_cancels w) (w_next w) (w_missed w).
Definition on_expired g w : World := mkHook (w_io w) (w_fds w) (w_calls w) (w_timers w) (g (w_expired w)) (w_cancels w) (w_next w) (w_missed w).
Definition on_cancels g w : World := mkHook (w_io w) (w_fds w) (w_calls w) (w_timers w) (w_expired w) (g (w_cancels w)) (w_next w) (w_missed w).
Definition on_missed g w : World := mkHook (w_io w) (w_fds w) (w_calls w) (w_timers w) (w_expired w) (w_cancels w) (w_next w) (g (w_missed w)).
(** Calls into the other components. *)
Definition with_io {A} (m : M (IOManager K) A) : M World A := fun w =>
  let '(r, s) := m (w_io w) in (r, on_io (fun _ => s) w).
Definition with_fds {A} (m : M (FdManager F) A) : M World A := fun w =>
  let '(r, s) := m (w_fds w) in (r, on_fds (fun _ => s) w).
Definition upd_call (i : nat) (g : Call -> Call) : M World unit := modify (on_calls (alter g i)).
Definition goto (i : nat) (pc : Pc) : M World unit := upd_call i (set_pc pc).
Definition cancel_timer (t : option nat) : M World unit :=
  match t with Some t => modify (on_wtimers (delete t)) | None => mret tt end.
(** [addConditionTimer], for the call [i]. *)
Definition add_timer (i : nat) : M World nat := fun w =>
  (Ret (w_next w), mkHook (w_io w) (w_fds w) (w_calls w) (<[w_next w := i]> (w_timers w)) (w_expired w) (w_cancels w) (S (w_next w)) (w_missed w)).

(** *** Up to the first call of the original function: where to go, and the
    timeout *)
Definition do_io (hook : bool) (fd timeout_so : Z) : M (FdManager F) (Pc * Z) :=
  if negb hook then mret (Direct, NO_TIMEOUT) else
  p ← get_ctx fd false;
  match p with
  | None => mret (Direct, NO_TIMEOUT)
  | Some a =>
      c ← the_fdctx a;
      if m_isClosed c then mret (Done (-1) EBADF, NO_TIMEOUT) else
      if negb (m_isSocket c) || m_userNoblock c then mret (Direct, NO_TIMEOUT)
      else mret (Try, getTimeOut timeout_so c)
  end.
Definition connect_with_timeout (hook : bool) (fd timeout_ms : Z) : M (FdManager F) (Pc * Z) :=
  if negb hook then mret (Direct, NO_TIMEOUT) else
  p ← get_ctx fd false;
  match p with
  | None => mret (Done (-1) EBADF, NO_TIMEOUT)
  | Some a =>
      c ← the_fdctx a;
      if m_isClosed c then mret (Done (-1) EBADF, NO_TIMEOUT) else
      if negb (m_isSocket c) || m_userNoblock c then mret (Direct, NO_TIMEOUT)
      else mret (Try, timeout_ms)
  end.
Definition hook_close (hook : bool) (fd : Z) : M (FdManager F) (Pc * Z) :=
  if negb hook then mret (CloseF, NO_TIMEOUT) else
  p ← get_ctx fd false;
  mret (match p with Some _ => CloseAll | None => CloseF end, NO_TIMEOUT).

(** *** One region of a call.  [n] and [e] are the result and errno of the
    original function, [error] what SO_ERROR says. *)
Definition may_wait (connect : bool) (n e : Z) : bool :=
  (n =? -1) && (e =? (if connect then EINPROGRESS else EAGAIN)).
Definition try_fun (i : nat) (c : Call) (n e : Z) : M World unit :=
  upd_call i (set_last (n, e)) ;;
  if negb (c_connect c) && (n =? -1) && (e =? EINTR) then mret tt
  else goto i (if may_wait (c_connect c) n e then AddTimer else Done n e).
Definition add_call_timer (i : nat) (c : Call) : M World unit :=
  if c_to c =? NO_TIMEOUT then goto i (AddEvent None)
  else t ← add_timer i; goto i (AddEvent (Some t)).
Definition me (c : Call) : Caller := mkCaller (Some (c_scheduler c)) (c_fiber c) true.
Definition find_call_event (i : nat) (c : Call) (t : option nat) : M World unit :=
  p ← with_io (find_context (c_fd c));
  goto i (match p with Some a => LockContext t a | None => GrowContexts t end).
Definition grow_call_event (i : nat) (c : Call) (t : option nat) : M World unit :=
  a ← with_io (add_grow (c_fd c)); goto i (LockContext t a).
Definition add_call_event (i : nat) (c : Call) (t : option nat) (a : nat) : M World unit :=
  rt ← with_io (add_locked (me c) a (c_fd c) (c_event c) None);
  if negb (rt =? 0) then upd_call i set_failed ;; goto i (AddFailed t)
  else upd_call i (set_addr a) ;; goto i (Parked t).
Definition add_failed (i : nat) (c : Call) (t : option nat) (e : Z) : M World unit :=
  cancel_timer t ;; goto i (if c_connect c then GetError else Done (-1) e).
Definition resumed (i : nat) (t : option nat) : M World unit := cancel_timer t ;; goto i CheckInfo.
Definition check_info (i : nat) (c : Call) : M World unit :=
  if negb (c_cancelled c =? 0) then goto i (Done (-1) (c_cancelled c))
  else goto i (if c_connect c then GetError else Try).
Definition get_error (i : nat) (n e error : Z) : M World unit :=
  goto i (if n =? -1 then Done (-1) e else if error =? 0 then Done 0 e else Done (-1) error).

Definition find_close (i : nat) (c : Call) : M World unit :=
  p ← with_io (find_context (c_fd c)); goto i (match p with Some a => CloseLocked a | None => CloseDel end).

(** The fiber runs again when its task is taken from the scheduler. *)
Definition task (c : Call) : nat * FiberAndThread := (c_scheduler c, mkFT (Some (c_fiber c)) None (-1)).
Fixpoint remove_first (x : nat * FiberAndThread) (l : list (nat * FiberAndThread)) : option (list (nat * FiberAndThread)) :=
  match l with
  | [] => None
  | y :: l => if decide (x = y) then Some l else cons y <$> remove_first x l
  end.
Definition take_task (c : Call) : M (IOManager K) bool := fun s =>
  match remove_first (task c) (io_scheduled s) with
  | Some l => (Ret true, mkIO (io_heap s) (m_fdContexts s) (m_appendingEventCount s) (io_kernel s) l (io_tickles s))
  | None => (Ret false, s)
  end.
Definition region (i : nat) (c : Call) (n e error : Z) : M World unit :=
  match c_pc c with
  | Direct => goto i (Done n e)
  | Try => try_fun i c n e
  | AddTimer => add_call_timer i c
  | AddEvent t => find_call_event i c t
  | GrowContexts t => grow_call_event i c t
  | LockContext t a => add_call_event i c t a
  | AddFailed t => add_failed i c t e
  | Parked t => b ← with_io (take_task c); if (b : bool) then goto i (Resumed t) else mret tt
  | Resumed t => resumed i t
  | CheckInfo => check_info i c
  | GetError => get_error i n e error
  | CloseAll => find_close i c
  | CloseLocked a => with_io (cancelAll_locked a (c_fd c)) ;; goto i CloseDel
  | CloseDel => with_fds (del (c_fd c)) ;; goto i CloseF
  | CloseF => n ← with_fds (sys (fun k => close_f k (c_fd c))); goto i (Done n e)
  | Done _ _ => mret tt
  end.

(** *** The callback of a condition timer: [tinfo] is alive until its call
    returns. *)
Definition finished (pc : Pc) : bool := match pc with Done _ _ => true | _ => false end.
Definition timer_callback (i : nat) : M World unit :=
  w ← get;
  match w_calls w !! i with
  | Some c =>
      if finished (c_pc c) || negb (c_cancelled c =? 0) then mret tt
      else upd_call i (set_cancelled ETIMEDOUT) ;; modify (on_cancels (fun l => l ++ [(i, None)]))
  | None => mret tt
  end.
(** Its [cancelEvent]: finds the context, and locks it. *)
Definition miss (i : nat) : M World unit := modify (on_missed (fun l => i :: l)).
Definition callback_cancel (i : nat) (found : option nat) : M World unit :=
  w ← get;
  match w_calls w !! i with
  | None => mret tt
  | Some c =>
      match found with
      | None =>
          p ← with_io (find_context (c_fd c));
          match p with Some a => modify (on_cancels (fun l => l ++ [(i, Some a)])) | None => miss i end
      | Some a =>
          with_io (cancel_locked a (c_fd c) (c_event c)) ;;
          w ← get;
          if bool_decide (task c ∈ io_scheduled (w_io w)) then mret tt else miss i
      end
  end.

(** ** Steps *)
Inductive Label : Type :=
| LIo (hook : bool) (fd : Z) (read : bool) (scd fiber : nat)
| LConnect (hook : bool) (fd timeout_ms : Z) (scd fiber : nat)
| LClose (hook : bool) (fd : Z) (scd fiber : nat)
| LRegion (i : nat) (n e error : Z)
| LExpire (t : nat)                        (* listExpiredCb takes the timer *)
| LCallback (j : nat)                      (* its callback begins to run *)
| LCancel (j : nat)                        (* and cancels the event, in two steps *)
| LReady (first : bool) (events : Z) (a : nat)   (* epoll reports a context *)
| LFds (o : FdOp).                         (* another call of FdManager.v *)

(** A fiber is in one call at a time. *)
Definition idle (f : nat) w : bool :=
  bool_decide (Forall (fun c => finished (c_pc c) = true \/ c_fiber c <> f) (w_calls w)).
Definition new_call (connect : bool) (fd event : Z) (scd fiber : nat) (m : M (FdManager F) (Pc * Z)) : M World unit :=
  w ← get;
  if idle fiber w then
    '(pc, to) ← with_fds m;
    modify (on_calls (fun l => l ++ [mkCall connect fd event to scd fiber 0 pc pc (0, 0) false 0]))
  else mret tt.
Definition SO_TIMEO (read : bool) : Z := if read then SO_RCVTIMEO else SO_SNDTIMEO.
Definition step (l : Label) : M World unit :=
  match l with
  | LIo hook fd read scd fiber =>
      new_call false fd (if read then READ else WRITE) scd fiber (do_io hook fd (SO_TIMEO read))
  | LConnect hook fd timeout_ms scd fiber => new_call true fd WRITE scd fiber (connect_with_timeout hook fd timeout_ms)
  | LClose hook fd scd fiber => new_call false fd NONE scd fiber (hook_close hook fd)
  | LRegion i n e error =>
      w ← get; match w_calls w !! i with Some c => region i c n e error | None => mret tt end
  | LExpire t =>
      w ← get;
      match w_timers w !! t with
      | Some i => modify (on_wtimers (delete t)) ;; modify (on_expired (fun l => l ++ [i]))
      | None => mret tt
      end
  | LCallback j =>
      w ← get;
      match w_expired w !! j with
      | Some i => modify (on_expired (delete j)) ;; timer_callback i
      | None => mret tt
      end
  | LCancel j =>
      w ← get;
      match w_cancels w !! j with
      | Some (i, found) => modify (on_cancels (delete j)) ;; callback_cancel i found
      | None => mret tt
      end
  | LReady first events a =>
      w ← get;
      if decide (is_Some (io_heap (w_io w) !! a)) then with_io (handle_event first (RContext events a)) else mret tt
  | LFds o => with_fds (fd_run o) ;; mret tt
  end.
Fixpoint run (ls : list Label) : M World unit :=
  match ls with [] => mret tt | l :: ls => step l ;; run ls end.

Definition new_Hook (k : K) (f : F) : World := mkHook (new_IOManager k) (new_FdManager f) [] ∅ [] [] 0 [].
End Hook.
