(* ===== verification/HookWaits.v ===== *)
(** * What is proved of hooked calls (cxk/hook.cpp)

    First how the operations of the I/O manager move waiters from the slots of
    descriptors to the scheduler's tasks; then the invariant of the world of
    [Hook] and its theorems. *)
From S2P Require Import Prelude Scheduler FdManager IOManager Hook.

Section Slots.
Context {K : Type} `{Epoll K}.
Implicit Types s : IOManager K.

(** Who waits for an event in the context at an address. *)
Definition slot_at s (a : nat) (event : Z) : option (nat * FiberAndThread) :=
  c ← io_heap s !! a; waiter (slot event c).
(** Every waiter has a scheduler. *)
Definition io_good s : Prop := io_wf s /\ Forall (fun c => can_fire_both c = true) (io_heap s).
Lemma io_good_can s a c event : io_good s -> io_heap s !! a = Some c -> event_ok event -> can_fire event c = true.
Proof.
  intros [_ Hg] Ha Hev. rewrite list.Forall_forall in Hg. specialize (Hg c (list_elem_of_lookup_2 _ _ _ Ha)).
  apply andb_true_iff in Hg as [? ?]. by destruct Hev as [-> | ->].
Qed.
Lemma io_good_both s a c : io_good s -> io_heap s !! a = Some c -> can_fire_both c = true.
Proof. intros Hg Ha. apply andb_true_iff. split; apply (io_good_can s a c); first [done|by left|by right]. Qed.
Lemma io_good_slot s a c event : io_good s -> io_heap s !! a = Some c -> event_ok event ->
  if has (fd_events c) event then is_Some (slot_at s a event) else slot_at s a event = None.
Proof.
  intros Hg Ha Hev. pose proof (ctx_slot event c Hev (io_wf_ctx s a c (proj1 Hg) Ha)) as Hsl. unfold slot_at. rewrite Ha. cbn.
  destruct (has (fd_events c) event) eqn:Hh; [|by rewrite Hsl].
  by apply can_fire_waiter; [|apply (io_wf_ctx s a c (proj1 Hg) Ha)|apply (io_good_can s a c)|].
Qed.

(** One waiter becomes a task. *)
Definition fired1 s s' : Prop :=
  exists a event x, event_ok event /\ slot_at s a event = Some x /\
    io_scheduled s' = io_scheduled s ++ [x] /\ slot_at s' a event = None /\
    forall a' event', event_ok event' -> (a', event') <> (a, event) -> slot_at s' a' event' = slot_at s a' event'.
Definition same_waits s s' : Prop :=
  io_scheduled s' = io_scheduled s /\ forall a event, event_ok event -> slot_at s' a event = slot_at s a event.
Inductive moves : IOManager K -> IOManager K -> Prop :=
| moves_same s s' : same_waits s s' -> moves s s'
| moves_fire s s' : fired1 s s' -> moves s s'
| moves_trans s1 s2 s3 : moves s1 s2 -> moves s2 s3 -> moves s1 s3.
(** What every section does, but the one that puts a fiber into a slot. *)
Definition io_moves s s' : Prop := io_good s' /\ moves s s' /\ heap_keeps s s'.

Lemma heap_same_waits s s' : io_heap s' = io_heap s -> io_scheduled s' = io_scheduled s -> same_waits s s'.
Proof. intros Hh Hs. split; [done|]. intros. unfold slot_at. by rewrite Hh. Qed.
Lemma moves_heap_eq s s' : io_heap s' = io_heap s -> io_scheduled s' = io_scheduled s -> moves s s'.
Proof. intros. apply moves_same. by apply heap_same_waits. Qed.
Lemma io_moves_same s s' : io_good s -> io_wf s' -> io_heap s' = io_heap s -> io_scheduled s' = io_scheduled s -> io_moves s s'.
Proof.
  intros [_ Hg] W Hh Hs. split; [split; [done|by rewrite Hh]|]. split; [by apply moves_heap_eq|by apply heap_keeps_same].
Qed.

Lemma slot_fired event event' c :
  event_ok event -> event_ok event' -> slot event' (fired event c) = if decide (event' = event) then no_event else slot event' c.
Proof. intros [-> | ->] [-> | ->]; done. Qed.
Lemma slot_at_insert s s' a c event a' event' :
  io_heap s !! a = Some c -> io_heap s' = <[a := fired event c]> (io_heap s) -> event_ok event -> event_ok event' ->
  slot_at s' a' event' = if decide ((a', event') = (a, event)) then None else slot_at s a' event'.
Proof.
  intros Ha Hh Hev Hev'. unfold slot_at. rewrite Hh. destruct (decide (a' = a)) as [->|Hne].
  - rewrite list_lookup_insert_eq by (by eapply lookup_lt_Some). cbn. rewrite slot_fired, Ha by done. cbn.
    destruct (decide (event' = event)) as [->|Hne']; [by rewrite decide_True|]. rewrite decide_False; [done|]. intros [=]. done.
  - rewrite list_lookup_insert_ne by done. rewrite decide_False; [done|]. intros [= ->]. done.
Qed.
Lemma fired_moves s s' a c event x :
  event_ok event -> io_heap s !! a = Some c -> waiter (slot event c) = Some x ->
  io_heap s' = <[a := fired event c]> (io_heap s) -> io_scheduled s' = io_scheduled s ++ [x] -> fired1 s s'.
Proof.
  intros Hev Ha Hx Hh Hs. exists a, event, x. split_and!; [done| |done| |].
  - unfold slot_at. by rewrite Ha.
  - rewrite (slot_at_insert s s' a c event) by done. by rewrite decide_True.
  - intros a' event' Hev' Hne. rewrite (slot_at_insert s s' a c event) by done. by rewrite decide_False.
Qed.
Lemma fire_if_moves s a event c : event_ok event -> io_wf s -> io_heap s !! a = Some c -> can_fire event c = true ->
  moves s (fire_if event a c s).
Proof.
  intros Hev Hwf Ha Hcan. destruct (trigger_if_run s a event c Hev Hwf Ha Hcan) as (_ & _ & Hh & _ & _ & Hs).
  unfold fired_if, tasks_if in Hh, Hs. destruct (has (fd_events c) event) eqn:Hhas.
  - destruct (can_fire_waiter event c Hev (io_wf_ctx s a c Hwf Ha) Hcan Hhas) as [x Hx].
    rewrite Hx in Hs. apply moves_fire. by eapply (fired_moves s _ a c event x).
  - rewrite app_nil_r in Hs. unfold fire_if. rewrite Hhas. by apply moves_heap_eq.
Qed.
(** A context that is emptied. *)
Lemma drained_moves s s' a c :
  io_good s -> io_wf s' -> io_heap s !! a = Some c -> io_heap s' = <[a := mkFd (fd_fd c) no_event no_event 0]> (io_heap s) ->
  io_scheduled s' = io_scheduled s ++ tasks_of c -> io_moves s s'.
Proof.
  intros Hg W Ha Hh Hs. pose proof (io_good_both s a c Hg Ha) as Hcan. destruct Hg as [Hwf Hg].
  split; [|split].
  - split; [done|]. rewrite Hh. by apply Forall_insert.
  - pose proof Hcan as [Hr Hw]%andb_true_iff.
    destruct (trigger_if_run s a READ c (or_introl eq_refl) Hwf Ha Hr) as (_ & W1 & H1 & _).
    destruct (trigger_both_run s a c Hwf Ha Hcan) as (_ & _ & H2 & _ & _ & S2).
    apply (moves_trans _ (fire_if READ a c s)); [by apply fire_if_moves; [left|..]|].
    apply (moves_trans _ (fire_both a c s)); [|apply moves_heap_eq; congruence].
    apply fire_if_moves; [by right|done| |].
    + rewrite H1. apply list_lookup_insert_eq. by eapply lookup_lt_Some.
    + destruct (after_read c (io_wf_ctx s a c Hwf Ha)) as [_ ->]. done.
  - by apply (heap_keeps_insert s s' a c (mkFd (fd_fd c) no_event no_event 0) Ha).
Qed.

(** The sections. *)
Lemma handle_event_moves s first events a :
  io_good s -> is_Some (io_heap s !! a) -> exists s', handle_event first (RContext events a) s = (Ret tt, s') /\ io_moves s s'.
Proof.
  intros Hg [c Ha]. pose proof (handle_context_run s first events a c (proj1 Hg) Ha) as Hr.
  rewrite (io_good_both s a c Hg Ha), andb_false_r in Hr. destruct Hr as (s' & E & W & _ & Hh). exists s'. split; [done|].
  destruct (handles s first events a c); destruct Hh as [Hh Hs]; [by apply (drained_moves s s' a c)|by apply io_moves_same].
Qed.
Lemma cancel_moves s a c fd event :
  io_good s -> io_heap s !! a = Some c -> event_ok event ->
  exists b s', cancel_locked a fd event s = (Ret b, s') /\ io_moves s s' /\
    (forall x, slot_at s a event = Some x ->
      accepts s (removal event c) fd (Z.lor EPOLLET (without (fd_events c) event)) a = true -> x ∈ io_scheduled s').
Proof.
  intros Hg Ha Hev. pose proof (io_good_can s a c event Hg Ha Hev) as Hcan. pose proof Hg as [Hwf Hall].
  destruct (cancel_locked_run s a c fd event Hwf Ha Hev Hcan) as (s' & E & W & _ & Hh). eexists _, s'. split; [exact E|].
  pose proof (io_good_slot s a c event Hg Ha Hev) as Hsl.
  destruct (removes s a c fd event) eqn:Hr.
  - destruct Hh as (x & Hx & Hh & Hs). split; [split; [|split]|].
    + split; [done|]. rewrite Hh. apply Forall_insert; [done|]. pose proof (io_good_both s a c Hg Ha) as [C1 C2]%andb_true_iff.
      pose proof (io_wf_ctx s a c Hwf Ha) as (r & w & Er & _). unfold can_fire_both, can_fire in *.
      assert (Hf : fd_events (fired event c) = without (mask r w) event) by (rewrite <- Er; by destruct Hev as [-> | ->]). rewrite Hf.
      rewrite Er in C1, C2. destruct (without_mask r w) as [W1 W2], (has_mask r w) as [M1 M2]. rewrite M1 in C1. rewrite M2 in C2.
      destruct Hev as [-> | ->]; rewrite ?W1, ?W2; cbn [slot fired set_context with_events fd_read fd_write Z.eqb READ WRITE Pos.eqb].
      * destruct (has_mask false w) as [-> ->]. by cbn.
      * destruct (has_mask r false) as [-> ->]. cbn [negb orb]. by rewrite andb_true_r.
    + apply moves_fire. by eapply (fired_moves s s' a c event x).
    + apply (heap_keeps_insert s s' a c (fired event c) Ha); [|done]. by apply fired_ok; [|apply (io_wf_ctx s a)].
    + intros y Hy _. unfold slot_at in Hy. rewrite Ha in Hy. cbn in Hy. rewrite Hs. apply elem_of_app. right.
      apply list_elem_of_singleton. congruence.
  - destruct Hh as [Hh Hs]. split; [by apply io_moves_same|]. intros x Hx Hacc. unfold removes in Hr. rewrite Hacc, andb_true_r in Hr.
    rewrite Hr in Hsl. congruence.
Qed.
Lemma cancelAll_moves s a c fd :
  io_good s -> io_heap s !! a = Some c -> exists b s', cancelAll_locked a fd s = (Ret b, s') /\ io_moves s s'.
Proof.
  intros Hg Ha. pose proof (cancelAll_locked_run s a c fd (proj1 Hg) Ha) as Hr.
  rewrite (io_good_both s a c Hg Ha), andb_false_r in Hr. destruct Hr as (s' & E & W & _ & Hh). eexists _, s'. split; [done|].
  destruct (drains s a c fd); destruct Hh as [Hh Hs]; [by apply (drained_moves s s' a c)|by apply io_moves_same].
Qed.

(** [addEvent] of a fiber: refused when somebody waits; otherwise the fiber is
    in the slot, or epoll failed and nothing changed. *)
Definition fiber_task (me : Caller) (sc : nat) : nat * FiberAndThread := (sc, mkFT (Some (cl_fiber me)) None (-1)).
Lemma waiter_added me sc event c :
  event_ok event -> cl_scheduler me = Some sc -> waiter (slot event (added me event None c)) = Some (fiber_task me sc).
Proof. intros Hev Hsc. unfold added, slot, set_context, wait_slot, waiter. rewrite Hsc. by destruct Hev as [-> | ->]. Qed.
Lemma slot_added me event event' cb c :
  event_ok event -> event_ok event' -> event' <> event -> slot event' (added me event cb c) = slot event' c.
Proof. intros [-> | ->] [-> | ->]; done. Qed.
Lemma can_fire_slot event c : is_Some (ec_scheduler (slot event c)) -> can_fire event c = true.
Proof. intros [sc E]. unfold can_fire. rewrite E. apply orb_true_r. Qed.
Lemma added_can me sc event c :
  event_ok event -> cl_scheduler me = Some sc -> ctx_ok c -> has (fd_events c) event = false -> can_fire_both c = true ->
  can_fire_both (added me event None c) = true.
Proof.
  intros Hev Hsc (r & w & E & _) Hh [C1 C2]%andb_true_iff. unfold can_fire_both. rewrite E in Hh.
  destruct (has_mask r w) as [M1 M2], (mask_lor r w) as [L1 L2]. unfold can_fire in C1, C2. rewrite E, M1 in C1. rewrite E, M2 in C2.
  destruct Hev as [-> | ->].
  - rewrite (can_fire_slot READ) by (unfold added; cbn; by rewrite Hsc). unfold can_fire, added. cbn [andb set_context with_events fd_events slot fd_write Z.eqb READ WRITE Pos.eqb].
    rewrite E, L1. destruct (has_mask true w) as [_ ->]. exact C2.
  - rewrite (can_fire_slot WRITE) by (unfold added; cbn; by rewrite Hsc). rewrite andb_true_r. unfold can_fire, added.
    cbn [set_context with_events fd_events slot fd_read Z.eqb READ WRITE Pos.eqb]. rewrite E, L2. destruct (has_mask r true) as [-> _]. exact C1.
Qed.
Lemma grow_moves s fd :
  io_good s ->
  if fd <=? 1 then exists s', add_grow fd s = (Crash, s') else
  exists a s' c, add_grow fd s = (Ret a, s') /\ io_moves s s' /\ io_heap s' !! a = Some c /\ fd_fd c = fd.
Proof.
  intros Hg. destruct (Z.leb_spec fd 1) as [Hle|Hgt]; [by apply add_grow_undefined; [apply Hg|]|].
  destruct (add_grow_run s fd (proj1 Hg) ltac:(lia)) as (a & s' & E & W & Hv & _ & Hs & _ & Hh).
  destruct (wf_vector s' W _ _ Hv) as (c & Hc & Ec). exists a, s', c. split; [done|]. split; [|split; [done|lia]]. split; [|split].
  - split; [done|]. rewrite Hh. apply Forall_app. split; [apply Hg|]. apply list.Forall_forall. intros d Hin.
    apply list_elem_of_In, in_map_iff in Hin as (i & <- & _). done.
  - apply moves_same. split; [done|]. intros a' event Hev. unfold slot_at. rewrite Hh.
    destruct (io_heap s !! a') as [d|] eqn:Ed; [by rewrite (lookup_app_l_Some _ _ _ _ Ed)|].
    rewrite lookup_app_r by (by apply lookup_ge_None).
    destruct (map new_FdContext _ !! _) as [d|] eqn:Em; [|done]. cbn.
    apply list_lookup_fmap_Some_1 in Em as (j & -> & _). by destruct Hev as [-> | ->].
  - by eapply heap_keeps_app.
Qed.
Lemma add_moves s me sc a c fd event :
  io_good s -> io_heap s !! a = Some c -> event_ok event -> cl_scheduler me = Some sc -> cl_exec me = true ->
  (exists x s', slot_at s a event = Some x /\ add_locked me a fd event None s = (Crash, s')) \/
  (exists rt s', slot_at s a event = None /\ add_locked me a fd event None s = (Ret rt, s') /\ io_good s' /\ heap_keeps s s' /\
    io_scheduled s' = io_scheduled s /\
    (forall a' event', event_ok event' -> (a', event') <> (a, event) -> slot_at s' a' event' = slot_at s a' event') /\
    slot_at s' a event = if rt =? 0 then Some (fiber_task me sc) else None).
Proof.
  intros Hg Ha Hev Hsc Hex. pose proof (io_good_slot s a c event Hg Ha Hev) as Hsl.
  pose proof (add_locked_run s me a c fd event None (proj1 Hg) Ha) as Hadd.
  pose proof (io_wf_ctx s a c (proj1 Hg) Ha) as Hc.
  unfold add_undefined in Hadd. rewrite Hex in Hadd. destruct (has (fd_events c) event) eqn:Hhas.
  - left. destruct Hsl as [x Hx]. cbn [orb] in Hadd. destruct Hadd as [s' E]. by exists x, s'.
  - right. assert (Hb : event_okb event = true) by (by destruct Hev as [-> | ->]). rewrite Hb in Hadd.
    cbn [negb orb] in Hadd. rewrite andb_false_r in Hadd. destruct Hadd as (s' & E & W & Hs & _ & _ & Hh).
    eexists _, s'. split; [done|]. split; [exact E|]. destruct (adds s a c fd event); cbn [Z.eqb Z.opp].
    + destruct Hh as (_ & _ & Hh). split; [split; [done|]|split; [|split; [done|split]]].
      * rewrite Hh. apply Forall_insert; [apply Hg|]. by apply (added_can me sc); [..|by apply (io_good_both s a)].
      * apply (heap_keeps_insert s s' a c (added me event None c) Ha); [|done]. by apply added_ok.
      * intros a' event' Hev' Hne. unfold slot_at. rewrite Hh. destruct (decide (a' = a)) as [->|Hn]; [|by rewrite list_lookup_insert_ne].
        rewrite list_lookup_insert_eq by (by eapply lookup_lt_Some). cbn. rewrite Ha. cbn.
        rewrite slot_added; [done..|]. intros ->. by apply Hne.
      * unfold slot_at. rewrite Hh, list_lookup_insert_eq by (by eapply lookup_lt_Some). cbn. by apply waiter_added.
    + destruct (io_moves_same s s' Hg W Hh Hs) as (G & _ & Hk). split_and!; try done.
      * intros a' event' _ _. unfold slot_at. by rewrite Hh.
      * unfold slot_at in *. by rewrite Hh.
Qed.
(** Finding a context changes nothing. *)
Lemma find_moves s fd : io_good s -> 0 <= fd ->
  exists p, find_context fd s = (Ret p, s) /\ forall a, p = Some a -> exists c, io_heap s !! a = Some c /\ fd_fd c = fd.
Proof.
  intros Hg Hfd. pose proof (find_context_run s fd) as Hf. unfold find_undefined in Hf. rewrite (proj2 (Z.ltb_ge fd 0)) in Hf by done.
  cbn [andb] in Hf. destruct Hf as (p & E & Hp). exists p. split; [done|]. intros a ->. destruct Hp as [_ Hv].
  destruct (wf_vector s (proj1 Hg) _ _ Hv) as (c & Hc & Ec). exists c. split; [done|lia].
Qed.
Lemma new_IOManager_good (k : K) : io_good (new_IOManager k).
Proof. split; [apply new_IOManager_wf|by repeat constructor]. Qed.
Lemma new_IOManager_slots (k : K) a event : slot_at (new_IOManager k) a event = None.
Proof.
  unfold slot_at. change (io_heap (new_IOManager k)) with (map new_FdContext (seq 0 32)).
  destruct (map new_FdContext _ !! _) as [c|] eqn:E; [|done]. apply list_lookup_fmap_Some_1 in E as (j & -> & _).
  unfold slot. cbn. by destruct (event =? READ).
Qed.
End Slots.

(** ** Calls *)
Definition parked (pc : Pc) : bool := match pc with Parked _ => true | _ => false end.
(** The regions after the first call of the original function. *)
Definition works (pc : Pc) : bool :=
  match pc with Direct | CloseAll | CloseLocked _ | CloseDel | CloseF | Done _ _ => false | _ => true end.
Definition pc_timer (pc : Pc) : option (option nat) :=
  match pc with AddEvent t | GrowContexts t | LockContext t _ | AddFailed t | Parked t | Resumed t => Some t | _ => None end.
Definition armed (pc : Pc) : bool :=
  match pc with AddEvent _ | GrowContexts _ | LockContext _ _ | Parked _ => true | _ => false end.
Definition close_early (pc : Pc) : bool := match pc with CloseAll | CloseLocked _ | CloseDel => true | _ => false end.
Definition same_call (c c' : Call) : Prop :=
  c_connect c' = c_connect c /\ c_fd c' = c_fd c /\ c_event c' = c_event c /\ c_to c' = c_to c /\
  c_scheduler c' = c_scheduler c /\ c_fiber c' = c_fiber c /\ c_entry c' = c_entry c.

(** What a finished call may have returned: the last result of the original
    function, a timeout, or a failure of addEvent (or, for connect, the socket's
    error). *)
Definition result_ok (c : Call) (n e : Z) : Prop :=
  (n, e) = c_last c /\ may_wait (c_connect c) n e = false /\ (c_connect c = false -> ~ (n = -1 /\ e = EINTR)) \/
  n = -1 /\ e = ETIMEDOUT /\ c_cancelled c = ETIMEDOUT \/
  (if c_connect c then may_wait true (fst (c_last c)) (snd (c_last c)) = true /\ (n = 0 \/ n = -1)
   else n = -1 /\ c_failed c = true).
Record call_ok (c : Call) : Prop := {
  co_entry : works (c_pc c) = true -> c_entry c = Try;
  co_direct : works (c_pc c) = false -> finished (c_pc c) = false -> c_entry c <> Try;
  co_range : c_entry c = Try -> 0 <= c_fd c /\ event_ok (c_event c);
  co_close : close_early (c_pc c) = true -> 0 <= c_fd c;
  co_cancelled : c_cancelled c = 0 \/ c_cancelled c = ETIMEDOUT /\ c_to c <> NO_TIMEOUT;
  co_last : c_connect c = true -> works (c_pc c) = true -> c_pc c <> Try -> may_wait true (fst (c_last c)) (snd (c_last c)) = true;
  co_geterror : c_pc c = GetError -> c_connect c = true;
  co_failed : forall t, c_pc c = AddFailed t -> c_failed c = true;
  co_done : forall n e, c_pc c = Done n e -> c_entry c = Try -> result_ok c n e
}.

(** Each parked fiber waits in the slot where it was put or is a task, once, and
    nobody else is in a slot or a task. *)
Record waits_ok {K : Type} (s : IOManager K) (calls : list Call) : Prop := {
  wo_slot : forall a event x, event_ok event -> slot_at s a event = Some x ->
    (x ∉ io_scheduled s) /\ exists i c, calls !! i = Some c /\ parked (c_pc c) = true /\
      c_addr c = a /\ c_event c = event /\ task c = x;
  wo_nodup : NoDup (io_scheduled s);
  wo_task : forall x, x ∈ io_scheduled s -> exists i c, calls !! i = Some c /\ parked (c_pc c) = true /\ task c = x;
  wo_parked : forall i c, calls !! i = Some c -> parked (c_pc c) = true ->
    slot_at s (c_addr c) (c_event c) = Some (task c) \/ task c ∈ io_scheduled s;
  wo_fiber : forall i j c d, calls !! i = Some c -> calls !! j = Some d -> finished (c_pc c) = false ->
    finished (c_pc d) = false -> c_fiber c = c_fiber d -> i = j
}.
(** The timers of the calls. *)
Record timers_ok (calls : list Call) (timers : gmap nat nat) (expired cancels : list nat) (next : nat) : Prop := {
  to_owner : forall i, (exists t, timers !! t = Some i) \/ i ∈ expired \/ i ∈ cancels ->
    exists c, calls !! i = Some c /\ c_entry c = Try /\ c_to c <> NO_TIMEOUT;
  to_fresh : forall t i, timers !! t = Some i -> (t < next)%nat;
  to_pc : forall i c t, calls !! i = Some c -> pc_timer (c_pc c) = Some (Some t) ->
    (t < next)%nat /\ forall k, timers !! t = Some k -> k = i;
  to_armed : forall i c, calls !! i = Some c -> armed (c_pc c) = true -> c_to c <> NO_TIMEOUT ->
    exists t, pc_timer (c_pc c) = Some (Some t) /\ (timers !! t = Some i \/ i ∈ expired \/ c_cancelled c <> 0)
}.

Section Calls.
Context {K : Type} `{Epoll K}.
Implicit Types (s : IOManager K) (calls : list Call).

Lemma parked_unfinished pc : parked pc = true -> finished pc = false.
Proof. by destruct pc. Qed.
Definition fibers_ok calls : Prop :=
  forall i j c d, calls !! i = Some c -> calls !! j = Some d -> finished (c_pc c) = false ->
    finished (c_pc d) = false -> c_fiber c = c_fiber d -> i = j.
Lemma fibers_upd calls i c c' :
  fibers_ok calls -> calls !! i = Some c -> c_fiber c' = c_fiber c ->
  (finished (c_pc c) = true -> finished (c_pc c') = true) -> fibers_ok (<[i := c']> calls).
Proof.
  intros W Hi Hf Hfin. pose proof (lookup_lt_Some _ _ _ Hi) as Hlt.
  assert (Hold : forall j d, <[i := c']> calls !! j = Some d -> finished (c_pc d) = false ->
    exists d0, calls !! j = Some d0 /\ finished (c_pc d0) = false /\ c_fiber d0 = c_fiber d).
  { intros j d Hj Hd. destruct (decide (j = i)) as [->|Hne].
    - rewrite list_lookup_insert_eq in Hj by done. injection Hj as <-. exists c. split_and!; [done| |done].
      destruct (finished (c_pc c)); [|done]. by rewrite Hfin in Hd.
    - rewrite list_lookup_insert_ne in Hj by done. by exists d. }
  intros j k d e Hj Hk Hd He Hfe.
  destruct (Hold j d Hj Hd) as (d0 & ? & ? & E5). destruct (Hold k e Hk He) as (e0 & ? & ? & E6).
  apply (W j k d0 e0); try done. congruence.
Qed.
(** A region of a call that is neither entered nor left by a wait. *)
Lemma waits_upd s calls i c c' :
  waits_ok s calls -> calls !! i = Some c -> same_call c c' -> c_addr c' = c_addr c -> parked (c_pc c') = parked (c_pc c) ->
  (finished (c_pc c) = true -> finished (c_pc c') = true) -> waits_ok s (<[i := c']> calls).
Proof.
  intros [W1 W2 W3 W4 W5] Hi (_ & _ & E2 & _ & E3 & E4 & _) E1 Hp Hfin. pose proof (lookup_lt_Some _ _ _ Hi) as Hlt.
  assert (Ht : task c' = task c) by (unfold task; congruence).
  assert (Hkeep : forall j d, calls !! j = Some d -> parked (c_pc d) = true -> exists d', <[i := c']> calls !! j = Some d' /\
    parked (c_pc d') = true /\ c_addr d' = c_addr d /\ c_event d' = c_event d /\ task d' = task d).
  { intros j d Hj Hd. destruct (decide (j = i)) as [->|Hne].
    - exists c'. rewrite list_lookup_insert_eq by done. assert (d = c) as -> by congruence.
      refine (conj _ (conj _ (conj _ (conj _ _)))); congruence.
    - exists d. by rewrite list_lookup_insert_ne. }
  split; [| done | | |].
  - intros a event x Hev Hx. destruct (W1 a event x Hev Hx) as (Hno & j & d & Hj & Hd & F1 & F2 & F3).
    split; [done|]. destruct (Hkeep j d Hj Hd) as (d' & ? & ? & ? & ? & ?). exists j, d'. split_and!; congruence.
  - intros x Hx. destruct (W3 x Hx) as (j & d & Hj & Hd & F3). destruct (Hkeep j d Hj Hd) as (d' & ? & ? & ? & ? & ?).
    exists j, d'. split_and!; congruence.
  - intros j d Hj Hd. destruct (decide (j = i)) as [->|Hne].
    + rewrite list_lookup_insert_eq in Hj by done. injection Hj as <-. rewrite E1, E2, Ht. apply (W4 i); [done|congruence].
    + rewrite list_lookup_insert_ne in Hj by done. by apply (W4 j).
  - by apply (fibers_upd calls i c c').
Qed.
(** Who holds a task. *)
Lemma task_inj s calls i j c d :
  waits_ok s calls -> calls !! i = Some c -> calls !! j = Some d -> parked (c_pc c) = true -> parked (c_pc d) = true ->
  task c = task d -> i = j.
Proof.
  intros W Hi Hj Hc Hd Ht. apply (wo_fiber s calls W i j c d); try done.
  - by apply parked_unfinished.
  - by apply parked_unfinished.
  - by injection Ht.
Qed.
Lemma waits_same s s' calls : same_waits s s' -> (forall i c, calls !! i = Some c -> parked (c_pc c) = true ->
  event_ok (c_event c)) -> waits_ok s calls -> waits_ok s' calls.
Proof.
  intros [Hs Hsl] Hr [W1 W2 W3 W4 W5]. split; rewrite ?Hs; try done.
  - intros a event x Hev. rewrite Hsl by done. by apply W1.
  - intros i c Hi Hc. rewrite Hsl by (by apply (Hr i)). by apply (W4 i).
Qed.
Lemma waits_fired s s' calls : fired1 s s' -> (forall i c, calls !! i = Some c -> parked (c_pc c) = true ->
  event_ok (c_event c)) -> waits_ok s calls -> waits_ok s' calls.
Proof.
  intros (a & event & x & Hev & Hx & Hs & Hnone & Hother) Hr W.
  pose proof W as [W1 W2 W3 W4 W5]. destruct (W1 a event x Hev Hx) as (Hno & i & c & Hi & Hc & Hcfd & Hcev & Ht).
  split; rewrite ?Hs.
  - intros a' event' y Hev' Hy. destruct (decide ((a', event') = (a, event))) as [[= -> ->]|Hne]; [congruence|].
    rewrite Hother in Hy by done. destruct (W1 a' event' y Hev' Hy) as (Hno' & j & d & Hj & Hd & Hdfd & Hdev & Htd).
    split; [|by exists j, d]. intros [Hin|Hin%list_elem_of_singleton]%elem_of_app; [done|]. subst y x.
    assert (i = j) as <- by by apply (task_inj s calls i j c d). by simplify_eq.
  - apply list.NoDup_app. split_and!; [done| |apply list.NoDup_singleton]. by intros y Hy ->%list_elem_of_singleton.
  - intros y [Hy|Hy%list_elem_of_singleton]%elem_of_app; [by apply W3|]. subst y. by exists i, c.
  - intros j d Hj Hd. destruct (W4 j d Hj Hd) as [Hsl|Hin]; [|right; apply elem_of_app; by left].
    destruct (decide ((c_addr d, c_event d) = (a, event))) as [[= Hdfd Hdev]|Hne].
    + right. apply elem_of_app. right. apply list_elem_of_singleton. rewrite Hdfd, Hdev in Hsl. congruence.
    + left. rewrite Hother; [done|by apply (Hr j)|done].
  - done.
Qed.
Lemma waits_moves s s' calls : moves s s' -> (forall i c, calls !! i = Some c -> parked (c_pc c) = true ->
  event_ok (c_event c)) -> waits_ok s calls -> waits_ok s' calls.
Proof. induction 1; intros Hr W; [by eapply waits_same|by eapply waits_fired|auto]. Qed.

(** Entering a wait, leaving it, a new call. *)
Lemma waits_busy s calls i c x :
  waits_ok s calls -> calls !! i = Some c -> finished (c_pc c) = false -> parked (c_pc c) = false ->
  (exists j d, calls !! j = Some d /\ parked (c_pc d) = true /\ task d = x) -> x <> task c.
Proof.
  intros W Hi Hf Hp (j & d & Hj & Hd & <-) Ht. assert (j = i) as ->.
  { apply (wo_fiber s calls W j i d c); try done; [by apply parked_unfinished|]. by injection Ht. }
  congruence.
Qed.
Lemma waits_enter s s' calls i c c' a :
  waits_ok s calls -> calls !! i = Some c -> same_call c c' -> c_addr c' = a -> finished (c_pc c) = false -> parked (c_pc c) = false ->
  parked (c_pc c') = true -> slot_at s a (c_event c) = None -> io_scheduled s' = io_scheduled s ->
  slot_at s' a (c_event c) = Some (task c) ->
  (forall a' event, event_ok event -> (a', event) <> (a, c_event c) -> slot_at s' a' event = slot_at s a' event) ->
  (forall j d, calls !! j = Some d -> parked (c_pc d) = true -> event_ok (c_event d)) ->
  waits_ok s' (<[i := c']> calls).
Proof.
  intros W Hi (_ & _ & E2 & _ & E3 & E4 & _) E1 Hf Hp Hp' Hnone Hs Hsome Hother Hr. pose proof W as [W1 W2 W3 W4 W5].
  pose proof (lookup_lt_Some _ _ _ Hi) as Hlt. assert (Ht : task c' = task c) by (unfold task; congruence).
  assert (Hkeep : forall j d, calls !! j = Some d -> parked (c_pc d) = true -> <[i := c']> calls !! j = Some d).
  { intros j d Hj Hd. rewrite list_lookup_insert_ne; [done|]. intros ->. congruence. }
  assert (Hnew : task c ∉ io_scheduled s) by (intros Hin; by apply (waits_busy s calls i c (task c) W Hi Hf Hp (W3 _ Hin))).
  split; rewrite ?Hs; [|done| | |].
  - intros a' event x Hev Hx. destruct (decide ((a', event) = (a, c_event c))) as [[= -> ->]|Hne].
    + assert (x = task c) as -> by congruence. split; [done|]. exists i, c'. rewrite list_lookup_insert_eq by done. done.
    + rewrite Hother in Hx by done. destruct (W1 a' event x Hev Hx) as (Hno & j & d & Hj & Hd & ?). split; [done|].
      exists j, d. split; [by apply Hkeep|done].
  - intros x Hx. destruct (W3 x Hx) as (j & d & Hj & Hd & ?). exists j, d. split; [by apply Hkeep|done].
  - intros j d Hj Hd. destruct (decide (j = i)) as [->|Hne].
    + rewrite list_lookup_insert_eq in Hj by done. injection Hj as <-. left. by rewrite E1, E2, Ht.
    + rewrite list_lookup_insert_ne in Hj by done. destruct (W4 j d Hj Hd) as [Hsl|Hin]; [left|by right].
      rewrite Hother; [done|by apply (Hr j)|]. intros [= F1 F2]. rewrite F1, F2 in Hsl. congruence.
  - apply (fibers_upd calls i c c'); [done|done|done|congruence].
Qed.
Lemma remove_first_spec x l l' : remove_first x l = Some l' -> l ≡ₚ x :: l'.
Proof.
  revert l'. induction l as [|y l IH]; intros l' E; [done|]. cbn in E.
  destruct (decide (x = y)) as [->|Hne]; [by injection E as ->|]. destruct (remove_first x l) as [l0|]; [|done].
  injection E as <-. rewrite (IH l0 eq_refl). by constructor.
Qed.
Lemma waits_taken s s' calls i c c' :
  waits_ok s calls -> calls !! i = Some c -> same_call c c' -> parked (c_pc c) = true -> parked (c_pc c') = false ->
  remove_first (task c) (io_scheduled s) = Some (io_scheduled s') -> io_heap s' = io_heap s ->
  waits_ok s' (<[i := c']> calls).
Proof.
  intros W Hi (_ & E1 & E2 & _ & E3 & E4 & _) Hp Hp' Hrm Hh. pose proof W as [W1 W2 W3 W4 W5].
  apply remove_first_spec in Hrm as Hperm. pose proof (lookup_lt_Some _ _ _ Hi) as Hlt.
  assert (Hin : forall x, x ∈ io_scheduled s <-> x = task c \/ x ∈ io_scheduled s')
    by (intros x; rewrite Hperm; apply elem_of_cons).
  rewrite Hperm in W2. apply list.NoDup_cons in W2 as [Hno W2].
  assert (Hsl : forall a event, slot_at s' a event = slot_at s a event) by (intros; unfold slot_at; by rewrite Hh).
  assert (Hkeep : forall j d, calls !! j = Some d -> parked (c_pc d) = true -> task d <> task c -> <[i := c']> calls !! j = Some d).
  { intros j d Hj Hd Ht. rewrite list_lookup_insert_ne; [done|]. intros ->. congruence. }
  split; [|done| | |].
  - intros a event x Hev Hx. rewrite Hsl in Hx. destruct (W1 a event x Hev Hx) as (Hx' & j & d & Hj & Hd & F1 & F2 & F3).
    rewrite Hin in Hx'. split; [tauto|]. exists j, d. split_and!; try done. apply Hkeep; [done..|]. intros Ht. apply Hx'. left. congruence.
  - intros x Hx. destruct (W3 x (proj2 (Hin x) (or_intror Hx))) as (j & d & Hj & Hd & F3). exists j, d. split_and!; try done.
    apply Hkeep; [done..|]. intros Ht. congruence.
  - intros j d Hj Hd. destruct (decide (j = i)) as [->|Hne].
    + rewrite list_lookup_insert_eq in Hj by done. congruence.
    + rewrite list_lookup_insert_ne in Hj by done. rewrite Hsl.
      destruct (W4 j d Hj Hd) as [|[Ht|]%Hin]; [by left| |by right].
      destruct Hne. by apply (task_inj s calls j i d c).
  - apply (fibers_upd calls i c c'); [done|done|done|]. intros Hf. by rewrite (parked_unfinished _ Hp) in Hf.
Qed.
Lemma waits_new s calls c :
  waits_ok s calls -> parked (c_pc c) = false ->
  Forall (fun d => finished (c_pc d) = true \/ c_fiber d <> c_fiber c) calls -> waits_ok s (calls ++ [c]).
Proof.
  intros [W1 W2 W3 W4 W5] Hp Hidle. rewrite list.Forall_forall in Hidle.
  assert (Hsplit : forall j d, (calls ++ [c]) !! j = Some d -> calls !! j = Some d \/ j = length calls /\ d = c).
  { intros j d [|[Hge Hj]]%lookup_app_Some; [by left|right]. apply list_lookup_singleton_Some in Hj as [? <-]. split; [lia|done]. }
  split; [|done| | |].
  - intros a event x Hev Hx. destruct (W1 a event x Hev Hx) as (Hno & j & d & Hj & ?). split; [done|].
    exists j, d. split; [by apply lookup_app_l_Some|done].
  - intros x Hx. destruct (W3 x Hx) as (j & d & Hj & ?). exists j, d. split; [by apply lookup_app_l_Some|done].
  - intros j d [Hj|[_ ->]]%Hsplit Hd; [by apply (W4 j)|congruence].
  - intros j k d e [Hj|[-> ->]]%Hsplit [Hk|[-> ->]]%Hsplit Hd He Hf; [by apply (W5 j k d e)| | |done].
    + apply list_elem_of_lookup_2, Hidle in Hj as [|]; congruence.
    + apply list_elem_of_lookup_2, Hidle in Hk as [|]; congruence.
Qed.

(** *** The timers *)
Lemma timers_upd calls timers expired cancels next i c c' :
  timers_ok calls timers expired cancels next -> calls !! i = Some c -> same_call c c' ->
  (forall t, pc_timer (c_pc c') = Some (Some t) -> pc_timer (c_pc c) = Some (Some t)) ->
  (armed (c_pc c') = true -> armed (c_pc c) = true /\ pc_timer (c_pc c') = pc_timer (c_pc c)) ->
  (c_cancelled c <> 0 -> c_cancelled c' <> 0) ->
  timers_ok (<[i := c']> calls) timers expired cancels next.
Proof.
  intros [T1 T2 T3 T4] Hi (_ & _ & _ & E1 & _ & _ & E2) Hpc Ha Hc. pose proof (lookup_lt_Some _ _ _ Hi) as Hlt. split.
  - intros k Hk. destruct (T1 k Hk) as (d & Hd & ? & ?). destruct (decide (k = i)) as [->|Hne].
    + exists c'. rewrite list_lookup_insert_eq by done. simplify_eq. by rewrite E1, E2.
    + exists d. by rewrite list_lookup_insert_ne.
  - done.
  - intros k d t Hk Ht. destruct (decide (k = i)) as [->|Hne].
    + rewrite list_lookup_insert_eq in Hk by done. injection Hk as <-. apply (T3 i c t Hi). by apply Hpc.
    + rewrite list_lookup_insert_ne in Hk by done. by apply (T3 k d).
  - intros k d Hk Hd Hto. destruct (decide (k = i)) as [->|Hne].
    + rewrite list_lookup_insert_eq in Hk by done. injection Hk as <-. destruct (Ha Hd) as [Hd' ->]. rewrite E1 in Hto.
      destruct (T4 i c Hi Hd' Hto) as (t & Ht & Hor). exists t. split; [done|]. destruct Hor as [|[|]]; auto.
    + rewrite list_lookup_insert_ne in Hk by done. by apply (T4 k).
Qed.
(** The timer of a call is cancelled when its region moves on. *)
Lemma timers_delete calls timers expired cancels next i c t :
  timers_ok calls timers expired cancels next -> calls !! i = Some c ->
  pc_timer (c_pc c) = Some (Some t) -> armed (c_pc c) = false -> timers_ok calls (delete t timers) expired cancels next.
Proof.
  intros [T1 T2 T3 T4] Hi Hpc Ha. split.
  - intros k [[t' Ht']|Hk]; apply T1; [|by right]. left. exists t'. by apply lookup_delete_Some in Ht' as [_ ?].
  - intros t' k [_ Hk]%lookup_delete_Some. by apply (T2 t' k).
  - intros k d t' Hk Hd. destruct (T3 k d t' Hk Hd) as [Hlt Hu]. split; [done|]. intros j [_ Hj]%lookup_delete_Some. by apply Hu.
  - intros k d Hk Hd Hto. destruct (T4 k d Hk Hd Hto) as (t' & Ht' & Hor). exists t'. split; [done|].
    destruct Hor as [Ht|Hor]; [|by right]. left. apply lookup_delete_Some. split; [|done]. intros <-.
    assert (k = i) as -> by by apply (T3 i c t Hi Hpc). congruence.
Qed.
Lemma timers_new calls timers expired cancels next c :
  timers_ok calls timers expired cancels next -> pc_timer (c_pc c) = None -> armed (c_pc c) = false ->
  timers_ok (calls ++ [c]) timers expired cancels next.
Proof.
  intros [T1 T2 T3 T4] Hpc Ha.
  assert (Hsplit : forall j d, (calls ++ [c]) !! j = Some d -> calls !! j = Some d \/ d = c).
  { intros j d [|[Hge Hj]]%lookup_app_Some; [by left|right]. by apply list_lookup_singleton_Some in Hj as [? <-]. }
  split.
  - intros k Hk. destruct (T1 k Hk) as (d & Hd & ?). exists d. split; [by apply lookup_app_l_Some|done].
  - done.
  - intros k d t [Hk| ->]%Hsplit Hd; [by apply (T3 k d)|congruence].
  - intros k d [Hk| ->]%Hsplit Hd; [by apply (T4 k d)|congruence].
Qed.
Lemma timers_add calls timers expired cancels next i c c' :
  timers_ok calls timers expired cancels next -> calls !! i = Some c -> same_call c c' ->
  c_entry c = Try -> c_to c <> NO_TIMEOUT -> pc_timer (c_pc c') = Some (Some next) -> 
  timers_ok (<[i := c']> calls) (<[next := i]> timers) expired cancels (S next).
Proof.
  intros [T1 T2 T3 T4] Hi (_ & _ & _ & E1 & _ & _ & E2) He Hto Hpc. pose proof (lookup_lt_Some _ _ _ Hi) as Hlt.
  assert (Hi' : <[i := c']> calls !! i = Some c') by (by apply list_lookup_insert_eq).
  assert (Hold : forall t j, timers !! t = Some j -> t <> next) by (intros t j Ht ->; apply T2 in Ht; lia).
  split.
  - intros k Hk. assert (Hk' : k = i \/ ((exists t, timers !! t = Some k) \/ k ∈ expired \/ k ∈ cancels)).
    { destruct Hk as [[t [[_ ?]|[_ Ht]]%lookup_insert_Some]|Hk]; [by left| |auto]. right. left. by exists t. }
    destruct (decide (k = i)) as [->|Hne]; [exists c'; split_and!; congruence|].
    destruct Hk' as [|Hk']; [done|]. destruct (T1 k Hk') as (d & Hd & ?). exists d. by rewrite list_lookup_insert_ne.
  - intros t j [[<- _]|[_ Ht]]%lookup_insert_Some; [lia|]. apply T2 in Ht. lia.
  - intros k d t Hk Ht. destruct (decide (k = i)) as [->|Hne].
    + rewrite Hi' in Hk. injection Hk as <-. assert (t = next) as -> by congruence. split; [lia|].
      intros j Hj. rewrite lookup_insert_eq in Hj. by injection Hj.
    + rewrite list_lookup_insert_ne in Hk by done. destruct (T3 k d t Hk Ht) as [Hl Hu]. split; [lia|].
      intros j [[? _]|[_ Hj]]%lookup_insert_Some; [lia|]. by apply Hu.
  - intros k d Hk Hd Hkto. destruct (decide (k = i)) as [->|Hne].
    + rewrite Hi' in Hk. injection Hk as <-. exists next. split; [done|]. left. apply lookup_insert_eq.
    + rewrite list_lookup_insert_ne in Hk by done. destruct (T4 k d Hk Hd Hkto) as (t & Ht & Hor). exists t. split; [done|].
      destruct Hor as [Hor|]; [|by right]. left. rewrite lookup_insert_ne; [done|]. intros <-. by apply Hold in Hor.
Qed.
Lemma timers_expire calls timers expired cancels next t i :
  timers_ok calls timers expired cancels next -> timers !! t = Some i ->
  timers_ok calls (delete t timers) (expired ++ [i]) cancels next.
Proof.
  intros [T1 T2 T3 T4] Ht.
  assert (Hin : forall k, k ∈ expired ++ [i] <-> k = i \/ k ∈ expired).
  { intros k. rewrite elem_of_app, list_elem_of_singleton. tauto. }
  split.
  - intros k Hk. apply T1. rewrite Hin in Hk. destruct Hk as [[t' Ht']|[[->|]|]]; [|by left; exists t|auto..].
    apply lookup_delete_Some in Ht' as [_ ?]. left. by exists t'.
  - intros t' k [_ Hk]%lookup_delete_Some. by apply (T2 t' k).
  - intros k d t' Hk Hd. destruct (T3 k d t' Hk Hd) as [Hlt Hu]. split; [done|]. intros j [_ Hj]%lookup_delete_Some. by apply Hu.
  - intros k d Hk Hd Hto. destruct (T4 k d Hk Hd Hto) as (t' & Ht' & Hor). exists t'. split; [done|]. rewrite Hin.
    destruct Hor as [Hor|[Hor|Hor]]; [|auto..]. destruct (decide (t' = t)) as [->|Hne].
    + right. left. left. congruence.
    + left. by rewrite lookup_delete_ne.
Qed.
Lemma elem_of_delete {A} (l : list A) j x y : l !! j = Some x -> y ∈ l -> y = x \/ y ∈ delete j l.
Proof.
  intros Hj Hy. apply list_elem_of_lookup_1 in Hy as [k Hk]. destruct (Nat.lt_trichotomy k j) as [Hlt|[->|Hgt]].
  - right. apply list_elem_of_lookup. exists k. by rewrite list_lookup_delete_lt.
  - left. congruence.
  - right. apply list_elem_of_lookup. exists (k - 1)%nat. rewrite list_lookup_delete_ge by lia.
    by replace (S (k - 1)) with k by lia.
Qed.
Lemma delete_elem_of {A} (l : list A) j y : y ∈ delete j l -> y ∈ l.
Proof.
  intros [k Hk]%list_elem_of_lookup. destruct (Nat.lt_ge_cases k j).
  - rewrite list_lookup_delete_lt in Hk by done. by eapply list_elem_of_lookup_2.
  - rewrite list_lookup_delete_ge in Hk by done. by eapply list_elem_of_lookup_2.
Qed.
(** A callback has run: its call has returned, or is marked. *)
Lemma timers_called calls timers expired cancels next j i :
  timers_ok calls timers expired cancels next -> expired !! j = Some i ->
  (forall c, calls !! i = Some c -> armed (c_pc c) = true -> c_cancelled c <> 0) ->
  timers_ok calls timers (delete j expired) cancels next.
Proof.
  intros [T1 T2 T3 T4] Hj Hdone. split; [|done|done|].
  - intros k Hk. apply T1. destruct Hk as [|[Hk%delete_elem_of|]]; auto.
  - intros k d Hk Hd Hto. destruct (T4 k d Hk Hd Hto) as (t & Ht & Hor). exists t. split; [done|].
    destruct Hor as [|[Hin|]]; [auto| |auto]. apply (elem_of_delete _ _ _ _ Hj) in Hin as [->|]; [|auto].
    right. right. by apply Hdone.
Qed.
Lemma timers_cancels calls timers expired cancels cancels' next :
  timers_ok calls timers expired cancels next ->
  (forall i, i ∈ cancels' -> exists c, calls !! i = Some c /\ c_entry c = Try /\ c_to c <> NO_TIMEOUT) ->
  timers_ok calls timers expired cancels' next.
Proof.
  intros [T1 T2 T3 T4] Hc. split; [|done|done|done]. intros k [|[|]]; [apply T1; auto..|by apply Hc].
Qed.
End Calls.

(** ** The world *)
Section World.
Context {K F : Type} `{Epoll K} `{FileSpec F}.
Implicit Types w : Hook K F.

(** A descriptor being closed is open, its context is gone before the original
    close, and nobody else closes it. *)
Definition closing (pc : Pc) : bool := match pc with CloseAll | CloseLocked _ | CloseDel | CloseF => true | _ => false end.
Record closing_ok (fds : FdManager F) (calls : list Call) : Prop := {
  cl_open : forall i c, calls !! i = Some c -> closing (c_pc c) = true -> is_Some (modes fds !! c_fd c);
  cl_gone : forall i c, calls !! i = Some c -> c_pc c = CloseF -> ctx_of fds (c_fd c) = None;
  cl_once : forall i j c d, calls !! i = Some c -> calls !! j = Some d -> closing (c_pc c) = true ->
    closing (c_pc d) = true -> c_fd c = c_fd d -> i = j
}.
Lemma closing_upd fds fds' calls i c c' :
  closing_ok fds calls -> calls !! i = Some c -> c_fd c' = c_fd c -> (closing (c_pc c') = true -> closing (c_pc c) = true) ->
  (forall j d, calls !! j = Some d -> (j = i -> closing (c_pc c') = true) -> closing (c_pc d) = true -> is_Some (modes fds' !! c_fd d)) ->
  (forall j d, calls !! j = Some d -> j <> i -> c_pc d = CloseF -> ctx_of fds' (c_fd d) = None) ->
  (c_pc c' = CloseF -> ctx_of fds' (c_fd c) = None) ->
  closing_ok fds' (<[i := c']> calls).
Proof.
  intros [C1 C2 C3] Hi Hfd Hcl Ho Hg Hg'. pose proof (lookup_lt_Some _ _ _ Hi) as Hlt.
  assert (Hold : forall j d, <[i := c']> calls !! j = Some d -> exists d0, calls !! j = Some d0 /\ c_fd d0 = c_fd d /\
    (closing (c_pc d) = true -> closing (c_pc d0) = true) /\ (j = i -> d = c') /\ (j <> i -> d0 = d)).
  { intros j d Hj. destruct (decide (j = i)) as [->|Hne].
    - rewrite list_lookup_insert_eq in Hj by done. injection Hj as <-. by exists c.
    - rewrite list_lookup_insert_ne in Hj by done. by exists d. }
  split.
  - intros j d Hj Hd. destruct (Hold j d Hj) as (d0 & Hd0 & <- & Hc & He & _). apply (Ho j d0); [done| |by apply Hc].
    intros Hji. by rewrite <- (He Hji).
  - intros j d Hj Hd. destruct (Hold j d Hj) as (d0 & Hd0 & <- & _ & He & Hn). destruct (decide (j = i)) as [->|Hne].
    + rewrite (He eq_refl) in Hd. simplify_eq. by apply Hg'.
    + apply (Hg j d0); [done..|]. by rewrite Hn.
  - intros j k d e Hj Hk Hd He Hf. destruct (Hold j d Hj) as (d0 & Hd0 & E1 & Hc1 & _).
    destruct (Hold k e Hk) as (e0 & He0 & E2 & Hc2 & _). apply (C3 j k d0 e0); auto. congruence.
Qed.
Lemma closing_keeps fds fds' calls :
  closing_ok fds calls -> keeps fds fds' -> closing_ok fds' calls.
Proof.
  intros [C1 C2 C3] Hk. split; [|intros i c Hi Hc|done].
  - intros i c Hi Hc. by destruct (Hk (c_fd c) (C1 i c Hi Hc)).
  - assert (Hcl : closing (c_pc c) = true) by (by rewrite Hc). destruct (Hk (c_fd c) (C1 i c Hi Hcl)) as [_ Hn].
    apply Hn. by apply (C2 i c).
Qed.
Lemma closing_idle fds calls i c c' :
  closing_ok fds calls -> calls !! i = Some c -> c_fd c' = c_fd c -> closing (c_pc c') = false \/ c_pc c' = c_pc c ->
  closing_ok fds (<[i := c']> calls).
Proof.
  intros [C1 C2 C3] Hi Hfd Hcl. apply (closing_upd fds fds calls i c c'); try done.
  - intros Hc'. destruct Hcl as [|<-]; [congruence|done].
  - intros j d Hj _ Hd. by apply (C1 j).
  - intros j d Hj _ Hd. by apply (C2 j).
  - intros Hc'. destruct Hcl as [Hcl|Hcl]; [by rewrite Hc' in Hcl|]. apply (C2 i); [done|congruence].
Qed.

(** The contexts that calls and callbacks keep are those of their descriptors. *)
Definition pc_addr (c : Call) : option nat :=
  match c_pc c with LockContext _ a | CloseLocked a => Some a | Parked _ => Some (c_addr c) | _ => None end.
Record addrs_ok (s : IOManager K) (calls : list Call) (cancels : list (nat * option nat)) : Prop := {
  ad_call : forall i c a, calls !! i = Some c -> pc_addr c = Some a -> exists d, io_heap s !! a = Some d /\ fd_fd d = c_fd c;
  ad_cancel : forall i a, (i, Some a) ∈ cancels -> is_Some (io_heap s !! a)
}.
(** A call that is marked is about to return, or is woken, or its callback is
    about to wake it, or has ended without. *)
Definition leaving (pc : Pc) : bool := match pc with Resumed _ | CheckInfo | Done _ _ => true | _ => false end.
Definition marks_ok (sched : list (nat * FiberAndThread)) (calls : list Call) (cancels missed : list nat) : Prop :=
  forall i c, calls !! i = Some c -> c_cancelled c <> 0 ->
    (i ∈ cancels) \/ (i ∈ missed) \/ parked (c_pc c) = true /\ (task c ∈ sched) \/ leaving (c_pc c) = true.
Lemma addrs_keeps s s' calls cancels : heap_keeps s s' -> addrs_ok s calls cancels -> addrs_ok s' calls cancels.
Proof.
  intros Hk [A1 A2]. split.
  - intros i c a Hi Hc. destruct (A1 i c a Hi Hc) as (d & Hd & Ef). destruct (Hk a d Hd) as (d' & Hd' & Ef'). exists d'. split; congruence.
  - intros i a Hi. destruct (A2 i a Hi) as [d Hd]. destruct (Hk a d Hd) as (d' & Hd' & _). by exists d'.
Qed.
Lemma addrs_upd s calls cancels i c' :
  addrs_ok s calls cancels -> (forall a, pc_addr c' = Some a -> exists d, io_heap s !! a = Some d /\ fd_fd d = c_fd c') ->
  addrs_ok s (<[i := c']> calls) cancels.
Proof.
  intros [A1 A2] Hc. split; [|done]. intros j d a [(-> & <- & _)|[_ Hj]]%list_lookup_insert_Some Ha; [by apply Hc|by apply (A1 j)].
Qed.
Lemma addrs_cancels s calls cancels cancels' :
  addrs_ok s calls cancels -> (forall i a, (i, Some a) ∈ cancels' -> (i, Some a) ∈ cancels \/ is_Some (io_heap s !! a)) ->
  addrs_ok s calls cancels'.
Proof. intros [A1 A2] Hc. split; [done|]. intros i a Hi. destruct (Hc i a Hi); [by apply (A2 i)|done]. Qed.
Lemma marks_upd sched calls cancels missed i c c' :
  marks_ok sched calls cancels missed -> calls !! i = Some c -> task c' = task c ->
  (c_cancelled c' <> 0 -> c_cancelled c <> 0 \/ (i ∈ cancels)) ->
  (parked (c_pc c) = true -> parked (c_pc c') = true \/ leaving (c_pc c') = true) ->
  (leaving (c_pc c) = true -> leaving (c_pc c') = true \/ c_cancelled c = 0) -> marks_ok sched (<[i := c']> calls) cancels missed.
Proof.
  intros M Hi Ht Hc Hp Hl j d [(-> & <- & _)|[_ Hj]]%list_lookup_insert_Some Hd; [|by apply (M j)].
  destruct (Hc Hd) as [Hz|]; [|by left]. destruct (M j c Hi Hz) as [|[|[[Hpc Hin]|Hpc]]]; [auto|auto| |].
  - destruct (Hp Hpc) as [|]; [|auto]. do 2 right. left. by rewrite Ht.
  - destruct (Hl Hpc); [auto|done].
Qed.
Lemma marks_more sched sched' calls cancels cancels' missed missed' :
  marks_ok sched calls cancels missed ->
  (forall i c, calls !! i = Some c -> parked (c_pc c) = true -> c_cancelled c <> 0 -> task c ∈ sched -> task c ∈ sched') ->
  (forall i c, calls !! i = Some c -> i ∈ cancels -> c_cancelled c <> 0 -> (i ∈ cancels') \/ (i ∈ missed') \/
     parked (c_pc c) = true /\ (task c ∈ sched') \/ leaving (c_pc c) = true) ->
  missed ⊆ missed' -> marks_ok sched' calls cancels' missed'.
Proof.
  intros M Hs Hc Hm i c Hi Hz. destruct (M i c Hi Hz) as [Hin|[Hin|[[Hp Hin]|Hl]]]; [by apply Hc|auto| |auto].
  do 2 right. left. split; [done|]. by apply (Hs i).
Qed.

Record hook_ok w : Prop := {
  hk_io : io_good (w_io w);
  hk_fds : managed (w_fds w);
  hk_calls : forall i c, w_calls w !! i = Some c -> call_ok c;
  hk_waits : waits_ok (w_io w) (w_calls w);
  hk_timers : timers_ok (w_calls w) (w_timers w) (w_expired w) (map fst (w_cancels w)) (w_next w);
  hk_closing : closing_ok (w_fds w) (w_calls w);
  hk_addrs : addrs_ok (w_io w) (w_calls w) (w_cancels w);
  hk_marks : marks_ok (io_scheduled (w_io w)) (w_calls w) (map fst (w_cancels w)) (w_missed w)
}.

Lemma alter_is_insert {A} (l : list A) i g x : l !! i = Some x -> alter g i l = <[i := g x]> l.
Proof.
  intros Hi. apply list_eq. intros j. destruct (decide (i = j)) as [->|Hne].
  - by rewrite list_lookup_alter_eq, Hi, list_lookup_insert_eq by (by eapply lookup_lt_Some).
  - by rewrite list_lookup_alter_ne, list_lookup_insert_ne.
Qed.
Definition put (i : nat) (c : Call) w : Hook K F := on_calls (fun l => <[i := c]> l) w.
Lemma upd_call_run w i c g : w_calls w !! i = Some c -> upd_call i g w = (Ret tt, put i (g c) w).
Proof. intros Hi. unfold upd_call, modify, put, on_calls. by rewrite (alter_is_insert _ i g c Hi). Qed.
Lemma put_lookup w i c c' : w_calls w !! i = Some c -> w_calls (put i c' w) !! i = Some c'.
Proof. intros Hi. apply list_lookup_insert_eq. by eapply lookup_lt_Some. Qed.
Lemma put_put w i c c' : put i c' (put i c w) = put i c' w.
Proof. unfold put, on_calls. cbn. by rewrite list_insert_insert_eq. Qed.
Lemma goto_run w i c pc : w_calls w !! i = Some c -> goto i pc w = (Ret tt, put i (set_pc pc c) w).
Proof. apply (upd_call_run w i c (set_pc pc)). Qed.

Lemma parked_event w i c : hook_ok w -> w_calls w !! i = Some c -> parked (c_pc c) = true -> event_ok (c_event c).
Proof.
  intros Hw Hi Hp. pose proof (hk_calls w Hw i c Hi) as Hc. destruct (co_range c Hc) as [? ?]; [|done].
  apply (co_entry c Hc). by destruct (c_pc c).
Qed.
Lemma calls_upd w i c' : hook_ok w -> call_ok c' -> forall j d, <[i := c']> (w_calls w) !! j = Some d -> call_ok d.
Proof.
  intros Hw Hc' j d [(-> & <- & _)|[_ Hj]]%list_lookup_insert_Some; [done|]. by apply (hk_calls w Hw j).
Qed.
(** Two versions of a call that wait alike, in the same place. *)
Definition same_wait (c c' : Call) : Prop :=
  same_call c c' /\ c_addr c' = c_addr c /\ parked (c_pc c') = parked (c_pc c) /\
  (finished (c_pc c) = true -> finished (c_pc c') = true) /\
  (leaving (c_pc c) = true -> leaving (c_pc c') = true \/ c_cancelled c = 0).
Lemma same_wait_task c c' : same_wait c c' -> task c' = task c.
Proof. intros ((_ & _ & _ & _ & E3 & E4 & _) & _). unfold task. congruence. Qed.
Lemma hook_put w i c c' :
  hook_ok w -> w_calls w !! i = Some c -> same_wait c c' -> call_ok c' ->
  (forall t, pc_timer (c_pc c') = Some (Some t) -> pc_timer (c_pc c) = Some (Some t)) ->
  (armed (c_pc c') = true -> armed (c_pc c) = true /\ pc_timer (c_pc c') = pc_timer (c_pc c)) ->
  (c_cancelled c <> 0 -> c_cancelled c' <> 0) -> (c_cancelled c' <> 0 -> c_cancelled c <> 0 \/ (i ∈ map fst (w_cancels w))) ->
  (forall a, pc_addr c' = Some a -> exists d, io_heap (w_io w) !! a = Some d /\ fd_fd d = c_fd c) ->
  closing (c_pc c') = false \/ c_pc c' = c_pc c -> hook_ok (put i c' w).
Proof.
  intros Hw Hi Hwait Hok Ht Ha Hc Hc' Had Hcl. pose proof Hwait as (Hsame & E & Hp & Hf & Hl).
  assert (Hfd : c_fd c' = c_fd c) by apply Hsame. split.
  - apply Hw.
  - apply Hw.
  - by apply calls_upd.
  - by apply (waits_upd _ _ i c c' (hk_waits w Hw)).
  - by apply (timers_upd _ _ _ _ _ i c c' (hk_timers w Hw)).
  - apply (closing_idle _ _ i c c' (hk_closing w Hw)); done.
  - apply addrs_upd; [apply Hw|]. by rewrite Hfd.
  - apply (marks_upd _ _ _ _ i c c' (hk_marks w Hw)); [done|by apply same_wait_task|done| |done]. rewrite Hp. auto.
Qed.
Lemma hook_delete w i c t :
  hook_ok w -> w_calls w !! i = Some c -> pc_timer (c_pc c) = Some t -> armed (c_pc c) = false ->
  exists w', cancel_timer t w = (Ret tt, w') /\ hook_ok w' /\ w_calls w' = w_calls w.
Proof.
  intros Hw Hi Hpc Ha. destruct t as [t|]; [|by exists w]. eexists. split; [reflexivity|]. split; [|done].
  split; [apply Hw..| |apply Hw|apply Hw|apply Hw]. by apply (timers_delete _ _ _ _ _ i c t (hk_timers w Hw)).
Qed.
(** The io of the world moves. *)
Lemma moves_scheduled (s s' : IOManager K) : moves s s' -> forall x, (x ∈ io_scheduled s) -> x ∈ io_scheduled s'.
Proof.
  induction 1 as [s s' [-> _]|s s' (a & ev & x & _ & _ & -> & _)|]; [done| |auto]. intros y Hy. apply elem_of_app. by left.
Qed.
Lemma hook_moves w s' : hook_ok w -> io_moves (w_io w) s' -> hook_ok (on_io (fun _ => s') w).
Proof.
  intros Hw (Hg & Hm & Hk). split; [done|apply Hw|apply Hw| |apply Hw|apply Hw| |].
  - apply (waits_moves (w_io w)); [done| |apply Hw]. intros i c. by apply (parked_event w).
  - by apply (addrs_keeps (w_io w)); [|apply Hw].
  - apply (marks_more (io_scheduled (w_io w)) _ _ (map fst (w_cancels w)) _ (w_missed w)); [apply Hw| |auto|done].
    intros i c _ _ _. by apply moves_scheduled.
Qed.

(** *** Regions *)
Definition call_done (c c' : Call) : Prop :=
  same_call c c' /\ call_ok c' /\ c_addr c' = c_addr c /\ parked (c_pc c') = false /\ c_cancelled c' = c_cancelled c /\
  (finished (c_pc c) = true -> finished (c_pc c') = true) /\ pc_timer (c_pc c') = None /\ closing (c_pc c') = false /\
  (leaving (c_pc c) = true -> leaving (c_pc c') = true \/ c_cancelled c = 0).
Ltac call_fields := split; try done; try (by intros [? | ?]); cbn.
Ltac parts := unfold call_done; refine (conj _ (conj _ (conj _ (conj _ (conj _ (conj _ (conj _ (conj _ _)))))))); try done;
  try (left; reflexivity).
(** A region that only moves on, past every timer. *)
Lemma hook_forward w i c c' :
  hook_ok w -> w_calls w !! i = Some c -> parked (c_pc c) = false -> call_done c c' -> hook_ok (put i c' w).
Proof.
  intros Hw Hi Hp (? & ? & ? & Hp' & Ec & ? & Hn & Hcl & ?). apply (hook_put w i c c'); try done.
  - split_and!; try done. congruence.
  - by rewrite Hn.
  - intros Ha. by destruct (c_pc c').
  - by rewrite Ec.
  - rewrite Ec. auto.
  - intros a. unfold pc_addr. revert Hn Hcl Hp'. by destruct (c_pc c').
  - by left.
Qed.

Lemma region_try w i c n e :
  hook_ok w -> w_calls w !! i = Some c -> c_pc c = Try -> exists w', try_fun i c n e w = (Ret tt, w') /\ hook_ok w'.
Proof.
  intros Hw Hi Hpc. pose proof (hk_calls w Hw i c Hi) as [C1 C0 C2 C3 C4 C5 C8 C6 C7].
  assert (He : c_entry c = Try) by (apply C1; by rewrite Hpc).
  unfold try_fun. mstep (upd_call_run w i c (set_last (n, e)) Hi).
  set (c1 := set_last (n, e) c).
  assert (Hw1 : hook_ok (put i c1 w)).
  { apply (hook_put w i c c1); try done; try (by cbn; rewrite Hpc); try (by left); try (by right).
    - split_and!; try done. auto.
    - split; try done; cbn; rewrite Hpc; done.
    - cbn. unfold pc_addr. cbn. by rewrite Hpc. }
  pose proof (put_lookup w i c c1 Hi) as Hi1.
  destruct (negb (c_connect c) && (n =? -1) && (e =? EINTR)) eqn:Eintr; [by eexists|].
  rewrite (goto_run _ i c1 _ Hi1). eexists. split; [reflexivity|].
  apply (hook_forward _ i c1); [done|done|cbn; by rewrite Hpc|].
  destruct (may_wait (c_connect c) n e) eqn:Ew; parts; try (cbn; by rewrite Hpc); call_fields.
  - intros Hcon _ _. by rewrite Hcon in Ew.
  - intros n' e' [= <- <-] _. left. split_and!; [done|done|].
    cbn. intros Hcon [-> ->]. by rewrite Hcon in Eintr.
Qed.
(** A call goes to one of the sections of [addEvent]. *)
Lemma hook_arm w i c pc :
  hook_ok w -> w_calls w !! i = Some c -> c_entry c = Try -> parked (c_pc c) = false -> finished (c_pc c) = false ->
  leaving (c_pc c) = false -> parked pc = false -> finished pc = false -> closing pc = false -> works pc = true -> pc <> Try ->
  pc <> GetError -> (forall t, pc <> AddFailed t) ->
  (c_connect c = true -> may_wait true (fst (c_last c)) (snd (c_last c)) = true) ->
  (forall a, pc_addr (set_pc pc c) = Some a -> exists d, io_heap (w_io w) !! a = Some d /\ fd_fd d = c_fd c) ->
  timers_ok (<[i := set_pc pc c]> (w_calls w)) (w_timers w) (w_expired w) (map fst (w_cancels w)) (w_next w) ->
  hook_ok (put i (set_pc pc c) w).
Proof.
  intros Hw Hi He Hp Hf Hlv Hp' Hf' Hcl' Hwk Hnt Hng Hnf Hcon Had Ht. pose proof (hk_calls w Hw i c Hi) as [C1 C0 C2 C3 C4 C5 C8 C6 C7].
  split; [apply Hw..| | |exact Ht| | |].
  - apply calls_upd; [done|]. split; cbn; intros;
      first [done|congruence|by auto|by destruct pc|exfalso; by eapply Hnf|by subst pc].
  - apply (waits_upd _ _ i c _ (hk_waits w Hw)); try done; cbn; congruence.
  - apply (closing_idle _ _ i c _ (hk_closing w Hw)); [done|done|by left].
  - by apply addrs_upd; [apply Hw|].
  - apply (marks_upd _ _ _ _ i c _ (hk_marks w Hw)); try done; cbn; try congruence. auto.
Qed.
Lemma region_timer w i c :
  hook_ok w -> w_calls w !! i = Some c -> c_pc c = AddTimer -> exists w', add_call_timer i c w = (Ret tt, w') /\ hook_ok w'.
Proof.
  intros Hw Hi Hpc. pose proof (hk_calls w Hw i c Hi) as [C1 C0 C2 C3 C4 C5 C8 C6 C7].
  assert (He : c_entry c = Try) by (apply C1; by rewrite Hpc).
  assert (Hlast : c_connect c = true -> may_wait true (fst (c_last c)) (snd (c_last c)) = true)
    by (intros; apply C5; by rewrite ?Hpc).
  unfold add_call_timer. destruct (Z.eqb_spec (c_to c) NO_TIMEOUT) as [Hto|Hto].
  - rewrite (goto_run w i c _ Hi). eexists. split; [reflexivity|]. apply hook_arm; try done; try (by rewrite Hpc).
    destruct (hk_timers w Hw) as [T1 T2 T3 T4].
    assert (Hdef : forall k d, <[i := set_pc (AddEvent None) c]> (w_calls w) !! k = Some d ->
      k = i /\ d = set_pc (AddEvent None) c \/ w_calls w !! k = Some d).
    { intros k d [(-> & <- & _)|[_ Hk]]%list_lookup_insert_Some; auto. }
    split; [|done| |].
    + intros k Hk. destruct (T1 k Hk) as (d & Hd & ?). destruct (decide (k = i)) as [->|Hne].
      * exists (set_pc (AddEvent None) c). rewrite list_lookup_insert_eq by (by eapply lookup_lt_Some). by simplify_eq.
      * exists d. by rewrite list_lookup_insert_ne.
    + intros k d t [[-> ->]|Hk]%Hdef Ht; [done|by apply (T3 k d)].
    + intros k d [[-> ->]|Hk]%Hdef Hd Hkto; [done|by apply (T4 k d)].
  - unfold add_timer, mbind, M_bind. set (w1 := mkHook _ _ _ _ _ _ _ _).
    rewrite (goto_run w1 i c _ Hi). eexists. split; [reflexivity|].
    assert (Ht : timers_ok (<[i := set_pc (AddEvent (Some (w_next w))) c]> (w_calls w)) (<[w_next w := i]> (w_timers w)) (w_expired w)
      (map fst (w_cancels w)) (S (w_next w))) by by apply (timers_add _ _ _ _ _ i c _ (hk_timers w Hw)).
    pose proof Hw as [H1' H2' H3' H4' H5' H6' H7' H8'].
    split; [done|done| |apply (waits_upd _ _ i c _ H4'); try done; cbn; by rewrite Hpc|exact Ht| | |].
    + apply (calls_upd w); [done|]. by call_fields; auto.
    + apply (closing_idle _ _ i c _ H6'); [done|done|by left].
    + by apply addrs_upd.
    + apply (marks_upd _ _ _ _ i c _ H8'); try done; cbn; rewrite ?Hpc; auto.
Qed.
(** A section that changes nothing. *)
Lemma with_io_same {A} (m : M (IOManager K) A) w a : m (w_io w) = (Ret a, w_io w) -> with_io m w = (Ret a, w).
Proof. intros E. unfold with_io. rewrite E. by destruct w. Qed.
(** The sections of [addEvent] before the last. *)
Lemma region_next w i c t pc :
  hook_ok w -> w_calls w !! i = Some c -> c_pc c = AddEvent t \/ c_pc c = GrowContexts t ->
  pc = GrowContexts t \/ (exists a d, pc = LockContext t a /\ io_heap (w_io w) !! a = Some d /\ fd_fd d = c_fd c) ->
  hook_ok (put i (set_pc pc c) w).
Proof.
  intros Hw Hi Hpc Hnew. pose proof (hk_calls w Hw i c Hi) as [C1 C0 C2 C3 C4 C5 C8 C6 C7].
  assert (Hf : parked pc = false /\ finished pc = false /\ closing pc = false /\ works pc = true /\ pc <> Try /\ pc <> GetError /\
    (forall t, pc <> AddFailed t) /\ pc_timer pc = Some t /\ armed pc = true) by (by destruct Hnew as [-> |(a & d & -> & _)]).
  destruct Hf as (F1 & F2 & F3 & F4 & F5 & F6 & F7 & F8 & F9).
  assert (Hg : parked (c_pc c) = false /\ finished (c_pc c) = false /\ leaving (c_pc c) = false /\ works (c_pc c) = true /\
    c_pc c <> Try /\ pc_timer (c_pc c) = Some t /\ armed (c_pc c) = true) by (by destruct Hpc as [-> | ->]).
  destruct Hg as (G1 & G2 & G3 & G4 & G5 & G6 & G7).
  apply hook_arm; try done; auto.
  - intros a Ha. destruct Hnew as [-> |(a' & d & -> & Hd & Ef)]; [done|]. injection Ha as <-. by exists d.
  - apply (timers_upd _ _ _ _ _ i c _ (hk_timers w Hw)); try done; cbn; rewrite ?F8, ?F9, ?G6, ?G7; auto.
Qed.
Lemma region_find w i c t :
  hook_ok w -> w_calls w !! i = Some c -> c_pc c = AddEvent t -> exists w', find_call_event i c t w = (Ret tt, w') /\ hook_ok w'.
Proof.
  intros Hw Hi Hpc. pose proof (hk_calls w Hw i c Hi) as Hc. destruct (co_range c Hc) as [Hfd Hev]; [apply (co_entry c Hc); by rewrite Hpc|].
  destruct (find_moves (w_io w) (c_fd c) (hk_io w Hw) Hfd) as (p & E & Hp). unfold find_call_event.
  mstep (with_io_same _ w _ E).
  erewrite goto_run by done. eexists. split; [reflexivity|]. eapply region_next; [exact Hw|exact Hi|by left|].
  destruct p as [a|]; [right|by left]. destruct (Hp a eq_refl) as (d & ? & ?). by exists a, d.
Qed.
Lemma region_grow w i c t :
  hook_ok w -> w_calls w !! i = Some c -> c_pc c = GrowContexts t ->
  if c_fd c <=? 1 then exists w', grow_call_event i c t w = (Crash, w') else
  exists w', grow_call_event i c t w = (Ret tt, w') /\ hook_ok w'.
Proof.
  intros Hw Hi Hpc. pose proof (grow_moves (w_io w) (c_fd c) (hk_io w Hw)) as Hg. unfold grow_call_event, with_io, mbind, M_bind.
  destruct (c_fd c <=? 1); [destruct Hg as [s' E]; rewrite E; by eexists|].
  destruct Hg as (a & s' & d & E & Hm & Hd & Ef). rewrite E. set (w1 := on_io _ w). assert (Hi1 : w_calls w1 !! i = Some c) by done.
  rewrite (goto_run w1 i c _ Hi1). eexists. split; [reflexivity|].
  apply (region_next w1 i c t); [by apply hook_moves|done|by right|]. right. by exists a, d.
Qed.
Lemma region_event w i c t a :
  hook_ok w -> w_calls w !! i = Some c -> c_pc c = LockContext t a ->
  (exists w', add_call_event i c t a w = (Ret tt, w') /\ hook_ok w') \/
  (exists x w', slot_at (w_io w) a (c_event c) = Some x /\ add_call_event i c t a w = (Crash, w')).
Proof.
  intros Hw Hi Hpc. pose proof (hk_calls w Hw i c Hi) as Hc. pose proof Hc as [C1 C0 C2 C3 C4 C5 C8 C6 C7].
  destruct C2 as [Hfd Hev]; [apply C1; by rewrite Hpc|].
  destruct (ad_call _ _ _ (hk_addrs w Hw) i c a Hi) as (d & Hd & Ef); [unfold pc_addr; by rewrite Hpc|].
  unfold add_call_event.
  destruct (add_moves (w_io w) (me c) (c_scheduler c) a d (c_fd c) (c_event c) (hk_io w Hw) Hd Hev eq_refl eq_refl)
    as [(x & s' & Hx & E)|(rt & s' & Hnone & E & Hg & Hk & Hs & Ho & Hsl)].
  - right. exists x. unfold with_io, mbind, M_bind. rewrite E. by eexists.
  - left. unfold with_io. unfold mbind at 1, M_bind at 1. rewrite E. set (w1 := on_io _ w).
    assert (Hi1 : w_calls w1 !! i = Some c) by done. pose proof Hw as [H1' H2' H3' H4' H5' H6' H7' H8'].
    destruct (Z.eqb_spec rt 0) as [->|Hrt]; cbn [negb].
    + mstep (upd_call_run w1 i c (set_addr a) Hi1).
      rewrite (goto_run _ i (set_addr a c) _ (put_lookup w1 i c _ Hi1)), put_put. eexists. split; [reflexivity|].
      set (c' := set_pc (Parked t) (set_addr a c)).
      split; [done|done| | | | | |].
      * apply (calls_upd w); [done|]. call_fields; [intros; apply C1; by rewrite Hpc|intros; apply C5; by rewrite ?Hpc].
      * apply (waits_enter (w_io w) s' _ i c c' a); try done; [by rewrite Hpc|by rewrite Hpc|].
        intros j e. by apply (parked_event w).
      * apply (timers_upd _ _ _ _ _ i c c' H5'); try done; by rewrite Hpc.
      * apply (closing_idle _ _ i c c' H6'); [done|done|by left].
      * apply addrs_upd; [by apply (addrs_keeps (w_io w))|]. intros b [= <-]. destruct (Hk a d Hd) as (d' & ? & ?). exists d'. cbn. split; [done|congruence].
      * change (io_scheduled (w_io (put i c' w1))) with (io_scheduled s'). rewrite Hs.
        apply (marks_upd _ _ _ _ i c c' H8'); try done; cbn; rewrite ?Hpc; auto.
    + assert (Hw1 : hook_ok w1).
      { apply hook_moves; [done|]. split; [done|]. split; [|done]. apply moves_same. split; [done|]. intros b event Hb.
        destruct (decide ((b, event) = (a, c_event c))) as [[= -> ->]|Hne]; [congruence|by apply Ho]. }
      mstep (upd_call_run w1 i c set_failed Hi1). rewrite (goto_run _ i (set_failed c) _ (put_lookup w1 i c _ Hi1)), put_put.
      eexists. split; [reflexivity|].
      apply (hook_put w1 i c); try done; try (by rewrite Hpc); try (by left).
      * split_and!; try done; by rewrite Hpc.
      * call_fields; [intros; apply C1; by rewrite Hpc|intros; apply C5; by rewrite ?Hpc].
Qed.
Lemma region_parked w i c t :
  hook_ok w -> w_calls w !! i = Some c -> c_pc c = Parked t ->
  exists w', (b ← with_io (take_task c); if (b : bool) then goto i (Resumed t) else mret tt) w = (Ret tt, w') /\ hook_ok w'.
Proof.
  intros Hw Hi Hpc. pose proof (hk_calls w Hw i c Hi) as Hc. pose proof Hc as [C1 C0 C2 C3 C4 C5 C8 C6 C7].
  unfold with_io, take_task, mbind, M_bind. destruct (remove_first (task c) (io_scheduled (w_io w))) as [l|] eqn:E.
  - set (s' := mkIO _ _ _ _ _ _). set (w1 := on_io _ w). assert (Hi1 : w_calls w1 !! i = Some c) by done.
    rewrite (goto_run w1 i c _ Hi1). eexists. split; [reflexivity|]. destruct (hk_io w Hw) as [Hwf Hv].
    split; [|apply Hw| | | | | |].
    + split; [by apply (io_wf_frame (w_io w))|done].
    + apply (calls_upd w); [done|]. call_fields; [intros; apply C1; by rewrite Hpc|intros; apply C5; by rewrite ?Hpc].
    + apply (waits_taken (w_io w) s' _ i c); try done; [apply Hw|by rewrite Hpc].
    + apply (timers_upd _ _ _ _ _ i c _ (hk_timers w Hw)); try done; by rewrite Hpc.
    + apply (closing_idle _ _ i c _ (hk_closing w Hw)); [done|done|by left].
    + apply addrs_upd; [apply (addrs_keeps (w_io w)); [by apply heap_keeps_same|apply Hw]|done].
    + intros j d [(<- & <- & _)|[Hne Hj]]%list_lookup_insert_Some Hz; [by do 3 right|].
      destruct (hk_marks w Hw j d Hj Hz) as [|[|[[Hp Hin]|]]]; [auto|auto| |auto]. do 2 right. left. split; [done|].
      apply remove_first_spec in E. rewrite E in Hin. apply elem_of_cons in Hin as [Ht|]; [|done]. destruct Hne.
      by apply (task_inj (w_io w) (w_calls w) i j c d); [apply Hw|..|rewrite Hpc| |].
  - eexists. split; [reflexivity|]. apply hook_moves; [done|]. by apply io_moves_same; [apply Hw|apply Hw|..].
Qed.
(** Regions that cancel the timer. *)
Lemma region_after w i c t pc :
  hook_ok w -> w_calls w !! i = Some c -> pc_timer (c_pc c) = Some t -> armed (c_pc c) = false -> parked (c_pc c) = false ->
  call_done c (set_pc pc c) -> exists w', (cancel_timer t ;; goto i pc) w = (Ret tt, w') /\ hook_ok w'.
Proof.
  intros Hw Hi Hpc Ha Hp Hd. destruct (hook_delete w i c t Hw Hi Hpc Ha) as (w1 & E & Hw1 & Ec). mstep E.
  rewrite <- Ec in Hi. rewrite (goto_run w1 i c _ Hi). eexists. split; [reflexivity|]. by apply (hook_forward w1 i c).
Qed.
Lemma region_goto w i c pc :
  hook_ok w -> w_calls w !! i = Some c -> parked (c_pc c) = false -> call_done c (set_pc pc c) ->
  exists w', goto i pc w = (Ret tt, w') /\ hook_ok w'.
Proof. intros Hw Hi Hp Hd. rewrite (goto_run w i c _ Hi). eexists. split; [reflexivity|]. by apply (hook_forward w i c). Qed.

(** A call that is closing moves on: the rest of its fields. *)
Lemma closing_put w w1 i c pc :
  hook_ok w -> w_calls w !! i = Some c -> closing (c_pc c) = true -> parked pc = false -> works pc = false ->
  (finished pc = false -> closing pc = true) -> (close_early pc = true -> 0 <= c_fd c) ->
  (forall a, pc = CloseLocked a -> exists d, io_heap (w_io w1) !! a = Some d /\ fd_fd d = c_fd c) ->
  hook_ok (on_io (fun _ => w_io w1) w) -> w_calls w1 = w_calls w -> w_timers w1 = w_timers w -> w_expired w1 = w_expired w ->
  w_cancels w1 = w_cancels w -> w_next w1 = w_next w -> w_missed w1 = w_missed w -> managed (w_fds w1) ->
  closing_ok (w_fds w1) (<[i := set_pc pc c]> (w_calls w)) -> hook_ok (put i (set_pc pc c) w1).
Proof.
  intros Hw Hi Hcl Hp Hwk Hf Hfd Had [I1 _ _ I4 _ _ I7 I8] E1 E2 E3 E4 E5 E6 Hfds Hc.
  cbn [on_io w_io w_calls w_cancels w_missed] in *.
  pose proof (hk_calls w Hw i c Hi) as [C1 C0 C2 C3 C4 C5 C8 C6 C7].
  assert (Hent : c_entry c <> Try) by (apply C0; by destruct (c_pc c)).
  split; cbn [put on_calls w_io w_fds w_calls w_timers w_expired w_cancels w_next w_missed]; rewrite ?E1, ?E2, ?E3, ?E4, ?E5, ?E6; try done.
  - apply calls_upd; [done|]. split; cbn; intros; first [done|congruence|by auto|by destruct pc].
  - apply (waits_upd _ _ i c); try done; cbn; [rewrite Hp|intros Hfin]; by destruct (c_pc c).
  - apply (timers_upd _ _ _ _ _ i c _ (hk_timers w Hw)); try done; cbn; intros; by destruct pc.
  - apply addrs_upd; [done|]. intros a. unfold pc_addr. cbn. destruct pc; try done. intros [= ->]. by apply Had.
  - apply (marks_upd _ _ _ _ i c _ I8); try done; cbn; auto; intros Hx; by destruct (c_pc c).
Qed.
Lemma region_findclose w i c :
  hook_ok w -> w_calls w !! i = Some c -> c_pc c = CloseAll -> exists w', find_close i c w = (Ret tt, w') /\ hook_ok w'.
Proof.
  intros Hw Hi Hpc. assert (Hfd : 0 <= c_fd c) by (apply (co_close c (hk_calls w Hw i c Hi)); by rewrite Hpc).
  destruct (find_moves (w_io w) (c_fd c) (hk_io w Hw) Hfd) as (p & E & Hp). unfold find_close.
  mstep (with_io_same _ w _ E). erewrite goto_run by done. eexists. split; [reflexivity|].
  assert (Hcl : closing_ok (w_fds w) (<[i := set_pc (match p with Some a => CloseLocked a | None => CloseDel end) c]> (w_calls w))).
  { apply (closing_upd (w_fds w) _ _ i c); try done; [apply Hw|by rewrite Hpc|..].
    - intros j d Hj _ Hd. by apply (cl_open _ _ (hk_closing w Hw) j).
    - intros j d Hj _ Hd. by apply (cl_gone _ _ (hk_closing w Hw) j).
    - by destruct p. }
  assert (Hsame : on_io (fun _ => w_io w) w = w) by by destruct w.
  apply (closing_put w w); try done; try (by destruct p); [by rewrite Hpc| |by rewrite Hsame|apply Hw].
  intros a Ea. destruct p as [b|]; [|done]. injection Ea as <-. by apply Hp.
Qed.
Lemma region_closeall w i c a :
  hook_ok w -> w_calls w !! i = Some c -> c_pc c = CloseLocked a ->
  exists w', (with_io (cancelAll_locked a (c_fd c)) ;; goto i CloseDel) w = (Ret tt, w') /\ hook_ok w'.
Proof.
  intros Hw Hi Hpc. assert (Hfd : 0 <= c_fd c) by (apply (co_close c (hk_calls w Hw i c Hi)); by rewrite Hpc).
  destruct (ad_call _ _ _ (hk_addrs w Hw) i c a Hi) as (d & Hd & Ef); [unfold pc_addr; by rewrite Hpc|].
  destruct (cancelAll_moves (w_io w) a d (c_fd c) (hk_io w Hw) Hd) as (b & s' & E & Hm).
  unfold with_io. unfold mbind, M_bind. rewrite E. set (w1 := on_io _ w).
  rewrite (goto_run w1 i c _ Hi). eexists. split; [reflexivity|].
  assert (Hw1 : hook_ok w1) by by apply hook_moves.
  apply (closing_put w); try done; [by rewrite Hpc|apply Hw1|].
  apply (closing_upd (w_fds w) _ _ i c); try done; [apply Hw|by rewrite Hpc|..].
  - intros j e Hj _ He. by apply (cl_open _ _ (hk_closing w Hw) j).
  - intros j e Hj _ He. by apply (cl_gone _ _ (hk_closing w Hw) j).
Qed.
Lemma region_closedel w i c :
  hook_ok w -> w_calls w !! i = Some c -> c_pc c = CloseDel ->
  exists w', (with_fds (del (c_fd c)) ;; goto i CloseF) w = (Ret tt, w') /\ hook_ok w'.
Proof.
  intros Hw Hi Hpc. assert (Hfd : 0 <= c_fd c) by (apply (co_close c (hk_calls w Hw i c Hi)); by rewrite Hpc).
  destruct (fd_del_run (w_fds w) (c_fd c) (mg_ok _ (hk_fds w Hw)) Hfd) as (s' & E & Hok & Hk & Hn & Ho).
  assert (Hmodes : modes s' = modes (w_fds w)) by (unfold modes; by rewrite Hk).
  unfold with_fds. unfold mbind, M_bind. rewrite E. set (w1 := on_fds _ w).
  rewrite (goto_run w1 i c _ Hi). eexists. split; [reflexivity|].
  assert (Hsame : on_io (fun _ => w_io w) w = w) by by destruct w.
  apply (closing_put w); try done; [by rewrite Hpc|by cbn; rewrite Hsame| |].
  - split; [done|]. intros fd d Hd. cbn in *. rewrite Hmodes.
    destruct (decide (fd = c_fd c)) as [->|Hne]; [congruence|]. rewrite Ho in Hd by done. by apply (hk_fds w Hw).
  - apply (closing_upd (w_fds w) _ _ i c); try done; [apply Hw|by rewrite Hpc| |]; cbn [w1 on_fds w_fds]; rewrite ?Hmodes.
    + intros j d Hj _ Hd. by apply (cl_open _ _ (hk_closing w Hw) j).
    + intros j d Hj Hne Hd. destruct (decide (c_fd d = c_fd c)) as [->|Hf]; [done|]. rewrite Ho by done.
      by apply (cl_gone _ _ (hk_closing w Hw) j).
Qed.
Lemma region_closef w i c e :
  hook_ok w -> w_calls w !! i = Some c -> c_pc c = CloseF ->
  exists w', (n ← with_fds (sys (fun k => close_f k (c_fd c))); goto i (Done n e)) w = (Ret tt, w') /\ hook_ok w'.
Proof.
  intros Hw Hi Hpc. pose proof (cl_gone _ _ (hk_closing w Hw) i c Hi Hpc) as Hgone.
  unfold with_fds. unfold mbind, M_bind. rewrite sys_run. set (k' := snd _). set (s' := mkFds k' _ _). set (w1 := on_fds _ w).
  assert (Hmodes : modes s' = delete (c_fd c) (modes (w_fds w))) by apply close_law.
  rewrite (goto_run w1 i c _ Hi). eexists. split; [reflexivity|].
  assert (Hsame : on_io (fun _ => w_io w) w = w) by by destruct w.
  apply (closing_put w); try done; [by rewrite Hpc|by cbn; rewrite Hsame| |].
  - apply managed_sys; [apply Hw|]. intros fd d Hd. unfold k'. rewrite close_law, lookup_delete_ne; [done|]. intros <-. congruence.
  - apply (closing_upd (w_fds w) _ _ i c); try done; [apply Hw| |].
    + intros j d Hj Hne Hd. cbn [w1 on_fds w_fds]. rewrite Hmodes, lookup_delete_ne; [by apply (cl_open _ _ (hk_closing w Hw) j)|].
      intros Heq. assert (j = i) as ->; [|by specialize (Hne eq_refl)].
      apply (cl_once _ _ (hk_closing w Hw) j i d c); try done. by rewrite Hpc.
    + intros j d Hj Hne Hd. by apply (cl_gone _ _ (hk_closing w Hw) j).
Qed.

(** Where a region goes wrong: another fiber waits for the same event of the same
    descriptor; or the descriptor is 0 or 1 and the vector has 2^31 contexts. *)
Definition double_wait w (i : nat) (c : Call) : Prop :=
  exists t a j d, c_pc c = LockContext t a /\ w_calls w !! j = Some d /\ i <> j /\ parked (c_pc d) = true /\
    c_fd d = c_fd c /\ c_event d = c_event c.
Definition cannot_grow (c : Call) : Prop := exists t, c_pc c = GrowContexts t /\ c_fd c <= 1.
Lemma region_ok w i c n e error :
  hook_ok w -> w_calls w !! i = Some c ->
  (exists w', region i c n e error w = (Ret tt, w') /\ hook_ok w') \/
  (double_wait w i c \/ cannot_grow c) /\ exists w', region i c n e error w = (Crash, w').
Proof.
  intros Hw Hi. pose proof (hk_calls w Hw i c Hi) as Hc. pose proof Hc as [C1 C0 C2 C3 C4 C5 C8 C6 C7].
  unfold region. destruct (c_pc c) as [| | |t|t|t a|t|t|t| | | |a| | |n' e'] eqn:Hpc.
  6: { destruct (region_event w i c t a Hw Hi Hpc) as [|(x & w' & Hx & E)]; [by left|right]. split; [left|by exists w'].
       assert (Hev : event_ok (c_event c)) by by apply C2, C1.
       destruct (wo_slot _ _ (hk_waits w Hw) a (c_event c) x Hev Hx) as (_ & j & d & Hj & Hp & F1 & F2 & _).
       exists t, a, j, d. split_and!; try done; [intros ->; assert (d = c) as -> by congruence; by rewrite Hpc in Hp|].
       destruct (ad_call _ _ _ (hk_addrs w Hw) i c a Hi) as (f & Hf & Ef); [unfold pc_addr; by rewrite Hpc|].
       destruct (ad_call _ _ _ (hk_addrs w Hw) j d a Hj) as (f' & Hf' & Ef'); [unfold pc_addr; revert Hp; destruct (c_pc d); try done; by rewrite F1|].
       congruence. }
  5: { pose proof (region_grow w i c t Hw Hi Hpc) as Hg. destruct (Z.leb_spec (c_fd c) 1) as [Hle|]; [right|by left].
       split; [right; by exists t|done]. }
  all: left.
  - apply (region_goto w i c); [done|done|by rewrite Hpc|]. parts; try (cbn; by rewrite Hpc). call_fields.
    intros n0 e0 _ He. by apply C0 in He.
  - by apply region_try.
  - by apply region_timer.
  - by apply region_find.
  - unfold add_failed. apply (region_after w i c); try done; try (by rewrite Hpc).
    parts; try (cbn; by rewrite Hpc); try (by destruct (c_connect c)).
    destruct (c_connect c) eqn:Econ; call_fields; [intros; by apply C5|].
    intros n0 e0 [= <- <-] _. right. right. cbn. rewrite Econ. split; [done|]. by apply (C6 t).
  - by apply region_parked.
  - apply (region_after w i c); try done; try (by rewrite Hpc). parts; try (cbn; by rewrite Hpc).
    call_fields; intros; by apply C5.
  - unfold check_info. destruct (Z.eqb_spec (c_cancelled c) 0) as [Hz|Hz]; cbn [negb].
    + apply (region_goto w i c); [done|done|by rewrite Hpc|].
      parts; try (cbn; by rewrite Hpc); try (by destruct (c_connect c)); try (by right).
      destruct (c_connect c) eqn:Econ; call_fields; intros; first [by apply C5 | congruence].
    + apply (region_goto w i c); [done|done|by rewrite Hpc|]. parts; try (cbn; by rewrite Hpc). call_fields.
      intros n0 e0 [= <- <-] _. right. left. cbn. destruct C4 as [|[? _]]; [done|by split_and!].
  - unfold get_error. apply (region_goto w i c); [done|done|by rewrite Hpc|].
    assert (Hin : exists n' e', (if n =? -1 then Done (-1) e else if error =? 0 then Done 0 e else Done (-1) error) = Done n' e' /\
      (n' = 0 \/ n' = -1)).
    { destruct (n =? -1); [|destruct (error =? 0)]; eexists _, _; (split; [reflexivity|auto]). }
    destruct Hin as (n' & e' & -> & Hn'). parts; try (cbn; by rewrite Hpc). call_fields.
    intros n0 e0 [= <- <-] _. right. right. cbn. rewrite C8 by done. split; [by apply C5; rewrite ?C8|done].
  - apply (region_findclose w i c Hw Hi Hpc).
  - apply (region_closeall w i c a Hw Hi Hpc).
  - apply (region_closedel w i c Hw Hi Hpc).
  - apply (region_closef w i c e Hw Hi Hpc).
  - exists w. by split.
Qed.

(** *** Steps *)
(** What the steps ask of threads: hooked ones close descriptors that are open
    and that nobody else closes; the commands of fcntl and ioctl that [fd_op_ok]
    names are left out, and close is [LClose]. *)
Definition label_ok w (l : Label) : Prop :=
  match l with
  | LClose hook fd _ _ => hook = true /\ (fd < -1 \/ 0 <= fd /\ is_Some (modes (w_fds w) !! fd) /\
      forall i c, w_calls w !! i = Some c -> closing (c_pc c) = true -> c_fd c <> fd)
  | LFds o => fd_op_ok o /\ closes o = false
  | _ => True
  end.
Inductive reachable (k : K) (f : F) : Hook K F -> Prop :=
| reach_start : reachable k f (new_Hook k f)
| reach_step w l w' : reachable k f w -> label_ok w l -> step l w = (Ret tt, w') -> reachable k f w'.

(** How the calls begin. *)
Lemma the_fdctx_run (s : FdManager F) a c : fm_heap s !! a = Some c -> the_fdctx a s = (Ret c, s).
Proof. intros Ha. unfold the_fdctx, mbind, M_bind, get, lift. by rewrite Ha. Qed.
Definition entry_of (s : FdManager F) (fd : Z) (to : FdCtx -> Z) (absent : Pc) : Pc * Z :=
  match ctx_of s fd with
  | None => (absent, NO_TIMEOUT)
  | Some c => if m_userNoblock c then (Direct, NO_TIMEOUT) else (Try, to c)
  end.
Lemma entry_of_inv (s : FdManager F) fd to absent :
  absent = Direct \/ finished absent = true ->
  (fst (entry_of s fd to absent) = Try -> 0 <= fd) /\
  (fst (entry_of s fd to absent) = Direct \/ fst (entry_of s fd to absent) = Try \/ finished (fst (entry_of s fd to absent)) = true).
Proof.
  intros Ha. unfold entry_of. destruct (ctx_of s fd) as [c|] eqn:Hc.
  - apply ctx_of_inv in Hc as [? _]. destruct (m_userNoblock c); cbn; auto.
  - cbn. split; [|tauto]. intros ->. by destruct Ha.
Qed.
Lemma do_io_run (s : FdManager F) fd so :
  managed s -> -1 <= fd -> do_io true fd so s = (Ret (entry_of s fd (getTimeOut so) Direct), s).
Proof.
  intros Hm Hfd. destruct (get_ctx_run s fd (mg_ok s Hm) Hfd) as (p & E & Hp). unfold do_io, entry_of. cbn [negb]. mstep E.
  destruct p as [a|]; [|by rewrite Hp]. destruct Hp as (_ & _ & c & Hc & Ha). rewrite Hc. mstep (the_fdctx_run s a c Ha).
  destruct (ctx_of_ok s fd c (mg_ok s Hm) Hc) as (_ & -> & _). destruct (mg_socket s Hm fd c Hc) as [-> _].
  cbn [negb orb]. by destruct (m_userNoblock c).
Qed.
Lemma connect_run (s : FdManager F) fd timeout_ms :
  managed s -> -1 <= fd ->
  connect_with_timeout true fd timeout_ms s = (Ret (entry_of s fd (fun _ => timeout_ms) (Done (-1) EBADF)), s).
Proof.
  intros Hm Hfd. destruct (get_ctx_run s fd (mg_ok s Hm) Hfd) as (p & E & Hp). unfold connect_with_timeout, entry_of. cbn [negb].
  mstep E. destruct p as [a|]; [|by rewrite Hp]. destruct Hp as (_ & _ & c & Hc & Ha). rewrite Hc. mstep (the_fdctx_run s a c Ha).
  destruct (ctx_of_ok s fd c (mg_ok s Hm) Hc) as (_ & -> & _). destruct (mg_socket s Hm fd c Hc) as [-> _].
  cbn [negb orb]. by destruct (m_userNoblock c).
Qed.
Lemma new_call_ok w connect fd event scd fiber (m : M (FdManager F) (Pc * Z)) pc to :
  hook_ok w -> m (w_fds w) = (Ret (pc, to), w_fds w) ->
  (pc = Try -> 0 <= fd /\ event_ok event) -> pc = Direct \/ pc = Try \/ finished pc = true \/
    ((pc = CloseAll \/ pc = CloseF) /\ 0 <= fd /\ is_Some (modes (w_fds w) !! fd) /\ (pc = CloseF -> ctx_of (w_fds w) fd = None) /\
     forall i c, w_calls w !! i = Some c -> closing (c_pc c) = true -> c_fd c <> fd) ->
  exists w', new_call connect fd event scd fiber m w = (Ret tt, w') /\ hook_ok w'.
Proof.
  intros Hw Hm Htry Hpc. unfold new_call. rewrite bind_get. unfold idle.
  case_bool_decide as Hidle; [|by exists w]. unfold with_fds. unfold mbind at 1, M_bind at 1. rewrite Hm.
  eexists. split; [reflexivity|].
  assert (Hk : parked pc = false /\ pc_timer pc = None /\ armed pc = false /\ (works pc = true -> pc = Try) /\
    forall a, pc <> LockContext None a /\ pc <> CloseLocked a).
  { destruct Hpc as [-> |[-> |[Hf|[[-> | ->] _]]]]; try done; by destruct pc. }
  destruct Hk as (H2 & H3 & H4 & H5 & H6).
  split; cbn [w_io w_fds w_calls w_timers w_expired w_cancels w_next w_missed on_fds on_calls]; try apply Hw.
  - intros i c [Hi|[_ Hi]]%lookup_app_Some; [by apply (hk_calls w Hw i)|].
    apply list_lookup_singleton_Some in Hi as [_ <-].
    split; cbn; try done; try (by left); try (by intros; subst).
    + intros Hn Hf. by destruct pc.
    + destruct Hpc as [-> |[-> |[Hf|(_ & ? & _)]]]; [done|done| |done]. by destruct pc.
    + intros _ Hwk Hne. by apply H5 in Hwk.
    + intros ->. by specialize (H5 eq_refl).
  - by apply waits_new; [apply Hw|..].
  - by apply timers_new; [apply Hw|..].
  - destruct (hk_closing w Hw) as [C1 C2 C3].
    assert (Hsplit : forall j d, (w_calls w ++ [mkCall connect fd event to scd fiber 0 pc pc (0, 0) false 0]) !! j = Some d ->
      closing (c_pc d) = true -> w_calls w !! j = Some d \/ (j = length (w_calls w) /\ c_fd d = fd /\ c_pc d = pc /\
        is_Some (modes (w_fds w) !! fd) /\ (pc = CloseF -> ctx_of (w_fds w) fd = None) /\
        forall i c, w_calls w !! i = Some c -> closing (c_pc c) = true -> c_fd c <> fd)).
    { intros j d [|[Hge Hj]]%lookup_app_Some Hd; [by left|right]. apply list_lookup_singleton_Some in Hj as [Hz <-].
      cbn in Hd. destruct Hpc as [-> |[-> |[Hf|(_ & _ & ? & ? & ?)]]]; [done|done|by destruct pc|]. split_and!; (done || lia). }
    split.
    + intros j d Hj Hd. destruct (Hsplit j d Hj Hd) as [Hj'|(_ & -> & _ & ? & _)]; [by apply (C1 j)|done].
    + intros j d Hj Hd. destruct (Hsplit j d Hj) as [Hj'|(_ & -> & Hp & _ & Hg & _)]; [by rewrite Hd|by apply (C2 j)|].
      apply Hg. congruence.
    + intros j l d e Hj Hl Hd He Hf. destruct (Hsplit j d Hj Hd) as [Hj'|(-> & F1 & _ & _ & _ & Hu)],
        (Hsplit l e Hl He) as [Hl'|(-> & F2 & _ & _ & _ & Hu')]; [by apply (C3 j l d e)| | |done].
      * destruct (Hu' j d Hj' Hd). congruence.
      * destruct (Hu l e Hl' He). congruence.
  - destruct (hk_addrs w Hw) as [A1 A2]. split; [|done]. intros i c a [Hi|[_ Hi]]%lookup_app_Some Ha; [by apply (A1 i)|].
    apply list_lookup_singleton_Some in Hi as [_ <-]. revert Ha H3. unfold pc_addr. cbn. destruct pc; try done. by destruct (H6 a0).
  - intros i c [Hi|[_ Hi]]%lookup_app_Some Hz; [by apply (hk_marks w Hw)|].
    by apply list_lookup_singleton_Some in Hi as [_ <-].
Qed.
(** A call on a descriptor below -1. *)
Lemma new_call_undefined w connect fd event scd fiber (m : M (FdManager F) (Pc * Z)) s' :
  idle fiber w = true -> m (w_fds w) = (Crash, s') -> exists w', new_call connect fd event scd fiber m w = (Crash, w').
Proof. intros Hi Hm. unfold new_call. rewrite bind_get, Hi. unfold with_fds, mbind, M_bind. rewrite Hm. by eexists. Qed.

(** Callbacks. *)
Lemma callback_ok w j i :
  hook_ok w -> w_expired w !! j = Some i ->
  exists w', timer_callback i (on_expired (delete j) w) = (Ret tt, w') /\ hook_ok w'.
Proof.
  intros Hw Hj. destruct (to_owner _ _ _ _ _ (hk_timers w Hw) i) as (c & Hi & Hent & Hto);
    [right; left; by eapply list_elem_of_lookup_2|].
  unfold timer_callback. rewrite bind_get. cbn [w_calls on_expired]. rewrite Hi.
  destruct (finished (c_pc c) || negb (c_cancelled c =? 0)) eqn:Edone.
  - eexists. split; [reflexivity|]. split; try apply Hw. apply (timers_called _ _ _ _ _ j i); [apply Hw|done|].
    intros c' Hi' Ha. cbn in Hi'. assert (c' = c) as -> by congruence. apply orb_true_iff in Edone as [Hf|Hz].
    + by destruct (c_pc c).
    + by destruct (Z.eqb_spec (c_cancelled c) 0).
  - apply orb_false_iff in Edone as [Hf Hz]. set (w1 := on_expired (delete j) w). set (c' := set_cancelled ETIMEDOUT c).
    assert (Hi1 : w_calls w1 !! i = Some c) by done.
    mstep (upd_call_run w1 i c (set_cancelled ETIMEDOUT) Hi1). eexists. split; [reflexivity|].
    pose proof (hk_calls w Hw i c Hi) as [C1 C0 C2 C3 C4 C5 C8 C6 C7].
    assert (Hw2 : hook_ok (on_cancels (fun l => l ++ [(i, None)]) w)).
    { pose proof Hw as [I1 I2 I3 I4 I5 I6 I7 I8]. split; try done; cbn [w_cancels on_cancels]; rewrite ?map_app; cbn [map fst].
      - apply (timers_cancels _ _ _ (map fst (w_cancels w))); [done|]. intros k [Hk| ->%list_elem_of_singleton]%elem_of_app.
        + apply (to_owner _ _ _ _ _ I5). auto.
        + by exists c.
      - apply (addrs_cancels _ _ (w_cancels w)); [done|]. intros k a [|Hk%list_elem_of_singleton]%elem_of_app; [by left|done].
      - apply (marks_more (io_scheduled (w_io w)) _ _ (map fst (w_cancels w)) _ (w_missed w)); [done|auto| |done].
        intros k d _ Hk _. left. apply elem_of_app. by left. }
    assert (Hput : hook_ok (put i c' (on_cancels (fun l => l ++ [(i, None)]) w))).
    { apply (hook_put _ i c c'); try done; [| | | |by right].
      - split_and!; try done. auto.
      - split; try done; [by right|]. cbn. intros n e Hpc. by rewrite Hpc in Hf.
      - intros _. right. cbn. rewrite map_app. apply elem_of_app. right. by apply list_elem_of_singleton.
      - intros a. apply (ad_call _ _ _ (hk_addrs w Hw) i c a Hi). }
    split; try apply Hput. apply (timers_called _ _ _ _ _ j i); [apply Hput|done|]. intros d Hd _.
    cbn in Hd. rewrite list_lookup_insert_eq in Hd by (by eapply lookup_lt_Some). by injection Hd as <-.
Qed.
(** A callback's [cancelEvent]. *)
Lemma elem_of_delete_fst {A} (l : list (nat * A)) j i x k : l !! j = Some (i, x) -> k ∈ map fst l -> k = i \/ (k ∈ map fst (delete j l)).
Proof.
  intros Hj (y & -> & Hy)%list_elem_of_fmap. destruct (elem_of_delete l j _ y Hj Hy) as [->|Hin]; [by left|right].
  apply list_elem_of_fmap. by exists y.
Qed.
Lemma hook_cancelled w j i x w1 :
  hook_ok w -> w_cancels w !! j = Some (i, x) -> hook_ok w1 -> w_cancels w1 = w_cancels w ->
  (forall c, w_calls w1 !! i = Some c -> c_cancelled c <> 0 ->
    (i ∈ w_missed w1) \/ parked (c_pc c) = true /\ (task c ∈ io_scheduled (w_io w1)) \/ leaving (c_pc c) = true) ->
  hook_ok (on_cancels (delete j) w1).
Proof.
  intros Hw Hj [I1 I2 I3 I4 I5 I6 I7 I8] Ec Hx. split; try done; cbn [on_cancels w_cancels w_io w_calls w_missed w_timers w_expired w_next].
  - apply (timers_cancels _ _ _ (map fst (w_cancels w1))); [done|]. intros k (y & -> & Hy)%list_elem_of_fmap.
    apply (to_owner _ _ _ _ _ I5). right. right. apply list_elem_of_fmap. exists y. split; [done|]. by eapply delete_elem_of.
  - apply (addrs_cancels _ _ (w_cancels w1)); [done|]. intros k a Hk. left. by eapply delete_elem_of.
  - apply (marks_more (io_scheduled (w_io w1)) _ _ (map fst (w_cancels w1)) _ (w_missed w1)); [done|auto| |done].
    intros k c Hk Hin Hz. rewrite <- Ec in Hj. destruct (elem_of_delete_fst _ _ _ _ _ Hj Hin) as [->|]; [|by left].
    right. by apply Hx.
Qed.
Lemma hook_miss w i : hook_ok w -> hook_ok (on_missed (fun l => i :: l) w).
Proof.
  intros [I1 I2 I3 I4 I5 I6 I7 I8]. split; try done. cbn [on_missed w_missed w_io w_calls w_cancels].
  apply (marks_more (io_scheduled (w_io w)) _ _ (map fst (w_cancels w)) _ (w_missed w)); [done|auto|auto|].
  intros x Hx. apply elem_of_cons. by right.
Qed.
Lemma cancel_ok w j i x :
  hook_ok w -> w_cancels w !! j = Some (i, x) ->
  exists w', callback_cancel i x (on_cancels (delete j) w) = (Ret tt, w') /\ hook_ok w'.
Proof.
  intros Hw Hj. destruct (to_owner _ _ _ _ _ (hk_timers w Hw) i) as (c & Hi & Hent & Hto).
  { right. right. apply list_elem_of_fmap. exists (i, x). split; [done|]. by eapply list_elem_of_lookup_2. }
  destruct (co_range c (hk_calls w Hw i c Hi) Hent) as [Hfd Hev].
  unfold callback_cancel. rewrite bind_get. cbn [w_calls on_cancels]. rewrite Hi. destruct x as [a|].
  - destruct (ad_cancel _ _ _ (hk_addrs w Hw) i a) as [d Hd]; [by eapply list_elem_of_lookup_2|].
    destruct (cancel_moves (w_io w) a d (c_fd c) (c_event c) (hk_io w Hw) Hd Hev) as (b & s' & E & Hm & _).
    assert (Hw1 : hook_ok (on_io (fun _ => s') w)) by by apply hook_moves.
    unfold with_io. unfold mbind, M_bind. cbn [w_io on_cancels]. rewrite E. unfold get. case_bool_decide as Hin.
    + eexists. split; [reflexivity|].
      apply (hook_cancelled w j i (Some a) (on_io (fun _ => s') w) Hw Hj Hw1 eq_refl).
      intros c' Hc' Hz. cbn in Hc', Hin |- *. assert (c' = c) as -> by congruence.
      destruct (hk_waits _ Hw1) as [_ _ W3 _ W5]. destruct (W3 _ Hin) as (k & d' & Hk & Hp & Ht).
      destruct (parked (c_pc c)) eqn:Epc; [by auto|]. right. right.
      destruct (finished (c_pc c)) eqn:Ef; [by destruct (c_pc c)|]. assert (k = i) as ->; [|cbn in Hk; congruence].
      apply (W5 k i d' c); try done; [by apply parked_unfinished|]. by injection Ht.
    + eexists. split; [reflexivity|].
      apply (hook_cancelled w j i (Some a) (on_missed (fun l => i :: l) (on_io (fun _ => s') w)) Hw Hj); [by apply hook_miss|done|].
      intros c' _ _. left. cbn. apply elem_of_cons. by left.
  - destruct (find_moves (w_io w) (c_fd c) (hk_io w Hw) Hfd) as (p & E & Hp).
    mstep (with_io_same _ (on_cancels (delete j) w) _ E). destruct p as [a|].
    + eexists. split; [reflexivity|]. destruct (Hp a eq_refl) as (d & Hd & _). pose proof Hw as [I1 I2 I3 I4 I5 I6 I7 I8].
      assert (Hown : forall k, k ∈ map fst (delete j (w_cancels w) ++ [(i, Some a)]) -> k ∈ map fst (w_cancels w)).
      { intros k. rewrite map_app, elem_of_app. cbn [map fst]. rewrite list_elem_of_singleton. intros [(y & -> & Hy)%list_elem_of_fmap| ->].
        - apply list_elem_of_fmap. exists y. split; [done|]. by eapply delete_elem_of.
        - apply list_elem_of_fmap. exists (i, None). split; [done|]. by eapply list_elem_of_lookup_2. }
      split; try done; cbn [on_cancels w_cancels w_io w_calls w_missed w_timers w_expired w_next].
      * apply (timers_cancels _ _ _ (map fst (w_cancels w))); [done|]. intros k Hk%Hown. apply (to_owner _ _ _ _ _ I5). auto.
      * apply (addrs_cancels _ _ (w_cancels w)); [done|]. intros k b [Hk|Hk%list_elem_of_singleton]%elem_of_app.
        -- left. by eapply delete_elem_of.
        -- injection Hk as <- <-. right. by exists d.
      * apply (marks_more (io_scheduled (w_io w)) _ _ (map fst (w_cancels w)) _ (w_missed w)); [done|auto| |done].
        intros k c' _ Hin _. left. rewrite map_app, elem_of_app. cbn [map fst]. rewrite list_elem_of_singleton.
        destruct (elem_of_delete_fst _ _ _ _ _ Hj Hin) as [->|]; auto.
    + eexists. split; [reflexivity|].
      apply (hook_cancelled w j i None (on_missed (fun l => i :: l) w) Hw Hj); [by apply hook_miss|done|].
      intros c' _ _. left. cbn. apply elem_of_cons. by left.
Qed.

(** Where a step goes wrong. *)
Inductive goes_wrong w : Label -> Prop :=
| wrong_region i c n e error :
    w_calls w !! i = Some c -> double_wait w i c \/ cannot_grow c -> goes_wrong w (LRegion i n e error)
| wrong_io fd read scd fiber : fd < -1 -> goes_wrong w (LIo true fd read scd fiber)
| wrong_connect fd timeout_ms scd fiber : fd < -1 -> goes_wrong w (LConnect true fd timeout_ms scd fiber)
| wrong_close fd scd fiber : fd < -1 -> goes_wrong w (LClose true fd scd fiber)
| wrong_fds o : fd_undefined o (w_fds w) = true -> goes_wrong w (LFds o).
Lemma below_run w connect fd event scd fiber (m : M (FdManager F) (Pc * Z)) (f : option nat -> M (FdManager F) (Pc * Z)) :
  hook_ok w -> fd < -1 -> m = (p ← get_ctx fd false; f p) ->
  (exists w', new_call connect fd event scd fiber m w = (Ret tt, w') /\ hook_ok w') \/
  exists w', new_call connect fd event scd fiber m w = (Crash, w').
Proof.
  intros Hw Hfd ->. destruct (idle fiber w) eqn:Ei.
  - right. apply (new_call_undefined _ _ _ _ _ _ _ (w_fds w) Ei). by mstep (get_ctx_below (w_fds w) fd false (mg_ok _ (hk_fds w Hw)) Hfd).
  - left. exists w. unfold new_call. rewrite bind_get, Ei. done.
Qed.
Lemma step_run w l :
  hook_ok w -> label_ok w l ->
  (exists w', step l w = (Ret tt, w') /\ hook_ok w') \/ goes_wrong w l /\ exists w', step l w = (Crash, w').
Proof.
  intros Hw Hok. pose proof (hk_fds w Hw) as Hm.
  destruct l as [hook fd read scd f|hook fd to scd f|hook fd scd f|i n e error|t|j|j|first events a|o]; cbn [step].
  - destruct hook; [|left; by apply (new_call_ok w _ _ _ _ _ _ Direct NO_TIMEOUT); auto].
    destruct (Z.lt_ge_cases fd (-1)) as [Hlow|Hfd].
    { destruct (below_run w false fd (if read then READ else WRITE) scd f (do_io true fd (SO_TIMEO read)) _ Hw Hlow eq_refl);
        [by left|right; split; [by constructor|done]]. }
    left. pose proof (do_io_run (w_fds w) fd (SO_TIMEO read) Hm Hfd) as E.
    pose proof (entry_of_inv (w_fds w) fd (getTimeOut (SO_TIMEO read)) Direct (or_introl eq_refl)) as Hen.
    destruct (entry_of _ _ _ _) as [pc to]. apply (new_call_ok w _ _ _ _ _ _ pc to Hw E); [|tauto].
    intros Htry. cbn in Hen. destruct Hen as [Hen _]. specialize (Hen Htry). split; [lia|]. destruct read; [by left|by right].
  - destruct hook; [|left; by apply (new_call_ok w _ _ _ _ _ _ Direct NO_TIMEOUT); auto].
    destruct (Z.lt_ge_cases fd (-1)) as [Hlow|Hfd].
    { destruct (below_run w true fd WRITE scd f (connect_with_timeout true fd to) _ Hw Hlow eq_refl);
        [by left|right; split; [by constructor|done]]. }
    left. pose proof (connect_run (w_fds w) fd to Hm Hfd) as E.
    pose proof (entry_of_inv (w_fds w) fd (fun _ => to) (Done (-1) EBADF) (or_intror eq_refl)) as Hen.
    destruct (entry_of _ _ _ _) as [pc to0]. apply (new_call_ok w _ _ _ _ _ _ pc to0 Hw E); [|tauto].
    intros Htry. cbn in Hen. destruct Hen as [Hen _]. specialize (Hen Htry). split; [lia|]. by right.
  - destruct Hok as (-> & Hok). destruct (Z.lt_ge_cases fd (-1)) as [Hlow|Hfd].
    { destruct (below_run w false fd NONE scd f (hook_close true fd) _ Hw Hlow eq_refl);
        [by left|right; split; [by constructor|done]]. }
    destruct Hok as [|(Hnn & Hopen & Hu)]; [lia|]. left. destruct (get_ctx_run (w_fds w) fd (mg_ok _ Hm) Hfd) as (p & E & Hp).
    apply (new_call_ok w _ _ _ _ _ _ (match p with Some _ => CloseAll | None => CloseF end) NO_TIMEOUT); [done| | |].
    + unfold hook_close. cbn [negb]. by mstep E.
    + by destruct p.
    + right. right. right. destruct p; split_and!; auto; done.
  - rewrite bind_get. destruct (w_calls w !! i) as [c|] eqn:Hi; [|left; by exists w].
    destruct (region_ok w i c n e error Hw Hi) as [|[Hx E]]; [by left|right]. split; [by apply (wrong_region w i c)|done].
  - left. rewrite bind_get. destruct (w_timers w !! t) as [i|] eqn:Ht; [|by exists w]. rewrite bind_modify.
    eexists. split; [reflexivity|]. split; try apply Hw. by apply timers_expire; [apply Hw|].
  - left. rewrite bind_get. destruct (w_expired w !! j) as [i|] eqn:Hj; [|by exists w]. rewrite bind_modify. by apply callback_ok.
  - left. rewrite bind_get. destruct (w_cancels w !! j) as [[i x]|] eqn:Hj; [|by exists w]. rewrite bind_modify. by apply cancel_ok.
  - left. rewrite bind_get. destruct (decide _) as [Ha|]; [|by exists w].
    destruct (handle_event_moves (w_io w) first events a (hk_io w Hw) Ha) as (s' & E & Hmv).
    unfold with_io. rewrite E. eexists. split; [reflexivity|]. by apply hook_moves.
  - destruct Hok as [Hok Hcl]. pose proof (fd_run_cases (w_fds w) o Hm Hok) as Hrun. unfold with_fds, mbind, M_bind.
    destruct (fd_undefined o (w_fds w)) eqn:Hu.
    + right. destruct Hrun as [s' E]. rewrite E. split; [by constructor|by eexists].
    + left. destruct Hrun as (r & s' & E & [Hm' Hk _]). rewrite E. eexists. split; [reflexivity|]. split; try apply Hw; [done|].
      apply (closing_keeps (w_fds w)); [apply Hw|by apply Hk].
Qed.
Lemma reachable_ok k f w : reachable k f w -> hook_ok w.
Proof.
  induction 1 as [|w l w' _ IH Hok E].
  - split; cbn; [apply new_IOManager_good|apply new_managed|done| | | | |done].
    + split; cbn; try done; [|apply NoDup_nil_2|]; [intros a event x; by rewrite new_IOManager_slots|].
      intros x Hx. by apply not_elem_of_nil in Hx.
    + split; try done. intros i [[t Ht]|[Hi|Hi]]; [done|by apply not_elem_of_nil in Hi..].
    + by split.
    + split; [done|]. intros i a Hi. by apply not_elem_of_nil in Hi.
  - destruct (step_run w l IH Hok) as [(w'' & E' & Hw)|(_ & w'' & E')]; rewrite E in E'.
    + by injection E' as <-.
    + done.
Qed.

Lemma parked_pc pc : parked pc = true -> exists t, pc = Parked t.
Proof. destruct pc; (done || by eexists). Qed.
(** C17: Hooked calls and the I/O manager together: at any point of any
    interleaving of the sections of calls (each lock of the I/O manager taken on
    its own, so that contexts can be lost while a thread is in [addEvent]), of
    timers, callbacks and epoll's reports, a fiber parked in a hooked call is
    either the waiter for its event in a context of its descriptor, or one of
    the scheduler's tasks, never both; nobody waits in two places or is a task
    twice; and every waiter and every task is a parked fiber: none is resumed
    twice. *)
Theorem hooked_calls_wake_once k f w :
  reachable k f w ->
  NoDup (io_scheduled (w_io w)) /\
  (forall i c t, w_calls w !! i = Some c -> c_pc c = Parked t ->
    (exists a d, io_heap (w_io w) !! a = Some d /\ fd_fd d = c_fd c /\ waiter (slot (c_event c) d) = Some (task c)) /\
      ~ task c ∈ io_scheduled (w_io w) \/
    task c ∈ io_scheduled (w_io w) /\ forall a event, event_ok event -> slot_at (w_io w) a event <> Some (task c)) /\
  (forall a a' event event' x, event_ok event -> event_ok event' -> slot_at (w_io w) a event = Some x ->
    slot_at (w_io w) a' event' = Some x -> a = a' /\ event = event') /\
  (forall x, x ∈ io_scheduled (w_io w) \/ (exists a event, event_ok event /\ slot_at (w_io w) a event = Some x) ->
    exists i c t, w_calls w !! i = Some c /\ c_pc c = Parked t /\ task c = x).
Proof.
  intros Hr. pose proof (reachable_ok k f w Hr) as Hw. pose proof (hk_waits w Hw) as [W1 W2 W3 W4 W5].
  split; [exact W2|]. split; [|split].
  - intros i c t Hi Hpc. assert (Hp : parked (c_pc c) = true) by (by rewrite Hpc).
    pose proof (parked_event w i c Hw Hi Hp) as Hev. destruct (W4 i c Hi Hp) as [Hs|Hin].
    + left. split; [|by apply (W1 _ _ _ Hev Hs)].
      destruct (ad_call _ _ _ (hk_addrs w Hw) i c (c_addr c) Hi) as (d & Hd & Ef); [unfold pc_addr; by rewrite Hpc|].
      exists (c_addr c), d. split_and!; [done..|]. unfold slot_at in Hs. by rewrite Hd in Hs.
    + right. split; [done|]. intros a event Hev' Hs. by destruct (W1 _ _ _ Hev' Hs).
  - intros a a' event event' x Hev Hev' Hx Hx'. destruct (W1 _ _ _ Hev Hx) as (_ & i & c & Hi & Hc & <- & <- & <-).
    destruct (W1 _ _ _ Hev' Hx') as (_ & j & d & Hj & Hd & <- & <- & Ht).
    assert (i = j) as <- by by apply (task_inj (w_io w) (w_calls w) i j c d (hk_waits w Hw)). by simplify_eq.
  - intros x [Hx|(a & event & Hev & Hx)].
    + destruct (W3 x Hx) as (i & c & Hi & Hp & Ht). destruct (parked_pc _ Hp) as [t E]. by exists i, c, t.
    + destruct (W1 _ _ _ Hev Hx) as (_ & i & c & Hi & Hp & _ & _ & Ht). destruct (parked_pc _ Hp) as [t E]. by exists i, c, t.
Qed.

(** C18: What a hooked read or write on a blocking socket returns: the last
    result of the original function, which is then neither EAGAIN nor EINTR; or
    ETIMEDOUT, and then the descriptor has a timeout and the call's timer has
    run; or -1 because addEvent failed. *)
Theorem hooked_io_result k f w i c n e :
  reachable k f w -> w_calls w !! i = Some c -> c_entry c = Try -> c_connect c = false -> c_pc c = Done n e ->
  (n, e) = c_last c /\ ~ (n = -1 /\ (e = EAGAIN \/ e = EINTR)) \/
  n = -1 /\ e = ETIMEDOUT /\ c_cancelled c = ETIMEDOUT /\ c_to c <> NO_TIMEOUT \/
  n = -1 /\ c_failed c = true.
Proof.
  intros Hr Hi Hent Hcon Hpc. pose proof (reachable_ok k f w Hr) as Hw. pose proof (hk_calls w Hw i c Hi) as Hc.
  destruct (co_done c Hc n e Hpc Hent) as [(Hl & Hm & Hin)|[(-> & -> & Ht)|Hf]].
  - left. split; [done|]. intros [-> [-> | ->]]; [by rewrite Hcon in Hm|by apply Hin].
  - right. left. split_and!; try done. destruct (co_cancelled c Hc) as [Hz|[_ ?]]; [by rewrite Ht in Hz|done].
  - right. right. by rewrite Hcon in Hf.
Qed.

(** C22: What becomes of the timeout of a call.  A call without one is never
    marked.  While a call with one is in [addEvent] or parked, its timer is still
    to expire, or its callback is still to begin, or the call is marked ETIMEDOUT
    and then its callback is still to cancel the event, or has woken the fiber, or
    has ended without that ([w_missed]: the lost timeouts).  A callback that
    begins on a call that is neither marked nor finished does go on to
    [cancelEvent]; that misses when it finds no context; and on the context where
    the call waits, unless epoll refuses, it wakes the fiber. *)
Theorem hooked_timeout_kept k f w i c :
  reachable k f w -> w_calls w !! i = Some c ->
  (c_to c = NO_TIMEOUT -> c_cancelled c = 0) /\
  (c_to c <> NO_TIMEOUT -> forall t, pc_timer (c_pc c) = Some t -> armed (c_pc c) = true ->
    exists t', t = Some t' /\ (w_timers w !! t' = Some i \/ i ∈ w_expired w \/
      c_cancelled c = ETIMEDOUT /\ (i ∈ map fst (w_cancels w) \/ i ∈ w_missed w \/
        parked (c_pc c) = true /\ task c ∈ io_scheduled (w_io w)))) /\
  (forall j, w_expired w !! j = Some i -> finished (c_pc c) = false -> c_cancelled c = 0 ->
    exists w', step (LCallback j) w = (Ret tt, w') /\ w_cancels w' = w_cancels w ++ [(i, None)]) /\
  (forall j, w_cancels w !! j = Some (i, None) ->
    exists p w', find_context (c_fd c) (w_io w) = (Ret p, w_io w) /\ step (LCancel j) w = (Ret tt, w') /\
      match p with
      | Some a => w_cancels w' = delete j (w_cancels w) ++ [(i, Some a)] /\ w_missed w' = w_missed w
      | None => w_cancels w' = delete j (w_cancels w) /\ w_missed w' = i :: w_missed w
      end) /\
  (forall j a d, w_cancels w !! j = Some (i, Some a) -> parked (c_pc c) = true -> io_heap (w_io w) !! a = Some d ->
    waiter (slot (c_event c) d) = Some (task c) ->
    accepts (w_io w) (removal (c_event c) d) (c_fd c) (Z.lor EPOLLET (without (fd_events d) (c_event c))) a = true ->
    exists w', step (LCancel j) w = (Ret tt, w') /\ task c ∈ io_scheduled (w_io w') /\ w_missed w' = w_missed w).
Proof.
  intros Hr Hi. pose proof (reachable_ok k f w Hr) as Hw. pose proof (hk_calls w Hw i c Hi) as Hc.
  assert (Hrange : (exists x, (i, x) ∈ w_cancels w) -> 0 <= c_fd c).
  { intros [x Hx]. destruct (to_owner _ _ _ _ _ (hk_timers w Hw) i) as (c' & Hi' & Hent & _).
    { right. right. apply list_elem_of_fmap. by exists (i, x). }
    assert (c' = c) as -> by congruence. by destruct (co_range c Hc Hent). }
  split; [|split; [|split; [|split]]].
  - intros Hto. by destruct (co_cancelled c Hc) as [|[_ ?]].
  - intros Hto t Hpc Ha. destruct (to_armed _ _ _ _ _ (hk_timers w Hw) i c Hi Ha Hto) as (t' & Ht & Hor). exists t'. split; [congruence|].
    destruct Hor as [|[|Hne]]; [auto|auto|]. right. right. split; [by destruct (co_cancelled c Hc) as [|[? _]]|].
    destruct (hk_marks w Hw i c Hi Hne) as [|[|[|Hl]]]; [auto|auto|auto|]. by destruct (c_pc c).
  - intros j Hj Hf Hz. cbn [step]. rewrite bind_get, Hj, bind_modify. unfold timer_callback. rewrite bind_get.
    cbn [w_calls on_expired]. rewrite Hi, Hf, Hz. cbn [orb negb Z.eqb].
    mstep (upd_call_run (on_expired (delete j) w) i c (set_cancelled ETIMEDOUT) Hi). by eexists.
  - intros j Hj. assert (Hfd : 0 <= c_fd c) by (apply Hrange; eexists; by eapply list_elem_of_lookup_2).
    destruct (find_moves (w_io w) (c_fd c) (hk_io w Hw) Hfd) as (p & E & _). exists p.
    cbn [step]. rewrite bind_get, Hj, bind_modify. unfold callback_cancel. rewrite bind_get. cbn [w_calls on_cancels]. rewrite Hi.
    mstep (with_io_same _ (on_cancels (delete j) w) _ E). destruct p as [a|]; by eexists.
  - intros j a d Hj Hp Hd Hx Hacc. pose proof (parked_event w i c Hw Hi Hp) as Hev.
    destruct (cancel_moves (w_io w) a d (c_fd c) (c_event c) (hk_io w Hw) Hd Hev) as (b & s' & E & _ & Hs).
    assert (Hin : task c ∈ io_scheduled s') by (apply Hs; [unfold slot_at; by rewrite Hd|done]).
    cbn [step]. rewrite bind_get, Hj, bind_modify. unfold callback_cancel. rewrite bind_get. cbn [w_calls on_cancels]. rewrite Hi.
    unfold with_io, mbind, M_bind. cbn [w_io on_cancels]. rewrite E. unfold get. rewrite bool_decide_eq_true_2 by done.
    by eexists.
Qed.


(** How a hooked call begins.  Without hooks, on a descriptor that is not a
    socket of the manager, or on one that its user made nonblocking, the original
    function is called once and its result returned as it is; otherwise the call
    may wait, up to the descriptor's own timeout, or, for connect, the one given. *)
Theorem hooked_entry k f w fd so timeout_ms :
  reachable k f w -> -1 <= fd ->
  (forall hook, hook = false \/ (ctx_of (w_fds w) fd = None) \/
      (exists c, ctx_of (w_fds w) fd = Some c /\ m_userNoblock c = true) ->
    do_io hook fd so (w_fds w) = (Ret (Direct, NO_TIMEOUT), w_fds w)) /\
  (forall c, ctx_of (w_fds w) fd = Some c -> m_userNoblock c = false ->
    do_io true fd so (w_fds w) = (Ret (Try, getTimeOut so c), w_fds w) /\
    connect_with_timeout true fd timeout_ms (w_fds w) = (Ret (Try, timeout_ms), w_fds w)) /\
  (ctx_of (w_fds w) fd = None ->
    connect_with_timeout true fd timeout_ms (w_fds w) = (Ret (Done (-1) EBADF, NO_TIMEOUT), w_fds w)) /\
  (forall i c n e error, w_calls w !! i = Some c -> c_pc c = Direct ->
    region i c n e error w = (Ret tt, put i (set_pc (Done n e) c) w)).
Proof.
  intros Hr Hfd. pose proof (hk_fds w (reachable_ok k f w Hr)) as Hm.
  pose proof (do_io_run (w_fds w) fd so Hm Hfd) as E1. pose proof (connect_run (w_fds w) fd timeout_ms Hm Hfd) as E2.
  unfold entry_of in *. refine (conj _ (conj _ (conj _ _))).
  - intros hook Hc. destruct hook; [|done]. rewrite E1. destruct Hc as [|[-> |(c & -> & ->)]]; done.
  - intros c Hc Hu. by rewrite E1, E2, Hc, Hu.
  - intros Hc. by rewrite E2, Hc.
  - intros i c n e error Hi Hpc. unfold region. rewrite Hpc. by apply goto_run.
Qed.
End World.

(** ** Sleeping

    [sleep] wraps above 4294967 seconds; [nanosleep] takes its nanoseconds from
    [rem], whatever [req] says, and crashes with a null [rem]. *)
Theorem sleep_durations :
  (forall s, 0 <= s < 2 ^ 32 -> sleep_ms s = s * 1000 <-> s <= 4294967) /\
  (forall us, 0 <= us < 2 ^ 32 -> usleep_ms us = us / 1000) /\
  (forall sec nsec, 0 <= sec < 2 ^ 53 -> nanosleep_ms (sec, nsec) None = Crash) /\
  (forall sec nsec rsec rnsec, 0 <= sec < 2000000 -> 0 <= rnsec < 1000000000 ->
    nanosleep_ms (sec, nsec) (Some (rsec, rnsec)) = Ret (sec * 1000 + rnsec / 1000000)).
Proof.
  split_and!.
  - intros s Hs. unfold sleep_ms. assert (E : u32 s = s) by (apply wrapu_id; lia). rewrite E. unfold u32, wrapu.
    split; intros Hx; [|apply Z.mod_small; lia]. assert (s * 1000 mod 2 ^ 32 < 2 ^ 32) by (apply Z.mod_pos_bound; lia). lia.
  - intros us Hus. unfold usleep_ms, u32. by rewrite wrapu_id.
  - intros sec nsec Hs. unfold nanosleep_ms. cbn [fst]. by rewrite chk_signed_Ret by lia.
  - intros sec nsec rsec rnsec Hs Hr. unfold nanosleep_ms. cbn [fst]. rewrite chk_signed_Ret by lia.
    unfold mbind, outcome_bind.
    assert (E : Z.quot (Z.quot rnsec 1000) 1000 = rnsec / 1000000).
    { rewrite !Z.quot_div_nonneg by (try apply Z.quot_pos; lia). by rewrite Z.div_div by lia. }
    assert (0 <= rnsec / 1000000 < 1000) by (split; [apply Z.div_pos; lia|apply Z.div_lt_upper_bound; lia]).
    rewrite E, chk_signed_Ret by lia. unfold u64, i32. rewrite wraps_id by lia. by rewrite wrapu_id by lia.
Qed.

(** ** Runs *)
#[local] Existing Instance table_epoll.
#[local] Existing Instance table_files.
#[local] Existing Instance table_filespec.
Abbreviation world := (Hook table fdtable).
Definition start_world : world := new_Hook ∅ ∅.
Fixpoint after (ls : list Label) (w : world) : world :=
  match ls with [] => w | l :: ls => after ls (snd (step l w)) end.
(** The labels whose conditions do not depend on the world. *)
Definition label_fine (l : Label) : bool :=
  match l with
  | LClose _ _ _ _ => false
  | LFds o => match o with FSocket _ _ _ | FAccept _ | FSetsockopt _ _ _ _ => true | _ => false end
  | _ => true
  end.
Definition steps (l : Label) (w : world) : bool := match fst (step l w) with Ret _ => true | _ => false end.
Fixpoint all_step (ls : list Label) (w : world) : bool :=
  match ls with [] => true | l :: ls => label_fine l && steps l w && all_step ls (snd (step l w)) end.
Lemma label_fine_ok (w : world) l : label_fine l = true -> label_ok w l.
Proof. by destruct l as [| | | | | | | |[]]. Qed.
Lemma hook_after_reachable ls (w : world) : reachable ∅ ∅ w -> all_step ls w = true -> reachable ∅ ∅ (after ls w).
Proof.
  revert w. induction ls as [|l ls IH]; intros w Hr Hs; [done|]. cbn in Hs |- *.
  apply andb_true_iff in Hs as [[Hl Hs]%andb_true_iff Hrest]. apply IH; [|done].
  unfold steps in Hs. destruct (step l w) as [[[]| | |] w'] eqn:E; try done. by apply (reach_step ∅ ∅ w l w' Hr (label_fine_ok w l Hl)).
Qed.

(** A socket with a timeout of 10 ms, and a read of it that would block. *)
Definition blocked_read : list Label :=
  [LFds (FSocket 2 1 0); LFds (FSetsockopt 3 SOL_SOCKET SO_RCVTIMEO (Some (0, 10000))); LIo true 3 true 0 7;
   LRegion 0 (-1) EAGAIN 0; LRegion 0 0 0 0].
(** It finds its context, locks it and waits; its timer fires. *)
Definition parks : list Label := [LRegion 0 0 0 0; LRegion 0 0 0 0].
Definition timed_out : list Label := blocked_read ++ parks ++ [LExpire 0; LCallback 0; LCancel 0; LCancel 0].
(** The timer fires between addConditionTimer and addEvent. *)
Definition fires_early : list Label := blocked_read ++ [LExpire 0; LCallback 0; LCancel 0; LCancel 0] ++ parks.
(** Who waits for an event of a descriptor, in the context that the vector has
    for it. *)
Definition waiter_of (s : IOManager table) (fd event : Z) : option (nat * FiberAndThread) :=
  a ← m_fdContexts s !! Z.to_nat fd; slot_at s a event.

(** C38: A timeout can be lost: when the timer fires after addConditionTimer and
    before addEvent, its callback finds no event to cancel; the fiber then parks
    with its call marked ETIMEDOUT, waiting for its descriptor, and no timer, no
    callback and no task is left that would wake it. *)
Theorem timeout_lost :
  exists (w : world) c, reachable ∅ ∅ w /\ w_calls w !! 0%nat = Some c /\ c_pc c = Parked (Some 0%nat) /\ c_to c = 10 /\
    c_cancelled c = ETIMEDOUT /\ w_timers w = ∅ /\ w_expired w = [] /\ w_cancels w = [] /\
    io_scheduled (w_io w) = [] /\ waiter_of (w_io w) 3 READ = Some (task c).
Proof.
  exists (after fires_early start_world), (mkCall false 3 READ 10 0 7 ETIMEDOUT (Parked (Some 0%nat)) Try (-1, EAGAIN) false 3).
  split; [apply hook_after_reachable; [constructor|vm_compute; reflexivity]|]. split_and!; vm_compute; reflexivity.
Qed.

Lemma timed_out_reachable : reachable ∅ ∅ (after timed_out start_world).
Proof. apply hook_after_reachable; [constructor|vm_compute; reflexivity]. Qed.
Definition parked_call : Call := mkCall false 3 READ 10 0 7 ETIMEDOUT (Parked (Some 0%nat)) Try (-1, EAGAIN) false 3.
Lemma hooked_calls_wake_once_witness :
  task parked_call ∈ io_scheduled (w_io (after timed_out start_world)).
Proof.
  destruct (hooked_calls_wake_once ∅ ∅ _ timed_out_reachable) as (_ & Hp & _).
  destruct (Hp 0%nat parked_call (Some 0%nat)) as [[(a & d & Ha & Hf & Hs) _]|[Hin _]]; [vm_compute; reflexivity|reflexivity| |exact Hin].
  exfalso. assert (Hn : Forall (fun d => fd_fd d <> 3 \/ waiter (fd_read d) = None) (io_heap (w_io (after timed_out start_world))))
    by (apply (bool_decide_unpack _); vm_compute; reflexivity).
  rewrite list.Forall_forall in Hn. apply list_elem_of_lookup_2, Hn in Ha as [Ha|Ha]; [exact (Ha Hf)|].
  change (waiter (fd_read d) = Some (task parked_call)) in Hs. rewrite Ha in Hs. discriminate Hs.
Defined.
Definition finished_run : list Label := timed_out ++ [LRegion 0 0 0 0; LRegion 0 0 0 0; LRegion 0 0 0 0].
Definition finished_call : Call := mkCall false 3 READ 10 0 7 ETIMEDOUT (Done (-1) ETIMEDOUT) Try (-1, EAGAIN) false 3.
Lemma hooked_io_result_witness :
  exists c, w_calls (after finished_run start_world) !! 0%nat = Some c /\ c_pc c = Done (-1) ETIMEDOUT /\ c_to c <> NO_TIMEOUT.
Proof.
  assert (Hr : reachable ∅ ∅ (after finished_run start_world)) by (apply hook_after_reachable; [constructor|vm_compute; reflexivity]).
  exists finished_call. split; [vm_compute; reflexivity|]. split; [reflexivity|].
  destruct (hooked_io_result ∅ ∅ _ 0%nat finished_call (-1) ETIMEDOUT Hr) as [[Hl _]|[(_ & _ & _ & Hto)|[_ Hf]]];
    [vm_compute; reflexivity|reflexivity|reflexivity|reflexivity|discriminate Hl|exact Hto|discriminate Hf].
Defined.
(** The callback of a parked call is about to cancel its event, at context 3. *)
Definition about_to_cancel : list Label := blocked_read ++ parks ++ [LExpire 0; LCallback 0; LCancel 0].
Lemma hooked_timeout_kept_witness :
  exists w : world, step (LCancel 0) (after about_to_cancel start_world) = (Ret tt, w) /\ task parked_call ∈ io_scheduled (w_io w).
Proof.
  assert (Hr : reachable ∅ ∅ (after about_to_cancel start_world)) by (apply hook_after_reachable; [constructor|vm_compute; reflexivity]).
  destruct (hooked_timeout_kept ∅ ∅ _ 0%nat parked_call Hr) as (_ & _ & _ & _ & H); [vm_compute; reflexivity|].
  destruct (H 0%nat 3%nat (mkFd 3 (mkEC (Some 0%nat) (Some 7%nat) None) no_event READ)) as (w & E & Hin & _);
    [vm_compute; reflexivity|reflexivity|vm_compute; reflexivity|vm_compute; reflexivity|vm_compute; reflexivity|].
  exists w. exact (conj E Hin).
Defined.
Lemma hooked_entry_witness :
  do_io true 3 SO_RCVTIMEO (w_fds (after blocked_read start_world)) = (Ret (Try, 10), w_fds (after blocked_read start_world)) /\
  do_io false 3 SO_RCVTIMEO (w_fds (after blocked_read start_world)) = (Ret (Direct, NO_TIMEOUT), w_fds (after blocked_read start_world)).
Proof.
  assert (Hr : reachable ∅ ∅ (after blocked_read start_world)) by (apply hook_after_reachable; [constructor|vm_compute; reflexivity]).
  destruct (hooked_entry ∅ ∅ _ 3 SO_RCVTIMEO 10 Hr) as (Hd & Ht & _); [lia|].
  split; [|apply Hd; by left].
  destruct (Ht (mkFdCtx true true true false false 3 10 NO_TIMEOUT)) as [E _]; [vm_compute; reflexivity|reflexivity|exact E].
Defined.
