(* ===== verification/WebSocket.v ===== *)
(** * WebSocket frames (cxk/http/ws_session.cpp, ws_session.h)

    The frame header as the two bytes of the packed bit-fields, the frame loop
    of [WSRecvMessage], [WSSendMessage], [WSPing] and [WSPong], over the
    abstract [Stream].  The limit of a message's length (the configuration
    variable websocket.message.max_size) and the number drawn by [rand()] are
    arguments.  The handshake is in no file: it is made of HTTP messages. *)
From S2P Require Import Prelude Endian ByteArray ByteCodec Stream.

Definition CONTINUE : Z := 0.
Definition TEXT_FRAME : Z := 1.
Definition BIN_FRAME : Z := 2.
Definition CLOSE : Z := 8.
Definition PING : Z := 9.
Definition PONG : Z := 10.

Record WSFrameHead := mkHead {
  opcode : Z; rsv3 : bool; rsv2 : bool; rsv1 : bool; fin : bool; payload : Z; mask : bool
}.
(** The two bytes in memory: bit-fields are allocated from the low bit. *)
Definition head_bytes (h : WSFrameHead) : list Z :=
  [Z.land (opcode h) 15 + 16 * Z.b2z (rsv3 h) + 32 * Z.b2z (rsv2 h) + 64 * Z.b2z (rsv1 h) + 128 * Z.b2z (fin h);
   Z.land (payload h) 127 + 128 * Z.b2z (mask h)].
Definition head_of_bytes (bs : list Z) : WSFrameHead :=
  let b0 := nth 0 bs 0 in let b1 := nth 1 bs 0 in
  mkHead (Z.land b0 15) (Z.testbit b0 4) (Z.testbit b0 5) (Z.testbit b0 6) (Z.testbit b0 7)
    (Z.land b1 127) (Z.testbit b1 7).
(** [memset(&ws_head, 0, sizeof(ws_head))] and the fields set after it. *)
Definition new_head (fin : bool) (opcode payload : Z) (mask : bool) : WSFrameHead :=
  mkHead (Z.land opcode 15) false false false fin (Z.land payload 127) mask.

Record WSFrameMessage := mkMessage { m_opcode : Z; m_data : list Z }.

(** [data[i] ^= mask[i % 4]] *)
Definition xor_mask (mask data : list Z) : list Z :=
  imap (fun i b => Z.lxor b (nth (i mod 4) mask 0)) data.

(** [std::string::resize] *)
Definition resize (n : nat) (data : list Z) : list Z := take n data ++ replicate (n - length data) 0.

(** The variables of the receiving loop. *)
Record Recv := mkRecv { r_opcode : Z; r_data : list Z; r_cur_len : Z }.
Definition new_Recv : Recv := mkRecv 0 [] 0.
Inductive Turn := Break | Next (v : Recv) | Done (m : WSFrameMessage).

Section WebSocket.
Context {St : Type} `{Stream St} (max_size : Z).

Definition control (opcode : Z) : M St Z :=
  v ← writeFixSize (head_bytes (new_head true opcode 0 false)) 2;
  (if v <=? 0 then s_close else mret tt) ;;
  mret v.
Definition WSPing : M St Z := control PING.
Definition WSPong : M St Z := control PONG.

(** The length field and its extensions; [None]: the stream ended. *)
Definition read_length (head : WSFrameHead) : M St (option Z) :=
  if payload head =? 126 then
    '(r, len) ← readFixSize 2;
    if r <=? 0 then mret None else mret (Some (byteswapOnLittleEndian 2 (le_combine len)))
  else if payload head =? 127 then
    '(r, len) ← readFixSize 8;
    if r <=? 0 then mret None else mret (Some (byteswapOnLittleEndian 8 (le_combine len)))
  else mret (Some (payload head)).
Definition read_mask (head : WSFrameHead) : M St (option (list Z)) :=
  if mask head then
    '(r, m) ← readFixSize 4;
    if r <=? 0 then mret None else mret (Some m)
  else mret (Some [0; 0; 0; 0]).
(** [for(int i = 0; i < (int)length; ++i) data[cur_len + i] ^= mask[i % 4]] *)
Definition unmask (cur_len : Z) (length : Z) (m data : list Z) : list Z :=
  let p := Z.to_nat cur_len in
  patch p (xor_mask m (slice p (Z.to_nat (i32 length)) data)) data.

(** The branch of the frames that carry data.  [data[cur_len]] past the end of
    the string is undefined. *)
Definition recv_data (client : bool) (head : WSFrameHead) (v : Recv) : M St Turn :=
  if negb client && negb (mask head) then mret Break else
  l ← read_length head;
  match l with
  | None => mret Break
  | Some length =>
      if max_size <=? u64 (r_cur_len v + length) then mret Break else
      om ← read_mask head;
      match om with
      | None => mret Break
      | Some m =>
          let data := resize (Z.to_nat (u64 (r_cur_len v + length))) (r_data v) in
          if Z.of_nat (List.length data) <? r_cur_len v then crash else
          '(r, d) ← readFixSize length;
          if r <=? 0 then mret Break else
          let data := patch (Z.to_nat (r_cur_len v)) d data in
          let data := if mask head then unmask (r_cur_len v) length m data else data in
          let cur_len := i32 (r_cur_len v + length) in
          let op := if (r_opcode v =? 0) && negb (opcode head =? CONTINUE)
                    then opcode head else r_opcode v in
          if fin head then mret (Done (mkMessage op data)) else mret (Next (mkRecv op data cur_len))
      end
  end.

Definition recv_frame (client : bool) (v : Recv) : M St Turn :=
  '(r, bs) ← readFixSize 2;
  if r <=? 0 then mret Break else
  let head := head_of_bytes bs in
  if opcode head =? PING then
    w ← WSPong;
    if w <=? 0 then mret Break else mret (Next v)
  else if opcode head =? PONG then mret (Next v)
  else if (opcode head =? CONTINUE) || (opcode head =? TEXT_FRAME) || (opcode head =? BIN_FRAME) then
    recv_data client head v
  else mret (Next v).

Fixpoint recv_loop (fuel : nat) (client : bool) (v : Recv) : M St (option WSFrameMessage) :=
  match fuel with
  | O => nofuel
  | S fuel =>
      t ← recv_frame client v;
      match t with
      | Break => s_close ;; mret None
      | Next v => recv_loop fuel client v
      | Done m => mret (Some m)
      end
  end.
Definition WSRecvMessage (fuel : nat) (client : bool) : M St (option WSFrameMessage) :=
  recv_loop fuel client new_Recv.

(** [int32_t WSSendMessage(stream, msg, client, fin)], with the number drawn by
    [rand()].  A client masks the message in place: it is returned. *)
Definition send_failed (msg : WSFrameMessage) : M St (Z * WSFrameMessage) := s_close ;; mret (-1, msg).
Definition send_length (payload size : Z) : M St Z :=
  if payload =? 126 then writeFixSize (le_split 2 (byteswapOnLittleEndian 2 (u16 size))) 2
  else if payload =? 127 then writeFixSize (le_split 8 (byteswapOnLittleEndian 8 size)) 8
  else mret 1.
Definition payload_of (size : Z) : Z := if size <? 126 then size else if size <? 65536 then 126 else 127.
Definition WSSendMessage (rand_value : Z) (msg : WSFrameMessage) (client fin : bool) : M St (Z * WSFrameMessage) :=
  let size := Z.of_nat (length (m_data msg)) in
  let head := new_head fin (m_opcode msg) (payload_of size) client in
  w ← writeFixSize (head_bytes head) 2;
  if w <=? 0 then send_failed msg else
  w ← send_length (payload head) size;
  if w <=? 0 then send_failed msg else
  let m := le_split 4 rand_value in
  let msg' := if client then mkMessage (m_opcode msg) (xor_mask m (m_data msg)) else msg in
  w ← (if client then writeFixSize m 4 else mret 1);
  if w <=? 0 then send_failed msg' else
  w ← writeFixSize (m_data msg') size;
  if w <=? 0 then send_failed msg' else
  mret (i32 (size + 2), msg').
End WebSocket.

(** ** The wire format *)
Definition first_byte_check (o : Z) : bool := forallb (fun f =>
  let b := Z.land o 15 + 128 * Z.b2z f in
  (Z.land b 15 =? o) && negb (Z.testbit b 4) && negb (Z.testbit b 5) && negb (Z.testbit b 6) &&
    eqb (Z.testbit b 7) f) [true; false].
Definition second_byte_check (q : Z) : bool := forallb (fun f =>
  let b := Z.land q 127 + 128 * Z.b2z f in (Z.land b 127 =? q) && eqb (Z.testbit b 7) f) [true; false].
Lemma head_roundtrip f op p mk :
  head_of_bytes (head_bytes (new_head f op p mk)) = new_head f op p mk.
Proof.
  unfold new_head.
  assert (Ho : 0 <= Z.land op 15 < 16)
    by (change 15 with (Z.ones 4); rewrite Z.land_ones by lia; apply Z.mod_pos_bound; lia).
  assert (Hp : 0 <= Z.land p 127 < 128)
    by (change 127 with (Z.ones 7); rewrite Z.land_ones by lia; apply Z.mod_pos_bound; lia).
  revert Ho Hp. generalize (Z.land op 15) as o, (Z.land p 127) as q. intros o q Ho Hq.
  pose proof (forallb_range 16 first_byte_check o ltac:(by vm_compute) ltac:(lia)) as E0.
  pose proof (forallb_range 128 second_byte_check q ltac:(by vm_compute) ltac:(lia)) as E1.
  unfold first_byte_check, second_byte_check in *. rewrite forallb_forall in E0, E1.
  specialize (E0 f ltac:(destruct f; simpl; auto)). specialize (E1 mk ltac:(destruct mk; simpl; auto)).
  apply andb_true_iff in E0 as [[[[A B]%andb_true_iff C]%andb_true_iff D]%andb_true_iff E].
  apply andb_true_iff in E1 as [F G]. apply Z.eqb_eq in A, F. apply eqb_prop in E, G.
  apply negb_true_iff in B, C, D.
  unfold head_of_bytes, head_bytes. cbn [nth opcode rsv3 rsv2 rsv1 fin payload mask Z.b2z].
  rewrite !Z.mul_0_r, !Z.add_0_r. by rewrite A, B, C, D, E, F, G.
Qed.

Lemma length_xor_mask m d : length (xor_mask m d) = length d.
Proof. apply length_imap. Qed.
Lemma xor_mask_involutive m d : xor_mask m (xor_mask m d) = d.
Proof.
  unfold xor_mask. apply list_eq. intros i. rewrite !list_lookup_imap.
  destruct (d !! i); [|done]. cbn. by rewrite Z.lxor_assoc, Z.lxor_nilpotent, Z.lxor_0_r.
Qed.

(** The extension of the length field. *)
Definition length_bytes (size : Z) : list Z :=
  if size <? 126 then [] else
  if size <? 65536 then le_split 2 (byteswapOnLittleEndian 2 size)
  else le_split 8 (byteswapOnLittleEndian 8 size).
Definition masked (m : option (list Z)) (data : list Z) : list Z :=
  match m with Some m => xor_mask m data | None => data end.
Definition frame_bytes (fin : bool) (op : Z) (m : option (list Z)) (data : list Z) : list Z :=
  let size := Z.of_nat (length data) in
  head_bytes (new_head fin op (payload_of size) (bool_decide (is_Some m))) ++
  length_bytes size ++ default [] m ++ masked m data.
Definition control_bytes (op : Z) : list Z := head_bytes (new_head true op 0 false).

Lemma payload_fits size : 0 <= size -> Z.land (payload_of size) 127 = payload_of size.
Proof.
  intros H. unfold payload_of. repeat zcase; try done.
  change 127 with (Z.ones 7). rewrite Z.land_ones by lia. apply Z.mod_small. lia.
Qed.
Lemma swap_back n v : 0 <= v < 2 ^ (8 * Z.of_nat n) ->
  byteswapOnLittleEndian n (le_combine (le_split n (byteswapOnLittleEndian n v))) = v.
Proof.
  intros Hv. unfold byteswapOnLittleEndian.
  rewrite le_combine_split, (wrapu_id _ (byteswap n v)) by apply byteswap_range.
  by rewrite byteswap_involutive, wrapu_id.
Qed.

Lemma patch_tail {A} (l c t : list A) : length c = length t -> patch (length l) c (l ++ t) = l ++ c.
Proof.
  intros E. unfold patch. rewrite take_app_length, E.
  rewrite drop_ge by (rewrite length_app; lia). by rewrite app_nil_r.
Qed.
Lemma resize_grow n data : resize (length data + n) data = data ++ replicate n 0.
Proof.
  unfold resize. rewrite take_ge by lia. do 2 f_equal. lia.
Qed.
Lemma unmask_tail data m d :
  Z.of_nat (length d) < 2 ^ 31 ->
  unmask (Z.of_nat (length data)) (Z.of_nat (length d)) m (data ++ d) = data ++ xor_mask m d.
Proof.
  intros Hd. unfold unmask. rewrite i32_small, !Nat2Z.id by lia.
  unfold slice. rewrite drop_app_length, take_ge by done.
  apply patch_tail. apply length_xor_mask.
Qed.

(** What a data frame adds to the message being received. *)
Definition recv_ok (v : Recv) : Prop := r_cur_len v = Z.of_nat (length (r_data v)).
Definition received (op : Z) (d : list Z) (v : Recv) : Recv :=
  mkRecv (if (r_opcode v =? 0) && negb (op =? CONTINUE) then op else r_opcode v)
    (r_data v ++ d) (r_cur_len v + Z.of_nat (length d)).
Definition turn_of (fin : bool) (v : Recv) : Turn :=
  if fin then Done (mkMessage (r_opcode v) (r_data v)) else Next v.
(** A frame that [WSRecvMessage] takes: of a data opcode, with a payload, and
    masked when the receiver is the server. *)
Definition frame_ok (client : bool) (op : Z) (m : option (list Z)) (d : list Z) : Prop :=
  0 <= op <= 2 /\ d <> [] /\ (client = false -> is_Some m) /\ from_option length 4%nat m = 4%nat.
Lemma data_op op : 0 <= op <= 2 -> Z.land op 15 = op.
Proof. intros H. change 15 with (Z.ones 4). rewrite Z.land_ones by lia. apply Z.mod_small. lia. Qed.
Lemma length_masked m d : length (masked m d) = length d.
Proof. destruct m; [apply length_xor_mask|done]. Qed.

(** What can arrive before the last frame: a fragment, or the two bytes of the
    header of a frame of another opcode, to which only PING is answered. A mask
    or a payload that this header announces is not skipped: it is what arrives
    next. *)
Inductive Segment :=
| Fragment (op : Z) (m : option (list Z)) (d : list Z)
| Control (b0 b1 : Z).
Definition segment_bytes (g : Segment) : list Z :=
  match g with Fragment op m d => frame_bytes false op m d | Control b0 b1 => [b0; b1] end.
Definition segment_ok (client : bool) (g : Segment) : Prop :=
  match g with Fragment op m d => frame_ok client op m d | Control b0 b1 => 3 <= Z.land b0 15 end.
Definition segment_data (g : Segment) : list Z := match g with Fragment _ _ d => d | Control _ _ => [] end.
Definition segment_next (g : Segment) (v : Recv) : Recv :=
  match g with Fragment op _ d => received op d v | Control _ _ => v end.
Definition answer (g : Segment) : list Z :=
  match g with Control b0 _ => if Z.land b0 15 =? PING then control_bytes PONG else [] | _ => [] end.
Definition receive_all (gs : list Segment) (v : Recv) : Recv := foldl (fun v g => segment_next g v) v gs.

Lemma received_ok op d v : recv_ok v -> recv_ok (received op d v).
Proof. unfold recv_ok. cbn. rewrite length_app. lia. Qed.

Section Receiving.
Context {St : Type} `{StreamSpec St} (max_size : Z).
Context (max_small : max_size <= 2 ^ 31).

(** A read of known size: the exact bytes, or the end of the stream. *)
Lemma read_exactly bs rest s :
  st_open s -> st_pending s = bs ++ rest -> Z.of_nat (length bs) < 2 ^ 31 ->
  exists s', readFixSize (Z.of_nat (length bs)) s = (Ret (Z.of_nat (length bs), bs), s') /\
    st_pending s' = rest /\ st_sent s' = st_sent s /\ st_open s'.
Proof. apply readFixSize_ok. Qed.

Lemma read_length_run f op size mk rest s :
  0 <= size < 2 ^ 31 -> st_open s -> st_pending s = length_bytes size ++ rest ->
  exists s', read_length (new_head f op (payload_of size) mk) s = (Ret (Some size), s') /\
    st_pending s' = rest /\ st_sent s' = st_sent s /\ st_open s'.
Proof.
  intros Hs Ho Hp. unfold read_length. cbn [payload new_head]. rewrite payload_fits by lia.
  revert Hp. unfold length_bytes, payload_of. zcase; [|zcase]; intros Hp.
  - repeat zcase. by exists s.
  - destruct (read_exactly _ _ s Ho Hp) as (s' & Hr & ?); [by rewrite length_le_split|].
    rewrite length_le_split in Hr. cbn [Z.eqb Pos.eqb]. mstep Hr. cbv beta iota.
    exists s'. by rewrite swap_back by (cbn; lia).
  - destruct (read_exactly _ _ s Ho Hp) as (s' & Hr & ?); [by rewrite length_le_split|].
    rewrite length_le_split in Hr. cbn [Z.eqb Pos.eqb]. mstep Hr. cbv beta iota.
    exists s'. by rewrite swap_back by (cbn; lia).
Qed.

Lemma read_mask_run f op p m rest s :
  from_option length 4%nat m = 4%nat -> st_open s -> st_pending s = default [] m ++ rest ->
  exists s', read_mask (new_head f op p (bool_decide (is_Some m))) s
      = (Ret (Some (default [0; 0; 0; 0] m)), s') /\
    st_pending s' = rest /\ st_sent s' = st_sent s /\ st_open s'.
Proof.
  intros Hm Ho Hp. unfold read_mask. cbn [mask new_head]. destruct m as [m|]; cbn in *; [|by exists s].
  destruct (read_exactly m rest s Ho Hp) as (s' & Hr & ?); [lia|]. rewrite Hm in Hr.
  change (Z.of_nat 4) with 4 in Hr. mstep Hr. by exists s'.
Qed.

Lemma recv_data_run client f op m d v rest s :
  recv_ok v -> frame_ok client op m d -> r_cur_len v + Z.of_nat (length d) < max_size -> st_open s ->
  st_pending s = length_bytes (Z.of_nat (length d)) ++ default [] m ++ masked m d ++ rest ->
  exists s', recv_data max_size client
      (new_head f op (payload_of (Z.of_nat (length d))) (bool_decide (is_Some m))) v s
      = (Ret (turn_of f (received op d v)), s') /\
    st_pending s' = rest /\ st_sent s' = st_sent s /\ st_open s'.
Proof.
  intros Hv (Hop & Hd & Hc & Hm) Hlen Ho Hp. unfold recv_ok in Hv. unfold recv_data.
  assert (Hl : (0 < length d)%nat) by (destruct d; [done|simpl; lia]).
  assert (E : negb client && negb (bool_decide (is_Some m)) = false).
  { destruct client; [done|]. by rewrite bool_decide_true by auto. }
  cbn [mask new_head opcode fin]. rewrite E. clear E.
  destruct (read_length_run f op (Z.of_nat (length d)) (bool_decide (is_Some m)) _ s ltac:(lia) Ho Hp)
    as (s1 & Hr & Hp1 & Hs1 & Ho1). mstep Hr. rewrite u64_small by lia. zcase.
  destruct (read_mask_run f op (payload_of (Z.of_nat (length d))) m _ s1 Hm Ho1 Hp1)
    as (s2 & Hr2 & Hp2 & Hs2 & Ho2). mstep Hr2.
  replace (Z.to_nat (r_cur_len v + Z.of_nat (length d))) with (length (r_data v) + length d)%nat by lia.
  rewrite resize_grow, length_app, length_replicate. zcase.
  destruct (read_exactly (masked m d) rest s2 Ho2 Hp2) as (s3 & Hr3 & Hp3 & Hs3 & Ho3);
    [rewrite length_masked; lia|].
  rewrite length_masked in Hr3. mstep Hr3. cbv beta iota. zcase.
  rewrite (data_op op) by done. rewrite Hv, Nat2Z.id, patch_tail by (by rewrite length_masked, length_replicate).
  rewrite i32_small by lia.
  assert (E : (if bool_decide (is_Some m)
               then unmask (Z.of_nat (length (r_data v))) (Z.of_nat (length d)) (default [0; 0; 0; 0] m)
                      (r_data v ++ masked m d)
               else r_data v ++ masked m d) = r_data v ++ d).
  { destruct m as [m|]; cbn; [|done]. rewrite <- (length_xor_mask m d) at 1.
    rewrite unmask_tail by (rewrite length_xor_mask; lia). by rewrite xor_mask_involutive. }
  rewrite E. exists s3. split; [|split_and!; [done|congruence|done]].
  unfold turn_of, received. rewrite Hv. by destruct f.
Qed.

Lemma frame_nonempty client f op m d v rest s :
  recv_ok v -> frame_ok client op m d -> r_cur_len v + Z.of_nat (length d) < max_size -> st_open s ->
  st_pending s = frame_bytes f op m d ++ rest ->
  exists s', recv_frame max_size client v s = (Ret (turn_of f (received op d v)), s') /\
    st_pending s' = rest /\ st_sent s' = st_sent s /\ st_open s'.
Proof.
  intros Hv Hf Hlen Ho Hp. unfold recv_frame, frame_bytes in *. rewrite <- !app_assoc in Hp.
  destruct (read_exactly _ _ s Ho Hp) as (s1 & Hr & Hp1 & Hs1 & Ho1); [by cbn|].
  change (Z.of_nat (length (head_bytes _))) with 2 in Hr. mstep Hr. cbv beta iota. cbn [Z.leb Z.compare].
  rewrite head_roundtrip. cbn [opcode new_head]. pose proof Hf as (Hop & _).
  rewrite (data_op op Hop). unfold PING, PONG, CONTINUE, TEXT_FRAME, BIN_FRAME.
  repeat (zcase; subst); cbn [orb];
    (destruct (recv_data_run client f _ m d v rest s1 Hv Hf Hlen Ho1 Hp1) as (s2 & Hr2 & Hp2 & Hs2 & Ho2);
     exists s2; rewrite <- Hs1; split; [exact Hr2|done]).
Qed.

Lemma control_run op s : st_open s ->
  exists s', control op s = (Ret 2, s') /\ st_pending s' = st_pending s /\
    st_sent s' = st_sent s ++ control_bytes op /\ st_open s'.
Proof.
  intros Ho. unfold control. destruct (writeFixSize_ok (control_bytes op) s Ho) as (s' & Hw & ? & ? & ?); [by cbn|].
  change (Z.of_nat (length (control_bytes op))) with 2 in Hw. unfold control_bytes in Hw.
  mstep Hw. cbn [Z.leb Z.compare]. exists s'. by split_and!.
Qed.
Lemma frame_control client b0 b1 v rest s :
  3 <= Z.land b0 15 -> st_open s -> st_pending s = [b0; b1] ++ rest ->
  exists s', recv_frame max_size client v s = (Ret (Next v), s') /\
    st_pending s' = rest /\ st_sent s' = st_sent s ++ answer (Control b0 b1) /\ st_open s'.
Proof.
  intros Hop Ho Hp. unfold recv_frame.
  destruct (read_exactly _ _ s Ho Hp) as (s1 & Hr & Hp1 & Hs1 & Ho1); [by cbn|].
  change (Z.of_nat (length [b0; b1])) with 2 in Hr. mstep Hr. cbv beta iota. cbn [Z.leb Z.compare].
  cbn [opcode head_of_bytes nth answer].
  unfold PING, PONG, CONTINUE, TEXT_FRAME, BIN_FRAME. zcase.
  - destruct (control_run PONG s1 Ho1) as (s2 & Hr2 & Hp2 & Hs2 & Ho2).
    unfold WSPong. mstep Hr2. cbn [Z.leb Z.compare]. exists s2. rewrite Hs2, Hs1, Hp2. by split_and!.
  - repeat zcase; cbn [orb]; exists s1; by rewrite app_nil_r.
Qed.

Lemma frame_segment client g v rest s :
  recv_ok v -> segment_ok client g -> r_cur_len v + Z.of_nat (length (segment_data g)) < max_size ->
  st_open s -> st_pending s = segment_bytes g ++ rest ->
  exists s', recv_frame max_size client v s = (Ret (Next (segment_next g v)), s') /\
    st_pending s' = rest /\ st_sent s' = st_sent s ++ answer g /\ st_open s'.
Proof.
  intros Hv Hg Hl Ho Hp. destruct g as [op m d|b0 b1].
  - cbn [segment_bytes segment_ok segment_data segment_next answer] in *. rewrite app_nil_r.
    by apply (frame_nonempty client false op m).
  - by apply frame_control.
Qed.

Lemma recv_loop_run fuel client gs op m d v rest s :
  recv_ok v -> Forall (segment_ok client) gs -> frame_ok client op m d ->
  r_cur_len v + Z.of_nat (length (concat (map segment_data gs) ++ d)) < max_size ->
  st_open s -> st_pending s = concat (map segment_bytes gs) ++ frame_bytes true op m d ++ rest ->
  (length gs < fuel)%nat ->
  exists s', recv_loop max_size fuel client v s
      = (Ret (Some (mkMessage (r_opcode (received op d (receive_all gs v)))
                              (r_data v ++ concat (map segment_data gs) ++ d))), s') /\
    st_pending s' = rest /\ st_sent s' = st_sent s ++ concat (map answer gs) /\ st_open s'.
Proof.
  revert gs v s. induction fuel as [|fuel IH]; intros gs v s Hv Hgs Hf Hl Ho Hp Hfu; [lia|].
  cbn [recv_loop]. destruct gs as [|g gs]; cbn [map concat receive_all foldl] in *.
  - destruct (frame_nonempty client true op m d v rest s Hv Hf Hl Ho Hp) as (s' & Hr & ?).
    mstep Hr. exists s'. by rewrite !app_nil_r.
  - apply list.Forall_cons in Hgs as [Hg Hgs]. rewrite <- !app_assoc in *. rewrite !length_app in Hl.
    destruct (frame_segment client g v _ s Hv Hg ltac:(lia) Ho Hp) as (s1 & Hr & Hp1 & Hs1 & Ho1).
    mstep Hr. cbv beta iota.
    assert (Hnext : recv_ok (segment_next g v) /\ r_data (segment_next g v) = r_data v ++ segment_data g).
    { destruct g; cbn; [|by rewrite app_nil_r]. split; [by apply received_ok|done]. }
    destruct Hnext as [Hv1 Ed].
    destruct (IH gs (segment_next g v) s1 Hv1 Hgs Hf) as (s' & Hr' & Hp' & Hs' & Ho');
      [|done|done|simpl in Hfu; lia|].
    { unfold recv_ok in *. rewrite Hv1, Ed, !length_app. lia. }
    exists s'. rewrite Hr', Ed, Hs', Hs1, <- !app_assoc. by split_and!.
Qed.

Lemma recv_empty_run fuel client f op m rest s :
  0 <= op <= 2 -> from_option length 4%nat m = 4%nat -> st_open s ->
  st_pending s = frame_bytes f op m [] ++ rest ->
  exists s', recv_loop max_size (S fuel) client new_Recv s = (Ret None, s') /\ st_sent s' = st_sent s.
Proof.
  intros Hop Hm Ho Hp. unfold frame_bytes in Hp. rewrite <- !app_assoc in Hp. cbn [recv_loop].
  destruct (read_exactly _ _ s Ho Hp) as (s1 & Hr & Hp1 & Hs1 & Ho1); [by cbn|].
  change (Z.of_nat (length (head_bytes _))) with 2 in Hr.
  assert (H1 : exists s2, recv_frame max_size client new_Recv s = (Ret Break, s2) /\ st_sent s2 = st_sent s).
  { unfold recv_frame. mstep Hr. cbv beta iota. cbn [Z.leb Z.compare]. rewrite head_roundtrip.
    cbn [opcode new_head]. rewrite (data_op op Hop).
    assert (H2 : exists s2, recv_data max_size client
        (new_head f op (payload_of 0) (bool_decide (is_Some m))) new_Recv s1 = (Ret Break, s2) /\
      st_sent s2 = st_sent s).
    { unfold recv_data. cbn [mask new_head]. destruct (negb client && _); [by exists s1|].
      destruct (read_length_run f op 0 (bool_decide (is_Some m)) _ s1 ltac:(lia) Ho1 Hp1)
        as (s2 & Hr2 & Hp2 & Hs2 & Ho2). unfold new_head in *. mstep Hr2. cbn [r_cur_len new_Recv].
      destruct (max_size <=? _); [exists s2; split; [done|congruence]|].
      destruct (read_mask_run f op (payload_of 0) m _ s2 Hm Ho2 Hp2) as (s3 & Hr3 & Hp3 & Hs3 & Ho3).
      unfold new_head in *. mstep Hr3. change (Z.of_nat (length (resize _ _)) <? 0) with false.
      destruct (read_exactly [] (st_pending s3) s3 Ho3 eq_refl) as (s4 & Hr4 & _ & Hs4 & _); [by cbn|].
      cbn [length Z.of_nat] in Hr4. mstep Hr4. exists s4. split; [done|congruence]. }
    unfold PING, PONG, CONTINUE, TEXT_FRAME, BIN_FRAME. repeat (zcase; subst); cbn [orb]; exact H2. }
  destruct H1 as (s2 & Hr2 & Hs2). mstep Hr2. destruct (st_close_law s2) as (s3 & Hr3 & _ & Hs3 & _).
  mstep Hr3. exists s3. split; [done|congruence].
Qed.
End Receiving.

Section Sending.
Context {St : Type} `{StreamSpec St}.

Lemma send_length_run size s : 0 <= size < 2 ^ 31 -> st_open s ->
  exists w s', send_length (Z.land (payload_of size) 127) size s = (Ret w, s') /\ 0 < w /\
    st_pending s' = st_pending s /\ st_sent s' = st_sent s ++ length_bytes size /\ st_open s'.
Proof.
  intros Hs Ho. rewrite payload_fits by lia. unfold send_length, payload_of, length_bytes.
  zcase; [|zcase]; cbn [Z.eqb Pos.eqb].
  - repeat zcase. exists 1, s. by rewrite app_nil_r.
  - unfold u16. rewrite (wrapu_id 16) by lia.
    destruct (writeFixSize_ok (le_split 2 (byteswapOnLittleEndian 2 size)) s Ho) as (s' & Hw & ? & ? & ?);
      rewrite length_le_split in *; [done|].
    exists 2, s'. by split_and!.
  - destruct (writeFixSize_ok (le_split 8 (byteswapOnLittleEndian 8 size)) s Ho) as (s' & Hw & ? & ? & ?);
      rewrite length_le_split in *; [done|].
    exists 8, s'. by split_and!.
Qed.

(** The mask of a frame that is sent, and what is left of the message. *)
Definition send_mask (client : bool) (rand_value : Z) : option (list Z) :=
  if client then Some (le_split 4 rand_value) else None.
(** All but the payload. *)
Lemma WSSendMessage_head rnd op d client fin s :
  st_open s -> Z.of_nat (length d) < 2 ^ 31 ->
  exists s', WSSendMessage rnd (mkMessage op d) client fin s
      = (w ← writeFixSize (masked (send_mask client rnd) d) (Z.of_nat (length d));
         if w <=? 0 then send_failed (mkMessage op (masked (send_mask client rnd) d))
         else mret (i32 (Z.of_nat (length d) + 2), mkMessage op (masked (send_mask client rnd) d))) s' /\
    st_pending s' = st_pending s /\
    st_sent s' = st_sent s ++
      head_bytes (new_head fin op (payload_of (Z.of_nat (length d))) client) ++
      length_bytes (Z.of_nat (length d)) ++ default [] (send_mask client rnd) /\
    st_open s'.
Proof.
  intros Ho Hl. unfold WSSendMessage. cbn [m_data m_opcode].
  destruct (writeFixSize_ok (head_bytes (new_head fin op (payload_of (Z.of_nat (length d))) client)) s Ho)
    as (s1 & Hw1 & Hs1 & Hp1 & Ho1); [by cbn|].
  change (Z.of_nat (length (head_bytes _))) with 2 in Hw1. mstep Hw1. cbn [Z.leb Z.compare payload new_head].
  destruct (send_length_run (Z.of_nat (length d)) s1 ltac:(lia) Ho1) as (w & s2 & Hw2 & Hpos & Hp2 & Hs2 & Ho2).
  mstep Hw2. zcase.
  assert (Hmask : exists s3, (if client then writeFixSize (le_split 4 rnd) 4 else mret 1) s2
      = (Ret (if client then 4 else 1), s3) /\ st_pending s3 = st_pending s2 /\
    st_sent s3 = st_sent s2 ++ default [] (send_mask client rnd) /\ st_open s3).
  { destruct client; cbn [send_mask default].
    - destruct (writeFixSize_ok (le_split 4 rnd) s2 Ho2) as (s3 & Hw & ? & ? & ?);
        rewrite length_le_split in *; [done|]. exists s3. by split_and!.
    - exists s2. by rewrite app_nil_r. }
  destruct Hmask as (s3 & Hw3 & Hp3 & Hs3 & Ho3). mstep Hw3.
  replace ((if client then 4 else 1) <=? 0) with false by (by destruct client).
  replace (if client then mkMessage op (xor_mask (le_split 4 rnd) d) else mkMessage op d)
    with (mkMessage op (masked (send_mask client rnd) d)) by (by destruct client).
  exists s3. split_and!; [done|congruence| |done]. rewrite Hs3, Hs2, Hs1, <- !app_assoc. done.
Qed.
Lemma is_Some_send_mask client rnd : bool_decide (is_Some (send_mask client rnd)) = client.
Proof. by destruct client. Qed.
Lemma WSSendMessage_run rnd msg client fin s :
  st_open s -> m_data msg <> [] -> Z.of_nat (length (m_data msg)) + 2 < 2 ^ 31 ->
  exists s', WSSendMessage rnd msg client fin s
      = (Ret (Z.of_nat (length (m_data msg)) + 2,
              mkMessage (m_opcode msg) (masked (send_mask client rnd) (m_data msg))), s') /\
    st_pending s' = st_pending s /\
    st_sent s' = st_sent s ++ frame_bytes fin (m_opcode msg) (send_mask client rnd) (m_data msg) /\
    st_open s'.
Proof.
  intros Ho Hd Hl. destruct msg as [op d]. cbn [m_data m_opcode] in *.
  assert (Hd' : (0 < length d)%nat) by (destruct d; [done|simpl; lia]).
  destruct (WSSendMessage_head rnd op d client fin s Ho ltac:(lia)) as (s3 & -> & Hp3 & Hs3 & Ho3).
  destruct (writeFixSize_ok (masked (send_mask client rnd) d) s3 Ho3) as (s4 & Hw4 & Hs4 & Hp4 & Ho4);
    rewrite length_masked in *; [lia|].
  mstep Hw4. zcase. rewrite i32_small by lia. exists s4. split_and!; [done|congruence| |done].
  rewrite Hs4, Hs3. unfold frame_bytes. by rewrite is_Some_send_mask, <- !app_assoc.
Qed.
Lemma WSSendMessage_empty rnd op client fin s : st_open s ->
  exists s', WSSendMessage rnd (mkMessage op []) client fin s = (Ret (-1, mkMessage op []), s') /\
    st_sent s' = st_sent s ++ frame_bytes fin op (send_mask client rnd) [].
Proof.
  intros Ho. destruct (WSSendMessage_head rnd op [] client fin s Ho ltac:(done)) as (s3 & -> & Hp3 & Hs3 & Ho3).
  assert (E : masked (send_mask client rnd) [] = []) by (by destruct client).
  rewrite E. destruct (writeFixSize_ok [] s3 Ho3) as (s4 & Hw4 & Hs4 & _ & Ho4); [by cbn|].
  mstep Hw4. cbn [length Z.of_nat Z.leb Z.compare]. unfold send_failed.
  destruct (st_close_law s4) as (s5 & Hr & _ & Hs5 & _). change (Z.of_nat 0 <=? 0) with true. cbv iota. mstep Hr. exists s5. split; [done|].
  rewrite Hs5, Hs4, Hs3, app_nil_r. unfold frame_bytes. by rewrite is_Some_send_mask, E, app_nil_r.
Qed.
End Sending.

(** ** Any input *)
(** Eight bytes of the input announce a length close to [2 ^ 64]. *)
Definition huge_length (input : list Z) : Prop := exists a bs c, input = a ++ bs ++ c /\ length bs = 8%nat /\
  2 ^ 64 <= Z.of_nat (length a) + byteswapOnLittleEndian 8 (le_combine bs).

Section AnyInput.
Context {St : Type} `{StreamSpec St} (max_size : Z) (input : list Z).
Context (max_small : max_size <= 2 ^ 31).

(** The stream has still to deliver the part of [input] after [seen]. *)
Definition at_input (seen : list Z) (s : St) : Prop := st_open s /\ input = seen ++ st_pending s.
Definition progress (seen : list Z) (v : Recv) (s : St) : Prop :=
  at_input seen s /\ recv_ok v /\ r_cur_len v <= Z.of_nat (length seen) /\
  (r_data v = [] \/ r_cur_len v < max_size).

Lemma read_cases n seen s : at_input seen s -> 0 <= n < 2 ^ 31 ->
  exists r d s', readFixSize n s = (Ret (r, d), s') /\
    (r <= 0 \/ r = n /\ Z.of_nat (length d) = n /\ at_input (seen ++ d) s').
Proof.
  intros [Ho Hi] Hn. destruct (decide (n <= Z.of_nat (length (st_pending s)))) as [Hl|Hl].
  - destruct (readFixSize_ok (take (Z.to_nat n) (st_pending s)) (drop (Z.to_nat n) (st_pending s)) s Ho)
      as (s' & Hr & Hp & _ & Ho').
    { by rewrite take_drop. } { rewrite length_take. lia. }
    assert (E : Z.of_nat (length (take (Z.to_nat n) (st_pending s))) = n) by (rewrite length_take; lia).
    rewrite E in Hr. eexists _, _, s'. split; [exact Hr|]. right. split_and!; [done|exact E|].
    split; [done|]. by rewrite Hp, <- app_assoc, take_drop.
  - destruct (readFixSize_eof n s Ho ltac:(lia)) as (r & d & s' & Hr & Hle & _). exists r, d, s'. auto.
Qed.

Lemma head_payload bs : 0 <= payload (head_of_bytes bs) < 128.
Proof.
  cbn. change 127 with (Z.ones 7). rewrite Z.land_ones by lia. apply Z.mod_pos_bound. lia.
Qed.
Definition length_result (seen : list Z) (r : option Z) (s : St) : Prop :=
  match r with
  | None => True
  | Some l => exists d, at_input (seen ++ d) s /\ 0 <= l < 2 ^ 64 /\
      (2 ^ 31 <= l -> length d = 8%nat /\ l = byteswapOnLittleEndian 8 (le_combine d))
  end.
Lemma read_length_cases bs seen s : at_input seen s ->
  exists r s', read_length (head_of_bytes bs) s = (Ret r, s') /\ length_result seen r s'.
Proof.
  intros Hs. unfold read_length. pose proof (head_payload bs) as Hp.
  assert (Hswap : forall n d, 0 <= byteswapOnLittleEndian n (le_combine d) < 2 ^ (8 * Z.of_nat n))
    by (intros; apply byteswap_range).
  zcase; [|zcase].
  - destruct (read_cases 2 seen s Hs ltac:(lia)) as (r & d & s' & Hr & [Hle | (-> & Hd & Hs')]);
      mstep Hr; cbv beta iota.
    + zcase. eexists _, _. split; [done|]. done.
    + cbn [Z.leb Z.compare]. eexists _, _. split; [done|]. exists d. specialize (Hswap 2%nat d).
      split_and!; [done|lia..|]. lia.
  - destruct (read_cases 8 seen s Hs ltac:(lia)) as (r & d & s' & Hr & [Hle | (-> & Hd & Hs')]);
      mstep Hr; cbv beta iota.
    + zcase. eexists _, _. split; [done|]. done.
    + cbn [Z.leb Z.compare]. eexists _, _. split; [done|]. exists d. specialize (Hswap 8%nat d).
      split_and!; [done|lia..|]. intros _. split; [lia|done].
  - eexists _, _. split; [done|]. exists []. rewrite app_nil_r. split_and!; [done|lia..|]. lia.
Qed.
Lemma read_mask_cases h seen s : at_input seen s ->
  exists r s', read_mask h s = (Ret r, s') /\ (is_Some r -> exists d, at_input (seen ++ d) s').
Proof.
  intros Hs. unfold read_mask. destruct (mask h).
  - destruct (read_cases 4 seen s Hs ltac:(lia)) as (r & d & s' & Hr & [Hle | (-> & Hd & Hs')]);
      mstep Hr; cbv beta iota.
    + zcase. eexists _, _. split; [done|]. by intros [].
    + cbn [Z.leb Z.compare]. eexists _, _. split; [done|]. by exists d.
  - eexists _, _. split; [done|]. exists []. by rewrite app_nil_r.
Qed.

Definition turn_result (seen : list Z) (o : outcome Turn) (s : St) : Prop :=
  match o with
  | Ret Break => True
  | Ret (Next v) => exists d, progress (seen ++ d) v s
  | Ret (Done m) => 0 < Z.of_nat (length (m_data m)) < max_size
  | Crash => huge_length input
  | Throw _ | NoFuel => False
  end.
Lemma length_unmask c n m data :
  0 <= c <= Z.of_nat (length data) -> length (unmask c n m data) = length data.
Proof.
  intros Hc. unfold unmask. apply length_patch. rewrite length_xor_mask. unfold slice.
  rewrite length_take, length_drop. lia.
Qed.
Lemma length_resize n data : length (resize n data) = n.
Proof. unfold resize. rewrite length_app, length_take, length_replicate. lia. Qed.

Lemma wrapped_length c l : 0 <= c < 2 ^ 31 -> 0 <= l < 2 ^ 64 ->
  u64 (c + l) = c + l \/ (u64 (c + l) < c /\ 2 ^ 64 <= c + l).
Proof.
  intros Hc Hl. destruct (decide (c + l < 2 ^ 64)); [left; by apply u64_small; lia|right].
  split; [|lia]. unfold u64, wrapu. rewrite <- (Z_mod_plus_full (c + l) (-1)).
  rewrite Z.mod_small by lia. lia.
Qed.
Lemma read_payload bs v l m seen s :
  progress seen v s -> 0 <= l < 2 ^ 31 -> u64 (r_cur_len v + l) = r_cur_len v + l ->
  r_cur_len v + l < max_size ->
  exists o s', ('(r, d) ← readFixSize l;
    if r <=? 0 then mret Break else
    let data := patch (Z.to_nat (r_cur_len v)) d (resize (Z.to_nat (u64 (r_cur_len v + l))) (r_data v)) in
    let data := if mask (head_of_bytes bs) then unmask (r_cur_len v) l m data else data in
    let cur_len := i32 (r_cur_len v + l) in
    let op := if (r_opcode v =? 0) && negb (opcode (head_of_bytes bs) =? CONTINUE)
              then opcode (head_of_bytes bs) else r_opcode v in
    if fin (head_of_bytes bs) then mret (Done (mkMessage op data)) else mret (Next (mkRecv op data cur_len))) s
  = (o, s') /\ turn_result seen o s'.
Proof.
  intros (Hs & Hok & Hc & Hmax) Hl Hu Hlt. unfold recv_ok in Hok.
  destruct (read_cases l seen s Hs Hl) as (r & d & s' & Hr & [Hle | (-> & Hd & Hs')]); mstep Hr; cbv beta iota zeta.
  { zcase. by eexists _, _. }
  zcase; [by eexists _, _|]. rewrite Hu.
  set (data := patch _ _ _).
  assert (E : length data = Z.to_nat (r_cur_len v + l)).
  { unfold data. rewrite length_patch; rewrite length_resize; lia. }
  set (data' := if mask _ then _ else data).
  assert (E' : length data' = Z.to_nat (r_cur_len v + l)).
  { unfold data'. destruct (mask _); [|done]. rewrite length_unmask; [done|lia]. }
  destruct (fin _); eexists _, _; (split; [done|]).
  - cbn [turn_result m_data]. lia.
  - exists d. unfold progress, recv_ok. cbn [r_data r_cur_len]. rewrite length_app, i32_small by lia.
    split_and!; [done|lia|lia|]. right. lia.
Qed.
Lemma recv_data_cases client bs v seen s :
  progress seen v s ->
  exists o s', recv_data max_size client (head_of_bytes bs) v s = (o, s') /\ turn_result seen o s'.
Proof.
  intros Hv. pose proof Hv as (Hs & Hok & Hc & Hmax). unfold recv_ok in Hok. unfold recv_data.
  destruct (negb client && _); [by eexists _, _|].
  assert (Hcur : 0 <= r_cur_len v < 2 ^ 31).
  { destruct Hmax as [E|?]; [|lia]. rewrite E in Hok. simpl in Hok. lia. }
  destruct (read_length_cases bs seen s Hs) as (r & s1 & Hr & Hl). mstep Hr.
  destruct r as [l|]; [|by eexists _, _]. destruct Hl as (d1 & Hs1 & Hl & Hbig).
  zcase; [by eexists _, _|].
  destruct (read_mask_cases (head_of_bytes bs) _ s1 Hs1) as (om & s2 & Hr2 & Hm). mstep Hr2.
  destruct om as [m|]; [|by eexists _, _]. destruct (Hm ltac:(done)) as (d2 & Hs2). rewrite length_resize.
  pose proof (wrapu_range 64 (r_cur_len v + l) ltac:(lia)) as Hu. fold u64 in Hu.
  change (wrapu 64 (r_cur_len v + l)) with (u64 (r_cur_len v + l)) in Hu.
  destruct (wrapped_length (r_cur_len v) l Hcur Hl) as [E|[Hlt Hwrap]].
  - zcase.
    assert (Hv2 : progress ((seen ++ d1) ++ d2) v s2).
    { unfold progress. rewrite !length_app. split_and!; [done|done|lia|done]. }
    destruct (read_payload bs v l m _ s2 Hv2 ltac:(lia) E ltac:(lia)) as (o & s3 & Hr3 & Ht).
    exists o, s3. split; [exact Hr3|]. destruct o as [[|v'|m']| | |]; try done.
    destruct Ht as [d Hd]. exists (d1 ++ d2 ++ d). by rewrite !app_assoc.
  - zcase. eexists _, _. split; [done|]. cbn [turn_result].
    destruct (Hbig ltac:(lia)) as [Hd1 E]. destruct Hs1 as [_ Hi]. exists seen, d1, (st_pending s1).
    split_and!; [by rewrite Hi, app_assoc|done|lia].
Qed.

Lemma recv_frame_cases client v seen s :
  progress seen v s ->
  exists o s', recv_frame max_size client v s = (o, s') /\
    match o with
    | Ret (Next v') => exists d, progress (seen ++ d) v' s' /\ (0 < length d)%nat
    | _ => turn_result seen o s'
    end.
Proof.
  intros Hv. pose proof Hv as (Hs & Hok & Hc & Hmax). unfold recv_frame.
  destruct (read_cases 2 seen s Hs ltac:(lia)) as (r & bs & s1 & Hr & [Hle | (-> & Hd & Hs1)]);
    mstep Hr; cbv beta iota.
  { zcase. by eexists _, _. }
  cbn [Z.leb Z.compare].
  assert (Hv1 : progress (seen ++ bs) v s1).
  { unfold progress. rewrite length_app. split_and!; [done|done|lia|done]. }
  zcase; [|zcase; [|destruct (_ || _)]].
  - destruct Hs1 as [Ho1 Hi1]. destruct (control_run PONG s1 Ho1) as (s2 & Hr2 & Hp2 & _ & Ho2).
    unfold WSPong. mstep Hr2. cbn [Z.leb Z.compare]. eexists _, _. split; [done|]. exists bs.
    split; [|lia]. destruct Hv1 as (_ & ? & ? & ?). split_and!; [|done..]. split; [done|]. by rewrite Hp2.
  - eexists _, _. split; [done|]. exists bs. split; [done|lia].
  - destruct (recv_data_cases client bs v _ s1 Hv1) as (o & s2 & Hr2 & Ht). eexists _, _.
    split; [exact Hr2|]. destruct o as [[|v'|m']| | |]; try done.
    destruct Ht as [d Hd']. exists (bs ++ d). rewrite app_assoc. split; [done|]. rewrite length_app. lia.
  - eexists _, _. split; [done|]. exists bs. split; [done|lia].
Qed.
Lemma recv_loop_cases fuel client v seen s :
  progress seen v s -> (length (st_pending s) < fuel)%nat ->
  exists o s', recv_loop max_size fuel client v s = (o, s') /\
    match o with
    | Ret (Some m) => 0 < Z.of_nat (length (m_data m)) < max_size
    | Ret None => ~ st_open s'
    | Crash => huge_length input
    | Throw _ | NoFuel => False
    end.
Proof.
  revert v seen s. induction fuel as [|fuel IH]; intros v seen s Hv Hf; [lia|]. cbn [recv_loop].
  destruct (recv_frame_cases client v seen s Hv) as (o & s1 & Hr & Ht).
  destruct o as [[|v'|m]| | |]; try done.
  - mstep Hr. destruct (st_close_law s1) as (s2 & Hr2 & _ & _ & Hc). mstep Hr2. by eexists _, _.
  - mstep Hr. destruct Ht as (d & Hd & Hpos). apply (IH v' (seen ++ d)); [done|].
    destruct Hd as [[_ Hi] _], Hv as [[_ Hi0] _]. rewrite Hi, <- app_assoc in Hi0.
    apply app_inv_head in Hi0. rewrite <- Hi0, length_app in Hf. lia.
  - mstep Hr. by eexists _, _.
  - mstep Hr. by eexists _, _.
Qed.
End AnyInput.

(** ** Properties *)
Section Properties.
Context {St : Type} `{StreamSpec St} (max_size : Z).

(** C4: a message is received whole, however it is fragmented, under a limit of
    at most [2 ^ 31]: after fragments with a payload (masked, if the receiver is
    the server) and headers of frames of other opcodes, a last frame with a
    payload yields the message whose opcode is that of the first fragment and
    whose data is the unmasked payloads in order; each PING in between is
    answered by one PONG, and the bytes after the last frame stay in the stream.
    Of a frame of another opcode only the two bytes of the header are taken: what
    it announces behind them, a mask or a payload, is read as further frames.
    ([ws_empty_fails] says what a frame without payload does.) *)
Theorem ws_receive client gs op m d rest fuel s :
  max_size <= 2 ^ 31 -> st_open s -> Forall (segment_ok client) gs -> frame_ok client op m d ->
  Z.of_nat (length (concat (map segment_data gs) ++ d)) < max_size -> (length gs < fuel)%nat ->
  st_pending s = concat (map segment_bytes gs) ++ frame_bytes true op m d ++ rest ->
  exists s', WSRecvMessage max_size fuel client s
      = (Ret (Some (mkMessage (r_opcode (received op d (receive_all gs new_Recv)))
                              (concat (map segment_data gs) ++ d))), s') /\
    st_pending s' = rest /\ st_sent s' = st_sent s ++ concat (map answer gs) /\ st_open s'.
Proof. intros Hmax Ho Hgs Hf Hl Hfu Hp. by apply (recv_loop_run max_size Hmax fuel client gs op m d new_Recv). Qed.

(** C29: a message that is not empty is received as it was sent: with opcode
    CONTINUE, TEXT or BIN, shorter than the limit of the receiver and than
    [2 ^ 31 - 2], sent as a final frame by [WSSendMessage] of a client (masked with any
    random number) or of a server, it is read back by [WSRecvMessage] of the
    other side as the same message. ([ws_empty_fails]: an empty one is not.) *)
Theorem ws_roundtrip rnd msg client a :
  max_size <= 2 ^ 31 -> st_open a -> 0 <= m_opcode msg <= 2 -> m_data msg <> [] ->
  Z.of_nat (length (m_data msg)) + 2 < 2 ^ 31 -> Z.of_nat (length (m_data msg)) < max_size ->
  exists a' msg' frame, WSSendMessage rnd msg client true a
      = (Ret (Z.of_nat (length (m_data msg)) + 2, msg'), a') /\
    st_sent a' = st_sent a ++ frame /\ st_pending a' = st_pending a /\
    forall fuel b rest, st_open b -> st_pending b = frame ++ rest -> (0 < fuel)%nat ->
    exists b', WSRecvMessage max_size fuel (negb client) b = (Ret (Some msg), b') /\
      st_pending b' = rest /\ st_sent b' = st_sent b.
Proof.
  intros Hmax Ho Hop Hd Hl Hm.
  destruct (WSSendMessage_run rnd msg client true a Ho Hd Hl) as (a' & Hr & Hp & Hs & _).
  eexists a', _, _. split; [exact Hr|]. split_and!; [exact Hs|exact Hp|]. intros fuel b rest Hob Hpb Hfu.
  destruct (recv_loop_run max_size Hmax fuel (negb client) [] (m_opcode msg) (send_mask client rnd) (m_data msg)
    new_Recv rest b) as (b' & Hrb & Hpb' & Hsb & _); try done.
  - split_and!; [lia|lia|done|by destruct client|by destruct client].
  - exists b'. unfold WSRecvMessage. rewrite Hrb. cbn in Hsb. rewrite app_nil_r in Hsb.
    split_and!; [|done|done]. cbn [map concat app receive_all foldl received r_opcode r_data new_Recv].
    destruct msg as [op d]. cbn [m_opcode m_data]. unfold CONTINUE. cbn [Z.eqb andb]. by destruct (Z.eqb_spec op 0) as [->|].
Qed.

(** C26: whatever the peer sends, [WSRecvMessage] under a limit of at most
    [2 ^ 31] ends: it returns a message that is not empty and respects the
    limit, or returns null with the stream closed. It runs into undefined
    behaviour only on an input that announces a 64-bit length so close to [2 ^ 64]
    that adding the bytes before it wraps around. *)
Theorem ws_receive_total client fuel s :
  max_size <= 2 ^ 31 -> st_open s -> (length (st_pending s) < fuel)%nat ->
  exists o s', WSRecvMessage max_size fuel client s = (o, s') /\
    match o with
    | Ret (Some m) => 0 < Z.of_nat (length (m_data m)) < max_size
    | Ret None => ~ st_open s'
    | Crash => huge_length (st_pending s)
    | Throw _ | NoFuel => False
    end.
Proof.
  intros Hmax Ho Hf. apply (recv_loop_cases max_size (st_pending s) Hmax fuel client new_Recv [] s); [|done].
  split_and!; [by split|done|done|by left].
Qed.

(** An empty message does not pass: [WSSendMessage] writes its header, then
    takes the result 0 of the empty write for an error, closes the stream and
    returns -1; a frame without payload makes [WSRecvMessage] close the stream
    and return null, though the protocol allows it. *)
Theorem ws_empty_fails rnd op client fin s :
  st_open s ->
  (exists s', WSSendMessage rnd (mkMessage op []) client fin s = (Ret (-1, mkMessage op []), s') /\
     st_sent s' = st_sent s ++ frame_bytes fin op (send_mask client rnd) []) /\
  (forall m rest fuel, 0 <= op <= 2 -> from_option length 4%nat m = 4%nat ->
     st_pending s = frame_bytes fin op m [] ++ rest ->
     exists s', WSRecvMessage max_size (S fuel) client s = (Ret None, s') /\ st_sent s' = st_sent s).
Proof.
  intros Ho. split; [by apply WSSendMessage_empty|]. intros m rest fuel Hop Hm Hp.
  by apply (recv_empty_run max_size fuel client fin op m rest).
Qed.
End Properties.

(** ** Witnesses: a wire that carries three bytes per system call *)
#[local] Existing Instance zero_heap.
Definition line (input : list Z) : Socket Wire := mkSocket 5 true (mkWire input [] 2).
Lemma line_open input : st_open (line input).
Proof. reflexivity. Qed.
Definition some_mask : option (list Z) := Some [1; 2; 3; 4].

(** "he" as text, a PING, "llo" as the continuation. *)
Definition fragments : list Segment := [Fragment 1 some_mask [104; 101]; Control 137 0].
Lemma fragments_ok : Forall (segment_ok false) fragments.
Proof.
  apply list.Forall_cons; split; [by split_and!; [lia|lia|done|eauto|done]|].
  apply list.Forall_cons; split; [by cbn|by apply list.Forall_nil].
Qed.
Lemma ws_receive_witness :
  let input := concat (map segment_bytes fragments) ++ frame_bytes true 0 some_mask [108; 108; 111] ++ [7] in
  exists s, WSRecvMessage 100 5 false (line input)
      = (Ret (Some (mkMessage 1 [104; 101; 108; 108; 111])), s) /\
    st_pending s = [7] /\ st_sent s = control_bytes PONG.
Proof.
  intros input.
  destruct (ws_receive 100 false fragments 0 some_mask [108; 108; 111] [7] 5 (line input)) as (s & Hr & Hp & Hs & _).
  - lia.
  - apply line_open.
  - apply fragments_ok.
  - split_and!; [lia|lia|done|eauto|done].
  - by cbn.
  - cbn. lia.
  - reflexivity.
  - exists s. split; [exact Hr|]. split; [exact Hp|exact Hs].
Defined.

Lemma ws_roundtrip_witness :
  exists a msg frame, WSSendMessage 77 (mkMessage 2 [1; 2; 3]) true true (line []) = (Ret (5, msg), a) /\
    st_sent a = frame /\
    exists b, WSRecvMessage 100 1 false (line (frame ++ [])) = (Ret (Some (mkMessage 2 [1; 2; 3])), b).
Proof.
  destruct (ws_roundtrip 100 77 (mkMessage 2 [1; 2; 3]) true (line []) ltac:(lia) (line_open _)
    ltac:(cbn; lia) ltac:(done) ltac:(done) ltac:(done)) as (a & msg & frame & Hr & Hs & _ & Hrec).
  exists a, msg, frame. split_and!; [exact Hr|exact Hs|].
  destruct (Hrec 1%nat (line (frame ++ [])) [] (line_open _) eq_refl ltac:(lia)) as (b & Hb & _).
  by exists b.
Defined.

(** The wrap-around is real: one byte, then a fragment of length [2 ^ 64 - 1]. *)
Definition wrapping : list Z :=
  frame_bytes false 1 None [65] ++ head_bytes (new_head true 0 127 false) ++ replicate 8 255.
Lemma ws_receive_total_witness :
  fst (WSRecvMessage 100 20 true (line wrapping)) = Crash /\ huge_length wrapping.
Proof.
  destruct (ws_receive_total 100 true 20 (line wrapping) ltac:(lia) (line_open _))
    as (o & s & Hr & Hres); [apply Nat.ltb_lt; by vm_compute|].
  assert (E : fst (WSRecvMessage 100 20 true (line wrapping)) = Crash) by (by vm_compute).
  split; [exact E|]. rewrite Hr in E. cbn in E. subst o. exact Hres.
Defined.

Lemma ws_empty_fails_witness :
  exists s, WSSendMessage 0 (mkMessage 1 []) false true (line []) = (Ret (-1, mkMessage 1 []), s) /\
    exists s', WSRecvMessage 100 1 true (line (frame_bytes true 1 None [] ++ [])) = (Ret None, s').
Proof.
  destruct (ws_empty_fails 100 0 1 false true (line []) (line_open _)) as [(s & Hs & _) _].
  exists s. split; [exact Hs|].
  destruct (ws_empty_fails 100 0 1 true true (line (frame_bytes true 1 None [] ++ [])) (line_open _)) as [_ H].
  destruct (H None [] 0%nat ltac:(lia) eq_refl eq_refl) as (s' & Hr & _). by exists s'.
Defined.

(** A PING of a client is masked, as all its frames are: the mask is read as the
    next header, and the session is closed before the message behind it. *)
Lemma masked_ping_closes :
  let ping := head_bytes (new_head true PING 0 true) ++ [1; 2; 3; 4] in
  fst (WSRecvMessage 100 5 false (line (ping ++ frame_bytes true 1 some_mask [104; 105]))) = Ret None /\
  fst (WSRecvMessage 100 5 false (line (frame_bytes true 1 some_mask [104; 105]))) = Ret (Some (mkMessage 1 [104; 105])).
Proof. by vm_compute. Qed.
