(* ===== verification/Http.v ===== *)
(** * HTTP messages (cxk/http/http.h, http.cpp)

    Strings are lists of bytes.  The maps of headers, parameters and cookies
    are [std::map]s ordered by [CaseInsensitiveLess]: lists of pairs, kept
    sorted, that are searched as the tree is, by the order alone.
    [boost::lexical_cast] is a parameter. *)
From Stdlib Require Import Sorting.Sorted.
From S2P Require Import Prelude.

(** ** Methods and status codes *)
Inductive HttpMethod : Type :=
| DELETE | GET | HEAD | POST | PUT | CONNECT | OPTIONS | TRACE | COPY | LOCK | MKCOL | MOVE
| PROPFIND | PROPPATCH | SEARCH | UNLOCK | BIND | REBIND | UNBIND | ACL | REPORT | MKACTIVITY
| CHECKOUT | MERGE | MSEARCH | NOTIFY | SUBSCRIBE | UNSUBSCRIBE | PATCH | PURGE | MKCALENDAR | LINK
| UNLINK | SOURCE | INVALID_METHOD.
#[export] Instance HttpMethod_eq_dec : EqDecision HttpMethod.
Proof. solve_decision. Defined.

(** The table of the methods, in the order of their numbers. *)
Definition HTTP_METHOD_MAP : list (HttpMethod * list Z) := Eval cbv in [
  (DELETE, bytes "DELETE"); (GET, bytes "GET"); (HEAD, bytes "HEAD"); (POST, bytes "POST");
  (PUT, bytes "PUT"); (CONNECT, bytes "CONNECT"); (OPTIONS, bytes "OPTIONS"); (TRACE, bytes "TRACE");
  (COPY, bytes "COPY"); (LOCK, bytes "LOCK"); (MKCOL, bytes "MKCOL"); (MOVE, bytes "MOVE");
  (PROPFIND, bytes "PROPFIND"); (PROPPATCH, bytes "PROPPATCH"); (SEARCH, bytes "SEARCH");
  (UNLOCK, bytes "UNLOCK"); (BIND, bytes "BIND"); (REBIND, bytes "REBIND"); (UNBIND, bytes "UNBIND");
  (ACL, bytes "ACL"); (REPORT, bytes "REPORT"); (MKACTIVITY, bytes "MKACTIVITY");
  (CHECKOUT, bytes "CHECKOUT"); (MERGE, bytes "MERGE"); (MSEARCH, bytes "M-SEARCH");
  (NOTIFY, bytes "NOTIFY"); (SUBSCRIBE, bytes "SUBSCRIBE"); (UNSUBSCRIBE, bytes "UNSUBSCRIBE");
  (PATCH, bytes "PATCH"); (PURGE, bytes "PURGE"); (MKCALENDAR, bytes "MKCALENDAR");
  (LINK, bytes "LINK"); (UNLINK, bytes "UNLINK"); (SOURCE, bytes "SOURCE")].
Definition HTTP_STATUS_MAP : list (Z * list Z) := Eval cbv in [
  (100, bytes "Continue"); (101, bytes "Switching Protocols"); (102, bytes "Processing");
  (200, bytes "OK"); (201, bytes "Created"); (202, bytes "Accepted");
  (203, bytes "Non-Authoritative Information"); (204, bytes "No Content");
  (205, bytes "Reset Content"); (206, bytes "Partial Content"); (207, bytes "Multi-Status");
  (208, bytes "Already Reported"); (226, bytes "IM Used"); (300, bytes "Multiple Choices");
  (301, bytes "Moved Permanently"); (302, bytes "Found"); (303, bytes "See Other");
  (304, bytes "Not Modified"); (305, bytes "Use Proxy"); (307, bytes "Temporary Redirect");
  (308, bytes "Permanent Redirect"); (400, bytes "Bad Request"); (401, bytes "Unauthorized");
  (402, bytes "Payment Required"); (403, bytes "Forbidden"); (404, bytes "Not Found");
  (405, bytes "Method Not Allowed"); (406, bytes "Not Acceptable");
  (407, bytes "Proxy Authentication Required"); (408, bytes "Request Timeout");
  (409, bytes "Conflict"); (410, bytes "Gone"); (411, bytes "Length Required");
  (412, bytes "Precondition Failed"); (413, bytes "Payload Too Large"); (414, bytes "URI Too Long");
  (415, bytes "Unsupported Media Type"); (416, bytes "Range Not Satisfiable");
  (417, bytes "Expectation Failed"); (421, bytes "Misdirected Request");
  (422, bytes "Unprocessable Entity"); (423, bytes "Locked"); (424, bytes "Failed Dependency");
  (426, bytes "Upgrade Required"); (428, bytes "Precondition Required");
  (429, bytes "Too Many Requests"); (431, bytes "Request Header Fields Too Large");
  (451, bytes "Unavailable For Legal Reasons"); (500, bytes "Internal Server Error");
  (501, bytes "Not Implemented"); (502, bytes "Bad Gateway"); (503, bytes "Service Unavailable");
  (504, bytes "Gateway Timeout"); (505, bytes "HTTP Version Not Supported");
  (506, bytes "Variant Also Negotiates"); (507, bytes "Insufficient Storage");
  (508, bytes "Loop Detected"); (510, bytes "Not Extended");
  (511, bytes "Network Authentication Required")].
Definition SWITCHING_PROTOCOLS : Z := 101.
Definition OK : Z := 200.
Definition NOT_FOUND : Z := 404.
Definition unknown : list Z := Eval cbv in bytes "<unknown>".

(** The number of an enumerator. *)
Fixpoint method_index (m : HttpMethod) (t : list (HttpMethod * list Z)) : nat :=
  match t with [] => 0 | (m', _) :: t => if decide (m = m') then 0 else S (method_index m t) end.
Definition method_num (m : HttpMethod) : nat := method_index m HTTP_METHOD_MAP.

(** [strncmp(s, m, strlen(s)) == 0] *)
Fixpoint starts_with (s m : list Z) : bool :=
  match s, m with
  | [], _ => true
  | x :: s, y :: m => (x =? y) && starts_with s m
  | _, [] => false
  end.
Fixpoint find_method (test : list Z -> bool) (t : list (HttpMethod * list Z)) : HttpMethod :=
  match t with [] => INVALID_METHOD | (m, s) :: t => if test s then m else find_method test t end.
Definition StringToHttpMethod (m : list Z) : HttpMethod :=
  find_method (fun s => is_eq (strcmp s (c_str m))) HTTP_METHOD_MAP.
Definition CharsTohttpMethod (m : list Z) : HttpMethod :=
  find_method (fun s => starts_with s (c_str m)) HTTP_METHOD_MAP.
Definition s_method_string : list (list Z) := map snd HTTP_METHOD_MAP.
Definition HttpMethodToString (m : HttpMethod) : list Z := nth (method_num m) s_method_string unknown.
Definition HttpStatusToString (s : Z) : list Z :=
  match List.find (fun e => fst e =? s) HTTP_STATUS_MAP with Some e => snd e | None => unknown end.

(** ** Maps ordered without regard to case *)

(** [tolower] of the C locale; [strcasecmp] compares the lowered bytes up to
    the null character. *)
Definition tolower (c : Z) : Z := if (65 <=? c) && (c <=? 90) then c + 32 else c.
Definition fold (s : list Z) : list Z := map tolower (c_str s).
Definition strcasecmp (a b : list Z) : comparison := strcmp (fold a) (fold b).
Definition CaseInsensitiveLess (lhs rhs : list Z) : bool :=
  match strcasecmp lhs rhs with Lt => true | _ => false end.

Definition MapType : Type := list (list Z * list Z).
Fixpoint map_find (key : list Z) (m : MapType) : option (list Z) :=
  match m with
  | [] => None
  | (k, v) :: m =>
      if CaseInsensitiveLess k key then map_find key m
      else if CaseInsensitiveLess key k then None else Some v
  end.
(** [m[key] = val]: the key that is there keeps its spelling. *)
Fixpoint map_set (key val : list Z) (m : MapType) : MapType :=
  match m with
  | [] => [(key, val)]
  | (k, v) :: m' =>
      if CaseInsensitiveLess k key then (k, v) :: map_set key val m'
      else if CaseInsensitiveLess key k then (key, val) :: m else (k, val) :: m'
  end.
Fixpoint map_erase (key : list Z) (m : MapType) : MapType :=
  match m with
  | [] => []
  | (k, v) :: m' =>
      if CaseInsensitiveLess k key then (k, v) :: map_erase key m'
      else if CaseInsensitiveLess key k then m else m'
  end.
Definition map_get (key def : list Z) (m : MapType) : list Z := default def (map_find key m).

Section Cast.
Context {T : Type} (lexical_cast : list Z -> option T).
(** The result and the value stored in [val]. *)
Definition checkGetAs (m : MapType) (key : list Z) (def : T) : bool * T :=
  match map_find key m with
  | None => (false, def)
  | Some s => match lexical_cast s with Some v => (true, v) | None => (false, def) end
  end.
Definition getAs (m : MapType) (key : list Z) (def : T) : T :=
  match map_find key m with
  | None => def
  | Some s => match lexical_cast s with Some v => v | None => def end
  end.
End Cast.

(** ** Requests

    The constructor leaves the status uninitialised: [None]. *)
Record HttpRequest := mkRequest {
  q_method : HttpMethod; q_status : option Z; q_version : Z; q_close : bool; q_websocket : bool;
  q_path : list Z; q_query : list Z; q_fragment : list Z; q_body : list Z;
  q_headers : MapType; q_params : MapType; q_cookies : MapType
}.
Definition new_HttpRequest (version : Z) (close : bool) : HttpRequest :=
  mkRequest GET None version close false [47] [] [] [] [] [] [].

Definition setMethod v r := mkRequest v (q_status r) (q_version r) (q_close r) (q_websocket r) (q_path r) (q_query r)
  (q_fragment r) (q_body r) (q_headers r) (q_params r) (q_cookies r).
Definition setStatus v r := mkRequest (q_method r) (Some v) (q_version r) (q_close r) (q_websocket r) (q_path r)
  (q_query r) (q_fragment r) (q_body r) (q_headers r) (q_params r) (q_cookies r).
Definition setVersion v r := mkRequest (q_method r) (q_status r) v (q_close r) (q_websocket r) (q_path r) (q_query r)
  (q_fragment r) (q_body r) (q_headers r) (q_params r) (q_cookies r).
Definition setClose v r := mkRequest (q_method r) (q_status r) (q_version r) v (q_websocket r) (q_path r) (q_query r)
  (q_fragment r) (q_body r) (q_headers r) (q_params r) (q_cookies r).
Definition setWebsocket v r := mkRequest (q_method r) (q_status r) (q_version r) (q_close r) v (q_path r) (q_query r)
  (q_fragment r) (q_body r) (q_headers r) (q_params r) (q_cookies r).
Definition setPath v r := mkRequest (q_method r) (q_status r) (q_version r) (q_close r) (q_websocket r) v (q_query r)
  (q_fragment r) (q_body r) (q_headers r) (q_params r) (q_cookies r).
Definition setQuery v r := mkRequest (q_method r) (q_status r) (q_version r) (q_close r) (q_websocket r) (q_path r) v
  (q_fragment r) (q_body r) (q_headers r) (q_params r) (q_cookies r).
Definition setFragment v r := mkRequest (q_method r) (q_status r) (q_version r) (q_close r) (q_websocket r) (q_path r)
  (q_query r) v (q_body r) (q_headers r) (q_params r) (q_cookies r).
Definition setBody v r := mkRequest (q_method r) (q_status r) (q_version r) (q_close r) (q_websocket r) (q_path r)
  (q_query r) (q_fragment r) v (q_headers r) (q_params r) (q_cookies r).
Definition setHeaders v r := mkRequest (q_method r) (q_status r) (q_version r) (q_close r) (q_websocket r) (q_path r)
  (q_query r) (q_fragment r) (q_body r) v (q_params r) (q_cookies r).
Definition setParams v r := mkRequest (q_method r) (q_status r) (q_version r) (q_close r) (q_websocket r) (q_path r)
  (q_query r) (q_fragment r) (q_body r) (q_headers r) v (q_cookies r).
Definition setCookies v r := mkRequest (q_method r) (q_status r) (q_version r) (q_close r) (q_websocket r) (q_path r)
  (q_query r) (q_fragment r) (q_body r) (q_headers r) (q_params r) v.

Definition getHeader (key def : list Z) (r : HttpRequest) : list Z := map_get key def (q_headers r).
Definition getParam (key def : list Z) (r : HttpRequest) : list Z := map_get key def (q_params r).
Definition getCookie (key def : list Z) (r : HttpRequest) : list Z := map_get key def (q_cookies r).
Definition setHeader (key val : list Z) (r : HttpRequest) : HttpRequest :=
  setHeaders (map_set key val (q_headers r)) r.
Definition setParam (key val : list Z) (r : HttpRequest) : HttpRequest :=
  setParams (map_set key val (q_params r)) r.
Definition setCookie (key val : list Z) (r : HttpRequest) : HttpRequest :=
  setCookies (map_set key val (q_cookies r)) r.
Definition delHeader (key : list Z) (r : HttpRequest) : HttpRequest :=
  setHeaders (map_erase key (q_headers r)) r.
(** [delParam] erases from the headers. *)
Definition delParam (key : list Z) (r : HttpRequest) : HttpRequest :=
  setHeaders (map_erase key (q_headers r)) r.
Definition delCookie (key : list Z) (r : HttpRequest) : HttpRequest :=
  setCookies (map_erase key (q_cookies r)) r.
(** The result is also what is stored through [val] when it is not null. *)
Definition hasHeader (key : list Z) (r : HttpRequest) : option (list Z) := map_find key (q_headers r).
Definition hasParam (key : list Z) (r : HttpRequest) : option (list Z) := map_find key (q_params r).
Definition hasCookie (key : list Z) (r : HttpRequest) : option (list Z) := map_find key (q_cookies r).

(** ** Responses *)
Record HttpResponse := mkResponse {
  p_status : Z; p_version : Z; p_close : bool; p_websocket : bool;
  p_body : list Z; p_reason : list Z; p_headers : MapType
}.
Definition new_HttpResponse (version : Z) (close : bool) : HttpResponse :=
  mkResponse OK version close false [] [] [].
Definition createResponse (r : HttpRequest) : HttpResponse := new_HttpResponse (q_version r) (q_close r).
Definition rsp_setStatus v p := mkResponse v (p_version p) (p_close p) (p_websocket p) (p_body p) (p_reason p)
  (p_headers p).
Definition rsp_setVersion v p := mkResponse (p_status p) v (p_close p) (p_websocket p) (p_body p) (p_reason p)
  (p_headers p).
Definition rsp_setClose v p := mkResponse (p_status p) (p_version p) v (p_websocket p) (p_body p) (p_reason p)
  (p_headers p).
Definition rsp_setWebsocket v p := mkResponse (p_status p) (p_version p) (p_close p) v (p_body p) (p_reason p)
  (p_headers p).
Definition rsp_setBody v p := mkResponse (p_status p) (p_version p) (p_close p) (p_websocket p) v (p_reason p)
  (p_headers p).
Definition rsp_setReason v p := mkResponse (p_status p) (p_version p) (p_close p) (p_websocket p) (p_body p) v
  (p_headers p).
Definition rsp_setHeaders v p := mkResponse (p_status p) (p_version p) (p_close p) (p_websocket p) (p_body p)
  (p_reason p) v.
Definition rsp_getHeader (key def : list Z) (p : HttpResponse) : list Z := map_get key def (p_headers p).
Definition rsp_setHeader (key val : list Z) (p : HttpResponse) : HttpResponse :=
  rsp_setHeaders (map_set key val (p_headers p)) p.
Definition rsp_delHeader (key : list Z) (p : HttpResponse) : HttpResponse :=
  rsp_setHeaders (map_erase key (p_headers p)) p.

(** ** Printing *)
Definition CRLF : list Z := [13; 10].
Definition s_connection : list Z := Eval cbv in bytes "connection".
Definition s_close : list Z := Eval cbv in bytes "close".
Definition s_keep_alive : list Z := Eval cbv in bytes "keep-alive".
Definition s_content_length : list Z := Eval cbv in bytes "content-length".
Definition colon : list Z := [58; 32].

Definition header_line (key val : list Z) : list Z := key ++ colon ++ val ++ CRLF.
Definition is_connection (key : list Z) : bool :=
  is_eq (strcasecmp key s_connection).
Definition dump_connection (websocket close : bool) : list Z :=
  if websocket then [] else header_line s_connection (if close then s_close else s_keep_alive).
Fixpoint dump_headers (websocket : bool) (m : MapType) : list Z :=
  match m with
  | [] => []
  | (k, v) :: m =>
      (if negb websocket && is_connection k then [] else header_line k v) ++ dump_headers websocket m
  end.
Definition dump_body (body : list Z) : list Z :=
  match body with
  | [] => CRLF
  | _ => s_content_length ++ colon ++ dec (Z.of_nat (length body)) ++ CRLF ++ CRLF ++ body
  end.
Definition dump_version (version : Z) : list Z :=
  [72; 84; 84; 80; 47] ++ dec (Z.shiftr version 4) ++ [46] ++ dec (Z.land version 0x0F).

Definition request_line (r : HttpRequest) : list Z :=
  HttpMethodToString (q_method r) ++ [32] ++ q_path r ++
  (match q_query r with [] => [] | _ => [63] end) ++ q_query r ++
  (match q_fragment r with [] => [] | _ => [35] end) ++ q_fragment r ++
  [32] ++ dump_version (q_version r).
Definition HttpRequest_dump (r : HttpRequest) : list Z :=
  request_line r ++ CRLF ++
  dump_connection (q_websocket r) (q_close r) ++
  dump_headers (q_websocket r) (q_headers r) ++
  dump_body (q_body r).
Definition status_line (p : HttpResponse) : list Z :=
  dump_version (p_version p) ++ [32] ++ dec (u32 (p_status p)) ++ [32] ++
  (match p_reason p with [] => HttpStatusToString (p_status p) | _ => p_reason p end).
Definition HttpResponse_dump (p : HttpResponse) : list Z :=
  status_line p ++ CRLF ++
  dump_headers (p_websocket p) (p_headers p) ++
  dump_connection (p_websocket p) (p_close p) ++
  dump_body (p_body p).

(** ** Methods *)
Lemma method_names m rest : m <> INVALID_METHOD ->
  StringToHttpMethod (HttpMethodToString m) = m /\ CharsTohttpMethod (HttpMethodToString m ++ rest) = m.
Proof. destruct m; intros H; try done; split; reflexivity. Qed.

Arguments fold : simpl never.

(** ** The order of the maps *)
Lemma less_iff a b : CaseInsensitiveLess a b = true <-> strcmp (fold a) (fold b) = Lt.
Proof. unfold CaseInsensitiveLess, strcasecmp. by destruct (strcmp _ _). Qed.
(** Where the search of a key stops. *)
Inductive key_order (k key : list Z) : bool -> bool -> Prop :=
| Below : strcmp (fold k) (fold key) = Lt -> fold k <> fold key -> key_order k key true false
| Here : fold k = fold key -> key_order k key false false
| Above : strcmp (fold key) (fold k) = Lt -> fold k <> fold key -> key_order k key false true.
Lemma key_orderP k key : key_order k key (CaseInsensitiveLess k key) (CaseInsensitiveLess key k).
Proof.
  unfold CaseInsensitiveLess, strcasecmp. pose proof (strcmp_antisym (fold k) (fold key)) as H.
  destruct (strcmp (fold k) (fold key)) eqn:E; rewrite H; cbn.
  - apply Here. by apply strcmp_eq.
  - apply Below; [done|]. intros F. apply strcmp_eq in F. congruence.
  - apply Above; [by rewrite H|]. intros F. apply strcmp_eq in F. congruence.
Qed.

(** The map that a sorted list stands for: keys without their case. *)
Definition before (a b : list Z * list Z) : Prop := strcmp (fold a.1) (fold b.1) = Lt.
Definition sorted (m : MapType) : Prop := StronglySorted before m.
Definition folded (m : MapType) : gmap (list Z) (list Z) :=
  list_to_map (map (fun e => (fold e.1, e.2)) m).
Lemma folded_cons k v m : folded ((k, v) :: m) = <[fold k := v]> (folded m).
Proof. reflexivity. Qed.
Lemma before_all k v m key : sorted ((k, v) :: m) -> strcmp (fold key) (fold k) = Lt ->
  folded m !! fold key = None.
Proof.
  intros Hs Hk. apply not_elem_of_list_to_map_1. rewrite list_elem_of_fmap.
  intros ([x y] & Hx & Hin). apply list_elem_of_fmap in Hin as ([k' v'] & [= -> ->] & Hin).
  apply StronglySorted_inv in Hs as [_ Hf]. rewrite list.Forall_forall in Hf.
  specialize (Hf _ Hin). unfold before in Hf. cbn in *. rewrite <- Hx in Hf.
  pose proof (strcmp_trans _ _ _ Hk Hf) as H. by rewrite strcmp_refl in H.
Qed.
Lemma sorted_tail_fresh k v m : sorted ((k, v) :: m) -> folded m !! fold k = None.
Proof.
  intros Hs. apply not_elem_of_list_to_map_1. rewrite list_elem_of_fmap.
  intros ([x y] & Hx & Hin). apply list_elem_of_fmap in Hin as ([k' v'] & [= -> ->] & Hin).
  apply StronglySorted_inv in Hs as [_ Hf]. rewrite list.Forall_forall in Hf.
  specialize (Hf _ Hin). unfold before in Hf. cbn in *. by rewrite <- Hx, strcmp_refl in Hf.
Qed.

Lemma map_find_spec key m : sorted m -> map_find key m = folded m !! fold key.
Proof.
  induction m as [|[k v] m IH]; intros Hs; [done|]. cbn [map_find].
  pose proof Hs as [Hs' _]%StronglySorted_inv. rewrite folded_cons.
  destruct (key_orderP k key) as [H Hne | H | H Hne].
  - by rewrite lookup_insert_ne, <- IH.
  - by rewrite H, lookup_insert_eq.
  - rewrite lookup_insert_ne by done. symmetry. by apply (before_all k v).
Qed.
Lemma set_head key val m k v : sorted m -> before (k, v) (key, val) -> Forall (before (k, v)) m ->
  Forall (before (k, v)) (map_set key val m).
Proof.
  intros Hs Hb Hf. induction m as [|[k' v'] m IH]; cbn [map_set].
  - by apply list.Forall_cons.
  - apply list.Forall_cons in Hf as [Hk Hf]. apply StronglySorted_inv in Hs as [Hs _].
    destruct (key_orderP k' key); repeat (apply list.Forall_cons; split); auto.
Qed.
Lemma map_set_spec key val m : sorted m ->
  sorted (map_set key val m) /\ folded (map_set key val m) = <[fold key := val]> (folded m).
Proof.
  induction m as [|[k v] m IH]; intros Hs; cbn [map_set].
  - split; [|done]. repeat constructor.
  - pose proof Hs as [Hs' Hf]%StronglySorted_inv. destruct (IH Hs') as [Hs1 E1].
    destruct (key_orderP k key) as [H Hne | H | H Hne]; rewrite ?folded_cons.
    + split; [|by rewrite E1, insert_insert_ne]. constructor; [done|]. by apply set_head.
    + split; [|by rewrite H, insert_insert_eq]. constructor; [done|]. exact Hf.
    + split; [|done]. constructor; [done|]. apply list.Forall_cons. split; [done|].
      eapply list.Forall_impl; [exact Hf|]. intros [k' v'] Hb. unfold before in *. cbn in *.
      by apply (strcmp_trans _ (fold k)).
Qed.
Lemma erase_incl P key m : Forall P m -> Forall P (map_erase key m).
Proof.
  induction m as [|[k v] m IH]; intros Hf; [done|]. cbn [map_erase].
  pose proof Hf as [Hk Hf']%list.Forall_cons.
  destruct (CaseInsensitiveLess k key); [by apply list.Forall_cons; auto|].
  by destruct (CaseInsensitiveLess key k).
Qed.
Lemma map_erase_spec key m : sorted m ->
  sorted (map_erase key m) /\ folded (map_erase key m) = delete (fold key) (folded m).
Proof.
  induction m as [|[k v] m IH]; intros Hs; cbn [map_erase].
  - split; [done|]. unfold folded. cbn. by rewrite delete_empty.
  - pose proof Hs as [Hs' Hf]%StronglySorted_inv. destruct (IH Hs') as [Hs1 E1].
    destruct (key_orderP k key) as [H Hne | H | H Hne]; rewrite ?folded_cons.
    + split; [|by rewrite E1, delete_insert_ne]. constructor; [done|]. by apply erase_incl.
    + split; [done|]. rewrite <- H, delete_insert_id; [done|]. by apply (sorted_tail_fresh k v).
    + split; [done|]. rewrite delete_id; [done|]. rewrite lookup_insert_ne by done. by apply (before_all k v).
Qed.

(** ** Reading a printed message back

    The reader that HTTP prescribes: a line, header lines up to an empty one,
    the body. *)
Fixpoint cut (a b : Z) (l : list Z) : option (list Z * list Z) :=
  match l with
  | [] => None
  | x :: l' =>
      match l' with
      | y :: r =>
          if (x =? a) && (y =? b) then Some ([], r)
          else '(p, q) ← cut a b l'; Some (x :: p, q)
      | [] => None
      end
  end.
Fixpoint read_headers (fuel : nat) (l : list Z) : option (MapType * list Z) :=
  match fuel with
  | O => None
  | S fuel =>
      '(line, rest) ← cut 13 10 l;
      match line with
      | [] => Some ([], rest)
      | _ => '(k, v) ← cut 58 32 line; '(hs, body) ← read_headers fuel rest; Some ((k, v) :: hs, body)
      end
  end.
Definition read_message (l : list Z) : option (list Z * MapType * list Z) :=
  '(start, rest) ← cut 13 10 l;
  '(hs, body) ← read_headers (length rest) rest;
  Some (start, hs, body).

Definition without (c : Z) (s : list Z) : Prop := Forall (fun x => x <> c) s.
Definition header_ok (e : list Z * list Z) : Prop := without 58 e.1 /\ without 13 e.1 /\ without 13 e.2.

Lemma cut_app a b s r : without a s -> cut a b (s ++ a :: b :: r) = Some (s, r).
Proof.
  unfold without. induction s as [|x s IH]; intros Hs; cbn [app cut].
  - by rewrite !Z.eqb_refl.
  - apply list.Forall_cons in Hs as [Hx Hs]. specialize (IH Hs).
    destruct (s ++ a :: b :: r) as [|y l] eqn:E; [by destruct s|].
    rewrite (proj2 (Z.eqb_neq x a) Hx). cbn [andb]. by rewrite IH.
Qed.

Definition header_lines (hs : MapType) : list Z := concat (map (fun e => header_line e.1 e.2) hs).
Lemma read_headers_lines hs body fuel :
  Forall header_ok hs -> (length hs < fuel)%nat ->
  read_headers fuel (header_lines hs ++ CRLF ++ body) = Some (hs, body).
Proof.
  unfold header_lines. revert fuel. induction hs as [|[k v] hs IH]; intros [|fuel] Hok Hf; cbn [length] in Hf; try lia.
  - reflexivity.
  - apply list.Forall_cons in Hok as [(H58 & Hk & Hv) Hok]. cbn [map concat fst snd read_headers] in *.
    assert (E : header_line k v ++ concat (map (fun e => header_line e.1 e.2) hs) ++ CRLF ++ body
      = (k ++ colon ++ v) ++ 13 :: 10 :: concat (map (fun e => header_line e.1 e.2) hs) ++ CRLF ++ body).
    { unfold header_line, CRLF. by rewrite <- !app_assoc. }
    rewrite <- app_assoc, E, cut_app.
    2:{ unfold without. rewrite !list.Forall_app. split_and!; [done| |done]. by repeat constructor. }
    cbn [mbind option_bind]. destruct (k ++ colon ++ v) as [|c line] eqn:El; [by destruct k|].
    rewrite <- El. change (k ++ colon ++ v) with (k ++ 58 :: 32 :: v). rewrite cut_app by done.
    cbn [mbind option_bind]. by rewrite IH by (done || lia).
Qed.

(** The headers that a message is printed with. *)
Definition connection_header (websocket close : bool) : MapType :=
  if websocket then [] else [(s_connection, if close then s_close else s_keep_alive)].
Definition shown_headers (websocket : bool) (m : MapType) : MapType :=
  List.filter (fun e => websocket || negb (is_connection e.1)) m.
Definition length_header (body : list Z) : MapType :=
  match body with [] => [] | _ => [(s_content_length, dec (Z.of_nat (length body)))] end.

Lemma header_lines_app a b : header_lines (a ++ b) = header_lines a ++ header_lines b.
Proof. unfold header_lines. by rewrite map_app, concat_app. Qed.
Lemma dump_connection_lines ws c : dump_connection ws c = header_lines (connection_header ws c).
Proof. destruct ws; [done|]. unfold header_lines. cbn. by rewrite app_nil_r. Qed.
Lemma dump_headers_lines ws m : dump_headers ws m = header_lines (shown_headers ws m).
Proof.
  unfold header_lines. induction m as [|[k v] m IH]; [done|]. cbn [dump_headers shown_headers List.filter fst].
  rewrite IH. unfold shown_headers. destruct ws; cbn [negb andb orb]; [done|]. by destruct (is_connection k).
Qed.
Lemma dump_body_lines body : dump_body body = header_lines (length_header body) ++ CRLF ++ body.
Proof.
  destruct body as [|x body]; [done|]. unfold header_lines, header_line. cbn [dump_body length_header map concat fst snd].
  by rewrite app_nil_r, <- !app_assoc.
Qed.
Lemma digits_without c l : Forall digit l -> ~ digit c -> without c l.
Proof. intros Hl Hc. eapply list.Forall_impl; [exact Hl|]. intros x Hx ->. by apply Hc. Qed.
Lemma dec_without c n : 0 <= n -> ~ digit c -> without c (dec n).
Proof. intros Hn. apply digits_without. by apply dec_spec. Qed.
Lemma literal_without c l : forallb (fun x => negb (x =? c)) l = true -> without c l.
Proof.
  rewrite forallb_forall. intros H. apply list.Forall_forall. intros x Hx. apply list_elem_of_In, H in Hx.
  by apply negb_true_iff, Z.eqb_neq in Hx.
Qed.
Lemma header_literal k v : forallb (fun x => negb (x =? 58) && negb (x =? 13)) k = true -> without 13 v ->
  header_ok (k, v).
Proof.
  rewrite forallb_forall. intros H Hv. split_and!; [| |done]; apply list.Forall_forall;
    intros x Hx; apply list_elem_of_In, H, andb_true_iff in Hx as [A B]; by apply Z.eqb_neq, negb_true_iff.
Qed.
Lemma connection_ok ws c : Forall header_ok (connection_header ws c).
Proof.
  destruct ws; [by apply list.Forall_nil|]. apply list.Forall_cons. split; [|by apply list.Forall_nil].
  apply header_literal; [done|]. apply literal_without. by destruct c.
Qed.
Lemma length_ok body : Forall header_ok (length_header body).
Proof.
  destruct body as [|x body]; [by apply list.Forall_nil|].
  apply list.Forall_cons. split; [|by apply list.Forall_nil].
  apply header_literal; [done|]. apply dec_without; [lia|]. unfold digit. lia.
Qed.
Lemma shown_ok ws m : Forall header_ok m -> Forall header_ok (shown_headers ws m).
Proof.
  rewrite !list.Forall_forall. intros H x Hx. apply H. apply list_elem_of_In, filter_In in Hx as [Hx _].
  by apply list_elem_of_In.
Qed.
Lemma length_lines hs rest : (length hs <= length (header_lines hs ++ rest))%nat.
Proof.
  unfold header_lines. induction hs as [|[k v] hs IH]; [simpl; lia|]. cbn [map concat length fst snd].
  unfold header_line at 1. rewrite !length_app in *. cbn [length colon]. lia.
Qed.
Lemma read_dumped start hs body :
  without 13 start -> Forall header_ok hs ->
  read_message (start ++ CRLF ++ header_lines hs ++ CRLF ++ body) = Some (start, hs, body).
Proof.
  intros Hs Hh. unfold read_message.
  change (start ++ CRLF ++ ?r) with (start ++ 13 :: 10 :: r). rewrite cut_app by done.
  cbn [mbind option_bind]. rewrite read_headers_lines; [done|done|].
  pose proof (length_lines hs (CRLF ++ body)). rewrite length_app in *.
  unfold CRLF in *. rewrite !length_app in *. cbn [length] in *.
  assert (H1 : (length hs <= length (header_lines hs))%nat).
  { pose proof (length_lines hs []) as H1. by rewrite app_nil_r in H1. }
  lia.
Qed.
Lemma version_without v : 0 <= v -> without 13 (dump_version v).
Proof.
  intros Hv. unfold dump_version, without. rewrite !list.Forall_app. split_and!.
  - by apply literal_without.
  - apply dec_without; [by apply Z.shiftr_nonneg|unfold digit; lia].
  - by apply literal_without.
  - apply dec_without; [apply Z.land_nonneg; lia|unfold digit; lia].
Qed.
Lemma status_without s : without 13 (HttpStatusToString s).
Proof.
  unfold HttpStatusToString. destruct (List.find _ _) as [e|] eqn:E; [|by apply literal_without].
  apply List.find_some in E as [Hin _].
  assert (H : forallb (fun e => forallb (fun x => negb (x =? 13)) (snd e)) HTTP_STATUS_MAP = true) by reflexivity.
  rewrite forallb_forall in H. by apply literal_without, H.
Qed.

(** What an application has to respect in the fields of a message. *)
Definition request_clean (r : HttpRequest) : Prop :=
  without 13 (q_path r) /\ without 13 (q_query r) /\ without 13 (q_fragment r) /\
  Forall header_ok (q_headers r) /\ 0 <= q_version r.
Definition response_clean (p : HttpResponse) : Prop :=
  without 13 (p_reason p) /\ Forall header_ok (p_headers p) /\ 0 <= p_version p.

Lemma request_line_without r : request_clean r -> without 13 (request_line r).
Proof.
  intros (Hp & Hq & Hf & _ & Hv). unfold request_line, without. rewrite !list.Forall_app. split_and!; try done.
  - apply literal_without. by destruct (q_method r).
  - by repeat constructor.
  - apply literal_without. by destruct (q_query r).
  - apply literal_without. by destruct (q_fragment r).
  - by repeat constructor.
  - by apply version_without.
Qed.
Lemma status_line_without p : response_clean p -> without 13 (status_line p).
Proof.
  intros (Hr & _ & Hv). unfold status_line, without. rewrite !list.Forall_app. split_and!.
  - by apply version_without.
  - by repeat constructor.
  - apply dec_without; [apply (wrapu_range 32); lia|unfold digit; lia].
  - by repeat constructor.
  - destruct (p_reason p); [apply status_without|done].
Qed.

(** ** Properties *)
Definition request_wf (r : HttpRequest) : Prop :=
  sorted (q_headers r) /\ sorted (q_params r) /\ sorted (q_cookies r).

(** C34: the headers and the cookies of a request are finite maps whose keys are
    compared without their case: setting, deleting and reading refine the
    operations of such a map, and the order of the tree is kept.  [delParam]
    does not: it leaves the parameters as they are and deletes a header. *)
Theorem http_maps r key val :
  request_wf r ->
  request_wf (setHeader key val r) /\ request_wf (setParam key val r) /\ request_wf (setCookie key val r) /\
  request_wf (delHeader key r) /\ request_wf (delParam key r) /\ request_wf (delCookie key r) /\
  folded (q_headers (setHeader key val r)) = <[fold key := val]> (folded (q_headers r)) /\
  folded (q_params (setParam key val r)) = <[fold key := val]> (folded (q_params r)) /\
  folded (q_cookies (setCookie key val r)) = <[fold key := val]> (folded (q_cookies r)) /\
  folded (q_headers (delHeader key r)) = delete (fold key) (folded (q_headers r)) /\
  folded (q_cookies (delCookie key r)) = delete (fold key) (folded (q_cookies r)) /\
  folded (q_params (delParam key r)) = folded (q_params r) /\
  folded (q_headers (delParam key r)) = delete (fold key) (folded (q_headers r)) /\
  (forall def, getHeader key def r = default def (folded (q_headers r) !! fold key) /\
     getParam key def r = default def (folded (q_params r) !! fold key) /\
     getCookie key def r = default def (folded (q_cookies r) !! fold key)) /\
  hasHeader key r = folded (q_headers r) !! fold key.
Proof.
  intros (Hh & Hp & Hc).
  destruct (map_set_spec key val _ Hh), (map_set_spec key val _ Hp), (map_set_spec key val _ Hc),
    (map_erase_spec key _ Hh), (map_erase_spec key _ Hc).
  unfold getHeader, getParam, getCookie, hasHeader, map_get.
  rewrite !map_find_spec by done. by split_and!.
Qed.

(** C33: a printed message reads back: splitting what [dump] wrote as HTTP
    prescribes gives the start line, the headers of the message (its own
    connection header replaced by one that says whether the connection closes,
    and the length of the body added when there is one) and the body. *)
Theorem http_dump r p :
  (request_clean r ->
     read_message (HttpRequest_dump r) =
       Some (request_line r,
             connection_header (q_websocket r) (q_close r) ++
             shown_headers (q_websocket r) (q_headers r) ++ length_header (q_body r),
             q_body r)) /\
  (response_clean p ->
     read_message (HttpResponse_dump p) =
       Some (status_line p,
             shown_headers (p_websocket p) (p_headers p) ++
             connection_header (p_websocket p) (p_close p) ++ length_header (p_body p),
             p_body p)).
Proof.
  split; intros Hc; unfold HttpRequest_dump, HttpResponse_dump;
    rewrite dump_connection_lines, dump_headers_lines, dump_body_lines;
    do 2 rewrite (app_assoc (header_lines _) (header_lines _)), <- header_lines_app;
    rewrite <- ?app_assoc; apply read_dumped.
  - by apply request_line_without.
  - destruct Hc as (_ & _ & _ & Hh & _).
    rewrite !list.Forall_app. split_and!; [apply connection_ok|by apply shown_ok|apply length_ok].
  - by apply status_line_without.
  - destruct Hc as (_ & Hh & _).
    rewrite !list.Forall_app. split_and!; [by apply shown_ok|apply connection_ok|apply length_ok].
Qed.

(** ** Witnesses *)
Definition sample_request : HttpRequest :=
  setBody (bytes "hi") (setHeader (bytes "CONNECTION") (bytes "x")
    (setHeader (bytes "Host") (bytes "a") (new_HttpRequest 0x11 true))).
Lemma sample_wf : request_wf sample_request.
Proof. split_and!; repeat constructor. Qed.
Lemma http_maps_witness :
  getHeader (bytes "hOsT") [] sample_request = bytes "a" /\
  folded (q_headers (delHeader (bytes "HOST") sample_request))
    = delete (fold (bytes "HOST")) (folded (q_headers sample_request)).
Proof.
  destruct (http_maps sample_request (bytes "hOsT") [] sample_wf)
    as (_ & _ & _ & _ & _ & _ & _ & _ & _ & _ & _ & _ & _ & H & _).
  split; [destruct (H []) as [-> _]; by vm_compute|].
  by destruct (http_maps sample_request (bytes "HOST") [] sample_wf)
    as (_ & _ & _ & _ & _ & _ & _ & _ & _ & E & _).
Defined.
Lemma http_dump_witness :
  read_message (HttpRequest_dump sample_request)
  = Some (bytes "GET / HTTP/1.1",
          [(bytes "connection", bytes "close"); (bytes "Host", bytes "a"); (bytes "content-length", bytes "2")],
          bytes "hi").
Proof.
  destruct (http_dump sample_request (new_HttpResponse 0x11 true)) as [H _].
  rewrite H; [by vm_compute|].
  split_and!; try (by apply literal_without); [|by cbn].
  apply list.Forall_forall. intros e He. apply list_elem_of_In in He. cbn in He.
  destruct He as [<-|[<-|[]]]; by apply header_literal; [vm_compute|apply literal_without].
Defined.
