(* ===== verification/HttpServer.v ===== *)
(** * HTTP server (cxk/http/http_parser.cpp, http_session.cpp, servlet.cpp, http_server.cpp)

    The parser's callbacks, the session that reads a request and writes a
    response, the dispatch over servlets, the loop that serves a client.  The
    state machine that ragel generates from http11_parser.rl is an interface,
    [Machine]: what it does to the parser is the sequence of callbacks it
    makes; [Http11] has the generated one.  The functions registered as
    servlets, [fnmatch] and [boost::lexical_cast] are parameters. *)
From S2P Require Import Prelude ByteArray Stream Http.

(** ** The parser *)

(** A callback with the bytes from [at] to the end of the buffer, and a length,
    which is a [size_t]. *)
Inductive Event : Type :=
| RequestMethod (at_ : list Z) (length : Z)
| RequestUri (at_ : list Z) (length : Z)
| Fragment (at_ : list Z) (length : Z)
| QueryString (at_ : list Z) (length : Z)
| RequestPath (at_ : list Z) (length : Z)
| HttpVersion (at_ : list Z) (length : Z)
| HeaderDone (at_ : list Z) (length : Z)
| HttpField (field : list Z) (flen : Z) (value : list Z) (vlen : Z).

(** [http_parser_execute(parser, data, len, 0)] yields the callbacks it makes
    and the number of bytes it used, or fails an assertion. *)
Class Machine (P : Type) := {
  http_parser_init : P;
  http_parser_execute : P -> list Z -> outcome (list Event * nat * P);
  http_parser_finish : P -> Z;
  http_parser_has_error : P -> bool
}.
(** A length is that of a text in the buffer, or has wrapped around. *)
Definition at_ok (at_ : list Z) (n : Z) : Prop := 0 <= n <= Z.of_nat (length at_) \/ 2 ^ 63 <= n.
Definition event_ok (e : Event) : Prop :=
  match e with
  | RequestMethod a n | RequestUri a n | Fragment a n | QueryString a n | RequestPath a n | HttpVersion a n
  | HeaderDone a n => at_ok a n
  | HttpField f fl v vl => at_ok f fl /\ at_ok v vl
  end.
(** What the parser relies on: until it has finished, the machine fails no
    assertion, uses at most the bytes it is given, and its callbacks point into
    them. *)
Class MachineSpec (P : Type) `{Machine P} := {
  machine_ok : P -> Prop;
  machine_init : machine_ok http_parser_init;
  machine_execute p data : machine_ok p -> Forall byte_ok data -> Z.of_nat (length data) < 2 ^ 31 ->
    exists es n p', http_parser_execute p data = Ret (es, n, p') /\ (n <= length data)%nat /\ Forall event_ok es /\
      (http_parser_finish p' = 0 -> machine_ok p')
}.

Record HttpRequestParser (P : Type) := mkParser { m_parser : P; m_data : HttpRequest; m_error : Z }.
Arguments mkParser {P}.
Arguments m_parser {P}.
Arguments m_data {P}.
Arguments m_error {P}.

(** [strncmp(at, lit, length) == 0]: the comparison ends with the null byte of
    [lit]. *)
Definition strncmp_eq (at_ lit : list Z) (n : Z) : bool :=
  let n := Z.to_nat (Z.min n (Z.of_nat (length lit) + 1)) in is_eq (strcmp (take n (c_str at_)) (take n lit)).
Definition http_1_1 : list Z := Eval cbv in bytes "HTTP/1.1".
Definition http_1_0 : list Z := Eval cbv in bytes "HTTP/1.0".

Section Parser.
Context {P : Type} `{Machine P} (lexical_cast : list Z -> option Z) (max_string : Z).
Implicit Types (p : HttpRequestParser P).

Definition new_HttpRequestParser : HttpRequestParser P :=
  mkParser http_parser_init (new_HttpRequest 0x11 true) 0.
Definition setError (v : Z) p := mkParser (m_parser p) (m_data p) v.
Definition on_data (f : HttpRequest -> HttpRequest) p := mkParser (m_parser p) (f (m_data p)) (m_error p).
(** [std::string(at, n)] *)
Definition std_string (at_ : list Z) (n : Z) : outcome (list Z) :=
  if max_string <? n then Throw LengthError
  else if Z.of_nat (length at_) <? n then Crash else Ret (take (Z.to_nat n) at_).

Definition on_request_method (at_ : list Z) (length : Z) p :=
  let m := CharsTohttpMethod at_ in
  if decide (m = INVALID_METHOD) then setError 1000 p else on_data (setMethod m) p.
Definition on_request_fragment (at_ : list Z) (length : Z) p : outcome (HttpRequestParser P) :=
  v ← std_string at_ length; mret (on_data (setFragment v) p).
Definition on_request_query (at_ : list Z) (length : Z) p : outcome (HttpRequestParser P) :=
  v ← std_string at_ length; mret (on_data (setQuery v) p).
Definition on_request_path (at_ : list Z) (length : Z) p : outcome (HttpRequestParser P) :=
  v ← std_string at_ length; mret (on_data (setPath v) p).
Definition on_request_version (at_ : list Z) (length : Z) p :=
  if strncmp_eq at_ http_1_1 length then on_data (setVersion 0x11) p
  else if strncmp_eq at_ http_1_0 length then on_data (setVersion 0x10) p
  else setError 1001 p.
Definition on_request_http_field (field : list Z) (flen : Z) (value : list Z) (vlen : Z) p :
    outcome (HttpRequestParser P) :=
  if flen =? 0 then mret p
  else
    k ← std_string field flen; v ← std_string value vlen; mret (on_data (setHeader k v) p).
Definition on_event (e : Event) p : outcome (HttpRequestParser P) :=
  match e with
  | RequestMethod a n => mret (on_request_method a n p)
  | RequestUri _ _ => mret p
  | Fragment a n => on_request_fragment a n p
  | QueryString a n => on_request_query a n p
  | RequestPath a n => on_request_path a n p
  | HttpVersion a n => mret (on_request_version a n p)
  | HeaderDone _ _ => mret p
  | HttpField f fl v vl => on_request_http_field f fl v vl p
  end.
Fixpoint on_events (es : list Event) p : outcome (HttpRequestParser P) :=
  match es with [] => mret p | e :: es => p ← on_event e p; on_events es p end.
(** [execute(data, len)] on the [len] bytes of [data]: the number of bytes
    parsed, and the bytes moved to the front. *)
Definition execute (data : list Z) p : outcome (nat * list Z * HttpRequestParser P) :=
  '(events, offset, m) ← http_parser_execute (m_parser p) data;
  p ← on_events events p;
  mret (offset, drop offset data, mkParser m (m_data p) (m_error p)).
Definition isFinished p : bool := negb (http_parser_finish (m_parser p) =? 0).
Definition hasError p : bool := negb (m_error p =? 0) || http_parser_has_error (m_parser p).
Definition s_Content_Length : list Z := Eval cbv in bytes "Content-Length".
Definition getContentLength p : Z := getAs lexical_cast (q_headers (m_data p)) s_Content_Length 0.
End Parser.

(** ** The session *)
Section Session.
Context {P : Type} `{Machine P} (lexical_cast : list Z -> option Z).
Context {St : Type} `{Stream St} (buff_size : Z) (max_string : Z).

(** The loop over [read]: [None] is [return nullptr]. *)
Fixpoint recv_head (fuel : nat) (data : list Z) (p : HttpRequestParser P) :
    M St (option (list Z * HttpRequestParser P)) :=
  match fuel with
  | O => nofuel
  | S fuel =>
      '(len, d) ← s_read (buff_size - Z.of_nat (length data));
      if len <=? 0 then Stream.s_close ;; mret None else
      let data := data ++ d in
      '(nparse, data', p) ← lift (execute max_string data p);
      if hasError p then Stream.s_close ;; mret None else
      if (length data <? nparse)%nat then crash else
      if Z.of_nat (length data') =? i32 buff_size then Stream.s_close ;; mret None else
      if isFinished p then mret (Some (data', p)) else recv_head fuel data' p
  end.

(** [data] holds the bytes read past the header.  [length -= offset] is
    unsigned. *)
Definition recv_body (data : list Z) (p : HttpRequestParser P) : M St (option HttpRequest) :=
  let length := getContentLength lexical_cast p in
  let offset := Z.of_nat (List.length data) in
  if 0 <? length then
    if max_string <? length then throw LengthError else
    let body := if offset <=? length then data else take (Z.to_nat length) data in
    let left := u64 (length - offset) in
    if 0 <? left then
      '(r, d) ← readFixSize left;
      if r <=? 0 then Stream.s_close ;; mret None
      else mret (Some (setBody (body ++ d) (m_data p)))
    else mret (Some (setBody body (m_data p)))
  else mret (Some (m_data p)).

Definition s_Connection : list Z := Eval cbv in bytes "Connection".
Definition set_keep_alive (r : HttpRequest) : HttpRequest :=
  if is_eq (strcasecmp (getHeader s_Connection [] r) s_keep_alive) then setClose false r else r.
Definition recvRequest (fuel : nat) : M St (option HttpRequest) :=
  h ← recv_head fuel [] new_HttpRequestParser;
  match h with
  | None => mret None
  | Some (data, p) =>
      r ← recv_body data p;
      mret (set_keep_alive <$> r)
  end.

Definition sendResponse (rsp : HttpResponse) : M St Z :=
  let data := HttpResponse_dump rsp in
  writeFixSize data (Z.of_nat (length data)).
End Session.

(** ** Servlets *)

(** A registered function, or the servlet of the 404 page with its content. *)
Inductive Servlet : Type := FunctionServlet (cb : nat) | NotFoundServlet (content : list Z).
Definition new_NotFoundServlet (name : list Z) : Servlet :=
  NotFoundServlet (bytes "<html><head><title>404 Not Found</title></head><body><center><h1>404 Not Found</h1></center><hr><center>"
    ++ name ++ bytes "</center></body></html>").

(** [Servlet::ptr] may be null. *)
Record ServletDispatch := mkDispatch {
  m_datas : gmap (list Z) (option Servlet);
  m_globs : list (list Z * option Servlet);
  m_default : option Servlet
}.
Definition new_ServletDispatch : ServletDispatch := mkDispatch ∅ [] (Some (new_NotFoundServlet (bytes "cxk/1.1"))).
Definition setDefault (slt : option Servlet) (s : ServletDispatch) := mkDispatch (m_datas s) (m_globs s) slt.
Definition addServlet (uri : list Z) (slt : option Servlet) (s : ServletDispatch) : ServletDispatch :=
  mkDispatch (<[uri := slt]> (m_datas s)) (m_globs s) (m_default s).
Definition addServlet_cb (uri : list Z) (cb : nat) (s : ServletDispatch) : ServletDispatch :=
  addServlet uri (Some (FunctionServlet cb)) s.
(** The loop that erases the first entry of [uri]. *)
Fixpoint erase_glob (uri : list Z) (l : list (list Z * option Servlet)) : list (list Z * option Servlet) :=
  match l with
  | [] => []
  | e :: l => if decide (e.1 = uri) then l else e :: erase_glob uri l
  end.
Definition delGlobServlet (uri : list Z) (s : ServletDispatch) : ServletDispatch :=
  mkDispatch (m_datas s) (erase_glob uri (m_globs s)) (m_default s).
Definition addGlobServlet (uri : list Z) (slt : option Servlet) (s : ServletDispatch) : ServletDispatch :=
  mkDispatch (m_datas s) (erase_glob uri (m_globs s) ++ [(uri, slt)]) (m_default s).
Definition addGlobServlet_cb (uri : list Z) (cb : nat) (s : ServletDispatch) : ServletDispatch :=
  addGlobServlet uri (Some (FunctionServlet cb)) s.
Definition delServlet (uri : list Z) (s : ServletDispatch) : ServletDispatch :=
  mkDispatch (delete uri (m_datas s)) (m_globs s) (m_default s).
(** [None] of the result is the null pointer. *)
Definition getServlet (uri : list Z) (s : ServletDispatch) : option Servlet :=
  match m_datas s !! uri with Some slt => slt | None => None end.
Fixpoint find_glob (test : list Z -> bool) (l : list (list Z * option Servlet)) : option (option Servlet) :=
  match l with [] => None | (g, slt) :: l => if test g then Some slt else find_glob test l end.
Definition getGlobServlet (uri : list Z) (s : ServletDispatch) : option Servlet :=
  match find_glob (fun g => bool_decide (g = uri)) (m_globs s) with Some slt => slt | None => None end.

Section Dispatch.
(** [fnmatch pattern string]: whether it returns 0. *)
Context (fnmatch : list Z -> list Z -> bool).
Definition getMatchedServlet (uri : list Z) (s : ServletDispatch) : option Servlet :=
  match m_datas s !! uri with
  | Some slt => slt
  | None =>
      match find_glob (fun g => fnmatch (c_str g) (c_str uri)) (m_globs s) with
      | Some slt => slt
      | None => m_default s
      end
  end.

Definition s_Content_Type : list Z := Eval cbv in bytes "Content-Type".
Definition s_text_html : list Z := Eval cbv in bytes "text/html".
Definition s_server : list Z := Eval cbv in bytes "server".
Definition s_cxk : list Z := Eval cbv in bytes "cxk/1.16.0".
Definition not_found (content : list Z) (rsp : HttpResponse) : HttpResponse :=
  rsp_setBody content (rsp_setHeader s_server s_cxk (rsp_setHeader s_Content_Type s_text_html (rsp_setStatus NOT_FOUND rsp))).

(** A registered function gets the request, the response and the session; it
    may change all of them. *)
Context {St : Type} (callback : nat -> HttpRequest -> HttpResponse -> M St (Z * HttpRequest * HttpResponse)).
Definition servlet_handle (slt : Servlet) (req : HttpRequest) (rsp : HttpResponse) :
    M St (Z * HttpRequest * HttpResponse) :=
  match slt with
  | FunctionServlet cb => callback cb req rsp
  | NotFoundServlet content => mret (0, req, not_found content rsp)
  end.
(** The dispatch's own [handle]: the servlet's result is dropped. *)
Definition dispatch_handle (s : ServletDispatch) (req : HttpRequest) (rsp : HttpResponse) :
    M St (Z * HttpRequest * HttpResponse) :=
  match getMatchedServlet (q_path req) s with
  | Some slt => '(_, req, rsp) ← servlet_handle slt req rsp; mret (0, req, rsp)
  | None => mret (0, req, rsp)
  end.

(** ** The server *)
Context {P : Type} `{Machine P} (lexical_cast : list Z -> option Z) `{Stream St} (buff_size max_string : Z).
Record HttpServer := mkServer { m_isKeepAlive : bool; m_name : list Z; m_dispatch : ServletDispatch }.
Definition setName (v : list Z) (s : HttpServer) : HttpServer :=
  mkServer (m_isKeepAlive s) v (setDefault (Some (new_NotFoundServlet v)) (m_dispatch s)).
Definition s_Server : list Z := Eval cbv in bytes "Server".

(** One turn of the loop of [handleClient]: whether to go on. *)
Definition handle_one (s : HttpServer) (req : HttpRequest) : M St bool :=
  let rsp := rsp_setHeader s_Server (m_name s)
               (new_HttpResponse (q_version req) (q_close req || negb (m_isKeepAlive s))) in
  '(_, req, rsp) ← dispatch_handle (m_dispatch s) req rsp;
  sendResponse rsp ;;
  mret (m_isKeepAlive s && negb (q_close req)).
Fixpoint handle_loop (fuel : nat) (s : HttpServer) : M St unit :=
  match fuel with
  | O => nofuel
  | S fuel' =>
      req ← recvRequest lexical_cast buff_size max_string fuel;
      match req with
      | None => mret tt
      | Some req => go ← handle_one s req; if (go : bool) then handle_loop fuel' s else mret tt
      end
  end.
Definition handleClient (fuel : nat) (s : HttpServer) : M St unit :=
  handle_loop fuel s ;; Stream.s_close.
End Dispatch.

(** ** Dispatch *)
Lemma find_glob_cases test l :
  match find_glob test l with
  | Some slt => exists l1 g l2, l = l1 ++ (g, slt) :: l2 /\ test g = true /\ Forall (fun e => test e.1 = false) l1
  | None => Forall (fun e => test e.1 = false) l
  end.
Proof.
  induction l as [|[g slt] l IH]; cbn [find_glob]; [done|]. destruct (test g) eqn:E.
  - by exists [], g, l.
  - destruct (find_glob test l) as [slt'|].
    + destruct IH as (l1 & g' & l2 & -> & Hg & Hf). exists ((g, slt) :: l1), g', l2. by auto.
    + by auto.
Qed.
Lemma erase_glob_notin uri l : NoDup (map fst l) -> uri ∉ map fst (erase_glob uri l).
Proof.
  induction l as [|[g slt] l IH]; cbn [erase_glob map fst]; intros Hn; [by apply not_elem_of_nil|].
  apply list.NoDup_cons in Hn as [Hg Hn]. case_decide as E; [by subst|]. cbn [map fst].
  apply not_elem_of_cons. split; [congruence|]. by apply IH.
Qed.
Lemma erase_glob_incl uri l x : x ∈ map fst (erase_glob uri l) -> x ∈ map fst l.
Proof.
  induction l as [|[g slt] l IH]; cbn [erase_glob map fst]; [done|]. case_decide; cbn [map fst].
  - intros. by right.
  - rewrite !elem_of_cons. intros [->|Hx]; auto.
Qed.
Lemma erase_glob_NoDup uri l : NoDup (map fst l) -> NoDup (map fst (erase_glob uri l)).
Proof.
  induction l as [|[g slt] l IH]; cbn [erase_glob map fst]; intros Hn; [done|].
  apply list.NoDup_cons in Hn as [Hg Hn]. case_decide; [done|]. cbn [map fst] in *. apply list.NoDup_cons. split.
  - by intros Hx%erase_glob_incl.
  - by apply IH.
Qed.
Lemma add_glob_NoDup uri slt l : NoDup (map fst l) -> NoDup (map fst (erase_glob uri l ++ [(uri, slt)])).
Proof.
  intros Hn. rewrite map_app. apply list.NoDup_app. split_and!.
  - by apply erase_glob_NoDup.
  - intros x Hx ->%list_elem_of_singleton. by apply (erase_glob_notin uri l Hn).
  - apply list.NoDup_singleton.
Qed.
Lemma find_glob_None test l : find_glob test l = None <-> Forall (fun e => test e.1 = false) l.
Proof.
  split; intros H.
  - pose proof (find_glob_cases test l) as Hc. by rewrite H in Hc.
  - induction l as [|[g slt] l IH]; [done|]. apply list.Forall_cons in H as [Hg H]. cbn [find_glob fst] in *.
    by rewrite Hg, IH.
Qed.
Lemma find_glob_app test l1 l2 : find_glob test l1 = None -> find_glob test (l1 ++ l2) = find_glob test l2.
Proof.
  induction l1 as [|[g slt] l1 IH]; [done|]. cbn [find_glob app]. by destruct (test g).
Qed.
Lemma find_glob_app_Some test l1 l2 x : find_glob test l1 = Some x -> find_glob test (l1 ++ l2) = Some x.
Proof.
  induction l1 as [|[g slt] l1 IH]; [done|]. cbn [find_glob app]. by destruct (test g).
Qed.
Lemma find_exact_erased uri l : NoDup (map fst l) ->
  find_glob (fun g => bool_decide (g = uri)) (erase_glob uri l) = None.
Proof.
  intros Hn. apply find_glob_None. apply list.Forall_forall. intros e He. apply bool_decide_eq_false_2. intros <-.
  apply (erase_glob_notin e.1 l Hn). by apply list_elem_of_fmap_2.
Qed.
Lemma find_exact_other uri uri' l : uri' <> uri ->
  find_glob (fun g => bool_decide (g = uri')) (erase_glob uri l) = find_glob (fun g => bool_decide (g = uri')) l.
Proof.
  intros Hne. induction l as [|[g slt] l IH]; [done|]. cbn [erase_glob find_glob fst]. case_decide as E; cbn [find_glob].
  - subst. by rewrite bool_decide_false by congruence.
  - by rewrite IH.
Qed.

(** ** The session *)
Section SessionSpec.
Context {P : Type} `{MachineSpec P} (lexical_cast : list Z -> option Z).
Context {St : Type} `{StreamSpec St} (buff_size : Z) (max_string : Z) (max_string_small : max_string < 2 ^ 63).

(** Strings are built from the buffer, or are too long to be built. *)
Definition ret_or_long {A} (Q : A -> Prop) (o : outcome A) : Prop :=
  match o with Ret a => Q a | Throw LengthError => True | _ => False end.
Lemma ret_or_long_impl {A} (Q Q' : A -> Prop) o : (forall a, Q a -> Q' a) -> ret_or_long Q o -> ret_or_long Q' o.
Proof. destruct o as [?|[]| |]; cbn; auto. Qed.
Lemma ret_or_long_bind {A B} (Q : A -> Prop) (Q' : B -> Prop) (o : outcome A) (f : A -> outcome B) :
  ret_or_long Q o -> (forall a, Q a -> ret_or_long Q' (f a)) -> ret_or_long Q' (a ← o; f a).
Proof. destruct o as [?|[]| |]; cbn; auto. Qed.
Lemma std_string_ok at_ n : at_ok at_ n -> ret_or_long (fun _ => True) (std_string max_string at_ n).
Proof.
  unfold std_string. intros [Hn|Hn].
  - destruct (Z.ltb_spec max_string n); [done|]. by destruct (Z.ltb_spec (Z.of_nat (length at_)) n); [lia|].
  - by destruct (Z.ltb_spec max_string n); [|lia].
Qed.
Lemma on_event_ok e (p : HttpRequestParser P) : event_ok e -> ret_or_long (fun p' => m_parser p' = m_parser p) (on_event max_string e p).
Proof.
  destruct e; cbn [event_ok on_event]; try done;
    try (intros He; eapply ret_or_long_bind; [by apply std_string_ok|done]).
  - intros _. cbn. unfold on_request_method. by case_decide.
  - intros _. cbn. unfold on_request_version. by repeat case_match.
  - intros [Hf Hv]. unfold on_request_http_field. destruct (flen =? 0); [done|].
    eapply ret_or_long_bind; [by apply std_string_ok|]. intros ? _.
    eapply ret_or_long_bind; [by apply std_string_ok|done].
Qed.
Lemma on_events_ok es (p : HttpRequestParser P) : Forall event_ok es -> ret_or_long (fun _ => True) (on_events max_string es p).
Proof.
  intros He. revert p. induction He as [|e es He _ IH]; intros p; [done|]. cbn [on_events].
  eapply ret_or_long_bind; [by apply on_event_ok|auto].
Qed.
Lemma execute_ok data (p : HttpRequestParser P) :
  machine_ok (m_parser p) -> Forall byte_ok data -> Z.of_nat (length data) < 2 ^ 31 ->
  ret_or_long (fun '(n, data', p') => (n <= length data)%nat /\ data' = drop n data /\
    (isFinished p' = false -> machine_ok (m_parser p'))) (execute max_string data p).
Proof.
  intros Hp Hb Hl. unfold execute. destruct (machine_execute (m_parser p) data Hp Hb Hl) as (es & n & m & -> & Hn & He & Hm).
  cbn [mbind outcome_bind]. eapply ret_or_long_bind; [by apply on_events_ok|]. intros p' _. cbn. split_and!; [done..|].
  unfold isFinished. cbn. intros [=Hf%negb_false_iff%Z.eqb_eq]. auto.
Qed.
Context (buff_pos : 0 < buff_size < 2 ^ 31).

Definition head_result (s : St) (r : option (list Z * HttpRequestParser P)) (s' : St) : Prop :=
  match r with
  | Some (data', p') => st_open s' /\ Z.of_nat (length data') < buff_size /\
      (length (st_pending s') < length (st_pending s))%nat /\ hasError p' = false /\ isFinished p' = true
  | None => ~ st_open s'
  end.
Lemma recv_head_cases fuel data p s :
  machine_ok (m_parser p) -> Forall byte_ok data -> Forall byte_ok (st_pending s) ->
  st_open s -> Z.of_nat (length data) < buff_size -> (length (st_pending s) < fuel)%nat ->
  exists o s', recv_head buff_size max_string fuel data p s = (o, s') /\ ret_or_long (fun r => head_result s r s') o.
Proof.
  revert data p s. induction fuel as [|fuel IH]; intros data p s Hmp Hdb Hpb Ho Hd Hf; [lia|]. cbn [recv_head].
  assert (Hclose : forall s1, exists o s', (Stream.s_close ;; mret None) s1 = (o, s') /\
    ret_or_long (fun r => head_result s r s') o).
  { intros s1. destruct (st_close_law s1) as (s2 & Hc & _ & _ & Hn). mstep Hc. by eexists _, _. }
  destruct (decide (st_pending s = [])) as [E|E].
  { destruct (st_eof_law s (buff_size - Z.of_nat (length data)) Ho ltac:(lia) E) as (r & s1 & Hr & Hle & _).
    mstep Hr. cbv beta iota. zcase. apply Hclose. }
  destruct (st_read_law s (buff_size - Z.of_nat (length data)) Ho ltac:(lia) E)
    as (d & s1 & Hr & Hpos & Hle & Hp & _ & Ho1).
  mstep Hr. cbv beta iota zeta. zcase. rewrite Hp, list.Forall_app in Hpb. destruct Hpb as [Hdb' Hpb].
  pose proof (execute_ok (data ++ d) p Hmp ltac:(by apply list.Forall_app) ltac:(rewrite length_app; lia)) as He.
  destruct (execute _ _ _) as [[[n data'] p']|[]| |]; try done; [|by eexists _, _].
  destruct He as (Hn & -> & Hm). msimpl. rewrite length_app in Hn.
  destruct (hasError p') eqn:Ee; [apply Hclose|].
  replace (length (data ++ d) <? n)%nat with false by (symmetry; rewrite length_app; apply Nat.ltb_ge; lia).
  rewrite length_drop, length_app, i32_small by lia. zcase; [apply Hclose|].
  assert (Hlen : (length (st_pending s) = length d + length (st_pending s1))%nat) by (by rewrite Hp, length_app).
  destruct (isFinished p') eqn:Ef.
  - eexists _, _. split; [done|]. cbn. rewrite length_drop, length_app. split_and!; [done|lia|lia|done|done].
  - destruct (IH (drop n (data ++ d)) p' s1 (Hm eq_refl)) as (o & s2 & Hr2 & Hres);
      [by apply list.Forall_drop, list.Forall_app|done|done|rewrite length_drop, length_app; lia|lia|].
    eexists _, _. split; [exact Hr2|]. revert Hres. apply ret_or_long_impl. intros [[? ?]|]; [|done].
    cbn. intros (? & ? & ? & ? & ?). split_and!; [done|done|lia|done|done].
Qed.

(** The body, by the announced length and the bytes read past the header. *)
Lemma recv_body_run data (p : HttpRequestParser P) s n :
  st_open s -> getContentLength lexical_cast p = n -> 0 <= n <= max_string -> max_string < 2 ^ 63 ->
  Z.of_nat (length data) < 2 ^ 31 -> Z.of_nat (length (st_pending s)) < 2 ^ 31 ->
  exists s', recv_body lexical_cast max_string data p s =
    (Ret (if n =? 0 then Some (m_data p)
          else if n <? Z.of_nat (length data) then None
          else if Z.of_nat (length (st_pending s)) <? n - Z.of_nat (length data) then None
          else Some (setBody (data ++ take (Z.to_nat (n - Z.of_nat (length data))) (st_pending s)) (m_data p))), s') /\
    (n <> 0 /\ (n < Z.of_nat (length data) \/ Z.of_nat (length (st_pending s)) < n - Z.of_nat (length data)) -> ~ st_open s').
Proof.
  intros Ho En Hn Hmax Hd Hpend. unfold recv_body. rewrite En.
  assert (Hclose : forall s, exists s', (Stream.s_close ;; mret (@None HttpRequest)) s = (Ret None, s') /\ ~ st_open s').
  { intros s1. destruct (st_close_law s1) as (s2 & Hc & _ & _ & Hn'). mstep Hc. by eexists. }
  destruct (Z.ltb_spec 0 n).
  2:{ replace n with 0 by lia. exists s. split; [done|]. by intros [[] _]. }
  replace (n =? 0) with false by (symmetry; apply Z.eqb_neq; lia).
  replace (max_string <? n) with false by (symmetry; apply Z.ltb_ge; lia).
  destruct (Z.leb_spec (Z.of_nat (length data)) n) as [Hle|Hgt].
  - rewrite u64_small by lia. replace (n <? Z.of_nat (length data)) with false by (symmetry; apply Z.ltb_ge; lia).
    destruct (Z.ltb_spec 0 (n - Z.of_nat (length data))).
    + destruct (Z.ltb_spec (Z.of_nat (length (st_pending s))) (n - Z.of_nat (length data))).
      * destruct (readFixSize_eof (n - Z.of_nat (length data)) s Ho ltac:(lia)) as (r & d & s1 & Hr & Hneg & _).
        mstep Hr. cbv beta iota. zcase. destruct (Hclose s1) as (s2 & Hc & Hn'). by exists s2.
      * set (k := Z.to_nat (n - Z.of_nat (length data))).
        assert (Ek : Z.of_nat (length (take k (st_pending s))) = n - Z.of_nat (length data))
          by (rewrite length_take; lia).
        destruct (readFixSize_ok (take k (st_pending s)) (drop k (st_pending s)) s Ho) as (s1 & Hr & _);
          [by rewrite take_drop|lia|].
        rewrite Ek in Hr. mstep Hr. cbv beta iota. zcase. exists s1. split; [done|lia].
    + replace (n - Z.of_nat (length data)) with 0 by lia. cbn [Z.to_nat take].
      replace (Z.of_nat (length (st_pending s)) <? 0) with false by (symmetry; apply Z.ltb_ge; lia).
      rewrite app_nil_r. exists s. split; [done|lia].
  - replace (n <? Z.of_nat (length data)) with true by (symmetry; by apply Z.ltb_lt).
    assert (Eu : u64 (n - Z.of_nat (length data)) = 2 ^ 64 + (n - Z.of_nat (length data))).
    { unfold u64, wrapu. rewrite <- (Z_mod_plus_full _ 1). rewrite Z.mod_small by lia. lia. }
    rewrite Eu. zcase. unfold readFixSize.
    assert (Ei : i64 (2 ^ 64 + (n - Z.of_nat (length data))) = n - Z.of_nat (length data)).
    { unfold i64, wraps. rewrite <- (Z_mod_plus_full _ (-1)), Z.mod_small by lia. lia. }
    assert (Ei' : i32 (2 ^ 64 + (n - Z.of_nat (length data))) = n - Z.of_nat (length data)).
    { unfold i32, wraps. rewrite <- (Z_mod_plus_full _ (- 2 ^ 32)), Z.mod_small by lia. lia. }
    rewrite Ei. cbn [readFixSize_loop]. zcase. rewrite Ei'. msimpl. zcase.
    destruct (Hclose s) as (s2 & Hc & Hn'). exists s2. by split; [exact Hc|].
Qed.

(** What [recvRequest] may end with, of the parser [p] that read the header and
    the bytes [data] behind it. *)
Definition whole_request (data : list Z) (p : HttpRequestParser P) (s1 : St) (r : HttpRequest) : Prop :=
  hasError p = false /\ isFinished p = true /\
  let n := getContentLength lexical_cast p in
  let body := data ++ take (Z.to_nat (n - Z.of_nat (length data))) (st_pending s1) in
  if n =? 0 then r = set_keep_alive (m_data p) else Z.of_nat (length body) = n /\ r = set_keep_alive (setBody body (m_data p)).
Definition request_result (fuel : nat) (s : St) (o : outcome (option HttpRequest)) (s' : St) : Prop :=
  match o with
  | Ret (Some r) => exists data p s1, recv_head buff_size max_string fuel [] new_HttpRequestParser s = (Ret (Some (data, p)), s1) /\
      whole_request data p s1 r
  | Ret None => ~ st_open s'
  | Throw LengthError => True
  | _ => False
  end.
Lemma body_size data s1 (p : HttpRequestParser P) (n := getContentLength lexical_cast p) :
  Z.of_nat (length data) <= n -> n - Z.of_nat (length data) <= Z.of_nat (length (st_pending s1)) ->
  Z.of_nat (length (data ++ take (Z.to_nat (n - Z.of_nat (length data))) (st_pending s1))) = n.
Proof. intros. rewrite length_app, length_take. lia. Qed.
Lemma recvRequest_run fuel s :
  (forall str v, lexical_cast str = Some v -> 0 <= v < 2 ^ 64) ->
  st_open s -> Forall byte_ok (st_pending s) -> Z.of_nat (length (st_pending s)) < 2 ^ 31 -> (length (st_pending s) < fuel)%nat ->
  exists o s', recvRequest lexical_cast buff_size max_string fuel s = (o, s') /\ request_result fuel s o s'.
Proof.
  intros Hcast Ho Hpb Hpend Hf. unfold recvRequest. pose proof max_string_small as Hmax.
  destruct (recv_head_cases fuel [] new_HttpRequestParser s machine_init (list.Forall_nil_2 byte_ok) Hpb Ho)
    as (o & s1 & Hr & Hres); [cbn; lia|done|].
  destruct o as [r|[]| |]; try done; [|by rewrite (bind_Throw _ _ _ _ _ Hr); eexists _, _].
  mstep Hr. destruct r as [[data p]|]; [|by eexists _, _].
  destruct Hres as (Ho1 & Hd & Hp & He & Hfin).
  assert (Hwhole : forall r, whole_request data p s1 r -> request_result fuel s (Ret (Some r)) s1) by (intros; by exists data, p, s1).
  assert (Hn : 0 <= getContentLength lexical_cast p).
  { unfold getContentLength, getAs. destruct (map_find _ _) as [v|]; [|done].
    destruct (lexical_cast v) eqn:E; [apply Hcast in E; lia|done]. }
  destruct (Z.leb_spec (getContentLength lexical_cast p) max_string) as [Hle|Hgt].
  - destruct (recv_body_run data p s1 _ Ho1 eq_refl ltac:(lia) Hmax ltac:(lia) ltac:(lia)) as (s2 & Hb & Hcl).
    mstep Hb. unfold whole_request in Hwhole. revert Hwhole. destruct (Z.eqb_spec (getContentLength lexical_cast p) 0); intros Hwhole.
    + eexists _, _. split; [done|]. destruct (Hwhole _ (conj He (conj Hfin eq_refl))) as (d & q & t & ?). by exists d, q, t.
    + repeat zcase; [eexists _, _; split; [done|]; apply Hcl; auto..|]. eexists _, _. split; [done|].
      destruct (Hwhole _ (conj He (conj Hfin (conj (body_size data s1 p ltac:(lia) ltac:(lia)) eq_refl)))) as (d & q & t & ?). by exists d, q, t.
  - destruct (decide (getContentLength lexical_cast p = 0)) as [E0|].
    + assert (Hb : recv_body lexical_cast max_string data p s1 = (Ret (Some (m_data p)), s1)).
      { unfold recv_body. by rewrite E0. }
      mstep Hb. eexists _, _. split; [done|]. apply Hwhole. unfold whole_request. by rewrite E0.
    + assert (Hb : recv_body lexical_cast max_string data p s1 = (Throw LengthError, s1)).
      { unfold recv_body. destruct (Z.ltb_spec 0 (getContentLength lexical_cast p)); [|lia].
        by destruct (Z.ltb_spec max_string (getContentLength lexical_cast p)); [|lia]. }
      rewrite (bind_Throw _ _ _ _ _ Hb). by eexists _, _.
Qed.
End SessionSpec.

(** ** Properties *)

(** the dispatch keeps its promises: a registered path or pattern is found
    again, is found no more once deleted, and leaves the others alone; a pattern
    is registered once; a request goes to the servlet of its exact path, else to
    that of the first pattern, in the order of registration, that matches, else
    to the default one. *)
Theorem servlet_dispatch fnmatch uri slt s :
  NoDup (map fst (m_globs s)) ->
  NoDup (map fst (m_globs (addGlobServlet uri slt s))) /\ NoDup (map fst (m_globs (delGlobServlet uri s))) /\
  getServlet uri (addServlet uri slt s) = slt /\ getServlet uri (delServlet uri s) = None /\
  getGlobServlet uri (addGlobServlet uri slt s) = slt /\ getGlobServlet uri (delGlobServlet uri s) = None /\
  (forall uri', uri' <> uri ->
     getServlet uri' (addServlet uri slt s) = getServlet uri' s /\
     getServlet uri' (delServlet uri s) = getServlet uri' s /\
     getGlobServlet uri' (addGlobServlet uri slt s) = getGlobServlet uri' s /\
     getGlobServlet uri' (delGlobServlet uri s) = getGlobServlet uri' s) /\
  (forall path,
     (forall x, m_datas s !! path = Some x -> getMatchedServlet fnmatch path s = x) /\
     (forall l1 g x l2, m_datas s !! path = None -> m_globs s = l1 ++ (g, x) :: l2 ->
        fnmatch (c_str g) (c_str path) = true ->
        Forall (fun e => fnmatch (c_str e.1) (c_str path) = false) l1 -> getMatchedServlet fnmatch path s = x) /\
     (m_datas s !! path = None -> Forall (fun e => fnmatch (c_str e.1) (c_str path) = false) (m_globs s) ->
        getMatchedServlet fnmatch path s = m_default s)).
Proof.
  intros Hn. unfold getServlet, getGlobServlet, getMatchedServlet.
  cbn [addServlet delServlet addGlobServlet delGlobServlet m_datas m_globs m_default].
  split_and!.
  - by apply add_glob_NoDup.
  - by apply erase_glob_NoDup.
  - by rewrite lookup_insert_eq.
  - by rewrite lookup_delete_eq.
  - rewrite find_glob_app by (by apply find_exact_erased). cbn. by rewrite bool_decide_true.
  - by rewrite find_exact_erased.
  - intros uri' Hne. rewrite lookup_insert_ne, lookup_delete_ne, find_exact_other by done. split_and!; try done.
    rewrite <- (find_exact_other uri uri' (m_globs s)) by done.
    destruct (find_glob _ (erase_glob uri (m_globs s))) as [x|] eqn:E.
    + by rewrite (find_glob_app_Some _ _ _ _ E).
    + rewrite find_glob_app by done. cbn. by rewrite bool_decide_false by congruence.
  - intros path. split_and!.
    + by intros x ->.
    + intros l1 g x l2 -> -> Hg Hl1. rewrite find_glob_app by (by apply find_glob_None). cbn [find_glob]. by rewrite Hg.
    + intros ->. intros Hl. rewrite <- (find_glob_None (fun g => fnmatch (c_str g) (c_str path))) in Hl. by rewrite Hl.
Qed.

Section ServerProperties.
Context {P : Type} `{MachineSpec P} {St : Type} `{StreamSpec St}.
Context (lexical_cast : list Z -> option Z) (buff_size max_string : Z).

(** C32: reading a request ends on every input of every peer, whatever the
    parser's machine does with it. It returns null, and then the stream is
    closed; or a request, which a parser has read to its end without an error,
    with a body of exactly the announced number of bytes, those behind the header
    and the next ones of the stream; or it throws the exception of a string that
    is too long, since nothing else bounds the announced length of a body. *)
Theorem recvRequest_total fuel s :
  0 < buff_size < 2 ^ 31 ->
  (forall str v, lexical_cast str = Some v -> 0 <= v < 2 ^ 64) -> max_string < 2 ^ 63 ->
  st_open s -> Forall byte_ok (st_pending s) -> Z.of_nat (length (st_pending s)) < 2 ^ 31 ->
  (length (st_pending s) < fuel)%nat ->
  exists o s', recvRequest (P:=P) lexical_cast buff_size max_string fuel s = (o, s') /\
    request_result lexical_cast buff_size max_string fuel s o s'.
Proof. intros Hb Hcast Hm. by apply recvRequest_run. Qed.

(** the body of a request is the announced number of bytes, those read with
    the header first; with too few bytes the result is null. When more bytes
    than the body were read with the header - a pipelined request - the result
    is null too, and without a body those bytes are lost. *)
Theorem http_body data (p : HttpRequestParser P) s :
  let n := getContentLength lexical_cast p in
  st_open s -> 0 <= n <= max_string -> max_string < 2 ^ 63 ->
  Z.of_nat (length data) < 2 ^ 31 -> Z.of_nat (length (st_pending s)) < 2 ^ 31 ->
  exists s', recv_body lexical_cast max_string data p s =
    (Ret (if n =? 0 then Some (m_data p)
          else if n <? Z.of_nat (length data) then None
          else if Z.of_nat (length (st_pending s)) <? n - Z.of_nat (length data) then None
          else Some (setBody (data ++ take (Z.to_nat (n - Z.of_nat (length data))) (st_pending s)) (m_data p))), s').
Proof. intros n Ho Hn Hmax Hd Hp. destruct (recv_body_run lexical_cast max_string data p s n) as (s' & E & _); try done. by exists s'. Qed.

(** a request is answered: the response that the matched servlet made, in
    the printed form of the message, is all that is sent, with the server's name
    and a connection header that agrees with what happens next: the loop goes
    on exactly when the server keeps connections and the request asks for it. *)
Theorem http_answers fnmatch callback srv (req : HttpRequest) slt rc req' rsp s s1 :
  st_open s ->
  getMatchedServlet fnmatch (q_path req) (m_dispatch srv) = Some slt ->
  servlet_handle callback slt req
    (rsp_setHeader s_Server (m_name srv) (new_HttpResponse (q_version req) (q_close req || negb (m_isKeepAlive srv)))) s
    = (Ret (rc, req', rsp), s1) ->
  st_open s1 -> q_close req' = q_close req -> p_close rsp = q_close req || negb (m_isKeepAlive srv) ->
  Z.of_nat (length (HttpResponse_dump rsp)) < 2 ^ 31 ->
  exists s', handle_one fnmatch callback srv req s = (Ret (negb (p_close rsp)), s') /\
    st_sent s' = st_sent s1 ++ HttpResponse_dump rsp /\ st_pending s' = st_pending s1 /\ st_open s'.
Proof.
  intros Ho Hm Hh Ho1 Hreq Hrsp Hl. unfold handle_one, dispatch_handle. rewrite Hm.
  assert (Hd : ('(_, req, rsp) ← servlet_handle callback slt req
      (rsp_setHeader s_Server (m_name srv) (new_HttpResponse (q_version req) (q_close req || negb (m_isKeepAlive srv))));
      mret (0, req, rsp)) s = (Ret (0, req', rsp), s1)) by (by mstep Hh).
  mstep Hd. unfold sendResponse. destruct (writeFixSize_ok (HttpResponse_dump rsp) s1 Ho1 Hl) as (s2 & Hw & ?).
  mstep Hw. exists s2. rewrite Hreq, Hrsp. split; [|done]. msimpl. do 2 f_equal.
  by destruct (m_isKeepAlive srv), (q_close req).
Qed.
End ServerProperties.

(** ** Witnesses

    A machine that waits for the whole header, and numbers in decimal. *)
Fixpoint word (l : list Z) : list Z * list Z :=
  match l with [] => ([], []) | c :: l => if c =? 32 then ([], l) else let '(a, b) := word l in (c :: a, b) end.
Definition text_events (start : list Z) (hs : MapType) : list Event :=
  let '(m, rest) := word start in
  let '(path, version) := word rest in
  let len l := Z.of_nat (length l) in
  [RequestMethod start (len m); RequestPath rest (len path); HttpVersion version (len version)] ++
  map (fun e => HttpField e.1 (len e.1) e.2 (len e.2)) hs.
#[local] Instance Text_machine : Machine bool := {|
  http_parser_init := false;
  http_parser_execute := fun p data =>
    match read_message data with
    | Some (start, hs, body) => Ret (text_events start hs, (length data - length body)%nat, true)
    | None => Ret ([], 0%nat, p)
    end;
  http_parser_finish := fun p => Z.b2z p;
  http_parser_has_error := fun _ => false
|}.
Lemma word_length l : (length (word l).1 <= length l)%nat.
Proof.
  induction l as [|c l IH]; cbn; [done|]. destruct (c =? 32); cbn; [lia|]. destruct (word l) as [a b]. cbn in *. lia.
Qed.
Lemma text_events_ok start hs : Forall event_ok (text_events start hs).
Proof.
  unfold text_events. pose proof (word_length start) as H1. destruct (word start) as [m rest].
  pose proof (word_length rest) as H2. destruct (word rest) as [path version]. cbn in *.
  assert (Hl : forall a b : list Z, (length b <= length a)%nat -> at_ok a (Z.of_nat (length b))) by (intros; left; lia).
  repeat (apply list.Forall_cons; split; [cbn; auto|]).
  induction hs as [|h hs IH]; [apply list.Forall_nil_2|apply list.Forall_cons]. split; [cbn; auto|exact IH].
Qed.
#[local] Instance Text_spec : MachineSpec bool.
Proof.
  refine {| machine_ok := fun _ => True |}; [done|]. intros p data _ _ _. cbn.
  destruct (read_message data) as [[[? ?] ?]|].
  - eexists _, _, _. split_and!; [done|lia|apply text_events_ok|done].
  - exists [], 0%nat, p. split_and!; [done|lia|apply list.Forall_nil_2|done].
Defined.
Definition cast_decimal (l : list Z) : option Z :=
  if forallb (fun c => (48 <=? c) && (c <? 58)) l && (undigits 10 l <? 2 ^ 64) && (0 <=? undigits 10 l) then Some (undigits 10 l) else None.
Lemma cast_range l v : cast_decimal l = Some v -> 0 <= v < 2 ^ 64.
Proof.
  unfold cast_decimal. destruct (_ && _) eqn:E; [|done]. intros [= <-].
  apply andb_true_iff in E as [[_ A]%andb_true_iff B]. lia.
Qed.
#[local] Existing Instance zero_heap.
Definition peer (input : list Z) : Socket Wire := mkSocket 5 true (mkWire input [] 9).
Lemma browser_open input : st_open (peer input).
Proof. reflexivity. Qed.
Definition no_callback (cb : nat) (req : HttpRequest) (rsp : HttpResponse) :
  M (Socket Wire) (Z * HttpRequest * HttpResponse) := mret (0, req, rsp).
Definition exact (g s : list Z) : bool := bool_decide (g = s).
Definition request_text (body : list Z) : list Z :=
  bytes "POST /a HTTP/1.1" ++ CRLF ++ bytes "content-length: 2" ++ CRLF ++ CRLF ++ body.

Lemma servlet_dispatch_witness :
  let s := addGlobServlet_cb (bytes "/b") 2 (addServlet_cb (bytes "/a") 1 new_ServletDispatch) in
  NoDup (map fst (m_globs (addGlobServlet_cb (bytes "/b") 3 s))) /\
  getMatchedServlet exact (bytes "/b") s = Some (FunctionServlet 2) /\
  getMatchedServlet exact (bytes "/c") s = m_default s.
Proof.
  intros s. assert (Hn : NoDup (map fst (m_globs s))) by (apply (bool_decide_unpack _); by vm_compute).
  destruct (servlet_dispatch exact (bytes "/b") (Some (FunctionServlet 3)) s Hn)
    as (H1 & _ & _ & _ & _ & _ & _ & Hpath).
  split; [exact H1|]. split.
  - destruct (Hpath (bytes "/b")) as (_ & H & _).
    apply (H [] (bytes "/b") (Some (FunctionServlet 2)) []); [by vm_compute..|by apply list.Forall_nil].
  - destruct (Hpath (bytes "/c")) as (_ & _ & H). apply H; [by vm_compute|].
    apply list.Forall_cons. split; [by vm_compute|by apply list.Forall_nil].
Defined.

Lemma recvRequest_total_witness :
  exists o s, recvRequest cast_decimal 4096 1000 200 (peer (request_text [1])) = (o, s) /\ o = Ret None.
Proof.
  destruct (recvRequest_total cast_decimal 4096 1000 200 (peer (request_text [1])) ltac:(lia)
    cast_range ltac:(lia) (browser_open _)) as (o & s & Hr & _);
    [apply bytes_checked; by vm_compute|by vm_compute|apply Nat.ltb_lt; by vm_compute|].
  exists o, s. split; [exact Hr|].
  assert (E : fst (recvRequest cast_decimal 4096 1000 200 (peer (request_text [1]))) = Ret None) by (by vm_compute).
  by rewrite Hr in E.
Defined.

(** One byte too many was read with the header of a request of two bytes. *)
Definition two_bytes : HttpRequestParser bool :=
  mkParser true (setHeader s_Content_Length (bytes "2") (new_HttpRequest 0x11 true)) 0.
Lemma http_body_witness :
  (exists s, recv_body cast_decimal 1000 [1] two_bytes (peer [2; 3]) = (Ret (Some (setBody [1; 2] (m_data two_bytes))), s)) /\
  (exists s, recv_body cast_decimal 1000 [1; 2; 3] two_bytes (peer []) = (Ret None, s)).
Proof.
  split.
  - destruct (http_body cast_decimal 1000 [1] two_bytes (peer [2; 3]) (browser_open _)) as (s & Hr);
      [split; [by apply Z.leb_le; vm_compute|by apply Z.leb_le; vm_compute]|lia|by vm_compute|by vm_compute|].
    exists s. rewrite Hr. by vm_compute.
  - destruct (http_body cast_decimal 1000 [1; 2; 3] two_bytes (peer []) (browser_open _)) as (s & Hr);
      [split; [by apply Z.leb_le; vm_compute|by apply Z.leb_le; vm_compute]|lia|by vm_compute|by vm_compute|].
    exists s. rewrite Hr. by vm_compute.
Defined.

(** A server that closes after each answer, and a path that nobody serves: the
    client reads the 404 page. *)
Definition quiet : HttpServer := mkServer false (bytes "srv") new_ServletDispatch.
Lemma http_answers_witness :
  let rsp := not_found (match new_NotFoundServlet (bytes "cxk/1.1") with NotFoundServlet c => c | _ => [] end)
    (rsp_setHeader s_Server (bytes "srv") (new_HttpResponse 0x11 true)) in
  (exists s, handle_one exact no_callback quiet (m_data two_bytes) (peer []) = (Ret false, s) /\
     st_sent s = HttpResponse_dump rsp) /\
  st_sent (snd (handleClient exact no_callback cast_decimal 4096 1000 200 quiet (peer (request_text [1; 2]))))
    = HttpResponse_dump rsp.
Proof.
  intros rsp. split; [|by vm_compute].
  destruct (http_answers exact no_callback quiet (m_data two_bytes) (new_NotFoundServlet (bytes "cxk/1.1")) 0
    (m_data two_bytes) rsp (peer []) (peer []) (browser_open _)) as (s & Hr & Hs & _); try reflexivity.
  exists s. split; [exact Hr|exact Hs].
Defined.
