(* ===== verification/Address.v ===== *)
(** * Socket addresses (cxk/address.cpp, address.h)

    The [sockaddr] structures with their fields as the little-endian host loads
    them: ports and IPv4 addresses are in network order.  [getaddrinfo],
    [getifaddrs] and [inet_pton] are parameters. *)
From S2P Require Import Prelude Endian.

Definition AF_UNSPEC : Z := 0.
Definition AF_UNIX : Z := 1.
Definition AF_INET : Z := 2.
Definition AF_INET6 : Z := 10.

Record sockaddr_in := mkIn { sin_family : Z; sin_port : Z; s_addr : Z; sin_zero : list Z }.
Record sockaddr_in6 := mkIn6 {
  sin6_family : Z; sin6_port : Z; sin6_flowinfo : Z; s6_addr : list Z; sin6_scope_id : Z
}.
Record sockaddr_un := mkUn { sun_family : Z; sun_path : list Z; m_length : Z }.
Inductive Address : Type :=
| IPv4Address (a : sockaddr_in)
| IPv6Address (a : sockaddr_in6)
| UnixAddress (a : sockaddr_un)
| UnknownAddress (sa_family : Z) (sa_data : list Z).

(** ** The memory and the length of an address *)
Definition getAddr (a : Address) : list Z :=
  match a with
  | IPv4Address a => le_split 2 (sin_family a) ++ le_split 2 (sin_port a) ++ le_split 4 (s_addr a) ++ sin_zero a
  | IPv6Address a =>
      le_split 2 (sin6_family a) ++ le_split 2 (sin6_port a) ++ le_split 4 (sin6_flowinfo a) ++ s6_addr a ++
      le_split 4 (sin6_scope_id a)
  | UnixAddress a => le_split 2 (sun_family a) ++ sun_path a
  | UnknownAddress f d => le_split 2 f ++ d
  end.
Definition getAddrLen (a : Address) : Z :=
  match a with IPv4Address _ => 16 | IPv6Address _ => 28 | UnixAddress a => m_length a | UnknownAddress _ _ => 16 end.
Definition getFamily (a : Address) : Z :=
  match a with
  | IPv4Address a => sin_family a
  | IPv6Address a => sin6_family a
  | UnixAddress a => sun_family a
  | UnknownAddress f _ => f
  end.

(** [memcmp] reads [n] bytes of both: past the end of a structure is
    undefined. *)
Definition memcmp (a b : list Z) (n : nat) : outcome comparison :=
  if (length a <? n)%nat || (length b <? n)%nat then Crash else Ret (strcmp (take n a) (take n b)).
Definition addr_less (a rhs : Address) : outcome bool :=
  let minLen := Z.to_nat (Z.min (getAddrLen a) (getAddrLen rhs)) in
  r ← memcmp (getAddr a) (getAddr rhs) minLen;
  match r with
  | Lt => mret true
  | Gt => mret false
  | Eq => mret (getAddrLen a <? getAddrLen rhs)
  end.
Definition addr_equal (a rhs : Address) : outcome bool :=
  if getAddrLen a =? getAddrLen rhs then
    r ← memcmp (getAddr a) (getAddr rhs) (Z.to_nat (getAddrLen a)); mret (is_eq r)
  else mret false.
Definition addr_differs (a rhs : Address) : outcome bool := r ← addr_equal a rhs; mret (negb r).

(** ** Masks *)

(** [(1 << (sizeof(T) * 8 - bits)) - 1]: the shift and the subtraction are on
    [int]. *)
Definition createMask (w bits : Z) : outcome Z :=
  let sh := u64 (w - bits) in
  if 32 <=? sh then Crash else
  r ← chk_signed 32 (i32 (2 ^ sh) - 1);
  Ret (wrapu w r).
(** [for(; value; ++result) value &= value - 1] *)
Fixpoint CountBytes (fuel : nat) (value : Z) : Z :=
  match fuel with
  | O => 0
  | S fuel => if value =? 0 then 0 else 1 + CountBytes fuel (Z.land value (value - 1))
  end.

(** ** IPv4 *)
Definition set_s_addr v (a : sockaddr_in) := mkIn (sin_family a) (sin_port a) v (sin_zero a).
Definition zero8 : list Z := replicate 8 0.
(** The constructor from an address and a port leaves the address 0. *)
Definition new_IPv4Address (address port : Z) : sockaddr_in :=
  mkIn AF_INET (byteswapOnLittleEndian 2 port) 0 zero8.
Definition IPv4_Create (inet_pton : list Z -> option Z) (address : list Z) (port : Z) : option sockaddr_in :=
  match inet_pton address with
  | Some v => Some (mkIn AF_INET (byteswapOnLittleEndian 2 port) v zero8)
  | None => None
  end.
Definition ntohl (v : Z) : Z := byteswapOnLittleEndian 4 v.
Definition octet (addr k : Z) : Z := Z.land (Z.shiftr addr k) 0xFF.
Definition IPv4_insert (a : sockaddr_in) : list Z :=
  let addr := ntohl (s_addr a) in
  dec (octet addr 24) ++ [46] ++ dec (octet addr 16) ++ [46] ++ dec (octet addr 8) ++ [46] ++
  dec (octet addr 0) ++ [58] ++ dec (byteswapOnLittleEndian 2 (sin_port a)).
Definition IPv4_broadcastAddress (prefix_len : Z) (a : sockaddr_in) : outcome (option sockaddr_in) :=
  if 32 <? prefix_len then Ret None else
  m ← createMask 32 prefix_len;
  Ret (Some (set_s_addr (Z.lor (s_addr a) (byteswapOnLittleEndian 4 m)) a)).
Definition IPv4_netWorkAddress (prefix_len : Z) (a : sockaddr_in) : outcome (option sockaddr_in) :=
  if 32 <? prefix_len then Ret None else
  m ← createMask 32 prefix_len;
  Ret (Some (set_s_addr (Z.land (s_addr a) (byteswapOnLittleEndian 4 m)) a)).
Definition IPv4_subnetMask (prefix_len : Z) : outcome sockaddr_in :=
  m ← createMask 32 prefix_len;
  Ret (mkIn AF_INET 0 (u32 (Z.lnot (byteswapOnLittleEndian 4 m))) zero8).
Definition IPv4_getPort (a : sockaddr_in) : Z := byteswapOnLittleEndian 2 (sin_port a).
Definition IPv4_setPort (v : Z) (a : sockaddr_in) : sockaddr_in :=
  mkIn (sin_family a) (byteswapOnLittleEndian 2 v) (s_addr a) (sin_zero a).

(** ** IPv6 *)
Definition set_s6_addr v (a : sockaddr_in6) :=
  mkIn6 (sin6_family a) (sin6_port a) (sin6_flowinfo a) v (sin6_scope_id a).
Definition new_IPv6Address (address : list Z) (port : Z) : sockaddr_in6 :=
  mkIn6 AF_INET6 (byteswapOnLittleEndian 2 port) 0 (take 16 address) 0.
(** The eight groups, loaded as [uint16_t]. *)
Definition groups (a : list Z) : list Z := map (fun i => le_combine (take 2 (drop (2 * i) a))) (seq 0 8).
(** The printing loop, from group [i]; [prev] is the group before. *)
Fixpoint insert_loop (addr : list Z) (i : nat) (prev : Z) (used_zeros : bool) : list Z * bool :=
  match addr with
  | [] => ([], used_zeros)
  | g :: addr =>
      if (g =? 0) && negb used_zeros then insert_loop addr (S i) g used_zeros else
      let gap := negb (i =? 0)%nat && (prev =? 0) && negb used_zeros in
      let '(os, used) := insert_loop addr (S i) g (used_zeros || gap) in
      ((if gap then [58] else []) ++ (if (i =? 0)%nat then [] else [58]) ++
       hex (byteswapOnLittleEndian 2 g) ++ os, used)
  end.
Definition insert_groups (addr : list Z) : list Z :=
  let '(os, used_zeros) := insert_loop addr 0 0 false in
  os ++ (if negb used_zeros && (nth 7 addr 0 =? 0) then [58] else []).
Definition IPv6_insert (a : sockaddr_in6) : list Z :=
  [91] ++ insert_groups (groups (s6_addr a)) ++ [93; 58] ++ dec (byteswapOnLittleEndian 2 (sin6_port a)).
(** [s6_addr[i]] past 15 is undefined. *)
Definition update_byte (i : nat) (f : Z -> Z) (l : list Z) : outcome (list Z) :=
  match l !! i with Some b => Ret (<[i := f b]> l) | None => Crash end.
Definition IPv6_broadcastAddress (prefix_len : Z) (a : sockaddr_in6) : outcome sockaddr_in6 :=
  let i := Z.to_nat (prefix_len / 8) in
  m ← createMask 8 (prefix_len mod 8);
  l ← update_byte i (fun b => Z.lor b m) (s6_addr a);
  Ret (set_s6_addr (take (S i) l ++ replicate (16 - S i) 0xff) a).
Definition IPv6_netWorkAddress (prefix_len : Z) (a : sockaddr_in6) : outcome sockaddr_in6 :=
  m ← createMask 8 (prefix_len mod 8);
  l ← update_byte (Z.to_nat (prefix_len / 8)) (fun b => Z.land b m) (s6_addr a);
  Ret (set_s6_addr l a).
Definition IPv6_subnetMask (prefix_len : Z) : outcome sockaddr_in6 :=
  m ← createMask 8 (prefix_len mod 8);
  let i := Z.to_nat (prefix_len / 8) in
  l ← update_byte i (fun _ => u8 (Z.lnot m)) (replicate 16 0);
  Ret (mkIn6 AF_INET6 0 0 (replicate i 0xFF ++ drop i l) 0).
Definition IPv6_getPort (a : sockaddr_in6) : Z := byteswapOnLittleEndian 2 (sin6_port a).
Definition IPv6_setPort (v : Z) (a : sockaddr_in6) : sockaddr_in6 :=
  mkIn6 (sin6_family a) (byteswapOnLittleEndian 2 v) (sin6_flowinfo a) (s6_addr a) (sin6_scope_id a).

(** ** Unix *)
Definition path_offset : Z := 2.
Definition MAX_PATH_LEN : Z := 108 - 1.
Definition new_UnixAddress : sockaddr_un := mkUn AF_UNIX (replicate 108 0) (path_offset + MAX_PATH_LEN).
(** [memcpy(sun_path, path.c_str(), m_length)]: the path and its null. *)
Definition new_UnixAddress_path (path : list Z) : outcome sockaddr_un :=
  let len := Z.of_nat (length path) + 1 in
  let len := if match path with c :: _ => c =? 0 | [] => false end then len - 1 else len in
  if 108 <? len then Throw LogicError
  else Ret (mkUn AF_UNIX (patch 0 (take (Z.to_nat len) (path ++ [0])) (replicate 108 0)) (path_offset + len)).
Definition is_abstract (a : sockaddr_un) : bool := (path_offset <? m_length a) && (nth 0 (sun_path a) 0 =? 0).
Definition backslash_0 : list Z := [92; 48].
Definition getPath (a : sockaddr_un) : outcome (list Z) :=
  if is_abstract a then
    let n := m_length a - path_offset - 1 in
    if 107 <? n then Crash else Ret (backslash_0 ++ take (Z.to_nat n) (drop 1 (sun_path a)))
  else Ret (c_str (sun_path a)).
Definition Unix_insert : sockaddr_un -> outcome (list Z) := getPath.
Definition setAddrLen (v : Z) (a : sockaddr_un) : sockaddr_un := mkUn (sun_family a) (sun_path a) v.

(** ** Any address *)
Definition s_unknown : list Z := Eval cbv in bytes "[UnknownAddress]".
Definition insert (a : Address) : outcome (list Z) :=
  match a with
  | IPv4Address a => Ret (IPv4_insert a)
  | IPv6Address a => Ret (IPv6_insert a)
  | UnixAddress a => Unix_insert a
  | UnknownAddress _ _ => Ret s_unknown
  end.

(** A [sockaddr] as a call of the system returns it. *)
Inductive raw : Type := RawIn (a : sockaddr_in) | RawIn6 (a : sockaddr_in6) | RawOther (f : Z) (d : list Z).
Definition Address_Create (addr : option raw) : option Address :=
  match addr with
  | None => None
  | Some (RawIn a) => Some (IPv4Address a)
  | Some (RawIn6 a) => Some (IPv6Address a)
  | Some (RawOther f d) => Some (UnknownAddress f d)
  end.

Fixpoint memchr (c : Z) (l : list Z) : option nat :=
  match l with [] => None | x :: l => if x =? c then Some O else S <$> memchr c l end.
(** The host and the service of [Lookup]: [endipv6 + 2] and [service + 1] run
    up to the end of the host's C string. *)
Definition split_host (host : list Z) : list Z * option (list Z) :=
  let bracket :=
    if match host with c :: _ => c =? 91 | [] => false end then
      match memchr 93 (drop 1 host) with
      | Some k =>
          (take k (drop 1 host), if nth (k + 2) host 0 =? 58 then Some (drop (k + 3) host) else None)
      | None => ([], None)
      end
    else ([], None) in
  let '(node, service) := bracket in
  let '(node, service) :=
    match node with
    | [] =>
        match memchr 58 host with
        | Some k =>
            match memchr 58 (drop (S k) host) with
            | None => (take k host, Some (drop (S k) host))
            | Some _ => ([], Some (drop k host))
            end
        | None => ([], None)
        end
    | _ => (node, service)
    end in
  match node with [] => (host, service) | _ => (node, service) end.

Section Lookup.
Context (getaddrinfo : list Z -> option (list Z) -> Z -> Z -> Z -> option (list raw)).
Definition Lookup (host : list Z) (family type protocol : Z) : option (list Address) :=
  let '(node, service) := split_host host in
  match getaddrinfo (c_str node) (c_str <$> service) family type protocol with
  | None => None
  | Some results =>
      match omap (fun r => Address_Create (Some r)) results with [] => None | l => Some l end
  end.
Definition LookupAny (host : list Z) (family type protocol : Z) : option Address :=
  match Lookup host family type protocol with Some l => l !! 0%nat | None => None end.
Definition is_ip (a : Address) : bool := match a with IPv4Address _ | IPv6Address _ => true | _ => false end.
Definition LookupAnyIpAddr (host : list Z) (family type protocol : Z) : option Address :=
  match Lookup host family type protocol with Some l => List.find is_ip l | None => None end.
End Lookup.

(** ** The order of addresses *)
Definition addr_wf (a : Address) : Prop :=
  Z.of_nat (length (getAddr a)) >= getAddrLen a /\ 0 <= getAddrLen a.
(** The bytes that count. *)
Definition addr_bytes (a : Address) : list Z := take (Z.to_nat (getAddrLen a)) (getAddr a).

Lemma strcmp_take a b :
  strcmp a b = match strcmp (take (length b) a) (take (length a) b) with
               | Eq => (length a ?= length b)%nat | c => c end.
Proof.
  revert b. induction a as [|x a IH]; intros [|y b]; cbn [strcmp take length]; try done.
  destruct (x ?= y); [|done..]. apply IH.
Qed.
Lemma length_addr_bytes a : addr_wf a -> length (addr_bytes a) = Z.to_nat (getAddrLen a).
Proof. intros [H H0]. unfold addr_bytes. rewrite length_take. lia. Qed.
Lemma memcmp_run a b : addr_wf a -> addr_wf b ->
  memcmp (getAddr a) (getAddr b) (Z.to_nat (Z.min (getAddrLen a) (getAddrLen b)))
  = Ret (strcmp (take (length (addr_bytes b)) (addr_bytes a)) (take (length (addr_bytes a)) (addr_bytes b))).
Proof.
  intros Ha Hb. rewrite !length_addr_bytes by done. destruct Ha as [Ha Ha0], Hb as [Hb Hb0]. unfold memcmp, addr_bytes.
  rewrite (proj2 (Nat.ltb_ge _ _)), (proj2 (Nat.ltb_ge _ _)) by lia. cbn [orb].
  rewrite !take_take. do 3 f_equal; lia.
Qed.
Lemma addr_less_run a b : addr_wf a -> addr_wf b ->
  addr_less a b = Ret (match strcmp (addr_bytes a) (addr_bytes b) with Lt => true | _ => false end).
Proof.
  intros Ha Hb. unfold addr_less. rewrite memcmp_run by done. cbn [mbind outcome_bind].
  rewrite (strcmp_take (addr_bytes a)). destruct (strcmp (take _ _) _); try done.
  rewrite !length_addr_bytes by done. destruct Ha, Hb. cbn [mret outcome_ret]. f_equal.
  destruct (Nat.compare_spec (Z.to_nat (getAddrLen a)) (Z.to_nat (getAddrLen b))); zcase; lia || done.
Qed.
Lemma addr_equal_run a b : addr_wf a -> addr_wf b ->
  addr_equal a b = Ret (bool_decide (addr_bytes a = addr_bytes b)).
Proof.
  intros Ha Hb. unfold addr_equal. destruct (Z.eqb_spec (getAddrLen a) (getAddrLen b)) as [E|E].
  - pose proof (memcmp_run a b Ha Hb) as H. rewrite <- E, Z.min_id in H. rewrite H. cbn [mbind outcome_bind].
    rewrite !length_addr_bytes, E by done. rewrite <- E at 2. rewrite <- !length_addr_bytes by done.
    rewrite !take_ge by (rewrite ?length_addr_bytes, ?E; done || lia). cbn [mret outcome_ret]. f_equal.
    case_bool_decide as Hd.
    + rewrite Hd. by rewrite strcmp_refl.
    + destruct (strcmp (addr_bytes a) (addr_bytes b)) eqn:Es; [apply strcmp_eq in Es; congruence|done..].
  - cbn [mret outcome_ret]. f_equal. symmetry. apply bool_decide_eq_false_2. intros Hd.
    apply (f_equal length) in Hd. rewrite !length_addr_bytes in Hd by done. destruct Ha, Hb. lia.
Qed.

(** ** Byte swaps and bits *)
Lemma split_op (op : Z -> Z -> Z) (f : bool -> bool -> bool) n x y :
  (forall a b k, 0 <= k -> Z.testbit (op a b) k = f (Z.testbit a k) (Z.testbit b k)) -> f false false = false ->
  le_split n (op x y) = zip_with op (le_split n x) (le_split n y).
Proof.
  intros Hop Hff. revert x y. induction n as [|n IH]; intros x y; [done|]. cbn [le_split zip_with].
  f_equal.
  - change 256 with (2 ^ 8). rewrite <- !Z.land_ones by lia. apply Z.bits_inj'. intros k Hk.
    rewrite Hop, !Z.land_spec, Hop by done. by destruct (Z.testbit (Z.ones 8) k); rewrite ?andb_true_r, ?andb_false_r.
  - rewrite <- IH. f_equal. change 256 with (2 ^ 8). rewrite <- !Z.shiftr_div_pow2 by lia.
    apply Z.bits_inj'. intros k Hk. rewrite Hop, !Z.shiftr_spec, Hop by lia. done.
Qed.
Lemma zip_rev {A B C} (f : A -> B -> C) l k : length l = length k ->
  zip_with f (rev l) (rev k) = rev (zip_with f l k).
Proof.
  revert k. induction l as [|x l IH]; intros [|y k]; cbn; try done. intros [= H].
  rewrite zip_with_app by (by rewrite !length_rev). by rewrite IH.
Qed.
Lemma swap_op (op : Z -> Z -> Z) (f : bool -> bool -> bool) n x y :
  (forall a b k, 0 <= k -> Z.testbit (op a b) k = f (Z.testbit a k) (Z.testbit b k)) -> f false false = false ->
  byteswap n (op x y) = op (byteswap n x) (byteswap n y).
Proof.
  intros Hop Hff. assert (Hsame : forall u v, 0 <= u < 2 ^ (8 * Z.of_nat n) -> 0 <= v < 2 ^ (8 * Z.of_nat n) ->
    le_split n u = le_split n v -> u = v).
  { intros u v Hu Hv E. apply (f_equal le_combine) in E. rewrite !le_combine_split, !wrapu_id in E by done. done. }
  assert (Hr : 0 <= op (byteswap n x) (byteswap n y) < 2 ^ (8 * Z.of_nat n)).
  { pose proof (byteswap_range n x) as Hx. pose proof (byteswap_range n y) as Hy.
    rewrite <- (wrapu_id _ _ Hx), <- (wrapu_id _ _ Hy). unfold wrapu.
    rewrite <- !Z.land_ones by lia.
    assert (E : op (Z.land (byteswap n x) (Z.ones (8 * Z.of_nat n))) (Z.land (byteswap n y) (Z.ones (8 * Z.of_nat n)))
      = Z.land (op (byteswap n x) (byteswap n y)) (Z.ones (8 * Z.of_nat n))).
    { apply Z.bits_inj'. intros k Hk. rewrite Hop, !Z.land_spec, Hop by done.
      by destruct (Z.testbit (Z.ones _) k); rewrite ?andb_true_r, ?andb_false_r. }
    rewrite E, Z.land_ones by lia. apply Z.mod_pos_bound. lia. }
  apply Hsame; [apply byteswap_range|done|].
  rewrite le_split_byteswap, !(split_op op f) by done. rewrite !le_split_byteswap.
  by rewrite zip_rev by (by rewrite !length_le_split).
Qed.
Lemma swap_lor n x y : byteswap n (Z.lor x y) = Z.lor (byteswap n x) (byteswap n y).
Proof. apply (swap_op Z.lor orb); [|done]. intros. by rewrite Z.lor_spec. Qed.
Lemma swap_land n x y : byteswap n (Z.land x y) = Z.land (byteswap n x) (byteswap n y).
Proof. apply (swap_op Z.land andb); [|done]. intros. by rewrite Z.land_spec. Qed.

(** ** IPv4 *)
Definition mask_check (p : Z) : bool :=
  (p <? 2) ||
  match createMask 32 p, IPv4_subnetMask p with
  | Ret m, Ret s => (m =? Z.ones (32 - p)) && (ntohl (s_addr s) =? 2 ^ 32 - 2 ^ (32 - p))
  | _, _ => false
  end.
Lemma mask_run p : 2 <= p <= 32 ->
  createMask 32 p = Ret (Z.ones (32 - p)) /\
  exists s, IPv4_subnetMask p = Ret s /\ ntohl (s_addr s) = 2 ^ 32 - 2 ^ (32 - p).
Proof.
  intros Hp. pose proof (forallb_range 33 mask_check p ltac:(by vm_compute) ltac:(lia)) as H.
  unfold mask_check in H. rewrite (proj2 (Z.ltb_ge _ _)) in H by lia. cbn [orb] in H.
  destruct (createMask 32 p) as [m| | |] eqn:Em; try done. destruct (IPv4_subnetMask p) as [s| | |]; try done.
  apply andb_true_iff in H as [E1%Z.eqb_eq E2%Z.eqb_eq]. subst m. split; [done|]. by exists s.
Qed.
Lemma lor_ones a k : 0 <= k -> Z.lor a (Z.ones k) = a / 2 ^ k * 2 ^ k + (2 ^ k - 1).
Proof.
  intros Hk. replace (a / 2 ^ k * 2 ^ k + (2 ^ k - 1)) with (Z.lor (Z.shiftl (Z.shiftr a k) k) (Z.ones k)).
  - apply Z.bits_inj'. intros n Hn. rewrite !Z.lor_spec. destruct (decide (n < k)).
    + rewrite Z.ones_spec_low by lia. by rewrite !orb_true_r.
    + rewrite Z.shiftl_spec, Z.shiftr_spec by lia. do 2 f_equal. lia.
  - rewrite Z.shiftr_div_pow2, Z.shiftl_mul_pow2 by done. rewrite <- Z.lxor_lor, <- Z.add_nocarry_lxor.
    + rewrite Z.ones_equiv. lia.
    + rewrite Z.land_ones by done. apply Z.mod_mul. lia.
    + rewrite Z.land_ones by done. apply Z.mod_mul. lia.
Qed.
Lemma ntohl_swap v : 0 <= v < 2 ^ 32 -> ntohl (byteswapOnLittleEndian 4 v) = v.
Proof.
  intros Hv. unfold ntohl, byteswapOnLittleEndian. rewrite byteswap_involutive. apply wrapu_id. exact Hv.
Qed.

(** on prefixes from 2 to 32, read in host order, [broadcastAddress] keeps
    the prefix of the address and sets the bits after it, [subnetMask] has the
    bits of the prefix, and [netWorkAddress] keeps the bits after the prefix and
    clears the prefix, the opposite of its name. A longer prefix gives null from
    the first two, and the prefixes 0 and 1 shift or subtract out of [int]. *)
Theorem ipv4_masks p (a : sockaddr_in) :
  0 <= p < 2 ^ 32 ->
  (2 <= p <= 32 -> exists b n m,
     IPv4_broadcastAddress p a = Ret (Some b) /\
     ntohl (s_addr b) = ntohl (s_addr a) / 2 ^ (32 - p) * 2 ^ (32 - p) + (2 ^ (32 - p) - 1) /\
     IPv4_netWorkAddress p a = Ret (Some n) /\ ntohl (s_addr n) = ntohl (s_addr a) mod 2 ^ (32 - p) /\
     sin_port b = sin_port a /\ sin_port n = sin_port a /\
     IPv4_subnetMask p = Ret m /\ ntohl (s_addr m) = 2 ^ 32 - 2 ^ (32 - p)) /\
  (32 < p -> IPv4_broadcastAddress p a = Ret None /\ IPv4_netWorkAddress p a = Ret None) /\
  (p < 2 -> IPv4_broadcastAddress p a = Crash /\ IPv4_netWorkAddress p a = Crash /\ IPv4_subnetMask p = Crash).
Proof.
  intros Hp. unfold IPv4_broadcastAddress, IPv4_netWorkAddress. split_and!.
  - intros H. destruct (mask_run p H) as (Em & s & Es & Hs). rewrite Em. zcase.
    do 3 eexists. split_and!; [reflexivity| |reflexivity| |done|done|exact Es|exact Hs]; cbn [s_addr set_s_addr];
      unfold ntohl, byteswapOnLittleEndian; rewrite ?swap_lor, ?swap_land;
      fold (byteswapOnLittleEndian 4 (byteswap 4 (Z.ones (32 - p))));
      fold (byteswapOnLittleEndian 4 (Z.ones (32 - p))); fold (ntohl (byteswapOnLittleEndian 4 (Z.ones (32 - p))));
      (rewrite ntohl_swap; [|rewrite Z.ones_equiv; pose proof (Z.pow_pos_nonneg 2 (32 - p));
                             pose proof (Z.pow_le_mono_r 2 (32 - p) 32); lia]).
    + apply lor_ones. lia.
    + apply Z.land_ones. lia.
  - intros H. by rewrite (proj2 (Z.ltb_lt _ _)) by done.
  - intros H. assert (Hp' : p = 0 \/ p = 1) by lia. destruct Hp' as [-> | ->]; by vm_compute.
Qed.

(** [operator<] and [operator==] compare the bytes of the structures: on
    well-formed addresses they are defined, [<] is a strict total order, and two
    addresses of which neither is less are equal. *)
Theorem address_order a b c :
  addr_wf a -> addr_wf b -> addr_wf c ->
  addr_less a a = Ret false /\
  (addr_less a b = Ret true -> addr_less b c = Ret true -> addr_less a c = Ret true) /\
  (addr_less a b = Ret true -> addr_less b a = Ret false) /\
  (addr_equal a b = Ret true <-> addr_less a b = Ret false /\ addr_less b a = Ret false) /\
  (addr_equal a b = Ret true <-> addr_bytes a = addr_bytes b) /\
  addr_differs a b = Ret (bool_decide (addr_bytes a <> addr_bytes b)).
Proof.
  intros Ha Hb Hc. unfold addr_differs. rewrite !addr_less_run, !addr_equal_run by done.
  rewrite (strcmp_antisym (addr_bytes a) (addr_bytes b)), strcmp_refl.
  pose proof (strcmp_trans (addr_bytes a) (addr_bytes b) (addr_bytes c)) as Ht.
  pose proof (strcmp_eq (addr_bytes a) (addr_bytes b)) as He.
  assert (Hlt : forall o, Ret (match o with Lt => true | _ => false end) = Ret true -> o = Lt) by (by intros []).
  assert (Hiff : Ret (bool_decide (addr_bytes a = addr_bytes b)) = Ret true <-> addr_bytes a = addr_bytes b).
  { split; [intros [= E]; by apply bool_decide_eq_true in E|intros E; by rewrite bool_decide_true]. }
  split_and!; [done| | | |done|].
  - intros E1 E2. by rewrite Ht by auto.
  - by destruct (strcmp (addr_bytes a) (addr_bytes b)).
  - rewrite Hiff, <- He. clear.
    destruct (strcmp (addr_bytes a) (addr_bytes b)); cbn [CompOpp]; split; try done; by intros [? ?].
  - cbn [mbind outcome_bind mret outcome_ret]. by rewrite bool_decide_not.
Qed.

(** ** IPv6 text

    A reader of the eight groups: one run of zeros may be left out. *)
Fixpoint split_colon (l : list Z) : list (list Z) :=
  match l with
  | [] => [[]]
  | c :: l =>
      if c =? 58 then [] :: split_colon l
      else match split_colon l with t :: ts => (c :: t) :: ts | [] => [[c]] end
  end.
Definition is_hex (c : Z) : bool := ((48 <=? c) && (c <? 58)) || ((97 <=? c) && (c <? 103)).
Definition read_group (t : list Z) : option Z :=
  match t with [] => None | _ => if forallb is_hex t && (undigits 16 t <? 65536) then Some (undigits 16 t) else None end.
Definition fill (a b : list Z) : option (list Z) :=
  if (length a + length b <? 8)%nat then Some (a ++ replicate (8 - length a - length b) 0 ++ b) else None.
Fixpoint span_groups (ts : list (list Z)) : list (list Z) * list (list Z) :=
  match ts with
  | [] => ([], [])
  | [] :: _ => ([], ts)
  | t :: ts => let '(a, b) := span_groups ts in (t :: a, b)
  end.
Definition read_v6 (text : list Z) : option (list Z) :=
  let '(a, rest) :=
    match split_colon text with
    | [] :: [] :: ts => ([], [] :: ts)
    | ts => span_groups ts
    end in
  a ← mapM read_group a;
  match rest with
  | [] => if (length a =? 8)%nat then Some a else None
  | _ :: [] => None
  | _ :: [[]] => fill a []
  | _ :: b => b ← mapM read_group b; fill a b
  end.

Definition colon_free (t : list Z) : Prop := Forall (fun c => c <> 58) t.
Definition group_text (g : Z) : list Z := hex (byteswapOnLittleEndian 2 g).
Definition joined (ts : list (list Z)) : list Z := concat (map (fun t => 58 :: t) ts).

Lemma split_colon_app t l : colon_free t -> split_colon (t ++ 58 :: l) = t :: split_colon l.
Proof.
  induction t as [|c t IH]; intros Ht; [done|]. apply list.Forall_cons in Ht as [Hc Ht]. cbn [app split_colon].
  by rewrite (proj2 (Z.eqb_neq c 58) Hc), IH.
Qed.
Lemma split_colon_free t : colon_free t -> split_colon t = [t].
Proof.
  induction t as [|c t IH]; intros Ht; [done|]. apply list.Forall_cons in Ht as [Hc Ht]. cbn [split_colon].
  by rewrite (proj2 (Z.eqb_neq c 58) Hc), IH.
Qed.
Lemma split_joined t ts : Forall colon_free (t :: ts) -> split_colon (t ++ joined ts) = t :: ts.
Proof.
  revert t. induction ts as [|u ts IH]; intros t Hf; apply list.Forall_cons in Hf as [Ht Hf].
  - unfold joined. cbn. rewrite app_nil_r. by apply split_colon_free.
  - unfold joined in *. cbn [map concat app]. rewrite split_colon_app by done. f_equal. by apply IH.
Qed.

Lemma hex_chars n : 0 <= n -> Forall (fun c => is_hex c = true) (hex n) /\ undigits 16 (hex n) = n /\ hex n <> [].
Proof.
  intros Hn. destruct (digits_spec 16 n ltac:(lia) Hn) as (Hd & ?). split; [|done].
  eapply list.Forall_impl; [exact Hd|]. intros c (d & Hd' & ->). unfold is_hex, digit_char.
  apply orb_true_iff. rewrite !andb_true_iff, !Z.leb_le, !Z.ltb_lt. destruct (Z.ltb_spec d 10); lia.
Qed.
Lemma group_text_ok g :
  colon_free (group_text g) /\ group_text g <> [] /\
  read_group (group_text g) = Some (byteswapOnLittleEndian 2 g).
Proof.
  pose proof (byteswap_range 2 g) as Hr. change (2 ^ (8 * Z.of_nat 2)) with 65536 in Hr.
  destruct (hex_chars (byteswapOnLittleEndian 2 g)) as (Hc & Hu & Hne); [apply Hr|].
  unfold group_text in *. split_and!; [|done|].
  - eapply list.Forall_impl; [exact Hc|]. intros c Hx ->. by vm_compute in Hx.
  - unfold read_group. destruct (hex _) as [|c t] eqn:E; [done|]. rewrite <- E in *.
    rewrite Hu. unfold byteswapOnLittleEndian in *. rewrite (proj2 (Z.ltb_lt _ _)), andb_true_r by apply Hr.
    rewrite (proj2 (forallb_forall _ _)); [done|]. intros x Hx. rewrite list.Forall_forall in Hc.
    apply Hc. by apply list_elem_of_In.
Qed.

(** ** The printed groups *)
Definition texts (l : list Z) : list (list Z) := map group_text l.
(** The groups from number [i] on, with a colon before each but the first. *)
Definition printed (i : nat) (l : list Z) : list Z :=
  match l with [] => [] | g :: l => (if (i =? 0)%nat then [] else [58]) ++ group_text g ++ joined (texts l) end.

Lemma printed_joined i l : (0 < i)%nat -> printed i l = joined (texts l).
Proof. destruct l as [|g l]; [done|]. cbn [printed]. intros Hi. by rewrite (proj2 (Nat.eqb_neq i 0)) by lia. Qed.
Lemma loop_used addr i prev : (0 < i)%nat -> insert_loop addr i prev true = (joined (texts addr), true).
Proof.
  revert i prev. induction addr as [|g addr IH]; intros i prev Hi; [done|]. cbn [insert_loop orb].
  rewrite !andb_false_r, (proj2 (Nat.eqb_neq i 0)), IH by lia. done.
Qed.
Lemma loop_zeros k rest i prev :
  insert_loop (replicate k 0 ++ rest) i prev false
  = insert_loop rest (i + k) (if (k =? 0)%nat then prev else 0) false.
Proof.
  revert i prev. induction k as [|k IH]; intros i prev; [by rewrite Nat.add_0_r|].
  cbn [replicate app insert_loop Z.eqb negb andb]. rewrite IH. rewrite Nat.add_succ_r. by destruct k.
Qed.
Lemma loop_nonzero l rest i prev : Forall (fun g => g <> 0) l -> (0 < i)%nat -> prev <> 0 ->
  exists prev', prev' <> 0 /\
    insert_loop (l ++ rest) i prev false =
    let '(os, u) := insert_loop rest (i + length l) prev' false in (joined (texts l) ++ os, u).
Proof.
  revert i prev. induction l as [|g l IH]; intros i prev Hl Hi Hp.
  - exists prev. split; [done|]. cbn. rewrite Nat.add_0_r. by destruct (insert_loop rest i prev false).
  - apply list.Forall_cons in Hl as [Hg Hl]. destruct (IH (S i) g Hl ltac:(lia) Hg) as (prev' & Hp' & E).
    exists prev'. split; [done|]. cbn [app insert_loop length].
    rewrite (proj2 (Z.eqb_neq g 0) Hg), (proj2 (Z.eqb_neq prev 0) Hp), (proj2 (Nat.eqb_neq i 0)) by lia.
    cbn [andb negb orb]. rewrite E. rewrite <- Nat.add_succ_comm.
    destruct (insert_loop rest (S i + length l) prev' false). unfold texts, joined, group_text. cbn [map concat].
    by rewrite <- !app_assoc.
Qed.
Lemma loop_prefix l rest : Forall (fun g => g <> 0) l ->
  exists prev, (l = [] \/ prev <> 0) /\
    insert_loop (l ++ rest) 0 0 false =
    let '(os, u) := insert_loop rest (length l) prev false in (printed 0 l ++ os, u).
Proof.
  destruct l as [|g l]; intros Hl.
  - exists 0. split; [by left|]. cbn. by destruct (insert_loop rest 0 0 false).
  - apply list.Forall_cons in Hl as [Hg Hl]. destruct (loop_nonzero l rest 1 g Hl ltac:(lia) Hg) as (prev & Hp & E).
    exists prev. split; [by right|]. cbn [app insert_loop length printed Nat.eqb].
    rewrite (proj2 (Z.eqb_neq g 0) Hg). cbn [andb negb orb]. rewrite E.
    change (S (length l)) with (1 + length l)%nat.
    destruct (insert_loop rest (1 + length l) prev false). unfold group_text. cbn [app]. by rewrite <- app_assoc.
Qed.

(** The first run of zeros. *)
Lemma first_zeros (l : list Z) : exists a k r, l = a ++ replicate k 0 ++ r /\ Forall (fun g => g <> 0) a /\
  (k = 0%nat -> r = []) /\ (forall x r', r = x :: r' -> x <> 0).
Proof.
  induction l as [|g l IH]; [by exists [], 0%nat, []|]. destruct IH as (a & k & r & E & Ha & Hk & Hr).
  destruct (decide (g = 0)) as [->|Hg].
  - destruct a as [|x a].
    + exists [], (S k), r. subst. by split_and!.
    + exists [], 1%nat, l. apply list.Forall_cons in Ha as [Hx Ha]. subst l. split_and!; try done. by intros ? ? [= <- _].
  - exists (g :: a), k, r. subst. split_and!; try done. by apply list.Forall_cons.
Qed.

Lemma insert_groups_cases a k r : length (a ++ replicate k 0 ++ r) = 8%nat -> Forall (fun g => g <> 0) a ->
  (k = 0%nat -> r = []) -> (forall x r', r = x :: r' -> x <> 0) ->
  insert_groups (a ++ replicate k 0 ++ r) = printed 0 a ++
    (if (k =? 0)%nat then [] else match r with [] => [58] | _ => 58 :: joined (texts r) end).
Proof.
  intros Hlen Ha Hk Hr. unfold insert_groups. destruct (loop_prefix a (replicate k 0 ++ r) Ha) as (prev & Hp & E).
  rewrite E, loop_zeros. destruct k as [|k]; cbn [Nat.eqb].
  - rewrite (Hk eq_refl) in *. cbn [insert_loop app replicate negb andb]. rewrite !app_nil_r in *.
    destruct (nth_in_or_default 7 a 0) as [Hin|Hd].
    + rewrite list.Forall_forall in Ha. apply list_elem_of_In, Ha, Z.eqb_neq in Hin. by rewrite Hin, app_nil_r.
    + exfalso. assert (Hin : In (nth 7 a 0) a) by (apply nth_In; lia). rewrite list.Forall_forall in Ha.
      by apply list_elem_of_In, Ha in Hin.
  - destruct r as [|x r].
    + cbn [insert_loop negb andb]. rewrite !app_nil_r in *.
      assert (E0 : nth 7 (a ++ replicate (S k) 0) 0 = 0).
      { rewrite length_app, length_replicate in Hlen. rewrite app_nth2 by lia. apply nth_lookup_Some, lookup_replicate_2. lia. }
      by rewrite E0.
    + pose proof (Hr x r eq_refl) as Hx. cbn [insert_loop]. rewrite (proj2 (Z.eqb_neq x 0) Hx).
      rewrite Nat.add_succ_r. cbn [andb negb orb Nat.eqb Z.eqb]. rewrite loop_used by lia. cbn [negb andb].
      rewrite app_nil_r. unfold texts, joined, group_text. cbn [map concat app]. done.
Qed.

Lemma texts_groups l : mapM read_group (texts l) = Some (map (byteswapOnLittleEndian 2) l).
Proof.
  induction l as [|g l IH]; [done|]. cbn [texts map mapM]. destruct (group_text_ok g) as (_ & _ & ->).
  cbn [mbind option_bind]. unfold texts in IH. by rewrite IH.
Qed.
Lemma texts_colon_free l : Forall colon_free (texts l).
Proof. unfold texts. apply list.Forall_fmap. apply list.Forall_true. intros g. apply group_text_ok. Qed.
Lemma span_texts l ts : span_groups (texts l ++ [] :: ts) = (texts l, [] :: ts) /\ span_groups (texts l) = (texts l, []).
Proof.
  induction l as [|g l IH]; [done|]. destruct IH as [E1 E2]. cbn [texts map app span_groups].
  destruct (group_text_ok g) as (_ & Hne & _). destruct (group_text g) as [|c t] eqn:E; [done|]. unfold texts in *.
  by rewrite E1, E2.
Qed.
Lemma joined_app a b : joined (a ++ b) = joined a ++ joined b.
Proof. unfold joined. by rewrite map_app, concat_app. Qed.
(** The tokens of a text that starts with the groups [l]. *)
Lemma split_printed l ts : Forall colon_free ts -> l <> [] ->
  split_colon (printed 0 l ++ joined ts) = texts l ++ ts.
Proof.
  intros Hts Hl. destruct l as [|g l]; [done|]. cbn [printed Nat.eqb app]. rewrite <- app_assoc, <- joined_app.
  rewrite split_joined; [done|]. apply list.Forall_cons. split; [apply group_text_ok|].
  apply list.Forall_app. split; [apply texts_colon_free|done].
Qed.

(** What the reader does with the tokens. *)
Lemma read_tokens text l ts :
  (l <> [] /\ split_colon text = texts l ++ [] :: ts) \/ (l = [] /\ split_colon text = [] :: [] :: ts) ->
  read_v6 text =
    match ts with
    | [] => None
    | [[]] => fill (map (byteswapOnLittleEndian 2) l) []
    | _ => b ← mapM read_group ts; fill (map (byteswapOnLittleEndian 2) l) b
    end.
Proof.
  intros H. unfold read_v6.
  assert (E : match split_colon text with [] :: [] :: ts => ([], [] :: ts) | ts => span_groups ts end = (texts l, [] :: ts)).
  { destruct H as [[Hl E] | [-> E]]; [|by rewrite E]. rewrite E. destruct l as [|g l]; [done|].
    destruct (span_texts (g :: l) ts) as [Es _]. cbn [texts map app] in *.
    destruct (group_text_ok g) as (_ & Hne & _). by destruct (group_text g). }
  rewrite E, texts_groups. cbn [mbind option_bind]. by destruct ts as [|[|c t] [|u ts]].
Qed.
Lemma fill_groups a k r : (length a + k + length r = 8)%nat -> (0 < k)%nat ->
  fill (map (byteswapOnLittleEndian 2) a) (map (byteswapOnLittleEndian 2) r)
  = Some (map (byteswapOnLittleEndian 2) (a ++ replicate k 0 ++ r)).
Proof.
  intros Hl Hk. unfold fill. rewrite !length_map. rewrite (proj2 (Nat.ltb_lt _ _)) by lia.
  replace (8 - length a - length r)%nat with k by lia. rewrite !map_app. do 3 f_equal.
  clear. induction k; [done|]. cbn [replicate map]. by rewrite <- IHk.
Qed.

Definition trailing_zeros (g : list Z) : Prop :=
  exists a k, g = a ++ replicate (S k) 0 /\ Forall (fun x => x <> 0) a.
Lemma zeros_unique a k r a' k' r' : a ++ replicate k 0 ++ r = a' ++ replicate k' 0 ++ r' :> list Z ->
  Forall (fun x => x <> 0) a -> Forall (fun x => x <> 0) a' -> (0 < k)%nat -> (0 < k')%nat ->
  (forall x t, r = x :: t -> x <> 0) -> (forall x t, r' = x :: t -> x <> 0) -> r = r'.
Proof.
  revert a'. induction a as [|x a IH]; intros [|x' a'] E Ha Ha' Hk Hk' Hr Hr'; cbn [app] in E.
  - clear Ha Ha' Hk Hk'. revert k' E. induction k as [|k IHk]; intros [|k'] E; cbn [replicate app] in E.
    + done.
    + by destruct (Hr 0 _ E).
    + by destruct (Hr' 0 _ (eq_sym E)).
    + injection E as E. by apply (IHk k').
  - destruct k; [lia|]. injection E as <- _. by apply list.Forall_cons in Ha' as [? _].
  - destruct k'; [lia|]. injection E as -> _. by apply list.Forall_cons in Ha as [? _].
  - injection E as -> E. apply list.Forall_cons in Ha as [_ Ha], Ha' as [_ Ha']. by apply (IH a').
Qed.

(** C37: the text of an IPv6 address, with its first run of zero groups left
    out, reads back as the eight groups of the address - except when that run
    reaches the end of the address ([::], or [1::]): the last colon is missing
    then, and the text is no address. *)
Theorem ipv6_text g :
  length g = 8%nat ->
  (trailing_zeros g -> read_v6 (insert_groups g) = None) /\
  (~ trailing_zeros g -> read_v6 (insert_groups g) = Some (map (byteswapOnLittleEndian 2) g)).
Proof.
  intros Hlen. destruct (first_zeros g) as (a & k & r & -> & Ha & Hk & Hr).
  rewrite insert_groups_cases by done. rewrite !length_app, length_replicate in Hlen.
  assert (Htr : trailing_zeros (a ++ replicate k 0 ++ r) <-> (0 < k)%nat /\ r = []).
  { split.
    - intros (a' & k' & E & Ha'). destruct k as [|k].
      + exfalso. rewrite (Hk eq_refl) in E. cbn in E. rewrite app_nil_r in E. subst a.
        apply list.Forall_app in Ha as [_ [? _]%list.Forall_cons]. done.
      + split; [lia|]. rewrite <- (app_nil_r (replicate (S k') 0)) in E.
        apply (zeros_unique a (S k) r a' (S k') []) in E; try done; lia.
    - intros [Hpos ->]. exists a, (k - 1)%nat. split; [|done]. rewrite app_nil_r. do 2 f_equal. lia. }
  rewrite Htr. destruct k as [|k]; cbn [Nat.eqb].
  - rewrite (Hk eq_refl) in *. cbn [replicate app length] in *. split; [lia|]. intros _. rewrite app_nil_r in *.
    assert (Hne : a <> []) by (by intros ->).
    assert (E : split_colon (printed 0 a) = texts a).
    { pose proof (split_printed a [] ltac:(by apply list.Forall_nil) Hne) as E. unfold joined in E. cbn in E.
      by rewrite !app_nil_r in E. }
    unfold read_v6. rewrite E. destruct (span_texts a []) as [_ Es].
    assert (E' : match texts a with [] :: [] :: ts => ([], [] :: ts) | ts => span_groups ts end = (texts a, [])).
    { destruct a as [|x a]; [done|]. cbn [texts map] in *. destruct (group_text_ok x) as (_ & Hx & _).
      by destruct (group_text x). }
    rewrite E', texts_groups. cbn [mbind option_bind]. rewrite length_map, app_nil_r.
    rewrite (proj2 (Nat.eqb_eq (length a) 8)); [done|lia].
  - assert (Htok : forall ts, Forall colon_free ts ->
      (a <> [] /\ split_colon (printed 0 a ++ joined ([] :: ts)) = texts a ++ [] :: ts) \/
      (a = [] /\ split_colon (printed 0 a ++ joined ([] :: ts)) = [] :: [] :: ts)).
    { intros ts Hts. destruct (decide (a = [])) as [->|Hne].
      - assert (E : split_colon ([] ++ joined ([] :: ts)) = [] :: [] :: ts).
        { apply split_joined. by repeat (apply list.Forall_cons; split; [by apply list.Forall_nil|]). }
        by right.
      - left. split; [done|]. apply split_printed; [|done]. apply list.Forall_cons. split; [by apply list.Forall_nil|done]. }
    destruct r as [|x r].
    + split; [intros _|intros H; exfalso; apply H; split; [lia|done]].
      change [58] with (joined [[]]). by rewrite (read_tokens _ a [] (Htok [] ltac:(by apply list.Forall_nil))).
    + split; [by intros [_ ?]|intros _].
      change (58 :: joined (texts (x :: r))) with (joined ([] :: texts (x :: r))).
      rewrite (read_tokens _ a _ (Htok (texts (x :: r)) (texts_colon_free _))).
      pose proof (texts_groups (x :: r)) as Et. cbn [texts map] in *.
      destruct (group_text_ok x) as (_ & Hx & _). destruct (group_text x) eqn:Ex; [done|]. rewrite Et.
      cbn [mbind option_bind]. cbn [length] in Hlen. apply (fill_groups a (S k) (x :: r)); cbn [length]; lia.
Qed.

(** ** Unix paths *)

(** A path without a null character comes back from the address it makes -
    but the empty one is taken for an abstract name; a path that does not fit in [sun_path] with its null is refused with
    [std::logic_error]; an abstract name comes back with its null written out. *)
Theorem unix_path path :
  Forall (fun c => c <> 0) path ->
  (Z.of_nat (length path) <= 107 -> exists u, new_UnixAddress_path path = Ret u /\
     getPath u = Ret (if decide (path = []) then backslash_0 else path)) /\
  (107 < Z.of_nat (length path) -> new_UnixAddress_path path = Throw LogicError) /\
  (Z.of_nat (length path) <= 107 -> exists u, new_UnixAddress_path (0 :: path) = Ret u /\
     getPath u = Ret (backslash_0 ++ path)).
Proof.
  intros Hp. unfold new_UnixAddress_path.
  assert (Ehead : match path with c :: _ => c =? 0 | [] => false end = false).
  { destruct path as [|c l]; [done|]. apply list.Forall_cons in Hp as [Hc _]. by apply Z.eqb_neq. }
  rewrite Ehead. split_and!.
  - intros Hl. destruct (Z.ltb_spec 108 (Z.of_nat (length path) + 1)); [lia|]. eexists. split; [reflexivity|].
    rewrite take_ge by (rewrite length_app; cbn [length]; lia). unfold getPath.
    assert (Es : patch 0 (path ++ [0]) (replicate 108 0) = path ++ 0 :: replicate (107 - length path) 0).
    { unfold patch. cbn [take app Nat.add]. rewrite <- app_assoc. rewrite drop_replicate, length_app. cbn [length].
      by replace (108 - (length path + 1))%nat with (107 - length path)%nat by lia. }
    destruct (is_abstract _) eqn:Ea.
    + destruct path as [|c l]; [by vm_compute|].
      exfalso. unfold is_abstract in Ea. cbn [sun_path m_length] in Ea. rewrite Es in Ea. apply list.Forall_cons in Hp as [Hc _]. apply andb_true_iff in Ea as [_ Ea]. by apply Z.eqb_eq in Ea.
    + destruct (decide (path = [])) as [->|_]; [by vm_compute in Ea|].
      cbn [sun_path]. rewrite Es. f_equal. generalize (replicate (107 - length path) 0). clear -Hp. intros t. induction path as [|c l IH]; [done|].
      apply list.Forall_cons in Hp as [Hc Hp]. cbn [app c_str]. rewrite (proj2 (Z.eqb_neq c 0) Hc).
      f_equal. by apply IH.
  - intros Hl. by destruct (Z.ltb_spec 108 (Z.of_nat (length path) + 1)); [|lia].
  - intros Hl. cbn [length Z.eqb]. destruct (Z.ltb_spec 108 (Z.of_nat (S (length path)) + 1 - 1)); [lia|].
    eexists. split; [reflexivity|]. unfold getPath.
    replace (Z.to_nat (Z.of_nat (S (length path)) + 1 - 1)) with (S (length path)) by lia.
    rewrite take_app_le by (cbn [length]; lia). rewrite take_ge by (cbn [length]; lia).
    assert (Es : patch 0 (0 :: path) (replicate 108 0) = 0 :: path ++ replicate (107 - length path) 0).
    { unfold patch. cbn [take app Nat.add]. rewrite drop_replicate. cbn [length].
      by replace (108 - S (length path))%nat with (107 - length path)%nat by lia. }
    rewrite Es. unfold is_abstract. cbn [sun_path m_length nth Z.eqb]. rewrite andb_true_r.
    destruct (Z.ltb_spec path_offset (path_offset + (Z.of_nat (S (length path)) + 1 - 1))); [|lia].
    destruct (Z.ltb_spec 107 (path_offset + (Z.of_nat (S (length path)) + 1 - 1) - path_offset - 1)); [lia|].
    f_equal. f_equal. cbn [drop].
    replace (Z.to_nat (path_offset + (Z.of_nat (S (length path)) + 1 - 1) - path_offset - 1)) with (length path) by lia.
    by rewrite drop_0, take_app_length.
Qed.

(** ** Witnesses *)
Definition host_a : sockaddr_in := mkIn AF_INET (byteswapOnLittleEndian 2 80) (ntohl 0xC0A80117) zero8.
Lemma ipv4_masks_witness : exists b n,
  IPv4_broadcastAddress 24 host_a = Ret (Some b) /\ IPv4_insert b = bytes "192.168.1.255:80" /\
  IPv4_netWorkAddress 24 host_a = Ret (Some n) /\ IPv4_insert n = bytes "0.0.0.23:80".
Proof.
  destruct (ipv4_masks 24 host_a ltac:(lia)) as (H & _ & _).
  destruct (H ltac:(lia)) as (b & n & m & Hb & _ & Hn & _). exists b, n.
  split_and!; [exact Hb| |exact Hn|].
  - assert (E : IPv4_broadcastAddress 24 host_a
      = Ret (Some (mkIn AF_INET (byteswapOnLittleEndian 2 80) (ntohl 0xC0A801FF) zero8))) by (by vm_compute).
    rewrite E in Hb. injection Hb as <-. by vm_compute.
  - assert (E : IPv4_netWorkAddress 24 host_a
      = Ret (Some (mkIn AF_INET (byteswapOnLittleEndian 2 80) (ntohl 23) zero8))) by (by vm_compute).
    rewrite E in Hn. injection Hn as <-. by vm_compute.
Defined.
Lemma address_order_witness :
  let a := IPv4Address host_a in let b := IPv4Address (IPv4_setPort 81 host_a) in
  addr_less a a = Ret false /\ addr_less b a = Ret false /\ addr_less a b = Ret true.
Proof.
  intros a b.
  destruct (address_order a b a ltac:(by vm_compute) ltac:(by vm_compute) ltac:(by vm_compute))
    as (H1 & _ & H2 & _).
  split; [exact H1|]. split; [apply H2|]; by vm_compute.
Defined.
(** 2001:db8::1:0:1, and 1:: *)
Lemma ipv6_text_witness :
  let g := map (byteswapOnLittleEndian 2) [0x2001; 0xdb8; 0; 0; 0; 1; 0; 1] in
  let h := map (byteswapOnLittleEndian 2) [1; 0; 0; 0; 0; 0; 0; 0] in
  insert_groups g = bytes "2001:db8::1:0:1" /\
  read_v6 (insert_groups g) = Some [0x2001; 0xdb8; 0; 0; 0; 1; 0; 1] /\
  insert_groups h = bytes "1:" /\ read_v6 (insert_groups h) = None.
Proof.
  intros g h. split; [by vm_compute|]. split; [|split; [by vm_compute|]].
  - destruct (ipv6_text g eq_refl) as [_ H]. rewrite H; [by vm_compute|].
    intros (a & k & E & _). apply (f_equal (fun l => hd 1 (rev l))) in E.
    by rewrite replicate_S_end, app_assoc, rev_app_distr in E.
  - destruct (ipv6_text h eq_refl) as [H _]. apply H. exists [256], 6%nat. split; [by vm_compute|].
    by apply list.Forall_cons.
Defined.
Lemma unix_path_witness :
  exists u v, new_UnixAddress_path (bytes "/tmp/x") = Ret u /\ getPath u = Ret (bytes "/tmp/x") /\
    new_UnixAddress_path (0 :: bytes "x") = Ret v /\ getPath v = Ret (bytes "\0x").
Proof.
  destruct (unix_path (bytes "/tmp/x")) as (H & _ & _); [by repeat constructor|].
  destruct (H ltac:(by vm_compute)) as (u & Hu & Hp).
  destruct (unix_path (bytes "x")) as (_ & _ & H'); [by repeat constructor|].
  destruct (H' ltac:(by vm_compute)) as (v & Hv & Hp').
  exists u, v. split_and!; [exact Hu|exact Hp|exact Hv|exact Hp'].
Defined.
