(* ===== verification/Ragel.v ===== *)
(** * State machines of the parsers

    The parsers of URIs, requests and responses (cxk/uri.rl.cpp,
    cxk/http/http11_parser.rl.cpp, cxk/http/httpclient_parser.rl.cpp) are goto
    programs of one shape: a label [st n] reads a byte and jumps, a label [tr n]
    runs actions on its way to a state.  Here are the shape, its execution, and
    two ways to reason about a program of several hundred states: a bisimulation
    with the partial derivatives of a regular expression, and the run over a
    text cut into segments. *)
From S2P Require Import Prelude.

(** ** Programs *)
Inductive dest : Type := st (n : Z) | tr (n : Z).

(** [St n cases other]: the byte is looked for in the intervals of [cases], in
    order; [Sw] is the same for a state that tests [_widec].  [Tr n acts m]:
    the actions, then [goto st m].  [st 0] is the error state. *)
Inductive item (A : Type) : Type :=
| St (n : Z) (cases : list (Z * Z * dest)) (other : dest)
| Sw (n : Z) (cases : list (Z * Z * dest)) (other : dest)
| Tr (n : Z) (acts : list A) (target : Z).
Arguments St {A}.
Arguments Sw {A}.
Arguments Tr {A}.

Record row : Type := mkRow { r_wide : bool; r_cases : list (Z * Z * dest); r_other : dest }.
Record table (A : Type) : Type := mkTable { t_rows : gmap Z row; t_trs : gmap Z (list A * Z) }.
Arguments mkTable {A}.
Arguments t_rows {A}.
Arguments t_trs {A}.

Definition add_item {A} (i : item A) (t : table A) : table A :=
  match i with
  | St n cs o => mkTable (<[n := mkRow false cs o]> (t_rows t)) (t_trs t)
  | Sw n cs o => mkTable (<[n := mkRow true cs o]> (t_rows t)) (t_trs t)
  | Tr n acts m => mkTable (t_rows t) (<[n := (acts, m)]> (t_trs t))
  end.
Definition table_of {A} (code : list (item A)) : table A := foldr add_item (mkTable ∅ ∅) code.

(** A byte as a [char], which is signed. *)
Definition schar (b : Z) : Z := if b <? 128 then b else b - 256.
Fixpoint select (cases : list (Z * Z * dest)) (other : dest) (c : Z) : dest :=
  match cases with
  | [] => other
  | (lo, hi, d) :: cases => if (lo <=? c) && (c <=? hi) then d else select cases other c
  end.

Section Machine.
Context {A : Type} (t : table A) (widec : Z -> Z).

(** What happens on byte [b] in state [cs]: the actions and the next state. *)
Definition next (cs b : Z) : list A * Z :=
  match t_rows t !! cs with
  | None => ([], 0)
  | Some r =>
      match select (r_cases r) (r_other r) (if r_wide r then widec (schar b) else schar b) with
      | st n => ([], n)
      | tr n => default ([], 0) (t_trs t !! n)
      end
  end.

(** [act a p s] is the action [a] when [p] bytes have been read; [stop] tells
    the actions that leave the program ([fbreak]).  In the error state [p] stays
    on the byte. *)
Context {S : Type} (act : A -> nat -> S -> outcome S) (stop : A -> bool).
Fixpoint run_acts (l : list A) (p : nat) (s : S) : outcome S :=
  match l with
  | [] => Ret s
  | a :: l => s' ← act a p s; run_acts l p s'
  end.
Fixpoint exec (cs : Z) (p : nat) (l : list Z) (s : S) : outcome (Z * nat * S) :=
  match l with
  | [] => Ret (cs, p, s)
  | b :: l =>
      let '(acts, cs') := next cs b in
      if cs' =? 0 then Ret (0, p, s)
      else
        s' ← run_acts acts p s;
        if existsb stop acts then Ret (cs', Datatypes.S p, s') else exec cs' (Datatypes.S p) l s'
  end.

(** The states alone, for programs that do not stop before the end. *)
Fixpoint states (cs : Z) (l : list Z) : Z :=
  match l with
  | [] => cs
  | b :: l => let '(_, cs') := next cs b in if cs' =? 0 then 0 else states cs' l
  end.
End Machine.

(** ** Regular expressions *)

(** [Chr] is a set of bytes given by intervals. *)
Inductive re : Type :=
| Eps
| Chr (rs : list (Z * Z))
| Seq (a b : re)
| Alt (a b : re)
| Rep (a : re).

Fixpoint ranges_eqb (a b : list (Z * Z)) : bool :=
  match a, b with
  | [], [] => true
  | x :: a, y :: b => if (x.1 =? y.1) && (x.2 =? y.2) then ranges_eqb a b else false
  | _, _ => false
  end.
Fixpoint re_eqb (a b : re) : bool :=
  match a, b with
  | Eps, Eps => true
  | Chr r, Chr r' => ranges_eqb r r'
  | Seq a1 a2, Seq b1 b2 | Alt a1 a2, Alt b1 b2 => if re_eqb a1 b1 then re_eqb a2 b2 else false
  | Rep a, Rep b => re_eqb a b
  | _, _ => false
  end.
(** [if] keeps the second test from being run when the first fails. *)
Lemma if_andb (a b : bool) : (if a then b else false) = a && b.
Proof. by destruct a. Qed.
Lemma ranges_eqb_spec a b : ranges_eqb a b = true <-> a = b.
Proof.
  revert b. induction a as [|[x x'] a IH]; intros [|[y y'] b]; cbn -[andb]; try done.
  rewrite if_andb, !andb_true_iff, !Z.eqb_eq, IH. split; [intros [[-> ->] ->]|intros [=]]; auto.
Qed.
Lemma re_eqb_spec a b : re_eqb a b = true <-> a = b.
Proof.
  revert b. induction a as [|r|a1 IH1 a2 IH2|a1 IH1 a2 IH2|a IH]; intros []; cbn; try done;
    rewrite ?if_andb, ?andb_true_iff, ?ranges_eqb_spec, ?IH1, ?IH2, ?IH; split; try intros [-> ->]; try intros ->;
    try intros [=]; subst; auto.
Qed.
(** Decided by the boolean function, which is quicker to run. *)
#[export] Instance re_eq_dec : EqDecision re := fun a b =>
  match re_eqb a b as e return re_eqb a b = e -> Decision (a = b) with
  | true => fun E => left (proj1 (re_eqb_spec a b) E)
  | false => fun E => right (fun H => eq_true_false_abs _ (proj2 (re_eqb_spec a b) H) E)
  end eq_refl.

Definition in_ranges (rs : list (Z * Z)) (c : Z) : bool := existsb (fun r => (r.1 <=? c) && (c <=? r.2)) rs.
Inductive matches : re -> list Z -> Prop :=
| m_eps : matches Eps []
| m_chr rs c : in_ranges rs c = true -> matches (Chr rs) [c]
| m_seq a b u v : matches a u -> matches b v -> matches (Seq a b) (u ++ v)
| m_left a b u : matches a u -> matches (Alt a b) u
| m_right a b u : matches b u -> matches (Alt a b) u
| m_rep_nil a : matches (Rep a) []
| m_rep_app a u v : matches a u -> matches (Rep a) v -> matches (Rep a) (u ++ v).
Create HintDb ragel.
#[export] Hint Constructors matches : ragel.

(** The usual derived forms. *)
Definition chr (c : Z) : re := Chr [(c, c)].
Definition opt (a : re) : re := Alt a Eps.
Definition plus (a : re) : re := Seq a (Rep a).
Fixpoint lit (l : list Z) : re :=
  match l with [] => Eps | [c] => chr c | c :: l => Seq (chr c) (lit l) end.
Fixpoint alts (l : list re) : re := match l with [] => Chr [] | [a] => a | a :: l => Alt a (alts l) end.
Fixpoint seqs (l : list re) : re := match l with [] => Eps | [a] => a | a :: l => Seq a (seqs l) end.
Definition times (n : nat) (a : re) : re := seqs (replicate n a).
(** [a{1,n}] *)
Fixpoint upto (n : nat) (a : re) : re :=
  match n with O => Eps | 1%nat => a | Datatypes.S n => Seq a (opt (upto n a)) end.

Fixpoint nullable (r : re) : bool :=
  match r with
  | Eps => true
  | Chr _ => false
  | Seq a b => nullable a && nullable b
  | Alt a b => nullable a || nullable b
  | Rep _ => true
  end.
Definition sseq (a b : re) : re := match a with Eps => b | _ => Seq a b end.

(** The partial derivatives: the language of the list is the union. *)
Fixpoint pder (c : Z) (r : re) : list re :=
  match r with
  | Eps => []
  | Chr rs => if in_ranges rs c then [Eps] else []
  | Seq a b => map (fun x => sseq x b) (pder c a) ++ (if nullable a then pder c b else [])
  | Alt a b => pder c a ++ pder c b
  | Rep a => map (fun x => sseq x (Rep a)) (pder c a)
  end.
Definition pders (c : Z) (l : list re) : list re := remove_dups (l ≫= pder c).
Definition in_lang (l : list re) (w : list Z) : Prop := exists r, r ∈ l /\ matches r w.

Lemma nullable_spec r : nullable r = true <-> matches r [].
Proof.
  split.
  - induction r as [| | a IHa b IHb | a IHa b IHb |]; cbn; intros Hn; auto with ragel; [done|..].
    + apply andb_true_iff in Hn as [? ?]. apply (m_seq a b [] []); auto.
    + apply orb_true_iff in Hn as [?|?]; auto with ragel.
  - intros Hm. remember [] as w eqn:E. induction Hm; cbn; try done; subst.
    + apply app_eq_nil in E as [-> ->]. by rewrite IHHm1, IHHm2.
    + by rewrite IHHm.
    + by rewrite IHHm, orb_true_r.
Qed.
Lemma matches_seq_inv a b w : matches (Seq a b) w <-> exists u v, w = u ++ v /\ matches a u /\ matches b v.
Proof. split; [inversion 1; subst; eauto|]. intros (u & v & -> & ? & ?). by constructor. Qed.
Lemma matches_sseq a b w : matches (sseq a b) w <-> matches (Seq a b) w.
Proof.
  destruct a; try done. cbn. rewrite matches_seq_inv. split.
  - intros Hm. exists [], w. auto with ragel.
  - intros (u & v & -> & Hu & Hv). by inversion Hu.
Qed.
Lemma matches_rep_cons a c w : matches (Rep a) (c :: w) -> exists u v, w = u ++ v /\ matches a (c :: u) /\ matches (Rep a) v.
Proof.
  intros Hm. remember (Rep a) as r eqn:Er. remember (c :: w) as x eqn:Ex. revert w Ex.
  induction Hm as [| | | | | |a' u v Hu _ Hv IHv]; intros w Ex; try done. simplify_eq.
  destruct u as [|c' u]; [by apply IHv|]. simplify_list_eq. eauto.
Qed.
Lemma pder_spec c r w : in_lang (pder c r) w <-> matches r (c :: w).
Proof.
  revert w. induction r as [|rs|a IHa b IHb|a IHa b IHb|a IHa]; intros w; cbn.
  - split; [by intros (? & ?%elem_of_nil & _)|inversion 1].
  - destruct (in_ranges rs c) eqn:E; split.
    + intros (r & ->%list_elem_of_singleton & Hm). inversion Hm; subst. by constructor.
    + inversion 1; subst. exists Eps. split; [by apply list_elem_of_singleton|constructor].
    + by intros (? & ?%elem_of_nil & _).
    + inversion 1; congruence.
  - unfold in_lang. rewrite matches_seq_inv. setoid_rewrite elem_of_app. setoid_rewrite list_elem_of_fmap. split.
    + intros (r & [(x & -> & Hx)|Hx] & Hm).
      * apply matches_sseq, matches_seq_inv in Hm as (u & v & -> & Hu & Hv). exists (c :: u), v. split_and!; try done.
        apply IHa. by exists x.
      * destruct (nullable a) eqn:En; [|by apply elem_of_nil in Hx]. exists [], (c :: w). split_and!; [done| |].
        -- by apply nullable_spec.
        -- apply IHb. by exists r.
    + intros (u & v & E & Hu & Hv). destruct u as [|c' u]; simplify_list_eq.
      * apply nullable_spec in Hu. rewrite Hu. apply IHb in Hv as (r & Hr & Hm). eauto.
      * apply IHa in Hu as (r & Hr & Hm). exists (sseq r b). split; [eauto|]. apply matches_sseq. by constructor.
  - unfold in_lang. setoid_rewrite elem_of_app. split.
    + intros (r & [Hr|Hr] & Hm); [apply m_left, IHa|apply m_right, IHb]; by exists r.
    + inversion 1; subst; [destruct (proj2 (IHa w) ltac:(done)) as (r & ? & ?)|
        destruct (proj2 (IHb w) ltac:(done)) as (r & ? & ?)]; eauto.
  - unfold in_lang. setoid_rewrite list_elem_of_fmap. split.
    + intros (r & (x & -> & Hx) & Hm). apply matches_sseq, matches_seq_inv in Hm as (u & v & -> & Hu & Hv).
      apply (m_rep_app a (c :: u) v); [|done]. apply IHa. by exists x.
    + intros (u & v & -> & Hu & Hv)%matches_rep_cons. apply IHa in Hu as (x & Hx & Hm).
      exists (sseq x (Rep a)). split; [eauto|]. apply matches_sseq. by constructor.
Qed.
Lemma pders_spec c l w : in_lang (pders c l) w <-> in_lang l (c :: w).
Proof.
  unfold in_lang, pders. setoid_rewrite elem_of_remove_dups. setoid_rewrite list_elem_of_bind.
  split; [intros (r & (x & Hr & Hx) & Hm)|intros (x & Hx & Hm)].
  - exists x. split; [done|]. apply pder_spec. by exists r.
  - apply pder_spec in Hm as (r & Hr & Hm). eauto.
Qed.
Lemma in_lang_nil l : in_lang l [] <-> existsb nullable l = true.
Proof.
  unfold in_lang. rewrite existsb_exists. setoid_rewrite <- nullable_spec. by setoid_rewrite list_elem_of_In.
Qed.

(** The matcher by derivatives. *)
Definition rmatch (r : re) (w : list Z) : bool := existsb nullable (foldl (fun l b => pders b l) [r] w).
Lemma rmatch_lang l w : existsb nullable (foldl (fun l b => pders b l) l w) = true <-> in_lang l w.
Proof.
  revert l. induction w as [|b w IH]; intros l; cbn [foldl]; [by rewrite in_lang_nil|]. by rewrite IH, pders_spec.
Qed.
Lemma rmatch_spec r w : rmatch r w = true <-> matches r w.
Proof.
  unfold rmatch. rewrite rmatch_lang. unfold in_lang. split; [by intros (? & ->%list_elem_of_singleton & ?)|].
  intros Hm. exists r. split; [by apply list_elem_of_singleton|done].
Qed.

(** The linear form: the derivatives with the bytes that lead to them. *)
Fixpoint lf (r : re) : list (list (Z * Z) * re) :=
  match r with
  | Eps => []
  | Chr rs => [(rs, Eps)]
  | Seq a b => map (fun e => (e.1, sseq e.2 b)) (lf a) ++ (if nullable a then lf b else [])
  | Alt a b => lf a ++ lf b
  | Rep a => map (fun e => (e.1, sseq e.2 (Rep a))) (lf a)
  end.
Definition on_byte {B} (c : Z) (l : list (list (Z * Z) * B)) : list B :=
  map snd (List.filter (fun e => in_ranges e.1 c) l).
Lemma on_byte_app {B} c (l l' : list (list (Z * Z) * B)) : on_byte c (l ++ l') = on_byte c l ++ on_byte c l'.
Proof. unfold on_byte. by rewrite List.filter_app, map_app. Qed.
Lemma on_byte_map {B B'} c (f : B -> B') (l : list (list (Z * Z) * B)) :
  on_byte c (map (fun e => (e.1, f e.2)) l) = map f (on_byte c l).
Proof. unfold on_byte. induction l as [|e l IH]; [done|]. cbn -[in_ranges]. destruct (in_ranges e.1 c); cbn -[in_ranges]; [f_equal|]; exact IH. Qed.
Lemma pder_lf c r : pder c r = on_byte c (lf r).
Proof.
  induction r as [|rs|a IHa b IHb|a IHa b IHb|a IHa]; cbn [pder lf]; rewrite ?on_byte_app.
  - done.
  - unfold on_byte. cbn -[in_ranges]. by destruct (in_ranges rs c).
  - rewrite (on_byte_map c (fun x => sseq x b)), IHa. destruct (nullable a); by rewrite ?IHb.
  - by rewrite IHa, IHb.
  - by rewrite (on_byte_map c (fun x => sseq x (Rep a))), IHa.
Qed.

(** ** Classes of bytes

    A list of intervals that no interval of an expression or of a program cuts:
    the bytes of a class have the same derivatives and the same transitions. *)
Abbreviation intervals := (list (Z * Z)).
Definition all_bytes : list Z := seqZ 0 256.
Fixpoint cut_points (r : re) : list Z :=
  match r with
  | Eps => []
  | Chr rs => flat_map (fun r => [r.1; r.2 + 1]) rs
  | Seq a b | Alt a b => cut_points a ++ cut_points b
  | Rep a => cut_points a
  end.
Fixpoint cut_at (cuts : list Z) (lo : Z) (l : list Z) : intervals :=
  match l with
  | [] => [(lo, 255)]
  | b :: l => if existsb (Z.eqb b) cuts then (lo, b - 1) :: cut_at cuts b l else cut_at cuts lo l
  end.
Definition classes (cuts : list Z) : intervals := cut_at (128 :: cuts) 0 (tail all_bytes).
Definition in_class (i : Z * Z) (b : Z) : bool := (i.1 <=? b) && (b <=? i.2).
Definition uncut (i r : Z * Z) : bool := (i.2 <? r.1) || (r.2 <? i.1) || ((r.1 <=? i.1) && (i.2 <=? r.2)).
Definition covers (cls : intervals) : bool := forallb (fun b => existsb (fun i => in_class i b) cls) all_bytes.
Fixpoint aligned (cls : intervals) (r : re) : bool :=
  match r with
  | Eps => true
  | Chr rs => forallb (fun r => forallb (fun i => uncut i r) cls) rs
  | Seq a b | Alt a b => aligned cls a && aligned cls b
  | Rep a => aligned cls a
  end.
Definition row_cuts (r : row) : list Z :=
  flat_map (fun c => [c.1.1 mod 256; (c.1.2 + 1) mod 256]) (r_cases r).
Definition table_cuts {A} (t : table A) : list Z := flat_map (fun e => row_cuts e.2) (map_to_list (t_rows t)).
(** A class is one byte, or all its bytes have one sign, stand for themselves
    in [_widec], and no interval of a row cuts it. *)
Definition plain (widec : Z -> Z) (i : Z * Z) : bool :=
  ((i.2 <? 128) || (128 <=? i.1)) &&
  forallb (fun b => widec (schar b) =? schar b) (seqZ i.1 (i.2 - i.1 + 1)).
Definition fits_row (widec : Z -> Z) (i : Z * Z) (r : row) : bool :=
  (i.1 =? i.2) || forallb (fun c => uncut (schar i.1, schar i.2) c.1) (r_cases r).
Definition fits {A} (t : table A) (widec : Z -> Z) (cls : intervals) : bool :=
  forallb (fun i => (i.1 =? i.2) || plain widec i) cls &&
  forallb (fun e => forallb (fun i => fits_row widec i e.2) cls) (map_to_list (t_rows t)).

(** ** Automata of partial derivatives

    The partial derivatives of an expression, numbered: a state holds its
    expression, the linear form by numbers, and what it gives on each class. *)
Record nstate : Type := mkN { n_re : re; n_lf : list (list (Z * Z) * Z); n_moves : list (list Z) }.
Definition nfa : Type := gmap Z nstate.

Section Build.
Context (cls : intervals).
(** The size of an expression, compared first. *)
Fixpoint re_size (r : re) : Z :=
  match r with
  | Eps | Chr _ => 1
  | Seq a b | Alt a b => 1 + re_size a + re_size b
  | Rep a => 1 + re_size a
  end.
Fixpoint index (n : Z) (r : re) (l : list (Z * re)) (k : Z) : option Z :=
  match l with
  | [] => None
  | x :: l => if (if n =? x.1 then re_eqb r x.2 else false) then Some k else index n r l (k + 1)
  end.
Fixpoint closure (fuel : nat) (todo : list re) (seen : list (Z * re)) : list (Z * re) :=
  match fuel, todo with
  | Datatypes.S fuel, r :: todo =>
      let n := re_size r in
      match index n r seen 0 with
      | Some _ => closure fuel todo seen
      | None => closure fuel (map snd (lf r) ++ todo) (seen ++ [(n, r)])
      end
  | _, _ => seen
  end.
Definition by_class (l : list (list (Z * Z) * Z)) : list (list Z) := map (fun i => on_byte i.1 l) cls.
Definition numbered (l : list (Z * re)) (x : re) : nstate :=
  let n := omap (fun e => j ← index (re_size e.2) e.2 l 0; Some (e.1, j)) (lf x) in mkN x n (by_class n).
Definition build (fuel : nat) (r : re) : nfa :=
  let l := closure fuel [r] [] in
  list_to_map (zip (seqZ 0 (Z.of_nat (length l))) (map (fun x => numbered l x.2) l)).

Definition moves (N : nfa) (L : list Z) (k : nat) : list Z :=
  remove_dups (flat_map (fun i => match N !! i with Some s => nth k (n_moves s) [] | None => [] end) L).
Definition accepting (N : nfa) (L : list Z) : bool :=
  existsb (fun i => match N !! i with Some s => nullable (n_re s) | None => false end) L.
(** What makes the numbering right. *)
Definition state_ok (N : nfa) (s : nstate) : bool :=
  bool_decide (n_moves s = by_class (n_lf s)) &&
  bool_decide (map (fun e => (e.1, n_re <$> N !! e.2)) (n_lf s) = map (fun e => (e.1, Some e.2)) (lf (n_re s))).
Definition nfa_ok (N : nfa) : bool := forallb (fun e => state_ok N e.2) (map_to_list N).
(** The numbers of a set are states, and no class cuts their expressions. *)
Definition sane (N : nfa) (i : Z) : bool :=
  match N !! i with Some s => aligned cls (n_re s) | None => false end.
Definition in_nfa (N : nfa) (L : list Z) (w : list Z) : Prop :=
  exists i s, i ∈ L /\ N !! i = Some s /\ matches (n_re s) w.
End Build.

(** ** Programs and automata, side by side

    [pairs] relates states of the program to sets of states of the automaton. *)
Definition pairs : Type := gmap Z (list (list Z)).
Definition related (R : pairs) (q : Z) (L : list Z) : bool :=
  match R !! q with Some Ls => bool_decide (L ∈ Ls) | None => false end.
Definition relate (q : Z) (L : list Z) (R : pairs) : pairs := <[q := L :: default [] (R !! q)]> R.
Definition forall_pairs (P : Z -> list Z -> bool) (R : pairs) : bool :=
  forallb (fun e => forallb (P e.1) e.2) (map_to_list R).

Section Explore.
Context {A : Type} `{EqDecision A} (t : table A) (widec : Z -> Z) (cls : intervals) (N : nfa).

(** The pairs of a transition and a set, class by class. *)
Definition steps (q : Z) (L : list Z) : list (list A * Z * list Z) :=
  imap (fun k i => (next t widec q i.1, moves N L k)) cls.
Definition successors (q : Z) (L : list Z) : list (Z * list Z) :=
  omap (fun d => match d.2 with [] => None | L' => Some (d.1.2, L') end) (steps q L).
(** Depth-first search of the pairs met on the words of [L]. *)
Fixpoint explore (fuel : nat) (todo : list (Z * list Z)) (R : pairs) : pairs :=
  match fuel, todo with
  | Datatypes.S fuel, (q, L) :: todo =>
      if related R q L then explore fuel todo R else explore fuel (successors q L ++ todo) (relate q L R)
  | _, _ => R
  end.

(** [bisim R final]: the states and the sets accept the same words. *)
Definition bisim_step (R : pairs) (d : list A * Z * list Z) : bool :=
  match d.2 with [] => d.1.2 =? 0 | L' => negb (d.1.2 =? 0) && related R d.1.2 L' end.
Definition bisim (final : Z -> bool) (R : pairs) : bool :=
  forall_pairs (fun q L => eqb (final q) (accepting N L) && forallb (bisim_step R) (steps q L)) R.

(** [included R final]: the words that end in a final state are of the sets.
    The program may go on where the sets are dead. *)
Definition live_successors (q : Z) (L : list Z) : list (Z * list Z) :=
  omap (fun d => if d.1.2 =? 0 then None else Some (d.1.2, d.2)) (steps q L).
Fixpoint explore_live (fuel : nat) (todo : list (Z * list Z)) (R : pairs) : pairs :=
  match fuel, todo with
  | Datatypes.S fuel, (q, L) :: todo =>
      if related R q L then explore_live fuel todo R
      else explore_live fuel (live_successors q L ++ todo) (relate q L R)
  | _, _ => R
  end.
Definition included_step (R : pairs) (d : list A * Z * list Z) : bool := (d.1.2 =? 0) || related R d.1.2 d.2.
Definition included (final : Z -> bool) (R : pairs) : bool :=
  forall_pairs (fun q L => implb (final q) (accepting N L) && forallb (included_step R) (steps q L)) R.

(** [follows R]: the words of the sets run without any action. *)
Definition follows_step (R : pairs) (acts : list A) (d : list A * Z * list Z) : bool :=
  match d.2 with [] => true | L' => bool_decide (d.1.1 = acts) && negb (d.1.2 =? 0) && related R d.1.2 L' end.
Definition follows (R : pairs) : bool := forall_pairs (fun q L => forallb (follows_step R []) (steps q L)) R.
Definition ends (R : pairs) : list Z :=
  omap (fun e => if existsb (accepting N) e.2 then Some e.1 else None) (map_to_list R).
End Explore.

Definition is_some {B} (x : option B) : bool := match x with Some _ => true | None => false end.
Section Segment.
Context {A : Type} `{EqDecision A} (t : table A) (widec : Z -> Z) (cls : intervals) (fuel : nat).
(** [segment qs acts r]: the states in which a nonempty word of [r] read from
    one of [qs] ends, when it runs [acts] on its first byte and nothing else. *)
Definition segment (qs : list Z) (acts : list A) (r : re) : option (list Z) :=
  let N := build cls fuel r in
  let R := explore t widec cls N fuel (flat_map (fun q => successors t widec cls N q [0]) qs) ∅ in
  if nfa_ok cls N && bool_decide (n_re <$> N !! 0 = Some r) && aligned cls r
     && forallb (fun q => forallb (follows_step R acts) (steps t widec cls N q [0])) qs && follows t widec cls N R
  then Some (ends N R) else None.
Fixpoint chain (qs : list Z) (segs : list (list A * re)) : option (list Z) :=
  match segs with
  | [] => Some qs
  | (acts, r) :: segs => qs' ← segment qs acts r; chain qs' segs
  end.
End Segment.

(** *** Classes *)
Lemma all_bytes_spec b : byte_ok b <-> b ∈ all_bytes.
Proof. unfold byte_ok, all_bytes. rewrite elem_of_seqZ. lia. Qed.
Lemma forallb_in {A} (P : A -> bool) l x : forallb P l = true -> x ∈ l -> P x = true.
Proof. rewrite forallb_forall. intros HP Hx%list_elem_of_In. by apply HP. Qed.
Lemma in_class_iff i b : in_class i b = true <-> i.1 <= b <= i.2.
Proof. unfold in_class. by rewrite andb_true_iff, !Z.leb_le. Qed.
Lemma covers_class cls b : covers cls = true -> byte_ok b -> exists k i, cls !! k = Some i /\ in_class i b = true.
Proof.
  unfold covers. intros Hc Hb%all_bytes_spec. pose proof (forallb_in _ _ _ Hc Hb) as Hx.
  apply existsb_exists in Hx as (i & Hi%list_elem_of_In & Hib). apply list_elem_of_lookup_1 in Hi as [k Hk]. eauto.
Qed.
Lemma uncut_same i r b : uncut i r = true -> in_class i b = true ->
  (r.1 <=? b) && (b <=? r.2) = (r.1 <=? i.1) && (i.1 <=? r.2).
Proof.
  unfold uncut. rewrite !orb_true_iff, andb_true_iff, !Z.ltb_lt, !Z.leb_le. intros Hu Hb%in_class_iff.
  apply eq_true_iff_eq. rewrite !andb_true_iff, !Z.leb_le. lia.
Qed.
Lemma in_ranges_class cls rs i b : forallb (fun r => forallb (fun i => uncut i r) cls) rs = true ->
  i ∈ cls -> in_class i b = true -> in_ranges rs b = in_ranges rs i.1.
Proof.
  intros Ha Hi Hb. unfold in_ranges. induction rs as [|r rs IH]; [done|]. cbn [forallb existsb] in *.
  apply andb_true_iff in Ha as [Hr Ha]. f_equal; [|by apply IH].
  apply uncut_same; [|done]. exact (forallb_in _ _ _ Hr Hi).
Qed.
Lemma pder_class cls r i b : aligned cls r = true -> i ∈ cls -> in_class i b = true -> pder b r = pder i.1 r.
Proof.
  intros Ha Hi Hb. induction r as [|rs|a1 IH1 a2 IH2|a1 IH1 a2 IH2|a1 IH1]; cbn in *; try done;
    try (apply andb_true_iff in Ha as [Ha1 Ha2]); rewrite ?IH1, ?IH2 by done; try done.
  by rewrite (in_ranges_class cls rs i b Ha Hi Hb).
Qed.
Lemma aligned_sseq cls a b : aligned cls (sseq a b) = aligned cls a && aligned cls b.
Proof. by destruct a. Qed.
Lemma pder_aligned cls b r : aligned cls r = true -> forallb (aligned cls) (pder b r) = true.
Proof.
  assert (Hs : forall l x, forallb (aligned cls) l = true -> aligned cls x = true ->
    forallb (aligned cls) (map (fun y => sseq y x) l) = true).
  { intros l x Hl Hx. rewrite forallb_forall in *. intros y (z & <- & Hz)%in_map_iff. by rewrite aligned_sseq, Hl, Hx. }
  induction r as [|rs|a1 IH1 a2 IH2|a1 IH1 a2 IH2|a1 IH1]; cbn; intros Ha; try done;
    try (apply andb_true_iff in Ha as [Ha1 Ha2]).
  - by destruct (in_ranges rs b).
  - rewrite forallb_app, Hs by auto. destruct (nullable a1); cbn; auto.
  - rewrite forallb_app, IH1, IH2 by done. done.
  - by apply Hs; auto.
Qed.
Lemma select_class cases other i b :
  forallb (fun c => uncut i c.1) cases = true -> in_class i b = true -> select cases other b = select cases other i.1.
Proof.
  intros Hc Hb. induction cases as [|[[lo hi] d] cases IH]; [done|]. cbn [forallb select] in *.
  apply andb_true_iff in Hc as [Hu Hc]. pose proof (uncut_same i (lo, hi) b Hu Hb) as E. cbn in E. by rewrite E, IH.
Qed.
Lemma plain_byte widec i b : plain widec i = true -> in_class i b = true ->
  widec (schar b) = schar b /\ in_class (schar i.1, schar i.2) (schar b) = true.
Proof.
  unfold plain. intros [Hs Hp]%andb_true_iff Hb%in_class_iff. split.
  - apply Z.eqb_eq, (forallb_in _ _ _ Hp). rewrite elem_of_seqZ. lia.
  - apply in_class_iff. cbn. rewrite orb_true_iff, Z.ltb_lt, Z.leb_le in Hs. unfold schar. repeat case_match; lia.
Qed.
Lemma next_class {A} (t : table A) widec cls q i b :
  fits t widec cls = true -> i ∈ cls -> in_class i b = true -> next t widec q b = next t widec q i.1.
Proof.
  unfold fits. intros [Hp Hf]%andb_true_iff Hi Hb. pose proof (forallb_in _ _ _ Hp Hi) as Hpi. cbn in Hpi.
  apply orb_true_iff in Hpi as [H1%Z.eqb_eq|Hpl]; [apply in_class_iff in Hb; by replace b with i.1 by lia|].
  unfold next. destruct (t_rows t !! q) as [r|] eqn:Er; [|done]. apply elem_of_map_to_list in Er.
  pose proof (forallb_in _ _ _ Hf Er) as Hr. pose proof (forallb_in _ _ _ Hr Hi) as Hri. unfold fits_row in Hri. cbn in Hri.
  apply orb_true_iff in Hri as [H1%Z.eqb_eq|Hc]; [apply in_class_iff in Hb; by replace b with i.1 by lia|].
  assert (in_class i i.1 = true) as Hi1 by (apply in_class_iff in Hb; apply in_class_iff; lia).
  destruct (plain_byte widec i b Hpl Hb) as [Eb Hb']. destruct (plain_byte widec i i.1 Hpl Hi1) as [Ei Hi'].
  rewrite Eb, Ei. replace (if r_wide r then schar b else schar b) with (schar b) by (by destruct (r_wide r)).
  replace (if r_wide r then schar i.1 else schar i.1) with (schar i.1) by (by destruct (r_wide r)).
  by rewrite (select_class _ _ (schar i.1, schar i.2) (schar b)).
Qed.

(** *** Sets *)
Section Sets.
Context (cls : intervals) (N : nfa) (Hok : nfa_ok cls N = true).
Lemma state_moves x s k i : N !! x = Some s -> cls !! k = Some i ->
  map (fun j => n_re <$> N !! j) (nth k (n_moves s) []) = map Some (pder i.1 (n_re s)).
Proof.
  intros Hx%elem_of_map_to_list Hk. pose proof (forallb_in _ _ _ Hok Hx) as Hs. unfold state_ok in Hs. cbn in Hs.
  apply andb_true_iff in Hs as [Hm%bool_decide_eq_true Hl%bool_decide_eq_true].
  rewrite Hm, pder_lf. unfold by_class.
  assert (nth k (map (fun i => on_byte i.1 (n_lf s)) cls) [] = on_byte i.1 (n_lf s)) as ->.
  { apply nth_lookup_Some. change (map (fun i => on_byte i.1 (n_lf s)) cls) with ((fun i => on_byte i.1 (n_lf s)) <$> cls).
    by rewrite list_lookup_fmap, Hk. }
  by rewrite <- (on_byte_map i.1 (fun j => n_re <$> N !! j)), Hl, (on_byte_map i.1 Some).
Qed.
(** A move of a state, as derivatives of its expression. *)
Lemma move_spec x sx k i b r : N !! x = Some sx -> aligned cls (n_re sx) = true -> cls !! k = Some i -> in_class i b = true ->
  r ∈ pder b (n_re sx) <-> exists j s, j ∈ nth k (n_moves sx) [] /\ N !! j = Some s /\ n_re s = r.
Proof.
  intros Ex Ha Hk Hb. rewrite (pder_class cls _ i b Ha (list_elem_of_lookup_2 _ _ _ Hk) Hb).
  pose proof (state_moves x sx k i Ex Hk) as E. split.
  - intros Hr. apply (list_elem_of_fmap_2 Some) in Hr. change (fmap Some) with (map (@Some re)) in Hr.
    rewrite <- E in Hr. apply list_elem_of_fmap in Hr as (j & Hj & Hin).
    destruct (N !! j) as [s|] eqn:Ej; [|done]. cbn in Hj. simplify_eq. eauto.
  - intros (j & s & Hj & Hs & <-). apply (list_elem_of_fmap_inj_2 Some). change (fmap Some) with (map (@Some re)).
    rewrite <- E. apply list_elem_of_fmap. exists j. by rewrite Hs.
Qed.
Lemma elem_of_moves L k j : j ∈ moves N L k <-> exists x sx, x ∈ L /\ N !! x = Some sx /\ j ∈ nth k (n_moves sx) [].
Proof.
  unfold moves. rewrite elem_of_remove_dups, list_elem_of_In, in_flat_map. split.
  - intros (x & Hx%list_elem_of_In & Hj%list_elem_of_In). destruct (N !! x) as [sx|] eqn:Ex; [eauto|by apply elem_of_nil in Hj].
  - intros (x & sx & Hx & Ex & Hj). exists x. rewrite Ex. by split; apply list_elem_of_In.
Qed.
Lemma sane_state L x sx : forallb (sane cls N) L = true -> x ∈ L -> N !! x = Some sx -> aligned cls (n_re sx) = true.
Proof. intros HL Hx Ex. pose proof (forallb_in _ _ _ HL Hx) as Hs. unfold sane in Hs. by rewrite Ex in Hs. Qed.
Lemma moves_spec L k i b w : forallb (sane cls N) L = true -> cls !! k = Some i -> in_class i b = true ->
  (in_nfa N (moves N L k) w <-> in_nfa N L (b :: w)).
Proof.
  intros HL Hk Hb. unfold in_nfa. setoid_rewrite elem_of_moves. split.
  - intros (j & s & (x & sx & Hx & Ex & Hj) & Hs & Hm). exists x, sx. split_and!; [done..|].
    apply pder_spec. exists (n_re s). split; [|done].
    apply (move_spec x sx k i b (n_re s) Ex (sane_state L x sx HL Hx Ex) Hk Hb). eauto.
  - intros (x & sx & Hx & Ex & Hm). apply pder_spec in Hm as (r & Hr & Hm).
    apply (move_spec x sx k i b r Ex (sane_state L x sx HL Hx Ex) Hk Hb) in Hr as (j & s & Hj & Hs & <-). eauto 10.
Qed.
Lemma moves_sane L k i : forallb (sane cls N) L = true -> cls !! k = Some i -> i.1 <= i.2 ->
  forallb (sane cls N) (moves N L k) = true.
Proof.
  intros HL Hk Hi. apply forallb_forall. intros j (x & sx & Hx & Ex & Hj)%list_elem_of_In%elem_of_moves.
  pose proof (sane_state L x sx HL Hx Ex) as Ha. pose proof (state_moves x sx k i Ex Hk) as E.
  apply (list_elem_of_fmap_2 (fun j => n_re <$> N !! j)) in Hj. change (fmap (fun j => n_re <$> N !! j)) with (map (fun j => n_re <$> N !! j)) in Hj.
  rewrite E in Hj. apply list_elem_of_fmap in Hj as (r & Hr & Hin). unfold sane.
  destruct (N !! j) as [s|]; [|done]. cbn in Hr. simplify_eq.
  exact (forallb_in _ _ _ (pder_aligned cls i.1 _ Ha) Hin).
Qed.
Lemma accepting_spec L : accepting N L = true <-> in_nfa N L [].
Proof.
  unfold accepting, in_nfa. rewrite existsb_exists. split.
  - intros (i & Hi & Hn). destruct (N !! i) as [s|] eqn:E; [|done]. exists i, s.
    split_and!; [by apply list_elem_of_In|done|by apply nullable_spec].
  - intros (i & s & Hi & E & Hm). exists i. rewrite E. split; [by apply list_elem_of_In|by apply nullable_spec].
Qed.
End Sets.
Lemma in_nfa_start N r w : n_re <$> N !! 0 = Some r -> matches r w -> in_nfa N [0] w.
Proof.
  destruct (N !! 0) as [s|] eqn:E; cbn; [|done]. intros [= <-] Hm. exists 0, s. split; [by apply list_elem_of_singleton|done].
Qed.
Lemma in_nfa_start_inv N r w : n_re <$> N !! 0 = Some r -> in_nfa N [0] w -> matches r w.
Proof. intros E (i & s & ->%list_elem_of_singleton & Hs & Hm). rewrite Hs in E. cbn in E. by simplify_eq. Qed.

(** *** Pairs *)
Lemma forall_related P R q L : forall_pairs P R = true -> related R q L = true -> P q L = true.
Proof.
  unfold forall_pairs, related. intros HP Hr. destruct (R !! q) as [Ls|] eqn:E; [|done].
  apply bool_decide_eq_true in Hr. apply elem_of_map_to_list in E.
  pose proof (forallb_in _ _ _ HP E) as Hl. exact (forallb_in _ _ _ Hl Hr).
Qed.

Section Soundness.
Context {A : Type} `{EqDecision A} (t : table A) (widec : Z -> Z) (cls : intervals) (N : nfa).
Context (Hcov : covers cls = true) (Hfit : fits t widec cls = true) (Hok : nfa_ok cls N = true).

(** What a check of the steps says of every byte. *)
Lemma step_byte P q L b : forallb P (steps t widec cls N q L) = true -> byte_ok b -> forallb (sane cls N) L = true ->
  exists L', P (next t widec q b, L') = true /\ forallb (sane cls N) L' = true /\
    forall w, in_nfa N L' w <-> in_nfa N L (b :: w).
Proof.
  intros HP Hb HL. destruct (covers_class cls b Hcov Hb) as (k & i & Hk & Hib). exists (moves N L k). split_and!.
  - rewrite (next_class t widec cls q i b Hfit (list_elem_of_lookup_2 _ _ _ Hk) Hib).
    apply (forallb_in _ _ _ HP). apply list_elem_of_lookup. exists k. unfold steps. by rewrite list_lookup_imap, Hk.
  - apply (moves_sane cls N Hok L k i HL Hk). apply in_class_iff in Hib. lia.
  - intros w. by apply (moves_spec cls N Hok L k i b w).
Qed.
Lemma ends_spec R q L : related R q L = true -> in_nfa N L [] -> q ∈ ends N R.
Proof.
  unfold related, ends. intros Hr Hn. destruct (R !! q) as [Ls|] eqn:E; [|done].
  apply bool_decide_eq_true in Hr. apply list_elem_of_omap. exists (q, Ls).
  split; [by apply elem_of_map_to_list|]. cbn. rewrite (proj2 (existsb_exists _ _)); [done|].
  exists L. split; [by apply list_elem_of_In|by apply accepting_spec].
Qed.
Lemma included_accepts final R q L w :
  included t widec cls N final R = true -> final 0 = false -> related R q L = true -> forallb (sane cls N) L = true ->
  Forall byte_ok w -> final (states t widec q w) = true -> in_nfa N L w.
Proof.
  intros HB H0. revert q L. induction w as [|b w IH]; intros q L Hr HL Hw; cbn [states];
    pose proof (forall_related _ _ _ _ HB Hr) as Hp; cbn in Hp; apply andb_true_iff in Hp as [Hf Hp].
  - intros E. rewrite E in Hf. by apply accepting_spec.
  - apply list.Forall_cons in Hw as [Hb Hw]. destruct (step_byte _ q L b Hp Hb HL) as (L' & Hs & HL' & Hd).
    rewrite <- Hd. unfold included_step in Hs. destruct (next t widec q b) as [acts q'] eqn:En. cbn [fst snd] in Hs.
    destruct (Z.eqb_spec q' 0) as [->|Hne]; [by rewrite H0|]. by apply IH.
Qed.
Lemma bisim_accepts final R q L w :
  bisim t widec cls N final R = true -> final 0 = false -> related R q L = true -> forallb (sane cls N) L = true ->
  Forall byte_ok w -> (final (states t widec q w) = true <-> in_nfa N L w).
Proof.
  intros HB H0. revert q L. induction w as [|b w IH]; intros q L Hr HL Hw; cbn [states];
    pose proof (forall_related _ _ _ _ HB Hr) as Hp; cbn in Hp; apply andb_true_iff in Hp as [Hf Hp].
  - apply eqb_prop in Hf. rewrite Hf. by apply accepting_spec.
  - apply list.Forall_cons in Hw as [Hb Hw]. destruct (step_byte _ q L b Hp Hb HL) as (L' & Hs & HL' & Hd).
    rewrite <- Hd. unfold bisim_step in Hs. destruct (next t widec q b) as [acts q'] eqn:En. cbn [fst snd] in Hs.
    destruct L' as [|x L'].
    + rewrite Hs, H0. split; [done|]. by intros (? & ? & ?%elem_of_nil & _).
    + apply andb_true_iff in Hs as [Hq Hs]. apply negb_true_iff in Hq. rewrite Hq. by apply IH.
Qed.

Context {S : Type} (act : A -> nat -> S -> outcome S) (stop : A -> bool).
Abbreviation run := (exec t widec act stop).
Abbreviation acts_at := (run_acts act).
Lemma follows_run R q L w rest p s :
  follows t widec cls N R = true -> related R q L = true -> forallb (sane cls N) L = true ->
  in_nfa N L w -> Forall byte_ok w ->
  exists q', q' ∈ ends N R /\ run q p (w ++ rest) s = run q' (p + length w) rest s.
Proof.
  intros HR. revert q L p. induction w as [|b w IH]; intros q L p Hr HL Hm Hw; cbn [app length].
  - exists q. rewrite Nat.add_0_r. split; [|done]. by apply (ends_spec R q L).
  - apply list.Forall_cons in Hw as [Hb Hw]. pose proof (forall_related _ _ _ _ HR Hr) as Hp.
    destruct (step_byte _ q L b Hp Hb HL) as (L' & Hs & HL' & Hd). apply Hd in Hm. unfold follows_step in Hs. cbn [exec].
    destruct L' as [|x L']; [by destruct Hm as (? & ? & ?%elem_of_nil & _)|].
    destruct (next t widec q b) as [acts q1]. cbn [fst snd] in Hs.
    apply andb_true_iff in Hs as [Hs Hr1]. apply andb_true_iff in Hs as [->%bool_decide_eq_true Hq%negb_true_iff].
    rewrite Hq. cbn [run_acts existsb]. destruct (IH q1 _ (Datatypes.S p) Hr1 HL' Hm Hw) as (q' & ? & E).
    exists q'. split; [done|]. cbn. rewrite E. by rewrite Nat.add_succ_r.
Qed.
End Soundness.

Section Chains.
Context {A : Type} `{EqDecision A} (t : table A) (widec : Z -> Z) (cls : intervals) (fuel : nat).
Context (Hcov : covers cls = true) (Hfit : fits t widec cls = true).
Context {S : Type} (act : A -> nat -> S -> outcome S) (stop : A -> bool).
Abbreviation run := (exec t widec act stop).
Abbreviation acts_at := (run_acts act).
Lemma segment_run qs acts r qs' q w rest p s :
  segment t widec cls fuel qs acts r = Some qs' -> q ∈ qs -> matches r w -> w <> [] -> Forall byte_ok w ->
  existsb stop acts = false ->
  exists q', q' ∈ qs' /\ run q p (w ++ rest) s = (s' ← acts_at acts p s; run q' (p + length w) rest s').
Proof.
  unfold segment. set (N := build _ _ _). set (R := explore _ _ _ _ _ _ _). intros HS Hq Hm Hne Hw Hst.
  destruct (nfa_ok cls N && _ && _ && _ && _) eqn:E; [|done].
  apply andb_true_iff in E as [[[[Hok H0%bool_decide_eq_true]%andb_true_iff Ha]%andb_true_iff He]%andb_true_iff HR].
  simplify_eq. assert (H1 : forallb (sane cls N) [0] = true).
  { cbn. unfold sane. destruct (N !! 0); [|done]. cbn in H0. simplify_eq. by rewrite Ha. }
  destruct w as [|b w]; [done|]. apply list.Forall_cons in Hw as [Hb Hw].
  destruct (step_byte t widec cls N Hcov Hfit Hok _ q [0] b (forallb_in _ _ _ He Hq) Hb H1) as (L' & Hs & HL' & Hd).
  assert (Hl : in_nfa N L' w) by (apply Hd; by apply (in_nfa_start N r)). unfold follows_step in Hs. cbn [exec app].
  destruct L' as [|x L']; [by destruct Hl as (? & ? & ?%elem_of_nil & _)|].
  destruct (next t widec q b) as [acts' q1]. cbn [fst snd] in Hs.
  apply andb_true_iff in Hs as [Hs Hr1]. apply andb_true_iff in Hs as [->%bool_decide_eq_true Hq1%negb_true_iff].
  rewrite Hq1, Hst.
  pose proof (fun s => follows_run t widec cls N Hcov Hfit Hok act stop R q1 _ w rest (Datatypes.S p) s HR Hr1 HL' Hl Hw) as Hrun.
  destruct (Hrun s) as (q' & Hin & _). destruct (acts_at acts p s) as [s'| | |] eqn:Ea; [|by exists q'..].
  destruct (Hrun s') as (q2 & Hin2 & E2).
  exists q2. split; [done|]. cbn. rewrite E2. by rewrite Nat.add_succ_r.
Qed.

(** The actions of the segments of a text, each where its segment begins. *)
Fixpoint chain_acts (segs : list (list A * re)) (ws : list (list Z)) (p : nat) (s : S) : outcome S :=
  match segs, ws with
  | (acts, _) :: segs, w :: ws => s' ← acts_at acts p s; chain_acts segs ws (p + length w) s'
  | _, _ => Ret s
  end.
Definition seg_text (seg : list A * re) (w : list Z) : Prop :=
  matches seg.2 w /\ w <> [] /\ Forall byte_ok w /\ existsb stop seg.1 = false.
Lemma chain_run qs segs qs' q ws rest p s s' :
  chain t widec cls fuel qs segs = Some qs' -> q ∈ qs -> Forall2 seg_text segs ws -> chain_acts segs ws p s = Ret s' ->
  exists q', q' ∈ qs' /\ run q p (concat ws ++ rest) s = run q' (p + length (concat ws)) rest s'.
Proof.
  intros HC Hq HF. revert qs q p s HC Hq. induction HF as [|[acts r] w segs ws (Hm & Hne & Hb & Hst) HF IH];
    intros qs q p s HC Hq Ha; cbn [chain chain_acts] in *.
  - simplify_eq. exists q. by rewrite Nat.add_0_r.
  - destruct (segment t widec cls fuel qs acts r) as [qs1|] eqn:ES; [|done]. cbn [mbind option_bind] in HC.
    cbn [concat]. rewrite <- app_assoc.
    destruct (segment_run qs acts r qs1 q w (concat ws ++ rest) p s ES Hq Hm Hne Hb Hst) as (q1 & Hq1 & ->).
    cbn [fst snd] in *. destruct (acts_at acts p s) as [s1| | |]; try done. cbn [mbind outcome_bind] in *.
    destruct (IH qs1 q1 (p + length w)%nat s1 HC Hq1 Ha) as (q2 & Hq2 & E2). exists q2. split; [done|].
    rewrite E2, length_app. by rewrite Nat.add_assoc.
Qed.
Lemma exec_states cs p l s cs' p' s' :
  (forall a, stop a = false) -> run cs p l s = Ret (cs', p', s') -> cs' = states t widec cs l.
Proof.
  intros Hst. revert cs p s. induction l as [|b l IH]; intros cs p s; cbn [exec states]; [by intros [= -> ->]|].
  destruct (next t widec cs b) as [acts q]. destruct (q =? 0); [congruence|].
  destruct (acts_at acts p s) as [s1| | |]; cbn [mbind outcome_bind]; try done.
  replace (existsb stop acts) with false; [by apply IH|]. symmetry. clear -Hst. induction acts; cbn; [done|].
  by rewrite Hst.
Qed.
End Chains.

Lemma exec_preserves {A} (t : table A) widec {S} (act : A -> nat -> S -> outcome S) stop (I : S -> Prop) q p l s q' p' s' :
  exec t widec act stop q p l s = Ret (q', p', s') ->
  (forall a m s1 s2, act a m s1 = Ret s2 -> I s1 -> I s2) -> I s -> I s'.
Proof.
  intros He Ha. revert q p s He. induction l as [|b l IH]; intros q p s; cbn [exec]; [by intros [= _ _ ->]|].
  destruct (next t widec q b) as [acts q1]. destruct (q1 =? 0); [by intros [= _ _ ->]|].
  destruct (run_acts act acts p s) as [s1| | |] eqn:E; try done. cbn [mbind outcome_bind]. intros He Hs.
  assert (Hs1 : I s1).
  { clear He. revert s E Hs. induction acts as [|a acts IHa]; cbn [run_acts]; intros s E Hs; [by simplify_eq|].
    destruct (act a p s) as [s2| | |] eqn:E2; try done. cbn [mbind outcome_bind] in E. eauto. }
  destruct (existsb stop acts); [by simplify_eq|]. eauto.
Qed.

(** *** Words that go on *)
Section GoOn.
Context {A : Type} `{EqDecision A} (t : table A) (widec : Z -> Z) (cls : intervals) (N : nfa).
Lemma states_app q v w : states t widec q (v ++ w) = if states t widec q v =? 0 then match v with [] => states t widec q w | _ => 0 end
  else states t widec (states t widec q v) w.
Proof.
  revert q. induction v as [|b v IH]; intros q; cbn [app states].
  - by destruct (Z.eqb_spec q 0) as [->|].
  - destruct (next t widec q b) as [acts q']. destruct (Z.eqb_spec q' 0) as [->|Hne]; [done|]. rewrite IH.
    destruct v as [|b' v]; [|done]. cbn [states]. by rewrite (proj2 (Z.eqb_neq q' 0) Hne).
Qed.
Context (Hcov : covers cls = true) (Hfit : fits t widec cls = true) (Hok : nfa_ok cls N = true).
Lemma bisim_states final R q L w :
  bisim t widec cls N final R = true -> related R q L = true -> forallb (sane cls N) L = true ->
  Forall byte_ok w -> states t widec q w <> 0 -> q <> 0 -> L <> [] ->
  exists L', related R (states t widec q w) L' = true /\ forallb (sane cls N) L' = true /\ L' <> [] /\
    forall v, in_nfa N L' v <-> in_nfa N L (w ++ v).
Proof.
  intros HB. revert q L. induction w as [|b w IH]; intros q L Hr HL Hw Hs Hq Hne; cbn [states] in *.
  { exists L. by split_and!. }
  pose proof (forall_related _ _ _ _ HB Hr) as Hp; cbn in Hp; apply andb_true_iff in Hp as [_ Hp].
  apply list.Forall_cons in Hw as [Hb Hw].
  destruct (step_byte t widec cls N Hcov Hfit Hok _ q L b Hp Hb HL) as (L' & Hst & HL' & Hd).
  unfold bisim_step in Hst. destruct (next t widec q b) as [acts q'] eqn:En. cbn [fst snd] in Hst.
  destruct (Z.eqb_spec q' 0) as [->|Hne']; [done|]. destruct L' as [|x L']; [done|].
  cbn [negb andb] in Hst. destruct (IH q' (x :: L') Hst HL' Hw Hs Hne' ltac:(done)) as (L2 & ? & ? & ? & H2).
  exists L2. split_and!; try done. intros v. by rewrite H2, Hd.
Qed.
(** An expression that has a word. *)
Fixpoint inhabited (r : re) : bool :=
  match r with
  | Eps => true
  | Chr rs => existsb (fun r => (0 <=? r.1) && (r.1 <=? r.2)) rs
  | Seq a b => inhabited a && inhabited b
  | Alt a b => inhabited a || inhabited b
  | Rep _ => true
  end.
Lemma inhabited_spec r : inhabited r = true -> exists w, matches r w.
Proof.
  induction r as [|rs|a IHa b IHb|a IHa b IHb|a IHa]; cbn [inhabited]; intros Hi.
  - exists []. constructor.
  - apply existsb_exists in Hi as (x & Hx & [_ Hl]%andb_true_iff). exists [x.1]. constructor.
    apply existsb_exists. exists x. split; [done|]. lia.
  - apply andb_true_iff in Hi as [[u Hu]%IHa [v Hv]%IHb]. exists (u ++ v). by constructor.
  - apply orb_true_iff in Hi as [[u Hu]%IHa|[u Hu]%IHb]; exists u; [by apply m_left|by apply m_right].
  - exists []. constructor.
Qed.
Lemma bisim_goes_on final R q L w :
  forallb (fun e => inhabited (n_re e.2)) (map_to_list N) = true ->
  bisim t widec cls N final R = true -> related R q L = true -> forallb (sane cls N) L = true ->
  Forall byte_ok w -> states t widec q w <> 0 -> q <> 0 -> L <> [] -> exists v, in_nfa N L (w ++ v).
Proof.
  intros HI HB Hr HL Hw Hs Hq Hne.
  destruct (bisim_states final R q L w HB Hr HL Hw Hs Hq Hne) as ([|i L'] & _ & HL' & Hn & Hd); [done|].
  cbn [forallb] in HL'. apply andb_true_iff in HL' as [Hi _]. unfold sane in Hi.
  destruct (N !! i) as [s|] eqn:E; [|done]. pose proof E as E'. apply elem_of_map_to_list in E'.
  destruct (inhabited_spec _ (forallb_in _ _ _ HI E')) as [v Hv]. exists v. apply Hd. exists i, s.
  split_and!; [apply elem_of_cons; by left|done..].
Qed.
End GoOn.

(** *** Words of an expression *)
Fixpoint bounded (r : re) : bool :=
  match r with
  | Eps => true
  | Chr rs => forallb (fun r => (0 <=? r.1) && (r.2 <? 256)) rs
  | Seq a b | Alt a b => bounded a && bounded b
  | Rep a => bounded a
  end.
Lemma matches_bytes r w : bounded r = true -> matches r w -> Forall byte_ok w.
Proof.
  intros Hb Hm. induction Hm as [|rs c Hc|a b u v _ IHu _ IHv|a b u _ IH|a b u _ IH|a|a u v _ IHu _ IHv]; cbn in *;
    try (apply andb_true_iff in Hb as [Ha Hb']); try (apply list.Forall_app); try split; auto.
  - unfold in_ranges in Hc. apply existsb_exists in Hc as (x & Hx%list_elem_of_In & Hi).
    pose proof (forallb_in _ _ _ Hb Hx) as Hr. cbn in Hr. rewrite andb_true_iff, !Z.leb_le in Hi.
    rewrite andb_true_iff, Z.leb_le, Z.ltb_lt in Hr. apply list.Forall_singleton. unfold byte_ok. lia.
Qed.
Lemma matches_lit l : matches (lit l) l.
Proof.
  assert (Hc : forall c, matches (chr c) [c]).
  { intros c. constructor. unfold in_ranges. cbn. by rewrite Z.leb_refl. }
  induction l as [|c [|d l] IH]; cbn; [constructor|apply Hc|]. apply (m_seq _ _ [c] (d :: l)); auto.
Qed.
Lemma matches_all a l : Forall (fun c => matches a [c]) l -> matches (Rep a) l.
Proof. induction 1 as [|c l Hc _ IH]; [constructor|]. by apply (m_rep_app a [c] l). Qed.
Lemma matches_plus a l : Forall (fun c => matches a [c]) l -> l <> [] -> matches (plus a) l.
Proof. destruct 1 as [|c l Hc Hl]; [done|]. intros _. apply (m_seq _ _ [c] l); [done|]. by apply matches_all. Qed.
(** The first byte of a word is one of those the linear form starts with. *)
Lemma matches_first r c w : matches r (c :: w) -> existsb (fun e => in_ranges e.1 c) (lf r) = true.
Proof.
  intros (x & Hx & _)%pder_spec. rewrite pder_lf in Hx. unfold on_byte in Hx.
  apply list_elem_of_In, in_map_iff in Hx as (e & _ & He). apply List.filter_In in He as [He Hi].
  apply existsb_exists. eauto.
Qed.

(** ** What the actions may rely on

    An abstract state follows the actions: [flow a f] is what [f] becomes by the
    action [a], or [None] when the action must not run there.  [flows] holds the
    pairs met from a start; a closed set of pairs is an invariant of the
    program, whatever the bytes are. *)
Section Flow.
Context {A F : Type} `{EqDecision F} (t : table A) (widec : Z -> Z) (cls : intervals).
Context (flow : A -> F -> option F) (stop : A -> bool).
Fixpoint flow_acts (l : list A) (f : F) : option F :=
  match l with [] => Some f | a :: l => f ← flow a f; flow_acts l f end.
Definition flows : Type := gmap Z (list F).
Definition flows_to (R : flows) (q : Z) (f : F) : bool :=
  match R !! q with Some l => bool_decide (f ∈ l) | None => false end.
(** The steps that go on, and those that end the program. *)
Definition flow_steps (q : Z) (f : F) : list (bool * Z * option F) :=
  omap (fun i => let '(acts, q') := next t widec q i.1 in
    if q' =? 0 then None else Some (existsb stop acts, q', flow_acts acts f)) cls.
Fixpoint flow_explore (fuel : nat) (todo : list (Z * F)) (R : flows) : flows :=
  match fuel, todo with
  | Datatypes.S fuel, (q, f) :: todo =>
      if flows_to R q f then flow_explore fuel todo R
      else flow_explore fuel
        (omap (fun d : bool * Z * option F => if d.1.1 then None else pair d.1.2 <$> d.2) (flow_steps q f) ++ todo)
        (<[q := f :: default [] (R !! q)]> R)
  | _, _ => R
  end.
(** [final q f]: what must hold where the program stops. *)
Definition flow_step_ok (final : Z -> F -> bool) (R : flows) (q : Z) (f : F) : bool :=
  forallb (fun d : bool * Z * option F =>
    match d.2 with Some f' => if d.1.1 then final d.1.2 f' else flows_to R d.1.2 f' | None => false end)
    (flow_steps q f).
Definition flow_ok (final : Z -> F -> bool) (R : flows) : bool :=
  forallb (fun e => forallb (flow_step_ok final R e.1) e.2) (map_to_list R).

Lemma flows_all (P : Z -> F -> bool) (R : flows) q f :
  forallb (fun e => forallb (P e.1) e.2) (map_to_list R) = true -> flows_to R q f = true -> P q f = true.
Proof.
  unfold flows_to. intros HP Hq. destruct (R !! q) as [l|] eqn:E; [|done].
  apply bool_decide_eq_true in Hq. apply elem_of_map_to_list in E. exact (forallb_in _ _ _ (forallb_in _ _ _ HP E) Hq).
Qed.

Context (Hcov : covers cls = true) (Hfit : fits t widec cls = true).
Lemma flow_step final R q f b acts q' : flow_ok final R = true -> flows_to R q f = true -> byte_ok b ->
  next t widec q b = (acts, q') -> q' <> 0 ->
  exists f', flow_acts acts f = Some f' /\ if existsb stop acts then final q' f' = true else flows_to R q' f' = true.
Proof.
  intros HR Hq Hb En Hne. pose proof (flows_all _ _ _ _ HR Hq : flow_step_ok final R q f = true) as Hs.
  destruct (covers_class cls b Hcov Hb) as (k & i & Hk%list_elem_of_lookup_2 & Hi).
  rewrite (next_class t widec cls q i b Hfit Hk Hi) in En.
  assert ((existsb stop acts, q', flow_acts acts f) ∈ flow_steps q f) as Hin.
  { unfold flow_steps. apply list_elem_of_omap. exists i. split; [exact Hk|]. rewrite En.
    by rewrite (proj2 (Z.eqb_neq _ _) Hne). }
  pose proof (forallb_in _ _ _ Hs Hin) as Hd. cbn [fst snd] in Hd.
  destruct (flow_acts acts f) as [f'|]; [|done]. exists f'. split; [done|]. by destruct (existsb stop acts).
Qed.

(** [inv f p s]: what [f] says of the state when [p] bytes have been read. *)
Context {S : Type} (act : A -> nat -> S -> outcome S) (bound : nat) (inv : F -> nat -> S -> Prop).
Context (inv_S : forall f p s, inv f p s -> (p < bound)%nat -> inv f (Datatypes.S p) s).
Context (inv_act : forall a f f' p s, inv f p s -> (p < bound)%nat -> flow a f = Some f' ->
  exists s', act a p s = Ret s' /\ inv f' p s').
Lemma flow_run_acts acts f f' p s : inv f p s -> (p < bound)%nat -> flow_acts acts f = Some f' ->
  exists s', run_acts act acts p s = Ret s' /\ inv f' p s'.
Proof.
  revert f s. induction acts as [|a acts IH]; intros f s Hi Hp; cbn; [intros [= <-]; eauto|].
  destruct (flow a f) as [f1|] eqn:E; [|done]. intros Hf. destruct (inv_act a f f1 p s Hi Hp E) as (s1 & -> & Hi1). eauto.
Qed.
Lemma flow_exec final R q f l p s :
  flow_ok final R = true -> flows_to R q f = true -> inv f p s -> Forall byte_ok l -> (p + length l = bound)%nat ->
  exists q' p' s' f', exec t widec act stop q p l s = Ret (q', p', s') /\ (p <= p' <= bound)%nat /\ inv f' p' s' /\
    (q' = 0 \/ flows_to R q' f' = true \/ final q' f' = true).
Proof.
  intros HR. revert q f p s. induction l as [|b l IH]; intros q f p s Hq Hi Hl Hb; cbn [exec length] in *.
  { exists q, p, s, f. split_and!; auto; lia. }
  apply list.Forall_cons in Hl as [Hbb Hl]. destruct (next t widec q b) as [acts q1] eqn:En.
  destruct (Z.eqb_spec q1 0) as [->|Hne]; [exists 0, p, s, f; split_and!; auto; lia|].
  destruct (flow_step final R q f b acts q1 HR Hq Hbb En Hne) as (f1 & Hf & Hst).
  destruct (flow_run_acts acts f f1 p s Hi ltac:(lia) Hf) as (s1 & -> & Hi1). cbn [mbind outcome_bind].
  apply inv_S in Hi1; [|lia]. destruct (existsb stop acts).
  - exists q1, (Datatypes.S p), s1, f1. split_and!; auto; lia.
  - destruct (IH q1 f1 (Datatypes.S p) s1 Hst Hi1 Hl ltac:(lia)) as (q' & p' & s' & f' & -> & Hp & H').
    exists q', p', s', f'. split; [done|]. split; [lia|done].
Qed.

(** Where the run ends: in the error state at the byte after [p'], where the
    program stops, or at the end of the text; the states before go on. *)
Lemma flow_states final R q f l p s q' p' s' :
  flow_ok final R = true -> flows_to R q f = true -> Forall byte_ok l ->
  exec t widec act stop q p l s = Ret (q', p', s') ->
  exists n, p' = (p + n)%nat /\ (n <= length l)%nat /\
    (forall k, (k < n)%nat -> exists f', flows_to R (states t widec q (take k l)) f' = true) /\
    ((q' = 0 /\ states t widec q (take (Datatypes.S n) l) = 0 /\ (exists f', flows_to R (states t widec q (take n l)) f' = true)) \/
     (q' = states t widec q (take n l) /\
      ((exists f', final q' f' = true) \/ (n = length l /\ exists f', flows_to R q' f' = true)))).
Proof.
  intros HR. revert q f p s. induction l as [|b l IH]; intros q f p s Hq Hl He; cbn [exec length] in *.
  { simplify_eq. exists 0%nat. rewrite Nat.add_0_r. split_and!; [done|lia|intros; lia|]. right. split; [done|]. right. eauto. }
  apply list.Forall_cons in Hl as [Hbb Hl]. destruct (next t widec q b) as [acts q1] eqn:En.
  destruct (Z.eqb_spec q1 0) as [->|Hne].
  { simplify_eq. exists 0%nat. rewrite Nat.add_0_r. split_and!; [done|lia|intros; lia|]. left.
    split_and!; [done| |by exists f]. cbn [take states]. by rewrite En. }
  destruct (flow_step final R q f b acts q1 HR Hq Hbb En Hne) as (f1 & Hf & Hst).
  destruct (run_acts act acts p s) as [s1| | |]; try done. cbn [mbind outcome_bind] in He.
  destruct (existsb stop acts).
  { simplify_eq. exists 1%nat. rewrite Nat.add_1_r. split_and!; [done|cbn; lia|intros [|k] Hk; [|lia]; by exists f|].
    right. cbn [take states]. rewrite En, (proj2 (Z.eqb_neq q' 0) Hne). destruct l; cbn [take states]; eauto. }
  destruct (IH q1 f1 (Datatypes.S p) s1 Hst Hl He) as (n & -> & Hn & Hk & Hend). exists (Datatypes.S n).
  rewrite Nat.add_succ_r. cbn [take states]. rewrite En, (proj2 (Z.eqb_neq q1 0) Hne).
  split_and!; [done|lia| |].
  - intros [|k] Hkn; cbn [take states]; [by exists f|]. rewrite En, (proj2 (Z.eqb_neq q1 0) Hne). apply Hk. lia.
  - destruct Hend as [?|[? [?|[-> ?]]]]; auto.
Qed.
End Flow.
