(* ===== verification/UriMachine.v ===== *)
(** * The program of [Uri::Create] (cxk/uri.rl.cpp)

    The labels of the function in their order, a list per region of the file. *)
From S2P Require Import Prelude Ragel.

(** The blocks of statements: [mark = p] (twice), and the setters. *)
Inductive action : Type :=
| Marku | Markh | SaveScheme | SavePort | SaveUserinfo | SaveHost | SavePath | SaveQuery | SaveFragment.
#[export] Instance action_eq_dec : EqDecision action.
Proof. solve_decision. Defined.

Definition uri_parser_start : Z := 451.
Definition uri_parser_first_final : Z := 451.

(** lines 40-187 *)
Definition uri_code_1 : list (item action) := [
  St 451 [(0, 32, st 0); (34, 34, st 0); (35, 35, st 453); (37, 37, st 3); (47, 47, st 458); (58, 58, st 0); (60, 60, st 0); (62, 62, st 0); (63, 63, st 456); (65, 90, tr 461); (91, 94, st 0); (96, 96, st 0); (97, 122, tr 461); (123, 125, st 0); (127, 127, st 0)] (st 452);
  St 452 [(0, 32, st 0); (34, 34, st 0); (35, 35, st 453); (37, 37, st 3); (47, 47, st 455); (58, 58, st 0); (60, 60, st 0); (62, 62, st 0); (63, 63, st 456); (91, 94, st 0); (96, 96, st 0); (123, 125, st 0); (127, 127, st 0)] (st 452);
  Tr 467 [Marku; SaveQuery] 453;
  Tr 469 [SaveQuery] 453;
  Tr 474 [Markh; SaveHost] 453;
  Tr 485 [SaveHost] 453;
  Tr 489 [Markh; SavePort] 453;
  Tr 493 [SavePort] 453;
  Tr 548 [Markh; SaveHost; SavePath] 453;
  Tr 559 [SaveHost; Markh; SavePath] 453].
(** lines 188-325 *)
Definition uri_code_2 : list (item action) := [
  Tr 563 [SavePath] 453;
  Tr 566 [Markh; SavePort; SavePath] 453;
  Tr 570 [SavePort; Markh; SavePath] 453;
  St 453 [(0, 32, st 0); (34, 35, st 0); (37, 37, tr 463); (60, 60, st 0); (62, 62, st 0); (91, 94, st 0); (96, 96, st 0); (123, 125, st 0); (127, 127, st 0)] (tr 462);
  Tr 462 [Marku] 454;
  St 454 [(0, 32, st 0); (34, 35, st 0); (37, 37, st 1); (60, 60, st 0); (62, 62, st 0); (91, 94, st 0); (96, 96, st 0); (123, 125, st 0); (127, 127, st 0)] (st 454);
  Tr 463 [Marku] 1;
  St 1 [(48, 57, st 2); (65, 70, st 2); (97, 102, st 2)] (st 0);
  St 2 [(48, 57, st 454); (65, 70, st 454); (97, 102, st 454)] (st 0);
  St 3 [(48, 57, st 4); (65, 70, st 4); (97, 102, st 4)] (st 0)].
(** lines 326-468 *)
Definition uri_code_3 : list (item action) := [
  St 4 [(48, 57, st 452); (65, 70, st 452); (97, 102, st 452)] (st 0);
  Tr 476 [Markh; SaveHost] 455;
  Tr 486 [SaveHost] 455;
  Tr 490 [Markh; SavePort] 455;
  Tr 494 [SavePort] 455;
  St 455 [(0, 32, st 0); (34, 34, st 0); (35, 35, st 453); (37, 37, st 5); (60, 60, st 0); (62, 62, st 0); (63, 63, st 456); (91, 94, st 0); (96, 96, st 0); (123, 125, st 0); (127, 127, st 0)] (st 455);
  St 5 [(48, 57, st 6); (65, 70, st 6); (97, 102, st 6)] (st 0);
  St 6 [(48, 57, st 455); (65, 70, st 455); (97, 102, st 455)] (st 0);
  Tr 482 [Markh; SaveHost] 456;
  Tr 488 [SaveHost] 456;
  Tr 492 [Markh; SavePort] 456;
  Tr 496 [SavePort] 456].
(** lines 469-612 *)
Definition uri_code_4 : list (item action) := [
  Tr 556 [Markh; SaveHost; SavePath] 456;
  Tr 562 [SaveHost; Markh; SavePath] 456;
  Tr 565 [SavePath] 456;
  Tr 569 [Markh; SavePort; SavePath] 456;
  Tr 573 [SavePort; Markh; SavePath] 456;
  St 456 [(0, 32, st 0); (34, 34, st 0); (35, 35, tr 467); (37, 37, tr 468); (60, 60, st 0); (62, 62, st 0); (91, 94, st 0); (96, 96, st 0); (123, 125, st 0); (127, 127, st 0)] (tr 466);
  Tr 466 [Marku] 457;
  St 457 [(0, 32, st 0); (34, 34, st 0); (35, 35, tr 469); (37, 37, st 7); (60, 60, st 0); (62, 62, st 0); (91, 94, st 0); (96, 96, st 0); (123, 125, st 0); (127, 127, st 0)] (st 457);
  Tr 468 [Marku] 7;
  St 7 [(48, 57, st 8); (65, 70, st 8); (97, 102, st 8)] (st 0)].
(** lines 613-756 *)
Definition uri_code_5 : list (item action) := [
  St 8 [(48, 57, st 457); (65, 70, st 457); (97, 102, st 457)] (st 0);
  St 458 [(0, 32, st 0); (34, 34, st 0); (35, 35, st 453); (37, 37, st 5); (47, 47, st 459); (60, 60, st 0); (62, 62, st 0); (63, 63, st 456); (91, 94, st 0); (96, 96, st 0); (123, 125, st 0); (127, 127, st 0)] (st 455);
  St 459 [(2, 2, tr 472); (33, 33, tr 473); (35, 35, tr 474); (36, 36, tr 473); (37, 37, tr 475); (38, 46, tr 473); (47, 47, tr 476); (48, 48, tr 477); (49, 49, tr 478); (50, 50, tr 479); (51, 57, tr 480); (58, 58, tr 481); (59, 59, tr 473); (61, 61, tr 473); (63, 63, tr 482); (64, 64, tr 483); (65, 90, tr 473); (91, 91, tr 484); (95, 95, tr 473); (97, 122, tr 473); (126, 126, tr 473)] (st 0);
  Tr 472 [Markh] 9;
  St 9 [(48, 52, st 10)] (st 0);
  St 10 [(48, 57, st 11)] (st 0);
  St 11 [(46, 46, st 12)] (st 0);
  St 12 [(2, 2, st 13); (48, 48, st 15); (49, 49, st 27); (50, 50, st 29); (51, 57, st 28)] (st 0);
  St 13 [(48, 52, st 14)] (st 0);
  St 14 [(48, 57, st 15)] (st 0);
  St 15 [(46, 46, st 16)] (st 0);
  St 16 [(2, 2, st 17); (48, 48, st 19); (49, 49, st 23); (50, 50, st 25); (51, 57, st 24)] (st 0)].
(** lines 757-905 *)
Definition uri_code_6 : list (item action) := [
  St 17 [(48, 52, st 18)] (st 0);
  St 18 [(48, 57, st 19)] (st 0);
  St 19 [(46, 46, st 20)] (st 0);
  St 20 [(2, 2, st 21); (48, 48, st 460); (49, 49, st 463); (50, 50, st 465); (51, 57, st 464)] (st 0);
  St 21 [(48, 52, st 22)] (st 0);
  St 22 [(48, 57, st 460)] (st 0);
  St 460 [(35, 35, tr 485); (47, 47, tr 486); (58, 58, tr 487); (63, 63, tr 488)] (st 0);
  Tr 507 [Markh; SaveHost] 461;
  Tr 487 [SaveHost] 461;
  St 461 [(35, 35, tr 489); (47, 47, tr 490); (48, 57, tr 491); (63, 63, tr 492)] (st 0);
  Tr 491 [Markh] 462;
  St 462 [(35, 35, tr 493); (47, 47, tr 494); (48, 57, st 462); (63, 63, tr 496)] (st 0);
  St 463 [(35, 35, tr 485); (47, 47, tr 486); (48, 57, st 464); (58, 58, tr 487); (63, 63, tr 488)] (st 0);
  St 464 [(35, 35, tr 485); (47, 47, tr 486); (48, 57, st 460); (58, 58, tr 487); (63, 63, tr 488)] (st 0);
  St 465 [(35, 35, tr 485); (47, 47, tr 486); (48, 52, st 460); (53, 53, st 466); (54, 57, st 460); (58, 58, tr 487); (63, 63, tr 488)] (st 0)].
(** lines 906-1055 *)
Definition uri_code_7 : list (item action) := [
  St 466 [(35, 35, tr 485); (47, 47, tr 486); (48, 53, st 460); (58, 58, tr 487); (63, 63, tr 488)] (st 0);
  St 23 [(46, 46, st 20); (48, 57, st 24)] (st 0);
  St 24 [(46, 46, st 20); (48, 57, st 19)] (st 0);
  St 25 [(46, 46, st 20); (48, 52, st 19); (53, 53, st 26); (54, 57, st 19)] (st 0);
  St 26 [(46, 46, st 20); (48, 53, st 19)] (st 0);
  St 27 [(46, 46, st 16); (48, 57, st 28)] (st 0);
  St 28 [(46, 46, st 16); (48, 57, st 15)] (st 0);
  St 29 [(46, 46, st 16); (48, 52, st 15); (53, 53, st 30); (54, 57, st 15)] (st 0);
  St 30 [(46, 46, st 16); (48, 53, st 15)] (st 0);
  Tr 473 [Markh] 467;
  St 467 [(33, 33, st 467); (35, 35, tr 485); (36, 36, st 467); (37, 37, st 31); (38, 46, st 467); (47, 47, tr 486); (48, 57, st 467); (58, 58, tr 499); (59, 59, st 467); (61, 61, st 467); (63, 63, tr 488); (64, 64, tr 38); (65, 90, st 467); (95, 95, st 467); (97, 122, st 467); (126, 126, st 467)] (st 0);
  Tr 475 [Markh] 31;
  St 31 [(48, 57, st 32); (65, 70, st 32); (97, 102, st 32)] (st 0);
  St 32 [(48, 57, st 467); (65, 70, st 467); (97, 102, st 467)] (st 0)].
(** lines 1056-1178 *)
Definition uri_code_8 : list (item action) := [
  Tr 481 [Markh; SaveHost] 468;
  Tr 499 [SaveHost] 468;
  St 468 [(33, 33, st 33); (35, 35, tr 489); (36, 36, st 33); (37, 37, st 34); (38, 46, st 33); (47, 47, tr 490); (48, 57, tr 500); (58, 59, st 33); (61, 61, st 33); (63, 63, tr 492); (64, 64, tr 38); (65, 90, st 33); (95, 95, st 33); (97, 122, st 33); (126, 126, st 33)] (st 0);
  St 33 [(33, 33, st 33); (36, 36, st 33); (37, 37, st 34); (38, 46, st 33); (48, 59, st 33); (61, 61, st 33); (64, 64, tr 38); (65, 90, st 33); (95, 95, st 33); (97, 122, st 33); (126, 126, st 33)] (st 0);
  St 34 [(48, 57, st 35); (65, 70, st 35); (97, 102, st 35)] (st 0);
  St 35 [(48, 57, st 33); (65, 70, st 33); (97, 102, st 33)] (st 0);
  Tr 38 [SaveUserinfo] 469;
  Tr 483 [Markh; SaveUserinfo] 469].
(** lines 1179-1302 *)
Definition uri_code_9 : list (item action) := [
  St 469 [(2, 2, tr 472); (33, 33, tr 501); (35, 35, tr 474); (36, 36, tr 501); (37, 37, tr 502); (38, 46, tr 501); (47, 47, tr 476); (48, 48, tr 503); (49, 49, tr 504); (50, 50, tr 505); (51, 57, tr 506); (58, 58, tr 507); (59, 59, tr 501); (61, 61, tr 501); (63, 63, tr 482); (65, 90, tr 501); (91, 91, tr 484); (95, 95, tr 501); (97, 122, tr 501); (126, 126, tr 501)] (st 0);
  Tr 501 [Markh] 470;
  St 470 [(33, 33, st 470); (35, 35, tr 485); (36, 36, st 470); (37, 37, st 36); (38, 46, st 470); (47, 47, tr 486); (48, 57, st 470); (58, 58, tr 487); (59, 59, st 470); (61, 61, st 470); (63, 63, tr 488); (65, 90, st 470); (95, 95, st 470); (97, 122, st 470); (126, 126, st 470)] (st 0);
  Tr 502 [Markh] 36;
  St 36 [(48, 57, st 37); (65, 70, st 37); (97, 102, st 37)] (st 0);
  St 37 [(48, 57, st 470); (65, 70, st 470); (97, 102, st 470)] (st 0);
  Tr 503 [Markh] 471;
  St 471 [(33, 33, st 470); (35, 35, tr 485); (36, 36, st 470); (37, 37, st 36); (38, 45, st 470); (46, 46, st 472); (47, 47, tr 486); (48, 57, st 470); (58, 58, tr 487); (59, 59, st 470); (61, 61, st 470); (63, 63, tr 488); (65, 90, st 470); (95, 95, st 470); (97, 122, st 470); (126, 126, st 470)] (st 0)].
(** lines 1303-1441 *)
Definition uri_code_10 : list (item action) := [
  St 472 [(2, 2, st 13); (33, 33, st 470); (35, 35, tr 485); (36, 36, st 470); (37, 37, st 36); (38, 46, st 470); (47, 47, tr 486); (48, 48, st 473); (49, 49, st 481); (50, 50, st 483); (51, 57, st 482); (58, 58, tr 487); (59, 59, st 470); (61, 61, st 470); (63, 63, tr 488); (65, 90, st 470); (95, 95, st 470); (97, 122, st 470); (126, 126, st 470)] (st 0);
  St 473 [(33, 33, st 470); (35, 35, tr 485); (36, 36, st 470); (37, 37, st 36); (38, 45, st 470); (46, 46, st 474); (47, 47, tr 486); (48, 57, st 470); (58, 58, tr 487); (59, 59, st 470); (61, 61, st 470); (63, 63, tr 488); (65, 90, st 470); (95, 95, st 470); (97, 122, st 470); (126, 126, st 470)] (st 0);
  St 474 [(2, 2, st 17); (33, 33, st 470); (35, 35, tr 485); (36, 36, st 470); (37, 37, st 36); (38, 46, st 470); (47, 47, tr 486); (48, 48, st 475); (49, 49, st 477); (50, 50, st 479); (51, 57, st 478); (58, 58, tr 487); (59, 59, st 470); (61, 61, st 470); (63, 63, tr 488); (65, 90, st 470); (95, 95, st 470); (97, 122, st 470); (126, 126, st 470)] (st 0);
  St 475 [(33, 33, st 470); (35, 35, tr 485); (36, 36, st 470); (37, 37, st 36); (38, 45, st 470); (46, 46, st 476); (47, 47, tr 486); (48, 57, st 470); (58, 58, tr 487); (59, 59, st 470); (61, 61, st 470); (63, 63, tr 488); (65, 90, st 470); (95, 95, st 470); (97, 122, st 470); (126, 126, st 470)] (st 0);
  St 476 [(2, 2, st 21); (33, 33, st 470); (35, 35, tr 485); (36, 36, st 470); (37, 37, st 36); (38, 46, st 470); (47, 47, tr 486); (48, 57, st 470); (58, 58, tr 487); (59, 59, st 470); (61, 61, st 470); (63, 63, tr 488); (65, 90, st 470); (95, 95, st 470); (97, 122, st 470); (126, 126, st 470)] (st 0)].
(** lines 1442-1589 *)
Definition uri_code_11 : list (item action) := [
  St 477 [(33, 33, st 470); (35, 35, tr 485); (36, 36, st 470); (37, 37, st 36); (38, 45, st 470); (46, 46, st 476); (47, 47, tr 486); (48, 57, st 478); (58, 58, tr 487); (59, 59, st 470); (61, 61, st 470); (63, 63, tr 488); (65, 90, st 470); (95, 95, st 470); (97, 122, st 470); (126, 126, st 470)] (st 0);
  St 478 [(33, 33, st 470); (35, 35, tr 485); (36, 36, st 470); (37, 37, st 36); (38, 45, st 470); (46, 46, st 476); (47, 47, tr 486); (48, 57, st 475); (58, 58, tr 487); (59, 59, st 470); (61, 61, st 470); (63, 63, tr 488); (65, 90, st 470); (95, 95, st 470); (97, 122, st 470); (126, 126, st 470)] (st 0);
  St 479 [(33, 33, st 470); (35, 35, tr 485); (36, 36, st 470); (37, 37, st 36); (38, 45, st 470); (46, 46, st 476); (47, 47, tr 486); (48, 52, st 475); (53, 53, st 480); (54, 57, st 475); (58, 58, tr 487); (59, 59, st 470); (61, 61, st 470); (63, 63, tr 488); (65, 90, st 470); (95, 95, st 470); (97, 122, st 470); (126, 126, st 470)] (st 0);
  St 480 [(33, 33, st 470); (35, 35, tr 485); (36, 36, st 470); (37, 37, st 36); (38, 45, st 470); (46, 46, st 476); (47, 47, tr 486); (48, 53, st 475); (54, 57, st 470); (58, 58, tr 487); (59, 59, st 470); (61, 61, st 470); (63, 63, tr 488); (65, 90, st 470); (95, 95, st 470); (97, 122, st 470); (126, 126, st 470)] (st 0);
  St 481 [(33, 33, st 470); (35, 35, tr 485); (36, 36, st 470); (37, 37, st 36); (38, 45, st 470); (46, 46, st 474); (47, 47, tr 486); (48, 57, st 482); (58, 58, tr 487); (59, 59, st 470); (61, 61, st 470); (63, 63, tr 488); (65, 90, st 470); (95, 95, st 470); (97, 122, st 470); (126, 126, st 470)] (st 0)].
(** lines 1590-1717 *)
Definition uri_code_12 : list (item action) := [
  St 482 [(33, 33, st 470); (35, 35, tr 485); (36, 36, st 470); (37, 37, st 36); (38, 45, st 470); (46, 46, st 474); (47, 47, tr 486); (48, 57, st 473); (58, 58, tr 487); (59, 59, st 470); (61, 61, st 470); (63, 63, tr 488); (65, 90, st 470); (95, 95, st 470); (97, 122, st 470); (126, 126, st 470)] (st 0);
  St 483 [(33, 33, st 470); (35, 35, tr 485); (36, 36, st 470); (37, 37, st 36); (38, 45, st 470); (46, 46, st 474); (47, 47, tr 486); (48, 52, st 473); (53, 53, st 484); (54, 57, st 473); (58, 58, tr 487); (59, 59, st 470); (61, 61, st 470); (63, 63, tr 488); (65, 90, st 470); (95, 95, st 470); (97, 122, st 470); (126, 126, st 470)] (st 0);
  St 484 [(33, 33, st 470); (35, 35, tr 485); (36, 36, st 470); (37, 37, st 36); (38, 45, st 470); (46, 46, st 474); (47, 47, tr 486); (48, 53, st 473); (54, 57, st 470); (58, 58, tr 487); (59, 59, st 470); (61, 61, st 470); (63, 63, tr 488); (65, 90, st 470); (95, 95, st 470); (97, 122, st 470); (126, 126, st 470)] (st 0);
  Tr 504 [Markh] 485;
  St 485 [(33, 33, st 470); (35, 35, tr 485); (36, 36, st 470); (37, 37, st 36); (38, 45, st 470); (46, 46, st 472); (47, 47, tr 486); (48, 57, st 486); (58, 58, tr 487); (59, 59, st 470); (61, 61, st 470); (63, 63, tr 488); (65, 90, st 470); (95, 95, st 470); (97, 122, st 470); (126, 126, st 470)] (st 0);
  Tr 506 [Markh] 486].
(** lines 1718-1865 *)
Definition uri_code_13 : list (item action) := [
  St 486 [(33, 33, st 470); (35, 35, tr 485); (36, 36, st 470); (37, 37, st 36); (38, 45, st 470); (46, 46, st 472); (47, 47, tr 486); (48, 57, st 471); (58, 58, tr 487); (59, 59, st 470); (61, 61, st 470); (63, 63, tr 488); (65, 90, st 470); (95, 95, st 470); (97, 122, st 470); (126, 126, st 470)] (st 0);
  Tr 505 [Markh] 487;
  St 487 [(33, 33, st 470); (35, 35, tr 485); (36, 36, st 470); (37, 37, st 36); (38, 45, st 470); (46, 46, st 472); (47, 47, tr 486); (48, 52, st 471); (53, 53, st 488); (54, 57, st 471); (58, 58, tr 487); (59, 59, st 470); (61, 61, st 470); (63, 63, tr 488); (65, 90, st 470); (95, 95, st 470); (97, 122, st 470); (126, 126, st 470)] (st 0);
  St 488 [(33, 33, st 470); (35, 35, tr 485); (36, 36, st 470); (37, 37, st 36); (38, 45, st 470); (46, 46, st 472); (47, 47, tr 486); (48, 53, st 471); (54, 57, st 470); (58, 58, tr 487); (59, 59, st 470); (61, 61, st 470); (63, 63, tr 488); (65, 90, st 470); (95, 95, st 470); (97, 122, st 470); (126, 126, st 470)] (st 0);
  Tr 484 [Markh] 38;
  St 38 [(48, 57, st 39); (58, 58, st 146); (65, 70, st 39); (97, 102, st 39); (118, 118, st 225)] (st 0);
  St 39 [(48, 57, st 40); (58, 58, st 43); (65, 70, st 40); (97, 102, st 40)] (st 0);
  St 40 [(48, 57, st 41); (58, 58, st 43); (65, 70, st 41); (97, 102, st 41)] (st 0)].
(** lines 1866-2014 *)
Definition uri_code_14 : list (item action) := [
  St 41 [(48, 57, st 42); (58, 58, st 43); (65, 70, st 42); (97, 102, st 42)] (st 0);
  St 42 [(58, 58, st 43)] (st 0);
  St 43 [(48, 57, st 44); (58, 58, st 141); (65, 70, st 44); (97, 102, st 44)] (st 0);
  St 44 [(48, 57, st 45); (58, 58, st 48); (65, 70, st 45); (97, 102, st 45)] (st 0);
  St 45 [(48, 57, st 46); (58, 58, st 48); (65, 70, st 46); (97, 102, st 46)] (st 0);
  St 46 [(48, 57, st 47); (58, 58, st 48); (65, 70, st 47); (97, 102, st 47)] (st 0);
  St 47 [(58, 58, st 48)] (st 0);
  St 48 [(48, 57, st 49); (58, 58, st 136); (65, 70, st 49); (97, 102, st 49)] (st 0);
  St 49 [(48, 57, st 50); (58, 58, st 53); (65, 70, st 50); (97, 102, st 50)] (st 0);
  St 50 [(48, 57, st 51); (58, 58, st 53); (65, 70, st 51); (97, 102, st 51)] (st 0);
  St 51 [(48, 57, st 52); (58, 58, st 53); (65, 70, st 52); (97, 102, st 52)] (st 0)].
(** lines 2015-2155 *)
Definition uri_code_15 : list (item action) := [
  St 52 [(58, 58, st 53)] (st 0);
  St 53 [(48, 57, st 54); (58, 58, st 131); (65, 70, st 54); (97, 102, st 54)] (st 0);
  St 54 [(48, 57, st 55); (58, 58, st 58); (65, 70, st 55); (97, 102, st 55)] (st 0);
  St 55 [(48, 57, st 56); (58, 58, st 58); (65, 70, st 56); (97, 102, st 56)] (st 0);
  St 56 [(48, 57, st 57); (58, 58, st 58); (65, 70, st 57); (97, 102, st 57)] (st 0);
  St 57 [(58, 58, st 58)] (st 0);
  St 58 [(48, 57, st 59); (58, 58, st 126); (65, 70, st 59); (97, 102, st 59)] (st 0);
  St 59 [(48, 57, st 60); (58, 58, st 63); (65, 70, st 60); (97, 102, st 60)] (st 0);
  St 60 [(48, 57, st 61); (58, 58, st 63); (65, 70, st 61); (97, 102, st 61)] (st 0);
  St 61 [(48, 57, st 62); (58, 58, st 63); (65, 70, st 62); (97, 102, st 62)] (st 0);
  St 62 [(58, 58, st 63)] (st 0)].
(** lines 2156-2297 *)
Definition uri_code_16 : list (item action) := [
  St 63 [(48, 57, st 64); (58, 58, st 113); (65, 70, st 64); (97, 102, st 64)] (st 0);
  St 64 [(48, 57, st 65); (58, 58, st 68); (65, 70, st 65); (97, 102, st 65)] (st 0);
  St 65 [(48, 57, st 66); (58, 58, st 68); (65, 70, st 66); (97, 102, st 66)] (st 0);
  St 66 [(48, 57, st 67); (58, 58, st 68); (65, 70, st 67); (97, 102, st 67)] (st 0);
  St 67 [(58, 58, st 68)] (st 0);
  St 68 [(2, 2, st 69); (48, 48, st 96); (49, 49, st 104); (50, 50, st 107); (51, 57, st 110); (58, 58, st 111); (65, 70, st 112); (97, 102, st 112)] (st 0);
  St 69 [(48, 52, st 70)] (st 0);
  St 70 [(48, 57, st 71)] (st 0);
  St 71 [(46, 46, st 72)] (st 0);
  St 72 [(2, 2, st 73); (48, 48, st 75); (49, 49, st 92); (50, 50, st 94); (51, 57, st 93)] (st 0);
  St 73 [(48, 52, st 74)] (st 0);
  St 74 [(48, 57, st 75)] (st 0);
  St 75 [(46, 46, st 76)] (st 0)].
(** lines 2298-2441 *)
Definition uri_code_17 : list (item action) := [
  St 76 [(2, 2, st 77); (48, 48, st 79); (49, 49, st 88); (50, 50, st 90); (51, 57, st 89)] (st 0);
  St 77 [(48, 52, st 78)] (st 0);
  St 78 [(48, 57, st 79)] (st 0);
  St 79 [(46, 46, st 80)] (st 0);
  St 80 [(2, 2, st 81); (48, 48, st 83); (49, 49, st 84); (50, 50, st 86); (51, 57, st 85)] (st 0);
  St 81 [(48, 52, st 82)] (st 0);
  St 82 [(48, 57, st 83)] (st 0);
  St 83 [(93, 93, st 460)] (st 0);
  St 84 [(48, 57, st 85); (93, 93, st 460)] (st 0);
  St 85 [(48, 57, st 83); (93, 93, st 460)] (st 0);
  St 86 [(48, 52, st 83); (53, 53, st 87); (54, 57, st 83); (93, 93, st 460)] (st 0);
  St 87 [(48, 53, st 83); (93, 93, st 460)] (st 0);
  St 88 [(46, 46, st 80); (48, 57, st 89)] (st 0);
  St 89 [(46, 46, st 80); (48, 57, st 79)] (st 0);
  St 90 [(46, 46, st 80); (48, 52, st 79); (53, 53, st 91); (54, 57, st 79)] (st 0);
  St 91 [(46, 46, st 80); (48, 53, st 79)] (st 0)].
(** lines 2442-2578 *)
Definition uri_code_18 : list (item action) := [
  St 92 [(46, 46, st 76); (48, 57, st 93)] (st 0);
  St 93 [(46, 46, st 76); (48, 57, st 75)] (st 0);
  St 94 [(46, 46, st 76); (48, 52, st 75); (53, 53, st 95); (54, 57, st 75)] (st 0);
  St 95 [(46, 46, st 76); (48, 53, st 75)] (st 0);
  St 96 [(46, 46, st 72); (48, 57, st 97); (58, 58, st 100); (65, 70, st 97); (97, 102, st 97)] (st 0);
  St 97 [(48, 57, st 98); (58, 58, st 100); (65, 70, st 98); (97, 102, st 98)] (st 0);
  St 98 [(48, 57, st 99); (58, 58, st 100); (65, 70, st 99); (97, 102, st 99)] (st 0);
  St 99 [(58, 58, st 100)] (st 0);
  St 100 [(48, 57, st 101); (58, 58, st 83); (65, 70, st 101); (97, 102, st 101)] (st 0);
  St 101 [(48, 57, st 102); (65, 70, st 102); (93, 93, st 460); (97, 102, st 102)] (st 0);
  St 102 [(48, 57, st 103); (65, 70, st 103); (93, 93, st 460); (97, 102, st 103)] (st 0)].
(** lines 2579-2716 *)
Definition uri_code_19 : list (item action) := [
  St 103 [(48, 57, st 83); (65, 70, st 83); (93, 93, st 460); (97, 102, st 83)] (st 0);
  St 104 [(46, 46, st 72); (48, 57, st 105); (58, 58, st 100); (65, 70, st 97); (97, 102, st 97)] (st 0);
  St 105 [(46, 46, st 72); (48, 57, st 106); (58, 58, st 100); (65, 70, st 98); (97, 102, st 98)] (st 0);
  St 106 [(46, 46, st 72); (48, 57, st 99); (58, 58, st 100); (65, 70, st 99); (97, 102, st 99)] (st 0);
  St 107 [(46, 46, st 72); (48, 52, st 108); (53, 53, st 109); (54, 57, st 108); (58, 58, st 100); (65, 70, st 97); (97, 102, st 97)] (st 0);
  St 108 [(46, 46, st 72); (48, 57, st 98); (58, 58, st 100); (65, 70, st 98); (97, 102, st 98)] (st 0);
  St 109 [(46, 46, st 72); (48, 53, st 106); (54, 57, st 98); (58, 58, st 100); (65, 70, st 98); (97, 102, st 98)] (st 0);
  St 110 [(46, 46, st 72); (48, 57, st 108); (58, 58, st 100); (65, 70, st 97); (97, 102, st 97)] (st 0)].
(** lines 2717-2851 *)
Definition uri_code_20 : list (item action) := [
  St 111 [(48, 57, st 101); (65, 70, st 101); (97, 102, st 101)] (st 0);
  St 112 [(48, 57, st 97); (58, 58, st 100); (65, 70, st 97); (97, 102, st 97)] (st 0);
  St 113 [(2, 2, st 69); (48, 48, st 114); (49, 49, st 118); (50, 50, st 121); (51, 57, st 124); (65, 70, st 125); (97, 102, st 125)] (st 0);
  St 114 [(46, 46, st 72); (48, 57, st 115); (58, 58, st 111); (65, 70, st 115); (97, 102, st 115)] (st 0);
  St 115 [(48, 57, st 116); (58, 58, st 111); (65, 70, st 116); (97, 102, st 116)] (st 0);
  St 116 [(48, 57, st 117); (58, 58, st 111); (65, 70, st 117); (97, 102, st 117)] (st 0);
  St 117 [(58, 58, st 111)] (st 0);
  St 118 [(46, 46, st 72); (48, 57, st 119); (58, 58, st 111); (65, 70, st 115); (97, 102, st 115)] (st 0);
  St 119 [(46, 46, st 72); (48, 57, st 120); (58, 58, st 111); (65, 70, st 116); (97, 102, st 116)] (st 0)].
(** lines 2852-2998 *)
Definition uri_code_21 : list (item action) := [
  St 120 [(46, 46, st 72); (48, 57, st 117); (58, 58, st 111); (65, 70, st 117); (97, 102, st 117)] (st 0);
  St 121 [(46, 46, st 72); (48, 52, st 122); (53, 53, st 123); (54, 57, st 122); (58, 58, st 111); (65, 70, st 115); (97, 102, st 115)] (st 0);
  St 122 [(46, 46, st 72); (48, 57, st 116); (58, 58, st 111); (65, 70, st 116); (97, 102, st 116)] (st 0);
  St 123 [(46, 46, st 72); (48, 53, st 120); (54, 57, st 116); (58, 58, st 111); (65, 70, st 116); (97, 102, st 116)] (st 0);
  St 124 [(46, 46, st 72); (48, 57, st 122); (58, 58, st 111); (65, 70, st 115); (97, 102, st 115)] (st 0);
  St 125 [(48, 57, st 115); (58, 58, st 111); (65, 70, st 115); (97, 102, st 115)] (st 0);
  St 126 [(48, 57, st 127); (65, 70, st 127); (97, 102, st 127)] (st 0);
  St 127 [(48, 57, st 128); (58, 58, st 113); (65, 70, st 128); (97, 102, st 128)] (st 0);
  St 128 [(48, 57, st 129); (58, 58, st 113); (65, 70, st 129); (97, 102, st 129)] (st 0)].
(** lines 2999-3143 *)
Definition uri_code_22 : list (item action) := [
  St 129 [(48, 57, st 130); (58, 58, st 113); (65, 70, st 130); (97, 102, st 130)] (st 0);
  St 130 [(58, 58, st 113)] (st 0);
  St 131 [(48, 57, st 132); (65, 70, st 132); (97, 102, st 132)] (st 0);
  St 132 [(48, 57, st 133); (58, 58, st 126); (65, 70, st 133); (97, 102, st 133)] (st 0);
  St 133 [(48, 57, st 134); (58, 58, st 126); (65, 70, st 134); (97, 102, st 134)] (st 0);
  St 134 [(48, 57, st 135); (58, 58, st 126); (65, 70, st 135); (97, 102, st 135)] (st 0);
  St 135 [(58, 58, st 126)] (st 0);
  St 136 [(48, 57, st 137); (65, 70, st 137); (97, 102, st 137)] (st 0);
  St 137 [(48, 57, st 138); (58, 58, st 131); (65, 70, st 138); (97, 102, st 138)] (st 0);
  St 138 [(48, 57, st 139); (58, 58, st 131); (65, 70, st 139); (97, 102, st 139)] (st 0);
  St 139 [(48, 57, st 140); (58, 58, st 131); (65, 70, st 140); (97, 102, st 140)] (st 0)].
(** lines 3144-3277 *)
Definition uri_code_23 : list (item action) := [
  St 140 [(58, 58, st 131)] (st 0);
  St 141 [(48, 57, st 142); (65, 70, st 142); (97, 102, st 142)] (st 0);
  St 142 [(48, 57, st 143); (58, 58, st 136); (65, 70, st 143); (97, 102, st 143)] (st 0);
  St 143 [(48, 57, st 144); (58, 58, st 136); (65, 70, st 144); (97, 102, st 144)] (st 0);
  St 144 [(48, 57, st 145); (58, 58, st 136); (65, 70, st 145); (97, 102, st 145)] (st 0);
  St 145 [(58, 58, st 136)] (st 0);
  St 146 [(58, 58, st 147)] (st 0);
  St 147 [(2, 2, st 69); (48, 48, st 148); (49, 49, st 217); (50, 50, st 220); (51, 57, st 223); (65, 70, st 224); (93, 93, st 460); (97, 102, st 224)] (st 0);
  St 148 [(46, 46, st 72); (48, 57, st 149); (58, 58, st 152); (65, 70, st 149); (93, 93, st 460); (97, 102, st 149)] (st 0);
  St 149 [(48, 57, st 150); (58, 58, st 152); (65, 70, st 150); (93, 93, st 460); (97, 102, st 150)] (st 0)].
(** lines 3278-3420 *)
Definition uri_code_24 : list (item action) := [
  St 150 [(48, 57, st 151); (58, 58, st 152); (65, 70, st 151); (93, 93, st 460); (97, 102, st 151)] (st 0);
  St 151 [(58, 58, st 152); (93, 93, st 460)] (st 0);
  St 152 [(2, 2, st 69); (48, 48, st 153); (49, 49, st 209); (50, 50, st 212); (51, 57, st 215); (65, 70, st 216); (97, 102, st 216)] (st 0);
  St 153 [(46, 46, st 72); (48, 57, st 154); (58, 58, st 157); (65, 70, st 154); (93, 93, st 460); (97, 102, st 154)] (st 0);
  St 154 [(48, 57, st 155); (58, 58, st 157); (65, 70, st 155); (93, 93, st 460); (97, 102, st 155)] (st 0);
  St 155 [(48, 57, st 156); (58, 58, st 157); (65, 70, st 156); (93, 93, st 460); (97, 102, st 156)] (st 0);
  St 156 [(58, 58, st 157); (93, 93, st 460)] (st 0);
  St 157 [(2, 2, st 69); (48, 48, st 158); (49, 49, st 201); (50, 50, st 204); (51, 57, st 207); (65, 70, st 208); (97, 102, st 208)] (st 0);
  St 158 [(46, 46, st 72); (48, 57, st 159); (58, 58, st 162); (65, 70, st 159); (93, 93, st 460); (97, 102, st 159)] (st 0)].
(** lines 3421-3562 *)
Definition uri_code_25 : list (item action) := [
  St 159 [(48, 57, st 160); (58, 58, st 162); (65, 70, st 160); (93, 93, st 460); (97, 102, st 160)] (st 0);
  St 160 [(48, 57, st 161); (58, 58, st 162); (65, 70, st 161); (93, 93, st 460); (97, 102, st 161)] (st 0);
  St 161 [(58, 58, st 162); (93, 93, st 460)] (st 0);
  St 162 [(2, 2, st 69); (48, 48, st 163); (49, 49, st 193); (50, 50, st 196); (51, 57, st 199); (65, 70, st 200); (97, 102, st 200)] (st 0);
  St 163 [(46, 46, st 72); (48, 57, st 164); (58, 58, st 167); (65, 70, st 164); (93, 93, st 460); (97, 102, st 164)] (st 0);
  St 164 [(48, 57, st 165); (58, 58, st 167); (65, 70, st 165); (93, 93, st 460); (97, 102, st 165)] (st 0);
  St 165 [(48, 57, st 166); (58, 58, st 167); (65, 70, st 166); (93, 93, st 460); (97, 102, st 166)] (st 0);
  St 166 [(58, 58, st 167); (93, 93, st 460)] (st 0);
  St 167 [(2, 2, st 69); (48, 48, st 168); (49, 49, st 185); (50, 50, st 188); (51, 57, st 191); (65, 70, st 192); (97, 102, st 192)] (st 0)].
(** lines 3563-3703 *)
Definition uri_code_26 : list (item action) := [
  St 168 [(46, 46, st 72); (48, 57, st 169); (58, 58, st 172); (65, 70, st 169); (93, 93, st 460); (97, 102, st 169)] (st 0);
  St 169 [(48, 57, st 170); (58, 58, st 172); (65, 70, st 170); (93, 93, st 460); (97, 102, st 170)] (st 0);
  St 170 [(48, 57, st 171); (58, 58, st 172); (65, 70, st 171); (93, 93, st 460); (97, 102, st 171)] (st 0);
  St 171 [(58, 58, st 172); (93, 93, st 460)] (st 0);
  St 172 [(2, 2, st 69); (48, 48, st 173); (49, 49, st 177); (50, 50, st 180); (51, 57, st 183); (65, 70, st 184); (97, 102, st 184)] (st 0);
  St 173 [(46, 46, st 72); (48, 57, st 174); (58, 58, st 111); (65, 70, st 174); (93, 93, st 460); (97, 102, st 174)] (st 0);
  St 174 [(48, 57, st 175); (58, 58, st 111); (65, 70, st 175); (93, 93, st 460); (97, 102, st 175)] (st 0);
  St 175 [(48, 57, st 176); (58, 58, st 111); (65, 70, st 176); (93, 93, st 460); (97, 102, st 176)] (st 0);
  St 176 [(58, 58, st 111); (93, 93, st 460)] (st 0)].
(** lines 3704-3850 *)
Definition uri_code_27 : list (item action) := [
  St 177 [(46, 46, st 72); (48, 57, st 178); (58, 58, st 111); (65, 70, st 174); (93, 93, st 460); (97, 102, st 174)] (st 0);
  St 178 [(46, 46, st 72); (48, 57, st 179); (58, 58, st 111); (65, 70, st 175); (93, 93, st 460); (97, 102, st 175)] (st 0);
  St 179 [(46, 46, st 72); (48, 57, st 176); (58, 58, st 111); (65, 70, st 176); (93, 93, st 460); (97, 102, st 176)] (st 0);
  St 180 [(46, 46, st 72); (48, 52, st 181); (53, 53, st 182); (54, 57, st 181); (58, 58, st 111); (65, 70, st 174); (93, 93, st 460); (97, 102, st 174)] (st 0);
  St 181 [(46, 46, st 72); (48, 57, st 175); (58, 58, st 111); (65, 70, st 175); (93, 93, st 460); (97, 102, st 175)] (st 0);
  St 182 [(46, 46, st 72); (48, 53, st 179); (54, 57, st 175); (58, 58, st 111); (65, 70, st 175); (93, 93, st 460); (97, 102, st 175)] (st 0);
  St 183 [(46, 46, st 72); (48, 57, st 181); (58, 58, st 111); (65, 70, st 174); (93, 93, st 460); (97, 102, st 174)] (st 0);
  St 184 [(48, 57, st 174); (58, 58, st 111); (65, 70, st 174); (93, 93, st 460); (97, 102, st 174)] (st 0)].
(** lines 3851-3997 *)
Definition uri_code_28 : list (item action) := [
  St 185 [(46, 46, st 72); (48, 57, st 186); (58, 58, st 172); (65, 70, st 169); (93, 93, st 460); (97, 102, st 169)] (st 0);
  St 186 [(46, 46, st 72); (48, 57, st 187); (58, 58, st 172); (65, 70, st 170); (93, 93, st 460); (97, 102, st 170)] (st 0);
  St 187 [(46, 46, st 72); (48, 57, st 171); (58, 58, st 172); (65, 70, st 171); (93, 93, st 460); (97, 102, st 171)] (st 0);
  St 188 [(46, 46, st 72); (48, 52, st 189); (53, 53, st 190); (54, 57, st 189); (58, 58, st 172); (65, 70, st 169); (93, 93, st 460); (97, 102, st 169)] (st 0);
  St 189 [(46, 46, st 72); (48, 57, st 170); (58, 58, st 172); (65, 70, st 170); (93, 93, st 460); (97, 102, st 170)] (st 0);
  St 190 [(46, 46, st 72); (48, 53, st 187); (54, 57, st 170); (58, 58, st 172); (65, 70, st 170); (93, 93, st 460); (97, 102, st 170)] (st 0);
  St 191 [(46, 46, st 72); (48, 57, st 189); (58, 58, st 172); (65, 70, st 169); (93, 93, st 460); (97, 102, st 169)] (st 0);
  St 192 [(48, 57, st 169); (58, 58, st 172); (65, 70, st 169); (93, 93, st 460); (97, 102, st 169)] (st 0)].
(** lines 3998-4144 *)
Definition uri_code_29 : list (item action) := [
  St 193 [(46, 46, st 72); (48, 57, st 194); (58, 58, st 167); (65, 70, st 164); (93, 93, st 460); (97, 102, st 164)] (st 0);
  St 194 [(46, 46, st 72); (48, 57, st 195); (58, 58, st 167); (65, 70, st 165); (93, 93, st 460); (97, 102, st 165)] (st 0);
  St 195 [(46, 46, st 72); (48, 57, st 166); (58, 58, st 167); (65, 70, st 166); (93, 93, st 460); (97, 102, st 166)] (st 0);
  St 196 [(46, 46, st 72); (48, 52, st 197); (53, 53, st 198); (54, 57, st 197); (58, 58, st 167); (65, 70, st 164); (93, 93, st 460); (97, 102, st 164)] (st 0);
  St 197 [(46, 46, st 72); (48, 57, st 165); (58, 58, st 167); (65, 70, st 165); (93, 93, st 460); (97, 102, st 165)] (st 0);
  St 198 [(46, 46, st 72); (48, 53, st 195); (54, 57, st 165); (58, 58, st 167); (65, 70, st 165); (93, 93, st 460); (97, 102, st 165)] (st 0);
  St 199 [(46, 46, st 72); (48, 57, st 197); (58, 58, st 167); (65, 70, st 164); (93, 93, st 460); (97, 102, st 164)] (st 0);
  St 200 [(48, 57, st 164); (58, 58, st 167); (65, 70, st 164); (93, 93, st 460); (97, 102, st 164)] (st 0)].
(** lines 4145-4291 *)
Definition uri_code_30 : list (item action) := [
  St 201 [(46, 46, st 72); (48, 57, st 202); (58, 58, st 162); (65, 70, st 159); (93, 93, st 460); (97, 102, st 159)] (st 0);
  St 202 [(46, 46, st 72); (48, 57, st 203); (58, 58, st 162); (65, 70, st 160); (93, 93, st 460); (97, 102, st 160)] (st 0);
  St 203 [(46, 46, st 72); (48, 57, st 161); (58, 58, st 162); (65, 70, st 161); (93, 93, st 460); (97, 102, st 161)] (st 0);
  St 204 [(46, 46, st 72); (48, 52, st 205); (53, 53, st 206); (54, 57, st 205); (58, 58, st 162); (65, 70, st 159); (93, 93, st 460); (97, 102, st 159)] (st 0);
  St 205 [(46, 46, st 72); (48, 57, st 160); (58, 58, st 162); (65, 70, st 160); (93, 93, st 460); (97, 102, st 160)] (st 0);
  St 206 [(46, 46, st 72); (48, 53, st 203); (54, 57, st 160); (58, 58, st 162); (65, 70, st 160); (93, 93, st 460); (97, 102, st 160)] (st 0);
  St 207 [(46, 46, st 72); (48, 57, st 205); (58, 58, st 162); (65, 70, st 159); (93, 93, st 460); (97, 102, st 159)] (st 0);
  St 208 [(48, 57, st 159); (58, 58, st 162); (65, 70, st 159); (93, 93, st 460); (97, 102, st 159)] (st 0)].
(** lines 4292-4438 *)
Definition uri_code_31 : list (item action) := [
  St 209 [(46, 46, st 72); (48, 57, st 210); (58, 58, st 157); (65, 70, st 154); (93, 93, st 460); (97, 102, st 154)] (st 0);
  St 210 [(46, 46, st 72); (48, 57, st 211); (58, 58, st 157); (65, 70, st 155); (93, 93, st 460); (97, 102, st 155)] (st 0);
  St 211 [(46, 46, st 72); (48, 57, st 156); (58, 58, st 157); (65, 70, st 156); (93, 93, st 460); (97, 102, st 156)] (st 0);
  St 212 [(46, 46, st 72); (48, 52, st 213); (53, 53, st 214); (54, 57, st 213); (58, 58, st 157); (65, 70, st 154); (93, 93, st 460); (97, 102, st 154)] (st 0);
  St 213 [(46, 46, st 72); (48, 57, st 155); (58, 58, st 157); (65, 70, st 155); (93, 93, st 460); (97, 102, st 155)] (st 0);
  St 214 [(46, 46, st 72); (48, 53, st 211); (54, 57, st 155); (58, 58, st 157); (65, 70, st 155); (93, 93, st 460); (97, 102, st 155)] (st 0);
  St 215 [(46, 46, st 72); (48, 57, st 213); (58, 58, st 157); (65, 70, st 154); (93, 93, st 460); (97, 102, st 154)] (st 0);
  St 216 [(48, 57, st 154); (58, 58, st 157); (65, 70, st 154); (93, 93, st 460); (97, 102, st 154)] (st 0)].
(** lines 4439-4585 *)
Definition uri_code_32 : list (item action) := [
  St 217 [(46, 46, st 72); (48, 57, st 218); (58, 58, st 152); (65, 70, st 149); (93, 93, st 460); (97, 102, st 149)] (st 0);
  St 218 [(46, 46, st 72); (48, 57, st 219); (58, 58, st 152); (65, 70, st 150); (93, 93, st 460); (97, 102, st 150)] (st 0);
  St 219 [(46, 46, st 72); (48, 57, st 151); (58, 58, st 152); (65, 70, st 151); (93, 93, st 460); (97, 102, st 151)] (st 0);
  St 220 [(46, 46, st 72); (48, 52, st 221); (53, 53, st 222); (54, 57, st 221); (58, 58, st 152); (65, 70, st 149); (93, 93, st 460); (97, 102, st 149)] (st 0);
  St 221 [(46, 46, st 72); (48, 57, st 150); (58, 58, st 152); (65, 70, st 150); (93, 93, st 460); (97, 102, st 150)] (st 0);
  St 222 [(46, 46, st 72); (48, 53, st 219); (54, 57, st 150); (58, 58, st 152); (65, 70, st 150); (93, 93, st 460); (97, 102, st 150)] (st 0);
  St 223 [(46, 46, st 72); (48, 57, st 221); (58, 58, st 152); (65, 70, st 149); (93, 93, st 460); (97, 102, st 149)] (st 0);
  St 224 [(48, 57, st 149); (58, 58, st 152); (65, 70, st 149); (93, 93, st 460); (97, 102, st 149)] (st 0)].
(** lines 4586-4726 *)
Definition uri_code_33 : list (item action) := [
  St 225 [(48, 57, st 226); (65, 70, st 226); (97, 102, st 226)] (st 0);
  St 226 [(46, 46, st 227); (48, 57, st 226); (65, 70, st 226); (97, 102, st 226)] (st 0);
  St 227 [(33, 33, st 228); (36, 36, st 228); (38, 46, st 228); (48, 59, st 228); (61, 61, st 228); (65, 90, st 228); (95, 95, st 228); (97, 122, st 228); (126, 126, st 228)] (st 0);
  St 228 [(33, 33, st 228); (36, 36, st 228); (38, 46, st 228); (48, 59, st 228); (61, 61, st 228); (65, 90, st 228); (93, 93, st 460); (95, 95, st 228); (97, 122, st 228); (126, 126, st 228)] (st 0);
  Tr 500 [Markh] 489;
  St 489 [(33, 33, st 33); (35, 35, tr 493); (36, 36, st 33); (37, 37, st 34); (38, 46, st 33); (47, 47, tr 494); (48, 57, st 489); (58, 59, st 33); (61, 61, st 33); (63, 63, tr 496); (64, 64, tr 38); (65, 90, st 33); (95, 95, st 33); (97, 122, st 33); (126, 126, st 33)] (st 0);
  Tr 477 [Markh] 490;
  St 490 [(33, 33, st 467); (35, 35, tr 485); (36, 36, st 467); (37, 37, st 31); (38, 45, st 467); (46, 46, st 491); (47, 47, tr 486); (48, 57, st 467); (58, 58, tr 499); (59, 59, st 467); (61, 61, st 467); (63, 63, tr 488); (64, 64, tr 38); (65, 90, st 467); (95, 95, st 467); (97, 122, st 467); (126, 126, st 467)] (st 0)].
(** lines 4727-4870 *)
Definition uri_code_34 : list (item action) := [
  St 491 [(2, 2, st 13); (33, 33, st 467); (35, 35, tr 485); (36, 36, st 467); (37, 37, st 31); (38, 46, st 467); (47, 47, tr 486); (48, 48, st 492); (49, 49, st 500); (50, 50, st 502); (51, 57, st 501); (58, 58, tr 499); (59, 59, st 467); (61, 61, st 467); (63, 63, tr 488); (64, 64, tr 38); (65, 90, st 467); (95, 95, st 467); (97, 122, st 467); (126, 126, st 467)] (st 0);
  St 492 [(33, 33, st 467); (35, 35, tr 485); (36, 36, st 467); (37, 37, st 31); (38, 45, st 467); (46, 46, st 493); (47, 47, tr 486); (48, 57, st 467); (58, 58, tr 499); (59, 59, st 467); (61, 61, st 467); (63, 63, tr 488); (64, 64, tr 38); (65, 90, st 467); (95, 95, st 467); (97, 122, st 467); (126, 126, st 467)] (st 0);
  St 493 [(2, 2, st 17); (33, 33, st 467); (35, 35, tr 485); (36, 36, st 467); (37, 37, st 31); (38, 46, st 467); (47, 47, tr 486); (48, 48, st 494); (49, 49, st 496); (50, 50, st 498); (51, 57, st 497); (58, 58, tr 499); (59, 59, st 467); (61, 61, st 467); (63, 63, tr 488); (64, 64, tr 38); (65, 90, st 467); (95, 95, st 467); (97, 122, st 467); (126, 126, st 467)] (st 0);
  St 494 [(33, 33, st 467); (35, 35, tr 485); (36, 36, st 467); (37, 37, st 31); (38, 45, st 467); (46, 46, st 495); (47, 47, tr 486); (48, 57, st 467); (58, 58, tr 499); (59, 59, st 467); (61, 61, st 467); (63, 63, tr 488); (64, 64, tr 38); (65, 90, st 467); (95, 95, st 467); (97, 122, st 467); (126, 126, st 467)] (st 0);
  St 495 [(2, 2, st 21); (33, 33, st 467); (35, 35, tr 485); (36, 36, st 467); (37, 37, st 31); (38, 46, st 467); (47, 47, tr 486); (48, 57, st 467); (58, 58, tr 499); (59, 59, st 467); (61, 61, st 467); (63, 63, tr 488); (64, 64, tr 38); (65, 90, st 467); (95, 95, st 467); (97, 122, st 467); (126, 126, st 467)] (st 0)].
(** lines 4871-4993 *)
Definition uri_code_35 : list (item action) := [
  St 496 [(33, 33, st 467); (35, 35, tr 485); (36, 36, st 467); (37, 37, st 31); (38, 45, st 467); (46, 46, st 495); (47, 47, tr 486); (48, 57, st 497); (58, 58, tr 499); (59, 59, st 467); (61, 61, st 467); (63, 63, tr 488); (64, 64, tr 38); (65, 90, st 467); (95, 95, st 467); (97, 122, st 467); (126, 126, st 467)] (st 0);
  St 497 [(33, 33, st 467); (35, 35, tr 485); (36, 36, st 467); (37, 37, st 31); (38, 45, st 467); (46, 46, st 495); (47, 47, tr 486); (48, 57, st 494); (58, 58, tr 499); (59, 59, st 467); (61, 61, st 467); (63, 63, tr 488); (64, 64, tr 38); (65, 90, st 467); (95, 95, st 467); (97, 122, st 467); (126, 126, st 467)] (st 0);
  St 498 [(33, 33, st 467); (35, 35, tr 485); (36, 36, st 467); (37, 37, st 31); (38, 45, st 467); (46, 46, st 495); (47, 47, tr 486); (48, 52, st 494); (53, 53, st 499); (54, 57, st 494); (58, 58, tr 499); (59, 59, st 467); (61, 61, st 467); (63, 63, tr 488); (64, 64, tr 38); (65, 90, st 467); (95, 95, st 467); (97, 122, st 467); (126, 126, st 467)] (st 0);
  St 499 [(33, 33, st 467); (35, 35, tr 485); (36, 36, st 467); (37, 37, st 31); (38, 45, st 467); (46, 46, st 495); (47, 47, tr 486); (48, 53, st 494); (54, 57, st 467); (58, 58, tr 499); (59, 59, st 467); (61, 61, st 467); (63, 63, tr 488); (64, 64, tr 38); (65, 90, st 467); (95, 95, st 467); (97, 122, st 467); (126, 126, st 467)] (st 0)].
(** lines 4994-5120 *)
Definition uri_code_36 : list (item action) := [
  St 500 [(33, 33, st 467); (35, 35, tr 485); (36, 36, st 467); (37, 37, st 31); (38, 45, st 467); (46, 46, st 493); (47, 47, tr 486); (48, 57, st 501); (58, 58, tr 499); (59, 59, st 467); (61, 61, st 467); (63, 63, tr 488); (64, 64, tr 38); (65, 90, st 467); (95, 95, st 467); (97, 122, st 467); (126, 126, st 467)] (st 0);
  St 501 [(33, 33, st 467); (35, 35, tr 485); (36, 36, st 467); (37, 37, st 31); (38, 45, st 467); (46, 46, st 493); (47, 47, tr 486); (48, 57, st 492); (58, 58, tr 499); (59, 59, st 467); (61, 61, st 467); (63, 63, tr 488); (64, 64, tr 38); (65, 90, st 467); (95, 95, st 467); (97, 122, st 467); (126, 126, st 467)] (st 0);
  St 502 [(33, 33, st 467); (35, 35, tr 485); (36, 36, st 467); (37, 37, st 31); (38, 45, st 467); (46, 46, st 493); (47, 47, tr 486); (48, 52, st 492); (53, 53, st 503); (54, 57, st 492); (58, 58, tr 499); (59, 59, st 467); (61, 61, st 467); (63, 63, tr 488); (64, 64, tr 38); (65, 90, st 467); (95, 95, st 467); (97, 122, st 467); (126, 126, st 467)] (st 0);
  St 503 [(33, 33, st 467); (35, 35, tr 485); (36, 36, st 467); (37, 37, st 31); (38, 45, st 467); (46, 46, st 493); (47, 47, tr 486); (48, 53, st 492); (54, 57, st 467); (58, 58, tr 499); (59, 59, st 467); (61, 61, st 467); (63, 63, tr 488); (64, 64, tr 38); (65, 90, st 467); (95, 95, st 467); (97, 122, st 467); (126, 126, st 467)] (st 0);
  Tr 478 [Markh] 504].
(** lines 5121-5258 *)
Definition uri_code_37 : list (item action) := [
  St 504 [(33, 33, st 467); (35, 35, tr 485); (36, 36, st 467); (37, 37, st 31); (38, 45, st 467); (46, 46, st 491); (47, 47, tr 486); (48, 57, st 505); (58, 58, tr 499); (59, 59, st 467); (61, 61, st 467); (63, 63, tr 488); (64, 64, tr 38); (65, 90, st 467); (95, 95, st 467); (97, 122, st 467); (126, 126, st 467)] (st 0);
  Tr 480 [Markh] 505;
  St 505 [(33, 33, st 467); (35, 35, tr 485); (36, 36, st 467); (37, 37, st 31); (38, 45, st 467); (46, 46, st 491); (47, 47, tr 486); (48, 57, st 490); (58, 58, tr 499); (59, 59, st 467); (61, 61, st 467); (63, 63, tr 488); (64, 64, tr 38); (65, 90, st 467); (95, 95, st 467); (97, 122, st 467); (126, 126, st 467)] (st 0);
  Tr 479 [Markh] 506;
  St 506 [(33, 33, st 467); (35, 35, tr 485); (36, 36, st 467); (37, 37, st 31); (38, 45, st 467); (46, 46, st 491); (47, 47, tr 486); (48, 52, st 490); (53, 53, st 507); (54, 57, st 490); (58, 58, tr 499); (59, 59, st 467); (61, 61, st 467); (63, 63, tr 488); (64, 64, tr 38); (65, 90, st 467); (95, 95, st 467); (97, 122, st 467); (126, 126, st 467)] (st 0);
  St 507 [(33, 33, st 467); (35, 35, tr 485); (36, 36, st 467); (37, 37, st 31); (38, 45, st 467); (46, 46, st 491); (47, 47, tr 486); (48, 53, st 490); (54, 57, st 467); (58, 58, tr 499); (59, 59, st 467); (61, 61, st 467); (63, 63, tr 488); (64, 64, tr 38); (65, 90, st 467); (95, 95, st 467); (97, 122, st 467); (126, 126, st 467)] (st 0);
  Tr 461 [Marku] 508].
(** lines 5259-5403 *)
Definition uri_code_38 : list (item action) := [
  St 508 [(0, 32, st 0); (34, 34, st 0); (35, 35, st 453); (37, 37, st 3); (43, 43, st 508); (45, 46, st 508); (47, 47, st 455); (48, 57, st 508); (58, 58, tr 543); (60, 60, st 0); (62, 62, st 0); (63, 63, st 456); (65, 90, st 508); (91, 94, st 0); (96, 96, st 0); (97, 122, st 508); (123, 125, st 0); (127, 127, st 0)] (st 452);
  Tr 543 [SaveScheme] 509;
  St 509 [(0, 32, st 0); (34, 34, st 0); (35, 35, st 453); (37, 37, st 5); (47, 47, st 510); (60, 60, st 0); (62, 62, st 0); (63, 63, st 456); (91, 94, st 0); (96, 96, st 0); (123, 125, st 0); (127, 127, st 0)] (st 455);
  St 510 [(0, 32, st 0); (34, 34, st 0); (35, 35, st 453); (37, 37, st 5); (47, 47, st 511); (60, 60, st 0); (62, 62, st 0); (63, 63, st 456); (91, 94, st 0); (96, 96, st 0); (123, 125, st 0); (127, 127, st 0)] (st 455);
  St 511 [(2, 2, tr 546); (33, 33, tr 547); (35, 35, tr 548); (36, 36, tr 547); (37, 37, tr 549); (38, 46, tr 547); (47, 47, tr 550); (48, 48, tr 551); (49, 49, tr 552); (50, 50, tr 553); (51, 57, tr 554); (58, 58, tr 555); (59, 59, tr 547); (61, 61, tr 547); (63, 63, tr 556); (64, 64, tr 557); (65, 90, tr 547); (91, 91, tr 558); (95, 95, tr 547); (97, 122, tr 547); (126, 126, tr 547)] (st 0);
  Tr 546 [Markh] 229;
  St 229 [(48, 52, st 230)] (st 0);
  St 230 [(48, 57, st 231)] (st 0)].
(** lines 5404-5549 *)
Definition uri_code_39 : list (item action) := [
  St 231 [(46, 46, st 232)] (st 0);
  St 232 [(2, 2, st 233); (48, 48, st 235); (49, 49, st 249); (50, 50, st 251); (51, 57, st 250)] (st 0);
  St 233 [(48, 52, st 234)] (st 0);
  St 234 [(48, 57, st 235)] (st 0);
  St 235 [(46, 46, st 236)] (st 0);
  St 236 [(2, 2, st 237); (48, 48, st 239); (49, 49, st 245); (50, 50, st 247); (51, 57, st 246)] (st 0);
  St 237 [(48, 52, st 238)] (st 0);
  St 238 [(48, 57, st 239)] (st 0);
  St 239 [(46, 46, st 240)] (st 0);
  St 240 [(2, 2, st 241); (48, 48, st 512); (49, 49, st 516); (50, 50, st 518); (51, 57, st 517)] (st 0);
  St 241 [(48, 52, st 242)] (st 0);
  St 242 [(48, 57, st 512)] (st 0);
  St 512 [(35, 35, tr 559); (47, 47, tr 560); (58, 58, tr 561); (63, 63, tr 562)] (st 0);
  Tr 550 [Markh; SaveHost] 513;
  Tr 567 [Markh; SavePort] 513;
  Tr 560 [SaveHost; Markh] 513].
(** lines 5550-5686 *)
Definition uri_code_40 : list (item action) := [
  Tr 571 [SavePort; Markh] 513;
  St 513 [(0, 32, st 0); (34, 34, st 0); (35, 35, tr 563); (37, 37, st 243); (60, 60, st 0); (62, 62, st 0); (63, 63, tr 565); (91, 94, st 0); (96, 96, st 0); (123, 125, st 0); (127, 127, st 0)] (st 513);
  St 243 [(48, 57, st 244); (65, 70, st 244); (97, 102, st 244)] (st 0);
  St 244 [(48, 57, st 513); (65, 70, st 513); (97, 102, st 513)] (st 0);
  Tr 584 [Markh; SaveHost] 514;
  Tr 561 [SaveHost] 514;
  St 514 [(35, 35, tr 566); (47, 47, tr 567); (48, 57, tr 568); (63, 63, tr 569)] (st 0);
  Tr 568 [Markh] 515;
  St 515 [(35, 35, tr 570); (47, 47, tr 571); (48, 57, st 515); (63, 63, tr 573)] (st 0);
  St 516 [(35, 35, tr 559); (47, 47, tr 560); (48, 57, st 517); (58, 58, tr 561); (63, 63, tr 562)] (st 0);
  St 517 [(35, 35, tr 559); (47, 47, tr 560); (48, 57, st 512); (58, 58, tr 561); (63, 63, tr 562)] (st 0)].
(** lines 5687-5823 *)
Definition uri_code_41 : list (item action) := [
  St 518 [(35, 35, tr 559); (47, 47, tr 560); (48, 52, st 512); (53, 53, st 519); (54, 57, st 512); (58, 58, tr 561); (63, 63, tr 562)] (st 0);
  St 519 [(35, 35, tr 559); (47, 47, tr 560); (48, 53, st 512); (58, 58, tr 561); (63, 63, tr 562)] (st 0);
  St 245 [(46, 46, st 240); (48, 57, st 246)] (st 0);
  St 246 [(46, 46, st 240); (48, 57, st 239)] (st 0);
  St 247 [(46, 46, st 240); (48, 52, st 239); (53, 53, st 248); (54, 57, st 239)] (st 0);
  St 248 [(46, 46, st 240); (48, 53, st 239)] (st 0);
  St 249 [(46, 46, st 236); (48, 57, st 250)] (st 0);
  St 250 [(46, 46, st 236); (48, 57, st 235)] (st 0);
  St 251 [(46, 46, st 236); (48, 52, st 235); (53, 53, st 252); (54, 57, st 235)] (st 0);
  St 252 [(46, 46, st 236); (48, 53, st 235)] (st 0);
  Tr 547 [Markh] 520;
  St 520 [(33, 33, st 520); (35, 35, tr 559); (36, 36, st 520); (37, 37, st 253); (38, 46, st 520); (47, 47, tr 560); (48, 57, st 520); (58, 58, tr 576); (59, 59, st 520); (61, 61, st 520); (63, 63, tr 562); (64, 64, tr 263); (65, 90, st 520); (95, 95, st 520); (97, 122, st 520); (126, 126, st 520)] (st 0);
  Tr 549 [Markh] 253].
(** lines 5824-5973 *)
Definition uri_code_42 : list (item action) := [
  St 253 [(48, 57, st 254); (65, 70, st 254); (97, 102, st 254)] (st 0);
  St 254 [(48, 57, st 520); (65, 70, st 520); (97, 102, st 520)] (st 0);
  Tr 555 [Markh; SaveHost] 521;
  Tr 576 [SaveHost] 521;
  St 521 [(33, 33, st 255); (35, 35, tr 566); (36, 36, st 255); (37, 37, st 256); (38, 46, st 255); (47, 47, tr 567); (48, 57, tr 577); (58, 59, st 255); (61, 61, st 255); (63, 63, tr 569); (64, 64, tr 263); (65, 90, st 255); (95, 95, st 255); (97, 122, st 255); (126, 126, st 255)] (st 0);
  St 255 [(33, 33, st 255); (36, 36, st 255); (37, 37, st 256); (38, 46, st 255); (48, 59, st 255); (61, 61, st 255); (64, 64, tr 263); (65, 90, st 255); (95, 95, st 255); (97, 122, st 255); (126, 126, st 255)] (st 0);
  St 256 [(48, 57, st 257); (65, 70, st 257); (97, 102, st 257)] (st 0);
  St 257 [(48, 57, st 255); (65, 70, st 255); (97, 102, st 255)] (st 0);
  Tr 263 [SaveUserinfo] 522;
  Tr 557 [Markh; SaveUserinfo] 522].
(** lines 5974-6097 *)
Definition uri_code_43 : list (item action) := [
  St 522 [(2, 2, tr 546); (33, 33, tr 578); (35, 35, tr 548); (36, 36, tr 578); (37, 37, tr 579); (38, 46, tr 578); (47, 47, tr 550); (48, 48, tr 580); (49, 49, tr 581); (50, 50, tr 582); (51, 57, tr 583); (58, 58, tr 584); (59, 59, tr 578); (61, 61, tr 578); (63, 63, tr 556); (65, 90, tr 578); (91, 91, tr 558); (95, 95, tr 578); (97, 122, tr 578); (126, 126, tr 578)] (st 0);
  Tr 578 [Markh] 523;
  St 523 [(33, 33, st 523); (35, 35, tr 559); (36, 36, st 523); (37, 37, st 258); (38, 46, st 523); (47, 47, tr 560); (48, 57, st 523); (58, 58, tr 561); (59, 59, st 523); (61, 61, st 523); (63, 63, tr 562); (65, 90, st 523); (95, 95, st 523); (97, 122, st 523); (126, 126, st 523)] (st 0);
  Tr 579 [Markh] 258;
  St 258 [(48, 57, st 259); (65, 70, st 259); (97, 102, st 259)] (st 0);
  St 259 [(48, 57, st 523); (65, 70, st 523); (97, 102, st 523)] (st 0);
  Tr 580 [Markh] 524;
  St 524 [(33, 33, st 523); (35, 35, tr 559); (36, 36, st 523); (37, 37, st 258); (38, 45, st 523); (46, 46, st 525); (47, 47, tr 560); (48, 57, st 523); (58, 58, tr 561); (59, 59, st 523); (61, 61, st 523); (63, 63, tr 562); (65, 90, st 523); (95, 95, st 523); (97, 122, st 523); (126, 126, st 523)] (st 0)].
(** lines 6098-6236 *)
Definition uri_code_44 : list (item action) := [
  St 525 [(2, 2, st 233); (33, 33, st 523); (35, 35, tr 559); (36, 36, st 523); (37, 37, st 258); (38, 46, st 523); (47, 47, tr 560); (48, 48, st 526); (49, 49, st 534); (50, 50, st 536); (51, 57, st 535); (58, 58, tr 561); (59, 59, st 523); (61, 61, st 523); (63, 63, tr 562); (65, 90, st 523); (95, 95, st 523); (97, 122, st 523); (126, 126, st 523)] (st 0);
  St 526 [(33, 33, st 523); (35, 35, tr 559); (36, 36, st 523); (37, 37, st 258); (38, 45, st 523); (46, 46, st 527); (47, 47, tr 560); (48, 57, st 523); (58, 58, tr 561); (59, 59, st 523); (61, 61, st 523); (63, 63, tr 562); (65, 90, st 523); (95, 95, st 523); (97, 122, st 523); (126, 126, st 523)] (st 0);
  St 527 [(2, 2, st 237); (33, 33, st 523); (35, 35, tr 559); (36, 36, st 523); (37, 37, st 258); (38, 46, st 523); (47, 47, tr 560); (48, 48, st 528); (49, 49, st 530); (50, 50, st 532); (51, 57, st 531); (58, 58, tr 561); (59, 59, st 523); (61, 61, st 523); (63, 63, tr 562); (65, 90, st 523); (95, 95, st 523); (97, 122, st 523); (126, 126, st 523)] (st 0);
  St 528 [(33, 33, st 523); (35, 35, tr 559); (36, 36, st 523); (37, 37, st 258); (38, 45, st 523); (46, 46, st 529); (47, 47, tr 560); (48, 57, st 523); (58, 58, tr 561); (59, 59, st 523); (61, 61, st 523); (63, 63, tr 562); (65, 90, st 523); (95, 95, st 523); (97, 122, st 523); (126, 126, st 523)] (st 0);
  St 529 [(2, 2, st 241); (33, 33, st 523); (35, 35, tr 559); (36, 36, st 523); (37, 37, st 258); (38, 46, st 523); (47, 47, tr 560); (48, 57, st 523); (58, 58, tr 561); (59, 59, st 523); (61, 61, st 523); (63, 63, tr 562); (65, 90, st 523); (95, 95, st 523); (97, 122, st 523); (126, 126, st 523)] (st 0)].
(** lines 6237-6384 *)
Definition uri_code_45 : list (item action) := [
  St 530 [(33, 33, st 523); (35, 35, tr 559); (36, 36, st 523); (37, 37, st 258); (38, 45, st 523); (46, 46, st 529); (47, 47, tr 560); (48, 57, st 531); (58, 58, tr 561); (59, 59, st 523); (61, 61, st 523); (63, 63, tr 562); (65, 90, st 523); (95, 95, st 523); (97, 122, st 523); (126, 126, st 523)] (st 0);
  St 531 [(33, 33, st 523); (35, 35, tr 559); (36, 36, st 523); (37, 37, st 258); (38, 45, st 523); (46, 46, st 529); (47, 47, tr 560); (48, 57, st 528); (58, 58, tr 561); (59, 59, st 523); (61, 61, st 523); (63, 63, tr 562); (65, 90, st 523); (95, 95, st 523); (97, 122, st 523); (126, 126, st 523)] (st 0);
  St 532 [(33, 33, st 523); (35, 35, tr 559); (36, 36, st 523); (37, 37, st 258); (38, 45, st 523); (46, 46, st 529); (47, 47, tr 560); (48, 52, st 528); (53, 53, st 533); (54, 57, st 528); (58, 58, tr 561); (59, 59, st 523); (61, 61, st 523); (63, 63, tr 562); (65, 90, st 523); (95, 95, st 523); (97, 122, st 523); (126, 126, st 523)] (st 0);
  St 533 [(33, 33, st 523); (35, 35, tr 559); (36, 36, st 523); (37, 37, st 258); (38, 45, st 523); (46, 46, st 529); (47, 47, tr 560); (48, 53, st 528); (54, 57, st 523); (58, 58, tr 561); (59, 59, st 523); (61, 61, st 523); (63, 63, tr 562); (65, 90, st 523); (95, 95, st 523); (97, 122, st 523); (126, 126, st 523)] (st 0);
  St 534 [(33, 33, st 523); (35, 35, tr 559); (36, 36, st 523); (37, 37, st 258); (38, 45, st 523); (46, 46, st 527); (47, 47, tr 560); (48, 57, st 535); (58, 58, tr 561); (59, 59, st 523); (61, 61, st 523); (63, 63, tr 562); (65, 90, st 523); (95, 95, st 523); (97, 122, st 523); (126, 126, st 523)] (st 0)].
(** lines 6385-6512 *)
Definition uri_code_46 : list (item action) := [
  St 535 [(33, 33, st 523); (35, 35, tr 559); (36, 36, st 523); (37, 37, st 258); (38, 45, st 523); (46, 46, st 527); (47, 47, tr 560); (48, 57, st 526); (58, 58, tr 561); (59, 59, st 523); (61, 61, st 523); (63, 63, tr 562); (65, 90, st 523); (95, 95, st 523); (97, 122, st 523); (126, 126, st 523)] (st 0);
  St 536 [(33, 33, st 523); (35, 35, tr 559); (36, 36, st 523); (37, 37, st 258); (38, 45, st 523); (46, 46, st 527); (47, 47, tr 560); (48, 52, st 526); (53, 53, st 537); (54, 57, st 526); (58, 58, tr 561); (59, 59, st 523); (61, 61, st 523); (63, 63, tr 562); (65, 90, st 523); (95, 95, st 523); (97, 122, st 523); (126, 126, st 523)] (st 0);
  St 537 [(33, 33, st 523); (35, 35, tr 559); (36, 36, st 523); (37, 37, st 258); (38, 45, st 523); (46, 46, st 527); (47, 47, tr 560); (48, 53, st 526); (54, 57, st 523); (58, 58, tr 561); (59, 59, st 523); (61, 61, st 523); (63, 63, tr 562); (65, 90, st 523); (95, 95, st 523); (97, 122, st 523); (126, 126, st 523)] (st 0);
  Tr 581 [Markh] 538;
  St 538 [(33, 33, st 523); (35, 35, tr 559); (36, 36, st 523); (37, 37, st 258); (38, 45, st 523); (46, 46, st 525); (47, 47, tr 560); (48, 57, st 539); (58, 58, tr 561); (59, 59, st 523); (61, 61, st 523); (63, 63, tr 562); (65, 90, st 523); (95, 95, st 523); (97, 122, st 523); (126, 126, st 523)] (st 0);
  Tr 583 [Markh] 539].
(** lines 6513-6660 *)
Definition uri_code_47 : list (item action) := [
  St 539 [(33, 33, st 523); (35, 35, tr 559); (36, 36, st 523); (37, 37, st 258); (38, 45, st 523); (46, 46, st 525); (47, 47, tr 560); (48, 57, st 524); (58, 58, tr 561); (59, 59, st 523); (61, 61, st 523); (63, 63, tr 562); (65, 90, st 523); (95, 95, st 523); (97, 122, st 523); (126, 126, st 523)] (st 0);
  Tr 582 [Markh] 540;
  St 540 [(33, 33, st 523); (35, 35, tr 559); (36, 36, st 523); (37, 37, st 258); (38, 45, st 523); (46, 46, st 525); (47, 47, tr 560); (48, 52, st 524); (53, 53, st 541); (54, 57, st 524); (58, 58, tr 561); (59, 59, st 523); (61, 61, st 523); (63, 63, tr 562); (65, 90, st 523); (95, 95, st 523); (97, 122, st 523); (126, 126, st 523)] (st 0);
  St 541 [(33, 33, st 523); (35, 35, tr 559); (36, 36, st 523); (37, 37, st 258); (38, 45, st 523); (46, 46, st 525); (47, 47, tr 560); (48, 53, st 524); (54, 57, st 523); (58, 58, tr 561); (59, 59, st 523); (61, 61, st 523); (63, 63, tr 562); (65, 90, st 523); (95, 95, st 523); (97, 122, st 523); (126, 126, st 523)] (st 0);
  Tr 558 [Markh] 260;
  St 260 [(48, 57, st 261); (58, 58, st 368); (65, 70, st 261); (97, 102, st 261); (118, 118, st 447)] (st 0);
  St 261 [(48, 57, st 262); (58, 58, st 265); (65, 70, st 262); (97, 102, st 262)] (st 0);
  St 262 [(48, 57, st 263); (58, 58, st 265); (65, 70, st 263); (97, 102, st 263)] (st 0)].
(** lines 6661-6809 *)
Definition uri_code_48 : list (item action) := [
  St 263 [(48, 57, st 264); (58, 58, st 265); (65, 70, st 264); (97, 102, st 264)] (st 0);
  St 264 [(58, 58, st 265)] (st 0);
  St 265 [(48, 57, st 266); (58, 58, st 363); (65, 70, st 266); (97, 102, st 266)] (st 0);
  St 266 [(48, 57, st 267); (58, 58, st 270); (65, 70, st 267); (97, 102, st 267)] (st 0);
  St 267 [(48, 57, st 268); (58, 58, st 270); (65, 70, st 268); (97, 102, st 268)] (st 0);
  St 268 [(48, 57, st 269); (58, 58, st 270); (65, 70, st 269); (97, 102, st 269)] (st 0);
  St 269 [(58, 58, st 270)] (st 0);
  St 270 [(48, 57, st 271); (58, 58, st 358); (65, 70, st 271); (97, 102, st 271)] (st 0);
  St 271 [(48, 57, st 272); (58, 58, st 275); (65, 70, st 272); (97, 102, st 272)] (st 0);
  St 272 [(48, 57, st 273); (58, 58, st 275); (65, 70, st 273); (97, 102, st 273)] (st 0);
  St 273 [(48, 57, st 274); (58, 58, st 275); (65, 70, st 274); (97, 102, st 274)] (st 0)].
(** lines 6810-6950 *)
Definition uri_code_49 : list (item action) := [
  St 274 [(58, 58, st 275)] (st 0);
  St 275 [(48, 57, st 276); (58, 58, st 353); (65, 70, st 276); (97, 102, st 276)] (st 0);
  St 276 [(48, 57, st 277); (58, 58, st 280); (65, 70, st 277); (97, 102, st 277)] (st 0);
  St 277 [(48, 57, st 278); (58, 58, st 280); (65, 70, st 278); (97, 102, st 278)] (st 0);
  St 278 [(48, 57, st 279); (58, 58, st 280); (65, 70, st 279); (97, 102, st 279)] (st 0);
  St 279 [(58, 58, st 280)] (st 0);
  St 280 [(48, 57, st 281); (58, 58, st 348); (65, 70, st 281); (97, 102, st 281)] (st 0);
  St 281 [(48, 57, st 282); (58, 58, st 285); (65, 70, st 282); (97, 102, st 282)] (st 0);
  St 282 [(48, 57, st 283); (58, 58, st 285); (65, 70, st 283); (97, 102, st 283)] (st 0);
  St 283 [(48, 57, st 284); (58, 58, st 285); (65, 70, st 284); (97, 102, st 284)] (st 0);
  St 284 [(58, 58, st 285)] (st 0)].
(** lines 6951-7092 *)
Definition uri_code_50 : list (item action) := [
  St 285 [(48, 57, st 286); (58, 58, st 335); (65, 70, st 286); (97, 102, st 286)] (st 0);
  St 286 [(48, 57, st 287); (58, 58, st 290); (65, 70, st 287); (97, 102, st 287)] (st 0);
  St 287 [(48, 57, st 288); (58, 58, st 290); (65, 70, st 288); (97, 102, st 288)] (st 0);
  St 288 [(48, 57, st 289); (58, 58, st 290); (65, 70, st 289); (97, 102, st 289)] (st 0);
  St 289 [(58, 58, st 290)] (st 0);
  St 290 [(2, 2, st 291); (48, 48, st 318); (49, 49, st 326); (50, 50, st 329); (51, 57, st 332); (58, 58, st 333); (65, 70, st 334); (97, 102, st 334)] (st 0);
  St 291 [(48, 52, st 292)] (st 0);
  St 292 [(48, 57, st 293)] (st 0);
  St 293 [(46, 46, st 294)] (st 0);
  St 294 [(2, 2, st 295); (48, 48, st 297); (49, 49, st 314); (50, 50, st 316); (51, 57, st 315)] (st 0);
  St 295 [(48, 52, st 296)] (st 0);
  St 296 [(48, 57, st 297)] (st 0);
  St 297 [(46, 46, st 298)] (st 0)].
(** lines 7093-7236 *)
Definition uri_code_51 : list (item action) := [
  St 298 [(2, 2, st 299); (48, 48, st 301); (49, 49, st 310); (50, 50, st 312); (51, 57, st 311)] (st 0);
  St 299 [(48, 52, st 300)] (st 0);
  St 300 [(48, 57, st 301)] (st 0);
  St 301 [(46, 46, st 302)] (st 0);
  St 302 [(2, 2, st 303); (48, 48, st 305); (49, 49, st 306); (50, 50, st 308); (51, 57, st 307)] (st 0);
  St 303 [(48, 52, st 304)] (st 0);
  St 304 [(48, 57, st 305)] (st 0);
  St 305 [(93, 93, st 512)] (st 0);
  St 306 [(48, 57, st 307); (93, 93, st 512)] (st 0);
  St 307 [(48, 57, st 305); (93, 93, st 512)] (st 0);
  St 308 [(48, 52, st 305); (53, 53, st 309); (54, 57, st 305); (93, 93, st 512)] (st 0);
  St 309 [(48, 53, st 305); (93, 93, st 512)] (st 0);
  St 310 [(46, 46, st 302); (48, 57, st 311)] (st 0);
  St 311 [(46, 46, st 302); (48, 57, st 301)] (st 0);
  St 312 [(46, 46, st 302); (48, 52, st 301); (53, 53, st 313); (54, 57, st 301)] (st 0);
  St 313 [(46, 46, st 302); (48, 53, st 301)] (st 0)].
(** lines 7237-7373 *)
Definition uri_code_52 : list (item action) := [
  St 314 [(46, 46, st 298); (48, 57, st 315)] (st 0);
  St 315 [(46, 46, st 298); (48, 57, st 297)] (st 0);
  St 316 [(46, 46, st 298); (48, 52, st 297); (53, 53, st 317); (54, 57, st 297)] (st 0);
  St 317 [(46, 46, st 298); (48, 53, st 297)] (st 0);
  St 318 [(46, 46, st 294); (48, 57, st 319); (58, 58, st 322); (65, 70, st 319); (97, 102, st 319)] (st 0);
  St 319 [(48, 57, st 320); (58, 58, st 322); (65, 70, st 320); (97, 102, st 320)] (st 0);
  St 320 [(48, 57, st 321); (58, 58, st 322); (65, 70, st 321); (97, 102, st 321)] (st 0);
  St 321 [(58, 58, st 322)] (st 0);
  St 322 [(48, 57, st 323); (58, 58, st 305); (65, 70, st 323); (97, 102, st 323)] (st 0);
  St 323 [(48, 57, st 324); (65, 70, st 324); (93, 93, st 512); (97, 102, st 324)] (st 0);
  St 324 [(48, 57, st 325); (65, 70, st 325); (93, 93, st 512); (97, 102, st 325)] (st 0)].
(** lines 7374-7511 *)
Definition uri_code_53 : list (item action) := [
  St 325 [(48, 57, st 305); (65, 70, st 305); (93, 93, st 512); (97, 102, st 305)] (st 0);
  St 326 [(46, 46, st 294); (48, 57, st 327); (58, 58, st 322); (65, 70, st 319); (97, 102, st 319)] (st 0);
  St 327 [(46, 46, st 294); (48, 57, st 328); (58, 58, st 322); (65, 70, st 320); (97, 102, st 320)] (st 0);
  St 328 [(46, 46, st 294); (48, 57, st 321); (58, 58, st 322); (65, 70, st 321); (97, 102, st 321)] (st 0);
  St 329 [(46, 46, st 294); (48, 52, st 330); (53, 53, st 331); (54, 57, st 330); (58, 58, st 322); (65, 70, st 319); (97, 102, st 319)] (st 0);
  St 330 [(46, 46, st 294); (48, 57, st 320); (58, 58, st 322); (65, 70, st 320); (97, 102, st 320)] (st 0);
  St 331 [(46, 46, st 294); (48, 53, st 328); (54, 57, st 320); (58, 58, st 322); (65, 70, st 320); (97, 102, st 320)] (st 0);
  St 332 [(46, 46, st 294); (48, 57, st 330); (58, 58, st 322); (65, 70, st 319); (97, 102, st 319)] (st 0)].
(** lines 7512-7646 *)
Definition uri_code_54 : list (item action) := [
  St 333 [(48, 57, st 323); (65, 70, st 323); (97, 102, st 323)] (st 0);
  St 334 [(48, 57, st 319); (58, 58, st 322); (65, 70, st 319); (97, 102, st 319)] (st 0);
  St 335 [(2, 2, st 291); (48, 48, st 336); (49, 49, st 340); (50, 50, st 343); (51, 57, st 346); (65, 70, st 347); (97, 102, st 347)] (st 0);
  St 336 [(46, 46, st 294); (48, 57, st 337); (58, 58, st 333); (65, 70, st 337); (97, 102, st 337)] (st 0);
  St 337 [(48, 57, st 338); (58, 58, st 333); (65, 70, st 338); (97, 102, st 338)] (st 0);
  St 338 [(48, 57, st 339); (58, 58, st 333); (65, 70, st 339); (97, 102, st 339)] (st 0);
  St 339 [(58, 58, st 333)] (st 0);
  St 340 [(46, 46, st 294); (48, 57, st 341); (58, 58, st 333); (65, 70, st 337); (97, 102, st 337)] (st 0);
  St 341 [(46, 46, st 294); (48, 57, st 342); (58, 58, st 333); (65, 70, st 338); (97, 102, st 338)] (st 0)].
(** lines 7647-7793 *)
Definition uri_code_55 : list (item action) := [
  St 342 [(46, 46, st 294); (48, 57, st 339); (58, 58, st 333); (65, 70, st 339); (97, 102, st 339)] (st 0);
  St 343 [(46, 46, st 294); (48, 52, st 344); (53, 53, st 345); (54, 57, st 344); (58, 58, st 333); (65, 70, st 337); (97, 102, st 337)] (st 0);
  St 344 [(46, 46, st 294); (48, 57, st 338); (58, 58, st 333); (65, 70, st 338); (97, 102, st 338)] (st 0);
  St 345 [(46, 46, st 294); (48, 53, st 342); (54, 57, st 338); (58, 58, st 333); (65, 70, st 338); (97, 102, st 338)] (st 0);
  St 346 [(46, 46, st 294); (48, 57, st 344); (58, 58, st 333); (65, 70, st 337); (97, 102, st 337)] (st 0);
  St 347 [(48, 57, st 337); (58, 58, st 333); (65, 70, st 337); (97, 102, st 337)] (st 0);
  St 348 [(48, 57, st 349); (65, 70, st 349); (97, 102, st 349)] (st 0);
  St 349 [(48, 57, st 350); (58, 58, st 335); (65, 70, st 350); (97, 102, st 350)] (st 0);
  St 350 [(48, 57, st 351); (58, 58, st 335); (65, 70, st 351); (97, 102, st 351)] (st 0)].
(** lines 7794-7938 *)
Definition uri_code_56 : list (item action) := [
  St 351 [(48, 57, st 352); (58, 58, st 335); (65, 70, st 352); (97, 102, st 352)] (st 0);
  St 352 [(58, 58, st 335)] (st 0);
  St 353 [(48, 57, st 354); (65, 70, st 354); (97, 102, st 354)] (st 0);
  St 354 [(48, 57, st 355); (58, 58, st 348); (65, 70, st 355); (97, 102, st 355)] (st 0);
  St 355 [(48, 57, st 356); (58, 58, st 348); (65, 70, st 356); (97, 102, st 356)] (st 0);
  St 356 [(48, 57, st 357); (58, 58, st 348); (65, 70, st 357); (97, 102, st 357)] (st 0);
  St 357 [(58, 58, st 348)] (st 0);
  St 358 [(48, 57, st 359); (65, 70, st 359); (97, 102, st 359)] (st 0);
  St 359 [(48, 57, st 360); (58, 58, st 353); (65, 70, st 360); (97, 102, st 360)] (st 0);
  St 360 [(48, 57, st 361); (58, 58, st 353); (65, 70, st 361); (97, 102, st 361)] (st 0);
  St 361 [(48, 57, st 362); (58, 58, st 353); (65, 70, st 362); (97, 102, st 362)] (st 0)].
(** lines 7939-8072 *)
Definition uri_code_57 : list (item action) := [
  St 362 [(58, 58, st 353)] (st 0);
  St 363 [(48, 57, st 364); (65, 70, st 364); (97, 102, st 364)] (st 0);
  St 364 [(48, 57, st 365); (58, 58, st 358); (65, 70, st 365); (97, 102, st 365)] (st 0);
  St 365 [(48, 57, st 366); (58, 58, st 358); (65, 70, st 366); (97, 102, st 366)] (st 0);
  St 366 [(48, 57, st 367); (58, 58, st 358); (65, 70, st 367); (97, 102, st 367)] (st 0);
  St 367 [(58, 58, st 358)] (st 0);
  St 368 [(58, 58, st 369)] (st 0);
  St 369 [(2, 2, st 291); (48, 48, st 370); (49, 49, st 439); (50, 50, st 442); (51, 57, st 445); (65, 70, st 446); (93, 93, st 512); (97, 102, st 446)] (st 0);
  St 370 [(46, 46, st 294); (48, 57, st 371); (58, 58, st 374); (65, 70, st 371); (93, 93, st 512); (97, 102, st 371)] (st 0);
  St 371 [(48, 57, st 372); (58, 58, st 374); (65, 70, st 372); (93, 93, st 512); (97, 102, st 372)] (st 0)].
(** lines 8073-8215 *)
Definition uri_code_58 : list (item action) := [
  St 372 [(48, 57, st 373); (58, 58, st 374); (65, 70, st 373); (93, 93, st 512); (97, 102, st 373)] (st 0);
  St 373 [(58, 58, st 374); (93, 93, st 512)] (st 0);
  St 374 [(2, 2, st 291); (48, 48, st 375); (49, 49, st 431); (50, 50, st 434); (51, 57, st 437); (65, 70, st 438); (97, 102, st 438)] (st 0);
  St 375 [(46, 46, st 294); (48, 57, st 376); (58, 58, st 379); (65, 70, st 376); (93, 93, st 512); (97, 102, st 376)] (st 0);
  St 376 [(48, 57, st 377); (58, 58, st 379); (65, 70, st 377); (93, 93, st 512); (97, 102, st 377)] (st 0);
  St 377 [(48, 57, st 378); (58, 58, st 379); (65, 70, st 378); (93, 93, st 512); (97, 102, st 378)] (st 0);
  St 378 [(58, 58, st 379); (93, 93, st 512)] (st 0);
  St 379 [(2, 2, st 291); (48, 48, st 380); (49, 49, st 423); (50, 50, st 426); (51, 57, st 429); (65, 70, st 430); (97, 102, st 430)] (st 0);
  St 380 [(46, 46, st 294); (48, 57, st 381); (58, 58, st 384); (65, 70, st 381); (93, 93, st 512); (97, 102, st 381)] (st 0)].
(** lines 8216-8357 *)
Definition uri_code_59 : list (item action) := [
  St 381 [(48, 57, st 382); (58, 58, st 384); (65, 70, st 382); (93, 93, st 512); (97, 102, st 382)] (st 0);
  St 382 [(48, 57, st 383); (58, 58, st 384); (65, 70, st 383); (93, 93, st 512); (97, 102, st 383)] (st 0);
  St 383 [(58, 58, st 384); (93, 93, st 512)] (st 0);
  St 384 [(2, 2, st 291); (48, 48, st 385); (49, 49, st 415); (50, 50, st 418); (51, 57, st 421); (65, 70, st 422); (97, 102, st 422)] (st 0);
  St 385 [(46, 46, st 294); (48, 57, st 386); (58, 58, st 389); (65, 70, st 386); (93, 93, st 512); (97, 102, st 386)] (st 0);
  St 386 [(48, 57, st 387); (58, 58, st 389); (65, 70, st 387); (93, 93, st 512); (97, 102, st 387)] (st 0);
  St 387 [(48, 57, st 388); (58, 58, st 389); (65, 70, st 388); (93, 93, st 512); (97, 102, st 388)] (st 0);
  St 388 [(58, 58, st 389); (93, 93, st 512)] (st 0);
  St 389 [(2, 2, st 291); (48, 48, st 390); (49, 49, st 407); (50, 50, st 410); (51, 57, st 413); (65, 70, st 414); (97, 102, st 414)] (st 0)].
(** lines 8358-8498 *)
Definition uri_code_60 : list (item action) := [
  St 390 [(46, 46, st 294); (48, 57, st 391); (58, 58, st 394); (65, 70, st 391); (93, 93, st 512); (97, 102, st 391)] (st 0);
  St 391 [(48, 57, st 392); (58, 58, st 394); (65, 70, st 392); (93, 93, st 512); (97, 102, st 392)] (st 0);
  St 392 [(48, 57, st 393); (58, 58, st 394); (65, 70, st 393); (93, 93, st 512); (97, 102, st 393)] (st 0);
  St 393 [(58, 58, st 394); (93, 93, st 512)] (st 0);
  St 394 [(2, 2, st 291); (48, 48, st 395); (49, 49, st 399); (50, 50, st 402); (51, 57, st 405); (65, 70, st 406); (97, 102, st 406)] (st 0);
  St 395 [(46, 46, st 294); (48, 57, st 396); (58, 58, st 333); (65, 70, st 396); (93, 93, st 512); (97, 102, st 396)] (st 0);
  St 396 [(48, 57, st 397); (58, 58, st 333); (65, 70, st 397); (93, 93, st 512); (97, 102, st 397)] (st 0);
  St 397 [(48, 57, st 398); (58, 58, st 333); (65, 70, st 398); (93, 93, st 512); (97, 102, st 398)] (st 0);
  St 398 [(58, 58, st 333); (93, 93, st 512)] (st 0)].
(** lines 8499-8645 *)
Definition uri_code_61 : list (item action) := [
  St 399 [(46, 46, st 294); (48, 57, st 400); (58, 58, st 333); (65, 70, st 396); (93, 93, st 512); (97, 102, st 396)] (st 0);
  St 400 [(46, 46, st 294); (48, 57, st 401); (58, 58, st 333); (65, 70, st 397); (93, 93, st 512); (97, 102, st 397)] (st 0);
  St 401 [(46, 46, st 294); (48, 57, st 398); (58, 58, st 333); (65, 70, st 398); (93, 93, st 512); (97, 102, st 398)] (st 0);
  St 402 [(46, 46, st 294); (48, 52, st 403); (53, 53, st 404); (54, 57, st 403); (58, 58, st 333); (65, 70, st 396); (93, 93, st 512); (97, 102, st 396)] (st 0);
  St 403 [(46, 46, st 294); (48, 57, st 397); (58, 58, st 333); (65, 70, st 397); (93, 93, st 512); (97, 102, st 397)] (st 0);
  St 404 [(46, 46, st 294); (48, 53, st 401); (54, 57, st 397); (58, 58, st 333); (65, 70, st 397); (93, 93, st 512); (97, 102, st 397)] (st 0);
  St 405 [(46, 46, st 294); (48, 57, st 403); (58, 58, st 333); (65, 70, st 396); (93, 93, st 512); (97, 102, st 396)] (st 0);
  St 406 [(48, 57, st 396); (58, 58, st 333); (65, 70, st 396); (93, 93, st 512); (97, 102, st 396)] (st 0)].
(** lines 8646-8792 *)
Definition uri_code_62 : list (item action) := [
  St 407 [(46, 46, st 294); (48, 57, st 408); (58, 58, st 394); (65, 70, st 391); (93, 93, st 512); (97, 102, st 391)] (st 0);
  St 408 [(46, 46, st 294); (48, 57, st 409); (58, 58, st 394); (65, 70, st 392); (93, 93, st 512); (97, 102, st 392)] (st 0);
  St 409 [(46, 46, st 294); (48, 57, st 393); (58, 58, st 394); (65, 70, st 393); (93, 93, st 512); (97, 102, st 393)] (st 0);
  St 410 [(46, 46, st 294); (48, 52, st 411); (53, 53, st 412); (54, 57, st 411); (58, 58, st 394); (65, 70, st 391); (93, 93, st 512); (97, 102, st 391)] (st 0);
  St 411 [(46, 46, st 294); (48, 57, st 392); (58, 58, st 394); (65, 70, st 392); (93, 93, st 512); (97, 102, st 392)] (st 0);
  St 412 [(46, 46, st 294); (48, 53, st 409); (54, 57, st 392); (58, 58, st 394); (65, 70, st 392); (93, 93, st 512); (97, 102, st 392)] (st 0);
  St 413 [(46, 46, st 294); (48, 57, st 411); (58, 58, st 394); (65, 70, st 391); (93, 93, st 512); (97, 102, st 391)] (st 0);
  St 414 [(48, 57, st 391); (58, 58, st 394); (65, 70, st 391); (93, 93, st 512); (97, 102, st 391)] (st 0)].
(** lines 8793-8939 *)
Definition uri_code_63 : list (item action) := [
  St 415 [(46, 46, st 294); (48, 57, st 416); (58, 58, st 389); (65, 70, st 386); (93, 93, st 512); (97, 102, st 386)] (st 0);
  St 416 [(46, 46, st 294); (48, 57, st 417); (58, 58, st 389); (65, 70, st 387); (93, 93, st 512); (97, 102, st 387)] (st 0);
  St 417 [(46, 46, st 294); (48, 57, st 388); (58, 58, st 389); (65, 70, st 388); (93, 93, st 512); (97, 102, st 388)] (st 0);
  St 418 [(46, 46, st 294); (48, 52, st 419); (53, 53, st 420); (54, 57, st 419); (58, 58, st 389); (65, 70, st 386); (93, 93, st 512); (97, 102, st 386)] (st 0);
  St 419 [(46, 46, st 294); (48, 57, st 387); (58, 58, st 389); (65, 70, st 387); (93, 93, st 512); (97, 102, st 387)] (st 0);
  St 420 [(46, 46, st 294); (48, 53, st 417); (54, 57, st 387); (58, 58, st 389); (65, 70, st 387); (93, 93, st 512); (97, 102, st 387)] (st 0);
  St 421 [(46, 46, st 294); (48, 57, st 419); (58, 58, st 389); (65, 70, st 386); (93, 93, st 512); (97, 102, st 386)] (st 0);
  St 422 [(48, 57, st 386); (58, 58, st 389); (65, 70, st 386); (93, 93, st 512); (97, 102, st 386)] (st 0)].
(** lines 8940-9086 *)
Definition uri_code_64 : list (item action) := [
  St 423 [(46, 46, st 294); (48, 57, st 424); (58, 58, st 384); (65, 70, st 381); (93, 93, st 512); (97, 102, st 381)] (st 0);
  St 424 [(46, 46, st 294); (48, 57, st 425); (58, 58, st 384); (65, 70, st 382); (93, 93, st 512); (97, 102, st 382)] (st 0);
  St 425 [(46, 46, st 294); (48, 57, st 383); (58, 58, st 384); (65, 70, st 383); (93, 93, st 512); (97, 102, st 383)] (st 0);
  St 426 [(46, 46, st 294); (48, 52, st 427); (53, 53, st 428); (54, 57, st 427); (58, 58, st 384); (65, 70, st 381); (93, 93, st 512); (97, 102, st 381)] (st 0);
  St 427 [(46, 46, st 294); (48, 57, st 382); (58, 58, st 384); (65, 70, st 382); (93, 93, st 512); (97, 102, st 382)] (st 0);
  St 428 [(46, 46, st 294); (48, 53, st 425); (54, 57, st 382); (58, 58, st 384); (65, 70, st 382); (93, 93, st 512); (97, 102, st 382)] (st 0);
  St 429 [(46, 46, st 294); (48, 57, st 427); (58, 58, st 384); (65, 70, st 381); (93, 93, st 512); (97, 102, st 381)] (st 0);
  St 430 [(48, 57, st 381); (58, 58, st 384); (65, 70, st 381); (93, 93, st 512); (97, 102, st 381)] (st 0)].
(** lines 9087-9233 *)
Definition uri_code_65 : list (item action) := [
  St 431 [(46, 46, st 294); (48, 57, st 432); (58, 58, st 379); (65, 70, st 376); (93, 93, st 512); (97, 102, st 376)] (st 0);
  St 432 [(46, 46, st 294); (48, 57, st 433); (58, 58, st 379); (65, 70, st 377); (93, 93, st 512); (97, 102, st 377)] (st 0);
  St 433 [(46, 46, st 294); (48, 57, st 378); (58, 58, st 379); (65, 70, st 378); (93, 93, st 512); (97, 102, st 378)] (st 0);
  St 434 [(46, 46, st 294); (48, 52, st 435); (53, 53, st 436); (54, 57, st 435); (58, 58, st 379); (65, 70, st 376); (93, 93, st 512); (97, 102, st 376)] (st 0);
  St 435 [(46, 46, st 294); (48, 57, st 377); (58, 58, st 379); (65, 70, st 377); (93, 93, st 512); (97, 102, st 377)] (st 0);
  St 436 [(46, 46, st 294); (48, 53, st 433); (54, 57, st 377); (58, 58, st 379); (65, 70, st 377); (93, 93, st 512); (97, 102, st 377)] (st 0);
  St 437 [(46, 46, st 294); (48, 57, st 435); (58, 58, st 379); (65, 70, st 376); (93, 93, st 512); (97, 102, st 376)] (st 0);
  St 438 [(48, 57, st 376); (58, 58, st 379); (65, 70, st 376); (93, 93, st 512); (97, 102, st 376)] (st 0)].
(** lines 9234-9380 *)
Definition uri_code_66 : list (item action) := [
  St 439 [(46, 46, st 294); (48, 57, st 440); (58, 58, st 374); (65, 70, st 371); (93, 93, st 512); (97, 102, st 371)] (st 0);
  St 440 [(46, 46, st 294); (48, 57, st 441); (58, 58, st 374); (65, 70, st 372); (93, 93, st 512); (97, 102, st 372)] (st 0);
  St 441 [(46, 46, st 294); (48, 57, st 373); (58, 58, st 374); (65, 70, st 373); (93, 93, st 512); (97, 102, st 373)] (st 0);
  St 442 [(46, 46, st 294); (48, 52, st 443); (53, 53, st 444); (54, 57, st 443); (58, 58, st 374); (65, 70, st 371); (93, 93, st 512); (97, 102, st 371)] (st 0);
  St 443 [(46, 46, st 294); (48, 57, st 372); (58, 58, st 374); (65, 70, st 372); (93, 93, st 512); (97, 102, st 372)] (st 0);
  St 444 [(46, 46, st 294); (48, 53, st 441); (54, 57, st 372); (58, 58, st 374); (65, 70, st 372); (93, 93, st 512); (97, 102, st 372)] (st 0);
  St 445 [(46, 46, st 294); (48, 57, st 443); (58, 58, st 374); (65, 70, st 371); (93, 93, st 512); (97, 102, st 371)] (st 0);
  St 446 [(48, 57, st 371); (58, 58, st 374); (65, 70, st 371); (93, 93, st 512); (97, 102, st 371)] (st 0)].
(** lines 9381-9521 *)
Definition uri_code_67 : list (item action) := [
  St 447 [(48, 57, st 448); (65, 70, st 448); (97, 102, st 448)] (st 0);
  St 448 [(46, 46, st 449); (48, 57, st 448); (65, 70, st 448); (97, 102, st 448)] (st 0);
  St 449 [(33, 33, st 450); (36, 36, st 450); (38, 46, st 450); (48, 59, st 450); (61, 61, st 450); (65, 90, st 450); (95, 95, st 450); (97, 122, st 450); (126, 126, st 450)] (st 0);
  St 450 [(33, 33, st 450); (36, 36, st 450); (38, 46, st 450); (48, 59, st 450); (61, 61, st 450); (65, 90, st 450); (93, 93, st 512); (95, 95, st 450); (97, 122, st 450); (126, 126, st 450)] (st 0);
  Tr 577 [Markh] 542;
  St 542 [(33, 33, st 255); (35, 35, tr 570); (36, 36, st 255); (37, 37, st 256); (38, 46, st 255); (47, 47, tr 571); (48, 57, st 542); (58, 59, st 255); (61, 61, st 255); (63, 63, tr 573); (64, 64, tr 263); (65, 90, st 255); (95, 95, st 255); (97, 122, st 255); (126, 126, st 255)] (st 0);
  Tr 551 [Markh] 543;
  St 543 [(33, 33, st 520); (35, 35, tr 559); (36, 36, st 520); (37, 37, st 253); (38, 45, st 520); (46, 46, st 544); (47, 47, tr 560); (48, 57, st 520); (58, 58, tr 576); (59, 59, st 520); (61, 61, st 520); (63, 63, tr 562); (64, 64, tr 263); (65, 90, st 520); (95, 95, st 520); (97, 122, st 520); (126, 126, st 520)] (st 0)].
(** lines 9522-9665 *)
Definition uri_code_68 : list (item action) := [
  St 544 [(2, 2, st 233); (33, 33, st 520); (35, 35, tr 559); (36, 36, st 520); (37, 37, st 253); (38, 46, st 520); (47, 47, tr 560); (48, 48, st 545); (49, 49, st 553); (50, 50, st 555); (51, 57, st 554); (58, 58, tr 576); (59, 59, st 520); (61, 61, st 520); (63, 63, tr 562); (64, 64, tr 263); (65, 90, st 520); (95, 95, st 520); (97, 122, st 520); (126, 126, st 520)] (st 0);
  St 545 [(33, 33, st 520); (35, 35, tr 559); (36, 36, st 520); (37, 37, st 253); (38, 45, st 520); (46, 46, st 546); (47, 47, tr 560); (48, 57, st 520); (58, 58, tr 576); (59, 59, st 520); (61, 61, st 520); (63, 63, tr 562); (64, 64, tr 263); (65, 90, st 520); (95, 95, st 520); (97, 122, st 520); (126, 126, st 520)] (st 0);
  St 546 [(2, 2, st 237); (33, 33, st 520); (35, 35, tr 559); (36, 36, st 520); (37, 37, st 253); (38, 46, st 520); (47, 47, tr 560); (48, 48, st 547); (49, 49, st 549); (50, 50, st 551); (51, 57, st 550); (58, 58, tr 576); (59, 59, st 520); (61, 61, st 520); (63, 63, tr 562); (64, 64, tr 263); (65, 90, st 520); (95, 95, st 520); (97, 122, st 520); (126, 126, st 520)] (st 0);
  St 547 [(33, 33, st 520); (35, 35, tr 559); (36, 36, st 520); (37, 37, st 253); (38, 45, st 520); (46, 46, st 548); (47, 47, tr 560); (48, 57, st 520); (58, 58, tr 576); (59, 59, st 520); (61, 61, st 520); (63, 63, tr 562); (64, 64, tr 263); (65, 90, st 520); (95, 95, st 520); (97, 122, st 520); (126, 126, st 520)] (st 0);
  St 548 [(2, 2, st 241); (33, 33, st 520); (35, 35, tr 559); (36, 36, st 520); (37, 37, st 253); (38, 46, st 520); (47, 47, tr 560); (48, 57, st 520); (58, 58, tr 576); (59, 59, st 520); (61, 61, st 520); (63, 63, tr 562); (64, 64, tr 263); (65, 90, st 520); (95, 95, st 520); (97, 122, st 520); (126, 126, st 520)] (st 0)].
(** lines 9666-9788 *)
Definition uri_code_69 : list (item action) := [
  St 549 [(33, 33, st 520); (35, 35, tr 559); (36, 36, st 520); (37, 37, st 253); (38, 45, st 520); (46, 46, st 548); (47, 47, tr 560); (48, 57, st 550); (58, 58, tr 576); (59, 59, st 520); (61, 61, st 520); (63, 63, tr 562); (64, 64, tr 263); (65, 90, st 520); (95, 95, st 520); (97, 122, st 520); (126, 126, st 520)] (st 0);
  St 550 [(33, 33, st 520); (35, 35, tr 559); (36, 36, st 520); (37, 37, st 253); (38, 45, st 520); (46, 46, st 548); (47, 47, tr 560); (48, 57, st 547); (58, 58, tr 576); (59, 59, st 520); (61, 61, st 520); (63, 63, tr 562); (64, 64, tr 263); (65, 90, st 520); (95, 95, st 520); (97, 122, st 520); (126, 126, st 520)] (st 0);
  St 551 [(33, 33, st 520); (35, 35, tr 559); (36, 36, st 520); (37, 37, st 253); (38, 45, st 520); (46, 46, st 548); (47, 47, tr 560); (48, 52, st 547); (53, 53, st 552); (54, 57, st 547); (58, 58, tr 576); (59, 59, st 520); (61, 61, st 520); (63, 63, tr 562); (64, 64, tr 263); (65, 90, st 520); (95, 95, st 520); (97, 122, st 520); (126, 126, st 520)] (st 0);
  St 552 [(33, 33, st 520); (35, 35, tr 559); (36, 36, st 520); (37, 37, st 253); (38, 45, st 520); (46, 46, st 548); (47, 47, tr 560); (48, 53, st 547); (54, 57, st 520); (58, 58, tr 576); (59, 59, st 520); (61, 61, st 520); (63, 63, tr 562); (64, 64, tr 263); (65, 90, st 520); (95, 95, st 520); (97, 122, st 520); (126, 126, st 520)] (st 0)].
(** lines 9789-9915 *)
Definition uri_code_70 : list (item action) := [
  St 553 [(33, 33, st 520); (35, 35, tr 559); (36, 36, st 520); (37, 37, st 253); (38, 45, st 520); (46, 46, st 546); (47, 47, tr 560); (48, 57, st 554); (58, 58, tr 576); (59, 59, st 520); (61, 61, st 520); (63, 63, tr 562); (64, 64, tr 263); (65, 90, st 520); (95, 95, st 520); (97, 122, st 520); (126, 126, st 520)] (st 0);
  St 554 [(33, 33, st 520); (35, 35, tr 559); (36, 36, st 520); (37, 37, st 253); (38, 45, st 520); (46, 46, st 546); (47, 47, tr 560); (48, 57, st 545); (58, 58, tr 576); (59, 59, st 520); (61, 61, st 520); (63, 63, tr 562); (64, 64, tr 263); (65, 90, st 520); (95, 95, st 520); (97, 122, st 520); (126, 126, st 520)] (st 0);
  St 555 [(33, 33, st 520); (35, 35, tr 559); (36, 36, st 520); (37, 37, st 253); (38, 45, st 520); (46, 46, st 546); (47, 47, tr 560); (48, 52, st 545); (53, 53, st 556); (54, 57, st 545); (58, 58, tr 576); (59, 59, st 520); (61, 61, st 520); (63, 63, tr 562); (64, 64, tr 263); (65, 90, st 520); (95, 95, st 520); (97, 122, st 520); (126, 126, st 520)] (st 0);
  St 556 [(33, 33, st 520); (35, 35, tr 559); (36, 36, st 520); (37, 37, st 253); (38, 45, st 520); (46, 46, st 546); (47, 47, tr 560); (48, 53, st 545); (54, 57, st 520); (58, 58, tr 576); (59, 59, st 520); (61, 61, st 520); (63, 63, tr 562); (64, 64, tr 263); (65, 90, st 520); (95, 95, st 520); (97, 122, st 520); (126, 126, st 520)] (st 0);
  Tr 552 [Markh] 557].
(** lines 9916-10049 *)
Definition uri_code_71 : list (item action) := [
  St 557 [(33, 33, st 520); (35, 35, tr 559); (36, 36, st 520); (37, 37, st 253); (38, 45, st 520); (46, 46, st 544); (47, 47, tr 560); (48, 57, st 558); (58, 58, tr 576); (59, 59, st 520); (61, 61, st 520); (63, 63, tr 562); (64, 64, tr 263); (65, 90, st 520); (95, 95, st 520); (97, 122, st 520); (126, 126, st 520)] (st 0);
  Tr 554 [Markh] 558;
  St 558 [(33, 33, st 520); (35, 35, tr 559); (36, 36, st 520); (37, 37, st 253); (38, 45, st 520); (46, 46, st 544); (47, 47, tr 560); (48, 57, st 543); (58, 58, tr 576); (59, 59, st 520); (61, 61, st 520); (63, 63, tr 562); (64, 64, tr 263); (65, 90, st 520); (95, 95, st 520); (97, 122, st 520); (126, 126, st 520)] (st 0);
  Tr 553 [Markh] 559;
  St 559 [(33, 33, st 520); (35, 35, tr 559); (36, 36, st 520); (37, 37, st 253); (38, 45, st 520); (46, 46, st 544); (47, 47, tr 560); (48, 52, st 543); (53, 53, st 560); (54, 57, st 543); (58, 58, tr 576); (59, 59, st 520); (61, 61, st 520); (63, 63, tr 562); (64, 64, tr 263); (65, 90, st 520); (95, 95, st 520); (97, 122, st 520); (126, 126, st 520)] (st 0);
  St 560 [(33, 33, st 520); (35, 35, tr 559); (36, 36, st 520); (37, 37, st 253); (38, 45, st 520); (46, 46, st 544); (47, 47, tr 560); (48, 53, st 543); (54, 57, st 520); (58, 58, tr 576); (59, 59, st 520); (61, 61, st 520); (63, 63, tr 562); (64, 64, tr 263); (65, 90, st 520); (95, 95, st 520); (97, 122, st 520); (126, 126, st 520)] (st 0)].
Definition uri_code : list (item action) := uri_code_1 ++ uri_code_2 ++ uri_code_3 ++ uri_code_4 ++ uri_code_5
  ++ uri_code_6 ++ uri_code_7 ++ uri_code_8 ++ uri_code_9 ++ uri_code_10 ++ uri_code_11 ++ uri_code_12 ++
  uri_code_13 ++ uri_code_14 ++ uri_code_15 ++ uri_code_16 ++ uri_code_17 ++ uri_code_18 ++ uri_code_19 ++
  uri_code_20 ++ uri_code_21 ++ uri_code_22 ++ uri_code_23 ++ uri_code_24 ++ uri_code_25 ++ uri_code_26 ++
  uri_code_27 ++ uri_code_28 ++ uri_code_29 ++ uri_code_30 ++ uri_code_31 ++ uri_code_32 ++ uri_code_33 ++
  uri_code_34 ++ uri_code_35 ++ uri_code_36 ++ uri_code_37 ++ uri_code_38 ++ uri_code_39 ++ uri_code_40 ++
  uri_code_41 ++ uri_code_42 ++ uri_code_43 ++ uri_code_44 ++ uri_code_45 ++ uri_code_46 ++ uri_code_47 ++
  uri_code_48 ++ uri_code_49 ++ uri_code_50 ++ uri_code_51 ++ uri_code_52 ++ uri_code_53 ++ uri_code_54 ++
  uri_code_55 ++ uri_code_56 ++ uri_code_57 ++ uri_code_58 ++ uri_code_59 ++ uri_code_60 ++ uri_code_61 ++
  uri_code_62 ++ uri_code_63 ++ uri_code_64 ++ uri_code_65 ++ uri_code_66 ++ uri_code_67 ++ uri_code_68 ++
  uri_code_69 ++ uri_code_70 ++ uri_code_71.
(** lines 10615-10761: the actions at the end of the text *)
Definition uri_eof_1 : list (list Z * list action) := [
  ([462; 489], [SavePort]);
  ([460; 463; 464; 465; 466; 467; 470; 471; 472; 473; 474; 475; 476; 477; 478; 479; 480; 481; 482; 483; 484;
   485; 486; 487; 488; 490; 491; 492; 493; 494; 495; 496; 497; 498; 499; 500; 501; 502; 503; 504; 505; 506;
   507], [SaveHost]);
  ([513], [SavePath]);
  ([457], [SaveQuery]);
  ([454], [SaveFragment]);
  ([456], [Marku; SaveQuery]);
  ([453], [Marku; SaveFragment]);
  ([461; 468], [Markh; SavePort]);
  ([459; 469], [Markh; SaveHost]);
  ([514; 521], [Markh; SavePort; SavePath])].
(** lines 10762-10856: the actions at the end of the text *)
Definition uri_eof_2 : list (list Z * list action) := [
  ([511; 522], [Markh; SaveHost; SavePath]);
  ([515; 542], [SavePort; Markh; SavePath]);
  ([512; 516; 517; 518; 519; 520; 523; 524; 525; 526; 527; 528; 529; 530; 531; 532; 533; 534; 535; 536; 537;
   538; 539; 540; 541; 543; 544; 545; 546; 547; 548; 549; 550; 551; 552; 553; 554; 555; 556; 557; 558; 559;
   560], [SaveHost; Markh; SavePath])].
Definition uri_eof : list (list Z * list action) := uri_eof_1 ++ uri_eof_2.
