(* ===== verification/Uri.v ===== *)
(** * URIs (cxk/uri.rl.cpp, cxk/uri.h)

    The class over the program of [UriMachine]; the grammar that uri.rl
    announces for it, as regular expressions; what the program accepts and what
    it stores.  [getaddrinfo] is a parameter. *)
From S2P Require Import Prelude Ragel UriMachine Address.

Record Uri : Type := mkUri {
  m_scheme : list Z; m_userinfo : list Z; m_host : list Z; m_port : Z;
  m_path : list Z; m_query : list Z; m_fragment : list Z
}.
#[export] Instance Uri_eq_dec : EqDecision Uri.
Proof. solve_decision. Defined.
Definition new_Uri : Uri := mkUri [] [] [] 0 [] [] [].
Definition setScheme v u := mkUri v (m_userinfo u) (m_host u) (m_port u) (m_path u) (m_query u) (m_fragment u).
Definition setUserinfo v u := mkUri (m_scheme u) v (m_host u) (m_port u) (m_path u) (m_query u) (m_fragment u).
Definition setHost v u := mkUri (m_scheme u) (m_userinfo u) v (m_port u) (m_path u) (m_query u) (m_fragment u).
Definition setPort v u := mkUri (m_scheme u) (m_userinfo u) (m_host u) (u32 v) (m_path u) (m_query u) (m_fragment u).
Definition setPath v u := mkUri (m_scheme u) (m_userinfo u) (m_host u) (m_port u) v (m_query u) (m_fragment u).
Definition setQuery v u := mkUri (m_scheme u) (m_userinfo u) (m_host u) (m_port u) (m_path u) v (m_fragment u).
Definition setFragment v u := mkUri (m_scheme u) (m_userinfo u) (m_host u) (m_port u) (m_path u) (m_query u) v.

Definition web_port (u : Uri) : option Z :=
  if bool_decide (m_scheme u = bytes "http") || bool_decide (m_scheme u = bytes "ws") then Some 80
  else if bool_decide (m_scheme u = bytes "https") || bool_decide (m_scheme u = bytes "wss") then Some 443
  else None.
Definition isDefaultPort (u : Uri) : bool :=
  if m_port u =? 0 then true else match web_port u with Some p => m_port u =? p | None => false end.
Definition getPath (u : Uri) : list Z := match m_path u with [] => [47] | p => p end.
Definition getPort (u : Uri) : Z :=
  if negb (m_port u =? 0) then i32 (m_port u) else match web_port u with Some p => p | None => i32 (m_port u) end.
(** [c << s] when [s] is not empty. *)
Definition prefixed (c : Z) (s : list Z) : list Z := match s with [] => [] | _ => c :: s end.
Definition suffixed (c : Z) (s : list Z) : list Z := match s with [] => [] | _ => s ++ [c] end.
Definition dump (u : Uri) : list Z :=
  m_scheme u ++ [58; 47; 47] ++ suffixed 64 (m_userinfo u) ++ m_host u
    ++ (if isDefaultPort u then [] else 58 :: dec (m_port u))
    ++ getPath u ++ prefixed 63 (m_query u) ++ prefixed 35 (m_fragment u).
Definition toString : Uri -> list Z := dump.

Section Address.
Context (getaddrinfo : list Z -> option (list Z) -> Z -> Z -> Z -> option (list raw)).
Definition address_setPort (v : Z) (a : Address) : Address :=
  match a with
  | IPv4Address a => IPv4Address (IPv4_setPort (u16 v) a)
  | IPv6Address a => IPv6Address (IPv6_setPort (u16 v) a)
  | a => a
  end.
Definition createAddress (u : Uri) : option Address :=
  address_setPort (getPort u) <$> LookupAnyIpAddr getaddrinfo (m_host u) AF_INET 0 0.
End Address.

(** ** [Uri::Create] *)
Definition uri_table : table action := table_of uri_code.
Definition eof_acts (cs : Z) : list action :=
  match List.find (fun g => bool_decide (cs ∈ g.1)) uri_eof with Some g => g.2 | None => [] end.

(** The locals [mark] (an offset, [None] for the null pointer) and [uri]. *)
Record parsing : Type := mkParsing { mark : option nat; the_uri : Uri }.
Section Create.
Context (uristr : list Z).
(** [std::string(mark, p - mark)] *)
Definition marked (s : parsing) (p : nat) : outcome (list Z) :=
  match mark s with
  | None => Crash
  | Some m => if (m <=? p)%nat then Ret (slice m (p - m) uristr) else Crash
  end.
Definition save (f : list Z -> Uri -> Uri) (p : nat) (s : parsing) : outcome parsing :=
  v ← marked s p; mret (mkParsing None (f v (the_uri s))).
Definition uri_act (a : action) (p : nat) (s : parsing) : outcome parsing :=
  match a with
  | Marku | Markh => mret (mkParsing (Some p) (the_uri s))
  | SaveScheme => save setScheme p s
  | SavePort =>
      if decide (mark s = Some p) then mret (mkParsing None (the_uri s))
      else
        match mark s with
        | None => Crash
        | Some m => v ← atoi (drop m uristr); mret (mkParsing None (setPort v (the_uri s)))
        end
  | SaveUserinfo =>
      match mark s with
      | None => mret (mkParsing None (the_uri s))
      | Some _ => save setUserinfo p s
      end
  | SaveHost =>
      match mark s with
      | None => mret s
      | Some m => v ← marked s p; mret (mkParsing (Some m) (setHost v (the_uri s)))
      end
  | SavePath => save setPath p s
  | SaveQuery => save setQuery p s
  | SaveFragment => save setFragment p s
  end.
Definition no_stop (a : action) : bool := false.
Definition no_widec (c : Z) : Z := c.

Definition Create : outcome (option Uri) :=
  '(cs, p, s) ← exec uri_table no_widec uri_act no_stop uri_parser_start 0 uristr (mkParsing None new_Uri);
  if cs =? 0 then mret None
  else
    s ← run_acts uri_act (eof_acts cs) p s;
    if uri_parser_first_final <=? cs then mret (Some (the_uri s)) else mret None.
End Create.


(** ** The grammar of uri.rl (RFC 3986)

    Line by line, the oddities included: the third form of [dec_octet] starts
    with the byte 2 and not with the digit, and a [pchar] may be any byte
    outside ASCII. *)
Definition chars (s : string) : list (Z * Z) := map (fun c => (c, c)) (bytes s).
Definition alpha_r : list (Z * Z) := [(65, 90); (97, 122)].
Definition digit_r : list (Z * Z) := [(48, 57)].
Definition xdigit_r : list (Z * Z) := [(48, 57); (65, 70); (97, 102)].
Definition sub_delims_r : list (Z * Z) := chars "!$&'()*+,;=".
Definition unreserved_r : list (Z * Z) := alpha_r ++ digit_r ++ chars "-._~".
Definition non_ascii_r : list (Z * Z) := [(128, 255)].
Definition digit1 : re := Chr digit_r.
Definition xdigit1 : re := Chr xdigit_r.
Definition pct_encoded : re := seqs [chr 37; xdigit1; xdigit1].

Definition scheme : re := Seq (Chr alpha_r) (Rep (Chr (alpha_r ++ digit_r ++ chars "+-."))).
Definition userinfo : re := Rep (Alt (Chr (unreserved_r ++ sub_delims_r ++ chars ":")) pct_encoded).
Definition dec_octet : re := alts [
  digit1; Seq (Chr [(49, 57)]) digit1; seqs [chr 49; digit1; digit1];
  seqs [chr 2; Chr [(48, 52)]; digit1]; seqs [chr 50; chr 53; Chr [(48, 53)]]].
Definition IPv4address : re := seqs [dec_octet; chr 46; dec_octet; chr 46; dec_octet; chr 46; dec_octet].
Definition h16 : re := upto 4 xdigit1.
Definition h16c : re := Seq h16 (chr 58).
Definition ls32 : re := Alt (Seq h16c h16) IPv4address.
Definition colons : re := lit [58; 58].
Definition IPv6address : re := alts [
  Seq (times 6 h16c) ls32;
  seqs [colons; times 5 h16c; ls32];
  seqs [opt h16; colons; times 4 h16c; ls32];
  seqs [opt (Seq (times 1 h16c) h16); colons; times 3 h16c; ls32];
  seqs [opt (Seq (times 2 h16c) h16); colons; times 2 h16c; ls32];
  seqs [opt (Seq (times 3 h16c) h16); colons; times 1 h16c; ls32];
  seqs [opt (Seq (times 4 h16c) h16); colons; ls32];
  seqs [opt (Seq (times 5 h16c) h16); colons; h16];
  seqs [opt (Seq (times 6 h16c) h16); colons]].
Definition IPvFuture : re := seqs [chr 118; plus xdigit1; chr 46; plus (Chr (unreserved_r ++ sub_delims_r ++ chars ":"))].
Definition IP_literal : re := seqs [chr 91; Alt IPv6address IPvFuture; chr 93].
Definition reg_name : re := Rep (Alt (Chr (unreserved_r ++ sub_delims_r)) pct_encoded).
Definition host : re := alts [IP_literal; IPv4address; reg_name].
Definition port : re := Rep digit1.
Definition authority : re := seqs [opt (Seq userinfo (chr 64)); host; opt (Seq (chr 58) port)].

Definition pchar_r : list (Z * Z) := non_ascii_r ++ unreserved_r ++ sub_delims_r ++ chars ":@".
Definition pchar : re := Alt (Chr pchar_r) pct_encoded.
Definition segment : re := Rep pchar.
Definition segment_nz : re := plus pchar.
Definition segment_nz_nc : re := plus (Alt (Chr (non_ascii_r ++ unreserved_r ++ sub_delims_r ++ chars "@")) pct_encoded).
Definition slash_segment : re := Seq (chr 47) segment.
Definition path_abempty : re := Seq (opt slash_segment) (Rep slash_segment).
Definition path_absolute : re := Seq (chr 47) (opt (Seq segment_nz (Rep slash_segment))).
Definition path_noscheme : re := Seq segment_nz_nc (Rep slash_segment).
Definition path_rootless : re := Seq segment_nz (Rep slash_segment).
Definition query : re := Rep (Alt (Chr (pchar_r ++ chars "/?")) pct_encoded).
Definition fragment : re := query.
Definition hier_part : re := alts [seqs [lit [47; 47]; authority; path_abempty]; path_absolute; path_rootless; Eps].
Definition relative_part : re := alts [seqs [lit [47; 47]; authority; path_abempty]; path_absolute; path_noscheme; Eps].
Definition tail_part : re := Seq (opt (Seq (chr 63) query)) (opt (Seq (chr 35) fragment)).
Definition relative_ref : re := Seq relative_part tail_part.
Definition URI : re := seqs [scheme; chr 58; hier_part; tail_part].
Definition URI_reference : re := Alt URI relative_ref.


Definition uri_classes : intervals := Eval vm_compute in classes (table_cuts uri_table ++ cut_points URI_reference).
Definition uri_fuel : nat := Z.to_nat 10000.
Definition uri_nfa : nfa := build uri_classes uri_fuel URI_reference.
Definition uri_final (q : Z) : bool := uri_parser_first_final <=? q.
Definition uri_pairs : pairs := explore uri_table no_widec uri_classes uri_nfa uri_fuel [(uri_parser_start, [0])] ∅.

Lemma uri_classes_ok : covers uri_classes && fits uri_table no_widec uri_classes = true.
Proof. vm_cast_no_check (eq_refl true). Qed.
Lemma uri_checked : nfa_ok uri_classes uri_nfa && bool_decide (n_re <$> uri_nfa !! 0 = Some URI_reference)
  && sane uri_classes uri_nfa 0 && bisim uri_table no_widec uri_classes uri_nfa uri_final uri_pairs
  && related uri_pairs uri_parser_start [0] = true.
Proof. vm_cast_no_check (eq_refl true). Qed.

#[local] Opaque uri_table uri_classes uri_nfa uri_pairs.
Lemma uri_accepts text : Forall byte_ok text ->
  (uri_final (states uri_table no_widec uri_parser_start text) = true <-> matches URI_reference text).
Proof.
  intros Hb. pose proof uri_classes_ok as [Hc Hf]%andb_true_iff.
  pose proof uri_checked as
    [[[[Hn H0%bool_decide_eq_true]%andb_true_iff Hs]%andb_true_iff HB]%andb_true_iff Hr]%andb_true_iff.
  assert (HL : forallb (sane uri_classes uri_nfa) [0] = true) by (cbn [forallb]; rewrite Hs; reflexivity).
  pose proof (bisim_accepts uri_table no_widec uri_classes uri_nfa Hc Hf Hn uri_final uri_pairs uri_parser_start [0]
    text HB) as HA.
  specialize (HA eq_refl).
  specialize (HA Hr HL Hb).
  rewrite HA.
  split; intros Hm.
  - exact (in_nfa_start_inv _ _ _ H0 Hm).
  - exact (in_nfa_start _ _ _ H0 Hm).
Qed.

(** ** The texts the program takes apart

    The states it reaches after each part of [dump]. *)
Definition seg := (list action * re)%type.
Definition after (qs : list Z) (segs : list seg) : option (list Z) :=
  chain uri_table no_widec uri_classes uri_fuel qs segs.
Definition stage (qs : list Z) (segs : list seg) : list Z := default [] (after qs segs).
Definition digits_re : re := plus digit1.
(** A user name without a colon. *)
Definition user : re := reg_name.
Definition scheme_part : list seg := [([Marku], scheme); ([SaveScheme], lit [58; 47; 47])].
Definition user_part : list seg := [([Markh], user); ([SaveUserinfo], chr 64)].
Definition host_part : list seg := [([Markh], host)].
Definition port_part : list seg := [([SaveHost], chr 58); ([Markh], digits_re)].
Definition path_part (a : action) : list seg := [([a; Markh], path_abempty)].
Definition query_part : list seg := [([SavePath], chr 63); ([Marku], query)].
Definition fragment_part (a : action) : list seg := [([a], chr 35); ([Marku], fragment)].

Definition qA := stage [uri_parser_start] scheme_part.
Definition qB := stage qA user_part.
Definition qC := stage (qA ++ qB) host_part.
Definition qD := stage qC port_part.
Definition qE := stage qC (path_part SaveHost) ++ stage qD (path_part SavePort).
Definition qF := stage qE query_part.
Definition qG := stage qE (fragment_part SavePath) ++ stage qF (fragment_part SaveQuery).
(** An empty port: the action of the path's start comes before the port's end. *)
Definition no_port_part : list seg := [([SaveHost], chr 58); ([Markh; SavePort], path_abempty)].
Definition qX := stage qC no_port_part.

Definition uri_stages : list (list Z * list seg) := [
  ([uri_parser_start], scheme_part); (qA, user_part); (qA ++ qB, host_part); (qC, port_part);
  (qC, path_part SaveHost); (qD, path_part SavePort); (qE, query_part);
  (qE, fragment_part SavePath); (qF, fragment_part SaveQuery); (qC, no_port_part)].
Definition ends_with (a : action) (qs : list Z) : bool :=
  forallb (fun q => bool_decide (eof_acts q = [a]) && uri_final q) qs.
Lemma stages_checked : forallb (fun e => is_some (after e.1 e.2)) uri_stages
  && ends_with SavePath qX && ends_with SavePath qE && ends_with SaveQuery qF && ends_with SaveFragment qG = true.
Proof. vm_cast_no_check (eq_refl true). Qed.
Lemma stage_at k qs segs : uri_stages !! k = Some (qs, segs) -> after qs segs = Some (stage qs segs).
Proof.
  intros Hk%list_elem_of_lookup_2. pose proof stages_checked as [[[[H _]%andb_true_iff _]%andb_true_iff _]%andb_true_iff _]%andb_true_iff.
  pose proof (forallb_in _ _ _ H Hk) as Hs. unfold stage. revert Hs. cbn [fst snd]. by destruct (after qs segs).
Qed.

Lemma stage_7 : uri_stages !! 7%nat = Some (qE, fragment_part SavePath).
Proof. reflexivity. Qed.
Lemma stage_8 : uri_stages !! 8%nat = Some (qF, fragment_part SaveQuery).
Proof. reflexivity. Qed.

Lemma stage_9 : uri_stages !! 9%nat = Some (qC, no_port_part).
Proof. reflexivity. Qed.

(** Two sets are unions. *)
Lemma union_l (l k : list Z) : l ⊆ l ++ k.
Proof. intros x. rewrite elem_of_app. auto. Qed.
Lemma union_r (l k : list Z) : k ⊆ l ++ k.
Proof. intros x. rewrite elem_of_app. auto. Qed.
Lemma path_states : stage qC (path_part SaveHost) ⊆ qE /\ stage qD (path_part SavePort) ⊆ qE.
Proof. split; [apply union_l|apply union_r]. Qed.
Lemma fragment_states : stage qE (fragment_part SavePath) ⊆ qG /\ stage qF (fragment_part SaveQuery) ⊆ qG.
Proof. split; [apply union_l|apply union_r]. Qed.

#[local] Opaque after stage qA qB qC qD qE qF qG qX.
Section Run.
Context (text : list Z).
Abbreviation run := (exec uri_table no_widec (uri_act text) no_stop).

Lemma slice_mid {B} (a b c : list B) : slice (length a) (length b) (a ++ b ++ c) = b.
Proof. unfold slice. by rewrite drop_app_length, take_app_length. Qed.
Lemma marked_mid a b c u p : text = a ++ b ++ c -> p = (length a + length b)%nat ->
  marked text (mkParsing (Some (length a)) u) p = Ret b.
Proof.
  intros E ->. unfold marked. cbn [mark]. rewrite (proj2 (Nat.leb_le _ _)) by lia. f_equal.
  replace (length a + length b - length a)%nat with (length b) by lia. rewrite E. apply slice_mid.
Qed.

(** A word that its segment reads. *)
Definition piece (sg : seg) (w : list Z) : Prop := matches sg.2 w /\ w <> [] /\ bounded sg.2 = true.
Lemma lit_piece acts l : l <> [] -> bounded (lit l) = true -> piece (acts, lit l) l.
Proof. intros. split_and!; [apply matches_lit|done..]. Qed.
Lemma re_piece acts r w : matches r w -> w <> [] -> bounded r = true -> piece (acts, r) w.
Proof. intros. by split_and!. Qed.
Lemma one_piece a w : piece a w -> Forall2 piece [a] [w].
Proof. intros. constructor; [done|constructor]. Qed.
Lemma two_pieces a b w v : piece a w -> piece b v -> Forall2 piece [a; b] [w; v].
Proof. intros Ha Hb. constructor; [done|by apply one_piece]. Qed.

(** The program stands before [rest], in a state of [qs]. *)
Definition stands (qs : list Z) (pre rest : list Z) (s : parsing) : Prop :=
  text = pre ++ rest /\ exists q, q ∈ qs /\
    run uri_parser_start 0 text (mkParsing None new_Uri) = run q (length pre) rest s.

Lemma stands_stage k qs segs ws pre rest s s' :
  uri_stages !! k = Some (qs, segs) -> stands qs pre (concat ws ++ rest) s ->
  Forall2 piece segs ws ->
  chain_acts (uri_act text) segs ws (length pre) s = Ret s' ->
  stands (stage qs segs) (pre ++ concat ws) rest s'.
Proof.
  intros Ha%stage_at (Et & q & Hq & Er) HF Hc. split; [by rewrite <- app_assoc|].
  pose proof uri_classes_ok as [Hcov Hfit]%andb_true_iff.
  destruct (chain_run uri_table no_widec uri_classes uri_fuel Hcov Hfit (uri_act text) no_stop
    qs segs (stage qs segs) q ws rest (length pre) s s' Ha Hq) as (q' & Hq' & E); [|done|].
  - refine (list.Forall2_impl _ _ _ _ HF _). intros [acts r] w (Hm & Hne & Hb). unfold seg_text. cbn [fst snd] in *.
    split_and!; [done..|by apply (matches_bytes r)|by induction acts].
  - exists q'. split; [done|]. by rewrite Er, E, length_app.
Qed.

(** The parts, each with what it leaves in [mark] and in the URI. *)
Lemma stands_start qs pre rest s : stands qs pre rest s -> text = pre ++ rest.
Proof. by intros []. Qed.
Lemma weaken_stands qs qs' pre rest s : qs ⊆ qs' -> stands qs pre rest s -> stands qs' pre rest s.
Proof. intros Hs (Et & q & Hq & Er). split; [done|]. exists q. auto. Qed.
(** One segment: its actions run at its beginning. *)
Lemma chain_one acts r w p s : chain_acts (uri_act text) [(acts, r)] [w] p s = run_acts (uri_act text) acts p s.
Proof. cbn. by destruct (run_acts _ acts p s). Qed.
Lemma chain_two acts r w acts' r' w' p s s1 : run_acts (uri_act text) acts p s = Ret s1 ->
  chain_acts (uri_act text) [(acts, r); (acts', r')] [w; w'] p s = run_acts (uri_act text) acts' (p + length w) s1.
Proof. intros E. cbn [chain_acts]. rewrite E. cbn. by destruct (run_acts _ acts' _ s1). Qed.
Lemma mark_run a p s : a = Marku \/ a = Markh -> run_acts (uri_act text) [a] p s = Ret (mkParsing (Some p) (the_uri s)).
Proof. by intros [-> | ->]. Qed.
(** The setters that take the text from [mark]. *)
Definition setter (a : action) : list Z -> Uri -> Uri :=
  match a with
  | SaveScheme => setScheme | SaveUserinfo => setUserinfo | SaveHost => setHost | SavePath => setPath
  | SaveQuery => setQuery | SaveFragment => setFragment | _ => fun _ u => u
  end.
Definition saves (a : action) : bool :=
  match a with SaveScheme | SaveUserinfo | SaveHost | SavePath | SaveQuery | SaveFragment => true | _ => false end.
Definition mark_after (a : action) (m : option nat) : option nat := match a with SaveHost => m | _ => None end.
Lemma save_run a pre w post u m p : text = pre ++ w ++ post -> m = length pre -> p = (m + length w)%nat ->
  saves a = true ->
  uri_act text a p (mkParsing (Some m) u) = Ret (mkParsing (mark_after a (Some m)) (setter a w u)).
Proof.
  intros Et -> -> Ha. pose proof (marked_mid pre w post u _ Et eq_refl) as E.
  clear Et. destruct a; try done; cbn [uri_act mark]; unfold save; by rewrite E.
Qed.

Lemma run_scheme sch rest : text = sch ++ [58; 47; 47] ++ rest -> matches scheme sch -> sch <> [] ->
  stands qA (sch ++ [58; 47; 47]) rest (mkParsing None (setScheme sch new_Uri)).
Proof.
  intros Et Hm Hne. pose proof (stands_stage 0 [uri_parser_start] scheme_part [sch; [58; 47; 47]] [] rest
    (mkParsing None new_Uri) (mkParsing None (setScheme sch new_Uri))) as HS. cbn [concat app] in HS. apply HS.
  - done.
  - split; [by rewrite <- app_assoc|]. exists uri_parser_start. split; [by apply list_elem_of_singleton|].
    cbn [length]. by rewrite Et, <- app_assoc.
  - apply two_pieces; [by apply re_piece|by apply lit_piece].
  - unfold scheme_part. erewrite chain_two by (apply mark_run; auto). cbn [run_acts the_uri].
    rewrite (save_run SaveScheme [] sch ([58; 47; 47] ++ rest)) by done. done.
Qed.
Lemma run_user pre us rest u : stands qA pre (us ++ 64 :: rest) (mkParsing None u) -> matches user us -> us <> [] ->
  stands qB (pre ++ us ++ [64]) rest (mkParsing None (setUserinfo us u)).
Proof.
  intros Hs Hm Hne. pose proof (stands_stage 1 qA user_part [us; [64]] pre rest
    (mkParsing None u) (mkParsing None (setUserinfo us u))) as HS. cbn [concat app] in HS. apply HS.
  - done.
  - by rewrite <- app_assoc.
  - apply two_pieces; [by apply re_piece|by apply (lit_piece _ [64])].
  - unfold user_part. erewrite chain_two by (apply mark_run; auto). cbn [run_acts the_uri]. destruct Hs as [Et _].
    rewrite (save_run SaveUserinfo pre us (64 :: rest)) by done. done.
Qed.
Lemma run_host pre h rest u : stands (qA ++ qB) pre (h ++ rest) (mkParsing None u) -> matches host h -> h <> [] ->
  stands qC (pre ++ h) rest (mkParsing (Some (length pre)) u).
Proof.
  intros Hs Hm Hne. pose proof (stands_stage 2 (qA ++ qB) host_part [h] pre rest
    (mkParsing None u) (mkParsing (Some (length pre)) u)) as HS. cbn [concat] in HS. rewrite app_nil_r in HS. apply HS.
  - done.
  - done.
  - apply one_piece. by apply re_piece.
  - unfold host_part. by rewrite chain_one, mark_run by auto.
Qed.
Lemma run_port pre h ds rest u : stands qC (pre ++ h) (58 :: ds ++ rest) (mkParsing (Some (length pre)) u) ->
  matches digits_re ds -> ds <> [] ->
  stands qD (pre ++ h ++ 58 :: ds) rest (mkParsing (Some (length (pre ++ h ++ [58]))) (setHost h u)).
Proof.
  intros Hs Hm Hne. pose proof (stands_stage 3 qC port_part [[58]; ds] (pre ++ h) rest (mkParsing (Some (length pre)) u)
    (mkParsing (Some (length (pre ++ h ++ [58]))) (setHost h u))) as HS. cbn [concat app] in HS.
  rewrite app_nil_r, <- app_assoc in HS. apply HS.
  - done.
  - done.
  - apply two_pieces; [by apply (lit_piece _ [58])|by apply re_piece].
  - destruct Hs as [Et _]. rewrite <- app_assoc in Et. unfold port_part.
    rewrite (chain_two _ _ _ _ _ _ _ _ (mkParsing (Some (length pre)) (setHost h u))).
    + rewrite mark_run by auto. by rewrite !length_app, Nat.add_assoc.
    + cbn [run_acts]. rewrite (save_run SaveHost pre h (58 :: ds ++ rest)) by (rewrite ?length_app; done). done.
Qed.
Lemma path_first c w : matches path_abempty (c :: w) -> c = 47.
Proof.
  intros Hf%matches_first. cbn in Hf. rewrite !orb_true_iff, !andb_true_iff, !Z.leb_le in Hf. lia.
Qed.
Lemma run_path_host pre h pa rest u : stands qC (pre ++ h) (pa ++ rest) (mkParsing (Some (length pre)) u) ->
  matches path_abempty pa -> pa <> [] ->
  stands qE (pre ++ h ++ pa) rest (mkParsing (Some (length (pre ++ h))) (setHost h u)).
Proof.
  intros Hs Hm Hne. apply (weaken_stands _ _ _ _ _ (proj1 path_states)).
  pose proof (stands_stage 4 qC (path_part SaveHost) [pa] (pre ++ h) rest (mkParsing (Some (length pre)) u)
    (mkParsing (Some (length (pre ++ h))) (setHost h u))) as HS. cbn [concat] in HS.
  rewrite app_nil_r, <- app_assoc in HS. apply HS.
  - done.
  - done.
  - apply one_piece. by apply re_piece.
  - destruct Hs as [Et _]. rewrite <- app_assoc in Et. unfold path_part. rewrite chain_one. cbn [run_acts].
    rewrite (save_run SaveHost pre h (pa ++ rest)) by (rewrite ?length_app; done). done.
Qed.
Lemma run_path_port pre ds pa rest u : stands qD (pre ++ ds) (pa ++ rest) (mkParsing (Some (length pre)) u) ->
  Forall digit ds -> ds <> [] -> 0 <= undigits 10 ds < 2 ^ 31 -> matches path_abempty pa -> pa <> [] ->
  stands qE (pre ++ ds ++ pa) rest (mkParsing (Some (length (pre ++ ds))) (setPort (undigits 10 ds) u)).
Proof.
  intros Hs Hd Hdn Hv Hm Hne. apply (weaken_stands _ _ _ _ _ (proj2 path_states)).
  pose proof (stands_stage 5 qD (path_part SavePort) [pa] (pre ++ ds) rest (mkParsing (Some (length pre)) u)
    (mkParsing (Some (length (pre ++ ds))) (setPort (undigits 10 ds) u))) as HS. cbn [concat] in HS.
  rewrite app_nil_r, <- app_assoc in HS. apply HS.
  - done.
  - done.
  - apply one_piece. by apply re_piece.
  - destruct Hs as [Et _]. rewrite <- app_assoc in Et. unfold path_part. rewrite chain_one. cbn [run_acts uri_act mark the_uri].
    rewrite decide_False by (rewrite length_app; destruct ds; cbn; [done|intros [=]; lia]).
    rewrite Et, drop_app_length, atoi_digits; [done..| |done].
    intros c Hc. destruct pa as [|c' pa]; [done|]. apply path_first in Hm as ->. cbn in Hc. simplify_eq. unfold digit. lia.
Qed.
Lemma run_query pre pa q rest u : stands qE (pre ++ pa) (63 :: q ++ rest) (mkParsing (Some (length pre)) u) ->
  matches query q -> q <> [] ->
  stands qF (pre ++ pa ++ 63 :: q) rest (mkParsing (Some (length (pre ++ pa ++ [63]))) (setPath pa u)).
Proof.
  intros Hs Hm Hne. pose proof (stands_stage 6 qE query_part [[63]; q] (pre ++ pa) rest (mkParsing (Some (length pre)) u)
    (mkParsing (Some (length (pre ++ pa ++ [63]))) (setPath pa u))) as HS. cbn [concat app] in HS.
  rewrite app_nil_r, <- app_assoc in HS. apply HS.
  - done.
  - done.
  - apply two_pieces; [by apply (lit_piece _ [63])|by apply re_piece].
  - destruct Hs as [Et _]. rewrite <- app_assoc in Et. unfold query_part.
    rewrite (chain_two _ _ _ _ _ _ _ _ (mkParsing None (setPath pa u))).
    + rewrite mark_run by auto. by rewrite !length_app, Nat.add_assoc.
    + cbn [run_acts]. rewrite (save_run SavePath pre pa (63 :: q ++ rest)) by (rewrite ?length_app; done). done.
Qed.
Lemma run_fragment k qs a pre v f rest u :
  uri_stages !! k = Some (qs, fragment_part a) -> stage qs (fragment_part a) ⊆ qG -> saves a = true -> mark_after a (Some 0%nat) = None ->
  stands qs (pre ++ v) (35 :: f ++ rest) (mkParsing (Some (length pre)) u) -> matches fragment f -> f <> [] ->
  stands qG (pre ++ v ++ 35 :: f) rest (mkParsing (Some (length (pre ++ v ++ [35]))) (setter a v u)).
Proof.
  intros Hk Hsub Ha Hma Hs Hm Hne. apply (weaken_stands (stage qs (fragment_part a))); [done|].
  pose proof (stands_stage k qs (fragment_part a) [[35]; f] (pre ++ v) rest (mkParsing (Some (length pre)) u)
    (mkParsing (Some (length (pre ++ v ++ [35]))) (setter a v u))) as HS. cbn [concat app] in HS.
  rewrite app_nil_r, <- app_assoc in HS. apply HS.
  - done.
  - done.
  - apply two_pieces; [by apply (lit_piece _ [35])|by apply re_piece].
  - destruct Hs as [Et _]. rewrite <- app_assoc in Et. unfold fragment_part.
    rewrite (chain_two _ _ _ _ _ _ _ _ (mkParsing None (setter a v u))).
    + rewrite mark_run by auto. by rewrite !length_app, Nat.add_assoc.
    + cbn [run_acts]. rewrite (save_run a pre v (35 :: f ++ rest)) by (rewrite ?length_app; done).
      by destruct a.
Qed.

(** The end of the text: the actions of the last state. *)
Lemma ends_at a qs q : ends_with a qs = true -> q ∈ qs -> eof_acts q = [a] /\ uri_final q = true.
Proof. intros H Hq. pose proof (forallb_in _ _ _ H Hq) as Hs. by apply andb_true_iff in Hs as [?%bool_decide_eq_true ?]. Qed.
Lemma run_eof a qs pre v m u : ends_with a qs = true -> saves a = true ->
  stands qs (pre ++ v) [] (mkParsing (Some m) u) -> m = length pre -> Create text = Ret (Some (setter a v u)).
Proof.
  intros He Ha (Et & q & Hq & Er) ->. rewrite app_nil_r in Et. destruct (ends_at a qs q He Hq) as [Ea Ef].
  unfold Create. rewrite Er. cbn [exec mbind outcome_bind]. rewrite Ea.
  unfold uri_final in Ef. assert ((q =? 0) = false) as -> by (unfold uri_parser_first_final in Ef; lia).
  rewrite Ef. cbn [run_acts]. rewrite length_app, (save_run a pre v []) by (rewrite ?app_nil_r; done). done.
Qed.
End Run.

(** ** Properties *)

(** A URI whose parts follow the grammar: the user name without a colon, the
    port an int. *)
Definition uri_wf (u : Uri) : Prop :=
  matches scheme (m_scheme u) /\ matches user (m_userinfo u) /\ matches host (m_host u) /\ m_host u <> [] /\
  0 <= m_port u < 2 ^ 31 /\ matches path_abempty (m_path u) /\ matches query (m_query u) /\
  matches fragment (m_fragment u).
(** What [dump] writes: the path is never empty, a default port is left out. *)
Definition normal (u : Uri) : Uri :=
  mkUri (m_scheme u) (m_userinfo u) (m_host u) (if isDefaultPort u then 0 else m_port u) (getPath u) (m_query u)
    (m_fragment u).

Lemma scheme_ne sch : matches scheme sch -> sch <> [].
Proof. intros Hm ->. apply rmatch_spec in Hm. by vm_compute in Hm. Qed.
Lemma digits_match ds : Forall digit ds -> ds <> [] -> matches digits_re ds.
Proof.
  intros Hd. apply matches_plus. refine (list.Forall_impl _ _ _ Hd _). intros c Hc. constructor. unfold digit in Hc.
  unfold in_ranges. cbn. rewrite orb_false_r, andb_true_iff, !Z.leb_le. lia.
Qed.
Lemma getPath_match u : matches path_abempty (m_path u) -> matches path_abempty (getPath u) /\ getPath u <> [].
Proof.
  unfold getPath. destruct (m_path u); [|done]. intros _. split; [|done]. by apply rmatch_spec.
Qed.
Section Dump.
Context (u : Uri) (Hwf : uri_wf u).
Abbreviation text := (dump u).
Lemma dump_scheme rest : text = m_scheme u ++ [58; 47; 47] ++ rest ->
  stands text qA (m_scheme u ++ [58; 47; 47]) rest (mkParsing None (setScheme (m_scheme u) new_Uri)).
Proof. intros E. destruct Hwf as (Hs & _). apply run_scheme; [done..|]. by apply scheme_ne. Qed.
Lemma dump_user pre rest v : stands text qA pre (suffixed 64 (m_userinfo u) ++ rest) (mkParsing None v) ->
  m_userinfo v = [] ->
  stands text (qA ++ qB) (pre ++ suffixed 64 (m_userinfo u)) rest (mkParsing None (setUserinfo (m_userinfo u) v)).
Proof.
  intros Hs Hv. destruct Hwf as (_ & Hu & _). unfold suffixed in *. destruct (m_userinfo u) as [|c us] eqn:E.
  - rewrite app_nil_r. apply (weaken_stands text qA); [apply union_l|]. destruct v. cbn in *. by subst.
  - apply (weaken_stands text qB); [apply union_r|]. apply run_user; [|done..]. by rewrite <- app_assoc in Hs.
Qed.
Lemma dump_authority pre rest v : m_port v = 0 ->
  stands text (qA ++ qB) pre
    (m_host u ++ (if isDefaultPort u then [] else 58 :: dec (m_port u)) ++ getPath u ++ rest) (mkParsing None v) ->
  exists pre', stands text qE (pre' ++ getPath u) rest (mkParsing (Some (length pre'))
    (setPort (if isDefaultPort u then 0 else m_port u) (setHost (m_host u) v))).
Proof.
  intros Hv0 Hs. destruct Hwf as (_ & _ & Hh & Hne & Hp & Hpa & _). apply getPath_match in Hpa as [Hpa Hpn].
  apply run_host in Hs; [|done..]. destruct (isDefaultPort u).
  - exists (pre ++ m_host u). cbn [app] in Hs. rewrite <- app_assoc. apply run_path_host in Hs; [|done..].
    replace (setPort 0 (setHost (m_host u) v)) with (setHost (m_host u) v); [done|]. destruct v. cbn in *. by subst.
  - destruct (dec_spec (m_port u)) as (Hd & Hu & Hn); [lia|].
    cbn [app] in Hs. apply run_port in Hs; [|by apply digits_match|done].
    exists ((pre ++ m_host u ++ [58]) ++ dec (m_port u)). rewrite <- (app_assoc _ (dec (m_port u))).
    replace (setPort (m_port u)) with (setPort (undigits 10 (dec (m_port u)))) by (by rewrite Hu).
    apply run_path_port; [|exact Hd|exact Hn|by rewrite Hu|exact Hpa|exact Hpn]. by rewrite <- !app_assoc.
Qed.
End Dump.

Lemma dump_tail u : uri_wf u -> forall pre v m,
  stands (dump u) qE (pre ++ getPath u) (prefixed 63 (m_query u) ++ prefixed 35 (m_fragment u))
    (mkParsing (Some m) v) -> m = length pre -> m_query v = [] -> m_fragment v = [] ->
  Create (dump u) = Ret (Some (setFragment (m_fragment u) (setQuery (m_query u) (setPath (getPath u) v)))).
Proof.
  intros (_ & _ & _ & _ & _ & _ & Hq & Hf) pre v m Hs -> Hv1 Hv2.
  pose proof stages_checked as [[[_ HE]%andb_true_iff HF]%andb_true_iff HG]%andb_true_iff.
  unfold prefixed in Hs. destruct (m_query u) as [|c q] eqn:Eq.
  - replace (setQuery [] (setPath (getPath u) v)) with (setPath (getPath u) v) by (destruct v; cbn in *; by subst).
    destruct (m_fragment u) as [|c' f] eqn:Ef; cbn [app] in Hs.
    + replace (setFragment [] (setPath (getPath u) v)) with (setPath (getPath u) v) by (destruct v; cbn in *; by subst).
      exact (run_eof _ SavePath qE pre (getPath u) _ v HE eq_refl Hs eq_refl).
    + rewrite <- (app_nil_r (c' :: f)) in Hs.
      apply (run_fragment (dump u) 7 qE SavePath) in Hs;
        [|exact stage_7|exact (proj1 fragment_states)|reflexivity|reflexivity|exact Hf|discriminate].
      replace (pre ++ getPath u ++ 35 :: c' :: f) with ((pre ++ getPath u ++ [35]) ++ c' :: f) in Hs by (by rewrite <- !app_assoc).
      exact (run_eof _ SaveFragment qG _ _ _ _ HG eq_refl Hs eq_refl).
  - apply (run_query (dump u) pre (getPath u) (c :: q)) in Hs; [|done..].
    replace (pre ++ getPath u ++ 63 :: c :: q) with ((pre ++ getPath u ++ [63]) ++ c :: q) in Hs by (by rewrite <- !app_assoc).
    destruct (m_fragment u) as [|c' f] eqn:Ef.
    + replace (setFragment [] (setQuery (c :: q) (setPath (getPath u) v))) with (setQuery (c :: q) (setPath (getPath u) v))
        by (destruct v; cbn in *; by subst).
      exact (run_eof _ SaveQuery qF _ _ _ _ HF eq_refl Hs eq_refl).
    + rewrite <- (app_nil_r (c' :: f)) in Hs.
      apply (run_fragment (dump u) 8 qF SaveQuery) in Hs;
        [|exact stage_8|exact (proj2 fragment_states)|reflexivity|reflexivity|exact Hf|discriminate].
      match type of Hs with stands _ _ (?a ++ ?b ++ 35 :: ?d) _ _ =>
        replace (a ++ b ++ 35 :: d) with ((a ++ b ++ [35]) ++ d) in Hs by (by rewrite <- !app_assoc) end.
      exact (run_eof _ SaveFragment qG _ _ _ _ HG eq_refl Hs eq_refl).
Qed.

Lemma normal_again u : isDefaultPort (normal u) = isDefaultPort u.
Proof. unfold normal. destruct (isDefaultPort u) eqn:E; [done|]. by destruct u. Qed.
Lemma getPort_normal u : getPort (normal u) = getPort u.
Proof.
  unfold getPort. change (web_port (normal u)) with (web_port u).
  change (m_port (normal u)) with (if isDefaultPort u then 0 else m_port u). unfold isDefaultPort.
  destruct (Z.eqb_spec (m_port u) 0) as [->|Hne]; [done|]. apply Z.eqb_neq in Hne.
  destruct (web_port u) as [p|] eqn:Ew; cbn [negb]; [|by rewrite Hne].
  destruct (Z.eqb_spec (m_port u) p) as [->|]; [|by rewrite Hne]. cbn. unfold web_port in Ew.
  assert (p = 80 \/ p = 443) as [-> | ->] by (repeat case_match; simplify_eq; auto); done.
Qed.
(** *** When the program goes wrong

    [save_port] reads a number of any size, and where there is none it runs
    behind [markh] and resets [mark], which [save_path] then finds null.  Both
    happen at the port of an authority, and nowhere else: the states behind the
    colon are reached by the texts of [authority_colon] only. *)
Definition authority_colon : re :=
  seqs [opt (Seq scheme (chr 58)); lit [47; 47]; opt (Seq userinfo (chr 64)); host; chr 58].
Definition colon_states : list Z := [461; 468; 514; 521].
Definition behind_colon (q : Z) : bool := bool_decide (q ∈ colon_states).
Definition port_states : list Z := [462; 489; 515; 542].
Definition in_port (q : Z) : bool := bool_decide (q ∈ port_states).

Definition colon_nfa : nfa := build uri_classes uri_fuel authority_colon.
Definition colon_pairs : pairs :=
  explore_live uri_table no_widec uri_classes colon_nfa (10 * uri_fuel) [(uri_parser_start, [0])] ∅.
Lemma colon_checked : nfa_ok uri_classes colon_nfa && bool_decide (n_re <$> colon_nfa !! 0 = Some authority_colon)
  && sane uri_classes colon_nfa 0 && included uri_table no_widec uri_classes colon_nfa behind_colon colon_pairs
  && related colon_pairs uri_parser_start [0] = true.
Proof. vm_cast_no_check (eq_refl true). Qed.
#[local] Opaque colon_nfa colon_pairs.
Lemma colon_text pre : Forall byte_ok pre ->
  behind_colon (states uri_table no_widec uri_parser_start pre) = true -> matches authority_colon pre.
Proof.
  intros Hb Hq. pose proof uri_classes_ok as [Hc Hf]%andb_true_iff.
  pose proof colon_checked as
    [[[[Hn H0%bool_decide_eq_true]%andb_true_iff Hs]%andb_true_iff HB]%andb_true_iff Hr]%andb_true_iff.
  assert (HL : forallb (sane uri_classes colon_nfa) [0] = true) by (cbn [forallb]; rewrite Hs; reflexivity).
  exact (in_nfa_start_inv _ _ _ H0 (included_accepts uri_table no_widec uri_classes colon_nfa Hc Hf Hn behind_colon
    colon_pairs uri_parser_start [0] pre HB eq_refl Hr HL Hb Hq)).
Qed.

(** Whether [mark] is set after the actions, [None] when one of them reads
    through a null [mark]. *)
Definition set_mark (a : action) (b : bool) : option bool :=
  match a with
  | Marku | Markh => Some true
  | SaveUserinfo => Some false
  | SaveHost => Some b
  | _ => if b then Some false else None
  end.
Fixpoint set_marks (acts : list action) (b : bool) : option bool :=
  match acts with [] => Some b | a :: acts => b' ← set_mark a b; set_marks acts b' end.
Definition skips_port (acts : list action) : bool :=
  match acts with Markh :: SavePort :: _ => true | _ => false end.
Definition saves_port (a : action) : bool := match a with SavePort => true | _ => false end.
(** [save_port] runs first, or behind [markh], or not at all. *)
Definition port_first (acts : list action) : bool := match acts with SavePort :: _ => true | _ => false end.
Definition port_rest (acts : list action) : list action :=
  match acts with Markh :: SavePort :: l | SavePort :: l => l | l => l end.

(** Whether [mark] is set and whether an empty port was seen, state by state. *)
Definition marks : Type := gmap Z (list (bool * bool)).
Definition flags_eqb (a b : bool * bool) : bool := eqb a.1 b.1 && eqb a.2 b.2.
Definition marked_as (R : marks) (q : Z) (b : bool * bool) : bool :=
  match R !! q with Some l => existsb (flags_eqb b) l | None => false end.
Definition flags_after (acts : list action) (b : bool * bool) : option bool * bool :=
  (set_marks acts b.1, b.2 || skips_port acts).
Definition mark_steps (q : Z) (b : bool * bool) : list (Z * Z * Z * (option bool * bool)) :=
  omap (fun i => let '(acts, q') := next uri_table no_widec q i.1 in
    if q' =? 0 then None else Some (i, q', flags_after acts b)) uri_classes.
Fixpoint mark_explore (fuel : nat) (todo : list (Z * (bool * bool))) (R : marks) : marks :=
  match fuel, todo with
  | Datatypes.S fuel, (q, b) :: todo =>
      if marked_as R q b then mark_explore fuel todo R
      else mark_explore fuel (omap (fun d => b' ← d.2.1; Some (d.1.2, (b', d.2.2))) (mark_steps q b) ++ todo)
        (<[q := b :: default [] (R !! q)]> R)
  | _, _ => R
  end.
Definition uri_marks : marks := mark_explore uri_fuel [(uri_parser_start, (false, false))] ∅.
(** A step either keeps [mark] readable or comes after an empty port. *)
Definition flags_ok (R : marks) (q : Z) (d : option bool * bool) : bool :=
  match d.1 with Some b' => marked_as R q (b', d.2) | None => d.2 end.
Definition mark_ok (R : marks) (q : Z) (b : bool * bool) : bool :=
  (is_some (set_marks (eof_acts q) b.1) || b.2 || skips_port (eof_acts q)) &&
  forallb (fun d => flags_ok R d.1.2 d.2) (mark_steps q b).
(** Where [save_port] runs: behind the colon of an authority when it is skipped,
    behind the digits otherwise; the digits begin behind the colon, with the
    mark. *)
Definition acts_ok (q : Z) (acts : list action) : bool :=
  (negb (skips_port acts) || behind_colon q) && (negb (port_first acts) || in_port q)
  && negb (existsb saves_port (port_rest acts)).
Definition port_step_ok (q : Z) (i : Z * Z) : bool :=
  let '(acts, q') := next uri_table no_widec q i.1 in
  (q' =? 0) || (acts_ok q acts
    && (negb (skips_port acts || port_first acts) || bool_decide (i ∈ [(47, 47); (63, 63); (35, 35)]))
    && (negb (in_port q') || ((48 <=? i.1) && (i.2 <=? 57) &&
         (behind_colon q && bool_decide (acts = [Markh]) || in_port q && bool_decide (acts = []))))).
Definition port_ok (q : Z) : bool := acts_ok q (eof_acts q) && forallb (port_step_ok q) uri_classes.
Lemma marks_checked : forallb (fun e => forallb (mark_ok uri_marks e.1) e.2 && port_ok e.1) (map_to_list uri_marks)
  && marked_as uri_marks uri_parser_start (false, false) = true.
Proof. vm_cast_no_check (eq_refl true). Qed.
Lemma flags_eqb_eq a b : flags_eqb a b = true -> a = b.
Proof. destruct a, b. unfold flags_eqb. cbn. by intros [->%eqb_prop ->%eqb_prop]%andb_true_iff. Qed.
Lemma marks_at q b : marked_as uri_marks q b = true -> mark_ok uri_marks q b = true /\ port_ok q = true.
Proof.
  unfold marked_as. intros Hq. destruct (uri_marks !! q) as [l|] eqn:E; [|done].
  apply existsb_exists in Hq as (b' & Hb%list_elem_of_In & ->%flags_eqb_eq). apply elem_of_map_to_list in E.
  pose proof marks_checked as [HC _]%andb_true_iff. pose proof (forallb_in _ _ _ HC E) as Hl.
  cbn [fst snd] in Hl. apply andb_true_iff in Hl as [Hl Hco]. split; [|done]. exact (forallb_in _ _ _ Hl Hb).
Qed.
#[local] Opaque uri_marks.
Lemma marks_step q b c : marked_as uri_marks q b = true -> byte_ok c -> (next uri_table no_widec q c).2 <> 0 ->
  let '(acts, q') := next uri_table no_widec q c in
  flags_ok uri_marks q' (flags_after acts b) = true /\ acts_ok q acts = true /\
  (skips_port acts || port_first acts = true -> c ∈ [47; 63; 35]) /\
  (in_port q' = true -> digit c /\ (behind_colon q = true /\ acts = [Markh] \/ in_port q = true /\ acts = [])).
Proof.
  intros [Hm Hco]%marks_at Hc. pose proof uri_classes_ok as [Hcov Hfit]%andb_true_iff.
  destruct (covers_class uri_classes c Hcov Hc) as (k & i & Hk%list_elem_of_lookup_2 & Hi).
  rewrite (next_class _ _ _ q i c Hfit Hk Hi). unfold mark_ok in Hm. apply andb_true_iff in Hm as [_ Hm].
  unfold port_ok in Hco. apply andb_true_iff in Hco as [_ Hco]. pose proof (forallb_in _ _ _ Hco Hk) as Hs.
  unfold port_step_ok in Hs. destruct (next uri_table no_widec q i.1) as [acts q'] eqn:En. cbn [fst snd]. intros Hq.
  rewrite (proj2 (Z.eqb_neq _ _) Hq) in Hs. cbn [orb] in Hs. apply andb_true_iff in Hs as [[Ha Hs1]%andb_true_iff Hs2].
  assert ((i, q', flags_after acts b) ∈ mark_steps q b) as Hin.
  { unfold mark_steps. apply list_elem_of_omap. exists i. split; [done|]. rewrite En. by rewrite (proj2 (Z.eqb_neq _ _) Hq). }
  apply in_class_iff in Hi. split; [exact (forallb_in _ _ _ Hm Hin)|]. split; [exact Ha|]. split.
  - intros Hsk. rewrite Hsk in Hs1. cbn [negb orb] in Hs1. apply bool_decide_eq_true in Hs1.
    rewrite !elem_of_cons. rewrite !elem_of_cons in Hs1.
    clear -Hi Hs1. destruct_or! Hs1; [subst i; cbn in Hi..|by apply elem_of_nil in Hs1].
    + left. lia.
    + right. left. lia.
    + do 2 right. left. lia.
  - intros Hp. rewrite Hp in Hs2. cbn [negb orb] in Hs2.
    apply andb_true_iff in Hs2 as [[H1%Z.leb_le H2%Z.leb_le]%andb_true_iff H3]. split; [unfold digit; lia|].
    apply orb_true_iff in H3 as [[? ?%bool_decide_eq_true]%andb_true_iff|[? ?%bool_decide_eq_true]%andb_true_iff]; auto.
Qed.

(** The port of an authority: the digits between its colon and the end of the
    text, a slash, a question mark or a hash. *)
Definition port_at (text pre ds : list Z) : Prop :=
  matches authority_colon pre /\ Forall digit ds /\
  exists rest, text = pre ++ ds ++ rest /\ forall c, head rest = Some c -> c ∈ [47; 63; 35].
(** The port is not an int; the port has no digit. *)
Definition too_big (text : list Z) : Prop := exists pre ds, port_at text pre ds /\ 2 ^ 31 <= undigits 10 ds.
Definition empty_port (text : list Z) : Prop := exists pre, port_at text pre [].

Section Crash.
Context (text : list Z).
Definition mark_fits (b : bool * bool) (p : nat) (s : parsing) : Prop :=
  is_some (mark s) = b.1 /\ (forall m, mark s = Some m -> (m <= p)%nat) /\ (b.2 = true -> empty_port text).
Definition fits (b : bool) (p : nat) (s : parsing) : Prop :=
  is_some (mark s) = b /\ forall m, mark s = Some m -> (m <= p)%nat.
(** [mark] stands behind the colon, with digits up to here. *)
Definition at_digits (pre : list Z) (s : parsing) : Prop :=
  exists pre' ds, pre = pre' ++ ds /\ matches authority_colon pre' /\ Forall digit ds /\ ds <> [] /\
    mark s = Some (length pre').
Definition rest_end (rest : list Z) : Prop := forall c, head rest = Some c -> c ∈ [47; 63; 35].

Lemma undigits_nonneg ds : Forall digit ds -> 0 <= undigits 10 ds.
Proof.
  unfold undigits. assert (H0 : 0 <= 0) by lia. revert H0. generalize 0 at 2 4 as n. induction ds as [|c ds IH]; intros n Hn Hd; [done|].
  apply list.Forall_cons in Hd as [Hc Hd]. cbn. apply IH; [|done]. unfold digit in Hc. unfold digit_val. repeat case_match; lia.
Qed.
Lemma big_digits pre rest s m : text = pre ++ rest -> rest_end rest -> at_digits pre s -> mark s = Some m ->
  m <> length pre /\ (exists v, atoi (drop m text) = Ret v) \/ too_big text.
Proof.
  intros Et He (pre' & ds & -> & Hm & Hd & Hn & E) Hs. rewrite E in Hs. simplify_eq.
  destruct (Z_lt_le_dec (undigits 10 ds) (2 ^ 31)) as [Hlt|Hge].
  - left. split; [rewrite length_app; destruct ds; [done|cbn; lia]|]. exists (undigits 10 ds).
    rewrite <- app_assoc, drop_app_length. apply atoi_digits; [done..| |split; [by apply undigits_nonneg|done]].
    intros c Hc. rewrite <- head_lookup in Hc. apply He in Hc. rewrite !elem_of_cons, elem_of_nil in Hc. unfold digit. lia.
  - right. exists pre', ds. split; [|done]. split_and!; [done..|]. exists rest. by rewrite app_assoc.
Qed.

Lemma act_fits a b b' p s : set_mark a b = Some b' -> saves_port a = false -> fits b p s ->
  exists s', uri_act text a p s = Ret s' /\ fits b' p s'.
Proof.
  intros Ha Hp [Hb Hm]. destruct s as [m v]. cbn [mark] in *.
  assert (Hk : forall m', m = Some m' -> marked text (mkParsing m v) p = Ret (slice m' (p - m') text)).
  { intros m' ->. unfold marked. cbn [mark]. by rewrite (proj2 (Nat.leb_le _ _)) by auto. }
  destruct m as [m|]; cbn in Hb; subst b; destruct a; cbn in Ha, Hp; simplify_eq; cbn [uri_act mark]; unfold save;
    try rewrite (Hk m eq_refl); cbn; eexists; (split; [reflexivity|]); (split; [done|]); cbn; intros ? [=]; subst; auto; lia.
Qed.
Lemma act_null a p s : set_mark a (is_some (mark s)) = None -> uri_act text a p s = Crash.
Proof. destruct s as [[m|] v]; destruct a; cbn; try done; intros _; unfold save, marked; cbn; by try case_decide. Qed.
(** Actions without [save_port]. *)
Lemma acts_calm acts b p s : existsb saves_port acts = false -> fits b p s ->
  match set_marks acts b with
  | Some b' => exists s', run_acts (uri_act text) acts p s = Ret s' /\ fits b' p s'
  | None => run_acts (uri_act text) acts p s = Crash
  end.
Proof.
  revert b s. induction acts as [|a acts IH]; intros b s Hp Hm; cbn [set_marks run_acts existsb] in *; [eauto|].
  apply orb_false_iff in Hp as [Hpa Hp]. destruct (set_mark a b) as [b1|] eqn:E1; cbn [mbind option_bind].
  - destruct (act_fits a b b1 p s E1 Hpa Hm) as (s1 & -> & H1). cbn [mbind outcome_bind]. by apply IH.
  - destruct Hm as [Hb _]. rewrite <- Hb in E1. by rewrite act_null.
Qed.
Lemma acts_fit pre rest q acts b s : text = pre ++ rest -> acts_ok q acts = true ->
  (skips_port acts || port_first acts = true -> rest_end rest) -> (in_port q = true -> at_digits pre s) ->
  fits b (length pre) s ->
  match set_marks acts b with
  | Some b' => (exists s', run_acts (uri_act text) acts (length pre) s = Ret s' /\ fits b' (length pre) s') \/
      run_acts (uri_act text) acts (length pre) s = Crash /\ too_big text
  | None => run_acts (uri_act text) acts (length pre) s = Crash
  end.
Proof.
  intros Et Hok He Hd Hm. unfold acts_ok in Hok.
  apply andb_true_iff in Hok as [[_ Hf]%andb_true_iff Hr]. apply negb_true_iff in Hr.
  destruct (port_first acts) eqn:Ef; [|destruct (skips_port acts) eqn:Es].
  - cbn in Hf. rewrite orb_true_r in He. destruct acts as [|[] acts]; try done. cbn [port_rest set_marks set_mark] in *.
    destruct (Hd Hf) as (pre' & ds & Hx). destruct Hm as [Hb Hm].
    assert (Hmk : mark s = Some (length pre')) by apply Hx. rewrite Hmk in Hb. cbn in Hb. subst b.
    cbn [mbind option_bind run_acts uri_act]. rewrite Hmk.
    destruct (big_digits pre rest s _ Et (He eq_refl) (ex_intro _ pre' (ex_intro _ ds Hx)) Hmk) as [[Hne [v Ev]]|Hbig].
    + rewrite decide_False by congruence. rewrite Ev. cbn [mbind outcome_bind mret outcome_ret].
      pose proof (acts_calm acts false (length pre) (mkParsing None (setPort v (the_uri s))) Hr) as HA.
      specialize (HA ltac:(split; [done|by intros ? [=]])). destruct (set_marks acts false); [by left|done].
    + assert (Hor : (exists v, (if decide (Some (length pre') = Some (length pre)) then mret (mkParsing None (the_uri s))
          else v ← atoi (drop (length pre') text); mret (mkParsing None (setPort v (the_uri s)))) = Ret (mkParsing None v))
          \/ (if decide (Some (length pre') = Some (length pre)) then mret (mkParsing None (the_uri s))
          else v ← atoi (drop (length pre') text); mret (mkParsing None (setPort v (the_uri s)))) = Crash).
      { case_decide; [left; by eexists|]. unfold atoi, chk_signed. case_match; [left; by eexists|by right]. }
      destruct Hor as [[v ->] | ->]; cbn [mbind outcome_bind].
      * pose proof (acts_calm acts false (length pre) (mkParsing None v) Hr ltac:(split; [done|by intros ? [=]])) as HA.
        destruct (set_marks acts false); [by left|done].
      * destruct (set_marks acts false); [by right|done].
  - destruct acts as [|[] [|[] acts]]; try done. cbn [port_rest set_marks set_mark mbind option_bind] in *.
    cbn [run_acts uri_act mbind outcome_bind mret outcome_ret mark the_uri]. rewrite decide_True by done.
    pose proof (acts_calm acts false (length pre) (mkParsing None (the_uri s)) Hr ltac:(split; [done|by intros ? [=]])) as HA.
    cbn [mbind outcome_bind mret outcome_ret]. destruct (set_marks acts false); [by left|done].
  - assert (port_rest acts = acts) as E by (destruct acts as [|[] [|[] acts]]; done). rewrite E in Hr.
    pose proof (acts_calm acts b (length pre) s Hr Hm) as HA. destruct (set_marks acts b); [by left|done].
Qed.
Lemma exec_fits pre l q b s : text = pre ++ l -> q = states uri_table no_widec uri_parser_start pre ->
  Forall byte_ok pre -> marked_as uri_marks q b = true -> mark_fits b (length pre) s ->
  (in_port q = true -> at_digits pre s) -> Forall byte_ok l ->
  match exec uri_table no_widec (uri_act text) no_stop q (length pre) l s with
  | Ret (q', p', s') => q' = 0 \/ exists b', p' = length text /\ marked_as uri_marks q' b' = true /\
      mark_fits b' p' s' /\ (in_port q' = true -> at_digits text s') /\
      (skips_port (eof_acts q') = true -> empty_port text)
  | Crash => too_big text \/ empty_port text
  | _ => False
  end.
Proof.
  revert pre q b s. induction l as [|c l IH]; intros pre q b s Et Eq Hpre Hq Hm Hd Hl; cbn [exec].
  { right. exists b. rewrite app_nil_r in Et. subst pre. split_and!; [done..|]. intros Hs. apply marks_at in Hq as [_ Hok].
    unfold port_ok, acts_ok in Hok. apply andb_true_iff in Hok as [[[Hok _]%andb_true_iff _]%andb_true_iff _].
    rewrite Hs in Hok. cbn in Hok. exists text. split; [apply colon_text; by subst q|]. split; [constructor|].
    exists []. by rewrite !app_nil_r. }
  apply list.Forall_cons in Hl as [Hc Hl]. pose proof (marks_step q b c Hq Hc) as Hs.
  destruct (next uri_table no_widec q c) as [acts q1] eqn:En. cbn [fst snd] in Hs.
  destruct (Z.eqb_spec q1 0) as [->|Hne]; [by left|]. destruct (Hs Hne) as (Hf & Hok & Hend & Hdig).
  assert (Hre : skips_port acts || port_first acts = true -> rest_end (c :: l)).
  { intros H%Hend c' [= <-]. exact H. }
  assert (He : b.2 || skips_port acts = true -> empty_port text).
  { intros [Hb|Hk]%orb_true_iff; [by apply Hm|]. exists pre. unfold acts_ok in Hok. rewrite Hk in Hok, Hre.
    apply andb_true_iff in Hok as [[Hok _]%andb_true_iff _]. cbn in Hok.
    split; [apply colon_text; by subst q|]. split; [constructor|]. exists (c :: l). split; [done|]. exact (Hre eq_refl). }
  destruct Hm as (Hm1 & Hm2 & Hm3).
  pose proof (acts_fit pre (c :: l) q acts b.1 s Et Hok Hre Hd (conj Hm1 Hm2)) as Ha.
  unfold flags_ok, flags_after in Hf. cbn [fst snd] in Hf.
  destruct (set_marks acts b.1) as [b1|]; [|rewrite Ha; right; exact (He Hf)].
  destruct Ha as [(s1 & Ea & Hb1 & Ha)|[-> Hbig]]; [|by left]. rewrite Ea. cbn [mbind outcome_bind].
  assert (existsb no_stop acts = false) as -> by (by clear; induction acts).
  specialize (IH (pre ++ [c]) q1 (b1, b.2 || skips_port acts) s1). rewrite length_app, Nat.add_1_r in IH.
  apply IH; [by rewrite <- app_assoc| |by apply list.Forall_app_2; [|constructor]|done| | |done].
  - rewrite states_app. cbn [states]. rewrite <- Eq, En. destruct (Z.eqb_spec q 0) as [->|_]; [|by destruct (q1 =? 0) eqn:?; [lia|]].
    exfalso. clear -Hq. by vm_compute in Hq.
  - split_and!; [done| |done]. intros m Hx. specialize (Ha m Hx). cbn. lia.
  - intros Hp. destruct (Hdig Hp) as [Hcd [[Hbc ->]|[Hip ->]]].
    + cbn in Ea. injection Ea as <-. exists pre, [c]. split; [reflexivity|].
      split; [apply colon_text; [exact Hpre|rewrite <- Eq; exact Hbc]|]. split; [by constructor|]. by split.
    + cbn in Ea. injection Ea as <-. destruct (Hd Hip) as (pre' & ds & -> & ? & ? & ? & ?). exists pre', (ds ++ [c]).
      split; [by rewrite app_assoc|]. split; [assumption|]. split; [apply list.Forall_app_2; [assumption|by constructor]|].
      split; [by destruct ds|assumption].
Qed.
End Crash.

(** C7: [Uri::Create] accepts the grammar of uri.rl and nothing else: of a text
    of bytes it gives a URI when the text is a URI reference and null when it is
    not.  It goes wrong in two ways only, both at the port of an authority (the
    digits between its colon and the end of the text, a slash, a question mark
    or a hash): a port of 2^31 or more, which [atoi] does not define, and a port
    without a digit, after which it may build a string from a null [mark]. *)
Theorem uri_grammar text : Forall byte_ok text ->
  match Create text with
  | Ret (Some _) => matches URI_reference text
  | Ret None => ~ matches URI_reference text
  | Crash => too_big text \/ empty_port text
  | _ => False
  end.
Proof.
  intros Hb. pose proof (uri_accepts text Hb) as HA. pose proof marks_checked as [_ H0]%andb_true_iff.
  assert (Hm0 : mark_fits text (false, false) 0 (mkParsing None new_Uri)) by (split_and!; done).
  pose proof (exec_fits text [] text uri_parser_start (false, false) _ eq_refl eq_refl (list.Forall_nil_2 _) H0 Hm0) as HX.
  unfold Create. cbn [length] in HX. specialize (HX ltac:(done) Hb).
  destruct (exec _ _ _ _ _ _ _ _) as [[[q p] s]| | |] eqn:E; cbn [mbind outcome_bind]; [|done..].
  apply exec_states in E; [|done]. rewrite <- E in HA. destruct (Z.eqb_spec q 0) as [->|Hne].
  - intros Hm. by apply HA in Hm.
  - destruct HX as [?|(b & -> & Hq & (Hm1 & Hm2 & Hm3) & Hd & Hsk)]; [contradiction|]. apply marks_at in Hq as [Hq Hok].
    unfold mark_ok in Hq. apply andb_true_iff in Hq as [Hq _]. unfold port_ok in Hok. apply andb_true_iff in Hok as [Hok _].
    pose proof (acts_fit text text [] q (eof_acts q) b.1 s (eq_sym (app_nil_r _)) Hok
      ltac:(by intros _ ? [=]) Hd (conj Hm1 Hm2)) as Ha.
    destruct (set_marks (eof_acts q) b.1) as [b'|].
    + destruct Ha as [(s1 & -> & _)|[-> ?]]; cbn [mbind outcome_bind]; [|by left].
      unfold uri_final in HA. destruct (uri_parser_first_final <=? q); [by apply HA|]. by intros ?%HA.
    + rewrite Ha. cbn [is_some orb] in Hq. right. apply orb_true_iff in Hq as [Hx|Hx]; [exact (Hm3 Hx)|exact (Hsk Hx)].
Qed.

(** C24: An empty port, which the grammar allows: [Uri::Create] of a scheme, a
    host, a colon and a path reads through a null pointer. *)
Theorem uri_empty_port sch h pa :
  matches scheme sch -> matches host h -> h <> [] -> matches path_abempty pa -> pa <> [] ->
  let text := sch ++ bytes "://" ++ h ++ 58 :: pa in matches URI_reference text /\ Create text = Crash.
Proof.
  intros Hsch Hh Hne Hpa Hpn text. pose proof (run_scheme text sch (h ++ 58 :: pa) eq_refl Hsch (scheme_ne _ Hsch)) as Hs.
  apply (weaken_stands text qA (qA ++ qB)) in Hs; [|apply union_l]. apply run_host in Hs; [|done..].
  pose proof (stands_stage text 9 qC no_port_part [[58]; pa] ((sch ++ [58; 47; 47]) ++ h) []
    (mkParsing (Some (length (sch ++ [58; 47; 47]))) (setScheme sch new_Uri)) (mkParsing None (setHost h (setScheme sch new_Uri))) stage_9) as HX.
  cbn [concat app] in HX. rewrite !app_nil_r in HX. destruct (HX Hs) as (Et & q & Hq & Er).
  { apply two_pieces; [by apply (lit_piece _ [58])|by apply re_piece]. }
  { destruct Hs as [Et _]. rewrite <- app_assoc in Et. unfold no_port_part.
    rewrite (chain_two text _ _ _ _ _ _ _ _ (mkParsing (Some (length (sch ++ [58; 47; 47]))) (setHost h (setScheme sch new_Uri)))).
    - cbn [run_acts uri_act mark the_uri mbind outcome_bind mret outcome_ret]. by rewrite decide_True.
    - cbn [run_acts]. rewrite (save_run text SaveHost _ h (58 :: pa)) by (rewrite ?length_app; done). done. }
  pose proof stages_checked as [[[[_ HE]%andb_true_iff _]%andb_true_iff _]%andb_true_iff _]%andb_true_iff.
  destruct (ends_at _ _ q HE Hq) as [Ea Ef]. cbn [exec] in Er. split.
  - apply exec_states in Er; [|done]. apply uri_accepts; [|by rewrite <- Er].
    pose proof (matches_bytes scheme sch eq_refl Hsch) as B1. pose proof (matches_bytes host h eq_refl Hh) as B2.
    pose proof (matches_bytes path_abempty pa eq_refl Hpa) as B3. unfold text.
    rewrite !list.Forall_app, list.Forall_cons. clear -B1 B2 B3.
    split; [exact B1|]. split; [apply bytes_ok|]. split; [exact B2|]. split; [by unfold byte_ok|exact B3].
  - unfold Create. rewrite Er. cbn [mbind outcome_bind]. rewrite Ea. unfold uri_final in Ef.
    assert ((q =? 0) = false) as -> by (unfold uri_parser_first_final in Ef; lia). done.
Qed.

(** C9: [Uri::Create] undoes [toString] on the URIs with a scheme, a user name
    without a colon (or none), a host that is not empty, a port below 2^31, and
    a path, a query and a fragment of the grammar: it gives back every part, with
    the port unless it is the scheme's own; the result prints as the same text
    and connects to the same port.  Behind a colon a user name can be cut
    ([uri_gaps]). *)
Theorem uri_roundtrip u : uri_wf u ->
  Create (toString u) = Ret (Some (normal u)) /\ toString (normal u) = toString u /\ getPort (normal u) = getPort u.
Proof.
  intros Hwf. split_and!.
  - unfold toString. pose proof (dump_scheme u Hwf _ eq_refl) as Hs. cbn [app] in Hs.
    apply dump_user in Hs; [|done..]. apply dump_authority in Hs as [pre' Hs]; [|done..].
    rewrite (dump_tail u Hwf _ _ _ Hs) by done. unfold normal. f_equal.
    assert (u32 (if isDefaultPort u then 0 else m_port u) = if isDefaultPort u then 0 else m_port u) as E.
    { destruct Hwf as (_ & _ & _ & _ & Hp & _). destruct (isDefaultPort u); [done|]. apply wrapu_id. lia. }
    unfold setPort. by rewrite E.
  - unfold toString, dump. rewrite normal_again. unfold normal.
    cbn [m_scheme m_userinfo m_host m_port m_path m_query m_fragment].
    assert (getPath (mkUri (m_scheme u) (m_userinfo u) (m_host u) (if isDefaultPort u then 0 else m_port u) (getPath u)
      (m_query u) (m_fragment u)) = getPath u) as -> by (unfold getPath; cbn; by destruct (m_path u)).
    by destruct (isDefaultPort u).
  - apply getPort_normal.
Qed.

(** What [Uri::Create] does not keep or take: the path of a URI without an
    authority, the part of a user name before a digit that follows a colon, and
    an IPv4 address from 200.0.0.0 to 249.255.255.255 inside an IPv6 one (the
    grammar says the byte 2 where it means the digit). *)
Theorem uri_gaps :
  Create (bytes "/a/b?x") = Ret (Some (setQuery (bytes "x") new_Uri)) /\
  (m_userinfo <$> ((fun o => default new_Uri o) <$> match Create (bytes "ftp://me:12x@h/") with Ret o => Some o | _ => None end))
    = Some (bytes "12x") /\
  Create (bytes "http://[::ffff:200.1.1.1]/") = Ret None /\
  Create (bytes "http://[::ffff:100.1.1.1]/") =
    Ret (Some (mkUri (bytes "http") [] (bytes "[::ffff:100.1.1.1]") 0 (bytes "/") [] [])).
Proof. by vm_compute. Qed.

(** ** Witnesses *)
Definition sample_uri : Uri :=
  mkUri (bytes "http") (bytes "me") (bytes "www.sylar.top") 8080 (bytes "/a/b") (bytes "x=1&y=%20") (bytes "top").
Lemma sample_uri_wf : uri_wf sample_uri.
Proof. split_and!; try (apply rmatch_spec; vm_compute; reflexivity); cbn; first [lia|discriminate]. Qed.
Lemma uri_roundtrip_witness : Create (toString sample_uri) = Ret (Some (normal sample_uri)) /\ normal sample_uri = sample_uri.
Proof. exact (conj (proj1 (uri_roundtrip sample_uri sample_uri_wf)) eq_refl). Defined.
Lemma uri_grammar_witness : Create (bytes "http://a b/") = Ret None /\ ~ matches URI_reference (bytes "http://a b/").
Proof.
  assert (E : Create (bytes "http://a b/") = Ret None) by (vm_compute; reflexivity).
  pose proof (uri_grammar (bytes "http://a b/") (bytes_ok _)) as H. rewrite E in H. exact (conj E H).
Defined.
Lemma uri_empty_port_witness : Create (bytes "http" ++ bytes "://" ++ bytes "h" ++ 58 :: bytes "/") = Crash.
Proof.
  refine (proj2 (uri_empty_port (bytes "http") (bytes "h") (bytes "/") _ _ _ _ _));
    try (apply rmatch_spec; vm_compute; reflexivity); discriminate.
Defined.
