(* ===== verification/Http11Machine.v ===== *)
(** * The program of [http_parser_execute] (cxk/http/http11_parser.rl.cpp)

    The labels of the function in their order, a list per region of the file.
    A state that tests [_widec] is a [Sw]. *)
From S2P Require Import Prelude Ragel.

(** The blocks of statements, by the names http11_parser.rl gives them. *)
Inductive action : Type :=
| Mark | StartField | WriteField | StartValue | WriteValue | RequestMethodA | RequestUriA | FragmentA | StartQuery
| QueryStringA | HttpVersionA | RequestPathA | Done | Xml | Json.
#[export] Instance action_eq_dec : EqDecision action.
Proof. solve_decision. Defined.

Definition http_parser_start : Z := 1.
Definition http_parser_first_final : Z := 348.

(** lines 117-261 *)
Definition http11_code_1 : list (item action) := [
  St 1 [(48, 57, tr 0); (60, 60, tr 2); (64, 64, tr 3); (65, 90, tr 0)] (st 0);
  Tr 0 [Mark] 2;
  St 2 [(32, 32, tr 4); (48, 57, st 175); (65, 90, st 175)] (st 0);
  Tr 4 [RequestMethodA] 3;
  Sw 3 [(32, 32, tr 6); (33, 33, tr 7); (35, 35, tr 8); (36, 36, tr 7); (37, 37, tr 9); (38, 46, tr 7); (47, 47, tr 10); (48, 57, tr 7); (59, 59, tr 7); (61, 61, tr 7); (63, 63, tr 11); (64, 64, tr 7); (65, 90, tr 12); (95, 95, tr 7); (97, 122, tr 12); (126, 126, tr 7); (606, 606, tr 7); (635, 635, tr 7); (637, 637, tr 7)] (st 0);
  Tr 6 [Mark; RequestPathA; RequestUriA] 4;
  Tr 37 [RequestPathA; RequestUriA] 4;
  Tr 43 [Mark; FragmentA] 4;
  Tr 46 [FragmentA] 4;
  Tr 53 [StartQuery; QueryStringA; RequestUriA] 4].
(** lines 262-409 *)
Definition http11_code_2 : list (item action) := [
  Tr 57 [QueryStringA; RequestUriA] 4;
  St 4 [(72, 72, tr 13)] (st 0);
  Tr 13 [Mark] 5;
  St 5 [(84, 84, st 6)] (st 0);
  St 6 [(84, 84, st 7)] (st 0);
  St 7 [(80, 80, st 8)] (st 0);
  St 8 [(47, 47, st 9)] (st 0);
  St 9 [(49, 49, st 10)] (st 0);
  St 10 [(46, 46, st 11)] (st 0);
  St 11 [(48, 49, st 12)] (st 0);
  St 12 [(10, 10, tr 21); (13, 13, tr 22)] (st 0);
  Tr 21 [HttpVersionA] 13;
  Tr 30 [StartValue; WriteValue] 13;
  Tr 33 [WriteValue] 13;
  St 13 [(1, 8, tr 23); (10, 10, tr 24); (11, 12, tr 23); (13, 13, tr 25); (14, 31, tr 23); (33, 33, tr 23); (35, 39, tr 23); (42, 43, tr 23); (45, 46, tr 23); (48, 57, tr 23); (65, 90, tr 23); (94, 122, tr 23); (124, 124, tr 23); (126, 126, tr 23)] (st 0);
  Tr 23 [StartField] 14].
(** lines 410-553 *)
Definition http11_code_3 : list (item action) := [
  St 14 [(1, 8, st 14); (10, 31, st 14); (33, 33, st 14); (35, 39, st 14); (42, 43, st 14); (45, 46, st 14); (48, 57, st 14); (58, 58, tr 27); (65, 90, st 14); (94, 122, st 14); (124, 124, st 14); (126, 126, st 14)] (st 0);
  Tr 27 [WriteField] 15;
  Tr 29 [StartValue] 15;
  St 15 [(0, 0, st 0); (9, 9, tr 29); (10, 10, tr 30); (13, 13, tr 31); (32, 32, tr 29); (127, 127, st 0)] (tr 28);
  Tr 28 [StartValue] 16;
  St 16 [(0, 0, st 0); (10, 10, tr 33); (13, 13, tr 34); (127, 127, st 0)] (st 16);
  Tr 22 [HttpVersionA] 17;
  Tr 31 [StartValue; WriteValue] 17;
  Tr 34 [WriteValue] 17;
  St 17 [(10, 10, st 13)] (st 0);
  Tr 24 [StartField; Done] 348;
  Tr 36 [Done] 348].
(** lines 554-696 *)
Definition http11_code_4 : list (item action) := [
  St 348 [(1, 8, st 14); (10, 31, st 14); (33, 33, st 14); (35, 39, st 14); (42, 43, st 14); (45, 46, st 14); (48, 57, st 14); (58, 58, tr 27); (65, 90, st 14); (94, 122, st 14); (124, 124, st 14); (126, 126, st 14)] (st 0);
  Tr 25 [StartField] 18;
  St 18 [(1, 8, st 14); (10, 10, tr 36); (11, 31, st 14); (33, 33, st 14); (35, 39, st 14); (42, 43, st 14); (45, 46, st 14); (48, 57, st 14); (58, 58, tr 27); (65, 90, st 14); (94, 122, st 14); (124, 124, st 14); (126, 126, st 14)] (st 0);
  Tr 7 [Mark] 19;
  Sw 19 [(32, 32, tr 37); (33, 33, st 19); (35, 35, tr 39); (36, 36, st 19); (37, 37, st 24); (38, 46, st 19); (47, 47, st 26); (48, 57, st 19); (59, 59, st 19); (61, 61, st 19); (63, 63, tr 42); (64, 90, st 19); (95, 95, st 19); (97, 122, st 19); (126, 126, st 19); (606, 606, st 19); (635, 635, st 19); (637, 637, st 19)] (st 0);
  Tr 8 [Mark; RequestPathA; RequestUriA] 20].
(** lines 697-834 *)
Definition http11_code_5 : list (item action) := [
  Tr 39 [RequestPathA; RequestUriA] 20;
  Tr 55 [StartQuery; QueryStringA; RequestUriA] 20;
  Tr 59 [QueryStringA; RequestUriA] 20;
  Sw 20 [(32, 32, tr 43); (33, 33, tr 44); (36, 36, tr 44); (37, 37, tr 45); (38, 59, tr 44); (61, 61, tr 44); (63, 90, tr 44); (95, 95, tr 44); (97, 122, tr 44); (126, 126, tr 44); (606, 606, tr 44); (635, 635, tr 44); (637, 637, tr 44)] (st 0);
  Tr 44 [Mark] 21;
  Sw 21 [(32, 32, tr 46); (33, 33, st 21); (36, 36, st 21); (37, 37, st 22); (38, 59, st 21); (61, 61, st 21); (63, 90, st 21); (95, 95, st 21); (97, 122, st 21); (126, 126, st 21); (606, 606, st 21); (635, 635, st 21); (637, 637, st 21)] (st 0);
  Tr 45 [Mark] 22].
(** lines 835-984 *)
Definition http11_code_6 : list (item action) := [
  St 22 [(48, 57, st 23); (65, 70, st 23); (97, 102, st 23)] (st 0);
  St 23 [(48, 57, st 21); (65, 70, st 21); (97, 102, st 21)] (st 0);
  Tr 9 [Mark] 24;
  St 24 [(48, 57, st 25); (65, 70, st 25); (97, 102, st 25)] (st 0);
  St 25 [(48, 57, st 19); (65, 70, st 19); (97, 102, st 19)] (st 0);
  Tr 203 [Mark] 26;
  Sw 26 [(32, 32, tr 37); (33, 33, st 26); (35, 35, tr 39); (36, 36, st 26); (37, 37, st 27); (38, 59, st 26); (61, 61, st 26); (63, 63, tr 42); (64, 90, st 26); (95, 95, st 26); (97, 122, st 26); (126, 126, st 26); (606, 606, st 26); (635, 635, st 26); (637, 637, st 26)] (st 0);
  Tr 204 [Mark] 27;
  St 27 [(48, 57, st 28); (65, 70, st 28); (97, 102, st 28)] (st 0);
  St 28 [(48, 57, st 26); (65, 70, st 26); (97, 102, st 26)] (st 0);
  Tr 11 [Mark; RequestPathA] 29].
(** lines 985-1124 *)
Definition http11_code_7 : list (item action) := [
  Tr 42 [RequestPathA] 29;
  Sw 29 [(32, 32, tr 53); (33, 33, tr 54); (35, 35, tr 55); (36, 36, tr 54); (37, 37, tr 56); (38, 59, tr 54); (61, 61, tr 54); (63, 90, tr 54); (95, 95, tr 54); (97, 122, tr 54); (126, 126, tr 54); (606, 606, tr 54); (635, 635, tr 54); (637, 637, tr 54)] (st 0);
  Tr 54 [StartQuery] 30;
  Sw 30 [(32, 32, tr 57); (33, 33, st 30); (35, 35, tr 59); (36, 36, st 30); (37, 37, st 31); (38, 59, st 30); (61, 61, st 30); (63, 90, st 30); (95, 95, st 30); (97, 122, st 30); (126, 126, st 30); (606, 606, st 30); (635, 635, st 30); (637, 637, st 30)] (st 0);
  Tr 56 [StartQuery] 31;
  St 31 [(48, 57, st 32); (65, 70, st 32); (97, 102, st 32)] (st 0);
  St 32 [(48, 57, st 30); (65, 70, st 30); (97, 102, st 30)] (st 0);
  Tr 10 [Mark] 33].
(** lines 1125-1274 *)
Definition http11_code_8 : list (item action) := [
  Sw 33 [(32, 32, tr 37); (33, 33, st 26); (35, 35, tr 39); (36, 36, st 26); (37, 37, st 27); (38, 46, st 26); (47, 47, st 34); (48, 59, st 26); (61, 61, st 26); (63, 63, tr 42); (64, 90, st 26); (95, 95, st 26); (97, 122, st 26); (126, 126, st 26); (606, 606, st 26); (635, 635, st 26); (637, 637, st 26)] (st 0);
  Sw 34 [(32, 32, tr 37); (33, 33, st 35); (35, 35, tr 39); (36, 36, st 35); (37, 37, st 36); (38, 46, st 35); (47, 47, st 26); (48, 57, st 35); (58, 58, st 38); (59, 59, st 35); (61, 61, st 35); (63, 63, tr 42); (64, 64, st 42); (65, 90, st 35); (91, 91, st 47); (95, 95, st 35); (97, 122, st 35); (126, 126, st 35); (606, 606, st 35); (635, 635, st 35); (637, 637, st 35)] (st 0);
  Sw 35 [(32, 32, tr 37); (33, 33, st 35); (35, 35, tr 39); (36, 36, st 35); (37, 37, st 36); (38, 46, st 35); (47, 47, st 26); (48, 57, st 35); (58, 58, st 38); (59, 59, st 35); (61, 61, st 35); (63, 63, tr 42); (64, 64, st 42); (65, 90, st 35); (95, 95, st 35); (97, 122, st 35); (126, 126, st 35); (606, 606, st 35); (635, 635, st 35); (637, 637, st 35)] (st 0)].
(** lines 1275-1416 *)
Definition http11_code_9 : list (item action) := [
  St 36 [(48, 57, st 37); (65, 70, st 37); (97, 102, st 37)] (st 0);
  St 37 [(48, 57, st 35); (65, 70, st 35); (97, 102, st 35)] (st 0);
  Sw 38 [(32, 32, tr 37); (33, 33, st 39); (35, 35, tr 39); (36, 36, st 39); (37, 37, st 40); (38, 46, st 39); (47, 47, st 26); (48, 57, st 38); (58, 59, st 39); (61, 61, st 39); (63, 63, tr 42); (64, 64, st 42); (65, 90, st 39); (95, 95, st 39); (97, 122, st 39); (126, 126, st 39); (606, 606, st 39); (635, 635, st 39); (637, 637, st 39)] (st 0);
  Sw 39 [(33, 33, st 39); (36, 36, st 39); (37, 37, st 40); (38, 46, st 39); (48, 59, st 39); (61, 61, st 39); (64, 64, st 42); (65, 90, st 39); (95, 95, st 39); (97, 122, st 39); (126, 126, st 39); (606, 606, st 39); (635, 635, st 39); (637, 637, st 39)] (st 0);
  St 40 [(48, 57, st 41); (65, 70, st 41); (97, 102, st 41)] (st 0)].
(** lines 1417-1554 *)
Definition http11_code_10 : list (item action) := [
  St 41 [(48, 57, st 39); (65, 70, st 39); (97, 102, st 39)] (st 0);
  Sw 42 [(32, 32, tr 37); (33, 33, st 43); (35, 35, tr 39); (36, 36, st 43); (37, 37, st 44); (38, 46, st 43); (47, 47, st 26); (48, 57, st 43); (58, 58, st 46); (59, 59, st 43); (61, 61, st 43); (63, 63, tr 42); (65, 90, st 43); (91, 91, st 47); (95, 95, st 43); (97, 122, st 43); (126, 126, st 43); (606, 606, st 43); (635, 635, st 43); (637, 637, st 43)] (st 0);
  Sw 43 [(32, 32, tr 37); (33, 33, st 43); (35, 35, tr 39); (36, 36, st 43); (37, 37, st 44); (38, 46, st 43); (47, 47, st 26); (48, 57, st 43); (58, 58, st 46); (59, 59, st 43); (61, 61, st 43); (63, 63, tr 42); (65, 90, st 43); (95, 95, st 43); (97, 122, st 43); (126, 126, st 43); (606, 606, st 43); (635, 635, st 43); (637, 637, st 43)] (st 0);
  St 44 [(48, 57, st 45); (65, 70, st 45); (97, 102, st 45)] (st 0);
  St 45 [(48, 57, st 43); (65, 70, st 43); (97, 102, st 43)] (st 0)].
(** lines 1555-1702 *)
Definition http11_code_11 : list (item action) := [
  St 46 [(32, 32, tr 37); (35, 35, tr 39); (47, 47, st 26); (48, 57, st 46); (63, 63, tr 42)] (st 0);
  St 47 [(6, 6, st 48); (48, 57, st 91); (58, 58, st 167); (65, 70, st 91); (97, 102, st 91); (118, 118, st 169)] (st 0);
  St 48 [(48, 57, st 49); (65, 70, st 49); (97, 102, st 49)] (st 0);
  St 49 [(48, 57, st 50); (58, 58, st 53); (65, 70, st 50); (97, 102, st 50)] (st 0);
  St 50 [(48, 57, st 51); (58, 58, st 53); (65, 70, st 51); (97, 102, st 51)] (st 0);
  St 51 [(48, 57, st 52); (58, 58, st 53); (65, 70, st 52); (97, 102, st 52)] (st 0);
  St 52 [(58, 58, st 53)] (st 0);
  St 53 [(48, 48, st 54); (49, 49, st 84); (50, 50, st 87); (51, 57, st 54); (65, 70, st 90); (97, 102, st 90)] (st 0);
  St 54 [(46, 46, st 55); (48, 57, st 77); (58, 58, st 80); (65, 70, st 77); (97, 102, st 77)] (st 0);
  St 55 [(48, 48, st 56); (49, 49, st 72); (50, 50, st 74); (51, 57, st 56)] (st 0);
  St 56 [(46, 46, st 57)] (st 0)].
(** lines 1703-1852 *)
Definition http11_code_12 : list (item action) := [
  St 57 [(48, 48, st 58); (49, 49, st 67); (50, 50, st 69); (51, 57, st 58)] (st 0);
  St 58 [(46, 46, st 59)] (st 0);
  St 59 [(48, 48, st 60); (49, 49, st 62); (50, 50, st 64); (51, 57, st 60)] (st 0);
  St 60 [(93, 93, st 61)] (st 0);
  St 61 [(32, 32, tr 37); (35, 35, tr 39); (47, 47, st 26); (58, 58, st 46); (63, 63, tr 42)] (st 0);
  St 62 [(48, 57, st 63); (93, 93, st 61)] (st 0);
  St 63 [(48, 57, st 60); (93, 93, st 61)] (st 0);
  St 64 [(48, 48, st 65); (53, 53, st 66); (93, 93, st 61)] (st 0);
  St 65 [(48, 57, st 60)] (st 0);
  St 66 [(48, 48, st 60)] (st 0);
  St 67 [(46, 46, st 59); (48, 57, st 68)] (st 0);
  St 68 [(46, 46, st 59); (48, 57, st 58)] (st 0);
  St 69 [(46, 46, st 59); (48, 48, st 70); (53, 53, st 71)] (st 0);
  St 70 [(48, 57, st 58)] (st 0);
  St 71 [(48, 48, st 58)] (st 0);
  St 72 [(46, 46, st 57); (48, 57, st 73)] (st 0);
  St 73 [(46, 46, st 57); (48, 57, st 56)] (st 0)].
(** lines 1853-1988 *)
Definition http11_code_13 : list (item action) := [
  St 74 [(46, 46, st 57); (48, 48, st 75); (53, 53, st 76)] (st 0);
  St 75 [(48, 57, st 56)] (st 0);
  St 76 [(48, 48, st 56)] (st 0);
  St 77 [(48, 57, st 78); (58, 58, st 80); (65, 70, st 78); (97, 102, st 78)] (st 0);
  St 78 [(48, 57, st 79); (58, 58, st 80); (65, 70, st 79); (97, 102, st 79)] (st 0);
  St 79 [(58, 58, st 80)] (st 0);
  St 80 [(48, 57, st 81); (65, 70, st 81); (97, 102, st 81)] (st 0);
  St 81 [(48, 57, st 82); (65, 70, st 82); (93, 93, st 61); (97, 102, st 82)] (st 0);
  St 82 [(48, 57, st 83); (65, 70, st 83); (93, 93, st 61); (97, 102, st 83)] (st 0);
  St 83 [(48, 57, st 60); (65, 70, st 60); (93, 93, st 61); (97, 102, st 60)] (st 0);
  St 84 [(46, 46, st 55); (48, 57, st 85); (58, 58, st 80); (65, 70, st 77); (97, 102, st 77)] (st 0)].
(** lines 1989-2133 *)
Definition http11_code_14 : list (item action) := [
  St 85 [(46, 46, st 55); (48, 57, st 86); (58, 58, st 80); (65, 70, st 78); (97, 102, st 78)] (st 0);
  St 86 [(46, 46, st 55); (48, 57, st 79); (58, 58, st 80); (65, 70, st 79); (97, 102, st 79)] (st 0);
  St 87 [(46, 46, st 55); (48, 48, st 88); (49, 52, st 77); (53, 53, st 89); (54, 57, st 77); (58, 58, st 80); (65, 70, st 77); (97, 102, st 77)] (st 0);
  St 88 [(48, 57, st 86); (58, 58, st 80); (65, 70, st 78); (97, 102, st 78)] (st 0);
  St 89 [(48, 48, st 86); (49, 57, st 78); (58, 58, st 80); (65, 70, st 78); (97, 102, st 78)] (st 0);
  St 90 [(48, 57, st 77); (58, 58, st 80); (65, 70, st 77); (97, 102, st 77)] (st 0);
  St 91 [(48, 57, st 92); (58, 58, st 95); (65, 70, st 92); (97, 102, st 92)] (st 0);
  St 92 [(48, 57, st 93); (58, 58, st 95); (65, 70, st 93); (97, 102, st 93)] (st 0);
  St 93 [(48, 57, st 94); (58, 58, st 95); (65, 70, st 94); (97, 102, st 94)] (st 0)].
(** lines 2134-2274 *)
Definition http11_code_15 : list (item action) := [
  St 94 [(58, 58, st 95)] (st 0);
  St 95 [(48, 57, st 96); (58, 58, st 166); (65, 70, st 96); (97, 102, st 96)] (st 0);
  St 96 [(48, 57, st 97); (58, 58, st 100); (65, 70, st 97); (97, 102, st 97)] (st 0);
  St 97 [(48, 57, st 98); (58, 58, st 100); (65, 70, st 98); (97, 102, st 98)] (st 0);
  St 98 [(48, 57, st 99); (58, 58, st 100); (65, 70, st 99); (97, 102, st 99)] (st 0);
  St 99 [(58, 58, st 100)] (st 0);
  St 100 [(48, 57, st 101); (58, 58, st 165); (65, 70, st 101); (97, 102, st 101)] (st 0);
  St 101 [(48, 57, st 102); (58, 58, st 105); (65, 70, st 102); (97, 102, st 102)] (st 0);
  St 102 [(48, 57, st 103); (58, 58, st 105); (65, 70, st 103); (97, 102, st 103)] (st 0);
  St 103 [(48, 57, st 104); (58, 58, st 105); (65, 70, st 104); (97, 102, st 104)] (st 0);
  St 104 [(58, 58, st 105)] (st 0)].
(** lines 2275-2423 *)
Definition http11_code_16 : list (item action) := [
  St 105 [(48, 57, st 106); (58, 58, st 164); (65, 70, st 106); (97, 102, st 106)] (st 0);
  St 106 [(48, 57, st 107); (58, 58, st 110); (65, 70, st 107); (97, 102, st 107)] (st 0);
  St 107 [(48, 57, st 108); (58, 58, st 110); (65, 70, st 108); (97, 102, st 108)] (st 0);
  St 108 [(48, 57, st 109); (58, 58, st 110); (65, 70, st 109); (97, 102, st 109)] (st 0);
  St 109 [(58, 58, st 110)] (st 0);
  St 110 [(48, 57, st 111); (58, 58, st 163); (65, 70, st 111); (97, 102, st 111)] (st 0);
  St 111 [(48, 57, st 112); (58, 58, st 115); (65, 70, st 112); (97, 102, st 112)] (st 0);
  St 112 [(48, 57, st 113); (58, 58, st 115); (65, 70, st 113); (97, 102, st 113)] (st 0);
  St 113 [(48, 57, st 114); (58, 58, st 115); (65, 70, st 114); (97, 102, st 114)] (st 0);
  St 114 [(58, 58, st 115)] (st 0);
  St 115 [(48, 57, st 116); (58, 58, st 151); (65, 70, st 116); (97, 102, st 116)] (st 0)].
(** lines 2424-2557 *)
Definition http11_code_17 : list (item action) := [
  St 116 [(48, 57, st 117); (58, 58, st 120); (65, 70, st 117); (97, 102, st 117)] (st 0);
  St 117 [(48, 57, st 118); (58, 58, st 120); (65, 70, st 118); (97, 102, st 118)] (st 0);
  St 118 [(48, 57, st 119); (58, 58, st 120); (65, 70, st 119); (97, 102, st 119)] (st 0);
  St 119 [(58, 58, st 120)] (st 0);
  St 120 [(48, 57, st 121); (58, 58, st 150); (65, 70, st 121); (97, 102, st 121)] (st 0);
  St 121 [(48, 57, st 122); (58, 58, st 125); (65, 70, st 122); (97, 102, st 122)] (st 0);
  St 122 [(48, 57, st 123); (58, 58, st 125); (65, 70, st 123); (97, 102, st 123)] (st 0);
  St 123 [(48, 57, st 124); (58, 58, st 125); (65, 70, st 124); (97, 102, st 124)] (st 0);
  St 124 [(58, 58, st 125)] (st 0);
  St 125 [(48, 57, st 121); (58, 58, st 126); (65, 70, st 121); (97, 102, st 121)] (st 0)].
(** lines 2558-2691 *)
Definition http11_code_18 : list (item action) := [
  St 126 [(2, 3, st 48); (48, 48, st 127); (49, 49, st 143); (50, 50, st 146); (51, 57, st 127); (65, 70, st 149); (93, 93, st 61); (97, 102, st 149)] (st 0);
  St 127 [(46, 46, st 55); (48, 57, st 128); (58, 58, st 131); (65, 70, st 128); (93, 93, st 61); (97, 102, st 128)] (st 0);
  St 128 [(48, 57, st 129); (58, 58, st 131); (65, 70, st 129); (93, 93, st 61); (97, 102, st 129)] (st 0);
  St 129 [(48, 57, st 130); (58, 58, st 131); (65, 70, st 130); (93, 93, st 61); (97, 102, st 130)] (st 0);
  St 130 [(58, 58, st 131); (93, 93, st 61)] (st 0);
  St 131 [(48, 48, st 132); (49, 49, st 136); (50, 50, st 139); (51, 57, st 132); (65, 70, st 142); (97, 102, st 142)] (st 0);
  St 132 [(46, 46, st 55); (48, 57, st 133); (58, 58, st 80); (65, 70, st 133); (93, 93, st 61); (97, 102, st 133)] (st 0);
  St 133 [(48, 57, st 134); (58, 58, st 80); (65, 70, st 134); (93, 93, st 61); (97, 102, st 134)] (st 0)].
(** lines 2692-2826 *)
Definition http11_code_19 : list (item action) := [
  St 134 [(48, 57, st 135); (58, 58, st 80); (65, 70, st 135); (93, 93, st 61); (97, 102, st 135)] (st 0);
  St 135 [(58, 58, st 80); (93, 93, st 61)] (st 0);
  St 136 [(46, 46, st 55); (48, 57, st 137); (58, 58, st 80); (65, 70, st 133); (93, 93, st 61); (97, 102, st 133)] (st 0);
  St 137 [(46, 46, st 55); (48, 57, st 138); (58, 58, st 80); (65, 70, st 134); (93, 93, st 61); (97, 102, st 134)] (st 0);
  St 138 [(46, 46, st 55); (48, 57, st 135); (58, 58, st 80); (65, 70, st 135); (93, 93, st 61); (97, 102, st 135)] (st 0);
  St 139 [(46, 46, st 55); (48, 48, st 140); (49, 52, st 133); (53, 53, st 141); (54, 57, st 133); (58, 58, st 80); (65, 70, st 133); (93, 93, st 61); (97, 102, st 133)] (st 0);
  St 140 [(48, 57, st 138); (58, 58, st 80); (65, 70, st 134); (93, 93, st 61); (97, 102, st 134)] (st 0);
  St 141 [(48, 48, st 138); (49, 57, st 134); (58, 58, st 80); (65, 70, st 134); (93, 93, st 61); (97, 102, st 134)] (st 0)].
(** lines 2827-2969 *)
Definition http11_code_20 : list (item action) := [
  St 142 [(48, 57, st 133); (58, 58, st 80); (65, 70, st 133); (93, 93, st 61); (97, 102, st 133)] (st 0);
  St 143 [(46, 46, st 55); (48, 57, st 144); (58, 58, st 131); (65, 70, st 128); (93, 93, st 61); (97, 102, st 128)] (st 0);
  St 144 [(46, 46, st 55); (48, 57, st 145); (58, 58, st 131); (65, 70, st 129); (93, 93, st 61); (97, 102, st 129)] (st 0);
  St 145 [(46, 46, st 55); (48, 57, st 130); (58, 58, st 131); (65, 70, st 130); (93, 93, st 61); (97, 102, st 130)] (st 0);
  St 146 [(46, 46, st 55); (48, 48, st 147); (49, 52, st 128); (53, 53, st 148); (54, 57, st 128); (58, 58, st 131); (65, 70, st 128); (93, 93, st 61); (97, 102, st 128)] (st 0);
  St 147 [(48, 57, st 145); (58, 58, st 131); (65, 70, st 129); (93, 93, st 61); (97, 102, st 129)] (st 0);
  St 148 [(48, 48, st 145); (49, 57, st 129); (58, 58, st 131); (65, 70, st 129); (93, 93, st 61); (97, 102, st 129)] (st 0);
  St 149 [(48, 57, st 128); (58, 58, st 131); (65, 70, st 128); (93, 93, st 61); (97, 102, st 128)] (st 0)].
(** lines 2970-3114 *)
Definition http11_code_21 : list (item action) := [
  St 150 [(2, 3, st 48); (48, 48, st 127); (49, 49, st 143); (50, 50, st 146); (51, 57, st 127); (65, 70, st 149); (97, 102, st 149)] (st 0);
  St 151 [(2, 3, st 48); (48, 48, st 152); (49, 49, st 156); (50, 50, st 159); (51, 57, st 152); (65, 70, st 162); (97, 102, st 162)] (st 0);
  St 152 [(46, 46, st 55); (48, 57, st 153); (58, 58, st 131); (65, 70, st 153); (97, 102, st 153)] (st 0);
  St 153 [(48, 57, st 154); (58, 58, st 131); (65, 70, st 154); (97, 102, st 154)] (st 0);
  St 154 [(48, 57, st 155); (58, 58, st 131); (65, 70, st 155); (97, 102, st 155)] (st 0);
  St 155 [(58, 58, st 131)] (st 0);
  St 156 [(46, 46, st 55); (48, 57, st 157); (58, 58, st 131); (65, 70, st 153); (97, 102, st 153)] (st 0);
  St 157 [(46, 46, st 55); (48, 57, st 158); (58, 58, st 131); (65, 70, st 154); (97, 102, st 154)] (st 0);
  St 158 [(46, 46, st 55); (48, 57, st 155); (58, 58, st 131); (65, 70, st 155); (97, 102, st 155)] (st 0)].
(** lines 3115-3258 *)
Definition http11_code_22 : list (item action) := [
  St 159 [(46, 46, st 55); (48, 48, st 160); (49, 52, st 153); (53, 53, st 161); (54, 57, st 153); (58, 58, st 131); (65, 70, st 153); (97, 102, st 153)] (st 0);
  St 160 [(48, 57, st 158); (58, 58, st 131); (65, 70, st 154); (97, 102, st 154)] (st 0);
  St 161 [(48, 48, st 158); (49, 57, st 154); (58, 58, st 131); (65, 70, st 154); (97, 102, st 154)] (st 0);
  St 162 [(48, 57, st 153); (58, 58, st 131); (65, 70, st 153); (97, 102, st 153)] (st 0);
  St 163 [(2, 3, st 48); (48, 57, st 49); (65, 70, st 49); (97, 102, st 49)] (st 0);
  St 164 [(2, 3, st 48)] (st 0);
  St 165 [(3, 3, st 48)] (st 0);
  St 166 [(4, 4, st 48)] (st 0);
  St 167 [(58, 58, st 168)] (st 0);
  St 168 [(2, 5, st 48); (48, 48, st 127); (49, 49, st 143); (50, 50, st 146); (51, 57, st 127); (65, 70, st 149); (93, 93, st 61); (97, 102, st 149)] (st 0);
  St 169 [(48, 57, st 170); (65, 70, st 170); (97, 102, st 170)] (st 0)].
(** lines 3259-3372 *)
Definition http11_code_23 : list (item action) := [
  St 170 [(46, 46, st 171); (48, 57, st 170); (65, 70, st 170); (97, 102, st 170)] (st 0);
  Sw 171 [(33, 33, st 172); (36, 36, st 172); (38, 46, st 172); (48, 59, st 172); (61, 61, st 172); (65, 90, st 172); (95, 95, st 172); (97, 122, st 172); (126, 126, st 172); (606, 606, st 172); (635, 635, st 172); (637, 637, st 172)] (st 0);
  Sw 172 [(33, 33, st 172); (36, 36, st 172); (38, 46, st 172); (48, 59, st 172); (61, 61, st 172); (65, 90, st 172); (93, 93, st 61); (95, 95, st 172); (97, 122, st 172); (126, 126, st 172); (606, 606, st 172); (635, 635, st 172); (637, 637, st 172)] (st 0);
  Tr 12 [Mark] 173].
(** lines 3373-3512 *)
Definition http11_code_24 : list (item action) := [
  Sw 173 [(32, 32, tr 37); (33, 33, st 19); (35, 35, tr 39); (36, 36, st 19); (37, 37, st 24); (38, 42, st 19); (43, 43, st 173); (44, 44, st 19); (45, 46, st 173); (47, 47, st 26); (48, 57, st 173); (58, 58, st 174); (59, 59, st 19); (61, 61, st 19); (63, 63, tr 42); (64, 64, st 19); (65, 90, st 173); (95, 95, st 19); (97, 122, st 173); (126, 126, st 19); (606, 606, st 19); (635, 635, st 19); (637, 637, st 19)] (st 0);
  Sw 174 [(32, 32, tr 6); (33, 33, tr 203); (35, 35, tr 8); (36, 36, tr 203); (37, 37, tr 204); (38, 46, tr 203); (47, 47, tr 10); (48, 59, tr 203); (61, 61, tr 203); (63, 63, tr 11); (64, 90, tr 203); (95, 95, tr 203); (97, 122, tr 203); (126, 126, tr 203); (606, 606, tr 203); (635, 635, tr 203); (637, 637, tr 203)] (st 0);
  St 175 [(32, 32, tr 4); (48, 57, st 176); (65, 90, st 176)] (st 0);
  St 176 [(32, 32, tr 4); (48, 57, st 177); (65, 90, st 177)] (st 0);
  St 177 [(32, 32, tr 4); (48, 57, st 178); (65, 90, st 178)] (st 0)].
(** lines 3513-3656 *)
Definition http11_code_25 : list (item action) := [
  St 178 [(32, 32, tr 4); (48, 57, st 179); (65, 90, st 179)] (st 0);
  St 179 [(32, 32, tr 4); (48, 57, st 180); (65, 90, st 180)] (st 0);
  St 180 [(32, 32, tr 4); (48, 57, st 181); (65, 90, st 181)] (st 0);
  St 181 [(32, 32, tr 4); (48, 57, st 182); (65, 90, st 182)] (st 0);
  St 182 [(32, 32, tr 4); (48, 57, st 183); (65, 90, st 183)] (st 0);
  St 183 [(32, 32, tr 4); (48, 57, st 184); (65, 90, st 184)] (st 0);
  St 184 [(32, 32, tr 4); (48, 57, st 185); (65, 90, st 185)] (st 0);
  St 185 [(32, 32, tr 4); (48, 57, st 186); (65, 90, st 186)] (st 0);
  St 186 [(32, 32, tr 4); (48, 57, st 187); (65, 90, st 187)] (st 0);
  St 187 [(32, 32, tr 4); (48, 57, st 188); (65, 90, st 188)] (st 0);
  St 188 [(32, 32, tr 4); (48, 57, st 189); (65, 90, st 189)] (st 0);
  St 189 [(32, 32, tr 4); (48, 57, st 190); (65, 90, st 190)] (st 0)].
(** lines 3657-3786 *)
Definition http11_code_26 : list (item action) := [
  St 190 [(32, 32, tr 4); (48, 57, st 191); (65, 90, st 191)] (st 0);
  St 191 [(32, 32, tr 4); (48, 57, st 192); (65, 90, st 192)] (st 0);
  St 192 [(32, 32, tr 4); (48, 57, st 193); (65, 90, st 193)] (st 0);
  St 193 [(32, 32, tr 4)] (st 0);
  Tr 2 [Mark] 194;
  St 194 [(45, 46, st 195); (48, 57, st 195); (65, 90, st 195); (97, 122, st 195)] (st 0);
  St 195 [(9, 13, tr 224); (32, 32, tr 224); (45, 46, st 195); (47, 47, tr 224); (48, 57, st 195); (62, 62, tr 224); (65, 90, st 195); (97, 122, st 195)] (st 0);
  Tr 224 [RequestPathA] 196;
  St 196 [(62, 62, st 197)] (st 196);
  St 197 [(0, 0, tr 227); (62, 62, st 197)] (st 196);
  Tr 227 [Xml; Done] 349].
(** lines 3787-3901 *)
Definition http11_code_27 : list (item action) := [
  Tr 235 [Json; Done] 349;
  St 349 [] (st 0);
  Tr 3 [Mark] 198;
  Sw 198 [(32, 32, tr 228); (33, 33, st 202); (36, 36, st 202); (37, 37, st 203); (38, 46, st 202); (47, 47, st 208); (48, 57, st 202); (59, 59, st 202); (61, 61, st 202); (64, 90, st 202); (95, 95, st 202); (97, 122, st 202); (126, 126, st 202); (606, 606, st 202); (635, 635, st 202); (637, 637, st 202)] (st 0);
  Tr 228 [RequestPathA] 199;
  St 199 [(123, 123, tr 232)] (st 0);
  Tr 232 [Mark] 200;
  St 200 [(125, 125, st 201)] (st 200);
  St 201 [(0, 0, tr 235); (125, 125, st 201)] (st 200)].
(** lines 3902-4045 *)
Definition http11_code_28 : list (item action) := [
  Sw 202 [(32, 32, tr 228); (33, 33, st 202); (36, 36, st 202); (37, 37, st 203); (38, 46, st 202); (47, 47, st 205); (48, 57, st 202); (59, 59, st 202); (61, 61, st 202); (64, 90, st 202); (95, 95, st 202); (97, 122, st 202); (126, 126, st 202); (606, 606, st 202); (635, 635, st 202); (637, 637, st 202)] (st 0);
  St 203 [(48, 57, st 204); (65, 70, st 204); (97, 102, st 204)] (st 0);
  St 204 [(48, 57, st 202); (65, 70, st 202); (97, 102, st 202)] (st 0);
  Sw 205 [(32, 32, tr 228); (33, 33, st 205); (36, 36, st 205); (37, 37, st 206); (38, 59, st 205); (61, 61, st 205); (64, 90, st 205); (95, 95, st 205); (97, 122, st 205); (126, 126, st 205); (606, 606, st 205); (635, 635, st 205); (637, 637, st 205)] (st 0);
  St 206 [(48, 57, st 207); (65, 70, st 207); (97, 102, st 207)] (st 0);
  St 207 [(48, 57, st 205); (65, 70, st 205); (97, 102, st 205)] (st 0)].
(** lines 4046-4188 *)
Definition http11_code_29 : list (item action) := [
  Sw 208 [(32, 32, tr 228); (33, 33, st 205); (36, 36, st 205); (37, 37, st 206); (38, 46, st 205); (47, 47, st 209); (48, 59, st 205); (61, 61, st 205); (64, 90, st 205); (95, 95, st 205); (97, 122, st 205); (126, 126, st 205); (606, 606, st 205); (635, 635, st 205); (637, 637, st 205)] (st 0);
  Sw 209 [(32, 32, tr 228); (33, 33, st 210); (36, 36, st 210); (37, 37, st 211); (38, 46, st 210); (47, 47, st 205); (48, 57, st 210); (58, 58, st 213); (59, 59, st 210); (61, 61, st 210); (64, 64, st 217); (65, 90, st 210); (91, 91, st 222); (95, 95, st 210); (97, 122, st 210); (126, 126, st 210); (606, 606, st 210); (635, 635, st 210); (637, 637, st 210)] (st 0);
  Sw 210 [(32, 32, tr 228); (33, 33, st 210); (36, 36, st 210); (37, 37, st 211); (38, 46, st 210); (47, 47, st 205); (48, 57, st 210); (58, 58, st 213); (59, 59, st 210); (61, 61, st 210); (64, 64, st 217); (65, 90, st 210); (95, 95, st 210); (97, 122, st 210); (126, 126, st 210); (606, 606, st 210); (635, 635, st 210); (637, 637, st 210)] (st 0)].
(** lines 4189-4328 *)
Definition http11_code_30 : list (item action) := [
  St 211 [(48, 57, st 212); (65, 70, st 212); (97, 102, st 212)] (st 0);
  St 212 [(48, 57, st 210); (65, 70, st 210); (97, 102, st 210)] (st 0);
  Sw 213 [(32, 32, tr 228); (33, 33, st 214); (36, 36, st 214); (37, 37, st 215); (38, 46, st 214); (47, 47, st 205); (48, 57, st 213); (58, 59, st 214); (61, 61, st 214); (64, 64, st 217); (65, 90, st 214); (95, 95, st 214); (97, 122, st 214); (126, 126, st 214); (606, 606, st 214); (635, 635, st 214); (637, 637, st 214)] (st 0);
  Sw 214 [(33, 33, st 214); (36, 36, st 214); (37, 37, st 215); (38, 46, st 214); (48, 59, st 214); (61, 61, st 214); (64, 64, st 217); (65, 90, st 214); (95, 95, st 214); (97, 122, st 214); (126, 126, st 214); (606, 606, st 214); (635, 635, st 214); (637, 637, st 214)] (st 0);
  St 215 [(48, 57, st 216); (65, 70, st 216); (97, 102, st 216)] (st 0)].
(** lines 4329-4473 *)
Definition http11_code_31 : list (item action) := [
  St 216 [(48, 57, st 214); (65, 70, st 214); (97, 102, st 214)] (st 0);
  Sw 217 [(32, 32, tr 228); (33, 33, st 218); (36, 36, st 218); (37, 37, st 219); (38, 46, st 218); (47, 47, st 205); (48, 57, st 218); (58, 58, st 221); (59, 59, st 218); (61, 61, st 218); (65, 90, st 218); (91, 91, st 222); (95, 95, st 218); (97, 122, st 218); (126, 126, st 218); (606, 606, st 218); (635, 635, st 218); (637, 637, st 218)] (st 0);
  Sw 218 [(32, 32, tr 228); (33, 33, st 218); (36, 36, st 218); (37, 37, st 219); (38, 46, st 218); (47, 47, st 205); (48, 57, st 218); (58, 58, st 221); (59, 59, st 218); (61, 61, st 218); (65, 90, st 218); (95, 95, st 218); (97, 122, st 218); (126, 126, st 218); (606, 606, st 218); (635, 635, st 218); (637, 637, st 218)] (st 0);
  St 219 [(48, 57, st 220); (65, 70, st 220); (97, 102, st 220)] (st 0);
  St 220 [(48, 57, st 218); (65, 70, st 218); (97, 102, st 218)] (st 0);
  St 221 [(32, 32, tr 228); (47, 47, st 205); (48, 57, st 221)] (st 0)].
(** lines 4474-4619 *)
Definition http11_code_32 : list (item action) := [
  St 222 [(6, 6, st 223); (48, 57, st 266); (58, 58, st 342); (65, 70, st 266); (97, 102, st 266); (118, 118, st 344)] (st 0);
  St 223 [(48, 57, st 224); (65, 70, st 224); (97, 102, st 224)] (st 0);
  St 224 [(48, 57, st 225); (58, 58, st 228); (65, 70, st 225); (97, 102, st 225)] (st 0);
  St 225 [(48, 57, st 226); (58, 58, st 228); (65, 70, st 226); (97, 102, st 226)] (st 0);
  St 226 [(48, 57, st 227); (58, 58, st 228); (65, 70, st 227); (97, 102, st 227)] (st 0);
  St 227 [(58, 58, st 228)] (st 0);
  St 228 [(48, 48, st 229); (49, 49, st 259); (50, 50, st 262); (51, 57, st 229); (65, 70, st 265); (97, 102, st 265)] (st 0);
  St 229 [(46, 46, st 230); (48, 57, st 252); (58, 58, st 255); (65, 70, st 252); (97, 102, st 252)] (st 0);
  St 230 [(48, 48, st 231); (49, 49, st 247); (50, 50, st 249); (51, 57, st 231)] (st 0);
  St 231 [(46, 46, st 232)] (st 0);
  St 232 [(48, 48, st 233); (49, 49, st 242); (50, 50, st 244); (51, 57, st 233)] (st 0)].
(** lines 4620-4766 *)
Definition http11_code_33 : list (item action) := [
  St 233 [(46, 46, st 234)] (st 0);
  St 234 [(48, 48, st 235); (49, 49, st 237); (50, 50, st 239); (51, 57, st 235)] (st 0);
  St 235 [(93, 93, st 236)] (st 0);
  St 236 [(32, 32, tr 228); (47, 47, st 205); (58, 58, st 221)] (st 0);
  St 237 [(48, 57, st 238); (93, 93, st 236)] (st 0);
  St 238 [(48, 57, st 235); (93, 93, st 236)] (st 0);
  St 239 [(48, 48, st 240); (53, 53, st 241); (93, 93, st 236)] (st 0);
  St 240 [(48, 57, st 235)] (st 0);
  St 241 [(48, 48, st 235)] (st 0);
  St 242 [(46, 46, st 234); (48, 57, st 243)] (st 0);
  St 243 [(46, 46, st 234); (48, 57, st 233)] (st 0);
  St 244 [(46, 46, st 234); (48, 48, st 245); (53, 53, st 246)] (st 0);
  St 245 [(48, 57, st 233)] (st 0);
  St 246 [(48, 48, st 233)] (st 0);
  St 247 [(46, 46, st 232); (48, 57, st 248)] (st 0);
  St 248 [(46, 46, st 232); (48, 57, st 231)] (st 0);
  St 249 [(46, 46, st 232); (48, 48, st 250); (53, 53, st 251)] (st 0)].
(** lines 4767-4909 *)
Definition http11_code_34 : list (item action) := [
  St 250 [(48, 57, st 231)] (st 0);
  St 251 [(48, 48, st 231)] (st 0);
  St 252 [(48, 57, st 253); (58, 58, st 255); (65, 70, st 253); (97, 102, st 253)] (st 0);
  St 253 [(48, 57, st 254); (58, 58, st 255); (65, 70, st 254); (97, 102, st 254)] (st 0);
  St 254 [(58, 58, st 255)] (st 0);
  St 255 [(48, 57, st 256); (65, 70, st 256); (97, 102, st 256)] (st 0);
  St 256 [(48, 57, st 257); (65, 70, st 257); (93, 93, st 236); (97, 102, st 257)] (st 0);
  St 257 [(48, 57, st 258); (65, 70, st 258); (93, 93, st 236); (97, 102, st 258)] (st 0);
  St 258 [(48, 57, st 235); (65, 70, st 235); (93, 93, st 236); (97, 102, st 235)] (st 0);
  St 259 [(46, 46, st 230); (48, 57, st 260); (58, 58, st 255); (65, 70, st 252); (97, 102, st 252)] (st 0);
  St 260 [(46, 46, st 230); (48, 57, st 261); (58, 58, st 255); (65, 70, st 253); (97, 102, st 253)] (st 0)].
(** lines 4910-5059 *)
Definition http11_code_35 : list (item action) := [
  St 261 [(46, 46, st 230); (48, 57, st 254); (58, 58, st 255); (65, 70, st 254); (97, 102, st 254)] (st 0);
  St 262 [(46, 46, st 230); (48, 48, st 263); (49, 52, st 252); (53, 53, st 264); (54, 57, st 252); (58, 58, st 255); (65, 70, st 252); (97, 102, st 252)] (st 0);
  St 263 [(48, 57, st 261); (58, 58, st 255); (65, 70, st 253); (97, 102, st 253)] (st 0);
  St 264 [(48, 48, st 261); (49, 57, st 253); (58, 58, st 255); (65, 70, st 253); (97, 102, st 253)] (st 0);
  St 265 [(48, 57, st 252); (58, 58, st 255); (65, 70, st 252); (97, 102, st 252)] (st 0);
  St 266 [(48, 57, st 267); (58, 58, st 270); (65, 70, st 267); (97, 102, st 267)] (st 0);
  St 267 [(48, 57, st 268); (58, 58, st 270); (65, 70, st 268); (97, 102, st 268)] (st 0);
  St 268 [(48, 57, st 269); (58, 58, st 270); (65, 70, st 269); (97, 102, st 269)] (st 0);
  St 269 [(58, 58, st 270)] (st 0);
  St 270 [(48, 57, st 271); (58, 58, st 341); (65, 70, st 271); (97, 102, st 271)] (st 0)].
(** lines 5060-5208 *)
Definition http11_code_36 : list (item action) := [
  St 271 [(48, 57, st 272); (58, 58, st 275); (65, 70, st 272); (97, 102, st 272)] (st 0);
  St 272 [(48, 57, st 273); (58, 58, st 275); (65, 70, st 273); (97, 102, st 273)] (st 0);
  St 273 [(48, 57, st 274); (58, 58, st 275); (65, 70, st 274); (97, 102, st 274)] (st 0);
  St 274 [(58, 58, st 275)] (st 0);
  St 275 [(48, 57, st 276); (58, 58, st 340); (65, 70, st 276); (97, 102, st 276)] (st 0);
  St 276 [(48, 57, st 277); (58, 58, st 280); (65, 70, st 277); (97, 102, st 277)] (st 0);
  St 277 [(48, 57, st 278); (58, 58, st 280); (65, 70, st 278); (97, 102, st 278)] (st 0);
  St 278 [(48, 57, st 279); (58, 58, st 280); (65, 70, st 279); (97, 102, st 279)] (st 0);
  St 279 [(58, 58, st 280)] (st 0);
  St 280 [(48, 57, st 281); (58, 58, st 339); (65, 70, st 281); (97, 102, st 281)] (st 0);
  St 281 [(48, 57, st 282); (58, 58, st 285); (65, 70, st 282); (97, 102, st 282)] (st 0)].
(** lines 5209-5357 *)
Definition http11_code_37 : list (item action) := [
  St 282 [(48, 57, st 283); (58, 58, st 285); (65, 70, st 283); (97, 102, st 283)] (st 0);
  St 283 [(48, 57, st 284); (58, 58, st 285); (65, 70, st 284); (97, 102, st 284)] (st 0);
  St 284 [(58, 58, st 285)] (st 0);
  St 285 [(48, 57, st 286); (58, 58, st 338); (65, 70, st 286); (97, 102, st 286)] (st 0);
  St 286 [(48, 57, st 287); (58, 58, st 290); (65, 70, st 287); (97, 102, st 287)] (st 0);
  St 287 [(48, 57, st 288); (58, 58, st 290); (65, 70, st 288); (97, 102, st 288)] (st 0);
  St 288 [(48, 57, st 289); (58, 58, st 290); (65, 70, st 289); (97, 102, st 289)] (st 0);
  St 289 [(58, 58, st 290)] (st 0);
  St 290 [(48, 57, st 291); (58, 58, st 326); (65, 70, st 291); (97, 102, st 291)] (st 0);
  St 291 [(48, 57, st 292); (58, 58, st 295); (65, 70, st 292); (97, 102, st 292)] (st 0);
  St 292 [(48, 57, st 293); (58, 58, st 295); (65, 70, st 293); (97, 102, st 293)] (st 0)].
(** lines 5358-5500 *)
Definition http11_code_38 : list (item action) := [
  St 293 [(48, 57, st 294); (58, 58, st 295); (65, 70, st 294); (97, 102, st 294)] (st 0);
  St 294 [(58, 58, st 295)] (st 0);
  St 295 [(48, 57, st 296); (58, 58, st 325); (65, 70, st 296); (97, 102, st 296)] (st 0);
  St 296 [(48, 57, st 297); (58, 58, st 300); (65, 70, st 297); (97, 102, st 297)] (st 0);
  St 297 [(48, 57, st 298); (58, 58, st 300); (65, 70, st 298); (97, 102, st 298)] (st 0);
  St 298 [(48, 57, st 299); (58, 58, st 300); (65, 70, st 299); (97, 102, st 299)] (st 0);
  St 299 [(58, 58, st 300)] (st 0);
  St 300 [(48, 57, st 296); (58, 58, st 301); (65, 70, st 296); (97, 102, st 296)] (st 0);
  St 301 [(2, 3, st 223); (48, 48, st 302); (49, 49, st 318); (50, 50, st 321); (51, 57, st 302); (65, 70, st 324); (93, 93, st 236); (97, 102, st 324)] (st 0);
  St 302 [(46, 46, st 230); (48, 57, st 303); (58, 58, st 306); (65, 70, st 303); (93, 93, st 236); (97, 102, st 303)] (st 0)].
(** lines 5501-5639 *)
Definition http11_code_39 : list (item action) := [
  St 303 [(48, 57, st 304); (58, 58, st 306); (65, 70, st 304); (93, 93, st 236); (97, 102, st 304)] (st 0);
  St 304 [(48, 57, st 305); (58, 58, st 306); (65, 70, st 305); (93, 93, st 236); (97, 102, st 305)] (st 0);
  St 305 [(58, 58, st 306); (93, 93, st 236)] (st 0);
  St 306 [(48, 48, st 307); (49, 49, st 311); (50, 50, st 314); (51, 57, st 307); (65, 70, st 317); (97, 102, st 317)] (st 0);
  St 307 [(46, 46, st 230); (48, 57, st 308); (58, 58, st 255); (65, 70, st 308); (93, 93, st 236); (97, 102, st 308)] (st 0);
  St 308 [(48, 57, st 309); (58, 58, st 255); (65, 70, st 309); (93, 93, st 236); (97, 102, st 309)] (st 0);
  St 309 [(48, 57, st 310); (58, 58, st 255); (65, 70, st 310); (93, 93, st 236); (97, 102, st 310)] (st 0);
  St 310 [(58, 58, st 255); (93, 93, st 236)] (st 0);
  St 311 [(46, 46, st 230); (48, 57, st 312); (58, 58, st 255); (65, 70, st 308); (93, 93, st 236); (97, 102, st 308)] (st 0)].
(** lines 5640-5783 *)
Definition http11_code_40 : list (item action) := [
  St 312 [(46, 46, st 230); (48, 57, st 313); (58, 58, st 255); (65, 70, st 309); (93, 93, st 236); (97, 102, st 309)] (st 0);
  St 313 [(46, 46, st 230); (48, 57, st 310); (58, 58, st 255); (65, 70, st 310); (93, 93, st 236); (97, 102, st 310)] (st 0);
  St 314 [(46, 46, st 230); (48, 48, st 315); (49, 52, st 308); (53, 53, st 316); (54, 57, st 308); (58, 58, st 255); (65, 70, st 308); (93, 93, st 236); (97, 102, st 308)] (st 0);
  St 315 [(48, 57, st 313); (58, 58, st 255); (65, 70, st 309); (93, 93, st 236); (97, 102, st 309)] (st 0);
  St 316 [(48, 48, st 313); (49, 57, st 309); (58, 58, st 255); (65, 70, st 309); (93, 93, st 236); (97, 102, st 309)] (st 0);
  St 317 [(48, 57, st 308); (58, 58, st 255); (65, 70, st 308); (93, 93, st 236); (97, 102, st 308)] (st 0);
  St 318 [(46, 46, st 230); (48, 57, st 319); (58, 58, st 306); (65, 70, st 303); (93, 93, st 236); (97, 102, st 303)] (st 0);
  St 319 [(46, 46, st 230); (48, 57, st 320); (58, 58, st 306); (65, 70, st 304); (93, 93, st 236); (97, 102, st 304)] (st 0)].
(** lines 5784-5930 *)
Definition http11_code_41 : list (item action) := [
  St 320 [(46, 46, st 230); (48, 57, st 305); (58, 58, st 306); (65, 70, st 305); (93, 93, st 236); (97, 102, st 305)] (st 0);
  St 321 [(46, 46, st 230); (48, 48, st 322); (49, 52, st 303); (53, 53, st 323); (54, 57, st 303); (58, 58, st 306); (65, 70, st 303); (93, 93, st 236); (97, 102, st 303)] (st 0);
  St 322 [(48, 57, st 320); (58, 58, st 306); (65, 70, st 304); (93, 93, st 236); (97, 102, st 304)] (st 0);
  St 323 [(48, 48, st 320); (49, 57, st 304); (58, 58, st 306); (65, 70, st 304); (93, 93, st 236); (97, 102, st 304)] (st 0);
  St 324 [(48, 57, st 303); (58, 58, st 306); (65, 70, st 303); (93, 93, st 236); (97, 102, st 303)] (st 0);
  St 325 [(2, 3, st 223); (48, 48, st 302); (49, 49, st 318); (50, 50, st 321); (51, 57, st 302); (65, 70, st 324); (97, 102, st 324)] (st 0);
  St 326 [(2, 3, st 223); (48, 48, st 327); (49, 49, st 331); (50, 50, st 334); (51, 57, st 327); (65, 70, st 337); (97, 102, st 337)] (st 0);
  St 327 [(46, 46, st 230); (48, 57, st 328); (58, 58, st 306); (65, 70, st 328); (97, 102, st 328)] (st 0)].
(** lines 5931-6069 *)
Definition http11_code_42 : list (item action) := [
  St 328 [(48, 57, st 329); (58, 58, st 306); (65, 70, st 329); (97, 102, st 329)] (st 0);
  St 329 [(48, 57, st 330); (58, 58, st 306); (65, 70, st 330); (97, 102, st 330)] (st 0);
  St 330 [(58, 58, st 306)] (st 0);
  St 331 [(46, 46, st 230); (48, 57, st 332); (58, 58, st 306); (65, 70, st 328); (97, 102, st 328)] (st 0);
  St 332 [(46, 46, st 230); (48, 57, st 333); (58, 58, st 306); (65, 70, st 329); (97, 102, st 329)] (st 0);
  St 333 [(46, 46, st 230); (48, 57, st 330); (58, 58, st 306); (65, 70, st 330); (97, 102, st 330)] (st 0);
  St 334 [(46, 46, st 230); (48, 48, st 335); (49, 52, st 328); (53, 53, st 336); (54, 57, st 328); (58, 58, st 306); (65, 70, st 328); (97, 102, st 328)] (st 0);
  St 335 [(48, 57, st 333); (58, 58, st 306); (65, 70, st 329); (97, 102, st 329)] (st 0);
  St 336 [(48, 48, st 333); (49, 57, st 329); (58, 58, st 306); (65, 70, st 329); (97, 102, st 329)] (st 0)].
(** lines 6070-6177 *)
Definition http11_code_43 : list (item action) := [
  St 337 [(48, 57, st 328); (58, 58, st 306); (65, 70, st 328); (97, 102, st 328)] (st 0);
  St 338 [(2, 3, st 223); (48, 57, st 224); (65, 70, st 224); (97, 102, st 224)] (st 0);
  St 339 [(2, 3, st 223)] (st 0);
  St 340 [(3, 3, st 223)] (st 0);
  St 341 [(4, 4, st 223)] (st 0);
  St 342 [(58, 58, st 343)] (st 0);
  St 343 [(2, 5, st 223); (48, 48, st 302); (49, 49, st 318); (50, 50, st 321); (51, 57, st 302); (65, 70, st 324); (93, 93, st 236); (97, 102, st 324)] (st 0);
  St 344 [(48, 57, st 345); (65, 70, st 345); (97, 102, st 345)] (st 0);
  St 345 [(46, 46, st 346); (48, 57, st 345); (65, 70, st 345); (97, 102, st 345)] (st 0)].
(** lines 6178-6272 *)
Definition http11_code_44 : list (item action) := [
  Sw 346 [(33, 33, st 347); (36, 36, st 347); (38, 46, st 347); (48, 59, st 347); (61, 61, st 347); (65, 90, st 347); (95, 95, st 347); (97, 122, st 347); (126, 126, st 347); (606, 606, st 347); (635, 635, st 347); (637, 637, st 347)] (st 0);
  Sw 347 [(33, 33, st 347); (36, 36, st 347); (38, 46, st 347); (48, 59, st 347); (61, 61, st 347); (65, 90, st 347); (93, 93, st 236); (95, 95, st 347); (97, 122, st 347); (126, 126, st 347); (606, 606, st 347); (635, 635, st 347); (637, 637, st 347)] (st 0)].
Definition http11_code : list (item action) := http11_code_1 ++ http11_code_2 ++ http11_code_3 ++
  http11_code_4 ++ http11_code_5 ++ http11_code_6 ++ http11_code_7 ++ http11_code_8 ++ http11_code_9 ++
  http11_code_10 ++ http11_code_11 ++ http11_code_12 ++ http11_code_13 ++ http11_code_14 ++ http11_code_15 ++
  http11_code_16 ++ http11_code_17 ++ http11_code_18 ++ http11_code_19 ++ http11_code_20 ++ http11_code_21 ++
  http11_code_22 ++ http11_code_23 ++ http11_code_24 ++ http11_code_25 ++ http11_code_26 ++ http11_code_27 ++
  http11_code_28 ++ http11_code_29 ++ http11_code_30 ++ http11_code_31 ++ http11_code_32 ++ http11_code_33 ++
  http11_code_34 ++ http11_code_35 ++ http11_code_36 ++ http11_code_37 ++ http11_code_38 ++ http11_code_39 ++
  http11_code_40 ++ http11_code_41 ++ http11_code_42 ++ http11_code_43 ++ http11_code_44.
