(* ===== verification/HttpClientMachine.v ===== *)
(** * The program of [httpclient_parser_execute] (cxk/http/httpclient_parser.rl.cpp)

    The labels of the function in their order, a list per region of the file. *)
From S2P Require Import Prelude Ragel.

(** The blocks of statements, by the names httpclient_parser.rl gives them. *)
Inductive action : Type :=
| Mark | StartField | WriteField | StartValue | WriteContentLen | WriteConnectionClose | WriteValue | ReasonPhrase
| StatusCode | HttpVersionA | ChunkSize | TransChunked | Done.
#[export] Instance action_eq_dec : EqDecision action.
Proof. solve_decision. Defined.

Definition httpclient_parser_start : Z := 1.
Definition httpclient_parser_first_final : Z := 120.

(** lines 122-258 *)
Definition client_code_1 : list (item action) := [
  St 1 [(48, 57, tr 0); (65, 70, tr 0); (72, 72, tr 2); (97, 102, tr 0)] (st 0);
  Tr 0 [Mark] 2;
  St 2 [(10, 10, tr 3); (13, 13, tr 4); (48, 57, st 2); (59, 59, tr 6); (65, 70, st 2); (97, 102, st 2)] (st 0);
  Tr 3 [ChunkSize; Done] 120;
  Tr 7 [Done] 120;
  Tr 9 [WriteField; StartValue; WriteValue; Done] 120;
  Tr 15 [WriteValue; Done] 120;
  Tr 74 [WriteConnectionClose; Done] 120;
  St 120 [] (st 0);
  Tr 4 [ChunkSize] 3].
(** lines 259-402 *)
Definition client_code_2 : list (item action) := [
  Tr 10 [WriteField; StartValue; WriteValue] 3;
  Tr 16 [WriteValue] 3;
  Tr 75 [WriteConnectionClose] 3;
  St 3 [(10, 10, tr 7)] (st 0);
  Tr 6 [ChunkSize] 4;
  Tr 12 [WriteField; StartValue; WriteValue] 4;
  Tr 18 [WriteValue] 4;
  St 4 [(33, 33, tr 8); (35, 39, tr 8); (42, 43, tr 8); (45, 46, tr 8); (48, 57, tr 8); (65, 90, tr 8); (94, 122, tr 8); (124, 124, tr 8); (126, 126, tr 8)] (st 0);
  Tr 8 [StartField] 5;
  St 5 [(10, 10, tr 9); (13, 13, tr 10); (33, 33, st 5); (35, 39, st 5); (42, 43, st 5); (45, 46, st 5); (48, 57, st 5); (59, 59, tr 12); (61, 61, tr 13); (65, 90, st 5); (94, 122, st 5); (124, 124, st 5); (126, 126, st 5)] (st 0);
  Tr 13 [WriteField; StartValue] 6].
(** lines 403-549 *)
Definition client_code_3 : list (item action) := [
  St 6 [(33, 33, tr 14); (35, 39, tr 14); (42, 43, tr 14); (45, 46, tr 14); (48, 57, tr 14); (65, 90, tr 14); (94, 122, tr 14); (124, 124, tr 14); (126, 126, tr 14)] (st 0);
  Tr 14 [StartValue] 7;
  St 7 [(10, 10, tr 15); (13, 13, tr 16); (33, 33, st 7); (35, 39, st 7); (42, 43, st 7); (45, 46, st 7); (48, 57, st 7); (59, 59, tr 18); (65, 90, st 7); (94, 122, st 7); (124, 124, st 7); (126, 126, st 7)] (st 0);
  Tr 2 [Mark] 8;
  St 8 [(84, 84, st 9)] (st 0);
  St 9 [(84, 84, st 10)] (st 0);
  St 10 [(80, 80, st 11)] (st 0);
  St 11 [(47, 47, st 12)] (st 0);
  St 12 [(48, 57, st 13)] (st 0);
  St 13 [(46, 46, st 14); (48, 57, st 13)] (st 0);
  St 14 [(48, 57, st 15)] (st 0);
  St 15 [(32, 32, tr 26); (48, 57, st 15)] (st 0);
  Tr 26 [HttpVersionA] 16;
  St 16 [(48, 57, tr 27)] (st 0);
  Tr 27 [Mark] 17].
(** lines 550-691 *)
Definition client_code_4 : list (item action) := [
  St 17 [(32, 32, tr 28); (48, 57, st 17)] (st 0);
  Tr 28 [StatusCode] 18;
  St 18 [(10, 10, st 0)] (tr 30);
  Tr 30 [Mark] 19;
  St 19 [(10, 10, tr 32); (13, 13, tr 33)] (st 19);
  Tr 45 [WriteValue] 20;
  Tr 32 [ReasonPhrase] 20;
  Tr 42 [StartValue; WriteValue] 20;
  Tr 111 [WriteValue; TransChunked] 20;
  Tr 113 [TransChunked] 20;
  Tr 158 [WriteContentLen; WriteValue] 20;
  St 20 [(10, 10, tr 7); (13, 13, st 3); (33, 33, tr 35); (35, 39, tr 35); (42, 43, tr 35); (45, 46, tr 35); (48, 57, tr 35); (65, 66, tr 35); (67, 67, tr 36); (68, 83, tr 35); (84, 84, tr 37); (85, 90, tr 35); (94, 98, tr 35); (99, 99, tr 36); (100, 115, tr 35); (116, 116, tr 37); (117, 122, tr 35); (124, 124, tr 35); (126, 126, tr 35)] (st 0);
  Tr 35 [StartField] 21;
  Tr 76 [WriteConnectionClose; StartField] 21].
(** lines 692-814 *)
Definition client_code_5 : list (item action) := [
  St 21 [(33, 33, st 21); (35, 39, st 21); (42, 43, st 21); (45, 46, st 21); (48, 57, st 21); (58, 58, tr 39); (65, 90, st 21); (94, 122, st 21); (124, 124, st 21); (126, 126, st 21)] (st 0);
  Tr 41 [StartValue] 22;
  Tr 39 [WriteField] 22;
  St 22 [(9, 9, tr 41); (10, 10, tr 42); (11, 12, tr 41); (13, 13, tr 43); (32, 32, tr 41)] (tr 40);
  Tr 40 [StartValue] 23;
  St 23 [(10, 10, tr 45); (13, 13, tr 46)] (st 23);
  Tr 46 [WriteValue] 24;
  Tr 33 [ReasonPhrase] 24;
  Tr 43 [StartValue; WriteValue] 24;
  Tr 159 [WriteContentLen; WriteValue] 24;
  St 24 [(10, 10, st 20)] (st 0);
  Tr 36 [StartField] 25;
  Tr 77 [WriteConnectionClose; StartField] 25].
(** lines 815-937 *)
Definition client_code_6 : list (item action) := [
  St 25 [(33, 33, st 21); (35, 39, st 21); (42, 43, st 21); (45, 46, st 21); (48, 57, st 21); (58, 58, tr 39); (65, 78, st 21); (79, 79, st 26); (80, 90, st 21); (94, 110, st 21); (111, 111, st 26); (112, 122, st 21); (124, 124, st 21); (126, 126, st 21)] (st 0);
  St 26 [(33, 33, st 21); (35, 39, st 21); (42, 43, st 21); (45, 46, st 21); (48, 57, st 21); (58, 58, tr 39); (65, 77, st 21); (78, 78, st 27); (79, 90, st 21); (94, 109, st 21); (110, 110, st 27); (111, 122, st 21); (124, 124, st 21); (126, 126, st 21)] (st 0);
  St 27 [(33, 33, st 21); (35, 39, st 21); (42, 43, st 21); (45, 46, st 21); (48, 57, st 21); (58, 58, tr 39); (65, 77, st 21); (78, 78, st 28); (79, 83, st 21); (84, 84, st 101); (85, 90, st 21); (94, 109, st 21); (110, 110, st 28); (111, 115, st 21); (116, 116, st 101); (117, 122, st 21); (124, 124, st 21); (126, 126, st 21)] (st 0);
  St 28 [(33, 33, st 21); (35, 39, st 21); (42, 43, st 21); (45, 46, st 21); (48, 57, st 21); (58, 58, tr 39); (65, 68, st 21); (69, 69, st 29); (70, 90, st 21); (94, 100, st 21); (101, 101, st 29); (102, 122, st 21); (124, 124, st 21); (126, 126, st 21)] (st 0)].
(** lines 938-1087 *)
Definition client_code_7 : list (item action) := [
  St 29 [(33, 33, st 21); (35, 39, st 21); (42, 43, st 21); (45, 46, st 21); (48, 57, st 21); (58, 58, tr 39); (65, 66, st 21); (67, 67, st 30); (68, 90, st 21); (94, 98, st 21); (99, 99, st 30); (100, 122, st 21); (124, 124, st 21); (126, 126, st 21)] (st 0);
  St 30 [(33, 33, st 21); (35, 39, st 21); (42, 43, st 21); (45, 46, st 21); (48, 57, st 21); (58, 58, tr 39); (65, 83, st 21); (84, 84, st 31); (85, 90, st 21); (94, 115, st 21); (116, 116, st 31); (117, 122, st 21); (124, 124, st 21); (126, 126, st 21)] (st 0);
  St 31 [(33, 33, st 21); (35, 39, st 21); (42, 43, st 21); (45, 46, st 21); (48, 57, st 21); (58, 58, tr 39); (65, 72, st 21); (73, 73, st 32); (74, 90, st 21); (94, 104, st 21); (105, 105, st 32); (106, 122, st 21); (124, 124, st 21); (126, 126, st 21)] (st 0);
  St 32 [(33, 33, st 21); (35, 39, st 21); (42, 43, st 21); (45, 46, st 21); (48, 57, st 21); (58, 58, tr 39); (65, 78, st 21); (79, 79, st 33); (80, 90, st 21); (94, 110, st 21); (111, 111, st 33); (112, 122, st 21); (124, 124, st 21); (126, 126, st 21)] (st 0);
  St 33 [(33, 33, st 21); (35, 39, st 21); (42, 43, st 21); (45, 46, st 21); (48, 57, st 21); (58, 58, tr 39); (65, 77, st 21); (78, 78, st 34); (79, 90, st 21); (94, 109, st 21); (110, 110, st 34); (111, 122, st 21); (124, 124, st 21); (126, 126, st 21)] (st 0)].
(** lines 1088-1236 *)
Definition client_code_8 : list (item action) := [
  St 34 [(33, 33, st 21); (35, 39, st 21); (42, 43, st 21); (45, 46, st 21); (48, 57, st 21); (58, 58, tr 58); (65, 90, st 21); (94, 122, st 21); (124, 124, st 21); (126, 126, st 21)] (st 0);
  Tr 59 [StartValue] 35;
  Tr 58 [WriteField] 35;
  St 35 [(9, 9, tr 59); (10, 10, tr 60); (11, 12, tr 59); (13, 13, tr 61); (32, 32, tr 59); (67, 67, tr 62); (99, 99, tr 62)] (tr 40);
  Tr 60 [StartValue; WriteValue] 36;
  St 36 [(9, 9, st 37); (10, 10, tr 64); (11, 12, st 37); (13, 13, st 89); (32, 32, st 37); (33, 33, tr 35); (35, 39, tr 35); (42, 43, tr 35); (45, 46, tr 35); (48, 57, tr 35); (65, 66, tr 35); (67, 67, tr 66); (68, 83, tr 35); (84, 84, tr 37); (85, 90, tr 35); (94, 98, tr 35); (99, 99, tr 66); (100, 115, tr 35); (116, 116, tr 37); (117, 122, tr 35); (124, 124, tr 35); (126, 126, tr 35)] (st 0);
  St 37 [(9, 13, st 37); (32, 32, st 37); (67, 67, st 38); (99, 99, st 38)] (st 0);
  St 38 [(76, 76, st 39); (108, 108, st 39)] (st 0);
  St 39 [(79, 79, st 40); (111, 111, st 40)] (st 0);
  St 40 [(83, 83, st 41); (115, 115, st 41)] (st 0);
  St 41 [(69, 69, st 42); (101, 101, st 42)] (st 0)].
(** lines 1237-1360 *)
Definition client_code_9 : list (item action) := [
  St 42 [(10, 10, st 43); (13, 13, st 88)] (st 0);
  Tr 136 [WriteValue] 43;
  St 43 [(10, 10, tr 74); (13, 13, tr 75); (33, 33, tr 76); (35, 39, tr 76); (42, 43, tr 76); (45, 46, tr 76); (48, 57, tr 76); (65, 66, tr 76); (67, 67, tr 77); (68, 83, tr 76); (84, 84, tr 78); (85, 90, tr 76); (94, 98, tr 76); (99, 99, tr 77); (100, 115, tr 76); (116, 116, tr 78); (117, 122, tr 76); (124, 124, tr 76); (126, 126, tr 76)] (st 0);
  Tr 37 [StartField] 44;
  Tr 78 [WriteConnectionClose; StartField] 44;
  St 44 [(33, 33, st 21); (35, 39, st 21); (42, 43, st 21); (45, 46, st 21); (48, 57, st 21); (58, 58, tr 39); (65, 81, st 21); (82, 82, st 45); (83, 90, st 21); (94, 113, st 21); (114, 114, st 45); (115, 122, st 21); (124, 124, st 21); (126, 126, st 21)] (st 0);
  St 45 [(33, 33, st 21); (35, 39, st 21); (42, 43, st 21); (45, 46, st 21); (48, 57, st 21); (58, 58, tr 39); (65, 65, st 46); (66, 90, st 21); (94, 96, st 21); (97, 97, st 46); (98, 122, st 21); (124, 124, st 21); (126, 126, st 21)] (st 0)].
(** lines 1361-1510 *)
Definition client_code_10 : list (item action) := [
  St 46 [(33, 33, st 21); (35, 39, st 21); (42, 43, st 21); (45, 46, st 21); (48, 57, st 21); (58, 58, tr 39); (65, 77, st 21); (78, 78, st 47); (79, 90, st 21); (94, 109, st 21); (110, 110, st 47); (111, 122, st 21); (124, 124, st 21); (126, 126, st 21)] (st 0);
  St 47 [(33, 33, st 21); (35, 39, st 21); (42, 43, st 21); (45, 46, st 21); (48, 57, st 21); (58, 58, tr 39); (65, 82, st 21); (83, 83, st 48); (84, 90, st 21); (94, 114, st 21); (115, 115, st 48); (116, 122, st 21); (124, 124, st 21); (126, 126, st 21)] (st 0);
  St 48 [(33, 33, st 21); (35, 39, st 21); (42, 43, st 21); (45, 46, st 21); (48, 57, st 21); (58, 58, tr 39); (65, 69, st 21); (70, 70, st 49); (71, 90, st 21); (94, 101, st 21); (102, 102, st 49); (103, 122, st 21); (124, 124, st 21); (126, 126, st 21)] (st 0);
  St 49 [(33, 33, st 21); (35, 39, st 21); (42, 43, st 21); (45, 46, st 21); (48, 57, st 21); (58, 58, tr 39); (65, 68, st 21); (69, 69, st 50); (70, 90, st 21); (94, 100, st 21); (101, 101, st 50); (102, 122, st 21); (124, 124, st 21); (126, 126, st 21)] (st 0);
  St 50 [(33, 33, st 21); (35, 39, st 21); (42, 43, st 21); (45, 46, st 21); (48, 57, st 21); (58, 58, tr 39); (65, 81, st 21); (82, 82, st 51); (83, 90, st 21); (94, 113, st 21); (114, 114, st 51); (115, 122, st 21); (124, 124, st 21); (126, 126, st 21)] (st 0)].
(** lines 1511-1657 *)
Definition client_code_11 : list (item action) := [
  St 51 [(33, 33, st 21); (35, 39, st 21); (42, 43, st 21); (45, 45, st 52); (46, 46, st 21); (48, 57, st 21); (58, 58, tr 39); (65, 90, st 21); (94, 122, st 21); (124, 124, st 21); (126, 126, st 21)] (st 0);
  St 52 [(33, 33, st 21); (35, 39, st 21); (42, 43, st 21); (45, 46, st 21); (48, 57, st 21); (58, 58, tr 39); (65, 68, st 21); (69, 69, st 53); (70, 90, st 21); (94, 100, st 21); (101, 101, st 53); (102, 122, st 21); (124, 124, st 21); (126, 126, st 21)] (st 0);
  St 53 [(33, 33, st 21); (35, 39, st 21); (42, 43, st 21); (45, 46, st 21); (48, 57, st 21); (58, 58, tr 39); (65, 77, st 21); (78, 78, st 54); (79, 90, st 21); (94, 109, st 21); (110, 110, st 54); (111, 122, st 21); (124, 124, st 21); (126, 126, st 21)] (st 0);
  St 54 [(33, 33, st 21); (35, 39, st 21); (42, 43, st 21); (45, 46, st 21); (48, 57, st 21); (58, 58, tr 39); (65, 66, st 21); (67, 67, st 55); (68, 90, st 21); (94, 98, st 21); (99, 99, st 55); (100, 122, st 21); (124, 124, st 21); (126, 126, st 21)] (st 0);
  St 55 [(33, 33, st 21); (35, 39, st 21); (42, 43, st 21); (45, 46, st 21); (48, 57, st 21); (58, 58, tr 39); (65, 78, st 21); (79, 79, st 56); (80, 90, st 21); (94, 110, st 21); (111, 111, st 56); (112, 122, st 21); (124, 124, st 21); (126, 126, st 21)] (st 0)].
(** lines 1658-1805 *)
Definition client_code_12 : list (item action) := [
  St 56 [(33, 33, st 21); (35, 39, st 21); (42, 43, st 21); (45, 46, st 21); (48, 57, st 21); (58, 58, tr 39); (65, 67, st 21); (68, 68, st 57); (69, 90, st 21); (94, 99, st 21); (100, 100, st 57); (101, 122, st 21); (124, 124, st 21); (126, 126, st 21)] (st 0);
  St 57 [(33, 33, st 21); (35, 39, st 21); (42, 43, st 21); (45, 46, st 21); (48, 57, st 21); (58, 58, tr 39); (65, 72, st 21); (73, 73, st 58); (74, 90, st 21); (94, 104, st 21); (105, 105, st 58); (106, 122, st 21); (124, 124, st 21); (126, 126, st 21)] (st 0);
  St 58 [(33, 33, st 21); (35, 39, st 21); (42, 43, st 21); (45, 46, st 21); (48, 57, st 21); (58, 58, tr 39); (65, 77, st 21); (78, 78, st 59); (79, 90, st 21); (94, 109, st 21); (110, 110, st 59); (111, 122, st 21); (124, 124, st 21); (126, 126, st 21)] (st 0);
  St 59 [(33, 33, st 21); (35, 39, st 21); (42, 43, st 21); (45, 46, st 21); (48, 57, st 21); (58, 58, tr 39); (65, 70, st 21); (71, 71, st 60); (72, 90, st 21); (94, 102, st 21); (103, 103, st 60); (104, 122, st 21); (124, 124, st 21); (126, 126, st 21)] (st 0);
  St 60 [(33, 33, st 21); (35, 39, st 21); (42, 43, st 21); (45, 46, st 21); (48, 57, st 21); (58, 58, tr 95); (65, 90, st 21); (94, 122, st 21); (124, 124, st 21); (126, 126, st 21)] (st 0)].
(** lines 1806-1949 *)
Definition client_code_13 : list (item action) := [
  Tr 96 [StartValue] 61;
  Tr 95 [WriteField] 61;
  St 61 [(9, 9, tr 96); (10, 10, tr 97); (11, 12, tr 96); (13, 13, tr 98); (32, 32, tr 96); (67, 67, tr 99); (99, 99, tr 99)] (tr 40);
  Tr 97 [StartValue; WriteValue] 62;
  St 62 [(9, 9, st 63); (10, 10, tr 101); (11, 12, st 63); (13, 13, st 72); (32, 32, st 63); (33, 33, tr 35); (35, 39, tr 35); (42, 43, tr 35); (45, 46, tr 35); (48, 57, tr 35); (65, 66, tr 35); (67, 67, tr 103); (68, 83, tr 35); (84, 84, tr 37); (85, 90, tr 35); (94, 98, tr 35); (99, 99, tr 103); (100, 115, tr 35); (116, 116, tr 37); (117, 122, tr 35); (124, 124, tr 35); (126, 126, tr 35)] (st 0);
  St 63 [(9, 13, st 63); (32, 32, st 63); (67, 67, tr 104); (99, 99, tr 104)] (st 0);
  Tr 104 [StartValue] 64;
  St 64 [(72, 72, st 65); (104, 104, st 65)] (st 0);
  St 65 [(85, 85, st 66); (117, 117, st 66)] (st 0);
  St 66 [(78, 78, st 67); (110, 110, st 67)] (st 0);
  St 67 [(75, 75, st 68); (107, 107, st 68)] (st 0);
  St 68 [(69, 69, st 69); (101, 101, st 69)] (st 0);
  St 69 [(68, 68, st 70); (100, 100, st 70)] (st 0)].
(** lines 1950-2078 *)
Definition client_code_14 : list (item action) := [
  St 70 [(10, 10, tr 111); (13, 13, tr 112)] (st 0);
  Tr 112 [WriteValue] 71;
  St 71 [(10, 10, tr 113)] (st 0);
  Tr 101 [Done] 121;
  St 121 [(9, 13, st 63); (32, 32, st 63); (67, 67, tr 104); (99, 99, tr 104)] (st 0);
  St 72 [(9, 9, st 63); (10, 10, tr 101); (11, 13, st 63); (32, 32, st 63); (67, 67, tr 104); (99, 99, tr 104)] (st 0);
  Tr 103 [StartValue; StartField] 73;
  St 73 [(33, 33, st 21); (35, 39, st 21); (42, 43, st 21); (45, 46, st 21); (48, 57, st 21); (58, 58, tr 39); (65, 71, st 21); (72, 72, st 74); (73, 78, st 21); (79, 79, st 26); (80, 90, st 21); (94, 103, st 21); (104, 104, st 74); (105, 110, st 21); (111, 111, st 26); (112, 122, st 21); (124, 124, st 21); (126, 126, st 21)] (st 0);
  St 74 [(33, 33, st 21); (35, 39, st 21); (42, 43, st 21); (45, 46, st 21); (48, 57, st 21); (58, 58, tr 39); (65, 84, st 21); (85, 85, st 75); (86, 90, st 21); (94, 116, st 21); (117, 117, st 75); (118, 122, st 21); (124, 124, st 21); (126, 126, st 21)] (st 0)].
(** lines 2079-2228 *)
Definition client_code_15 : list (item action) := [
  St 75 [(33, 33, st 21); (35, 39, st 21); (42, 43, st 21); (45, 46, st 21); (48, 57, st 21); (58, 58, tr 39); (65, 77, st 21); (78, 78, st 76); (79, 90, st 21); (94, 109, st 21); (110, 110, st 76); (111, 122, st 21); (124, 124, st 21); (126, 126, st 21)] (st 0);
  St 76 [(33, 33, st 21); (35, 39, st 21); (42, 43, st 21); (45, 46, st 21); (48, 57, st 21); (58, 58, tr 39); (65, 74, st 21); (75, 75, st 77); (76, 90, st 21); (94, 106, st 21); (107, 107, st 77); (108, 122, st 21); (124, 124, st 21); (126, 126, st 21)] (st 0);
  St 77 [(33, 33, st 21); (35, 39, st 21); (42, 43, st 21); (45, 46, st 21); (48, 57, st 21); (58, 58, tr 39); (65, 68, st 21); (69, 69, st 78); (70, 90, st 21); (94, 100, st 21); (101, 101, st 78); (102, 122, st 21); (124, 124, st 21); (126, 126, st 21)] (st 0);
  St 78 [(33, 33, st 21); (35, 39, st 21); (42, 43, st 21); (45, 46, st 21); (48, 57, st 21); (58, 58, tr 39); (65, 67, st 21); (68, 68, st 79); (69, 90, st 21); (94, 99, st 21); (100, 100, st 79); (101, 122, st 21); (124, 124, st 21); (126, 126, st 21)] (st 0);
  St 79 [(10, 10, tr 111); (13, 13, tr 112); (33, 33, st 21); (35, 39, st 21); (42, 43, st 21); (45, 46, st 21); (48, 57, st 21); (58, 58, tr 39); (65, 90, st 21); (94, 122, st 21); (124, 124, st 21); (126, 126, st 21)] (st 0)].
(** lines 2229-2370 *)
Definition client_code_16 : list (item action) := [
  Tr 98 [StartValue; WriteValue] 80;
  St 80 [(9, 9, st 63); (10, 10, st 62); (11, 13, st 63); (32, 32, st 63); (67, 67, tr 104); (99, 99, tr 104)] (st 0);
  Tr 99 [StartValue] 81;
  St 81 [(10, 10, tr 45); (13, 13, tr 46); (72, 72, st 82); (104, 104, st 82)] (st 23);
  St 82 [(10, 10, tr 45); (13, 13, tr 46); (85, 85, st 83); (117, 117, st 83)] (st 23);
  St 83 [(10, 10, tr 45); (13, 13, tr 46); (78, 78, st 84); (110, 110, st 84)] (st 23);
  St 84 [(10, 10, tr 45); (13, 13, tr 46); (75, 75, st 85); (107, 107, st 85)] (st 23);
  St 85 [(10, 10, tr 45); (13, 13, tr 46); (69, 69, st 86); (101, 101, st 86)] (st 23);
  St 86 [(10, 10, tr 45); (13, 13, tr 46); (68, 68, st 87); (100, 100, st 87)] (st 23);
  St 87 [(10, 10, tr 111); (13, 13, tr 112)] (st 23);
  Tr 137 [WriteValue] 88;
  St 88 [(10, 10, st 43)] (st 0);
  Tr 64 [Done] 122;
  St 122 [(9, 13, st 37); (32, 32, st 37); (67, 67, st 38); (99, 99, st 38)] (st 0)].
(** lines 2371-2510 *)
Definition client_code_17 : list (item action) := [
  St 89 [(9, 9, st 37); (10, 10, tr 64); (11, 13, st 37); (32, 32, st 37); (67, 67, st 38); (99, 99, st 38)] (st 0);
  Tr 66 [StartField] 90;
  St 90 [(33, 33, st 21); (35, 39, st 21); (42, 43, st 21); (45, 46, st 21); (48, 57, st 21); (58, 58, tr 39); (65, 75, st 21); (76, 76, st 91); (77, 78, st 21); (79, 79, st 26); (80, 90, st 21); (94, 107, st 21); (108, 108, st 91); (109, 110, st 21); (111, 111, st 26); (112, 122, st 21); (124, 124, st 21); (126, 126, st 21)] (st 0);
  St 91 [(33, 33, st 21); (35, 39, st 21); (42, 43, st 21); (45, 46, st 21); (48, 57, st 21); (58, 58, tr 39); (65, 78, st 21); (79, 79, st 92); (80, 90, st 21); (94, 110, st 21); (111, 111, st 92); (112, 122, st 21); (124, 124, st 21); (126, 126, st 21)] (st 0);
  St 92 [(33, 33, st 21); (35, 39, st 21); (42, 43, st 21); (45, 46, st 21); (48, 57, st 21); (58, 58, tr 39); (65, 82, st 21); (83, 83, st 93); (84, 90, st 21); (94, 114, st 21); (115, 115, st 93); (116, 122, st 21); (124, 124, st 21); (126, 126, st 21)] (st 0);
  St 93 [(33, 33, st 21); (35, 39, st 21); (42, 43, st 21); (45, 46, st 21); (48, 57, st 21); (58, 58, tr 39); (65, 68, st 21); (69, 69, st 94); (70, 90, st 21); (94, 100, st 21); (101, 101, st 94); (102, 122, st 21); (124, 124, st 21); (126, 126, st 21)] (st 0)].
(** lines 2511-2652 *)
Definition client_code_18 : list (item action) := [
  St 94 [(10, 10, st 43); (13, 13, st 88); (33, 33, st 21); (35, 39, st 21); (42, 43, st 21); (45, 46, st 21); (48, 57, st 21); (58, 58, tr 39); (65, 90, st 21); (94, 122, st 21); (124, 124, st 21); (126, 126, st 21)] (st 0);
  Tr 61 [StartValue; WriteValue] 95;
  St 95 [(9, 9, st 37); (10, 10, st 36); (11, 13, st 37); (32, 32, st 37); (67, 67, st 38); (99, 99, st 38)] (st 0);
  Tr 62 [StartValue] 96;
  St 96 [(10, 10, tr 45); (13, 13, tr 46); (76, 76, st 97); (108, 108, st 97)] (st 23);
  St 97 [(10, 10, tr 45); (13, 13, tr 46); (79, 79, st 98); (111, 111, st 98)] (st 23);
  St 98 [(10, 10, tr 45); (13, 13, tr 46); (83, 83, st 99); (115, 115, st 99)] (st 23);
  St 99 [(10, 10, tr 45); (13, 13, tr 46); (69, 69, st 100); (101, 101, st 100)] (st 23);
  St 100 [(10, 10, tr 136); (13, 13, tr 137)] (st 23);
  St 101 [(33, 33, st 21); (35, 39, st 21); (42, 43, st 21); (45, 46, st 21); (48, 57, st 21); (58, 58, tr 39); (65, 68, st 21); (69, 69, st 102); (70, 90, st 21); (94, 100, st 21); (101, 101, st 102); (102, 122, st 21); (124, 124, st 21); (126, 126, st 21)] (st 0)].
(** lines 2653-2799 *)
Definition client_code_19 : list (item action) := [
  St 102 [(33, 33, st 21); (35, 39, st 21); (42, 43, st 21); (45, 46, st 21); (48, 57, st 21); (58, 58, tr 39); (65, 77, st 21); (78, 78, st 103); (79, 90, st 21); (94, 109, st 21); (110, 110, st 103); (111, 122, st 21); (124, 124, st 21); (126, 126, st 21)] (st 0);
  St 103 [(33, 33, st 21); (35, 39, st 21); (42, 43, st 21); (45, 46, st 21); (48, 57, st 21); (58, 58, tr 39); (65, 83, st 21); (84, 84, st 104); (85, 90, st 21); (94, 115, st 21); (116, 116, st 104); (117, 122, st 21); (124, 124, st 21); (126, 126, st 21)] (st 0);
  St 104 [(33, 33, st 21); (35, 39, st 21); (42, 43, st 21); (45, 45, st 105); (46, 46, st 21); (48, 57, st 21); (58, 58, tr 39); (65, 90, st 21); (94, 122, st 21); (124, 124, st 21); (126, 126, st 21)] (st 0);
  St 105 [(33, 33, st 21); (35, 39, st 21); (42, 43, st 21); (45, 46, st 21); (48, 57, st 21); (58, 58, tr 39); (65, 75, st 21); (76, 76, st 106); (77, 90, st 21); (94, 107, st 21); (108, 108, st 106); (109, 122, st 21); (124, 124, st 21); (126, 126, st 21)] (st 0);
  St 106 [(33, 33, st 21); (35, 39, st 21); (42, 43, st 21); (45, 46, st 21); (48, 57, st 21); (58, 58, tr 39); (65, 68, st 21); (69, 69, st 107); (70, 90, st 21); (94, 100, st 21); (101, 101, st 107); (102, 122, st 21); (124, 124, st 21); (126, 126, st 21)] (st 0)].
(** lines 2800-2947 *)
Definition client_code_20 : list (item action) := [
  St 107 [(33, 33, st 21); (35, 39, st 21); (42, 43, st 21); (45, 46, st 21); (48, 57, st 21); (58, 58, tr 39); (65, 77, st 21); (78, 78, st 108); (79, 90, st 21); (94, 109, st 21); (110, 110, st 108); (111, 122, st 21); (124, 124, st 21); (126, 126, st 21)] (st 0);
  St 108 [(33, 33, st 21); (35, 39, st 21); (42, 43, st 21); (45, 46, st 21); (48, 57, st 21); (58, 58, tr 39); (65, 70, st 21); (71, 71, st 109); (72, 90, st 21); (94, 102, st 21); (103, 103, st 109); (104, 122, st 21); (124, 124, st 21); (126, 126, st 21)] (st 0);
  St 109 [(33, 33, st 21); (35, 39, st 21); (42, 43, st 21); (45, 46, st 21); (48, 57, st 21); (58, 58, tr 39); (65, 83, st 21); (84, 84, st 110); (85, 90, st 21); (94, 115, st 21); (116, 116, st 110); (117, 122, st 21); (124, 124, st 21); (126, 126, st 21)] (st 0);
  St 110 [(33, 33, st 21); (35, 39, st 21); (42, 43, st 21); (45, 46, st 21); (48, 57, st 21); (58, 58, tr 39); (65, 71, st 21); (72, 72, st 111); (73, 90, st 21); (94, 103, st 21); (104, 104, st 111); (105, 122, st 21); (124, 124, st 21); (126, 126, st 21)] (st 0);
  St 111 [(33, 33, st 21); (35, 39, st 21); (42, 43, st 21); (45, 46, st 21); (48, 57, st 21); (58, 58, tr 148); (65, 90, st 21); (94, 122, st 21); (124, 124, st 21); (126, 126, st 21)] (st 0)].
(** lines 2948-3091 *)
Definition client_code_21 : list (item action) := [
  Tr 149 [StartValue] 112;
  Tr 148 [WriteField] 112;
  St 112 [(9, 9, tr 149); (10, 10, tr 150); (11, 12, tr 149); (13, 13, tr 151); (32, 32, tr 149); (48, 57, tr 152)] (tr 40);
  Tr 150 [StartValue; WriteValue] 113;
  St 113 [(9, 9, st 114); (10, 10, tr 154); (11, 12, st 114); (13, 13, st 116); (32, 32, st 114); (33, 33, tr 35); (35, 39, tr 35); (42, 43, tr 35); (45, 46, tr 35); (48, 57, tr 156); (65, 66, tr 35); (67, 67, tr 36); (68, 83, tr 35); (84, 84, tr 37); (85, 90, tr 35); (94, 98, tr 35); (99, 99, tr 36); (100, 115, tr 35); (116, 116, tr 37); (117, 122, tr 35); (124, 124, tr 35); (126, 126, tr 35)] (st 0);
  St 114 [(9, 13, st 114); (32, 32, st 114); (48, 57, tr 157)] (st 0);
  Tr 157 [StartValue] 115;
  St 115 [(10, 10, tr 158); (13, 13, tr 159); (48, 57, st 115)] (st 0);
  Tr 154 [Done] 123;
  St 123 [(9, 13, st 114); (32, 32, st 114); (48, 57, tr 157)] (st 0);
  St 116 [(9, 9, st 114); (10, 10, tr 154); (11, 13, st 114); (32, 32, st 114); (48, 57, tr 157)] (st 0);
  Tr 156 [StartValue; StartField] 117].
(** lines 3092-3163 *)
Definition client_code_22 : list (item action) := [
  St 117 [(10, 10, tr 158); (13, 13, tr 159); (33, 33, st 21); (35, 39, st 21); (42, 43, st 21); (45, 46, st 21); (48, 57, st 117); (58, 58, tr 39); (65, 90, st 21); (94, 122, st 21); (124, 124, st 21); (126, 126, st 21)] (st 0);
  Tr 151 [StartValue; WriteValue] 118;
  St 118 [(9, 9, st 114); (10, 10, st 113); (11, 13, st 114); (32, 32, st 114); (48, 57, tr 157)] (st 0);
  Tr 152 [StartValue] 119;
  St 119 [(10, 10, tr 158); (13, 13, tr 159); (48, 57, st 119)] (st 23)].
Definition client_code : list (item action) := client_code_1 ++ client_code_2 ++ client_code_3 ++
  client_code_4 ++ client_code_5 ++ client_code_6 ++ client_code_7 ++ client_code_8 ++ client_code_9 ++
  client_code_10 ++ client_code_11 ++ client_code_12 ++ client_code_13 ++ client_code_14 ++ client_code_15 ++
  client_code_16 ++ client_code_17 ++ client_code_18 ++ client_code_19 ++ client_code_20 ++ client_code_21 ++
  client_code_22.
