(* ===== verification/Http11.v ===== *)
(** * The parser of requests (cxk/http/http11_parser.rl.cpp)

    The functions around the program of [Http11Machine], its callbacks, and the
    instance of the interface [Machine] of [HttpServer]; what a request parses
    to. *)
From S2P Require Import Prelude ByteArray Stream Http HttpServer Ragel Http11Machine.

(** [struct http_parser], without the pointers to the callbacks. *)
Record http_parser : Type := mkHttpParser {
  cs : Z; body_start : Z; content_len : Z; nread : Z; mark : Z; field_start : Z; field_len : Z; query_start : Z;
  xml_sent : bool; json_sent : bool; uri_relaxed : bool
}.
#[export] Instance http_parser_eq_dec : EqDecision http_parser.
Proof. solve_decision. Defined.
(** [http_parser_init] leaves [query_start] and [uri_relaxed] as they are in the
    memory [g] of the object. *)
Definition http_parser_init (g : http_parser) : http_parser :=
  mkHttpParser http_parser_start 0 0 0 0 0 0 (query_start g) false false (uri_relaxed g).
Definition http_parser_has_error (h : http_parser) : bool := cs h =? 0.
Definition http_parser_is_finished (h : http_parser) : bool := http_parser_first_final <=? cs h.
Definition http_parser_finish (h : http_parser) : Z :=
  if http_parser_has_error h then -1 else if http_parser_is_finished h then 1 else 0.

Definition with_cs v h := mkHttpParser v (body_start h) (content_len h) (nread h) (mark h) (field_start h)
  (field_len h) (query_start h) (xml_sent h) (json_sent h) (uri_relaxed h).
Definition with_body v n h := mkHttpParser (cs h) v n (nread h) (mark h) (field_start h)
  (field_len h) (query_start h) (xml_sent h) (json_sent h) (uri_relaxed h).
Definition with_nread v h := mkHttpParser (cs h) (body_start h) (content_len h) v (mark h) (field_start h)
  (field_len h) (query_start h) (xml_sent h) (json_sent h) (uri_relaxed h).
Definition with_mark v h := mkHttpParser (cs h) (body_start h) (content_len h) (nread h) v (field_start h)
  (field_len h) (query_start h) (xml_sent h) (json_sent h) (uri_relaxed h).
Definition with_field v n h := mkHttpParser (cs h) (body_start h) (content_len h) (nread h) (mark h) v
  n (query_start h) (xml_sent h) (json_sent h) (uri_relaxed h).
Definition with_query v h := mkHttpParser (cs h) (body_start h) (content_len h) (nread h) (mark h) (field_start h)
  (field_len h) v (xml_sent h) (json_sent h) (uri_relaxed h).
Definition with_sent x j h := mkHttpParser (cs h) (body_start h) (content_len h) (nread h) (mark h) (field_start h)
  (field_len h) (query_start h) x j (uri_relaxed h).

Definition http11_table : table action := table_of http11_code.
(** A byte that [when] conditions guard gets a code of its own. *)
Definition http11_widec (relaxed : bool) (c : Z) : Z :=
  if (c =? 94) || (c =? 123) || (c =? 125) then c + 256 + (if relaxed then 256 else 0) else c.
Definition is_done (a : action) : bool := match a with Done => true | _ => false end.

Section Execute.
Context (buffer : list Z).
(** [PTR_TO]: what a callback finds there. *)
Definition PTR_TO (f : Z) : list Z := drop (Z.to_nat f) buffer.
(** [LEN], a [size_t]. *)
Definition LEN (at_ : Z) (fpc : nat) : Z := u64 (Z.of_nat fpc - at_).

(** The parser and the callbacks made. *)
Definition parsing : Type := http_parser * list Event.
Definition emit (e : Event) (s : parsing) : outcome parsing := Ret (s.1, s.2 ++ [e]).
Definition set (f : http_parser -> http_parser) (s : parsing) : outcome parsing := Ret (f s.1, s.2).
Definition http11_act (a : action) (fpc : nat) (s : parsing) : outcome parsing :=
  let h := s.1 in
  match a with
  | Mark | StartValue => set (with_mark (Z.of_nat fpc)) s
  | StartField => set (with_field (Z.of_nat fpc) (field_len h)) s
  | WriteField => set (with_field (field_start h) (LEN (field_start h) fpc)) s
  | WriteValue => emit (HttpField (PTR_TO (field_start h)) (field_len h) (PTR_TO (mark h)) (LEN (mark h) fpc)) s
  | RequestMethodA => emit (RequestMethod (PTR_TO (mark h)) (LEN (mark h) fpc)) s
  | RequestUriA => emit (RequestUri (PTR_TO (mark h)) (LEN (mark h) fpc)) s
  | FragmentA => emit (Fragment (PTR_TO (mark h)) (LEN (mark h) fpc)) s
  | StartQuery => set (with_query (Z.of_nat fpc)) s
  | QueryStringA => emit (QueryString (PTR_TO (query_start h)) (LEN (query_start h) fpc)) s
  | HttpVersionA => emit (HttpVersion (PTR_TO (mark h)) (LEN (mark h) fpc)) s
  | RequestPathA => emit (RequestPath (PTR_TO (mark h)) (LEN (mark h) fpc)) s
  | Done =>
      if xml_sent h || json_sent h then set (with_body (mark h) (i32 (Z.of_nat fpc - mark h + 1))) s
      else
        '(h, es) ← set (with_body (Z.of_nat fpc + 1) (content_len h)) s;
        emit (HeaderDone (PTR_TO (Z.of_nat fpc + 1)) (u64 (Z.of_nat (length buffer) - Z.of_nat fpc - 1))) (h, es)
  | Xml => set (with_sent true (json_sent h)) s
  | Json => set (with_sent (xml_sent h) true) s
  end.

(** [http_parser_execute(parser, buffer, len, off)] with [len] the length of
    [buffer]: the callbacks, the number of bytes used and the parser. *)
Definition http_parser_execute (off : nat) (h : http_parser) : outcome (list Event * nat * http_parser) :=
  let len := Z.of_nat (length buffer) in
  if len =? 0 then Ret ([], 0%nat, h)
  else
    let h := with_field 0 0 (with_mark 0 (with_nread 0 h)) in
    if (length buffer <? off)%nat || (2 ^ 31 <=? len) then Crash
    else
      '(q, p, (h, es)) ← exec http11_table (http11_widec (uri_relaxed h)) http11_act is_done (cs h) off
        (drop off buffer) (h, []);
      let h := if http_parser_has_error h then h else with_cs q h in
      let h := with_nread (nread h + Z.of_nat (p - off)) h in
      if (nread h <=? len) && (body_start h <=? len) && (mark h <? len) && (field_len h <=? len) && (field_start h <? len)
      then Ret (es, Z.to_nat (nread h), h) else Crash.
End Execute.

#[export] Instance http11_machine (g : http_parser) : Machine http_parser := {|
  HttpServer.http_parser_init := http_parser_init g;
  HttpServer.http_parser_execute := fun h data => http_parser_execute data 0 h;
  HttpServer.http_parser_finish := http_parser_finish;
  HttpServer.http_parser_has_error := http_parser_has_error
|}.

(** ** The callbacks point into the buffer *)

(** [query_start] was set; the name of a field is open, its length not yet
    known; the header has ended. *)
Record flags : Type := mkFlags { f_query : bool; f_name : bool; f_done : bool }.
#[export] Instance flags_eq_dec : EqDecision flags.
Proof. solve_decision. Defined.
Definition http11_flow (a : action) (f : flags) : option flags :=
  match a with
  | StartField => Some (mkFlags (f_query f) true (f_done f))
  | WriteField => Some (mkFlags (f_query f) false (f_done f))
  | WriteValue => if f_name f then None else Some f
  | StartQuery => Some (mkFlags true (f_name f) (f_done f))
  | QueryStringA => if f_query f then Some f else None
  | Done => Some (mkFlags (f_query f) (f_name f) true)
  | _ => Some f
  end.
Definition no_flags : flags := mkFlags false false false.
Definition http11_classes : intervals := Eval vm_compute in classes (table_cuts http11_table).
Definition http11_fuel : nat := Z.to_nat 10000.
Definition http11_flows : flows :=
  flow_explore http11_table (http11_widec true) http11_classes http11_flow is_done http11_fuel
    [(http_parser_start, no_flags)] ∅.
Definition http11_final (q : Z) (f : flags) : bool := http_parser_first_final <=? q.
Definition both (P : bool -> bool) : bool := P true && P false.
Lemma http11_classes_ok :
  covers http11_classes && both (fun r => fits http11_table (http11_widec r) http11_classes) = true.
Proof. vm_cast_no_check (eq_refl true). Qed.
Definition going_on (q : Z) (f : flags) : bool := (0 <? q) && (q <? http_parser_first_final) && negb (f_done f).
Lemma http11_flows_ok :
  both (fun r => flow_ok http11_table (http11_widec r) http11_classes http11_flow is_done http11_final http11_flows)
  && flows_to http11_flows http_parser_start no_flags
  && forallb (fun e => forallb (going_on e.1) e.2) (map_to_list http11_flows) = true.
Proof. vm_cast_no_check (eq_refl true). Qed.
Lemma both_at P r : both P = true -> P r = true.
Proof. intros [? ?]%andb_true_iff. by destruct r. Qed.
#[local] Opaque http11_table http11_flows http11_classes.

Lemma flows_going q f : flows_to http11_flows q f = true -> going_on q f = true.
Proof.
  pose proof http11_flows_ok as [_ H]%andb_true_iff. exact (flows_all going_on http11_flows q f H).
Qed.

Section Safe.
Context (buffer : list Z).
Abbreviation len := (Z.of_nat (length buffer)).
Definition in_buffer (f : flags) (p : nat) (s : parsing) : Prop :=
  let h := s.1 in
  0 <= mark h <= Z.of_nat p /\ mark h < len /\ 0 <= field_start h <= Z.of_nat p /\ field_start h < len /\
  0 <= field_len h <= Z.of_nat p /\ (f_name f = false -> field_start h + field_len h <= Z.of_nat p) /\
  (f_query f = true -> 0 <= query_start h < 2 ^ 31) /\ 0 <= body_start h <= len /\
  (f_done f = false -> body_start h = 0) /\ (0 < cs h /\ nread h = 0) /\ Forall event_ok s.2.
Lemma ptr_length f : 0 <= f <= len -> Z.of_nat (length (PTR_TO buffer f)) = len - f.
Proof. intros Hf. unfold PTR_TO. rewrite length_drop. lia. Qed.
Lemma LEN_ok f p : 0 <= f < 2 ^ 31 -> Z.of_nat p < len -> len < 2 ^ 31 -> at_ok (PTR_TO buffer f) (LEN f p).
Proof.
  intros Hf Hp Hl. unfold LEN, at_ok. destruct (Z_le_gt_dec f (Z.of_nat p)).
  - left. rewrite u64_small by lia. rewrite ptr_length by lia. lia.
  - right. unfold u64, wrapu. rewrite <- (Z_mod_plus_full _ 1), Z.mod_small by lia. lia.
Qed.
Lemma snoc_ok es e : Forall event_ok es -> event_ok e -> Forall event_ok (es ++ [e]).
Proof. intros. apply list.Forall_app. split; [done|]. by apply list.Forall_singleton. Qed.
Lemma in_buffer_S f p s : in_buffer f p s -> (p < length buffer)%nat -> in_buffer f (Datatypes.S p) s.
Proof. intros (? & ? & ? & ? & ? & Hn & ? & ? & ? & ? & ?) ?. split_and!; auto; try lia. intros Hx%Hn. lia. Qed.
Lemma in_buffer_act a f f' p s : len < 2 ^ 31 -> in_buffer f p s -> (p < length buffer)%nat -> http11_flow a f = Some f' ->
  exists s', http11_act buffer a p s = Ret s' /\ in_buffer f' p s'.
Proof.
  intros Hl (Hm & Hm' & Hs & Hs' & Hn & Ho & Hq & Hb & Hd & Hc & He) Hp Hf. destruct s as [h es]. cbn [fst snd] in *.
  assert (Hmark : at_ok (PTR_TO buffer (mark h)) (LEN (mark h) p)) by (apply LEN_ok; lia).
  assert (Hev : forall e, event_ok e -> in_buffer f p (h, es ++ [e])).
  { intros e Hok. split_and!; cbn [fst snd]; auto; try lia. by apply snoc_ok. }
  destruct a; cbn [http11_flow] in Hf; simplify_eq; cbn [http11_act]; unfold set, emit; cbn [fst snd];
    try (eexists; split; [reflexivity|]; by apply Hev);
    try (eexists; split; [reflexivity|]; split_and!; cbn; auto; lia).
  - eexists; split; [reflexivity|]; split_and!; cbn; auto; try lia; unfold LEN; rewrite u64_small by lia; lia.
  - destruct (f_name f) eqn:Ef; [done|]. simplify_eq. eexists. split; [reflexivity|]. apply Hev. split; [|done].
    left. rewrite ptr_length by lia. specialize (Ho eq_refl). lia.
  - destruct (f_query f) eqn:Ef; [|done]. simplify_eq. eexists. split; [reflexivity|]. apply Hev.
    apply LEN_ok; [auto|lia..].
  - destruct (xml_sent h || json_sent h); cbn.
    + eexists; split; [reflexivity|]; split_and!; cbn; auto; lia.
    + eexists; split; [reflexivity|]; split_and!; cbn; auto; try lia. apply snoc_ok; [done|]. left.
      rewrite ptr_length by lia. rewrite u64_small by lia. lia.
Qed.
End Safe.


(** The parser between two calls of [execute]. *)
Definition parser_ok (h : http_parser) : Prop :=
  exists f, flows_to http11_flows (cs h) f = true /\ body_start h = 0 /\ (f_query f = true -> 0 <= query_start h < 2 ^ 31).
Lemma execute_run data h : parser_ok h -> Forall byte_ok data -> 0 < Z.of_nat (length data) < 2 ^ 31 ->
  exists es q p h', http_parser_execute data 0 h = Ret (es, p, with_nread (Z.of_nat p) (with_cs q h')) /\
    (p <= length data)%nat /\ Forall event_ok es /\ 0 <= q /\ (0 < q < http_parser_first_final -> parser_ok (with_cs q h')) /\
    exec http11_table (http11_widec (uri_relaxed h)) (http11_act data) is_done (cs h) 0 data
      (with_field 0 0 (with_mark 0 (with_nread 0 h)), []) = Ret (q, p, (h', es)).
Proof.
  intros (f & Hf & Hb & Hq) Hbytes [Hpos Hl].
  pose proof (flows_going _ _ Hf) as [[Hg0%Z.ltb_lt _]%andb_true_iff Hgd%negb_true_iff]%andb_true_iff.
  pose proof http11_classes_ok as [Hcov Hfit]%andb_true_iff.
  pose proof http11_flows_ok as [[HR _]%andb_true_iff _]%andb_true_iff.
  apply (both_at _ (uri_relaxed h)) in Hfit. apply (both_at _ (uri_relaxed h)) in HR.
  set (h1 := with_field 0 0 (with_mark 0 (with_nread 0 h))).
  assert (H0 : in_buffer data f 0 (h1, [])) by (split_and!; cbn; auto; try lia; apply list.Forall_nil_2).
  destruct (flow_exec http11_table (http11_widec (uri_relaxed h)) http11_classes http11_flow is_done Hcov Hfit
    (http11_act data) (length data) (in_buffer data) (in_buffer_S data)
    (fun a f f' p s => in_buffer_act data a f f' p s Hl) http11_final http11_flows (cs h) f data 0 (h1, []) HR Hf H0 Hbytes eq_refl)
    as (q & p & [h2 es] & f2 & He & Hp & Hi & Hend).
  exists es, q, p, h2. rewrite He. destruct Hi as (Hm & Hm' & Hs & Hs' & Hn & _ & Hq2 & Hb2 & Hd2 & [Hc2 Hn2] & Hev).
  cbn [fst snd] in *. split_and!; [|lia|done| | |done].
  - unfold http_parser_execute. destruct (Z.eqb_spec (Z.of_nat (length data)) 0); [lia|].
    destruct (Nat.ltb_spec (length data) 0); [lia|]. destruct (Z.leb_spec (2 ^ 31) (Z.of_nat (length data))); [lia|].
    cbn [orb]. fold h1. change (uri_relaxed h1) with (uri_relaxed h). change (cs h1) with (cs h). rewrite drop_0, He.
    cbn [mbind outcome_bind]. unfold http_parser_has_error. rewrite (proj2 (Z.eqb_neq (cs h2) 0)) by lia.
    cbn [nread body_start mark field_len field_start with_cs with_nread]. rewrite Hn2, Nat.sub_0_r, Z.add_0_l, Nat2Z.id.
    rewrite !(proj2 (Z.leb_le _ _)) by lia. rewrite !(proj2 (Z.ltb_lt _ _)) by lia. done.
  - destruct Hend as [->|[Hf2|Hf2]]; [done| |unfold http11_final, http_parser_first_final in Hf2; lia].
    pose proof (flows_going _ _ Hf2) as [[? _]%andb_true_iff _]%andb_true_iff. lia.
  - intros [Hq1 Hq3]. destruct Hend as [->|[Hf2|Hf2]]; [done| |unfold http11_final in Hf2; lia].
    exists f2. split_and!; [done| |done]. apply Hd2.
    by pose proof (flows_going _ _ Hf2) as [_ ?%negb_true_iff]%andb_true_iff.
Qed.
Lemma init_ok g : parser_ok (http_parser_init g).
Proof. exists no_flags. pose proof http11_flows_ok as [[_ H]%andb_true_iff _]%andb_true_iff. by split_and!. Qed.
#[export] Instance http11_spec (g : http_parser) : MachineSpec http_parser (H := http11_machine g).
Proof.
  refine {| machine_ok := parser_ok |}.
  - exact (init_ok g).
  - intros h data Hp Hb Hl. destruct (decide (length data = 0%nat)) as [E|E].
    + exists [], 0%nat, h. split_and!; [cbn; unfold http_parser_execute; by rewrite E|lia|apply list.Forall_nil_2|auto].
    + destruct (execute_run data h Hp Hb ltac:(lia)) as (es & q & p & h' & He & Hle & Hev & H0 & Hok & _).
      exists es, p, (with_nread (Z.of_nat p) (with_cs q h')). split_and!; [exact He|exact Hle|exact Hev|].
      cbn. unfold http_parser_finish, http_parser_has_error, http_parser_is_finished. cbn.
      destruct (Z.eqb_spec q 0); [done|]. destruct (Z.leb_spec http_parser_first_final q); [done|]. intros _.
      apply Hok. lia.
Defined.
