(* ===== verification/Http11Requests.v ===== *)
(** * Requests over the parser (cxk/http/http11_parser.rl.cpp, http_session.cpp)

    What the program of [Http11Machine] does with a printed request, line by
    line; the request that [recvRequest] gives for the text of
    [HttpRequest_dump], and what becomes of one that is cut elsewhere than at
    the end of a line. *)
From S2P Require Import Prelude ByteArray Stream Http HttpServer Ragel Http11Machine Http11.

(** ** The parts of a request *)
Definition chars (s : string) : list (Z * Z) := map (fun c => (c, c)) (bytes s).
Definition alpha_r : list (Z * Z) := [(65, 90); (97, 122)].
Definition digit_r : list (Z * Z) := [(48, 57)].
Definition xdigit_r : list (Z * Z) := [(48, 57); (65, 70); (97, 102)].
Definition pct_encoded : re := seqs [chr 37; Chr xdigit_r; Chr xdigit_r].
Definition pchar : re := Alt (Chr (alpha_r ++ digit_r ++ chars "-._~!$&'()*+,;=:@")) pct_encoded.
Definition segment : re := Rep pchar.
Definition path_re : re := Seq (chr 47) (opt (Seq (plus pchar) (Rep (Seq (chr 47) segment)))).
Definition query_re : re := Rep (Alt pchar (Chr (chars "/?"))).
Definition method_re : re := Seq (Chr [(65, 90)]) (upto 19 (Chr [(65, 90)])).
Definition version_re : re := Seq (lit (bytes "HTTP/1.")) (Chr [(48, 49)]).
(** The name of a header, without control characters; its value, which starts
    with no blank. *)
Definition name_re : re := plus (Chr (alpha_r ++ digit_r ++ chars "!#$%&'*+-.^_`|~")).
Definition value_re : re :=
  Seq (Chr [(1, 8); (11, 12); (14, 31); (33, 126); (128, 255)]) (Rep (Chr [(1, 9); (11, 12); (14, 126); (128, 255)])).

Definition seg := (list action * re)%type.
Definition target_end (q f : bool) : list action :=
  if f then [FragmentA] else if q then [QueryStringA; RequestUriA] else [RequestPathA; RequestUriA].
(** The request line, with a query, with a fragment. *)
Definition line_segs (q f : bool) : list seg :=
  [([Mark], method_re); ([RequestMethodA], chr 32); ([Mark], path_re)] ++
  (if q then [([RequestPathA], chr 63); ([StartQuery], query_re)] else []) ++
  (if f then [(target_end q false, chr 35); ([Mark], query_re)] else []) ++
  [(target_end q f, chr 32); ([Mark], version_re); ([HttpVersionA], chr 13); ([], chr 10)].
(** A header line, with a value or without. *)
Definition header_segs (v : bool) : list seg :=
  [([StartField], name_re); ([WriteField], chr 58); ([StartValue], chr 32)] ++
  (if v then [([StartValue], value_re); ([WriteValue], chr 13)] else [([StartValue; WriteValue], chr 13)]) ++
  [([], chr 10)].

Definition request_classes : intervals := Eval vm_compute in
  classes (table_cuts http11_table ++ flat_map (fun s : seg => cut_points s.2) (line_segs true true ++ header_segs true)).
Definition reaches (r : bool) (q : Z) (segs : list seg) (q' : Z) : bool :=
  bool_decide (chain http11_table (http11_widec r) request_classes http11_fuel [q] segs = Some [q']).
Lemma request_classes_ok :
  covers request_classes && both (fun r => fits http11_table (http11_widec r) request_classes) = true.
Proof. vm_cast_no_check (eq_refl true). Qed.
Lemma lines_checked :
  both (fun r => both (fun q => both (fun f => reaches r http_parser_start (line_segs q f) 13)))
  && both (fun r => both (fun v => reaches r 13 (header_segs v) 13)) = true.
Proof. vm_cast_no_check (eq_refl true). Qed.
Lemma line_reaches r q f : reaches r http_parser_start (line_segs q f) 13 = true.
Proof.
  pose proof lines_checked as [H _]%andb_true_iff.
  apply (both_at _ r) in H. apply (both_at _ q) in H. exact (both_at _ f H).
Qed.
Lemma header_reaches r v : reaches r 13 (header_segs v) 13 = true.
Proof. pose proof lines_checked as [_ H]%andb_true_iff. apply (both_at _ r) in H. exact (both_at _ v H). Qed.

(** What the parts of a message must be for the program to take them apart. *)
Definition target_ok (r : HttpRequest) : Prop :=
  q_method r <> INVALID_METHOD /\ q_method r <> MSEARCH /\ matches path_re (q_path r) /\ matches query_re (q_query r) /\
  matches query_re (q_fragment r) /\ (q_version r = 0x11 \/ q_version r = 0x10).
Definition field_ok (e : list Z * list Z) : Prop := matches name_re e.1 /\ (e.2 = [] \/ matches value_re e.2).

(** The pieces of the lines, in the order of their segments. *)
Definition has (v : list Z) : bool := match v with [] => false | _ => true end.
Definition part (c : Z) (v : list Z) : list (list Z) := if has v then [[c]; v] else [].
Definition line_words (r : HttpRequest) : list (list Z) :=
  [HttpMethodToString (q_method r); [32]; q_path r] ++ part 63 (q_query r) ++ part 35 (q_fragment r) ++
  [[32]; dump_version (q_version r); [13]; [10]].
Definition header_words (e : list Z * list Z) : list (list Z) :=
  [e.1; [58]; [32]] ++ (if has e.2 then [e.2] else []) ++ [[13]; [10]].
Lemma line_words_text r : concat (line_words r) = request_line r ++ CRLF.
Proof.
  unfold line_words, request_line, part, CRLF. destruct (q_query r), (q_fragment r);
    repeat (cbn [has concat app]; rewrite <- ?app_assoc, ?app_nil_r); reflexivity.
Qed.
Lemma header_words_text e : concat (header_words e) = header_line e.1 e.2.
Proof. destruct e as [k v]. unfold header_words, header_line, CRLF. destruct v; cbn [fst snd has concat app]; [done|]. by rewrite ?app_nil_r. Qed.

(** What the callbacks of a line do to the request. *)
Definition with_line (r d : HttpRequest) : HttpRequest :=
  let d := setPath (q_path r) (setMethod (q_method r) d) in
  let d := if has (q_query r) then setQuery (q_query r) d else d in
  let d := if has (q_fragment r) then setFragment (q_fragment r) d else d in
  setVersion (q_version r) d.

#[local] Opaque http11_table request_classes.
Section Words.
Context (max_string : Z) (buffer pre : list Z) (ws : list (list Z)) (rest : list Z).
Context (Eb : buffer = pre ++ concat ws ++ rest) (Hlen : Z.of_nat (length buffer) < 2 ^ 31) (Hmax : Z.of_nat (length buffer) <= max_string).
Abbreviation events := (on_events max_string).
(** The [i]th word begins at [k] and ends at [k']. *)
Definition word_from (i k : nat) (w : list Z) (k' : nat) : Prop :=
  ws !! i = Some w /\ k = (length pre + length (concat (take i ws)))%nat /\ k' = (k + length w)%nat.
Lemma word_at i k w k' : word_from i k w k' ->
  exists y, PTR_TO buffer (Z.of_nat k) = w ++ y /\ LEN (Z.of_nat k) k' = Z.of_nat (length w) /\ (length w <= length buffer)%nat.
Proof.
  intros (Hi & -> & ->). exists (concat (drop (S i) ws) ++ rest).
  assert (E : buffer = (pre ++ concat (take i ws)) ++ w ++ concat (drop (S i) ws) ++ rest).
  { rewrite Eb. rewrite <- (take_drop_middle ws i w Hi) at 1. rewrite concat_app. cbn [concat]. by rewrite <- !app_assoc. }
  unfold PTR_TO, LEN. rewrite E at 1. rewrite Nat2Z.id, <- length_app, drop_app_length.
  assert (length w <= length buffer)%nat by (rewrite E, !length_app; lia).
  split_and!; [done| |done]. rewrite u64_small by lia. lia.
Qed.
Lemma std_string_at i k w k' : word_from i k w k' ->
  std_string max_string (PTR_TO buffer (Z.of_nat k)) (LEN (Z.of_nat k) k') = Ret w.
Proof.
  intros (y & -> & -> & Hl)%word_at. unfold std_string. rewrite length_app.
  rewrite !(proj2 (Z.ltb_ge _ _)) by lia. by rewrite Nat2Z.id, take_app_length.
Qed.
Context {P : Type}.
Implicit Types (p : HttpRequestParser P).
Lemma on_method i k w k' m es p : word_from i k w k' -> w = HttpMethodToString m -> m <> INVALID_METHOD ->
  events (RequestMethod (PTR_TO buffer (Z.of_nat k)) (LEN (Z.of_nat k) k') :: es) p = events es (on_data (setMethod m) p).
Proof.
  intros (y & -> & -> & Hl)%word_at -> Hm. cbn [on_events on_event]. unfold on_request_method.
  rewrite (proj2 (method_names m y Hm)). by rewrite decide_False.
Qed.
Lemma on_path i k w k' es p : word_from i k w k' ->
  events (RequestPath (PTR_TO buffer (Z.of_nat k)) (LEN (Z.of_nat k) k') :: es) p = events es (on_data (setPath w) p).
Proof. intros Hw. cbn [on_events on_event]. unfold on_request_path. by rewrite (std_string_at _ _ _ _ Hw). Qed.
Lemma on_query i k w k' es p : word_from i k w k' ->
  events (QueryString (PTR_TO buffer (Z.of_nat k)) (LEN (Z.of_nat k) k') :: es) p = events es (on_data (setQuery w) p).
Proof. intros Hw. cbn [on_events on_event]. unfold on_request_query. by rewrite (std_string_at _ _ _ _ Hw). Qed.
Lemma on_fragment i k w k' es p : word_from i k w k' ->
  events (Fragment (PTR_TO buffer (Z.of_nat k)) (LEN (Z.of_nat k) k') :: es) p = events es (on_data (setFragment w) p).
Proof. intros Hw. cbn [on_events on_event]. unfold on_request_fragment. by rewrite (std_string_at _ _ _ _ Hw). Qed.
Lemma on_version i k w k' v es p : word_from i k w k' -> w = dump_version v -> v = 0x11 \/ v = 0x10 ->
  events (HttpVersion (PTR_TO buffer (Z.of_nat k)) (LEN (Z.of_nat k) k') :: es) p = events es (on_data (setVersion v) p).
Proof. by intros (y & -> & -> & Hl)%word_at -> [-> | ->]. Qed.
Lemma on_field i j k k' w h h' v es p : word_from i k w k' -> word_from j h v h' -> w <> [] ->
  events (HttpField (PTR_TO buffer (Z.of_nat k)) (LEN (Z.of_nat k) k') (PTR_TO buffer (Z.of_nat h)) (LEN (Z.of_nat h) h') :: es) p
  = events es (on_data (setHeader w v) p).
Proof.
  intros Hw Hv Hne. cbn [on_events on_event]. unfold on_request_http_field.
  destruct (Z.eqb_spec (LEN (Z.of_nat k) k') 0) as [E|_].
  - apply word_at in Hw as (y & _ & El & _). rewrite El in E. by destruct w.
  - by rewrite (std_string_at _ _ _ _ Hw), (std_string_at _ _ _ _ Hv).
Qed.
Lemma on_uri (at_ : list Z) n es p : events (RequestUri at_ n :: es) p = events es p.
Proof. reflexivity. Qed.
End Words.

(** *** Lines *)
Lemma method_matches m : m <> INVALID_METHOD -> m <> MSEARCH -> matches method_re (HttpMethodToString m).
Proof. destruct m; intros; try done; apply rmatch_spec; vm_compute; reflexivity. Qed.
Lemma version_matches v : v = 0x11 \/ v = 0x10 -> matches version_re (dump_version v).
Proof. intros [-> | ->]; apply rmatch_spec; vm_compute; reflexivity. Qed.
Lemma path_ne w : matches path_re w -> w <> [].
Proof. intros Hm ->. by apply nullable_spec in Hm. Qed.
Lemma name_ne w : matches name_re w -> w <> [].
Proof. intros Hm ->. by apply nullable_spec in Hm. Qed.
Lemma value_ne w : matches value_re w -> w <> [].
Proof. intros Hm ->. by apply nullable_spec in Hm. Qed.
Definition piece (sg : seg) (w : list Z) : Prop :=
  matches sg.2 w /\ w <> [] /\ bounded sg.2 = true /\ existsb is_done sg.1 = false.
Lemma chr_piece acts c : bounded (chr c) = true -> existsb is_done acts = false -> piece (acts, chr c) [c].
Proof. intros. split_and!; [apply (matches_lit [c])|done..]. Qed.
Lemma word_piece acts r w : matches r w -> w <> [] -> bounded r = true -> existsb is_done acts = false -> piece (acts, r) w.
Proof. intros. by split_and!. Qed.
Lemma pieces_text segs ws : Forall2 piece segs ws -> Forall2 (seg_text is_done) segs ws.
Proof.
  intros HF. refine (list.Forall2_impl _ _ _ _ HF _). intros [acts r] w (Hm & Hne & Hb & Hd).
  repeat split; [exact Hm|exact Hne|exact (matches_bytes r w Hb Hm)|exact Hd].
Qed.
Ltac pieces :=
  repeat match goal with
  | |- Forall2 _ (_ :: _) _ => apply List.Forall2_cons
  | |- Forall2 _ [] _ => apply List.Forall2_nil
  end.
Lemma line_pieces r : target_ok r -> Forall2 piece (line_segs (has (q_query r)) (has (q_fragment r))) (line_words r).
Proof.
  intros (Hm & Hm' & Hp & Hq & Hf & Hv). pose proof (method_matches _ Hm Hm') as Hmm. pose proof (version_matches _ Hv) as Hvm.
  pose proof (path_ne _ Hp) as Hpn. assert (Hmn : HttpMethodToString (q_method r) <> []) by (by destruct (q_method r)).
  assert (Hvn : dump_version (q_version r) <> []) by (by destruct Hv as [-> | ->]).
  unfold line_segs, line_words, part. destruct (q_query r), (q_fragment r); cbn [has app];
    pieces; try (by apply chr_piece); by apply word_piece.
Qed.
Lemma header_pieces e : field_ok e -> Forall2 piece (header_segs (has e.2)) (header_words e).
Proof.
  intros [Hn Hv]. pose proof (name_ne _ Hn) as Hnn. unfold header_segs, header_words.
  destruct e as [k [|c v]]; cbn [fst snd has app] in *; [|destruct Hv as [?|Hv]; [done|]];
    pieces; try (by apply chr_piece); by apply word_piece.
Qed.

Section Lines.
Context (max_string : Z) (buffer pre rest : list Z) (relaxed : bool).
Context (Hlen : Z.of_nat (length buffer) < 2 ^ 31) (Hmax : Z.of_nat (length buffer) <= max_string).
Abbreviation run := (exec http11_table (http11_widec relaxed) (http11_act buffer) is_done).
Lemma words_run q segs ws s s' : reaches relaxed q segs 13 = true -> Forall2 piece segs ws ->
  chain_acts (http11_act buffer) segs ws (length pre) s = Ret s' ->
  run q (length pre) (concat ws ++ rest) s = run 13 (length (pre ++ concat ws)) rest s'.
Proof.
  intros Hr%bool_decide_eq_true HF Ha. pose proof request_classes_ok as [Hcov Hfit]%andb_true_iff.
  apply (both_at _ relaxed) in Hfit.
  destruct (chain_run http11_table (http11_widec relaxed) request_classes http11_fuel Hcov Hfit (http11_act buffer)
    is_done [q] segs [13] q ws rest (length pre) s s' Hr) as (q' & ->%list_elem_of_singleton & E);
    [by apply list_elem_of_singleton|by apply pieces_text|exact Ha|by rewrite E, length_app].
Qed.

(** The program from [q] over [text]: it stands in state 13, and the callbacks
    change the request by [f]. *)
Definition reads (q : Z) (text : list Z) (f : HttpRequest -> HttpRequest) : Prop :=
  forall h es, exists h' es',
    run q (length pre) (text ++ rest) (h, es) = run 13 (length (pre ++ text)) rest (h', es ++ es') /\
    forall P (p : HttpRequestParser P), on_events max_string es' p = Ret (on_data f p).
Lemma reads_intro q segs ws f :
  reaches relaxed q segs 13 = true -> Forall2 piece segs ws ->
  (forall h es, exists h' es', chain_acts (http11_act buffer) segs ws (length pre) (h, es) = Ret (h', es ++ es') /\
    forall P (p : HttpRequestParser P), on_events max_string es' p = Ret (on_data f p)) ->
  reads q (concat ws) f.
Proof.
  intros Hr HF Hx h es. destruct (Hx h es) as (h' & es' & Ha & He). exists h', es'. split; [|done].
  exact (words_run q segs ws _ _ Hr HF Ha).
Qed.
End Lines.
Ltac word := split_and!; [reflexivity|cbn [take concat app]; rewrite ?app_nil_r; cbn [length]; repeat (rewrite length_app; cbn [length]);
  lia|cbn [length]; lia].
Ltac event Eb Hlen Hmax i :=
  first [erewrite (on_method _ _ _ _ _ Eb Hlen i) | erewrite (on_path _ _ _ _ _ Eb Hlen Hmax i)
    | erewrite (on_query _ _ _ _ _ Eb Hlen Hmax i) | erewrite (on_fragment _ _ _ _ _ Eb Hlen Hmax i)
    | erewrite (on_version _ _ _ _ _ Eb Hlen i)];
  [|first [word | eassumption | reflexivity]..].
Ltac acts := cbn [app chain_acts run_acts http11_act target_end]; unfold set, emit;
  cbn [fst snd mbind outcome_bind mark field_start field_len query_start with_mark with_field with_query];
  rewrite <- ?app_assoc; reflexivity.
Lemma line_reads max_string buffer pre rest relaxed r :
  Z.of_nat (length buffer) < 2 ^ 31 -> Z.of_nat (length buffer) <= max_string ->
  target_ok r -> buffer = pre ++ (request_line r ++ CRLF) ++ rest ->
  reads max_string buffer pre rest relaxed http_parser_start (request_line r ++ CRLF) (with_line r).
Proof.
  intros Hlen Hmax Hr Eb. rewrite <- line_words_text in *. pose proof (line_pieces r Hr) as HF.
  apply (reads_intro _ _ _ _ _ _ _ _ _ (line_reaches relaxed _ _) HF). clear HF.
  destruct Hr as (Hm & _ & _ & _ & _ & Hv). intros h es.
  revert Eb. unfold line_segs, line_words, part, with_line. destruct (q_query r) as [|c qu], (q_fragment r) as [|c' fr];
    cbn [has app]; intros Eb; (eexists _, _; split; [acts|]); intros P p; cbn [app].
  - event Eb Hlen Hmax 0%nat.
    event Eb Hlen Hmax 2%nat. rewrite on_uri. event Eb Hlen Hmax 4%nat. reflexivity.
  - event Eb Hlen Hmax 0%nat.
    event Eb Hlen Hmax 2%nat. rewrite on_uri. event Eb Hlen Hmax 4%nat.
    event Eb Hlen Hmax 6%nat. reflexivity.
  - event Eb Hlen Hmax 0%nat.
    event Eb Hlen Hmax 2%nat. event Eb Hlen Hmax 4%nat. rewrite on_uri.
    event Eb Hlen Hmax 6%nat. reflexivity.
  - event Eb Hlen Hmax 0%nat.
    event Eb Hlen Hmax 2%nat. event Eb Hlen Hmax 4%nat. rewrite on_uri. event Eb Hlen Hmax 6%nat.
    event Eb Hlen Hmax 8%nat. reflexivity.
Qed.
Lemma header_reads max_string buffer pre rest relaxed e :
  Z.of_nat (length buffer) < 2 ^ 31 -> Z.of_nat (length buffer) <= max_string ->
  field_ok e -> buffer = pre ++ header_line e.1 e.2 ++ rest ->
  reads max_string buffer pre rest relaxed 13 (header_line e.1 e.2) (setHeader e.1 e.2).
Proof.
  intros Hlen Hmax He Eb. rewrite <- header_words_text at 1.
  apply (reads_intro _ _ _ _ _ _ _ _ _ (header_reaches relaxed _) (header_pieces e He)). intros h es.
  assert (Ew : buffer = pre ++ concat [e.1; [58]; [32]; e.2; [13]; [10]] ++ rest).
  { rewrite Eb. unfold header_line, colon, CRLF. cbn [concat app]. by rewrite ?app_nil_r, <- ?app_assoc. }
  destruct He as [Hn _]. apply name_ne in Hn. destruct e as [k v]. cbn [fst snd] in *.
  unfold header_segs, header_words. cbn [fst snd].
  destruct v as [|c v]; cbn [has app]; (eexists _, _; split; [acts|]); intros P p; cbn [app];
    (erewrite (on_field _ _ _ _ _ Ew Hlen Hmax 0 3); [|word|word|exact Hn]; reflexivity).
Qed.
Lemma end_run buffer rest relaxed p h es :
  exists h' es', exec http11_table (http11_widec relaxed) (http11_act buffer) is_done 13 p (CRLF ++ rest) (h, es)
    = Ret (http_parser_first_final, (p + 2)%nat, (h', es ++ es')) /\
    forall max_string P (q : HttpRequestParser P), on_events max_string es' q = Ret q.
Proof.
  cbn [CRLF app exec]. assert (next http11_table (http11_widec relaxed) 13 13 = ([StartField], 18)) as -> by
    (destruct relaxed; vm_cast_no_check (eq_refl ([StartField], 18))).
  assert (next http11_table (http11_widec relaxed) 18 10 = ([Done], http_parser_first_final)) as -> by
    (destruct relaxed; vm_cast_no_check (eq_refl ([Done], http_parser_first_final))).
  cbn [Z.eqb http_parser_first_final run_acts http11_act]. unfold set, emit.
  cbn [fst snd mbind outcome_bind existsb is_done orb with_field xml_sent json_sent].
  rewrite (Nat.add_succ_r p 1), Nat.add_1_r. destruct (xml_sent h || json_sent h); cbn [mbind outcome_bind].
  - eexists _, []. split; [by rewrite app_nil_r|done].
  - eexists _, _. split; [reflexivity|done].
Qed.

Lemma on_events_app {P} max_string a b (p : HttpRequestParser P) :
  on_events max_string (a ++ b) p = (p' ← on_events max_string a p; on_events max_string b p').
Proof.
  revert p. induction a as [|e a IH]; intros p; [done|]. cbn [on_events app].
  destruct (on_event max_string e p); [apply IH|done..].
Qed.

(** ** Texts made of lines *)
Section Texts.
Context (max_string : Z).
(** [text] is read from [q] wherever it stands. *)
Definition text_reads (q : Z) (text : list Z) (f : HttpRequest -> HttpRequest) : Prop :=
  Forall byte_ok text /\ forall buffer pre rest relaxed,
    Z.of_nat (length buffer) < 2 ^ 31 -> Z.of_nat (length buffer) <= max_string -> buffer = pre ++ text ++ rest ->
    reads max_string buffer pre rest relaxed q text f.
Lemma text_nil : text_reads 13 [] (fun d => d).
Proof.
  split; [apply list.Forall_nil_2|]. intros buffer pre rest relaxed _ _ _ h es. exists h, [].
  rewrite !app_nil_r. split; [done|]. intros P p. by destruct p.
Qed.
Lemma text_app q t1 t2 f g : text_reads q t1 f -> text_reads 13 t2 g -> text_reads q (t1 ++ t2) (fun d => g (f d)).
Proof.
  intros [Hb1 H1] [Hb2 H2]. split; [by apply list.Forall_app|]. intros buffer pre rest relaxed Hlen Hmax Eb h es.
  destruct (H1 buffer pre (t2 ++ rest) relaxed Hlen Hmax ltac:(by rewrite Eb, <- app_assoc) h es) as (h1 & es1 & E1 & F1).
  destruct (H2 buffer (pre ++ t1) rest relaxed Hlen Hmax ltac:(by rewrite Eb, <- !app_assoc) h1 (es ++ es1)) as (h2 & es2 & E2 & F2).
  exists h2, (es1 ++ es2). split.
  - rewrite <- app_assoc, E1, E2. by rewrite <- !app_assoc.
  - intros P p. rewrite on_events_app, F1. cbn [mbind outcome_bind]. by rewrite F2.
Qed.
Lemma text_line r : target_ok r -> Forall byte_ok (request_line r ++ CRLF) ->
  text_reads http_parser_start (request_line r ++ CRLF) (with_line r).
Proof. intros Hr Hb. split; [done|]. intros. by apply line_reads. Qed.
Lemma text_header e : field_ok e -> Forall byte_ok (header_line e.1 e.2) -> text_reads 13 (header_line e.1 e.2) (setHeader e.1 e.2).
Proof. intros He Hb. split; [done|]. intros. by apply header_reads. Qed.

(** [message q ls d d' b]: the lines [ls], the last with the first bytes [b] of
    the body behind it, make the request [d'] of [d]. *)
Inductive message : Z -> list (list Z) -> HttpRequest -> HttpRequest -> list Z -> Prop :=
| message_end d b : Forall byte_ok b -> message 13 [CRLF ++ b] d d b
| message_line q l ls f d d' b : text_reads q l f -> l <> [] -> message 13 ls (f d) d' b -> message q (l :: ls) d d' b.
(** [glued ls cs]: the pieces [cs] are whole lines of [ls]. *)
Inductive glued : list (list Z) -> list (list Z) -> Prop :=
| glued_last ls : ls <> [] -> glued ls [concat ls]
| glued_cons ls1 ls2 cs : ls1 <> [] -> glued ls2 cs -> glued (ls1 ++ ls2) (concat ls1 :: cs).
Lemma glued_ne ls cs : glued ls cs -> ls <> [].
Proof. induction 1 as [|[|l ls1] ls2 cs H1 _ _]; done. Qed.
Lemma message_split q ls1 ls2 d d' b : ls1 <> [] -> ls2 <> [] -> message q (ls1 ++ ls2) d d' b ->
  exists f, text_reads q (concat ls1) f /\ concat ls1 <> [] /\ message 13 ls2 (f d) d' b.
Proof.
  intros H1 H2. revert q d. induction ls1 as [|l ls1 IH]; intros q d; [done|]. cbn [app concat].
  inversion 1 as [? ? ? E1 E2|? ? ? f ? ? ? Hl Hne Hm]; subst.
  { match goal with E : [] = ls1 ++ ls2 |- _ => symmetry in E; by apply app_eq_nil in E as [_ ->] end. }
  destruct ls1 as [|l' ls1]; cbn [app concat] in *.
  - exists f. rewrite app_nil_r. by split_and!.
  - destruct (IH ltac:(done) 13 (f d) Hm) as (g & Hg & _ & Hm2). exists (fun d => g (f d)). split_and!; [|by destruct l|done].
    by apply text_app.
Qed.
Lemma message_whole q ls d d' b : message q ls d d' b ->
  exists t f, concat ls = t ++ CRLF ++ b /\ text_reads q t f /\ d' = f d /\ Forall byte_ok b.
Proof.
  induction 1 as [d b Hb|q l ls f d d' b Hl Hne _ (t & g & E & Ht & -> & Hb)].
  - exists [], (fun d => d). cbn. rewrite app_nil_r. split_and!; [done|apply text_nil|done..].
  - exists (l ++ t), (fun d => g (f d)). cbn [concat]. rewrite E, <- app_assoc. split_and!; [done|by apply text_app|done..].
Qed.
End Texts.

(** *** Calls of [execute] *)
Section Calls.
Context (g : http_parser) (max_string : Z).
#[local] Existing Instance http11_machine | 0.
Implicit Types (p : HttpRequestParser http_parser).
Lemma parser_ok_nread h v : parser_ok h -> parser_ok (with_nread v h).
Proof. intros (f & Hf & Hx). exists f. exact (conj Hf Hx). Qed.
Lemma execute_text p text f : text_reads max_string (cs (m_parser p)) text f -> parser_ok (m_parser p) ->
  0 < Z.of_nat (length text) < 2 ^ 31 -> Z.of_nat (length text) <= max_string ->
  exists p', execute (H := http11_machine g) max_string text p = Ret (length text, [], p') /\
    m_data p' = f (m_data p) /\ m_error p' = m_error p /\ cs (m_parser p') = 13 /\ parser_ok (m_parser p').
Proof.
  intros [Hb Hr] Hp Hl Hm. destruct (execute_run text (m_parser p) Hp Hb Hl) as (es & q & n & h' & He & Hn & _ & H0 & Hok & Hx).
  destruct (Hr text [] [] (uri_relaxed (m_parser p)) ltac:(lia) Hm ltac:(by rewrite app_nil_r)
    (with_field 0 0 (with_mark 0 (with_nread 0 (m_parser p)))) []) as (h2 & es2 & E & F).
  rewrite app_nil_r in E. cbn [length app] in E. rewrite Hx in E. cbn [exec] in E. simplify_eq.
  unfold execute. cbn [HttpServer.http_parser_execute http11_machine]. rewrite He. cbn [mbind outcome_bind]. rewrite F.
  cbn [mbind outcome_bind]. rewrite drop_all. eexists. split; [reflexivity|].
  repeat split; try reflexivity. apply (parser_ok_nread (with_cs 13 h2)). apply Hok. clear. unfold http_parser_first_final. lia.
Qed.
Lemma execute_end p t f b : text_reads max_string (cs (m_parser p)) t f -> parser_ok (m_parser p) -> Forall byte_ok b ->
  Z.of_nat (length (t ++ CRLF ++ b)) < 2 ^ 31 -> Z.of_nat (length (t ++ CRLF ++ b)) <= max_string ->
  exists p', execute (H := http11_machine g) max_string (t ++ CRLF ++ b) p = Ret ((length t + 2)%nat, b, p') /\
    m_data p' = f (m_data p) /\ m_error p' = m_error p /\ cs (m_parser p') = http_parser_first_final.
Proof.
  intros [Hbt Hr] Hp Hb Hl Hm. set (text := t ++ CRLF ++ b) in *.
  assert (Hbx : Forall byte_ok text).
  { unfold text, CRLF. rewrite !list.Forall_app. split_and!; [exact Hbt| |exact Hb]. by apply bytes_checked. }
  assert (Hpos : 0 < Z.of_nat (length text)) by (unfold text, CRLF; rewrite !length_app; cbn; lia).
  destruct (execute_run text (m_parser p) Hp Hbx (conj Hpos Hl)) as (es & q & n & h' & He & Hn & _ & H0 & Hok & Hx).
  destruct (Hr text [] (CRLF ++ b) (uri_relaxed (m_parser p)) ltac:(lia) Hm ltac:(done)
    (with_field 0 0 (with_mark 0 (with_nread 0 (m_parser p)))) []) as (h2 & es2 & E & F).
  destruct (end_run text b (uri_relaxed (m_parser p)) (length t) h2 es2) as (h3 & es3 & E3 & F3).
  cbn [length app] in E. fold text in E. rewrite E3, Hx in E. simplify_eq.
  unfold execute. cbn [HttpServer.http_parser_execute http11_machine]. rewrite He. cbn [mbind outcome_bind]. rewrite on_events_app, F.
  cbn [mbind outcome_bind]. rewrite F3. cbn [mbind outcome_bind].
  assert (drop (length t + 2) text = b) as -> by (unfold text; rewrite drop_app_add; reflexivity).
  eexists. repeat split; reflexivity.
Qed.
End Calls.

(** ** Reading a request *)
(** [arrives n s cs s']: reads of [n] bytes return the pieces [cs]. *)
Inductive arrives {St} `{Stream St} (n : Z) : St -> list (list Z) -> St -> Prop :=
| arrives_nil s : arrives n s [] s
| arrives_cons s c cs s1 s2 :
    s_read n s = (Ret (Z.of_nat (length c), c), s1) -> arrives n s1 cs s2 -> arrives n s (c :: cs) s2.

Definition all_headers (r : HttpRequest) : MapType :=
  connection_header (q_websocket r) (q_close r) ++ shown_headers (q_websocket r) (q_headers r) ++ length_header (q_body r).
(** The lines of [HttpRequest_dump], with the first bytes of the body. *)
Definition request_lines (r : HttpRequest) (b : list Z) : list (list Z) :=
  (request_line r ++ CRLF) :: map (fun e => header_line e.1 e.2) (all_headers r) ++ [CRLF ++ b].
Definition request_ok (r : HttpRequest) : Prop := target_ok r /\ Forall field_ok (q_headers r) /\ Forall byte_ok (q_body r).
Lemma request_lines_dump r : concat (request_lines r (q_body r)) = HttpRequest_dump r.
Proof.
  unfold request_lines, HttpRequest_dump, all_headers.
  rewrite dump_connection_lines, dump_headers_lines, dump_body_lines. cbn [concat]. rewrite concat_app. unfold header_lines.
  rewrite !map_app, !concat_app. cbn [concat]. by rewrite app_nil_r, <- !app_assoc.
Qed.
Lemma pieces_bytes segs ws : Forall2 piece segs ws -> Forall byte_ok (concat ws).
Proof.
  intros HF%pieces_text. induction HF as [|sg w segs ws (_ & _ & Hb & _) _ IH]; [apply list.Forall_nil_2|].
  cbn [concat]. by apply list.Forall_app.
Qed.
Lemma all_headers_ok r : request_ok r -> Forall field_ok (all_headers r).
Proof.
  intros (_ & Hh & _). unfold all_headers. rewrite !list.Forall_app. split_and!.
  - unfold connection_header. destruct (q_websocket r); [apply list.Forall_nil_2|]. apply list.Forall_singleton.
    split; [apply rmatch_spec; by vm_compute|]. right. destruct (q_close r); apply rmatch_spec; by vm_compute.
  - rewrite list.Forall_forall in *. intros e He. apply Hh. apply list_elem_of_In, filter_In in He as [He _].
    by apply list_elem_of_In.
  - unfold length_header. destruct (q_body r) as [|c b]; [apply list.Forall_nil_2|]. apply list.Forall_singleton.
    split; [apply rmatch_spec; by vm_compute|]. right.
    destruct (dec_spec (Z.of_nat (length (c :: b)))) as (Hd & _ & Hn); [lia|]. cbn [snd].
    destruct (dec (Z.of_nat (length (c :: b)))) as [|x l]; [done|]. apply list.Forall_cons in Hd as [Hx Hl].
    apply (m_seq _ _ [x] l).
    + constructor. unfold digit in Hx. unfold in_ranges. cbn. lia.
    + apply matches_all. refine (list.Forall_impl _ _ _ Hl _). intros y Hy. constructor. unfold digit in Hy.
      unfold in_ranges. cbn. lia.
Qed.
Definition with_headers (hs : MapType) (d : HttpRequest) : HttpRequest := foldl (fun d e => setHeader e.1 e.2 d) d hs.
Lemma request_message max_string r b d : request_ok r -> Forall byte_ok b ->
  message max_string http_parser_start (request_lines r b) d (with_headers (all_headers r) (with_line r d)) b.
Proof.
  intros Hr Hb. apply (message_line _ _ _ _ (with_line r)).
  - apply text_line; [apply Hr|]. rewrite <- line_words_text. by apply (pieces_bytes _ _ (line_pieces r (proj1 Hr))).
  - unfold CRLF. by destruct (request_line r).
  - pose proof (all_headers_ok r Hr) as Hh. revert Hh. generalize (with_line r d). clear -Hb.
    induction (all_headers r) as [|e hs IH]; intros d Hh; [by apply message_end|].
    apply list.Forall_cons in Hh as [He Hh]. cbn [map app with_headers foldl].
    apply (message_line _ _ _ _ (setHeader e.1 e.2)).
    + apply text_header; [exact He|]. rewrite <- header_words_text. by apply (pieces_bytes _ _ (header_pieces e He)).
    + destruct He as [Hn%name_ne _]. unfold header_line. by destruct e.1.
    + by apply IH.
Qed.
Section Receive.
Context (g : http_parser) (lexical_cast : list Z -> option Z) (buff_size max_string : Z).
Context {St : Type} `{StreamSpec St} (buff_pos : 0 < buff_size < 2 ^ 31).
#[local] Existing Instance http11_machine | 0.
Lemma recv_glued lines chunks : glued lines chunks -> forall q (p : HttpRequestParser http_parser) s s' d' b fuel,
  message max_string q lines (m_data p) d' b -> cs (m_parser p) = q -> parser_ok (m_parser p) -> m_error p = 0 ->
  arrives buff_size s chunks s' -> Forall (fun c => Z.of_nat (length c) < buff_size /\ Z.of_nat (length c) <= max_string) chunks ->
  (length chunks <= fuel)%nat ->
  exists p', recv_head (H := http11_machine g) buff_size max_string fuel [] p s = (Ret (Some (b, p')), s') /\ m_data p' = d'.
Proof.
  induction 1 as [ls Hne|ls1 ls2 cs H1 Hg IH]; intros q p s s' d' b fuel Hm Hq Hp He Ha Hc Hf.
  - apply list.Forall_cons in Hc as [[Hl Hx] _]. inversion Ha as [|? ? ? s1 ? Hr Ha']; subst. inversion Ha'; subst.
    destruct fuel as [|fuel]; [cbn in Hf; lia|]. cbn [recv_head]. rewrite Z.sub_0_r. mstep Hr. cbv beta iota.
    apply message_whole in Hm as (t & f & E & Ht & -> & Hb). rewrite E in *. cbn [app].
    assert (Hlt : (length b + 2 <= length (t ++ CRLF ++ b))%nat) by (unfold CRLF; rewrite !length_app; cbn; lia). zcase.
    destruct (execute_end g max_string p t f b Ht Hp Hb ltac:(lia) Hx) as (p' & Hex & Hd & He' & Hcs).
    rewrite Hex. msimpl. unfold hasError, isFinished. cbn [HttpServer.http_parser_has_error HttpServer.http_parser_finish http11_machine].
    unfold http_parser_finish, http_parser_has_error, http_parser_is_finished. rewrite He', He, Hcs. cbn [Z.eqb negb orb].
    replace (length (t ++ CRLF ++ b) <? length t + 2)%nat with false
      by (symmetry; apply Nat.ltb_ge; unfold CRLF; rewrite !length_app; cbn; lia).
    rewrite i32_small by lia. replace (Z.of_nat (length b) =? buff_size) with false by (symmetry; apply Z.eqb_neq; lia).
    by exists p'.
  - apply list.Forall_cons in Hc as [[Hl Hx] Hc]. inversion Ha as [|? ? ? s1 ? Hr Ha']; subst.
    destruct fuel as [|fuel]; [cbn in Hf; lia|]. cbn [recv_head]. rewrite Z.sub_0_r. mstep Hr. cbv beta iota. cbn [app].
    pose proof (glued_ne _ _ Hg) as H2. destruct (message_split _ _ _ _ _ _ _ H1 H2 Hm) as (f & Ht & Hn & Hm2).
    assert (0 < Z.of_nat (length (concat ls1))) by (destruct (concat ls1); cbn; [done|lia]). zcase.
    destruct (execute_text g max_string p (concat ls1) f Ht Hp ltac:(lia) Hx) as (p' & Hex & Hd & He' & Hcs & Hp').
    rewrite Hex. msimpl. unfold hasError, isFinished. cbn [HttpServer.http_parser_has_error HttpServer.http_parser_finish http11_machine].
    unfold http_parser_finish, http_parser_has_error, http_parser_is_finished. rewrite He', He, Hcs. cbn [Z.eqb negb orb Z.leb].
    rewrite Nat.ltb_irrefl. rewrite i32_small by lia. cbn [length].
    replace (Z.of_nat 0 =? buff_size) with false by (symmetry; apply Z.eqb_neq; lia).
    cbn. apply (IH 13 p' s1 s'); try done; [by rewrite Hd|by rewrite He'|cbn in Hf; lia].
Qed.

(** *** The headers that arrive *)
Definition folded_headers (hs : MapType) : gmap (list Z) (list Z) := foldl (fun m e => <[fold e.1 := e.2]> m) ∅ hs.
Lemma with_headers_spec hs d : sorted (q_headers d) ->
  sorted (q_headers (with_headers hs d)) /\
  folded (q_headers (with_headers hs d)) = foldl (fun m e => <[fold e.1 := e.2]> m) (folded (q_headers d)) hs /\
  exists v, with_headers hs d = setHeaders v d.
Proof.
  revert d. induction hs as [|e hs IH]; intros d Hs; cbn [with_headers foldl].
  - split_and!; [done..|]. exists (q_headers d). by destruct d.
  - destruct (map_set_spec e.1 e.2 (q_headers d) Hs) as [Hs1 E1].
    destruct (IH (setHeader e.1 e.2 d) Hs1) as (Hs2 & E2 & v & Ev). cbn [q_headers setHeader setHeaders] in E2. rewrite E1 in E2.
    split_and!; [done..|]. exists v. unfold with_headers in Ev. by rewrite Ev.
Qed.
Lemma foldl_lookup_none k hs m : Forall (fun e => fold e.1 <> k) hs ->
  (foldl (fun m e => <[fold e.1 := e.2]> m) m hs : gmap (list Z) (list Z)) !! k = m !! k.
Proof.
  intros Hh. revert m. induction Hh as [|e hs He _ IH]; intros m; [done|]. cbn [foldl]. by rewrite IH, lookup_insert_ne.
Qed.
Lemma shown_not k r : folded (q_headers r) !! k = None -> Forall (fun e => fold e.1 <> k) (shown_headers (q_websocket r) (q_headers r)).
Proof.
  intros Hn. apply list.Forall_forall. intros e He ->%eq_sym. unfold folded in Hn. apply not_elem_of_list_to_map in Hn.
  apply Hn. apply list_elem_of_In, filter_In in He as [He%list_elem_of_In _].
  rewrite map_map. cbn [fst]. by apply (list_elem_of_fmap_2 (fun e : list Z * list Z => fold e.1)).
Qed.
Lemma shown_no_connection r : q_websocket r = false ->
  Forall (fun e => fold e.1 <> fold s_connection) (shown_headers (q_websocket r) (q_headers r)).
Proof.
  intros Hw. apply list.Forall_forall. intros e He E. apply list_elem_of_In, filter_In in He as [_ Hc].
  rewrite Hw in Hc. cbn [orb] in Hc. apply negb_true_iff in Hc. unfold is_connection, strcasecmp in Hc.
  by rewrite E, strcmp_refl in Hc.
Qed.
Lemma length_lookup r : (q_body r = [] -> folded (q_headers r) !! fold s_content_length = None) ->
  folded_headers (all_headers r) !! fold s_content_length =
  match q_body r with [] => None | b => Some (dec (Z.of_nat (length b))) end.
Proof.
  intros Hn. unfold folded_headers, all_headers. rewrite !foldl_app. unfold length_header.
  destruct (q_body r) as [|c b] eqn:E; cbn [foldl fst snd].
  - rewrite foldl_lookup_none by (apply shown_not; auto). unfold connection_header.
    destruct (q_websocket r); [done|]. cbn [foldl fst snd]. by rewrite lookup_insert_ne.
  - by rewrite lookup_insert_eq.
Qed.
Lemma connection_lookup r : q_websocket r = false ->
  folded_headers (all_headers r) !! fold s_connection = Some (if q_close r then s_close else s_keep_alive).
Proof.
  intros Hw. unfold folded_headers, all_headers. rewrite !foldl_app. rewrite foldl_lookup_none.
  - rewrite foldl_lookup_none by (by apply shown_no_connection). rewrite Hw. cbn [connection_header foldl fst snd].
    by rewrite lookup_insert_eq.
  - unfold length_header. destruct (q_body r); [apply list.Forall_nil_2|]. by apply list.Forall_singleton.
Qed.

Lemma with_line_fields r d : q_query d = [] -> q_fragment d = [] ->
  let d' := with_line r d in
  q_method d' = q_method r /\ q_path d' = q_path r /\ q_query d' = q_query r /\ q_fragment d' = q_fragment r /\
  q_version d' = q_version r /\ q_body d' = q_body d /\ q_close d' = q_close d /\ q_headers d' = q_headers d.
Proof. intros H1 H2. unfold with_line. destruct (q_query r), (q_fragment r); cbn; by split_and!. Qed.
Lemma keep_alive_closes d : exists c, set_keep_alive d = setClose c d.
Proof.
  unfold set_keep_alive. destruct (is_eq _); [by exists false|]. exists (q_close d). by destruct d.
Qed.
Lemma kept_alive d r : q_close d = true -> sorted (q_headers d) ->
  folded (q_headers d) = folded_headers (all_headers r) -> q_websocket r = false -> q_close (set_keep_alive d) = q_close r.
Proof.
  intros Hc Hs Ef Hw. unfold set_keep_alive, getHeader, map_get. rewrite map_find_spec by done. rewrite Ef.
  change (fold s_Connection) with (fold s_connection). rewrite connection_lookup by done. cbn [default].
  destruct (q_close r); [exact Hc|reflexivity].
Qed.

(** C10: a request that is sent as [HttpRequest_dump] prints it is the request
    that the server gets: when its bytes arrive in pieces that end with a line
    of the header, the last with the first bytes [b1] of the body and the others
    behind it, [recvRequest] returns a request with its method, path, query,
    fragment, version, headers, body and the same wish to close. *)
Theorem request_received r b1 b2 more chunks fuel s s1 :
  request_ok r -> q_body r = b1 ++ b2 -> (q_body r = [] -> folded (q_headers r) !! fold s_content_length = None) ->
  Z.of_nat (length (q_body r)) <= max_string -> max_string < 2 ^ 63 ->
  (forall n, 0 <= n < 2 ^ 63 -> lexical_cast (dec n) = Some n) ->
  glued (request_lines r b1) chunks -> arrives buff_size s chunks s1 -> (length chunks <= fuel)%nat ->
  Forall (fun c => Z.of_nat (length c) < buff_size /\ Z.of_nat (length c) <= max_string) chunks ->
  st_open s1 -> st_pending s1 = b2 ++ more -> Z.of_nat (length b1) < 2 ^ 31 -> Z.of_nat (length (st_pending s1)) < 2 ^ 31 ->
  exists req s2,
    recvRequest (H := http11_machine g) lexical_cast buff_size max_string fuel s = (Ret (Some req), s2) /\
    q_method req = q_method r /\ q_path req = q_path r /\ q_query req = q_query r /\ q_fragment req = q_fragment r /\
    q_version req = q_version r /\ q_body req = q_body r /\ folded (q_headers req) = folded_headers (all_headers r) /\
    (q_websocket r = false -> q_close req = q_close r).
Proof.
  intros Hr Eb Hnl Hbm Hmax Hcast Hg Ha Hf Hc Ho Hpend Hl1 Hl2. unfold recvRequest.
  assert (Hb1 : Forall byte_ok b1) by (destruct Hr as (_ & _ & Hb); rewrite Eb in Hb; by apply list.Forall_app in Hb as [? _]).
  pose proof (request_message max_string r b1 (new_HttpRequest 0x11 true) Hr Hb1) as Hm.
  destruct (recv_glued _ _ Hg http_parser_start (new_HttpRequestParser (H := http11_machine g)) s s1 _ b1 fuel Hm)
    as (p & Hp & Hd); try done.
  { exact (init_ok g). }
  mstep Hp. cbv beta iota.
  destruct (with_headers_spec (all_headers r) (with_line r (new_HttpRequest 0x11 true))) as (Hs & Ef & v & Ev).
  { unfold with_line. destruct (has (q_query r)), (has (q_fragment r)); constructor. }
  rewrite <- Hd in Hs, Ef, Ev.
  assert (Ef' : folded (q_headers (m_data p)) = folded_headers (all_headers r)).
  { rewrite Ef. unfold with_line. by destruct (has (q_query r)), (has (q_fragment r)). }
  assert (En : getContentLength lexical_cast p = Z.of_nat (length (q_body r))).
  { unfold getContentLength, getAs. rewrite map_find_spec by done. rewrite Ef'.
    change (fold s_Content_Length) with (fold s_content_length). rewrite length_lookup by done.
    destruct (q_body r) as [|c b] eqn:E; [done|]. by rewrite Hcast by (cbn [length] in *; lia). }
  destruct (recv_body_run lexical_cast max_string (b1) p s1 _ Ho En ltac:(lia) Hmax Hl1 Hl2) as (s2 & Hbody & _).
  assert (Er : (if Z.of_nat (length (q_body r)) =? 0 then Some (m_data p)
          else if Z.of_nat (length (q_body r)) <? Z.of_nat (length b1) then None
          else if Z.of_nat (length (st_pending s1)) <? Z.of_nat (length (q_body r)) - Z.of_nat (length b1) then None
          else Some (setBody (b1 ++ take (Z.to_nat (Z.of_nat (length (q_body r)) - Z.of_nat (length b1))) (st_pending s1)) (m_data p)))
          = Some (setBody (q_body r) (m_data p))).
  { assert (q_body (m_data p) = []) as Hb0.
    { rewrite Ev. unfold with_line. by destruct (has (q_query r)), (has (q_fragment r)). }
    rewrite Hpend, Eb, !length_app. repeat zcase; try lia.
    - assert (b1 = [] /\ b2 = []) as [-> ->] by (destruct b1, b2; cbn in *; auto; lia).
      clear -Hb0. destruct (m_data p). cbn in *. by subst.
    - replace (Z.to_nat _) with (length b2) by lia. by rewrite take_app_length. }
  rewrite Er in Hbody. mstep Hbody. cbv beta iota. rewrite Ev in *.
  set (d := setBody (q_body r) (setHeaders v (with_line r (new_HttpRequest 0x11 true)))).
  destruct (with_line_fields r (new_HttpRequest 0x11 true)) as (F1 & F2 & F3 & F4 & F5 & F6 & F7 & F8); [done..|].
  eexists _, s2. split; [reflexivity|]. pose proof (kept_alive d r F7 Hs Ef') as Hcl. destruct (keep_alive_closes d) as [c Ek]. rewrite Ek in *.
  by split_and!.
Qed.
End Receive.

(** ** Requests that are cut elsewhere

    [http_parser_execute] sets [mark], [field_start] and [field_len] to 0 at
    every call, and not [query_start]: offsets of a token that was not complete
    are lost, or belong to the bytes that have been moved away. *)
#[local] Existing Instance zero_heap.
Definition memory : http_parser := mkHttpParser 0 0 0 0 0 0 0 0 false false false.
(** A connection whose reads give [n + 1] bytes. *)
Definition client (n : nat) (input : list Z) : Socket Wire := mkSocket 5 true (mkWire input [] n).
Definition recv_by (n : nat) (input : list Z) : outcome (option HttpRequest) :=
  fst (recvRequest (H := http11_machine memory) cast_decimal 4096 (2 ^ 40) 100 (client (n - 1) input)).

(** A request that is cut inside a token: inside the path, the beginning is
    dropped; inside the value of a header - here the length of a body - the
    header is dropped, and the body is not read; inside the query, the length
    wraps around and the server gets a C++ exception; inside the version, the
    request is refused.  Whole, all of them are taken. *)
Theorem request_cut :
  let end_ := CRLF ++ CRLF in
  let path := bytes "GET /abcdefgh HTTP/1.1" ++ end_ in
  let query := bytes "GET /?abc HTTP/1.1" ++ end_ in
  let post := bytes "POST / HTTP/1.1" ++ CRLF ++ bytes "content-length: 10" ++ end_ ++ bytes "0123456789" in
  recv_by 100 path = Ret (Some (setPath (bytes "/abcdefgh") (new_HttpRequest 0x11 true))) /\
  recv_by 12 path = Ret (Some (setPath (bytes "h") (new_HttpRequest 0x11 true))) /\
  recv_by 100 query = Ret (Some (setQuery (bytes "abc") (new_HttpRequest 0x11 true))) /\
  recv_by 8 query = Throw LengthError /\
  recv_by 20 query = recv_by 100 query /\ recv_by 16 query = Ret None /\
  recv_by 100 post = Ret (Some (setBody (bytes "0123456789")
    (setHeader (bytes "content-length") (bytes "10") (setMethod POST (new_HttpRequest 0x11 true))))) /\
  recv_by 34 post = Ret (Some (setMethod POST (new_HttpRequest 0x11 true))).
Proof. by vm_compute. Qed.

(** ** Witnesses *)
Definition posted : HttpRequest :=
  setBody (bytes "0123456789abcdefghij") (setHeader (bytes "Host") (bytes "abc")
    (setFragment (bytes "f") (setQuery (bytes "x=1") (setPath (bytes "/a/b") (setMethod POST (new_HttpRequest 0x11 false)))))).
Lemma posted_ok : request_ok posted.
Proof.
  split; [|split].
  - repeat split; try discriminate; try (apply rmatch_spec; vm_compute; reflexivity). by left.
  - apply list.Forall_singleton. split; [|right]; apply rmatch_spec; vm_compute; reflexivity.
  - apply bytes_ok.
Qed.
Lemma cast_dec n : 0 <= n < 2 ^ 63 -> cast_decimal (dec n) = Some n.
Proof.
  intros Hn. destruct (dec_spec n) as (Hd & Hu & _); [lia|]. unfold cast_decimal. rewrite Hu.
  assert (forallb (fun c => (48 <=? c) && (c <? 58)) (dec n) = true) as ->.
  { apply forallb_forall. intros c Hc%list_elem_of_In. rewrite list.Forall_forall in Hd. apply Hd in Hc.
    unfold digit in Hc. lia. }
  by rewrite (proj2 (Z.ltb_lt _ _)), (proj2 (Z.leb_le _ _)) by lia.
Qed.
(** The request line and the connection header come first; then the other
    lines and a part of the body. *)
Definition posted_pieces : list (list Z) :=
  let ls := request_lines posted (bytes "0123456789abcdefg") in [concat (take 2 ls); concat (drop 2 ls)].
Lemma request_received_witness :
  exists req s, recvRequest (H := http11_machine memory) cast_decimal 4096 (2 ^ 40) 2 (client 49 (HttpRequest_dump posted))
    = (Ret (Some req), s) /\ q_path req = bytes "/a/b" /\ q_body req = q_body posted /\ q_close req = false.
Proof.
  destruct (request_received memory cast_decimal 4096 (2 ^ 40) ltac:(lia) posted (bytes "0123456789abcdefg") (bytes "hij") []
    posted_pieces 2 (client 49 (HttpRequest_dump posted)) (client 49 (bytes "hij")) posted_ok eq_refl)
    as (req & s & Hr & _ & Hp & _ & _ & _ & Hb & _ & Hc).
  - discriminate.
  - by vm_compute.
  - by vm_compute.
  - exact cast_dec.
  - change (request_lines posted (bytes "0123456789abcdefg")) with
      (take 2 (request_lines posted (bytes "0123456789abcdefg")) ++ drop 2 (request_lines posted (bytes "0123456789abcdefg"))).
    unfold posted_pieces. apply glued_cons; [discriminate|]. apply glued_last. discriminate.
  - unfold posted_pieces. eapply arrives_cons; [vm_compute; reflexivity|].
    eapply arrives_cons; [vm_compute; reflexivity|]. apply arrives_nil.
  - by vm_compute.
  - repeat apply list.Forall_cons_2; [by vm_compute..|apply list.Forall_nil_2].
  - reflexivity.
  - reflexivity.
  - by vm_compute.
  - by vm_compute.
  - exists req, s. split; [exact Hr|]. split; [exact Hp|]. split; [exact Hb|exact (Hc eq_refl)].
Defined.
