(* ===== verification/Http11Grammar.v ===== *)
(** * The grammar of requests (cxk/http/http11_parser.rl)

    The grammar that http11_parser.rl announces, as regular expressions, and
    what [http_parser_execute] accepts: as soon as the bytes it has seen, in one
    call or in several, are a request, and not one byte later; it fails at the
    first byte that no request goes on with. *)
From S2P Require Import Prelude HttpServer Ragel Http11Machine Http11.

Section Grammar.
(** [uri_relaxed] *)
Context (relaxed : bool).
Definition chars (s : string) : list (Z * Z) := map (fun c => (c, c)) (bytes s).
Definition alpha_r : list (Z * Z) := [(65, 90); (97, 122)].
Definition digit_r : list (Z * Z) := [(48, 57)].
Definition xdigit_r : list (Z * Z) := [(48, 57); (65, 70); (97, 102)].
Definition xdigit1 : re := Chr xdigit_r.
Definition digit1 : re := Chr digit_r.
Definition CRLF_re : re := Alt (lit [13; 10]) (chr 10).
Definition more_delims_r : list (Z * Z) := if relaxed then chars "{}^" else [].
Definition sub_delims_r : list (Z * Z) := chars "!$&'()*+,;=" ++ more_delims_r.
Definition unreserved_r : list (Z * Z) := alpha_r ++ digit_r ++ chars "-._~".
Definition pct_encoded : re := seqs [chr 37; xdigit1; xdigit1].
Definition pchar_r : list (Z * Z) := unreserved_r ++ sub_delims_r ++ chars ":@".
Definition pchar : re := Alt (Chr pchar_r) pct_encoded.
Definition query : re := Rep (Alt (Chr (pchar_r ++ chars "/?")) pct_encoded).
Definition fragment : re := query.
Definition segment_nz_nc : re := plus (Alt (Chr (unreserved_r ++ sub_delims_r ++ chars "@")) pct_encoded).
Definition segment_nz : re := plus pchar.
Definition segment : re := Rep pchar.
Definition slash_segment : re := Seq (chr 47) segment.
Definition path_rootless : re := Seq segment_nz (Rep slash_segment).
Definition path_noscheme : re := Seq segment_nz_nc (Rep slash_segment).
Definition path_absolute : re := Seq (chr 47) (opt path_rootless).
Definition path_abempty : re := Rep slash_segment.
Definition reg_name : re := Rep (Alt (Chr (unreserved_r ++ sub_delims_r)) pct_encoded).
(** [("1"-"9")] and [("0"-"4")] are differences of characters: ["1"], ["0"]. *)
Definition dec_octet : re := alts [
  digit1; Seq (chr 49) digit1; seqs [chr 49; digit1; digit1]; seqs [chr 50; chr 48; digit1]; seqs [chr 50; chr 53; chr 48]].
Definition IPv4address : re := seqs [dec_octet; chr 46; dec_octet; chr 46; dec_octet; chr 46; dec_octet].
Definition h16 : re := upto 4 xdigit1.
Definition h16c : re := Seq h16 (chr 58).
Definition ls32 : re := Alt (Seq h16c h16) IPv4address.
Definition colons : re := lit [58; 58].
(** [a{n,}] *)
Definition from (n : nat) (a : re) : re := Seq (times n a) (Rep a).
(** [6( h16 ":" )] is the byte 6 and one group, not six groups. *)
Definition IPv6address : re := alts [
  seqs [chr 6; h16c; ls32];
  seqs [colons; chr 5; h16c; ls32];
  seqs [opt h16; colons; chr 4; h16c; ls32];
  seqs [opt (Seq (from 1 h16c) h16); colons; chr 3; h16c; ls32];
  seqs [opt (Seq (from 2 h16c) h16); colons; chr 2; h16c; ls32];
  seqs [opt (Seq (from 3 h16c) h16); colons; h16c; ls32];
  seqs [opt (Seq (from 4 h16c) h16); colons; ls32];
  seqs [opt (Seq (from 5 h16c) h16); colons; h16];
  seqs [opt (Seq (from 6 h16c) h16); colons]].
Definition IPvFuture : re := seqs [chr 118; plus xdigit1; chr 46; plus (Chr (unreserved_r ++ sub_delims_r ++ chars ":"))].
Definition IP_literal : re := seqs [chr 91; Alt IPv6address IPvFuture; chr 93].
Definition port : re := Rep digit1.
Definition host : re := alts [IP_literal; IPv4address; reg_name].
Definition userinfo : re := Rep (Alt (Chr (unreserved_r ++ sub_delims_r ++ chars ":")) pct_encoded).
Definition authority : re := seqs [opt (Seq userinfo (chr 64)); host; opt (Seq (chr 58) port)].
Definition scheme : re := Seq (Chr alpha_r) (Rep (Chr (alpha_r ++ digit_r ++ chars "+-."))).
Definition relative_part : re := alts [seqs [lit [47; 47]; authority; path_abempty]; path_absolute; path_noscheme; Eps].
Definition hier_part : re := alts [seqs [lit [47; 47]; authority; path_abempty]; path_absolute; path_rootless; Eps].
Definition tail_part : re := Seq (opt (Seq (chr 63) query)) (opt (Seq (chr 35) fragment)).
Definition relative_ref : re := Seq relative_part tail_part.
Definition URI : re := seqs [scheme; chr 58; hier_part; tail_part].
Definition URI_reference : re := Alt URI relative_ref.

Definition Method : re := upto 20 (Chr ([(65, 90)] ++ digit_r)).
Definition HTTP_Version : re := Seq (lit (bytes "HTTP/1.")) (Chr [(48, 49)]).
Definition Request_Line : re := seqs [Method; chr 32; URI_reference; chr 32; HTTP_Version; CRLF_re].
(** [HTTP_CTL] is [(0 - 31) | 127], which is 0 and 127. *)
Definition token_r : list (Z * Z) :=
  [(1, 8); (10, 31); (33, 33); (35, 39); (42, 43); (45, 46); (48, 57); (65, 90); (94, 122); (124, 124); (126, 126)].
Definition field_name : re := plus (Chr token_r).
(** [:>] ends the value at the first byte of a line end. *)
Definition field_value : re := Rep (Chr [(1, 9); (11, 12); (14, 126); (128, 255)]).
Definition message_header : re := seqs [field_name; chr 58; field_value; CRLF_re].
Definition Request : re := seqs [Request_Line; Rep message_header; CRLF_re].

(** [any* c :>> "\0"]: up to the first null byte that follows [c]. *)
Definition up_to_null (c : Z) : re :=
  let other := [(0, c - 1); (c + 1, 255)] in
  let after := [(1, c - 1); (c + 1, 255)] in
  seqs [Rep (Alt (Chr other) (Seq (plus (chr c)) (Chr after))); plus (chr c); chr 0].
Definition SocketJSONStart : re := Seq (chr 64) relative_part.
Definition SocketJSONData : re := Seq (chr 123) (up_to_null 125).
Definition SocketXMLData : re := seqs [
  chr 60; plus (Chr (alpha_r ++ digit_r ++ chars "-.")); Chr [(47, 47); (9, 13); (32, 32); (62, 62)]; up_to_null 62].
Definition SocketJSON : re := seqs [SocketJSONStart; chr 32; SocketJSONData].
Definition SocketRequest : re := Alt SocketXMLData SocketJSON.
Definition main : re := Alt Request SocketRequest.
End Grammar.

Definition main_classes : intervals := Eval vm_compute in classes (table_cuts http11_table ++ cut_points (main true)).
Definition main_nfa (r : bool) : nfa := build main_classes http11_fuel (main r).
Definition main_final (q : Z) : bool := http_parser_first_final <=? q.
Definition main_pairs (r : bool) : pairs :=
  explore http11_table (http11_widec r) main_classes (main_nfa r) http11_fuel [(http_parser_start, [0])] ∅.
Definition main_check (r : bool) : bool :=
  let N := main_nfa r in let R := main_pairs r in
  nfa_ok main_classes N && bool_decide (n_re <$> N !! 0 = Some (main r))
  && sane main_classes N 0 && bisim http11_table (http11_widec r) main_classes N main_final R
  && related R http_parser_start [0].
Lemma main_classes_ok : covers main_classes && both (fun r => fits http11_table (http11_widec r) main_classes) = true.
Proof. vm_cast_no_check (eq_refl true). Qed.
Lemma main_checked : both main_check
  && both (fun r => forallb (fun e => inhabited (n_re e.2)) (map_to_list (main_nfa r)) && bounded (main r)) = true.
Proof. vm_cast_no_check (eq_refl true). Qed.
#[local] Opaque http11_table main_classes main_nfa main_pairs http11_flows.

Section Accepts.
Context (r : bool).
Abbreviation state := (states http11_table (http11_widec r) http_parser_start).
Lemma main_facts : nfa_ok main_classes (main_nfa r) = true /\ n_re <$> main_nfa r !! 0 = Some (main r) /\
  forallb (sane main_classes (main_nfa r)) [0] = true /\
  bisim http11_table (http11_widec r) main_classes (main_nfa r) main_final (main_pairs r) = true /\
  related (main_pairs r) http_parser_start [0] = true /\
  forallb (fun e => inhabited (n_re e.2)) (map_to_list (main_nfa r)) = true /\ bounded (main r) = true /\
  fits http11_table (http11_widec r) main_classes = true /\ covers main_classes = true.
Proof.
  pose proof main_classes_ok as [Hc Hf]%andb_true_iff. apply (both_at _ r) in Hf.
  pose proof main_checked as [HC HI]%andb_true_iff. apply (both_at _ r) in HC. apply (both_at _ r) in HI.
  apply andb_true_iff in HI as [HI Hb]. unfold main_check in HC.
  apply andb_true_iff in HC as [[[[Hn H0%bool_decide_eq_true]%andb_true_iff Hs]%andb_true_iff HB]%andb_true_iff Hr].
  assert (HL : forallb (sane main_classes (main_nfa r)) [0] = true) by (cbn [forallb]; rewrite Hs; reflexivity).
  repeat split; assumption.
Qed.
Lemma main_accepts text : Forall byte_ok text -> (main_final (state text) = true <-> matches (main r) text).
Proof.
  intros Hb. destruct main_facts as (Hn & H0 & HL & HB & Hr & _ & _ & Hf & Hc).
  pose proof (bisim_accepts _ _ _ _ Hc Hf Hn main_final (main_pairs r) http_parser_start [0] text HB eq_refl Hr HL Hb) as HA.
  rewrite HA. split; intros Hm.
  - exact (in_nfa_start_inv _ _ _ H0 Hm).
  - exact (in_nfa_start _ _ _ H0 Hm).
Qed.
Lemma main_goes_on text : Forall byte_ok text -> state text <> 0 -> exists v, matches (main r) (text ++ v).
Proof.
  intros Hb Hs. destruct main_facts as (Hn & H0 & HL & HB & Hr & HI & _ & Hf & Hc).
  destruct (bisim_goes_on _ _ _ _ Hc Hf Hn main_final (main_pairs r) http_parser_start [0] text HI HB Hr HL Hb Hs ltac:(discriminate)
    ltac:(discriminate)) as [v Hv].
  exists v. exact (in_nfa_start_inv _ _ _ H0 Hv).
Qed.
Lemma main_dead text v : text <> [] -> state text = 0 -> ~ matches (main r) (text ++ v).
Proof.
  intros Hne Hs Hm. destruct main_facts as (_ & _ & _ & _ & _ & _ & Hbd & _).
  pose proof (matches_bytes _ _ Hbd Hm) as Hb. apply main_accepts in Hm; [|exact Hb].
  rewrite states_app, Hs in Hm. destruct text; [done|]. discriminate Hm.
Qed.
End Accepts.

(** ** Calls

    [fed g t h]: the parser after the bytes [t], given in any number of calls,
    while none has finished. *)
Inductive fed (g : http_parser) : list Z -> http_parser -> Prop :=
| fed_init : fed g [] (http_parser_init g)
| fed_more t text h es n h' : fed g t h -> Forall byte_ok text -> Z.of_nat (length text) < 2 ^ 31 ->
    http_parser_execute text 0 h = Ret (es, n, h') -> http_parser_finish h' = 0 -> fed g (t ++ text) h'.

Lemma acts_relaxed buffer r q p l h es q' p' h' es' :
  exec http11_table (http11_widec r) (http11_act buffer) is_done q p l (h, es) = Ret (q', p', (h', es')) ->
  uri_relaxed h' = uri_relaxed h.
Proof.
  intros He. apply (exec_preserves _ _ _ _ (fun s => uri_relaxed s.1 = uri_relaxed h)) in He; [exact He| |reflexivity].
  intros a m [h1 es1] [h2 es2] E Hr. cbn [fst] in *. destruct a; unfold http11_act, set, emit in E; cbn in E; simplify_eq; try exact Hr.
  destruct (xml_sent h1 || json_sent h1); cbn in E; simplify_eq; exact Hr.
Qed.

(** One call. *)
Lemma execute_states data h : parser_ok h -> Forall byte_ok data -> 0 < Z.of_nat (length data) < 2 ^ 31 ->
  exists es n h', http_parser_execute data 0 h = Ret (es, n, h') /\ (n <= length data)%nat /\ uri_relaxed h' = uri_relaxed h /\
    let st k := states http11_table (http11_widec (uri_relaxed h)) (cs h) (take k data) in
    (forall k, (k < n)%nat -> 0 < st k < http_parser_first_final) /\
    ((cs h' = 0 /\ st (Datatypes.S n) = 0 /\ 0 < st n < http_parser_first_final) \/
     (cs h' = st n /\ (http_parser_first_final <= cs h' \/
        (n = length data /\ 0 < cs h' < http_parser_first_final /\ parser_ok h')))).
Proof.
  intros Hp Hb Hl. pose proof Hp as (f & Hf & _).
  destruct (execute_run data h Hp Hb Hl) as (es & q & n & h' & He & Hn & _ & H0 & Hok & Hx).
  pose proof http11_classes_ok as [Hcov Hfit]%andb_true_iff.
  pose proof http11_flows_ok as [[HR _]%andb_true_iff _]%andb_true_iff.
  apply (both_at _ (uri_relaxed h)) in Hfit. apply (both_at _ (uri_relaxed h)) in HR.
  pose proof (flow_states _ _ _ _ _ Hcov Hfit (http11_act data) http11_final http11_flows (cs h) f data 0 _ _ _ _ HR Hf Hb Hx)
    as (m & -> & Hm & Hk & Hend).
  assert (Hg : forall q f', flows_to http11_flows q f' = true -> 0 < q < http_parser_first_final).
  { intros q1 f' [[? ?]%andb_true_iff _]%flows_going%andb_true_iff. lia. }
  apply acts_relaxed in Hx. exists es, m, (with_nread (Z.of_nat m) (with_cs q h')). rewrite Nat.add_0_l in *.
  refine (conj He (conj Hm (conj Hx (conj _ _)))).
  { intros k Hkm. destruct (Hk k Hkm) as [f' Hf']. exact (Hg _ _ Hf'). }
  cbn [cs with_nread with_cs]. destruct Hend as [(-> & Hs & f' & Hf')|(Hq & [[f' Hfin]|[-> [f' Hf']]])].
  - left. exact (conj eq_refl (conj Hs (Hg _ _ Hf'))).
  - right. split; [exact Hq|]. left. unfold http11_final in Hfin. lia.
  - right. split; [exact Hq|]. right. pose proof (Hg _ _ Hf') as Hq'. refine (conj eq_refl (conj Hq' _)).
    destruct (Hok Hq') as (f2 & Hf2 & Hr2). exists f2. exact (conj Hf2 Hr2).
Qed.

(** What is known of a parser that was fed [t]. *)
Definition state_of (g : http_parser) (t : list Z) : Z :=
  states http11_table (http11_widec (uri_relaxed g)) http_parser_start t.
Lemma state_app g v w : 0 < state_of g v -> states http11_table (http11_widec (uri_relaxed g)) (state_of g v) w = state_of g (v ++ w).
Proof.
  intros Hv. unfold state_of. rewrite states_app. by rewrite (proj2 (Z.eqb_neq (states _ _ _ v) 0)) by (unfold state_of in Hv; lia).
Qed.
Definition going (z : Z) : Prop := 0 < z < http_parser_first_final.
Lemma fed_state g t h : fed g t h ->
  Forall byte_ok t /\ parser_ok h /\ uri_relaxed h = uri_relaxed g /\ cs h = state_of g t /\
  forall k, (k <= length t)%nat -> going (state_of g (take k t)).
Proof.
  induction 1 as [|t text h es n h' Hfed (Hb & Hp & Hr & Hcs & Hall) Hbt Hl He Hfin].
  { split; [apply list.Forall_nil_2|]. split; [exact (init_ok g)|]. split; [reflexivity|]. split; [reflexivity|].
    intros k _. rewrite take_nil. unfold going, state_of, http_parser_start, http_parser_first_final. cbn. lia. }
  destruct (decide (text = [])) as [->|Hne].
  { unfold http_parser_execute in He. cbn in He. injection He as _ _ <-. rewrite app_nil_r.
    exact (conj Hb (conj Hp (conj Hr (conj Hcs Hall)))). }
  assert (Hpos : 0 < Z.of_nat (length text)) by (destruct text; cbn; [done|lia]).
  destruct (execute_states text h Hp Hbt (conj Hpos Hl)) as (es' & n' & h2 & He' & Hn & Hr' & Hk & Hend).
  rewrite He in He'. simplify_eq. cbv zeta in Hk, Hend.
  assert (Hgt : going (state_of g t)) by (specialize (Hall (length t) (Nat.le_refl _)); by rewrite firstn_all in Hall).
  rewrite Hr, Hcs in Hk, Hend. setoid_rewrite (fun k => state_app g t (take k text) (proj1 Hgt)) in Hk.
  rewrite !(state_app g t _ (proj1 Hgt)) in Hend.
  unfold http_parser_finish, http_parser_has_error, http_parser_is_finished in Hfin.
  destruct (Z.eqb_spec (cs h2) 0); [done|]. destruct (Z.leb_spec http_parser_first_final (cs h2)); [done|].
  destruct Hend as [[? _]|[Hc [?|(-> & Hg2 & Hok2)]]]; [lia|lia|].
  rewrite firstn_all in Hc. split; [by apply list.Forall_app|]. split; [exact Hok2|]. split; [congruence|]. split; [exact Hc|].
  intros k Hkl. destruct (Nat.le_gt_cases k (length t)) as [Hle|Hgtk].
  - rewrite take_app_le by done. by apply Hall.
  - rewrite take_app_ge by lia. rewrite length_app in Hkl. destruct (decide (k - length t = length text)%nat) as [->|].
    + rewrite firstn_all, <- Hc. exact Hg2.
    + apply Hk. lia.
Qed.
Lemma going_not_main g t : Forall byte_ok t -> going (state_of g t) -> ~ matches (main (uri_relaxed g)) t.
Proof.
  intros Hb Hg Hm. apply main_accepts in Hm; [|exact Hb]. unfold main_final in Hm. unfold going, state_of in Hg. lia.
Qed.
Lemma state_dead g t v : t <> [] -> state_of g t = 0 -> ~ matches (main (uri_relaxed g)) (t ++ v).
Proof. intros Hne Hs. exact (main_dead _ t v Hne Hs). Qed.
Lemma state_goes_on g t : Forall byte_ok t -> 0 < state_of g t -> exists v, matches (main (uri_relaxed g)) (t ++ v).
Proof. intros Hb Hs. apply main_goes_on; [exact Hb|]. unfold state_of in Hs. lia. Qed.

(** C8: [http_parser_execute] recognises the grammar of http11_parser.rl, however
    the bytes are divided among its calls: it finishes behind the first bytes
    that are a request and not before; it fails at the first byte after which no
    bytes make a request; and as long as neither happens it takes everything and
    the request can still be completed. *)
Theorem http11_grammar g t h text :
  fed g t h -> Forall byte_ok text -> 0 < Z.of_nat (length text) < 2 ^ 31 ->
  exists es n h', http_parser_execute text 0 h = Ret (es, n, h') /\ (n <= length text)%nat /\
    let L w := matches (main (uri_relaxed g)) (t ++ w) in
    (forall k, (k < n)%nat -> ~ L (take k text)) /\
    ((http_parser_finish h' = 1 /\ L (take n text)) \/
     (http_parser_finish h' = 0 /\ n = length text /\ ~ L text /\ exists v, L (text ++ v)) \/
     (http_parser_finish h' = -1 /\ (forall v, ~ L (take (S n) text ++ v)) /\ exists v, L (take n text ++ v))).
Proof.
  intros Hfed Hb Hl. destruct (fed_state g t h Hfed) as (Hbt & Hp & Hr & Hcs & Hall).
  destruct (execute_states text h Hp Hb Hl) as (es & n & h' & He & Hn & _ & Hk & Hend). cbv zeta in Hk, Hend.
  assert (Hgt : going (state_of g t)) by (specialize (Hall (length t) (Nat.le_refl _)); by rewrite firstn_all in Hall).
  rewrite Hr, Hcs in Hk, Hend. setoid_rewrite (fun k => state_app g t (take k text) (proj1 Hgt)) in Hk.
  rewrite !(state_app g t _ (proj1 Hgt)) in Hend.
  assert (Hbk : forall k, Forall byte_ok (t ++ take k text)) by (intros k; apply list.Forall_app; split; [exact Hbt|by apply list.Forall_take]).
  exists es, n, h'. split; [exact He|]. split; [exact Hn|]. cbv zeta. split.
  { intros k Hkn. exact (going_not_main g _ (Hbk k) (Hk k Hkn)). }
  unfold http_parser_finish, http_parser_has_error, http_parser_is_finished.
  destruct Hend as [(-> & Hs & Hg)|[Hc [Hf|(-> & Hg & _)]]].
  - right. right. split; [reflexivity|]. split.
    + intros v. rewrite app_assoc. apply state_dead; [|exact Hs]. destruct t; [|discriminate]. destruct text; [cbn in Hl; lia|discriminate].
    + destruct (state_goes_on g _ (Hbk n) (proj1 Hg)) as [v Hv]. exists v. by rewrite app_assoc.
  - left. unfold http_parser_first_final in Hf. rewrite (proj2 (Z.eqb_neq _ 0)), (proj2 (Z.leb_le _ _)) by (unfold http_parser_first_final; lia).
    split; [reflexivity|]. apply main_accepts; [exact (Hbk n)|]. unfold main_final. apply Z.leb_le.
    unfold state_of in Hc. rewrite <- Hc. exact Hf.
  - right. left. rewrite (proj2 (Z.eqb_neq _ 0)), (proj2 (Z.leb_gt _ _)) by lia. rewrite firstn_all in Hc. specialize (Hbk (length text)).
    rewrite firstn_all in Hbk. rewrite Hc in Hg. split; [reflexivity|]. split; [reflexivity|]. split.
    + exact (going_not_main g _ Hbk Hg).
    + destruct (state_goes_on g _ Hbk (proj1 Hg)) as [v Hv]. exists v. by rewrite app_assoc.
Qed.

(** ** Witnesses

    Eight groups in brackets, which RFC 3986 allows, are no request here. *)
Definition no_memory : http_parser := mkHttpParser 0 0 0 0 0 0 0 0 false false false.
Definition v6_request : list Z := bytes "GET http://[1:2:3:4:5:6:7:8]/ HTTP/1.1".
Lemma http11_grammar_witness : ~ exists v, matches (main false) (take 28 v6_request ++ v).
Proof.
  intros [v Hv].
  destruct (http11_grammar no_memory [] (http_parser_init no_memory) v6_request (fed_init _) (bytes_ok _))
    as (es & n & h' & He & _ & _ & [[Hf _]|[[Hf _]|(_ & Hd & _)]]); [by vm_compute| | |].
  - assert (E : http_parser_finish (match http_parser_execute v6_request 0 (http_parser_init no_memory) with
      Ret (_, _, h) => h | _ => no_memory end) = -1) by (vm_compute; reflexivity).
    rewrite He, Hf in E. discriminate E.
  - assert (E : http_parser_finish (match http_parser_execute v6_request 0 (http_parser_init no_memory) with
      Ret (_, _, h) => h | _ => no_memory end) = -1) by (vm_compute; reflexivity).
    rewrite He, Hf in E. discriminate E.
  - assert (E : match http_parser_execute v6_request 0 (http_parser_init no_memory) with Ret (_, n, _) => n | _ => O end = 27%nat)
      by (vm_compute; reflexivity).
    rewrite He in E. rewrite E in Hd. exact (Hd v Hv).
Defined.
