(* ===== verification/HttpClientParser.v ===== *)
(** * The parser of responses (cxk/http/httpclient_parser.rl.cpp, http_parser.cpp)

    The functions around the program of [HttpClientMachine], its callbacks into
    [HttpResponseParser], and [execute] over the memory of the caller. *)
From S2P Require Import Prelude ByteArray Stream Http HttpServer Ragel HttpClientMachine.

(** [struct httpclient_parser], without the pointers to the callbacks. *)
Record httpclient_parser : Type := mkClientParser {
  cs : Z; body_start : Z; content_len : Z; status : Z; chunked : bool; chunks_done : bool; close : bool;
  nread : Z; mark : Z; field_start : Z; field_len : Z
}.
#[export] Instance httpclient_parser_eq_dec : EqDecision httpclient_parser.
Proof. solve_decision. Defined.
(** [status] stays as it is. *)
Definition httpclient_parser_init (c : httpclient_parser) : httpclient_parser :=
  mkClientParser httpclient_parser_start 0 (-1) (status c) false false false 0 0 0 0.
Definition httpclient_parser_has_error (c : httpclient_parser) : bool := cs c =? 0.
Definition httpclient_parser_is_finished (c : httpclient_parser) : bool := cs c =? httpclient_parser_first_final.
Definition httpclient_parser_finish (c : httpclient_parser) : Z :=
  if httpclient_parser_has_error c then -1 else if httpclient_parser_is_finished c then 1 else 0.

Definition with_cs v c := mkClientParser v (body_start c) (content_len c) (status c) (chunked c) (chunks_done c) (close c)
  (nread c) (mark c) (field_start c) (field_len c).
Definition with_body_start v c := mkClientParser (cs c) v (content_len c) (status c) (chunked c) (chunks_done c) (close c)
  (nread c) (mark c) (field_start c) (field_len c).
Definition with_content_len v c := mkClientParser (cs c) (body_start c) v (status c) (chunked c) (chunks_done c) (close c)
  (nread c) (mark c) (field_start c) (field_len c).
Definition with_status v c := mkClientParser (cs c) (body_start c) (content_len c) v (chunked c) (chunks_done c) (close c)
  (nread c) (mark c) (field_start c) (field_len c).
Definition with_chunked v d c := mkClientParser (cs c) (body_start c) (content_len c) (status c) v d (close c)
  (nread c) (mark c) (field_start c) (field_len c).
Definition with_close v c := mkClientParser (cs c) (body_start c) (content_len c) (status c) (chunked c) (chunks_done c) v
  (nread c) (mark c) (field_start c) (field_len c).
Definition with_nread v c := mkClientParser (cs c) (body_start c) (content_len c) (status c) (chunked c) (chunks_done c) (close c)
  v (mark c) (field_start c) (field_len c).
Definition with_mark v c := mkClientParser (cs c) (body_start c) (content_len c) (status c) (chunked c) (chunks_done c) (close c)
  (nread c) v (field_start c) (field_len c).
Definition with_field v n c := mkClientParser (cs c) (body_start c) (content_len c) (status c) (chunked c) (chunks_done c) (close c)
  (nread c) (mark c) v n.

(** The callbacks, with the bytes from [at] to the end of the buffer. *)
Inductive RspEvent : Type :=
| ReasonPhrase (at_ : list Z) (length : Z)
| StatusCode (at_ : list Z) (length : Z)
| ChunkSize (at_ : list Z) (length : Z)
| LastChunk (at_ : list Z) (length : Z)
| RspVersion (at_ : list Z) (length : Z)
| RspHeaderDone (at_ : list Z) (length : Z)
| RspField (field : list Z) (flen : Z) (value : list Z) (vlen : Z).

Definition client_table : table action := table_of client_code.
Definition client_widec (c : Z) : Z := c.
Definition is_done (a : action) : bool := match a with Done => true | _ => false end.

Section Execute.
(** The bytes of the call. [*pe] is the null byte, so that the numbers and
    strings that begin in it end in it. *)
Context (buffer : list Z).
Definition PTR_TO (f : Z) : list Z := drop (Z.to_nat f) buffer.
Definition LEN (at_ : Z) (fpc : nat) : Z := u64 (Z.of_nat fpc - at_).

Definition parsing : Type := httpclient_parser * list RspEvent.
Definition emit (e : RspEvent) (s : parsing) : outcome parsing := Ret (s.1, s.2 ++ [e]).
Definition set (f : httpclient_parser -> httpclient_parser) (s : parsing) : outcome parsing := Ret (f s.1, s.2).
Definition client_act (a : action) (fpc : nat) (s : parsing) : outcome parsing :=
  let c := s.1 in
  match a with
  | Mark | StartValue => set (with_mark (Z.of_nat fpc)) s
  | StartField => set (with_field (Z.of_nat fpc) (field_len c)) s
  | WriteField => set (with_field (field_start c) (LEN (field_start c) fpc)) s
  | WriteContentLen => set (with_content_len (i32 (strtol 10 (PTR_TO (mark c))))) s
  | WriteConnectionClose => set (with_close true) s
  | WriteValue => emit (RspField (PTR_TO (field_start c)) (field_len c) (PTR_TO (mark c)) (LEN (mark c) fpc)) s
  | HttpClientMachine.ReasonPhrase => emit (ReasonPhrase (PTR_TO (mark c)) (LEN (mark c) fpc)) s
  | HttpClientMachine.StatusCode =>
      '(c, es) ← set (with_status (i32 (strtol 10 (PTR_TO (mark c))))) s;
      emit (StatusCode (PTR_TO (mark c)) (LEN (mark c) fpc)) (c, es)
  | HttpVersionA => emit (RspVersion (PTR_TO (mark c)) (LEN (mark c) fpc)) s
  | HttpClientMachine.ChunkSize =>
      let n := i32 (strtol 16 (PTR_TO (mark c))) in
      '(c, es) ← set (fun c => with_chunked true (n <=? 0) (with_content_len n c)) s;
      if n <=? 0 then emit (LastChunk (PTR_TO (mark c)) (LEN (mark c) fpc)) (c, es)
      else emit (ChunkSize (PTR_TO (mark c)) (LEN (mark c) fpc)) (c, es)
  | TransChunked => set (fun c => with_chunked true (chunks_done c) c) s
  | Done =>
      '(c, es) ← set (with_body_start (Z.of_nat fpc + 1)) s;
      emit (RspHeaderDone (PTR_TO (Z.of_nat fpc + 1)) (u64 (Z.of_nat (length buffer) - Z.of_nat fpc - 1))) (c, es)
  end.

(** [httpclient_parser_execute(parser, buffer, len, off)], whose result is -1
    where [check] fails; [next] is the byte behind the buffer. *)
Definition httpclient_parser_execute (pe : Z) (off : nat) (c : httpclient_parser) :
    outcome (list RspEvent * Z * httpclient_parser) :=
  let len := Z.of_nat (length buffer) in
  let c := with_field 0 0 (with_mark 0 (with_nread 0 c)) in
  if (length buffer <? off)%nat || negb (pe =? 0) || (2 ^ 31 <=? len) then Crash
  else
    '(q, p, (c, es)) ← exec client_table client_widec client_act is_done (cs c) off (drop off buffer) (c, []);
    let c := with_cs q c in
    let c := with_nread (nread c + Z.of_nat (p - off)) c in
    if negb ((nread c <=? len) && (body_start c <=? len)) then Crash
    else if (mark c <? len) && (field_len c <=? len) && (field_start c <? len) then Ret (es, nread c, c)
    else Ret (es, -1, c).
End Execute.

(** ** [HttpResponseParser] *)
Record HttpResponseParser : Type := mkRspParser { r_parser : httpclient_parser; r_data : HttpResponse; r_error : Z }.
(** [m_error] is not initialised: [e] and [c] are what the memory holds. *)
Definition new_HttpResponseParser (c : httpclient_parser) (e : Z) : HttpResponseParser :=
  mkRspParser (httpclient_parser_init c) (new_HttpResponse 0x11 true) e.
Definition rsp_setError (v : Z) (p : HttpResponseParser) := mkRspParser (r_parser p) (r_data p) v.
Definition on_rsp (f : HttpResponse -> HttpResponse) (p : HttpResponseParser) := mkRspParser (r_parser p) (f (r_data p)) (r_error p).

Section Parser.
Context (lexical_cast : list Z -> option Z) (max_string : Z).
Definition on_response_reason (at_ : list Z) (length : Z) (p : HttpResponseParser) : outcome HttpResponseParser :=
  v ← std_string max_string at_ length; mret (on_rsp (rsp_setReason v) p).
Definition on_response_status (at_ : list Z) (length : Z) (p : HttpResponseParser) : outcome HttpResponseParser :=
  v ← atoi at_; mret (on_rsp (rsp_setStatus v) p).
Definition on_response_version (at_ : list Z) (length : Z) (p : HttpResponseParser) : HttpResponseParser :=
  if strncmp_eq at_ http_1_1 length then on_rsp (rsp_setVersion 0x11) p
  else if strncmp_eq at_ http_1_0 length then on_rsp (rsp_setVersion 0x10) p
  else rsp_setError 1001 p.
Definition on_response_http_field (field : list Z) (flen : Z) (value : list Z) (vlen : Z) (p : HttpResponseParser) :
    outcome HttpResponseParser :=
  if flen =? 0 then mret (rsp_setError 1002 p)
  else
    k ← std_string max_string field flen; v ← std_string max_string value vlen; mret (on_rsp (rsp_setHeader k v) p).
Definition on_rsp_event (e : RspEvent) (p : HttpResponseParser) : outcome HttpResponseParser :=
  match e with
  | ReasonPhrase a n => on_response_reason a n p
  | StatusCode a n => on_response_status a n p
  | RspVersion a n => mret (on_response_version a n p)
  | RspField f fl v vl => on_response_http_field f fl v vl p
  | ChunkSize _ _ | LastChunk _ _ | RspHeaderDone _ _ => mret p
  end.
Fixpoint on_rsp_events (es : list RspEvent) (p : HttpResponseParser) : outcome HttpResponseParser :=
  match es with [] => mret p | e :: es => p ← on_rsp_event e p; on_rsp_events es p end.

(** Memory, by offsets from [data]; what lies outside is not to be touched. *)
Definition load (k n : Z) (mem : list Z) : outcome (list Z) :=
  if (0 <=? k) && (0 <=? n) && (k + n <=? Z.of_nat (length mem)) then Ret (slice (Z.to_nat k) (Z.to_nat n) mem) else Crash.
Definition store (k : Z) (d mem : list Z) : outcome (list Z) :=
  if (0 <=? k) && (k + Z.of_nat (length d) <=? Z.of_nat (length mem))
  then Ret (take (Z.to_nat k) mem ++ d ++ drop (Z.to_nat k + length d) mem) else Crash.
Definition memmove (dst src n : Z) (mem : list Z) : outcome (list Z) := d ← load src n mem; store dst d mem.

(** [execute(data + k, len, chunck)]: the number of bytes parsed, and the memory
    with the other bytes moved to the front. *)
Definition rsp_execute (mem : list Z) (k len : Z) (chunck : bool) (p : HttpResponseParser) :
    outcome (Z * list Z * HttpResponseParser) :=
  let m := if chunck then httpclient_parser_init (r_parser p) else r_parser p in
  buffer ← load k len mem;
  pe ← load (k + len) 1 mem;
  '(es, offset, m) ← httpclient_parser_execute buffer (nth 0 pe 0) 0 m;
  p ← on_rsp_events es p;
  mem ← memmove k (k + offset) (u64 (len - offset)) mem;
  mret (u64 offset, mem, mkRspParser m (r_data p) (r_error p)).
Definition rsp_isFinished (p : HttpResponseParser) : bool := httpclient_parser_is_finished (r_parser p).
Definition rsp_hasError (p : HttpResponseParser) : bool := negb (r_error p =? 0) || httpclient_parser_has_error (r_parser p).
Definition rsp_getContentLength (p : HttpResponseParser) : Z := getAs lexical_cast (p_headers (r_data p)) s_Content_Length 0.
End Parser.
