(* ===== verification/HttpClient.v ===== *)
(** * The HTTP client (cxk/http/http_connection.cpp)

    [HttpConnection]: the response that is read over the memory of the caller,
    the request that is sent, and the calls that connect, send and receive.
    [CreateTCP] and [connect] of a socket are an interface, [Net]. *)
From S2P Require Import Prelude ByteArray Stream Zlib Http HttpServer Ragel HttpClientMachine HttpClientParser Address Uri.

(** ** [recvResponse] *)
Definition s_content_encoding : list Z := Eval cbv in bytes "content-encoding".
Definition s_gzip : list Z := Eval cbv in bytes "gzip".
Definition s_deflate : list Z := Eval cbv in bytes "deflate".

Section Response.
Context (lexical_cast : list Z -> option Z) (buff_size max_string : Z).
Context {St : Type} `{Stream St}.

(** [read(data + k, n)] *)
Definition read_at (k n : Z) (mem : list Z) : M St (Z * list Z) :=
  '(len, d) ← s_read (u64 n); mem ← lift (store k d mem); mret (len, mem).
(** [body.append(data, n)] *)
Definition append (body mem : list Z) (n : Z) : outcome (list Z) :=
  if max_string - Z.of_nat (length body) <? u64 n then Throw LengthError
  else d ← load 0 (u64 n) mem; Ret (body ++ d).
(** [body.resize(n)], which is never longer than [body]. *)
Definition resize (body : list Z) (n : Z) : outcome (list Z) :=
  if max_string <? u64 n then Throw LengthError else Ret (take (Z.to_nat n) body).

(** The first loop: [mem] is the buffer of [buff_size + 1] bytes, [None] is
    [return nullptr]. *)
Fixpoint rsp_head (fuel : nat) (mem : list Z) (offset : Z) (p : HttpResponseParser) :
    M St (option (list Z * Z * HttpResponseParser)) :=
  match fuel with
  | O => nofuel
  | S fuel =>
      '(len, mem) ← read_at offset (buff_size - offset) mem;
      if len <=? 0 then mret None else
      len ← lift (chk_signed 32 (len + offset));
      mem ← lift (store len [0] mem);
      '(nparse, mem, p) ← lift (rsp_execute max_string mem offset len true p);
      if rsp_hasError p then mret None else
      let offset := i32 (u64 (len - nparse)) in
      if offset =? i32 buff_size then mret None else
      if rsp_isFinished p then mret (Some (mem, offset, p)) else rsp_head fuel mem offset p
  end.

(** The loop that parses the line of a chunk; [len] bytes are in the buffer. *)
Fixpoint chunk_head (fuel : nat) (begin : bool) (mem : list Z) (len : Z) (p : HttpResponseParser) :
    M St (option (list Z * Z * HttpResponseParser)) :=
  match fuel with
  | O => nofuel
  | S fuel =>
      r ← (if negb begin || (len =? 0) then
             '(rt, mem) ← read_at len (buff_size - len) mem;
             if rt <=? 0 then Stream.s_close ;; mret None
             else len ← lift (chk_signed 32 (len + rt)); mret (Some (mem, len))
           else mret (Some (mem, len)));
      match r with
      | None => mret None
      | Some (mem, len) =>
          mem ← lift (store len [0] mem);
          '(nparse, mem, p) ← lift (rsp_execute max_string mem 0 len true p);
          if rsp_hasError p then mret None else
          let len := i32 (u64 (len - nparse)) in
          if len =? i32 buff_size then mret None else
          if rsp_isFinished p then mret (Some (mem, len, p)) else chunk_head fuel false mem len p
      end
  end.

(** The loop over the [left] bytes of a chunk that were not in the buffer. *)
Fixpoint chunk_left (fuel : nat) (mem body : list Z) (left : Z) : M St (option (list Z * list Z)) :=
  if 0 <? left then
    match fuel with
    | O => nofuel
    | S fuel =>
        '(rt, mem) ← read_at 0 (if i32 buff_size <? left then i32 buff_size else left) mem;
        if rt <=? 0 then mret None else
        body ← lift (append body mem rt);
        chunk_left fuel mem body (left - rt)
    end
  else mret (Some (mem, body)).
(** The bytes of a chunk and the line end behind them, which [resize] cuts off
    where they were read together. *)
Definition chunk_body (fuel : nat) (mem : list Z) (len : Z) (body : list Z) (p : HttpResponseParser) :
    M St (option (list Z * Z * list Z)) :=
  let content_len := content_len (r_parser p) in
  n ← lift (chk_signed 32 (content_len + 2));
  if n <=? len then
    body ← lift (append body mem content_len);
    size ← lift (chk_signed 32 (len - content_len + 2));
    mem ← lift (memmove 0 (content_len + 2) (u64 size) mem);
    mret (Some (mem, len - n, body))
  else
    body ← lift (append body mem len);
    left ← lift (chk_signed 32 (content_len - len + 2));
    r ← chunk_left fuel mem body left;
    match r with
    | None => mret None
    | Some (mem, body) => body ← lift (resize body (Z.of_nat (length body) - 2)); mret (Some (mem, 0, body))
    end.
Fixpoint chunk_loop (fuel : nat) (mem : list Z) (len : Z) (body : list Z) (p : HttpResponseParser) :
    M St (option (list Z * HttpResponseParser)) :=
  match fuel with
  | O => nofuel
  | S fuel' =>
      h ← chunk_head fuel true mem len p;
      match h with
      | None => mret None
      | Some (mem, len, p) =>
          r ← chunk_body fuel mem len body p;
          match r with
          | None => mret None
          | Some (mem, len, body) =>
              if chunks_done (r_parser p) then mret (Some (body, p)) else chunk_loop fuel' mem len body p
          end
      end
  end.

(** The body of a response that is not chunked, [offset] bytes of which are in
    the buffer. *)
Definition plain_body (mem : list Z) (offset : Z) (p : HttpResponseParser) : M St (option (list Z * HttpResponseParser)) :=
  let length := rsp_getContentLength lexical_cast p in
  if 0 <? length then
    if max_string <? length then throw LengthError else
    body ← lift (load 0 (if u64 offset <=? length then offset else length) mem);
    let left := u64 (length - offset) in
    if 0 <? left then
      '(r, d) ← readFixSize left;
      if r <=? 0 then mret None else mret (Some (body ++ d, p))
    else mret (Some (body, p))
  else mret (Some ([], p)).
Definition recv_message (fuel : nat) (mem : list Z) (p : HttpResponseParser) : M St (option (list Z * HttpResponseParser)) :=
  h ← rsp_head fuel mem 0 p;
  match h with
  | None => mret None
  | Some (mem, offset, p) => if chunked (r_parser p) then chunk_loop fuel mem offset [] p else plain_body mem offset p
  end.

Context {Zs : Type} `{Zlib Zs} {heap : Heap}.
(** A null stream is dereferenced; the results of [write] and [flush] are not
    looked at. *)
Definition inflate (create : outcome (option (ZlibStream Zs))) (body : list Z) : outcome (list Z) :=
  z ← create;
  match z with
  | None => Crash
  | Some z => fst ((ZlibStream_write body ;; flush ;; gets getResult) z)
  end.
Definition decoded (p : HttpResponseParser) (body : list Z) : outcome HttpResponse :=
  match body with
  | [] => mret (r_data p)
  | _ =>
      let content_encoding := rsp_getHeader s_content_encoding [] (r_data p) in
      body ← (if is_eq (strcasecmp content_encoding s_gzip) then inflate (CreateGzip false) body
              else if is_eq (strcasecmp content_encoding s_deflate) then inflate (CreateDeflate false) body
              else mret body);
      mret (rsp_setBody body (r_data p))
  end.
(** [mem], [c] and [e] are what the buffer and the parser hold before they are
    written. *)
Definition recvResponse (fuel : nat) (mem : list Z) (c : httpclient_parser) (e : Z) : M St (option HttpResponse) :=
  r ← recv_message fuel mem (new_HttpResponseParser c e);
  match r with
  | None => mret None
  | Some (body, p) => rsp ← lift (decoded p body); mret (Some rsp)
  end.

(** The result of [writeFixSize] is dropped. *)
Definition sendRequest (req : HttpRequest) : M St Z :=
  let data := HttpRequest_dump req in
  writeFixSize data (Z.of_nat (length data)) ;; mret (i32 (Z.of_nat (length data))).
End Response.

(** ** The calls *)
Record HttpResult : Type := mkResult { result : Z; response : option HttpResponse; error : list Z }.
Definition Error_OK : Z := 0.
Definition INVALID_URL : Z := 1.
Definition INVALID_HOST : Z := 2.
Definition CONNECT_FALT : Z := 3.
Definition SEND_CLOSE_BY_PEER : Z := 4.
Definition SEND_SOCKET_ERROR : Z := 5.
Definition TIMEOUT : Z := 6.
Definition CREATE_SOCKET_ERROR : Z := 7.
Definition POOL_GET_CONNECTION : Z := 8.
Definition POOL_INVALID_CONNECTION : Z := 9.

(** The sockets: [CreateTCP] may fail, [connect] of one to an address too. *)
Class Net (Sock St : Type) := {
  CreateTCP : Address -> option Sock;
  connect : Address -> Sock -> option St;
  setRecvTimeout : Z -> St -> St;
  errno : Z
}.

(** The loop over [headers], a [std::map], and what it leaves in [has_host]. *)
Definition s_host : list Z := Eval cbv in bytes "host".
Definition s_Host : list Z := Eval cbv in bytes "Host".
Fixpoint add_headers (headers : list (list Z * list Z)) (has_host : bool) (req : HttpRequest) : bool * HttpRequest :=
  match headers with
  | [] => (has_host, req)
  | (k, v) :: headers =>
      if is_eq (strcasecmp k s_connection) then
        add_headers headers has_host (if is_eq (strcasecmp v s_keep_alive) then setClose false req else req)
      else
        let has_host := if negb has_host && is_eq (strcasecmp k s_host) then negb (bool_decide (v = [])) else has_host in
        add_headers headers has_host (setHeader k v req)
  end.
Definition build_request (method : HttpMethod) (url : Uri) (headers : list (list Z * list Z)) (body : list Z) : HttpRequest :=
  let req := setMethod method (Http.setFragment (m_fragment url) (Http.setQuery (m_query url) (Http.setPath (Uri.getPath url)
    (new_HttpRequest 0x11 true)))) in
  let '(has_host, req) := add_headers headers false req in
  let req := if has_host then req else setHeader s_Host (m_host url) req in
  setBody body req.

(** [std::to_string(int)] *)
Definition dec_int (n : Z) : list Z := if n <? 0 then 45 :: dec (- n) else dec n.

Section Calls.
Context (lexical_cast : list Z -> option Z) (buff_size max_string : Z).
Context {Sock St : Type} `{Net Sock St} `{Stream St} {Zs : Type} `{Zlib Zs} {heap : Heap}.
Context (getaddrinfo : list Z -> option (list Z) -> Z -> Z -> Z -> option (list raw)).
Context (fuel : nat) (mem : list Z) (c : httpclient_parser) (e : Z).

(** What [DoRequest] and the pool's [doRequest] do over the connection. *)
Definition exchange (req : HttpRequest) (timeout_ms : Z) : M St HttpResult :=
  ret ← sendRequest req;
  if ret =? 0 then mret (mkResult SEND_CLOSE_BY_PEER None (bytes "send request closed by peer")) else
  if ret <? 0 then
    mret (mkResult SEND_SOCKET_ERROR None (bytes "send request socket error errno=" ++ dec_int errno))
  else
    rsp ← recvResponse lexical_cast buff_size max_string fuel mem c e;
    match rsp with
    | None => mret (mkResult TIMEOUT None (bytes "recv response timemout: " ++ dec timeout_ms))
    | Some rsp => mret (mkResult Error_OK (Some rsp) (bytes "ok"))
    end.

(** The state is the connection of the call, once there is one. *)
Definition on_conn {A} (m : M St A) : M (option St) A := fun s =>
  match s with
  | None => (Crash, None)
  | Some s => let '(r, s) := m s in (r, Some s)
  end.
Definition DoRequest_req (req : HttpRequest) (url : Uri) (timeout_ms : Z) : M (option St) HttpResult :=
  match createAddress getaddrinfo url with
  | None => mret (mkResult INVALID_HOST None (bytes "invallid host : " ++ m_host url))
  | Some addr =>
      match CreateTCP addr with
      | None => a ← lift (insert addr); mret (mkResult CREATE_SOCKET_ERROR None (bytes "connect failed: " ++ a))
      | Some sock =>
          match connect addr sock with
          | None => a ← lift (insert addr); mret (mkResult CONNECT_FALT None (bytes "connect failed: " ++ a))
          | Some s =>
              modify (fun _ => Some (setRecvTimeout timeout_ms s)) ;;
              on_conn (exchange req timeout_ms)
          end
      end
  end.
Definition DoRequest_uri (method : HttpMethod) (url : Uri) (timeout_ms : Z) (headers : list (list Z * list Z)) (body : list Z) :
    M (option St) HttpResult :=
  DoRequest_req (build_request method url headers body) url timeout_ms.
(** A call with the text of a URL: what [with_url] does with the [Uri]. *)
Definition with_url (url : list Z) (call : Uri -> M (option St) HttpResult) : M (option St) HttpResult :=
  uri ← lift (Create url);
  match uri with
  | None => mret (mkResult INVALID_URL None (bytes "invallid url : " ++ url))
  | Some uri => call uri
  end.
Definition DoRequest method url timeout_ms headers body := with_url url (fun uri => DoRequest_uri method uri timeout_ms headers body).
Definition DoGet_uri := DoRequest_uri GET.
Definition DoGet url timeout_ms headers body := with_url url (fun uri => DoGet_uri uri timeout_ms headers body).
Definition DoPost_uri := DoRequest_uri POST.
Definition DoPost url timeout_ms headers body := with_url url (fun uri => DoPost_uri uri timeout_ms headers body).
End Calls.
