(* ===== verification/HttpClientTotal.v ===== *)
(** * Termination of the client (cxk/http/http_connection.cpp)

    Whatever the peer sends, [recvResponse] reads it to an end: a small logic of
    partial results, [halts], over the loops of [HttpClient]. *)
From S2P Require Import Prelude ByteArray Stream Http HttpServer Ragel HttpClientMachine HttpClientParser HttpClient.

(** [halts Q r]: the run [r] did not go out of fuel, and [Q] holds of what it
    returned. *)
Definition halts {S A} (Q : A -> S -> Prop) (r : outcome A * S) : Prop :=
  match r.1 with Ret a => Q a r.2 | NoFuel => False | _ => True end.
Definition has_result {A} (Q : A -> Prop) (o : outcome A) : Prop :=
  match o with Ret a => Q a | NoFuel => False | _ => True end.
Lemma halts_impl {S A} (Q Q' : A -> S -> Prop) r : halts Q r -> (forall a s, Q a s -> Q' a s) -> halts Q' r.
Proof. destruct r as [[] ?]; cbn; auto. Qed.
Lemma halts_bind {S A B} (Q : A -> S -> Prop) (Q' : B -> S -> Prop) (m : M S A) (f : A -> M S B) s :
  halts Q (m s) -> (forall a s', Q a s' -> halts Q' (f a s')) -> halts Q' ((m ≫= f) s).
Proof. unfold mbind, M_bind, halts. destruct (m s) as [[a| | |] s']; cbn; intros HQ Hf; [exact (Hf a s' HQ)|done..]. Qed.
Lemma halts_lift {S A} (Q : A -> Prop) (o : outcome A) (s : S) : has_result Q o -> halts (fun a s' => Q a /\ s' = s) (lift o s).
Proof. destruct o; cbn; auto. Qed.
Lemma result_bind {A B} (Q : A -> Prop) (Q' : B -> Prop) (o : outcome A) (f : A -> outcome B) :
  has_result Q o -> (forall a, Q a -> has_result Q' (f a)) -> has_result Q' (o ≫= f).
Proof. destruct o; cbn; auto. Qed.
Lemma result_impl {A} (Q Q' : A -> Prop) o : has_result Q o -> (forall a, Q a -> Q' a) -> has_result Q' o.
Proof. destruct o; cbn; auto. Qed.

(** ** The parser *)
Lemma exec_acts {A} (t : table A) widec {S} (act : A -> nat -> S -> outcome S) stop q p l s :
  (forall a p s, exists s', act a p s = Ret s') ->
  exists q' p' s', exec t widec act stop q p l s = Ret (q', p', s') /\ (p <= p' <= p + length l)%nat /\ (p' = p -> q' = q \/ q' = 0).
Proof.
  intros Ha. revert q p s. induction l as [|b l IH]; intros q p s; cbn [exec length].
  - exists q, p, s. split_and!; [done|lia|lia|auto].
  - destruct (next t widec q b) as [acts q1]. destruct (q1 =? 0); [exists 0, p, s; split_and!; [done|lia|lia|auto]|].
    assert (Hr : exists s', run_acts act acts p s = Ret s').
    { clear IH. revert s. induction acts as [|a acts IHa]; intros s; [by exists s|]. cbn [run_acts].
      destruct (Ha a p s) as [s1 ->]. cbn [mbind outcome_bind]. apply IHa. }
    destruct Hr as [s1 ->]. cbn [mbind outcome_bind]. destruct (existsb stop acts).
    + exists q1, (Datatypes.S p), s1. split_and!; [done|lia|lia|lia].
    + destruct (IH q1 (Datatypes.S p) s1) as (q' & p' & s' & -> & Hp & _). exists q', p', s'. split_and!; [done|lia|lia|lia].
Qed.
Lemma client_act_ret buffer a p s : exists s', client_act buffer a p s = Ret s'.
Proof. destruct a; cbn -[strtol]; unfold set, emit; cbn -[strtol]; try case_match; by eexists. Qed.
(** A call takes between none and all of the bytes, or reports -1; one that
    finishes takes some. *)
Lemma client_execute buffer pe c :
  has_result (fun '(_, n, c') => (n = -1 \/ 0 <= n <= Z.of_nat (length buffer)) /\
    (cs c = httpclient_parser_start -> httpclient_parser_is_finished c' = true -> n <> 0))
    (httpclient_parser_execute buffer pe 0 c).
Proof.
  unfold httpclient_parser_execute. destruct (_ || _ || _); [done|].
  set (c1 := with_field 0 0 _). assert (Hn1 : nread c1 = 0) by done.
  destruct (exec_acts client_table client_widec (client_act buffer) is_done (cs c1) 0 (drop 0 buffer) (c1, []) (client_act_ret buffer))
    as (q & p & [c2 es] & E & Hp & Hq). rewrite E. cbn [mbind outcome_bind].
  assert (Hn2 : nread c2 = 0).
  { refine (exec_preserves _ _ _ _ (fun s => nread s.1 = 0) _ _ _ _ _ _ _ E _ Hn1).
    intros a m s1 s2. destruct a; cbn -[strtol]; unfold set, emit; cbn -[strtol]; try case_match; by intros [= <-]. }
  rewrite drop_0 in Hp. cbn [nread with_nread with_cs]. rewrite Hn2, Nat.sub_0_r, Z.add_0_l.
  destruct (negb _); [done|]. destruct (_ && _ && _); cbn; (split; [lia|]); intros Hc.
  - intros Hf%Z.eqb_eq H0. cbn in Hf. destruct Hq as [Hq|Hq]; [lia| |]; change (cs c1) with (cs c) in Hq; rewrite Hf in Hq; [|done].
    by rewrite Hc in Hq.
  - done.
Qed.
Lemma on_rsp_events_halt max_string es p : has_result (fun _ => True) (on_rsp_events max_string es p).
Proof.
  assert (Hs : forall a n, has_result (fun _ => True) (std_string max_string a n)).
  { intros a n. unfold std_string. by repeat case_match. }
  revert p. induction es as [|e es IH]; intros p; cbn [on_rsp_events]; [done|].
  apply (result_bind (fun _ => True)); [|auto]. destruct e; cbn [on_rsp_event]; try done.
  - eapply result_bind; [apply Hs|done].
  - unfold on_response_status, atoi, chk_signed. by destruct (in_signed _ _).
  - unfold on_response_http_field. destruct (flen =? 0); [done|]. eapply result_bind; [apply Hs|]. intros k _.
    eapply result_bind; [apply Hs|done].
Qed.
Lemma load_halt k n mem : has_result (fun d => Z.of_nat (length d) = n /\ 0 <= k) (load k n mem).
Proof.
  unfold load. destruct ((0 <=? k) && (0 <=? n) && _) eqn:E; [|done]. cbn. unfold slice. rewrite length_take, length_drop. lia.
Qed.
Lemma store_halt k d mem : has_result (fun mem' => length mem' = length mem /\ k + Z.of_nat (length d) <= Z.of_nat (length mem)) (store k d mem).
Proof.
  unfold store. destruct ((0 <=? k) && _) eqn:E; [|done]. cbn. rewrite !length_app, length_take, length_drop. lia.
Qed.
Lemma memmove_halt dst src n mem : has_result (fun mem' => length mem' = length mem /\ 0 <= src) (memmove dst src n mem).
Proof.
  unfold memmove. eapply result_bind; [apply load_halt|]. intros d [_ Hs].
  eapply result_impl; [apply store_halt|]. by intros mem' [-> _].
Qed.
Lemma chk_halt w v : has_result (fun v' => v' = v) (chk_signed w v).
Proof. unfold chk_signed. by case_match. Qed.
(** What is left of [len] bytes at [k] after a call that begins anew; at the
    front of the buffer the result cannot be -1. *)
Lemma rsp_execute_halt max_string mem k len p : 0 <= k -> 0 <= len < 2 ^ 31 - 1 ->
  has_result (fun '(n, mem', p') => let left := i32 (u64 (len - n)) in length mem' = length mem /\
    0 <= left <= len + 1 /\ (k = 0 -> left <= len) /\ (rsp_isFinished p' = true -> left <> len))
    (rsp_execute max_string mem k len true p).
Proof.
  intros Hk Hlen. unfold rsp_execute. eapply result_bind; [apply load_halt|]. intros buffer [Hb _].
  eapply result_bind; [apply load_halt|]. intros pe _.
  eapply result_bind; [apply client_execute|]. intros [[es n] c'] [Hn Hf]. rewrite Hb in Hn.
  eapply result_bind; [apply on_rsp_events_halt|]. intros p' _. eapply result_bind; [apply memmove_halt|]. intros mem' [El Hm].
  cbn. split; [exact El|]. assert (E : i32 (u64 (len - u64 n)) = len - n).
  { unfold u64, wrapu. rewrite Zminus_mod_idemp_r. fold (wrapu 64 (len - n)). fold (u64 (len - n)).
    rewrite u64_small, i32_small by lia. done. }
  cbv beta in Hm. rewrite E. split; [lia|]. split; [lia|].
  unfold rsp_isFinished. cbn [r_parser]. intros Hfin. specialize (Hf eq_refl Hfin). lia.
Qed.

(** ** The loops *)
Section Loops.
Context (lexical_cast : list Z -> option Z) (buff_size max_string : Z).
Context {St : Type} `{StreamSpec St} (buff_pos : 0 < buff_size < 2 ^ 31 - 2) (max_small : max_string < 2 ^ 63).
Abbreviation left_in s := (length (st_pending s)).

(** A read from an open stream stores what it returns and leaves less, or
    reports the end. *)
Lemma read_halt k n mem s : 0 <= k -> 0 < u64 n -> st_open s ->
  halts (fun '(rt, mem') s' => length mem' = length mem /\ (rt <= 0 \/ (st_open s' /\ 0 < rt <= u64 n /\
    k + rt <= Z.of_nat (length mem) /\ left_in s = (Z.to_nat rt + left_in s')%nat))) (read_at k n mem s).
Proof.
  intros Hk Hn Ho. unfold read_at. destruct (decide (st_pending s = [])) as [E|E].
  - destruct (st_eof_law s (u64 n) Ho Hn E) as (r & s1 & Hr & Hle & _). mstep Hr. cbv beta iota.
    eapply halts_bind; [apply halts_lift, store_halt|]. intros mem' s2 [[El _] ->]. split; [exact El|by left].
  - destruct (st_read_law s (u64 n) Ho Hn E) as (d & s1 & Hr & Hpos & Hle & Hp & _ & Ho1). mstep Hr. cbv beta iota.
    eapply halts_bind; [apply halts_lift, store_halt|]. intros mem' s2 [[El Hd] ->]. split; [exact El|]. right.
    split_and!; [exact Ho1|lia|exact Hle|exact Hd|]. by rewrite Hp, length_app, Nat2Z.id.
Qed.
Lemma close_halt {A} (Q : option A -> St -> Prop) s : (forall s', Q None s') -> halts Q ((Stream.s_close ;; mret None) s).
Proof. intros HQ. destruct (st_close_law s) as (s' & Hc & _). mstep Hc. apply HQ. Qed.
(** The offsets at which the loops read. *)
Definition room (len : Z) : Prop := 0 <= len <= buff_size + 1 /\ len <> buff_size.
Lemma room_pos len : room len -> 0 < u64 (buff_size - len).
Proof.
  intros [Hl Hne]. destruct (decide (len < buff_size)); [rewrite u64_small by lia; lia|].
  assert (E : u64 (buff_size - len) = buff_size - len + 2 ^ 64).
  { unfold u64, wrapu. rewrite <- (Z_mod_plus_full _ 1), Z.mod_small by lia. lia. }
  lia.
Qed.
Lemma room_read len rt : room len -> 0 < rt <= u64 (buff_size - len) -> len + rt <= buff_size + 1 -> len + rt <= buff_size.
Proof. intros [Hl Hne] Hr Hle. rewrite u64_small in Hr by lia. lia. Qed.

(** What a loop leaves of [n] bytes in the buffer and in the stream. *)
Definition head_left (n : nat) (r : option (list Z * Z * HttpResponseParser)) (s : St) : Prop :=
  match r with
  | None => True
  | Some (mem, len, _) => Z.of_nat (length mem) = buff_size + 1 /\ st_open s /\ room len /\ (Z.to_nat len + left_in s <= n)%nat
  end.
Lemma rsp_head_halt fuel mem offset p s : Z.of_nat (length mem) = buff_size + 1 -> st_open s -> room offset ->
  (left_in s < fuel)%nat ->
  halts (head_left (Z.to_nat buff_size + 1 + left_in s)) (rsp_head buff_size max_string fuel mem offset p s).
Proof.
  revert mem offset p s. induction fuel as [|fuel IH]; intros mem offset p s Hm Ho Hof Hf; [lia|]. cbn [rsp_head].
  assert (Hof0 : 0 <= offset) by (destruct Hof; lia).
  eapply halts_bind; [apply read_halt; [exact Hof0|by apply room_pos|exact Ho]|]. intros [rt mem1] s1 [Hm1 Hrt].
  cbv beta iota. destruct (Z.leb_spec rt 0); [done|]. destruct Hrt as [?|(Ho1 & Hrt & Hk & Hlen)]; [lia|].
  pose proof (room_read offset rt Hof Hrt ltac:(lia)) as Hle.
  eapply halts_bind; [apply halts_lift, chk_halt|]. intros len s2 [-> ->].
  eapply halts_bind; [apply halts_lift, store_halt|]. intros mem2 s3 [[Hm2 _] ->].
  eapply halts_bind; [apply halts_lift, rsp_execute_halt; lia|]. intros [[n mem3] p1] s4 [(Hm3 & Hl & _ & _) ->].
  cbv beta iota zeta in Hl |- *. set (left := i32 (u64 (rt + offset - n))) in *. destruct (rsp_hasError p1); [done|].
  rewrite i32_small by lia. destruct (Z.eqb_spec left buff_size); [done|].
  assert (Hroom : room left) by (split; lia).
  destruct (rsp_isFinished p1); [cbn; split_and!; [lia|exact Ho1|exact Hroom|lia]|].
  eapply halts_impl; [apply (IH mem3 left p1 s1 ltac:(lia) Ho1 Hroom ltac:(lia))|].
  intros [[[mem4 len4] p4]|] s5; [|done]. cbn. intros (? & ? & ? & ?). split_and!; [done|done|done|lia].
Qed.

Lemma chunk_head_halt fuel (begin : bool) mem len p s : Z.of_nat (length mem) = buff_size + 1 -> st_open s -> room len ->
  (left_in s + (if begin then 1 else 0) < fuel)%nat ->
  halts (fun r s' => head_left (Z.to_nat len + left_in s - 1) r s' /\ (r = None \/ 0 < Z.to_nat len + left_in s)%nat)
    (chunk_head buff_size max_string fuel begin mem len p s).
Proof.
  revert begin mem len p s. induction fuel as [|fuel IH]; intros begin mem len p s Hm Ho Hroom Hf; [lia|]. cbn [chunk_head].
  assert (Hl0 : 0 <= len) by (destruct Hroom; lia).
  eapply (halts_bind (fun r s1 => match r with None => True | Some (mem1, len1) =>
    Z.of_nat (length mem1) = buff_size + 1 /\ st_open s1 /\ 0 <= len1 /\ (left_in s1 < fuel)%nat /\
    (Z.to_nat len1 + left_in s1 = Z.to_nat len + left_in s)%nat end)).
  - destruct (negb begin || (len =? 0)) eqn:Er.
    + eapply halts_bind; [apply read_halt; [exact Hl0|by apply room_pos|exact Ho]|]. intros [rt mem1] s1 [Hm1 Hrt].
      cbv beta iota. destruct (Z.leb_spec rt 0); [by apply close_halt|]. destruct Hrt as [?|(Ho1 & Hrt & Hk & Hlen)]; [lia|].
      eapply halts_bind; [apply halts_lift, chk_halt|]. intros len1 s2 [-> ->]. cbn. split_and!; [lia|exact Ho1|lia|destruct begin; lia|lia].
    + cbn. destruct begin; [|done]. split_and!; [exact Hm|exact Ho|exact Hl0|lia|done].
  - intros [[mem1 len1]|] s1; [|cbn; auto]. intros (Hm1 & Ho1 & Hl1 & Hf1 & Hlen).
    eapply halts_bind; [apply halts_lift, store_halt|]. intros mem2 s3 [[Hm2 Hst] ->]. cbn [length] in Hst.
    eapply halts_bind; [apply halts_lift, rsp_execute_halt; lia|]. intros [[n mem3] p1] s4 [(Hm3 & Hl & Hl' & Hfin) ->].
    cbv beta iota zeta in Hl, Hl', Hfin |- *. specialize (Hl' eq_refl). set (left := i32 (u64 (len1 - n))) in *.
    destruct (rsp_hasError p1); [cbn; auto|]. rewrite i32_small by lia. destruct (Z.eqb_spec left buff_size); [cbn; auto|].
    assert (Hr2 : room left) by (split; lia). destruct (rsp_isFinished p1).
    + specialize (Hfin eq_refl). cbn. split; [split_and!; [lia|exact Ho1|exact Hr2|lia]|right; lia].
    + eapply halts_impl; [apply (IH false mem3 left p1 s1 ltac:(lia) Ho1 Hr2 ltac:(rewrite Nat.add_0_r; lia))|].
      intros [[[mem4 len4] p4]|] s5; [|cbn; auto]. cbn. intros [(? & ? & ? & ?) [?|?]]; [done|].
      split; [split_and!; [done|done|done|lia]|right; lia].
Qed.
Lemma append_halt body mem n : - 2 ^ 32 <= n < 2 ^ 31 -> has_result (fun _ => 0 <= n) (append max_string body mem n).
Proof.
  intros Hn. unfold append. destruct (Z.ltb_spec (max_string - Z.of_nat (length body)) (u64 n)) as [|Hle]; [done|].
  eapply result_bind; [apply load_halt|]. intros d _. cbn. destruct (decide (0 <= n)); [done|].
  assert (E : u64 n = n + 2 ^ 64) by (unfold u64, wrapu; rewrite <- (Z_mod_plus_full _ 1), Z.mod_small by lia; lia). lia.
Qed.
Lemma resize_halt body n : has_result (fun _ => True) (resize max_string body n).
Proof. unfold resize. by case_match. Qed.
Lemma chunk_left_halt fuel mem body left s : Z.of_nat (length mem) = buff_size + 1 -> st_open s -> left < 2 ^ 31 ->
  (left_in s < fuel)%nat ->
  halts (fun r s' => match r with None => True | Some (mem', _) =>
    Z.of_nat (length mem') = buff_size + 1 /\ st_open s' /\ (left_in s' <= left_in s)%nat end)
    (chunk_left buff_size max_string fuel mem body left s).
Proof.
  revert mem body left s. induction fuel as [|fuel IH]; intros mem body left s Hm Ho Hl Hf; [lia|]. cbn [chunk_left].
  destruct (Z.ltb_spec 0 left); [|by cbn]. rewrite i32_small by lia.
  set (n := if buff_size <? left then buff_size else left). assert (Hn : 0 < n < 2 ^ 31) by (unfold n; case_match; lia).
  eapply halts_bind; [apply read_halt; [done|rewrite u64_small by lia; lia|exact Ho]|]. intros [rt mem1] s1 [Hm1 Hrt].
  cbv beta iota. destruct (Z.leb_spec rt 0); [done|]. destruct Hrt as [?|(Ho1 & Hrt & Hk & Hlen)]; [lia|].
  rewrite u64_small in Hrt by lia. eapply halts_bind; [apply halts_lift, append_halt; lia|]. intros body1 s2 [_ ->].
  eapply halts_impl; [apply (IH mem1 body1 (left - rt) s1 ltac:(lia) Ho1 ltac:(lia) ltac:(lia))|].
  intros [[mem2 body2]|] s3; [|done]. intros (? & ? & ?). split_and!; [done|done|lia].
Qed.
Lemma chunk_body_halt fuel mem len body p s : Z.of_nat (length mem) = buff_size + 1 -> st_open s -> room len ->
  (left_in s < fuel)%nat ->
  halts (fun r s' => match r with None => True | Some (mem', len', _) =>
    Z.of_nat (length mem') = buff_size + 1 /\ st_open s' /\ room len' /\
    (Z.to_nat len' + left_in s' <= Z.to_nat len + left_in s)%nat end)
    (chunk_body buff_size max_string fuel mem len body p s).
Proof.
  intros Hm Ho [Hl Hne] Hf. unfold chunk_body. set (c := content_len (r_parser p)).
  eapply halts_bind; [apply (halts_lift (fun v => v = c + 2 /\ - 2 ^ 31 <= v < 2 ^ 31))|].
  { unfold chk_signed, in_signed. case_match; [|done]. cbn. lia. }
  intros n s1 [[-> Hc] ->]. destruct (Z.leb_spec (c + 2) len) as [Hle|Hgt].
  - eapply halts_bind; [apply (halts_lift (fun _ => 0 <= c))|].
    { apply append_halt. lia. }
    intros body1 s2 [Hc0 ->]. eapply halts_bind; [apply halts_lift, chk_halt|]. intros size s3 [-> ->].
    eapply halts_bind; [apply halts_lift, memmove_halt|]. intros mem1 s4 [[Hm1 _] ->]. cbn.
    split_and!; [lia|exact Ho|split; lia|lia].
  - eapply halts_bind; [apply halts_lift, append_halt; lia|]. intros body1 s2 [_ ->].
    eapply halts_bind; [apply (halts_lift (fun v => v = c - len + 2 /\ v < 2 ^ 31))|].
    { unfold chk_signed, in_signed. case_match; [|done]. cbn. lia. }
    intros left s3 [[-> Hleft] ->].
    eapply halts_bind; [apply (chunk_left_halt fuel mem body1 (c - len + 2) s Hm Ho Hleft Hf)|].
    intros [[mem1 body2]|] s4; [|done]. intros (Hm1 & Ho1 & Hl1).
    eapply halts_bind; [apply halts_lift, resize_halt|]. intros body3 s5 [_ ->]. cbn.
    split_and!; [exact Hm1|exact Ho1|split; lia|lia].
Qed.
Lemma chunk_loop_halt fuel mem len body p s : Z.of_nat (length mem) = buff_size + 1 -> st_open s -> room len ->
  (Z.to_nat len + left_in s + 1 < fuel)%nat ->
  halts (fun _ _ => True) (chunk_loop buff_size max_string fuel mem len body p s).
Proof.
  revert mem len body p s. induction fuel as [|fuel IH]; intros mem len body p s Hm Ho Hroom Hf; [lia|].
  change (halts (fun _ _ => True) ((h ← chunk_head buff_size max_string (S fuel) true mem len p;
    match h with
    | None => mret None
    | Some (mem, len, p) =>
        r ← chunk_body buff_size max_string (S fuel) mem len body p;
        match r with
        | None => mret None
        | Some (mem, len, body) =>
            if chunks_done (r_parser p) then mret (Some (body, p)) else chunk_loop buff_size max_string fuel mem len body p
        end
    end) s)).
  eapply halts_bind; [apply (chunk_head_halt (S fuel) true mem len p s Hm Ho Hroom); lia|].
  intros [[[mem1 len1] p1]|] s1; [|by cbn]. intros [(Hm1 & Ho1 & Hr1 & Hn1) [?|Hpos]]; [done|].
  eapply halts_bind; [apply (chunk_body_halt (S fuel) mem1 len1 body p1 s1 Hm1 Ho1 Hr1); lia|].
  intros [[[mem2 len2] body2]|] s2; [|by cbn]. intros (Hm2 & Ho2 & Hr2 & Hn2).
  destruct (chunks_done (r_parser p1)); [by cbn|]. apply IH; [exact Hm2|exact Ho2|exact Hr2|lia].
Qed.

Lemma readFixSize_halt n s : 0 <= n -> st_open s -> halts (fun _ _ => True) (readFixSize n s).
Proof.
  intros Hn0 Ho. unfold readFixSize. assert (Hle : i64 n <= n).
  { destruct (decide (n < 2 ^ 63)) as [Hn|Hn].
    - rewrite i64_small by lia. lia.
    - pose proof (wraps_range 64 n ltac:(lia)). unfold i64. lia. }
  assert (Hf : i64 n <= 0 \/ (Z.to_nat (i64 n) < S (Z.to_nat n))%nat) by lia. clear Hle. revert Hf.
  generalize (S (Z.to_nat n)) as fuel. generalize (i64 n) as left. generalize (@nil Z) as acc. intros acc left fuel Hf.
  revert left acc s Ho Hf. induction fuel as [|fuel IH]; intros left acc s Ho Hf; cbn [readFixSize_loop];
    (destruct (Z.ltb_spec 0 left); [|done]); [lia|].
  destruct (decide (st_pending s = [])) as [E|E].
  - destruct (st_eof_law s left Ho ltac:(lia) E) as (r & s1 & Hr & Hle & _). mstep Hr. cbv beta iota. by zcase.
  - destruct (st_read_law s left Ho ltac:(lia) E) as (d & s1 & Hr & Hpos & Hle & _ & _ & Ho1). mstep Hr. cbv beta iota.
    zcase. apply IH; [exact Ho1|lia].
Qed.
Lemma plain_body_halt mem offset p s : st_open s ->
  halts (fun _ _ => True) (plain_body lexical_cast max_string mem offset p s).
Proof.
  intros Ho. unfold plain_body. destruct (0 <? _); [|done]. destruct (max_string <? _); [done|].
  eapply halts_bind; [apply halts_lift, load_halt|]. intros body s1 [_ ->]. destruct (0 <? _); [|done].
  eapply halts_bind; [apply readFixSize_halt; [apply (wrapu_range 64); lia|exact Ho]|]. intros [r d] s2 _. by case_match.
Qed.
End Loops.

(** ** Properties *)

(** C27: on every stream that meets the interface, reading a response ends,
    whatever bytes the peer sends and in whatever pieces: with a response, with
    null, with an exception or outside the bounds of the buffer, but never by
    reading on for ever; each turn of the loops takes a byte from the stream or
    from the buffer. *)
Theorem recv_message_total lexical_cast buff_size max_string {St : Type} `{StreamSpec St} fuel mem p (s : St) :
  0 < buff_size < 2 ^ 31 - 2 -> max_string < 2 ^ 63 -> Z.of_nat (length mem) = buff_size + 1 -> st_open s ->
  (Z.to_nat buff_size + length (st_pending s) + 2 < fuel)%nat ->
  fst (recv_message lexical_cast buff_size max_string fuel mem p s) <> NoFuel.
Proof.
  intros Hb Hmax Hm Ho Hf.
  assert (Hh : halts (fun _ _ => True) (recv_message lexical_cast buff_size max_string fuel mem p s)).
  { unfold recv_message. eapply halts_bind; [apply (rsp_head_halt buff_size max_string Hb fuel mem 0 p s Hm Ho)|].
    - split; lia.
    - lia.
    - intros [[[mem1 offset] p1]|] s1; [|by cbn]. intros (Hm1 & Ho1 & Hr1 & Hn1). destruct (chunked (r_parser p1)).
      + eapply chunk_loop_halt; [exact Hb|exact Hmax|exact Hm1|exact Ho1|exact Hr1|lia].
      + eapply plain_body_halt. exact Ho1. }
  unfold halts in Hh. by destruct (recv_message _ _ _ _ _ _ _) as [[] ?].
Qed.

(** ** Witness *)
#[local] Existing Instance zero_heap.
Definition no_parser : httpclient_parser := mkClientParser 0 0 0 0 false false false 0 0 0 0.
Definition endless : list Z :=
  bytes "HTTP/1.1 200 OK" ++ CRLF ++ bytes "Transfer-Encoding: chunked" ++ CRLF ++ CRLF ++ bytes "1" ++ CRLF ++ bytes "a".
Lemma recv_message_total_witness :
  fst (recv_message cast_decimal 100 (2 ^ 40) 200 (replicate 101 0) (new_HttpResponseParser no_parser 0)
    (mkSocket 5 true (mkWire endless [] 50))) <> NoFuel.
Proof.
  apply (recv_message_total cast_decimal 100 (2 ^ 40) 200 (replicate 101 0) (new_HttpResponseParser no_parser 0)
    (mkSocket 5 true (mkWire endless [] 50))); [lia|lia|by vm_compute|reflexivity|vm_compute; lia].
Defined.
