(* ===== verification/HttpResponses.v ===== *)
(** * Responses over the parser (cxk/http/httpclient_parser.rl.cpp, http_connection.cpp)

    What the program of [HttpClientMachine] does with a printed response, line
    by line; the response that [recvResponse] gives for the text of
    [HttpResponse_dump], and what becomes of one that arrives in pieces. *)
From S2P Require Import Prelude ByteArray Stream Zlib Http HttpServer Ragel Http11 Http11Requests HttpClientMachine HttpClientParser HttpClient HttpClientTotal.

(** ** The parts of a response *)
Definition reason_re : re := plus (Chr [(0, 9); (11, 12); (14, 255)]).
Definition text_re : re := Seq (Chr [(0, 8); (14, 31); (33, 255)]) (Rep (Chr [(0, 9); (11, 12); (14, 255)])).
Definition digits_re : re := plus (Chr digit_r).
(** The characters of a token, and the names of tokens that are none of [ws],
    upper and lower case being the same. *)
Definition token_chars : list Z :=
  Eval vm_compute in List.filter (in_ranges (alpha_r ++ digit_r ++ chars "!#$%&'*+-.^_`|~")) all_bytes.
Definition points (l : list Z) : re := Chr (map (fun c => (c, c)) l).
Definition token_re : re := Rep (points token_chars).
Definition heads (ws : list (list Z)) : list Z := remove_dups (omap (fun w => w !! 0%nat) ws).
Definition tails (c : Z) (ws : list (list Z)) : list (list Z) :=
  omap (fun w => match w with d :: w => if d =? c then Some w else None | [] => None end) ws.
Fixpoint other (fuel : nat) (ws : list (list Z)) : re :=
  match fuel with
  | O => token_re
  | S fuel =>
      let hs := heads ws in
      alts ((if existsb (fun w => match w with [] => true | _ => false end) ws then [] else [Eps]) ++
        [Seq (points (List.filter (fun c => negb (bool_decide (tolower c ∈ hs))) token_chars)) token_re] ++
        map (fun h => Seq (points (List.filter (fun c => tolower c =? h) token_chars)) (other fuel (tails h ws))) hs)
  end.
Definition s_transfer_encoding : list Z := Eval cbv in bytes "transfer-encoding".
Definition special : list (list Z) := [s_connection; s_content_length; s_transfer_encoding].
Definition other_re : re := Eval vm_compute in other 20 special.

Definition seg := (list action * re)%type.
Definition status_segs : list seg :=
  [([Mark], version_re); ([HttpVersionA], chr 32); ([Mark], digits_re); ([HttpClientMachine.StatusCode], chr 32);
   ([Mark], reason_re); ([HttpClientMachine.ReasonPhrase], chr 13); ([], chr 10)].
(** A header line behind a line that still does [before]; [last] is done with
    its value. *)
Definition field_segs (before : list action) (name : re) (v : option re) (last : list action) : list seg :=
  [(before ++ [StartField], name); ([WriteField], chr 58); ([StartValue], chr 32)] ++
  (match v with Some v => [([StartValue], v); (last ++ [WriteValue], chr 13)] | None => [([StartValue; WriteValue], chr 13)] end) ++
  [([], chr 10)].
(** The states behind a line: 43 behind a wish to close, 20 behind another. *)
Definition line_state (close : bool) : Z := if close then 43 else 20.
Definition left_over (close : bool) : list action := if close then [WriteConnectionClose] else [].

Definition response_classes : intervals := Eval vm_compute in
  classes (table_cuts client_table ++ flat_map (fun s : seg => cut_points s.2)
    (status_segs ++ field_segs [] other_re (Some text_re) [] ++ field_segs [] (lit s_content_length) (Some digits_re) [] ++
     field_segs [] (lit s_connection) (Some (Alt (lit s_close) (lit s_keep_alive))) [])).
Definition reaches (q : Z) (segs : list seg) (q' : Z) : bool :=
  bool_decide (chain client_table client_widec response_classes http11_fuel [q] segs = Some [q']).
Lemma response_classes_ok : covers response_classes && fits client_table client_widec response_classes = true.
Proof. vm_cast_no_check (eq_refl true). Qed.
Lemma status_reaches : reaches httpclient_parser_start status_segs 20 = true.
Proof. vm_cast_no_check (eq_refl true). Qed.
Lemma fields_reach : reaches 20 (field_segs [] other_re (Some text_re) []) 20 && reaches 20 (field_segs [] other_re None []) 20
  && reaches 20 (field_segs [] (lit s_connection) (Some (lit s_close)) []) 43
  && reaches 20 (field_segs [] (lit s_connection) (Some (lit s_keep_alive)) []) 20 = true.
Proof. vm_cast_no_check (eq_refl true). Qed.
Lemma length_reaches b :
  reaches (line_state b) (field_segs (left_over b) (lit s_content_length) (Some digits_re) [WriteContentLen]) 20 = true.
Proof. destruct b; vm_cast_no_check (eq_refl true). Qed.

(** *** Names *)
Lemma alts_in l r w : r ∈ l -> matches r w -> matches (alts l) w.
Proof.
  intros Hr Hm. induction l as [|a l IH]; [by apply elem_of_nil in Hr|]. apply elem_of_cons in Hr as [->|Hr].
  - destruct l; [done|]. by constructor.
  - destruct l as [|b l]; [by apply elem_of_nil in Hr|]. apply m_right. by apply IH.
Qed.
Lemma points_in l c : c ∈ l -> matches (points l) [c].
Proof.
  intros Hc. constructor. unfold in_ranges. apply existsb_exists. exists (c, c). split; [|cbn; lia].
  apply in_map_iff. exists c. split; [done|by apply list_elem_of_In].
Qed.
Lemma token_matches w : Forall (fun c => c ∈ token_chars) w -> matches token_re w.
Proof. intros Hw. apply matches_all. eapply list.Forall_impl; [exact Hw|]. intros c. apply points_in. Qed.
Lemma elem_of_heads ws h : h ∈ heads ws <-> exists w, (h :: w) ∈ ws.
Proof.
  unfold heads. rewrite elem_of_remove_dups, list_elem_of_omap. split.
  - intros ([|d w] & Hw & Hl); [done|]. cbn in Hl. simplify_eq. by exists w.
  - intros [w Hw]. by exists (h :: w).
Qed.
Lemma elem_of_tails ws h w : w ∈ tails h ws <-> (h :: w) ∈ ws.
Proof.
  unfold tails. rewrite list_elem_of_omap. split.
  - intros ([|d w'] & Hw & Hl); [done|]. destruct (Z.eqb_spec d h) as [->|]; [by simplify_eq|done].
  - intros Hw. exists (h :: w). by rewrite Z.eqb_refl.
Qed.
Lemma other_matches fuel ws w : Forall (fun c => c ∈ token_chars) w -> map tolower w ∉ ws -> matches (other fuel ws) w.
Proof.
  revert ws w. induction fuel as [|fuel IH]; intros ws w Hw Hn; [by apply token_matches|]. cbn [other].
  destruct w as [|c w].
  - apply (alts_in _ Eps); [|constructor]. apply elem_of_app. left. destruct (existsb _ ws) eqn:E; [|by left].
    apply existsb_exists in E as ([|] & Hin%list_elem_of_In & Hb); [|done]. exfalso. by apply Hn.
  - apply list.Forall_cons in Hw as [Hc Hw]. cbn [map] in Hn. destruct (decide (tolower c ∈ heads ws)) as [Hh|Hh].
    + apply (alts_in _ (Seq (points (List.filter (fun x => tolower x =? tolower c) token_chars)) (other fuel (tails (tolower c) ws)))).
      { apply elem_of_app. right. apply elem_of_app. right. apply list_elem_of_In, in_map_iff. exists (tolower c).
        split; [done|by apply list_elem_of_In]. }
      apply (m_seq _ _ [c] w).
      * apply points_in, list_elem_of_In, filter_In. split; [by apply list_elem_of_In|by apply Z.eqb_eq].
      * apply IH; [done|]. by rewrite elem_of_tails.
    + apply (alts_in _ (Seq (points (List.filter (fun x => negb (bool_decide (tolower x ∈ heads ws))) token_chars)) token_re)).
      { apply elem_of_app. right. apply elem_of_app. left. by apply list_elem_of_singleton. }
      apply (m_seq _ _ [c] w); [|by apply token_matches].
      apply points_in, list_elem_of_In, filter_In. split; [by apply list_elem_of_In|]. by rewrite bool_decide_eq_false_2.
Qed.

(** What the parts of a response must be for the program to take them apart. *)
Definition header_ok (e : list Z * list Z) : Prop :=
  e.1 <> [] /\ Forall (fun c => c ∈ token_chars) e.1 /\ ~ (fold e.1 ∈ special) /\ (e.2 = [] \/ matches text_re e.2).
Definition shown_reason (p : HttpResponse) : list Z :=
  match p_reason p with [] => HttpStatusToString (p_status p) | r => r end.
Definition status_ok (p : HttpResponse) : Prop :=
  (p_version p = 0x11 \/ p_version p = 0x10) /\ 0 <= p_status p < 2 ^ 31 /\ (p_reason p = [] \/ matches reason_re (p_reason p)).
Lemma token_no_null w : Forall (fun c => c ∈ token_chars) w -> c_str w = w.
Proof.
  induction 1 as [|c w Hc _ IH]; [done|]. cbn [c_str]. rewrite IH. destruct (Z.eqb_spec c 0) as [->|]; [|done].
  exfalso. revert Hc. apply (bool_decide_unpack _). by vm_compute.
Qed.
Lemma other_name e : header_ok e -> matches other_re e.1.
Proof.
  intros (_ & Ht & Hs & _). change other_re with (other 20 special). apply other_matches; [exact Ht|].
  unfold fold in Hs. by rewrite token_no_null in Hs.
Qed.

(** *** Callbacks *)
Abbreviation PTR_TO := HttpClientParser.PTR_TO.
Abbreviation LEN := HttpClientParser.LEN.
Section Words.
Context (max_string : Z) (buffer pre : list Z) (ws : list (list Z)) (rest : list Z).
Context (Eb : buffer = pre ++ concat ws ++ rest) (Hlen : Z.of_nat (length buffer) < 2 ^ 31) (Hmax : Z.of_nat (length buffer) <= max_string).
Abbreviation word_from := (word_from pre ws).
Abbreviation events := (on_rsp_events max_string).
Implicit Types (p : HttpResponseParser).
Lemma word_here i k w k' : word_from i k w k' ->
  exists y, PTR_TO buffer (Z.of_nat k) = w ++ y /\ LEN (Z.of_nat k) k' = Z.of_nat (length w) /\ (length w <= length buffer)%nat.
Proof. exact (word_at buffer pre ws rest Eb Hlen i k w k'). Qed.
Lemma word_string i k w k' : word_from i k w k' ->
  std_string max_string (PTR_TO buffer (Z.of_nat k)) (LEN (Z.of_nat k) k') = Ret w.
Proof. exact (std_string_at max_string buffer pre ws rest Eb Hlen Hmax i k w k'). Qed.
Lemma rsp_on_version i k w k' v es p : word_from i k w k' -> w = dump_version v -> v = 0x11 \/ v = 0x10 ->
  events (RspVersion (PTR_TO buffer (Z.of_nat k)) (LEN (Z.of_nat k) k') :: es) p = events es (on_rsp (rsp_setVersion v) p).
Proof. by intros (y & -> & -> & Hl)%word_here -> [-> | ->]. Qed.
Lemma word_next i k w k' x u : word_from i k w k' -> ws !! S i = Some (x :: u) ->
  exists y, PTR_TO buffer (Z.of_nat k) = w ++ x :: y.
Proof.
  intros (Hi & -> & _) Hx. exists (u ++ concat (drop (S (S i)) ws) ++ rest). unfold HttpClientParser.PTR_TO.
  assert (E : buffer = (pre ++ concat (take i ws)) ++ w ++ x :: u ++ concat (drop (S (S i)) ws) ++ rest).
  { rewrite Eb. rewrite <- (take_drop_middle ws i w Hi) at 1. rewrite (drop_S _ _ _ Hx), concat_app. cbn [concat app].
    rewrite <- !app_assoc. cbn [app]. by rewrite <- !app_assoc. }
  by rewrite E, Nat2Z.id, <- length_app, drop_app_length.
Qed.
Lemma on_status i k n k' x u es p : word_from i k (dec n) k' -> ws !! S i = Some (x :: u) -> ~ digit x -> 0 <= n < 2 ^ 31 ->
  events (HttpClientParser.StatusCode (PTR_TO buffer (Z.of_nat k)) (LEN (Z.of_nat k) k') :: es) p
  = events es (on_rsp (rsp_setStatus n) p).
Proof.
  intros Hw Hx Hd Hn. destruct (word_next _ _ _ _ _ _ Hw Hx) as [y ->]. cbn [on_rsp_events on_rsp_event]. unfold on_response_status.
  destruct (dec_spec n ltac:(lia)) as (Hdd & Hu & Hne). rewrite atoi_digits; [by rewrite Hu|done|done| |by rewrite Hu].
  by intros c' [= <-].
Qed.
Lemma on_reason i k w k' es p : word_from i k w k' ->
  events (ReasonPhrase (PTR_TO buffer (Z.of_nat k)) (LEN (Z.of_nat k) k') :: es) p = events es (on_rsp (rsp_setReason w) p).
Proof. intros Hw. cbn [on_rsp_events on_rsp_event]. unfold on_response_reason. by rewrite (word_string _ _ _ _ Hw). Qed.
Lemma on_header i j k k' w h h' v es p : word_from i k w k' -> word_from j h v h' -> w <> [] ->
  events (RspField (PTR_TO buffer (Z.of_nat k)) (LEN (Z.of_nat k) k') (PTR_TO buffer (Z.of_nat h)) (LEN (Z.of_nat h) h') :: es) p
  = events es (on_rsp (rsp_setHeader w v) p).
Proof.
  intros Hw Hv Hne. cbn [on_rsp_events on_rsp_event]. unfold on_response_http_field.
  destruct (Z.eqb_spec (LEN (Z.of_nat k) k') 0) as [E|_].
  - apply word_here in Hw as (y & _ & El & _). rewrite El in E. by destruct w.
  - by rewrite (word_string _ _ _ _ Hw), (word_string _ _ _ _ Hv).
Qed.
End Words.

(** *** Lines *)
Definition piece (sg : seg) (w : list Z) : Prop :=
  matches sg.2 w /\ w <> [] /\ bounded sg.2 = true /\ existsb is_done sg.1 = false.
Lemma rsp_chr_piece acts c : bounded (chr c) = true -> existsb is_done acts = false -> piece (acts, chr c) [c].
Proof. intros. split_and!; [apply (matches_lit [c])|done..]. Qed.
Lemma rsp_word_piece acts r w : matches r w -> w <> [] -> bounded r = true -> existsb is_done acts = false -> piece (acts, r) w.
Proof. intros. by split_and!. Qed.
Lemma rsp_pieces_text segs ws : Forall2 piece segs ws -> Forall2 (seg_text is_done) segs ws.
Proof.
  intros HF. refine (list.Forall2_impl _ _ _ _ HF _). intros [acts r] w (Hm & Hne & Hb & Hd).
  repeat split; [exact Hm|exact Hne|exact (matches_bytes r w Hb Hm)|exact Hd].
Qed.

#[local] Opaque client_table response_classes.
Section Lines.
Context (max_string : Z) (buffer pre rest : list Z).
Context (Hlen : Z.of_nat (length buffer) < 2 ^ 31) (Hmax : Z.of_nat (length buffer) <= max_string).
Abbreviation run := (exec client_table client_widec (client_act buffer) is_done).
(** The offsets of a parser lie in the buffer, as [check] asks at the end. *)
Definition marks_ok (c : httpclient_parser) : Prop :=
  mark c < Z.of_nat (length buffer) /\ field_start c < Z.of_nat (length buffer) /\ field_len c <= Z.of_nat (length buffer).
Definition same_message (c c' : httpclient_parser) : Prop :=
  chunked c' = chunked c /\ nread c' = nread c /\ body_start c' = body_start c /\ (marks_ok c -> marks_ok c').
(** The program from [q] over [text]: it stands in [q'], and the callbacks
    change the response by [f]. *)
Definition reads (q q' : Z) (text : list Z) (f : HttpResponse -> HttpResponse) : Prop :=
  forall c es, exists c' es',
    run q (length pre) (text ++ rest) (c, es) = run q' (length (pre ++ text)) rest (c', es ++ es') /\
    same_message c c' /\ forall p, on_rsp_events max_string es' p = Ret (on_rsp f p).
Lemma rsp_reads_intro q q' segs ws f :
  reaches q segs q' = true -> Forall2 piece segs ws ->
  (forall c es, exists c' es', chain_acts (client_act buffer) segs ws (length pre) (c, es) = Ret (c', es ++ es') /\
    same_message c c' /\ forall p, on_rsp_events max_string es' p = Ret (on_rsp f p)) ->
  reads q q' (concat ws) f.
Proof.
  intros Hr%bool_decide_eq_true HF Hx c es. destruct (Hx c es) as (c' & es' & Ha & Hs & He). exists c', es'. split; [|done].
  pose proof response_classes_ok as [Hcov Hfit]%andb_true_iff.
  destruct (chain_run client_table client_widec response_classes http11_fuel Hcov Hfit (client_act buffer)
    is_done [q] segs [q'] q ws rest (length pre) (c, es) (c', es ++ es') Hr) as (q2 & ->%list_elem_of_singleton & E);
    [by apply list_elem_of_singleton|by apply rsp_pieces_text|exact Ha|by rewrite E, length_app].
Qed.
End Lines.

Ltac pieces :=
  repeat match goal with
  | |- Forall2 _ (_ :: _) _ => apply List.Forall2_cons
  | |- Forall2 _ [] _ => apply List.Forall2_nil
  end; first [by apply rsp_chr_piece | by apply rsp_word_piece | idtac].
Lemma plus_all rs w : w <> [] -> Forall (fun c => in_ranges rs c = true) w -> matches (plus (Chr rs)) w.
Proof.
  intros Hne Hw. destruct w as [|c w]; [done|]. apply list.Forall_cons in Hw as [Hc Hw].
  apply (m_seq _ _ [c] w); [by constructor|]. apply matches_all. eapply list.Forall_impl; [exact Hw|]. intros x Hx. by constructor.
Qed.
Lemma dec_matches n : 0 <= n -> matches digits_re (dec n) /\ dec n <> [].
Proof.
  intros Hn. destruct (dec_spec n Hn) as (Hd & _ & Hne). split; [|exact Hne]. apply plus_all; [exact Hne|].
  eapply list.Forall_impl; [exact Hd|]. intros c Hc. unfold digit in Hc. unfold in_ranges. cbn. lia.
Qed.
Lemma reason_ne w : matches reason_re w -> w <> [].
Proof. intros Hm ->. by apply nullable_spec in Hm. Qed.
Lemma text_ne w : matches text_re w -> w <> [].
Proof. intros Hm ->. by apply nullable_spec in Hm. Qed.
Lemma shown_reason_ok p : status_ok p -> matches reason_re (shown_reason p).
Proof.
  intros (_ & _ & Hr). unfold shown_reason. destruct (p_reason p) eqn:E; [|by destruct Hr].
  unfold HttpStatusToString. destruct (List.find _ _) as [e|] eqn:Ef; [|apply rmatch_spec; by vm_compute].
  apply List.find_some in Ef as [Hin _].
  assert (H : forallb (fun e => rmatch reason_re e.2) HTTP_STATUS_MAP = true) by (vm_compute; reflexivity).
  rewrite forallb_forall in H. by apply rmatch_spec, H.
Qed.
Definition status_words (p : HttpResponse) : list (list Z) :=
  [dump_version (p_version p); [32]; dec (p_status p); [32]; shown_reason p; [13]; [10]].
Definition with_start (p d : HttpResponse) : HttpResponse :=
  rsp_setReason (shown_reason p) (rsp_setStatus (p_status p) (rsp_setVersion (p_version p) d)).
Lemma status_words_text p : status_ok p -> concat (status_words p) = status_line p ++ CRLF.
Proof.
  intros (_ & Hs & _). unfold status_words, status_line, shown_reason, CRLF. unfold u32. rewrite wrapu_id by lia.
  destruct (p_reason p); cbn [concat app]; rewrite <- !app_assoc; cbn [app]; by rewrite <- ?app_assoc.
Qed.
Lemma status_pieces p : status_ok p -> Forall2 piece status_segs (status_words p).
Proof.
  intros Hp. pose proof (shown_reason_ok p Hp) as Hr. pose proof (reason_ne _ Hr). destruct Hp as (Hv & Hs & _).
  pose proof (version_matches _ Hv). assert (dump_version (p_version p) <> []) by (by destruct Hv as [-> | ->]).
  destruct (dec_matches (p_status p)) as [? ?]; [lia|]. unfold status_segs, status_words. pieces.
Qed.
(** The parser behind a line, whose text gives the length [Eb]. *)
Ltac kept Eb := split; [reflexivity|]; split; [reflexivity|]; split; [reflexivity|]; intros (Hmark & Hstart & Hfl);
  apply (f_equal length) in Eb; repeat (progress (rewrite ?length_app in Eb; cbn [concat app length] in Eb));
  unfold marks_ok, HttpClientParser.LEN;
  cbn [mark field_start field_len with_mark with_field with_status with_content_len with_close length];
  rewrite ?u64_small by lia; repeat split; lia.
Ltac acts := cbn [app chain_acts run_acts client_act]; unfold set, emit;
  cbn [fst snd mbind outcome_bind mark field_start field_len with_mark with_field with_status with_content_len with_close];
  rewrite <- ?app_assoc; reflexivity.
Lemma status_reads max_string buffer pre rest p :
  Z.of_nat (length buffer) < 2 ^ 31 -> Z.of_nat (length buffer) <= max_string ->
  status_ok p -> buffer = pre ++ (status_line p ++ CRLF) ++ rest ->
  reads max_string buffer pre rest httpclient_parser_start 20 (status_line p ++ CRLF) (with_start p).
Proof.
  intros Hlen Hmax Hp Eb. rewrite <- status_words_text in * by done.
  apply (rsp_reads_intro _ _ _ _ _ _ _ _ _ status_reaches (status_pieces p Hp)). intros c es.
  unfold status_segs, status_words in *. eexists _, _. split; [acts|].
  split; [kept Eb|]. intros d. cbn [app].
  erewrite (rsp_on_version _ _ _ _ _ Eb Hlen 0); [|word|reflexivity|apply Hp].
  erewrite (on_status _ _ _ _ _ Eb 2); [|word|reflexivity|unfold digit; lia|apply Hp].
  erewrite (on_reason _ _ _ _ _ Eb Hlen Hmax 4); [|word]. reflexivity.
Qed.

Definition field_words (e : list Z * list Z) : list (list Z) :=
  [e.1; [58]; [32]] ++ (if has e.2 then [e.2] else []) ++ [[13]; [10]].
Lemma field_words_text e : concat (field_words e) = header_line e.1 e.2.
Proof. exact (header_words_text e). Qed.
Lemma field_reads max_string buffer pre rest q q' (b : bool) last e name v :
  Z.of_nat (length buffer) < 2 ^ 31 -> Z.of_nat (length buffer) <= max_string ->
  reaches q (field_segs (left_over b) name (if has e.2 then Some v else None) last) q' = true ->
  last = [] \/ last = [WriteContentLen] /\ e.2 <> [] ->
  matches name e.1 -> e.1 <> [] -> bounded name = true -> matches v e.2 \/ e.2 = [] -> bounded v = true ->
  buffer = pre ++ header_line e.1 e.2 ++ rest ->
  reads max_string buffer pre rest q q' (header_line e.1 e.2) (rsp_setHeader e.1 e.2).
Proof.
  intros Hlen Hmax Hr Hlast Hn Hne Hbn Hv Hbv Eb. rewrite <- field_words_text in * at 1.
  assert (HF : Forall2 piece (field_segs (left_over b) name (if has e.2 then Some v else None) last) (field_words e)).
  { unfold field_segs, field_words, left_over.
    destruct e as [k [|x w]]; cbn [fst snd has app] in *; (destruct Hlast as [->|[-> ?]]; [|try done]); destruct b;
      (destruct Hv as [Hv|Hv]; [|try discriminate Hv]); cbn [app]; pieces. }
  apply (rsp_reads_intro _ _ _ _ _ _ _ _ _ Hr HF). intros c es. clear Hr HF.
  unfold field_segs, field_words, left_over in *. destruct e as [k [|x w]]; cbn [fst snd has app] in *;
    (destruct Hlast as [->|[-> ?]]; [|try done]); destruct b; (eexists _, _; split; [acts|]).
  all: split; [kept Eb|]; intros d; first
    [ erewrite (on_header _ _ _ [k; [58]; [32]; x :: w; [13]; [10]] _ Eb Hlen Hmax 0 3); [|word|word|exact Hne]; reflexivity
    | erewrite (on_header _ _ _ [k; [58]; [32]; []; [13]; [10]] _ Eb Hlen Hmax 0 3); [|word|word|exact Hne]; reflexivity ].
Qed.
Lemma rsp_end_run buffer rest b p c es :
  exists c' e, exec client_table client_widec (client_act buffer) is_done (line_state b) p (CRLF ++ rest) (c, es)
    = Ret (httpclient_parser_first_final, (p + 2)%nat, (c', es ++ [e])) /\
    chunked c' = chunked c /\ nread c' = nread c /\ body_start c' = Z.of_nat p + 2 /\ (marks_ok buffer c -> marks_ok buffer c') /\
    forall max_string d, on_rsp_events max_string [e] d = Ret d.
Proof.
  cbn [CRLF app exec].
  assert (next client_table client_widec (line_state b) 13 = (left_over b, 3)) as -> by
    (destruct b; [vm_cast_no_check (eq_refl (left_over true, 3))|vm_cast_no_check (eq_refl (left_over false, 3))]).
  assert (next client_table client_widec 3 10 = ([Done], httpclient_parser_first_final)) as -> by
    (vm_cast_no_check (eq_refl ([Done], httpclient_parser_first_final))).
  rewrite (Nat.add_succ_r p 1), Nat.add_1_r.
  destruct b; cbn [left_over Z.eqb httpclient_parser_first_final run_acts client_act]; unfold set, emit;
    cbn [fst snd mbind outcome_bind existsb is_done orb exec run_acts client_act Z.eqb];
    (eexists _, _; split; [reflexivity|]; split; [reflexivity|]; split; [reflexivity|]; split; [cbn; lia|];
     split; [by intros (? & ? & ?)|done]).
Qed.

Lemma on_rsp_events_app max_string a b p :
  on_rsp_events max_string (a ++ b) p = (p' ← on_rsp_events max_string a p; on_rsp_events max_string b p').
Proof.
  revert p. induction a as [|e a IH]; intros p; [done|]. cbn [on_rsp_events app].
  destruct (on_rsp_event max_string e p); [apply IH|done..].
Qed.

(** ** Texts made of lines *)
Section Texts.
Context (max_string : Z).
(** [text] is read from [q] to [q'] wherever it stands. *)
Definition text_reads (q q' : Z) (text : list Z) (f : HttpResponse -> HttpResponse) : Prop :=
  forall buffer pre rest, Z.of_nat (length buffer) < 2 ^ 31 -> Z.of_nat (length buffer) <= max_string ->
    buffer = pre ++ text ++ rest -> reads max_string buffer pre rest q q' text f.
Lemma rsp_text_nil q : text_reads q q [] (fun d => d).
Proof.
  intros buffer pre rest _ _ _ c es. exists c, []. rewrite !app_nil_r. split; [done|]. split; [unfold same_message; auto|]. intros p. by destruct p.
Qed.
Lemma rsp_text_app q1 q2 q3 t1 t2 f g : text_reads q1 q2 t1 f -> text_reads q2 q3 t2 g -> text_reads q1 q3 (t1 ++ t2) (fun d => g (f d)).
Proof.
  intros H1 H2 buffer pre rest Hlen Hmax Eb c es.
  destruct (H1 buffer pre (t2 ++ rest) Hlen Hmax ltac:(by rewrite Eb, <- app_assoc) c es) as (c1 & es1 & E1 & (A1 & A2 & A3 & A4) & F1).
  destruct (H2 buffer (pre ++ t1) rest Hlen Hmax ltac:(by rewrite Eb, <- !app_assoc) c1 (es ++ es1)) as (c2 & es2 & E2 & (B1 & B2 & B3 & B4) & F2).
  exists c2, (es1 ++ es2). split; [|split].
  - rewrite <- app_assoc, E1, E2. by rewrite <- !app_assoc.
  - split; [congruence|]. split; [congruence|]. split; [congruence|auto].
  - intros p. rewrite on_rsp_events_app, F1. cbn [mbind outcome_bind]. by rewrite F2.
Qed.
Lemma text_field q q' b last e name v :
  reaches q (field_segs (left_over b) name (if has e.2 then Some v else None) last) q' = true ->
  last = [] \/ last = [WriteContentLen] /\ e.2 <> [] ->
  matches name e.1 -> e.1 <> [] -> bounded name = true -> matches v e.2 \/ e.2 = [] -> bounded v = true ->
  text_reads q q' (header_line e.1 e.2) (rsp_setHeader e.1 e.2).
Proof. intros. intros buffer pre rest Hlen Hmax Eb. by eapply field_reads. Qed.
Lemma text_status p : status_ok p -> text_reads httpclient_parser_start 20 (status_line p ++ CRLF) (with_start p).
Proof. intros Hp buffer pre rest Hlen Hmax Eb. by apply status_reads. Qed.
Definition with_headers (hs : MapType) (d : HttpResponse) : HttpResponse := foldl (fun d e => rsp_setHeader e.1 e.2 d) d hs.
Lemma text_headers hs : Forall header_ok hs -> text_reads 20 20 (header_lines hs) (with_headers hs).
Proof.
  pose proof fields_reach as [[[H1 H2]%andb_true_iff _]%andb_true_iff _]%andb_true_iff.
  induction 1 as [|e hs He _ IH]; [apply rsp_text_nil|]. unfold header_lines. cbn [map concat].
  apply (rsp_text_app 20 20 20 _ _ (rsp_setHeader e.1 e.2) (with_headers hs)); [|exact IH].
  destruct (e.2) as [|x w] eqn:E; destruct e as [k v]; cbn [fst snd] in *; subst v; pose proof (other_name _ He) as Hn;
    destruct He as (Hne & _ & _ & Ht).
  - exact (text_field 20 20 false [] (k, []) other_re text_re H2 (or_introl eq_refl) Hn Hne eq_refl (or_intror eq_refl) eq_refl).
  - destruct Ht as [|Ht]; [done|].
    exact (text_field 20 20 false [] (k, x :: w) other_re text_re H1 (or_introl eq_refl) Hn Hne eq_refl (or_introl Ht) eq_refl).
Qed.
(** The lines of [HttpResponse_dump]. *)
Definition all_headers (p : HttpResponse) : MapType :=
  shown_headers (p_websocket p) (p_headers p) ++ connection_header (p_websocket p) (p_close p) ++ length_header (p_body p).
Definition response_head (p : HttpResponse) : list Z := (status_line p ++ CRLF) ++ header_lines (all_headers p).
Lemma response_dump p : HttpResponse_dump p = response_head p ++ CRLF ++ p_body p.
Proof.
  unfold HttpResponse_dump, response_head, all_headers. rewrite dump_connection_lines, dump_headers_lines, dump_body_lines.
  rewrite !header_lines_app. by rewrite <- !app_assoc.
Qed.
Lemma text_connection p : exists b, text_reads 20 (line_state b) (header_lines (connection_header (p_websocket p) (p_close p)))
  (with_headers (connection_header (p_websocket p) (p_close p))).
Proof.
  pose proof fields_reach as [[_ H1]%andb_true_iff H2]%andb_true_iff.
  unfold connection_header, header_lines. destruct (p_websocket p); [exists false; apply rsp_text_nil|].
  cbn [map concat with_headers foldl fst snd]. rewrite app_nil_r. exists (p_close p). destruct (p_close p); cbn [line_state].
  - refine (text_field 20 43 false [] (s_connection, s_close) (lit s_connection) (lit s_close) H1 (or_introl eq_refl) (matches_lit _) _
      eq_refl (or_introl (matches_lit _)) eq_refl). discriminate.
  - refine (text_field 20 20 false [] (s_connection, s_keep_alive) (lit s_connection) (lit s_keep_alive) H2 (or_introl eq_refl)
      (matches_lit _) _ eq_refl (or_introl (matches_lit _)) eq_refl). discriminate.
Qed.
Lemma text_length b body : exists b', text_reads (line_state b) (line_state b') (header_lines (length_header body))
  (with_headers (length_header body)).
Proof.
  pose proof (length_reaches b) as Hb.
  unfold length_header, header_lines. destruct body as [|x body]; [exists b; apply rsp_text_nil|].
  cbn [map concat with_headers foldl fst snd]. rewrite app_nil_r. exists false.
  destruct (dec_matches (Z.of_nat (length (x :: body)))) as [Hd Hne]; [lia|].
  refine (text_field _ _ b [WriteContentLen] (s_content_length, dec (Z.of_nat (length (x :: body)))) (lit s_content_length) digits_re
    _ (or_intror (conj eq_refl Hne)) (matches_lit _) _ eq_refl (or_introl Hd) eq_refl); [|discriminate].
  change (line_state false) with 20. cbn [snd]. destruct (dec _) as [|y d]; [destruct (Hne eq_refl)|]. cbn [has]. exact Hb.
Qed.
Definition response_ok (p : HttpResponse) : Prop := status_ok p /\ Forall header_ok (p_headers p).
Lemma text_head p : response_ok p -> exists b, text_reads httpclient_parser_start (line_state b) (response_head p)
  (fun d => with_headers (all_headers p) (with_start p d)).
Proof.
  intros [Hp Hh]. destruct (text_connection p) as [b Hc]. destruct (text_length b (p_body p)) as [b' Hl]. exists b'.
  unfold response_head. apply (rsp_text_app _ 20 _ _ _ (with_start p) (with_headers (all_headers p))); [by apply text_status|].
  assert (Ht : text_reads 20 (line_state b') (header_lines (shown_headers (p_websocket p) (p_headers p))
    ++ header_lines (connection_header (p_websocket p) (p_close p)) ++ header_lines (length_header (p_body p)))
    (fun d => with_headers (length_header (p_body p)) (with_headers (connection_header (p_websocket p) (p_close p))
      (with_headers (shown_headers (p_websocket p) (p_headers p)) d)))).
  { apply (rsp_text_app 20 20 _ _ _ _ (fun d => with_headers (length_header (p_body p)) (with_headers (connection_header (p_websocket p) (p_close p)) d))).
    - apply text_headers. rewrite list.Forall_forall in *. intros e He. apply Hh. apply list_elem_of_In, filter_In in He as [He _].
      by apply list_elem_of_In.
    - by apply (rsp_text_app 20 (line_state b)). }
  unfold all_headers. rewrite !header_lines_app. intros buffer pre rest Hlen Hmax Eb c es.
  destruct (Ht buffer pre rest Hlen Hmax Eb c es) as (c' & es' & E & Hs & F). exists c', es'. split; [exact E|]. split; [exact Hs|].
  intros d. rewrite F. unfold on_rsp, with_headers. cbv beta. by rewrite !foldl_app.
Qed.
End Texts.

(** *** Calls of [execute] *)
Section Calls.
Context (max_string : Z).
#[local] Opaque httpclient_parser_first_final.
(** The text [t] of a header, from its start to an end of a line, says whether
    the body is chunked ([k]). *)
Definition head_reads (q : bool) (t : list Z) (k : bool) (f : HttpResponse -> HttpResponse) : Prop :=
  forall buffer rest c, Z.of_nat (length buffer) < 2 ^ 31 -> Z.of_nat (length buffer) <= max_string -> buffer = t ++ rest ->
  chunked c = false -> exists c' es,
    exec client_table client_widec (client_act buffer) is_done httpclient_parser_start 0 (t ++ rest) (c, [])
    = exec client_table client_widec (client_act buffer) is_done (line_state q) (length t) rest (c', es) /\
    chunked c' = k /\ nread c' = nread c /\ (marks_ok buffer c -> marks_ok buffer c') /\
    forall p, on_rsp_events max_string es p = Ret (on_rsp f p).
Lemma text_head_reads q t f : text_reads max_string httpclient_parser_start (line_state q) t f -> head_reads q t false f.
Proof.
  intros Ht buffer rest c Hlen Hmax Eb Hc. destruct (Ht buffer [] rest Hlen Hmax Eb c []) as (c' & es & E & (A1 & A2 & _ & A4) & F).
  exists c', es. by rewrite A1, A2, Hc.
Qed.
(** A call over a text that ends a header; [b] is behind it. *)
Lemma execute_head q t k f b q' c : head_reads q t k f -> c = httpclient_parser_init q' ->
  Z.of_nat (length (t ++ CRLF ++ b)) < 2 ^ 31 -> Z.of_nat (length (t ++ CRLF ++ b)) <= max_string ->
  exists es c', httpclient_parser_execute (t ++ CRLF ++ b) 0 0 c = Ret (es, Z.of_nat (length t) + 2, c') /\
    (forall p, on_rsp_events max_string es p = Ret (on_rsp f p)) /\ chunked c' = k /\ cs c' = httpclient_parser_first_final.
Proof.
  intros Ht -> Hlen Hmax. set (buffer := t ++ CRLF ++ b) in *. unfold httpclient_parser_execute.
  set (c1 := with_field 0 0 _).
  destruct (Ht buffer (CRLF ++ b) c1 Hlen Hmax eq_refl eq_refl) as (c2 & es & E & A1 & A2 & A4 & F).
  destruct (rsp_end_run buffer b q (length t) c2 es) as (c3 & e & E3 & B1 & B2 & B3 & B4 & F3).
  assert (Hpos : (length t + 2 <= length buffer)%nat) by (unfold buffer, CRLF; rewrite !length_app; cbn; lia).
  rewrite (proj2 (Nat.ltb_ge _ _)) by lia. rewrite (proj2 (Z.leb_gt _ _)) by lia. cbn [orb negb Z.eqb].
  change (cs c1) with httpclient_parser_start. rewrite drop_0. fold buffer in E. rewrite E, E3.
  cbn [mbind outcome_bind]. assert (Hn : nread c3 = 0) by (rewrite B2, A2; reflexivity).
  destruct (B4 (A4 ltac:(unfold marks_ok, c1; cbn; lia))) as (M1 & M2 & M3).
  cbn [nread body_start mark field_len field_start with_nread with_cs]. rewrite Hn, B3, Nat.sub_0_r.
  rewrite !(proj2 (Z.leb_le _ _)) by lia. rewrite !(proj2 (Z.ltb_lt _ _)) by lia. cbn [negb andb].
  replace (0 + Z.of_nat (length t + 2)) with (Z.of_nat (length t) + 2) by lia.
  eexists _, _. split; [reflexivity|]. split; [|split; [cbn; by rewrite B1, A1|reflexivity]].
  intros p. rewrite on_rsp_events_app, F. apply F3.
Qed.
(** The call over the memory, when the program stops behind [t] and a line end. *)
Lemma rsp_execute_split t b tail_ p es c' p1 : Z.of_nat (length (t ++ CRLF ++ b)) < 2 ^ 31 ->
  httpclient_parser_execute (t ++ CRLF ++ b) 0 0 (httpclient_parser_init (r_parser p)) = Ret (es, Z.of_nat (length t) + 2, c') ->
  on_rsp_events max_string es p = Ret p1 ->
  exists mem', rsp_execute max_string ((t ++ CRLF ++ b) ++ 0 :: tail_) 0 (Z.of_nat (length (t ++ CRLF ++ b))) true p
      = Ret (Z.of_nat (length t) + 2, b ++ mem', mkRspParser c' (r_data p1) (r_error p1)) /\
    length (b ++ mem') = length ((t ++ CRLF ++ b) ++ 0 :: tail_).
Proof.
  intros Hlen E F. set (buffer := t ++ CRLF ++ b) in *. unfold rsp_execute.
  assert (El : length buffer = (length t + 2 + length b)%nat) by (unfold buffer, CRLF; rewrite !length_app; cbn; lia).
  assert (L1 : load 0 (Z.of_nat (length buffer)) (buffer ++ 0 :: tail_) = Ret buffer).
  { unfold load. rewrite !(proj2 (Z.leb_le _ _)) by (rewrite ?length_app; lia). cbn [andb]. unfold slice.
    by rewrite Nat2Z.id, drop_0, take_app_length. }
  assert (L2 : load (0 + Z.of_nat (length buffer)) 1 (buffer ++ 0 :: tail_) = Ret [0]).
  { unfold load. rewrite !(proj2 (Z.leb_le _ _)) by (rewrite ?length_app; cbn; lia). cbn [andb]. unfold slice.
    by rewrite Z.add_0_l, Nat2Z.id, drop_app_length. }
  rewrite L1. cbn [mbind outcome_bind]. rewrite L2. cbn [mbind outcome_bind nth]. rewrite E. cbn [mbind outcome_bind].
  rewrite F. cbn [mbind outcome_bind]. rewrite Z.add_0_l, !u64_small by lia.
  assert (M : memmove 0 (Z.of_nat (length t) + 2) (Z.of_nat (length buffer) - (Z.of_nat (length t) + 2)) (buffer ++ 0 :: tail_)
    = Ret (b ++ drop (length b) (buffer ++ 0 :: tail_))).
  { unfold memmove, load, store. rewrite !(proj2 (Z.leb_le _ _)) by (rewrite ?length_app; cbn; lia). cbn [andb mbind outcome_bind].
    assert (Es : slice (Z.to_nat (Z.of_nat (length t) + 2)) (Z.to_nat (Z.of_nat (length buffer) - (Z.of_nat (length t) + 2)))
      (buffer ++ 0 :: tail_) = b).
    { replace (Z.to_nat (Z.of_nat (length t) + 2)) with (length (t ++ CRLF)) by (rewrite length_app; cbn; lia).
      replace (Z.to_nat (_ - _)) with (length b) by lia. unfold slice, buffer.
      rewrite (app_assoc t), <- !app_assoc, (app_assoc t), drop_app_length. apply take_app_length. }
    rewrite Es. rewrite !(proj2 (Z.leb_le _ _)) by (rewrite ?length_app; cbn; lia). reflexivity. }
  rewrite M. cbn [mbind outcome_bind]. eexists. split; [reflexivity|]. rewrite !length_app, length_drop, length_app. cbn [length]. lia.
Qed.
Lemma rsp_execute_head q t k f b tail_ p : head_reads q t k f ->
  Z.of_nat (length (t ++ CRLF ++ b)) < 2 ^ 31 -> Z.of_nat (length (t ++ CRLF ++ b)) <= max_string -> r_error p = 0 ->
  exists mem' p', rsp_execute max_string ((t ++ CRLF ++ b) ++ 0 :: tail_) 0 (Z.of_nat (length (t ++ CRLF ++ b))) true p
      = Ret (Z.of_nat (length t) + 2, b ++ mem', p') /\
    r_data p' = f (r_data p) /\ rsp_hasError p' = false /\ rsp_isFinished p' = true /\ chunked (r_parser p') = k /\
    r_error p' = 0 /\ length (b ++ mem') = length ((t ++ CRLF ++ b) ++ 0 :: tail_).
Proof.
  intros Ht Hlen Hmax He. destruct (execute_head q t k f b (r_parser p) _ Ht eq_refl Hlen Hmax) as (es & c' & E & F & Hc & Hq).
  destruct (rsp_execute_split t b tail_ p es c' _ Hlen E (F p)) as (mem' & Ex & Em). exists mem'. eexists. split; [exact Ex|].
  split; [reflexivity|]. unfold rsp_hasError, rsp_isFinished, httpclient_parser_has_error, httpclient_parser_is_finished.
  cbn [r_error r_parser on_rsp]. rewrite He, Hq. by split_and!.
Qed.
End Calls.

(** ** Receiving a response *)
Section Receive.
Context (lexical_cast : list Z -> option Z) (buff_size max_string : Z).
Context {St : Type} `{StreamSpec St} (buff_pos : 0 < buff_size < 2 ^ 31).

Lemma rsp_head_run q t k f b mem p fuel s s1 : head_reads max_string q t k f ->
  s_read buff_size s = (Ret (Z.of_nat (length (t ++ CRLF ++ b)), t ++ CRLF ++ b), s1) ->
  Z.of_nat (length mem) = buff_size + 1 -> Z.of_nat (length (t ++ CRLF ++ b)) <= buff_size ->
  Z.of_nat (length (t ++ CRLF ++ b)) <= max_string -> r_error p = 0 ->
  exists mem' p', rsp_head buff_size max_string (S fuel) mem 0 p s = (Ret (Some (b ++ mem', Z.of_nat (length b), p')), s1) /\
    r_data p' = f (r_data p) /\ chunked (r_parser p') = k /\ r_error p' = 0 /\ Z.of_nat (length (b ++ mem')) = buff_size + 1.
Proof.
  intros Ht Hread Hmem Hlen Hmax He.
  assert (El : length (t ++ CRLF ++ b) = (length t + 2 + length b)%nat) by (unfold CRLF; rewrite !length_app; cbn; lia).
  destruct (rsp_execute_head max_string q t k f b (drop (S (length (t ++ CRLF ++ b))) mem) p Ht ltac:(lia) Hmax He)
    as (mem' & p' & E & Hd & Herr & Hfin & Hc & He' & Em).
  set (buffer := t ++ CRLF ++ b) in *. cbn [rsp_head].
  assert (S1 : store 0 buffer mem = Ret (buffer ++ drop (length buffer) mem)).
  { unfold store. rewrite !(proj2 (Z.leb_le _ _)) by lia. reflexivity. }
  assert (R : read_at 0 (buff_size - 0) mem s = (Ret (Z.of_nat (length buffer), buffer ++ drop (length buffer) mem), s1)).
  { unfold read_at. rewrite Z.sub_0_r, u64_small by lia. mstep Hread. cbv beta iota. by rewrite S1. }
  mstep R. cbv beta iota. rewrite (proj2 (Z.leb_gt _ _)) by lia. rewrite Z.add_0_r, chk_signed_Ret by lia. msimpl.
  assert (S2 : store (Z.of_nat (length buffer)) [0] (buffer ++ drop (length buffer) mem) = Ret (buffer ++ 0 :: drop (S (length buffer)) mem)).
  { unfold store. rewrite !(proj2 (Z.leb_le _ _)) by (rewrite ?length_app, ?length_drop; cbn [length]; lia). cbn [andb].
    rewrite Nat2Z.id, take_app_length, drop_app_add, drop_drop. cbn [length app]. by rewrite Nat.add_1_r. }
  rewrite S2. msimpl. rewrite E. msimpl. rewrite Herr, Hfin.
  assert (Eo : i32 (u64 (Z.of_nat (length buffer) - (Z.of_nat (length t) + 2))) = Z.of_nat (length b)).
  { rewrite u64_small, i32_small by lia. lia. }
  rewrite Eo, i32_small by lia. rewrite (proj2 (Z.eqb_neq _ _)) by lia. eexists _, _. split; [reflexivity|].
  rewrite Em, length_app. cbn [length]. rewrite length_drop. split_and!; try done. lia.
Qed.
(** The body behind a header, of which [b1] has been read. *)
Lemma plain_body_run b1 b2 more mem p s : st_open s -> st_pending s = b2 ++ more ->
  rsp_getContentLength lexical_cast p = Z.of_nat (length (b1 ++ b2)) -> Z.of_nat (length (b1 ++ b2)) <= max_string ->
  Z.of_nat (length (b1 ++ b2)) < 2 ^ 31 ->
  exists s', plain_body lexical_cast max_string (b1 ++ mem) (Z.of_nat (length b1)) p s = (Ret (Some (b1 ++ b2, p)), s').
Proof.
  intros Ho Hp Hn Hmax Hlen. unfold plain_body. rewrite Hn. rewrite length_app in *. destruct (Z.ltb_spec 0 (Z.of_nat (length b1 + length b2))).
  2:{ assert (b1 = [] /\ b2 = []) as [-> ->] by (destruct b1, b2; cbn in *; auto; lia). by exists s. }
  rewrite (proj2 (Z.ltb_ge max_string _)), !u64_small, (proj2 (Z.leb_le (Z.of_nat (length b1)) _)) by lia.
  assert (L : load 0 (Z.of_nat (length b1)) (b1 ++ mem) = Ret b1).
  { unfold load. rewrite !(proj2 (Z.leb_le _ _)) by (rewrite ?length_app; lia). cbn [andb]. unfold slice.
    by rewrite Nat2Z.id, drop_0, take_app_length. }
  rewrite L. msimpl. replace (Z.of_nat (length b1 + length b2) - Z.of_nat (length b1)) with (Z.of_nat (length b2)) by lia.
  destruct (Z.ltb_spec 0 (Z.of_nat (length b2))).
  - destruct (readFixSize_ok b2 more s Ho Hp ltac:(lia)) as (s1 & Hr & _). rewrite Hr.
    rewrite (proj2 (Z.leb_gt _ _)) by lia. by exists s1.
  - assert (b2 = []) as -> by (destruct b2; cbn in *; auto; lia). rewrite app_nil_r. by exists s.
Qed.

(** *** Headers *)
Lemma rsp_with_headers_spec hs d : sorted (p_headers d) ->
  sorted (p_headers (with_headers hs d)) /\
  folded (p_headers (with_headers hs d)) = foldl (fun m e => <[fold e.1 := e.2]> m) (folded (p_headers d)) hs /\
  exists v, with_headers hs d = rsp_setHeaders v d.
Proof.
  revert d. induction hs as [|e hs IH]; intros d Hs; cbn [with_headers foldl].
  - split_and!; [done..|]. exists (p_headers d). by destruct d.
  - destruct (map_set_spec e.1 e.2 (p_headers d) Hs) as [Hs1 E1].
    destruct (IH (rsp_setHeader e.1 e.2 d) Hs1) as (Hs2 & E2 & v & Ev).
    cbn [p_headers rsp_setHeader rsp_setHeaders] in E2. rewrite E1 in E2.
    split_and!; [done..|]. exists v. unfold with_headers in Ev. by rewrite Ev.
Qed.
Lemma plain_headers k p : response_ok p -> k ∈ special -> Forall (fun e => fold e.1 <> k) (shown_headers (p_websocket p) (p_headers p)).
Proof.
  intros [_ Hh] Hk. rewrite list.Forall_forall in *. intros e He <-. apply list_elem_of_In, filter_In in He as [He%list_elem_of_In _].
  by destruct (Hh e He) as (_ & _ & Hn & _).
Qed.
Lemma response_length_lookup p : response_ok p ->
  folded_headers (all_headers p) !! fold s_content_length =
  match p_body p with [] => None | b => Some (dec (Z.of_nat (length b))) end.
Proof.
  intros Hp. unfold folded_headers, all_headers. rewrite !foldl_app. unfold length_header.
  destruct (p_body p) as [|c b]; cbn [foldl fst snd]; [|by rewrite lookup_insert_eq].
  assert (Hn : (foldl (fun m e => <[fold e.1 := e.2]> m) ∅ (shown_headers (p_websocket p) (p_headers p)) : gmap (list Z) (list Z))
    !! fold s_content_length = None).
  { rewrite foldl_lookup_none; [apply lookup_empty|]. apply plain_headers; [exact Hp|]. right. by left. }
  unfold connection_header. destruct (p_websocket p); [exact Hn|]. cbn [foldl fst snd]. by rewrite lookup_insert_ne.
Qed.
Lemma response_lookup k p : response_ok p -> fold k ∉ special ->
  folded_headers (all_headers p) !! fold k = folded_headers (shown_headers (p_websocket p) (p_headers p)) !! fold k.
Proof.
  intros Hp Hk. unfold folded_headers, all_headers. rewrite !foldl_app. rewrite foldl_lookup_none.
  - rewrite foldl_lookup_none; [done|]. unfold connection_header. destruct (p_websocket p); [apply list.Forall_nil_2|].
    apply list.Forall_singleton. intros E. apply Hk. rewrite <- E. by left.
  - unfold length_header. destruct (p_body p); [apply list.Forall_nil_2|]. apply list.Forall_singleton. intros E. apply Hk.
    rewrite <- E. right. by left.
Qed.

Context {Zs : Type} `{Zlib Zs} {heap : Heap}.

(** C11: a response that is sent as [HttpResponse_dump] prints it is the response
    that the client gets, when one read brings its header, with the first bytes
    [b1] of its body, into the buffer: [recvResponse] returns a response with its
    version, status, reason, headers and body, whatever the buffer and the parser
    held before, as long as [m_error] held 0. *)
Theorem response_received p b1 b2 more mem c fuel s s1 :
  response_ok p -> p_body p = b1 ++ b2 -> folded_headers (shown_headers (p_websocket p) (p_headers p)) !! s_content_encoding = None ->
  (forall n, 0 <= n < 2 ^ 63 -> lexical_cast (dec n) = Some n) ->
  let data := response_head p ++ CRLF ++ b1 in
  s_read buff_size s = (Ret (Z.of_nat (length data), data), s1) -> Z.of_nat (length data) <= buff_size ->
  Z.of_nat (length mem) = buff_size + 1 -> Z.of_nat (length data) <= max_string ->
  st_open s1 -> st_pending s1 = b2 ++ more -> Z.of_nat (length (p_body p)) <= max_string -> Z.of_nat (length (p_body p)) < 2 ^ 31 ->
  exists rsp s2, recvResponse lexical_cast buff_size max_string (S fuel) mem c 0 s = (Ret (Some rsp), s2) /\
    p_version rsp = p_version p /\ p_status rsp = p_status p /\ p_reason rsp = shown_reason p /\ p_body rsp = p_body p /\
    folded (p_headers rsp) = folded_headers (all_headers p).
Proof.
  intros Hp Eb Henc Hcast data Hread Hlen Hmem Hmax Ho Hpend Hbm Hbl. unfold recvResponse, recv_message.
  destruct (text_head max_string p Hp) as [q Ht].
  destruct (rsp_head_run q (response_head p) _ _ b1 mem (new_HttpResponseParser c 0) fuel s s1 (text_head_reads _ _ _ _ Ht) Hread Hmem Hlen Hmax eq_refl)
    as (mem' & p' & Hhead & Hd & Hc & _).
  destruct (rsp_with_headers_spec (all_headers p) (with_start p (new_HttpResponse 0x11 true))) as (Hs & Ef & v & Ev); [constructor|].
  change (r_data (new_HttpResponseParser c 0)) with (new_HttpResponse 0x11 true) in Hd. rewrite <- Hd in Hs, Ef, Ev.
  assert (Ef' : folded (p_headers (r_data p')) = folded_headers (all_headers p)) by exact Ef.
  assert (En : rsp_getContentLength lexical_cast p' = Z.of_nat (length (b1 ++ b2))).
  { unfold rsp_getContentLength, getAs. rewrite map_find_spec by done. rewrite Ef'.
    change (fold s_Content_Length) with (fold s_content_length). rewrite (response_length_lookup p Hp), <- Eb.
    destruct (p_body p) as [|x b] eqn:E; [done|]. by rewrite Hcast by (cbn [length] in *; lia). }
  destruct (plain_body_run b1 b2 more mem' p' s1 Ho Hpend En ltac:(by rewrite <- Eb) ltac:(by rewrite <- Eb)) as (s2 & Hbody).
  assert (Er : recv_message lexical_cast buff_size max_string (S fuel) mem (new_HttpResponseParser c 0) s
    = (Ret (Some (b1 ++ b2, p')), s2)).
  { unfold recv_message. mstep Hhead. cbv beta iota. rewrite Hc. exact Hbody. }
  mstep Er. cbv beta iota. rewrite <- Eb. assert (Hdec : decoded (Zs := Zs) p' (p_body p) = Ret (rsp_setBody (p_body p) (r_data p'))).
  { unfold decoded. destruct (p_body p) as [|x b] eqn:E.
    - rewrite Ev. by destruct p.
    - unfold rsp_getHeader, map_get. rewrite map_find_spec by done. rewrite Ef'. rewrite (response_lookup s_content_encoding p Hp) by
        (intros Hin; revert Hin; apply (bool_decide_unpack _); by vm_compute).
      change (fold s_content_encoding) with s_content_encoding. by rewrite Henc. }
  rewrite Hdec. msimpl. eexists _, s2. split; [reflexivity|]. rewrite Ev in Ef' |- *. by split_and!.
Qed.
End Receive.

(** ** The error of the parser *)
Lemma event_keeps_error max_string e p p' : r_error p <> 0 -> on_rsp_event max_string e p = Ret p' -> r_error p' <> 0.
Proof.
  intros He. destruct e; cbn [on_rsp_event]; try (intros [= <-]; exact He).
  - unfold on_response_reason. destruct (std_string _ _ _); cbn; try done. by intros [= <-].
  - unfold on_response_status. destruct (atoi _); cbn; try done. by intros [= <-].
  - unfold on_response_version. destruct (strncmp_eq _ _ _); [by intros [= <-]|]. destruct (strncmp_eq _ _ _); by intros [= <-].
  - unfold on_response_http_field. destruct (flen =? 0); [by intros [= <-]|].
    destruct (std_string max_string field flen); cbn; try done.
    destruct (std_string max_string value vlen); cbn; try done. by intros [= <-].
Qed.
Lemma execute_keeps_error max_string mem k len b p r : r_error p <> 0 ->
  rsp_execute max_string mem k len b p = Ret r -> rsp_hasError r.2 = true.
Proof.
  intros He. unfold rsp_execute. destruct (load k len mem); cbn [mbind outcome_bind]; try done.
  destruct (load (k + len) 1 mem); cbn [mbind outcome_bind]; try done.
  destruct (httpclient_parser_execute _ _ _ _) as [[[es n] m]| | |]; cbn [mbind outcome_bind]; try done.
  assert (Hes : forall p', on_rsp_events max_string es p = Ret p' -> r_error p' <> 0).
  { revert p He. induction es as [|e es IH]; intros p He p'; cbn [on_rsp_events]; [by intros [= <-]|].
    destruct (on_rsp_event max_string e p) as [p1| | |] eqn:E; cbn [mbind outcome_bind]; try done.
    apply IH. by apply (event_keeps_error _ _ _ _ He E). }
  destruct (on_rsp_events max_string es p) as [p'| | |] eqn:E; cbn [mbind outcome_bind]; try done.
  destruct (memmove _ _ _ _); cbn [mbind outcome_bind]; try done. intros [= <-]. unfold rsp_hasError. cbn.
  apply orb_true_iff. left. apply negb_true_iff, Z.eqb_neq. by apply Hes.
Qed.
Lemma bind_ret_inv {S A B} (m : M S A) (f : A -> M S B) s b s' :
  (m ≫= f) s = (Ret b, s') -> exists a s1, m s = (Ret a, s1) /\ f a s1 = (Ret b, s').
Proof. unfold mbind, M_bind. destruct (m s) as [[a| | |] s1]; try done. eauto. Qed.
Lemma lift_ret_inv {S A} (o : outcome A) (s : S) a s' : lift o s = (Ret a, s') -> o = Ret a /\ s' = s.
Proof. unfold lift. by intros [= -> ->]. Qed.
(** C37: the constructor of [HttpResponseParser] does not initialise [m_error], and
    when the memory it gets holds another value than 0 there, no response is ever
    received: whatever the peer sends, in whatever pieces it is read, and with
    whatever buffer, [recvResponse] does not return a response. *)
Theorem dirty_error_refused lexical_cast buff_size max_string {St : Type} `{Stream St} fuel mem c e (s : St) :
  e <> 0 -> forall r, fst (recv_message lexical_cast buff_size max_string fuel mem (new_HttpResponseParser c e) s) <> Ret (Some r).
Proof.
  intros He r Hr. destruct (recv_message _ _ _ _ _ _ _) as [o s'] eqn:E. cbn [fst] in Hr. subst o. unfold recv_message in E.
  apply bind_ret_inv in E as (h & s1 & Eh & E). destruct h as [[[mem1 offset] p1]|]; [|done]. clear E. destruct fuel as [|fuel]; [done|].
  cbn [rsp_head] in Eh. apply bind_ret_inv in Eh as ([len mem2] & s2 & _ & Eh). destruct (len <=? 0); [done|].
  apply bind_ret_inv in Eh as (len' & s3 & _ & Eh). apply bind_ret_inv in Eh as (mem3 & s4 & _ & Eh).
  apply bind_ret_inv in Eh as ([[n mem4] p2] & s5 & Hx & Eh). apply lift_ret_inv in Hx as [Hx _].
  apply execute_keeps_error in Hx; [|exact He]. cbn [snd] in Hx. by rewrite Hx in Eh.
Qed.

(** ** Responses that arrive in pieces

    [execute] begins anew at every call. *)
#[local] Existing Instance zero_heap.
(** The body that is received through reads of [n + 1] bytes into a buffer of
    [size] bytes. *)
Definition body_by (n : nat) (size : nat) (input : list Z) : outcome (option (list Z)) :=
  match fst (recv_message cast_decimal (Z.of_nat size) (2 ^ 40) 300 (replicate (S size) 0) (new_HttpResponseParser no_parser 0)
    (mkSocket 5 true (mkWire input [] (n - 1)))) with
  | Ret r => Ret (fst <$> r)
  | Throw e => Throw e
  | Crash => Crash
  | NoFuel => NoFuel
  end.
Definition chunked_head : list Z := bytes "HTTP/1.1 200 OK" ++ CRLF ++ bytes "transfer-encoding: chunked" ++ CRLF ++ CRLF.

(** A response that is cut elsewhere than at the end of its header or of a
    line of a chunk: cut in the header, it is refused; cut in the size of a
    chunk, what is left of the size counts, here 0 instead of 16, and the client
    gets a response without its body; a header that ends with a length without
    a value is refused even in one piece, since its final state is not the one
    that [httpclient_parser_is_finished] knows.  The size of a chunk that is negative as an int throws,
    and a line of a chunk that ends without a carriage return lets memmove read
    behind the buffer. *)
Theorem response_cut :
  let plain := bytes "HTTP/1.1 200 OK" ++ CRLF ++ bytes "content-length: 5" ++ CRLF ++ CRLF ++ bytes "hello" in
  let chunks := chunked_head ++ bytes "10" ++ CRLF ++ bytes "0123456789abcdef" ++ CRLF ++ bytes "0" ++ CRLF ++ CRLF in
  let negative := chunked_head ++ bytes "80000000" ++ CRLF ++ bytes "0123456789abcdef" ++ CRLF in
  let bare := chunked_head ++ bytes "1" ++ [10] ++ bytes "a" ++ CRLF ++ bytes "0123456789abcdef0123456789abcdef0123456789abcdef" in
  let empty := bytes "HTTP/1.1 200 OK" ++ CRLF ++ bytes "server: a" ++ CRLF ++ bytes "content-length:" ++ CRLF ++ CRLF in
  body_by 200 200 plain = Ret (Some (bytes "hello")) /\ body_by 39 200 plain = Ret (Some (bytes "hello")) /\
  body_by 30 200 plain = Ret None /\
  body_by 200 200 chunks = Ret (Some (bytes "0123456789abcdef")) /\ body_by 47 200 chunks = Ret (Some (bytes "0123456789abcdef")) /\
  body_by 48 200 chunks = Ret (Some []) /\
  body_by 200 200 empty = Ret None /\
  body_by 200 200 negative = Throw LengthError /\
  body_by 47 47 bare = Crash.
Proof. by vm_compute. Qed.

(** ** Witnesses *)

(** The same response with a clean and with a dirty parser. *)
Lemma dirty_error_refused_witness :
  let input := bytes "HTTP/1.1 200 OK" ++ CRLF ++ bytes "content-length: 5" ++ CRLF ++ CRLF ++ bytes "hello" in
  body_by 200 200 input = Ret (Some (bytes "hello")) /\
  ~ exists r, fst (recv_message cast_decimal 200 (2 ^ 40) 300 (replicate 201 0) (new_HttpResponseParser no_parser 7)
    (mkSocket 5 true (mkWire input [] 199))) = Ret (Some r).
Proof.
  intros input. split; [by vm_compute|]. intros [r Hr].
  exact (dirty_error_refused cast_decimal 200 (2 ^ 40) 300 (replicate 201 0) no_parser 7 (mkSocket 5 true (mkWire input [] 199))
    ltac:(discriminate) r Hr).
Defined.
(** A stream without zlib. *)
#[local] Instance no_zlib : Zlib unit := {|
  z_init _ _ _ _ _ := (Z_STREAM_ERROR, tt);
  z_deflate _ _ _ _ := (Z_STREAM_ERROR, O, [], tt);
  z_inflate _ _ _ _ := (Z_STREAM_ERROR, O, [], tt);
  z_end _ := tt;
  z_bound _ _ := O
|}.
Definition found : HttpResponse :=
  rsp_setBody (bytes "0123456789") (rsp_setHeader (bytes "Server") (bytes "cxk/1.16.0") (new_HttpResponse 0x11 false)).
Lemma found_ok : response_ok found.
Proof.
  split; [split; [by left|split; [by vm_compute|by left]]|]. apply list.Forall_singleton. split; [discriminate|]. split; [|split].
  - apply (bool_decide_unpack _). by vm_compute.
  - apply (bool_decide_unpack _). by vm_compute.
  - right. apply rmatch_spec. by vm_compute.
Qed.
(** The first read brings the header and three bytes of the body. *)
Definition found_head : list Z := response_head found ++ CRLF ++ bytes "012".
Lemma response_received_witness :
  exists rsp s, recvResponse (Zs := unit) cast_decimal 200 (2 ^ 40) 5 (replicate 201 0) no_parser 0
    (mkSocket 5 true (mkWire (HttpResponse_dump found) [] (length found_head - 1))) = (Ret (Some rsp), s) /\
    p_status rsp = 200 /\ p_reason rsp = bytes "OK" /\ p_body rsp = p_body found.
Proof.
  destruct (response_received cast_decimal 200 (2 ^ 40) ltac:(lia) (Zs := unit) found (bytes "012") (bytes "3456789") []
    (replicate 201 0) no_parser 4 (mkSocket 5 true (mkWire (HttpResponse_dump found) [] (length found_head - 1)))
    (mkSocket 5 true (mkWire (bytes "3456789") [] (length found_head - 1))) found_ok)
    as (rsp & s & Hr & _ & Hs & Hre & Hb & _).
  - reflexivity.
  - by vm_compute.
  - exact cast_dec.
  - by vm_compute.
  - by vm_compute.
  - by vm_compute.
  - by vm_compute.
  - reflexivity.
  - reflexivity.
  - by vm_compute.
  - by vm_compute.
  - exists rsp, s. split; [exact Hr|]. split; [exact Hs|]. split; [exact Hre|exact Hb].
Defined.
