(* ===== verification/HttpChunks.v ===== *)
(** * Chunked bodies (cxk/http/http_connection.cpp, [recvResponse])

    The lines of chunks over the program of [HttpClientMachine], and the loops
    that put a chunked body together, however its bytes come: a chunk may be cut
    anywhere but in its line. *)
From S2P Require Import Prelude ByteArray Stream Zlib Http HttpServer Ragel Http11 Http11Requests HttpClientMachine HttpClientParser HttpClient HttpClientTotal HttpResponses.

(** ** Numbers in hexadecimal *)
Lemma hex_digit c : is_digit 16 c -> digit_of c = digit_val c /\ 0 <= digit_val c < 16 /\ isspace c = false /\ c <> 45 /\ c <> 43 /\ c <> 120 /\ c <> 88.
Proof.
  intros (d & Hd & ->). assert (Hc : forallb (fun d => let c := digit_char d in (digit_of c =? digit_val c) && (0 <=? digit_val c)
    && (digit_val c <? 16) && negb (isspace c) && negb (c =? 45) && negb (c =? 43) && negb (c =? 120) && negb (c =? 88)) (seqZ 0 16) = true)
    by reflexivity.
  rewrite forallb_forall in Hc. specialize (Hc d ltac:(apply list_elem_of_In, elem_of_seqZ; lia)). cbv zeta in Hc.
  rewrite !andb_true_iff, !negb_true_iff, !Z.eqb_neq, Z.eqb_eq, Z.leb_le, Z.ltb_lt in Hc. intuition.
Qed.
Lemma read_hex acc l r : Forall (is_digit 16) l ->
  read_digits 16 acc (l ++ 13 :: r) = foldl (fun n c => 16 * n + digit_val c) acc l.
Proof.
  intros Hl. revert acc. induction Hl as [|c l Hc _ IH]; intros acc; cbn [app read_digits foldl]; [done|].
  destruct (hex_digit c Hc) as (-> & Hv & _). rewrite (proj2 (Z.ltb_lt _ _)) by lia. apply IH.
Qed.
Lemma strtol_hex n r : 0 <= n < 2 ^ 63 -> strtol 16 (hex n ++ 13 :: r) = n.
Proof.
  intros Hn. destruct (digits_spec 16 n ltac:(lia) ltac:(lia)) as (Hd & Hu & Hne). fold (hex n) in *.
  pose proof (read_hex 0 (hex n) r Hd) as E. unfold undigits in Hu. rewrite Hu in E.
  destruct (hex n) as [|c l]; [done|]. apply list.Forall_cons in Hd as [Hc Hd].
  destruct (hex_digit c Hc) as (_ & _ & Hs & Hm & Hp & _). unfold strtol. cbn [app skip_spaces] in *. rewrite Hs.
  assert (S0 : skip_0x 16 (c :: l ++ 13 :: r) = c :: l ++ 13 :: r).
  { destruct l as [|x l]; cbn [app skip_0x]; [by repeat case_match|]. apply list.Forall_cons in Hd as [Hx _].
    destruct (hex_digit x Hx) as (_ & _ & _ & _ & _ & H1 & H2). destruct (decide (c = 48)) as [->|]; [|by repeat case_match].
    destruct (l ++ 13 :: r); [done|]. by rewrite (proj2 (Z.eqb_neq x 120)), (proj2 (Z.eqb_neq x 88)). }
  rewrite S0, E. repeat case_match; subst; try done; lia.
Qed.

(** ** The line of a chunk *)
Definition chunk_line (d : list Z) : list Z := hex (Z.of_nat (length d)) ++ CRLF.
Definition hex_re : re := plus (Chr [(48, 57); (97, 102)]).
Definition chunk_segs : list seg := [([Mark], hex_re); ([HttpClientMachine.ChunkSize], chr 13)].
Lemma chunk_reaches : reaches httpclient_parser_start chunk_segs 3 = true.
Proof. vm_cast_no_check (eq_refl true). Qed.
Lemma hex_matches n : 0 <= n -> matches hex_re (hex n) /\ hex n <> [].
Proof.
  intros Hn. destruct (digits_spec 16 n ltac:(lia) Hn) as (Hd & _ & Hne). split; [|exact Hne]. apply plus_all; [exact Hne|].
  eapply list.Forall_impl; [exact Hd|]. intros c (x & Hx & ->). unfold digit_char, in_ranges. cbn. case_match; lia.
Qed.
#[local] Opaque client_table response_classes httpclient_parser_first_final.
Section Line.
Context (max_string : Z).
Lemma execute_line n b q : 0 <= n < 2 ^ 31 -> Z.of_nat (length (hex n ++ CRLF ++ b)) < 2 ^ 31 ->
  exists es c', httpclient_parser_execute (hex n ++ CRLF ++ b) 0 0 (httpclient_parser_init q) = Ret (es, Z.of_nat (length (hex n)) + 2, c') /\
    (forall p, on_rsp_events max_string es p = Ret p) /\ content_len c' = n /\ chunked c' = true /\ chunks_done c' = (n <=? 0) /\
    cs c' = httpclient_parser_first_final.
Proof.
  intros Hn Hlen. destruct (hex_matches n) as [Hm Hne]; [lia|]. set (buffer := hex n ++ CRLF ++ b) in *. unfold httpclient_parser_execute.
  set (c1 := with_field 0 0 _).
  assert (El : length buffer = (length (hex n) + 2 + length b)%nat) by (unfold buffer, CRLF; rewrite !length_app; cbn; lia).
  assert (HF : Forall2 (seg_text is_done) chunk_segs [hex n; [13]]).
  { apply rsp_pieces_text. unfold chunk_segs. pieces. }
  pose proof response_classes_ok as [Hcov Hfit]%andb_true_iff. pose proof chunk_reaches as Hr%bool_decide_eq_true.
  assert (Ep : HttpClientParser.PTR_TO buffer (mark (with_mark (Z.of_nat 0) c1)) = hex n ++ 13 :: 10 :: b) by reflexivity.
  assert (Ha : exists c2 es, chain_acts (client_act buffer) chunk_segs [hex n; [13]] 0 (c1, []) = Ret (c2, es) /\
    (forall p, on_rsp_events max_string es p = Ret p) /\ content_len c2 = n /\ chunked c2 = true /\ chunks_done c2 = (n <=? 0) /\
    nread c2 = 0 /\ mark c2 = 0 /\ field_start c2 = 0 /\ field_len c2 = 0).
  { unfold chunk_segs. cbn [app chain_acts run_acts client_act]. unfold set, emit. cbn [fst snd mbind outcome_bind].
    rewrite Ep, strtol_hex, i32_small by lia. destruct (n <=? 0) eqn:E; eexists _, _; (split; [reflexivity|]); cbn; by split_and!. }
  destruct Ha as (c2 & es & Ha & F & A1 & A2 & A3 & A4 & A5 & A6 & A7).
  destruct (chain_run client_table client_widec response_classes http11_fuel Hcov Hfit (client_act buffer)
    is_done [httpclient_parser_start] chunk_segs [3] httpclient_parser_start [hex n; [13]] (10 :: b) 0 (c1, []) (c2, es) Hr)
    as (q2 & ->%list_elem_of_singleton & E); [by apply list_elem_of_singleton|exact HF|exact Ha|].
  assert (En : next client_table client_widec 3 10 = ([Done], httpclient_parser_first_final)) by
    (vm_cast_no_check (eq_refl ([Done], httpclient_parser_first_final))).
  cbn [concat app] in E. rewrite <- app_assoc in E. cbn [app] in E. change (hex n ++ 13 :: 10 :: b) with buffer in E.
  rewrite (proj2 (Nat.ltb_ge _ _)) by lia. rewrite (proj2 (Z.leb_gt _ _)) by lia. cbn [orb negb Z.eqb].
  change (cs c1) with httpclient_parser_start. rewrite drop_0, E. cbn [exec]. rewrite En.
  change (httpclient_parser_first_final =? 0) with false. cbn [run_acts client_act existsb is_done orb]. unfold set, emit.
  cbn [fst snd mbind outcome_bind]. cbn [nread body_start mark field_len field_start with_nread with_cs with_body_start].
  rewrite A4, A5, A6, A7. rewrite length_app. cbn [length]. rewrite !(proj2 (Z.leb_le _ _)) by lia. rewrite !(proj2 (Z.ltb_lt _ _)) by lia.
  cbn [negb andb]. replace (0 + Z.of_nat (S (0 + (length (hex n) + 1)) - 0)) with (Z.of_nat (length (hex n)) + 2) by lia.
  eexists _, _. split; [reflexivity|]. split; [|by split_and!]. intros p. by rewrite on_rsp_events_app, F.
Qed.
End Line.

(** ** The line that says that a body is chunked *)
Definition s_chunked : list Z := Eval cbv in bytes "chunked".
Definition toupper (c : Z) : Z := if (97 <=? c) && (c <=? 122) then c - 32 else c.
Definition ci_chr (c : Z) : re := Chr [(c, c); (toupper c, toupper c)].
Fixpoint ci (w : list Z) : re := match w with [] => Eps | [c] => ci_chr c | c :: w => Seq (ci_chr c) (ci w) end.
Lemma ci_matches w v : map tolower v = w -> matches (ci w) v.
Proof.
  intros <-. assert (Hc : forall c, matches (ci_chr (tolower c)) [c]).
  { intros c. constructor. unfold tolower, toupper, in_ranges. cbn. repeat case_match; lia. }
  induction v as [|c [|d v] IH]; cbn [map ci] in *; [constructor|apply Hc|]. apply (m_seq _ _ [c] (d :: v)); [apply Hc|exact IH].
Qed.
Definition chunked_segs (before : list action) : list seg :=
  [(before ++ [StartField], ci s_transfer_encoding); ([WriteField], chr 58); ([StartValue], chr 32); ([StartValue], ci s_chunked);
   ([WriteValue], chr 13); ([TransChunked], chr 10)].
Lemma chunked_reaches b : reaches (line_state b) (chunked_segs (left_over b)) 20 = true.
Proof. destruct b; vm_cast_no_check (eq_refl true). Qed.
Definition says_chunked (e : list Z * list Z) : Prop := map tolower e.1 = s_transfer_encoding /\ map tolower e.2 = s_chunked.
Lemma chunked_line_run max_string buffer pre rest b e c es :
  Z.of_nat (length buffer) < 2 ^ 31 -> Z.of_nat (length buffer) <= max_string -> says_chunked e ->
  buffer = pre ++ header_line e.1 e.2 ++ rest -> exists c' es',
  exec client_table client_widec (client_act buffer) is_done (line_state b) (length pre) (header_line e.1 e.2 ++ rest) (c, es)
  = exec client_table client_widec (client_act buffer) is_done 20 (length (pre ++ header_line e.1 e.2)) rest (c', es ++ es') /\
  chunked c' = true /\ nread c' = nread c /\ (marks_ok buffer c -> marks_ok buffer c') /\
  forall p, on_rsp_events max_string es' p = Ret (on_rsp (rsp_setHeader e.1 e.2) p).
Proof.
  intros Hlen Hmax [Hk Hv] Eb. rewrite <- field_words_text in * at 1. rewrite <- field_words_text. set (segs := chunked_segs (left_over b)).
  assert (Hk1 : e.1 <> []) by (intros E; by rewrite E in Hk). assert (Hv1 : e.2 <> []) by (intros E; by rewrite E in Hv).
  assert (Ew : field_words e = [e.1; [58]; [32]; e.2; [13]; [10]]) by (unfold field_words; by destruct e.2).
  assert (HF : Forall2 piece segs (field_words e)).
  { rewrite Ew. unfold segs, chunked_segs, left_over. destruct b; cbn [app]; pieces;
      (apply rsp_word_piece; [by apply ci_matches|assumption|reflexivity|reflexivity]). }
  rewrite Ew in *. pose proof response_classes_ok as [Hcov Hfit]%andb_true_iff. pose proof (chunked_reaches b) as Hr%bool_decide_eq_true.
  assert (Ha : exists c' es', chain_acts (client_act buffer) segs [e.1; [58]; [32]; e.2; [13]; [10]] (length pre) (c, es) = Ret (c', es ++ es') /\
    chunked c' = true /\ nread c' = nread c /\ (marks_ok buffer c -> marks_ok buffer c') /\
    forall p, on_rsp_events max_string es' p = Ret (on_rsp (rsp_setHeader e.1 e.2) p)).
  { unfold segs, chunked_segs, left_over. destruct b; (eexists _, _; split; [acts|]).
    all: split; [reflexivity|]; split; [reflexivity|]; split.
    1,3: intros (Hmark & Hstart & Hfl); apply (f_equal length) in Eb; repeat (progress (rewrite ?length_app in Eb; cbn [concat app length] in Eb));
      unfold marks_ok, HttpClientParser.LEN;
      cbn [mark field_start field_len with_mark with_field with_status with_content_len with_close with_chunked length];
      rewrite ?u64_small by lia; repeat split; lia.
    all: intros d; erewrite (on_header _ _ _ [e.1; [58]; [32]; e.2; [13]; [10]] _ Eb Hlen Hmax 0 3); [|word|word|exact Hk1]; reflexivity. }
  destruct Ha as (c' & es' & Ha & Hs). exists c', es'. split; [|exact Hs].
  destruct (chain_run client_table client_widec response_classes http11_fuel Hcov Hfit (client_act buffer)
    is_done [line_state b] segs [20] (line_state b) [e.1; [58]; [32]; e.2; [13]; [10]] rest (length pre) (c, es) (c', es ++ es') Hr)
    as (q2 & ->%list_elem_of_singleton & E); [by apply list_elem_of_singleton|by apply rsp_pieces_text|exact Ha|by rewrite E, length_app].
Qed.

(** ** The loops *)
Section Loops.
Context (buff_size max_string : Z).
Context {St : Type} `{Stream St} (buff_pos : 0 < buff_size < 2 ^ 31 - 4) (max_small : max_string < 2 ^ 63).

(** The parser behind the line of the chunk [d]. *)
Definition at_chunk (p p' : HttpResponseParser) (d : list Z) : Prop :=
  r_data p' = r_data p /\ r_error p' = 0 /\ content_len (r_parser p') = Z.of_nat (length d) /\
  chunks_done (r_parser p') = bool_decide (d = []).
Lemma line_execute d b mem p : Z.of_nat (length d) < 2 ^ 31 -> Z.of_nat (length mem) = buff_size + 1 ->
  Z.of_nat (length (chunk_line d ++ b)) <= buff_size -> r_error p = 0 -> take (length (chunk_line d ++ b)) mem = chunk_line d ++ b ->
  exists mem' p', (mem ← store (Z.of_nat (length (chunk_line d ++ b))) [0] mem;
      rsp_execute max_string mem 0 (Z.of_nat (length (chunk_line d ++ b))) true p)
      = Ret (Z.of_nat (length (chunk_line d)), b ++ mem', p') /\ Z.of_nat (length (b ++ mem')) = buff_size + 1 /\
    at_chunk p p' d /\ rsp_hasError p' = false /\ rsp_isFinished p' = true.
Proof.
  intros Hd Hmem Hlen He Ht. unfold chunk_line in *. rewrite <- app_assoc in *. set (h := hex (Z.of_nat (length d))) in *.
  destruct (execute_line max_string (Z.of_nat (length d)) b (r_parser p)) as (es & c' & E & F & A1 & A2 & A3 & A4); [lia|fold h; lia|].
  fold h in E. destruct (rsp_execute_split max_string h b (drop (S (length (h ++ CRLF ++ b))) mem) p es c' p) as (mem' & Ex & El); [lia|exact E|apply F|].
  assert (S2 : store (Z.of_nat (length (h ++ CRLF ++ b))) [0] mem = Ret ((h ++ CRLF ++ b) ++ 0 :: drop (S (length (h ++ CRLF ++ b))) mem)).
  { unfold store. rewrite !(proj2 (Z.leb_le _ _)) by (cbn [length]; lia). cbn [andb]. rewrite Nat2Z.id, Ht. cbn [length app].
    by rewrite Nat.add_1_r. }
  rewrite S2. cbn [mbind outcome_bind]. rewrite Ex. exists mem', (mkRspParser c' (r_data p) (r_error p)).
  replace (Z.of_nat (length (h ++ CRLF))) with (Z.of_nat (length h) + 2) by (rewrite length_app; cbn; lia).
  split; [reflexivity|]. split; [rewrite El, length_app; cbn [length]; rewrite length_drop; lia|].
  split; [|unfold rsp_hasError, rsp_isFinished, httpclient_parser_has_error, httpclient_parser_is_finished; cbn; by rewrite He, A4].
  split; [done|]. split; [done|]. split; [done|]. cbn. rewrite A3. destruct d; [done|]. rewrite bool_decide_eq_false_2 by done.
  apply Z.leb_gt. cbn. lia.
Qed.
Lemma chunk_head_here d b mem p fuel s : Z.of_nat (length d) < 2 ^ 31 -> Z.of_nat (length mem) = buff_size + 1 ->
  Z.of_nat (length (chunk_line d ++ b)) <= buff_size -> r_error p = 0 -> take (length (chunk_line d ++ b)) mem = chunk_line d ++ b ->
  exists mem' p', chunk_head buff_size max_string (S fuel) true mem (Z.of_nat (length (chunk_line d ++ b))) p s
      = (Ret (Some (b ++ mem', Z.of_nat (length b), p')), s) /\ Z.of_nat (length (b ++ mem')) = buff_size + 1 /\ at_chunk p p' d.
Proof.
  intros Hd Hmem Hlen He Ht. destruct (line_execute d b mem p Hd Hmem Hlen He Ht) as (mem' & p' & E & El & Hat & Herr & Hfin).
  assert (Hpos : (2 <= length (chunk_line d))%nat) by (unfold chunk_line, CRLF; rewrite length_app; cbn; lia).
  assert (Elen : length (chunk_line d ++ b) = (length (chunk_line d) + length b)%nat) by apply length_app.
  exists mem', p'. split; [|by split]. cbn [chunk_head negb orb]. rewrite (proj2 (Z.eqb_neq _ 0)) by lia. msimpl.
  destruct (store _ [0] mem) as [mem1| | |]; cbn [mbind outcome_bind] in E; try done. rewrite E. cbv beta iota. rewrite Herr, Hfin.
  replace (i32 (u64 (Z.of_nat (length (chunk_line d ++ b)) - Z.of_nat (length (chunk_line d))))) with (Z.of_nat (length b))
    by (rewrite u64_small, i32_small by lia; lia).
  rewrite i32_small by lia. by rewrite (proj2 (Z.eqb_neq _ _)) by lia.
Qed.
(** An empty buffer is filled first. *)
Lemma chunk_head_fill c mem p fuel s s1 : Z.of_nat (length mem) = buff_size + 1 -> c <> [] -> Z.of_nat (length c) <= buff_size ->
  s_read buff_size s = (Ret (Z.of_nat (length c), c), s1) ->
  chunk_head buff_size max_string (S fuel) true mem 0 p s
  = chunk_head buff_size max_string (S fuel) true (c ++ drop (length c) mem) (Z.of_nat (length c)) p s1.
Proof.
  intros Hmem Hne Hlen Hr. assert (0 < Z.of_nat (length c)) by (destruct c; [done|cbn; lia]).
  assert (S1 : store 0 c mem = Ret (c ++ drop (length c) mem)).
  { unfold store. rewrite !(proj2 (Z.leb_le _ _)) by lia. reflexivity. }
  assert (R : read_at 0 (buff_size - 0) mem s = (Ret (Z.of_nat (length c), c ++ drop (length c) mem), s1)).
  { unfold read_at. rewrite Z.sub_0_r, u64_small by lia. mstep Hr. cbv beta iota. by rewrite S1. }
  cbn [chunk_head negb orb Z.eqb]. rewrite (proj2 (Z.eqb_neq (Z.of_nat (length c)) 0)) by lia.
  etransitivity.
  { apply bind_Ret with (a := Some (c ++ drop (length c) mem, Z.of_nat (length c))) (s' := s1). mstep R. cbv beta iota.
    rewrite (proj2 (Z.leb_gt _ _)) by lia. by rewrite Z.add_0_l, chk_signed_Ret by lia. }
  reflexivity.
Qed.

(** *** The bytes of a chunk *)
Lemma bind_ret_outcome {A B} (a : A) (k : A -> outcome B) : mbind k (Ret a) = k a.
Proof. reflexivity. Qed.
Lemma bind_ext {A B} (m : M St A) (f : A -> M St B) s m' s' : m s = m' s' -> (m ≫= f) s = (m' ≫= f) s'.
Proof. intros E. unfold mbind, M_bind. by rewrite E. Qed.
Lemma store_front d mem : (length d <= length mem)%nat -> store 0 d mem = Ret (d ++ drop (length d) mem).
Proof. intros Hl. unfold store. by rewrite !(proj2 (Z.leb_le _ _)) by lia. Qed.
Lemma append_front body d mem : Z.of_nat (length body) + Z.of_nat (length d) <= max_string ->
  append max_string body (d ++ mem) (Z.of_nat (length d)) = Ret (body ++ d).
Proof.
  intros Hl. unfold append. rewrite u64_small by lia. rewrite (proj2 (Z.ltb_ge _ _)) by lia.
  unfold load. rewrite !(proj2 (Z.leb_le _ _)) by (rewrite ?length_app; lia). cbn [andb]. unfold slice.
  by rewrite Nat2Z.id, drop_0, take_app_length.
Qed.
(** The reads of [chunk_left], which bring the bytes [l]. *)
Inductive drained : list Z -> St -> St -> Prop :=
| drained_nil s : drained [] s s
| drained_read d l s s1 s' : d <> [] -> Z.of_nat (length d) <= buff_size ->
    s_read (Z.min buff_size (Z.of_nat (length (d ++ l)))) s = (Ret (Z.of_nat (length d), d), s1) ->
    drained l s1 s' -> drained (d ++ l) s s'.
Lemma chunk_left_run l s s' : drained l s s' -> forall fuel mem body, Z.of_nat (length mem) = buff_size + 1 ->
  Z.of_nat (length body) + Z.of_nat (length l) <= max_string -> Z.of_nat (length l) < 2 ^ 31 -> (length l < fuel)%nat ->
  exists mem', chunk_left buff_size max_string fuel mem body (Z.of_nat (length l)) s = (Ret (Some (mem', body ++ l)), s') /\
    Z.of_nat (length mem') = buff_size + 1.
Proof.
  induction 1 as [s|d l s s1 s' Hne Hd Hr _ IH]; intros fuel mem body Hm Hmax Hl Hf; (destruct fuel as [|fuel]; [lia|]);
    cbn [chunk_left].
  { exists mem. by rewrite app_nil_r. }
  rewrite length_app in *. assert (0 < length d)%nat by (destruct d; [done|cbn; lia]). rewrite (proj2 (Z.ltb_lt _ _)) by lia.
  rewrite i32_small by lia. replace (if buff_size <? _ then _ else _) with (Z.min buff_size (Z.of_nat (length d + length l)))
    by (destruct (Z.ltb_spec buff_size (Z.of_nat (length d + length l))); lia).
  assert (R : read_at 0 (Z.min buff_size (Z.of_nat (length d + length l))) mem s = (Ret (Z.of_nat (length d), d ++ drop (length d) mem), s1)).
  { unfold read_at. rewrite u64_small by lia. mstep Hr. cbv beta iota. by rewrite store_front by lia. }
  mstep R. cbv beta iota. rewrite (proj2 (Z.leb_gt _ _)) by lia. rewrite append_front by lia. msimpl.
  replace (Z.of_nat (length d + length l) - Z.of_nat (length d)) with (Z.of_nat (length l)) by lia.
  destruct (IH fuel (d ++ drop (length d) mem) (body ++ d)) as (mem' & E & ?); [rewrite length_app, length_drop; lia|rewrite length_app; lia|lia|lia|].
  exists mem'. by rewrite <- app_assoc in E.
Qed.

(** The bytes [d] and the line end, from the buffer. *)
Lemma chunk_body_here d b mem body p fuel s : content_len (r_parser p) = Z.of_nat (length d) ->
  Z.of_nat (length ((d ++ CRLF ++ b) ++ mem)) = buff_size + 1 -> Z.of_nat (length (d ++ CRLF ++ b)) + 3 <= buff_size ->
  Z.of_nat (length body) + Z.of_nat (length d) <= max_string ->
  exists mem', chunk_body buff_size max_string fuel ((d ++ CRLF ++ b) ++ mem) (Z.of_nat (length (d ++ CRLF ++ b))) body p s
    = (Ret (Some (b ++ mem', Z.of_nat (length b), body ++ d)), s) /\ Z.of_nat (length (b ++ mem')) = buff_size + 1.
Proof.
  intros Hc Hmem Hlen Hmax. assert (El : length (d ++ CRLF ++ b) = (length d + 2 + length b)%nat) by (unfold CRLF; rewrite !length_app; cbn; lia).
  rewrite length_app, El in Hmem. unfold chunk_body. cbv zeta. rewrite Hc, El, (chk_signed_Ret 32 (Z.of_nat (length d) + 2)) by lia. msimpl. rewrite (proj2 (Z.leb_le _ _)) by lia.
  rewrite <- !app_assoc. rewrite append_front by lia. msimpl. rewrite chk_signed_Ret by lia. msimpl. rewrite u64_small by lia.
  assert (E : memmove 0 (Z.of_nat (length d) + 2) (Z.of_nat (length d + 2 + length b) - Z.of_nat (length d) + 2) (d ++ CRLF ++ b ++ mem)
    = Ret (b ++ take 4 mem ++ drop (length b + 4) (d ++ CRLF ++ b ++ mem))).
  { unfold memmove, load. rewrite !(proj2 (Z.leb_le _ _)) by (unfold CRLF; rewrite ?length_app; cbn; rewrite ?length_app; lia). cbn [andb].
    rewrite bind_ret_outcome. unfold slice.
    replace (Z.to_nat (Z.of_nat (length d) + 2)) with (length (d ++ CRLF)) by (unfold CRLF; rewrite length_app; cbn; lia).
    rewrite (app_assoc d CRLF), drop_app_length.
    replace (Z.to_nat _) with (length b + 4)%nat by lia. rewrite take_app_add.
    rewrite store_front.
    - f_equal. rewrite length_app, length_take_le by lia. by rewrite !app_assoc.
    - unfold CRLF. rewrite !length_app, length_take_le by lia. cbn. lia. }
  rewrite E. msimpl. replace (_ - (Z.of_nat (length d) + 2)) with (Z.of_nat (length b)) by lia. eexists. split; [reflexivity|].
  rewrite !length_app, length_take_le, length_drop by lia. unfold CRLF. rewrite !length_app. cbn [length]. lia.
Qed.
(** The rest of them from the stream. *)
Lemma chunk_body_more d b1 b2 mem body p fuel s s' : content_len (r_parser p) = Z.of_nat (length d) -> Z.of_nat (length d) < 2 ^ 31 - 2 ->
  d ++ CRLF = b1 ++ b2 -> b2 <> [] -> drained b2 s s' -> Z.of_nat (length (b1 ++ mem)) = buff_size + 1 ->
  Z.of_nat (length body) + Z.of_nat (length d) + 2 <= max_string -> (length d + 2 < fuel)%nat ->
  exists mem', chunk_body buff_size max_string fuel (b1 ++ mem) (Z.of_nat (length b1)) body p s
    = (Ret (Some (mem', 0, body ++ d)), s') /\ Z.of_nat (length mem') = buff_size + 1.
Proof.
  intros Hc Hd Heq Hne Hdr Hmem Hmax Hf. assert (El : (length d + 2 = length b1 + length b2)%nat).
  { rewrite <- length_app, <- Heq, length_app. reflexivity. }
  assert (0 < length b2)%nat by (destruct b2; [done|cbn; lia]). unfold chunk_body. cbv zeta. rewrite Hc, (chk_signed_Ret 32 (Z.of_nat (length d) + 2)) by lia. msimpl.
  rewrite (proj2 (Z.leb_gt _ _)) by lia. rewrite append_front by lia. msimpl. rewrite chk_signed_Ret by lia. msimpl.
  replace (Z.of_nat (length d) - Z.of_nat (length b1) + 2) with (Z.of_nat (length b2)) by lia.
  destruct (chunk_left_run b2 s s' Hdr fuel (b1 ++ mem) (body ++ b1) Hmem) as (mem' & E & Em); [rewrite length_app; lia|lia|lia|].
  rewrite E. exists mem'. split; [|exact Em]. unfold resize.
  replace (Z.of_nat (length ((body ++ b1) ++ b2)) - 2) with (Z.of_nat (length (body ++ d)))
    by (rewrite !length_app; lia).
  rewrite u64_small by (rewrite length_app; lia). rewrite (proj2 (Z.ltb_ge _ _)) by (rewrite length_app; lia).
  rewrite Nat2Z.id, <- app_assoc, <- Heq, app_assoc, take_app_length. reflexivity.
Qed.

(** *** A chunked body

    How the chunks [ds] come when [b] is in the buffer and the stream is at [s]:
    a read into the empty buffer begins with the line of a chunk; the bytes of a
    chunk and its line end are in the buffer, or what is missing is read with
    them. *)
Definition chunk_fits (d : list Z) : Prop := Z.of_nat (length d) < 2 ^ 31 - 2.
Inductive serves : list Z -> St -> list (list Z) -> Prop :=
| serves_read c s s1 ds : c <> [] -> Z.of_nat (length c) <= buff_size ->
    s_read buff_size s = (Ret (Z.of_nat (length c), c), s1) -> serves c s1 ds -> serves [] s ds
| serves_here d b s ds : d <> [] -> chunk_fits d -> serves b s ds -> serves (chunk_line d ++ d ++ CRLF ++ b) s (d :: ds)
| serves_more d b1 b2 s s' ds : d <> [] -> chunk_fits d -> d ++ CRLF = b1 ++ b2 -> b2 <> [] -> drained b2 s s' ->
    serves [] s' ds -> serves (chunk_line d ++ b1) s (d :: ds)
| serves_end b s : serves (chunk_line [] ++ CRLF ++ b) s []
| serves_end_more b1 b2 s s' : CRLF = b1 ++ b2 -> b2 <> [] -> drained b2 s s' -> serves (chunk_line [] ++ b1) s [].

(** One chunk, from its line to behind its line end. *)
Definition chunk_done (p : HttpResponseParser) (d b mem body : list Z) (s : St) (fuel : nat) (s' : St) (buffer : list Z) : Prop :=
  exists mem' p', (chunk_loop buff_size max_string (S fuel) mem (Z.of_nat (length buffer)) body p s
      = if bool_decide (d = []) then (Ret (Some (body ++ d, p')), s')
        else chunk_loop buff_size max_string fuel (b ++ mem') (Z.of_nat (length b)) (body ++ d) p' s') /\
    Z.of_nat (length (b ++ mem')) = buff_size + 1 /\ r_data p' = r_data p /\ r_error p' = 0.
Lemma chunk_line_length d : (3 <= length (chunk_line d))%nat.
Proof.
  unfold chunk_line. rewrite length_app. destruct (hex_matches (Z.of_nat (length d))) as [_ Hne]; [lia|].
  destruct (hex _); [done|]. cbn. lia.
Qed.
Lemma chunk_here d b mem body p fuel s : chunk_fits d -> Z.of_nat (length mem) = buff_size + 1 -> r_error p = 0 ->
  Z.of_nat (length (chunk_line d ++ d ++ CRLF ++ b)) <= buff_size ->
  take (length (chunk_line d ++ d ++ CRLF ++ b)) mem = chunk_line d ++ d ++ CRLF ++ b ->
  Z.of_nat (length body) + Z.of_nat (length d) <= max_string ->
  chunk_done p d b mem body s fuel s (chunk_line d ++ d ++ CRLF ++ b).
Proof.
  intros Hd Hm He Hl Ht Hmax. unfold chunk_fits in Hd.
  destruct (chunk_head_here d (d ++ CRLF ++ b) mem p fuel s ltac:(lia) Hm Hl He Ht) as (mem1 & p1 & E1 & Em1 & Hdata & Herr & Hc & Hdone).
  pose proof (chunk_line_length d). rewrite length_app in Hl.
  destruct (chunk_body_here d b mem1 body p1 (S fuel) s Hc Em1 ltac:(lia) Hmax) as (mem2 & E2 & Em2).
  exists mem2, p1. split; [|by split_and!]. cbn [chunk_loop]. mstep E1. cbv beta iota. mstep E2. cbv beta iota. rewrite Hdone. by case_match.
Qed.
Lemma chunk_more d b1 b2 mem body p fuel s s' : chunk_fits d -> Z.of_nat (length mem) = buff_size + 1 -> r_error p = 0 ->
  d ++ CRLF = b1 ++ b2 -> b2 <> [] -> drained b2 s s' -> Z.of_nat (length (chunk_line d ++ b1)) <= buff_size ->
  take (length (chunk_line d ++ b1)) mem = chunk_line d ++ b1 ->
  Z.of_nat (length body) + Z.of_nat (length d) + 2 <= max_string -> (length d + 2 < S fuel)%nat ->
  chunk_done p d [] mem body s fuel s' (chunk_line d ++ b1).
Proof.
  intros Hd Hm He Heq Hne Hdr Hl Ht Hmax Hf. unfold chunk_fits in Hd.
  destruct (chunk_head_here d b1 mem p fuel s ltac:(lia) Hm Hl He Ht) as (mem1 & p1 & E1 & Em1 & Hdata & Herr & Hc & Hdone).
  destruct (chunk_body_more d b1 b2 mem1 body p1 (S fuel) s s' Hc Hd Heq Hne Hdr Em1 Hmax Hf) as (mem2 & E2 & Em2).
  exists mem2, p1. split; [|by split_and!]. cbn [chunk_loop]. mstep E1. cbv beta iota. mstep E2. cbv beta iota. rewrite Hdone. by case_match.
Qed.
Definition chunks_size (ds : list (list Z)) : nat := length (concat ds).
(** A chunked body comes out whole: however its bytes come - many chunks in
    one read, a chunk or its line end over many reads - as long as no line of a
    chunk is cut, the loop ends with fuel above the size of what is left, and the
    body is what it was and the bytes of all chunks behind it, in order and
    without the lines. *)
Lemma chunk_loop_received b s ds : serves b s ds -> forall fuel mem body p, Z.of_nat (length mem) = buff_size + 1 -> r_error p = 0 ->
  Z.of_nat (length b) <= buff_size -> take (length b) mem = b ->
  Z.of_nat (length body) + Z.of_nat (chunks_size ds) + 2 <= max_string -> (chunks_size ds + length ds + 2 < fuel)%nat ->
  exists p' s', chunk_loop buff_size max_string fuel mem (Z.of_nat (length b)) body p s = (Ret (Some (body ++ concat ds, p')), s') /\
    r_data p' = r_data p.
Proof.
  induction 1 as [c s s1 ds Hne Hl Hr _ IH|d b s ds Hne Hd _ IH|d b1 b2 s s' ds Hne Hd Heq Hb Hdr _ IH|b s|b1 b2 s s' Heq Hb Hdr];
    intros fuel mem body p Hm He Hlen Ht Hmax Hf; (destruct fuel as [|fuel]; [lia|]).
  - cbn [chunk_loop]. change (Z.of_nat (length [])) with 0. rewrite (bind_ext _ _ _ _ _ (chunk_head_fill c mem p fuel s s1 Hm Hne Hl Hr)).
    apply (IH (S fuel)); try done; [rewrite length_app, length_drop; lia|apply take_app_length].
  - unfold chunks_size in *. cbn [concat length] in *. rewrite length_app in Hmax, Hf.
    destruct (chunk_here d b mem body p fuel s Hd Hm He Hlen Ht ltac:(lia)) as (mem' & p' & E & Em & Hdata & He').
    rewrite E, bool_decide_eq_false_2 by done. destruct (IH fuel (b ++ mem') (body ++ d) p') as (p2 & s2 & E2 & Hd2); try done.
    + revert Hlen. rewrite !length_app. lia.
    + apply take_app_length.
    + rewrite length_app. lia.
    + lia.
    + exists p2, s2. rewrite E2, <- app_assoc, Hd2. by split.
  - unfold chunks_size in *. cbn [concat length] in *. rewrite length_app in Hmax, Hf.
    destruct (chunk_more d b1 b2 mem body p fuel s s' Hd Hm He Heq Hb Hdr Hlen Ht ltac:(lia) ltac:(lia)) as (mem' & p' & E & Em & Hdata & He').
    rewrite E, bool_decide_eq_false_2 by done. destruct (IH fuel mem' (body ++ d) p') as (p2 & s2 & E2 & Hd2); try done; [cbn; lia|rewrite length_app; lia|lia|].
    exists p2, s2. cbn [app length] in *. rewrite E2, <- app_assoc, Hd2. by split.
  - cbn in Hmax. destruct (chunk_here [] b mem body p fuel s ltac:(unfold chunk_fits; cbn; lia) Hm He Hlen Ht ltac:(cbn; lia)) as (mem' & p' & E & _ & Hdata & _).
    cbn [app] in E. rewrite E. exists p', s. by split.
  - cbn in Hmax, Hf. destruct (chunk_more [] b1 b2 mem body p fuel s s' ltac:(unfold chunk_fits; cbn; lia) Hm He Heq Hb Hdr Hlen Ht ltac:(cbn; lia) ltac:(cbn; lia))
      as (mem' & p' & E & _ & Hdata & _). rewrite E. exists p', s'. by split.
Qed.
End Loops.

(** ** A chunked response *)
Section Received.
Context (lexical_cast : list Z -> option Z) (buff_size max_string : Z).
Context {St : Type} `{Stream St} (buff_pos : 0 < buff_size < 2 ^ 31 - 4) (max_small : max_string < 2 ^ 63).
(** The header of a response, with the line [e] among the lines [hs1] and [hs2]. *)
Definition chunked_header (p : HttpResponse) (hs1 : MapType) (e : list Z * list Z) (hs2 : MapType) : list Z :=
  (status_line p ++ CRLF) ++ header_lines hs1 ++ header_line e.1 e.2 ++ header_lines hs2.
Lemma chunked_header_reads p hs1 e hs2 : status_ok p -> Forall header_ok hs1 -> says_chunked e -> Forall header_ok hs2 ->
  head_reads max_string false (chunked_header p hs1 e hs2) true (fun d => with_headers (hs1 ++ e :: hs2) (with_start p d)).
Proof.
  intros Hp H1 He H2 buffer rest c Hlen Hmax Eb Hc. unfold chunked_header in *.
  pose proof (rsp_text_app _ _ _ _ _ _ _ _ (text_status max_string p Hp) (text_headers max_string hs1 H1)) as T1.
  set (t1 := (status_line p ++ CRLF) ++ header_lines hs1) in *.
  assert (Et : (status_line p ++ CRLF) ++ header_lines hs1 ++ header_line e.1 e.2 ++ header_lines hs2
    = t1 ++ header_line e.1 e.2 ++ header_lines hs2) by (unfold t1; by rewrite <- (app_assoc _ (header_lines hs1))).
  rewrite Et in *. clear Et. rewrite <- !app_assoc in Eb. rewrite <- !app_assoc.
  destruct (T1 buffer [] (header_line e.1 e.2 ++ header_lines hs2 ++ rest) Hlen Hmax Eb c []) as (c1 & es1 & E1 & (A1 & A2 & _ & A4) & F1).
  destruct (chunked_line_run max_string buffer t1 (header_lines hs2 ++ rest) false e c1 es1 Hlen Hmax He Eb) as (c2 & es2 & E2 & B1 & B2 & B4 & F2).
  destruct (text_headers max_string hs2 H2 buffer (t1 ++ header_line e.1 e.2) rest Hlen Hmax ltac:(by rewrite <- app_assoc) c2 (es1 ++ es2))
    as (c3 & es3 & E3 & (C1 & C2 & _ & C4) & F3).
  exists c3, ((es1 ++ es2) ++ es3). split.
  { cbn [app length] in E1. rewrite E1. change 20 with (line_state false) in E2 |- *. rewrite E2. change 20 with (line_state false) in E3.
    rewrite E3. by rewrite <- app_assoc. }
  split; [by rewrite C1|]. split; [by rewrite C2, B2|]. split; [auto|].
  intros d. rewrite !on_rsp_events_app, F1. cbn [mbind outcome_bind]. rewrite F2. cbn [mbind outcome_bind]. rewrite F3.
  unfold on_rsp, with_headers. cbn. by rewrite foldl_app.
Qed.
Context {Zs : Type} `{Zlib Zs} {heap : Heap}.
(** C12: a chunked response is received: when its header comes with one read and
    its chunks are served behind it, [recvResponse] returns a response with the
    version, the status, the reason and the headers that were sent - names in any
    case, the line [Transfer-Encoding: chunked] anywhere among them - whose body
    is the bytes of the chunks. *)
Theorem chunked_received p hs1 e hs2 b ds mem c fuel s s1 :
  status_ok p -> Forall header_ok hs1 -> says_chunked e -> Forall header_ok hs2 ->
  folded_headers (hs1 ++ e :: hs2) !! s_content_encoding = None ->
  let data := chunked_header p hs1 e hs2 ++ CRLF ++ b in
  s_read buff_size s = (Ret (Z.of_nat (length data), data), s1) -> Z.of_nat (length data) <= buff_size ->
  Z.of_nat (length mem) = buff_size + 1 -> Z.of_nat (length data) <= max_string ->
  serves buff_size b s1 ds -> Z.of_nat (chunks_size ds) + 2 <= max_string -> (chunks_size ds + length ds + 1 < fuel)%nat ->
  exists rsp s2, recvResponse lexical_cast buff_size max_string (S fuel) mem c 0 s = (Ret (Some rsp), s2) /\
    p_version rsp = p_version p /\ p_status rsp = p_status p /\ p_reason rsp = shown_reason p /\ p_body rsp = concat ds /\
    folded (p_headers rsp) = folded_headers (hs1 ++ e :: hs2).
Proof.
  intros Hp H1 He H2 Henc data Hread Hlen Hmem Hmax Hs Hbm Hf. unfold recvResponse, recv_message.
  pose proof (chunked_header_reads p hs1 e hs2 Hp H1 He H2) as Ht.
  destruct (rsp_head_run buff_size max_string ltac:(lia) false _ _ _ b mem (new_HttpResponseParser c 0) fuel s s1 Ht Hread Hmem Hlen Hmax eq_refl)
    as (mem' & p' & Hhead & Hd & Hc & Herr & Em).
  destruct (rsp_with_headers_spec (hs1 ++ e :: hs2) (with_start p (new_HttpResponse 0x11 true))) as (Hsort & Ef & v & Ev); [constructor|].
  change (r_data (new_HttpResponseParser c 0)) with (new_HttpResponse 0x11 true) in Hd. rewrite <- Hd in Hsort, Ef, Ev.
  assert (Hb : Z.of_nat (length b) <= buff_size) by (revert Hlen; unfold data; rewrite !length_app; lia).
  destruct (chunk_loop_received buff_size max_string buff_pos max_small b s1 ds Hs (S fuel) (b ++ mem') [] p' Em Herr Hb) as (p2 & s2 & Hbody & Hd2);
    [apply take_app_length|cbn; lia|lia|].
  cbn [app] in Hbody.
  assert (Er : (h ← rsp_head buff_size max_string (S fuel) mem 0 (new_HttpResponseParser c 0);
    match h with Some (mem, offset, p) => if chunked (r_parser p) then chunk_loop buff_size max_string (S fuel) mem offset [] p
       else plain_body lexical_cast max_string mem offset p | None => mret None end) s = (Ret (Some (concat ds, p2)), s2)).
  { mstep Hhead. cbv beta iota. rewrite Hc. exact Hbody. }
  mstep Er. cbv beta iota. rewrite <- Hd2 in Hsort, Ef, Ev.
  assert (Hdec : decoded (Zs := Zs) p2 (concat ds) = Ret (rsp_setBody (concat ds) (r_data p2))).
  { unfold decoded. destruct (concat ds) as [|x l]; [rewrite Ev; by destruct p|].
    unfold rsp_getHeader, map_get. rewrite map_find_spec by done. rewrite Ef. change (fold s_content_encoding) with s_content_encoding.
    change (foldl _ (folded _) _) with (folded_headers (hs1 ++ e :: hs2)). by rewrite Henc. }
  rewrite Hdec. msimpl. eexists _, s2. split; [reflexivity|]. rewrite Ev in Ef |- *. by split_and!.
Qed.
End Received.

(** ** A response in three reads

    The header and the beginning of a chunk, its end, the other chunks; the
    stream gives at most the first of these reads at once. *)
#[local] Existing Instance zero_heap.
#[local] Existing Instance no_zlib.
Definition sent : HttpResponse := rsp_setHeader (bytes "Server") (bytes "cxk/1.16.0") (new_HttpResponse 0x11 false).
Definition te : list Z * list Z := (bytes "Transfer-Encoding", bytes "Chunked").
Definition first_read : list Z := chunked_header sent (p_headers sent) te [] ++ CRLF ++ chunk_line (bytes "hello") ++ bytes "he".
Definition last_read : list Z := chunk_line (bytes ", world") ++ bytes ", world" ++ CRLF ++ chunk_line [] ++ CRLF ++ bytes "HTTP".
Definition at_wire (l : list Z) : Socket Wire := mkSocket 5 true (mkWire l [] (length first_read - 1)).
Lemma sent_ok : status_ok sent /\ Forall header_ok (p_headers sent).
Proof.
  split; [split; [by left|split; [by vm_compute|by left]]|]. apply list.Forall_singleton. split; [discriminate|]. split; [|split].
  - apply (bool_decide_unpack _). by vm_compute.
  - apply (bool_decide_unpack _). by vm_compute.
  - right. apply rmatch_spec. by vm_compute.
Qed.
Lemma sent_served : serves 200 (chunk_line (bytes "hello") ++ bytes "he") (at_wire (bytes "llo" ++ CRLF ++ last_read)) [bytes "hello"; bytes ", world"].
Proof.
  apply serves_more with (b2 := bytes "llo" ++ CRLF) (s' := at_wire last_read); [discriminate|by vm_compute|reflexivity|discriminate| |].
  - change (bytes "llo" ++ CRLF) with ((bytes "llo" ++ CRLF) ++ []). eapply drained_read; [discriminate|by vm_compute|by vm_compute|constructor].
  - apply serves_read with (c := last_read) (s1 := at_wire []); [discriminate|by vm_compute|by vm_compute|].
    unfold last_read. apply serves_here; [discriminate|by vm_compute|]. apply serves_end.
Qed.
Lemma chunked_received_witness :
  exists rsp s, recvResponse (Zs := unit) cast_decimal 200 (2 ^ 40) 17 (replicate 201 0) no_parser 0
    (at_wire (first_read ++ bytes "llo" ++ CRLF ++ last_read)) = (Ret (Some rsp), s) /\
    p_status rsp = 200 /\ p_reason rsp = bytes "OK" /\ p_body rsp = bytes "hello, world".
Proof.
  destruct (chunked_received cast_decimal 200 (2 ^ 40) ltac:(lia) ltac:(lia) (Zs := unit) sent (p_headers sent) te []
    (chunk_line (bytes "hello") ++ bytes "he") [bytes "hello"; bytes ", world"] (replicate 201 0) no_parser 16
    (at_wire (first_read ++ bytes "llo" ++ CRLF ++ last_read)) (at_wire (bytes "llo" ++ CRLF ++ last_read))
    (proj1 sent_ok) (proj2 sent_ok)) as (rsp & s & Hr & _ & Hs & Hre & Hb & _).
  - split; reflexivity.
  - apply list.Forall_nil_2.
  - by vm_compute.
  - by vm_compute.
  - by vm_compute.
  - reflexivity.
  - by vm_compute.
  - exact sent_served.
  - by vm_compute.
  - vm_compute. lia.
  - exists rsp, s. split; [exact Hr|]. split; [exact Hs|]. split; [exact Hre|exact Hb].
Defined.
