(* ===== verification/HttpPool.v ===== *)
(** * The pool of connections (cxk/http/http_connection.cpp, [HttpConnectionPool])

    The pool, the connections that [new] and [delete] give and take, and the
    threads inside [getConnection] and [ReleasePtr], one atomic region per step:
    a region is what happens under the lock, an update of the counter, or a
    [new] or [delete]. *)
From S2P Require Import Prelude ByteArray Stream Zlib Http HttpServer HttpClientParser Address Uri HttpClient.

(** ** The pool *)

(** [m_conns] holds addresses of connections; [m_total] is an [int32_t]. *)
Record HttpConnectionPool : Type := mkPool {
  m_host : list Z; m_vhost : list Z; m_port : Z; m_maxSize : Z; m_maxAliveTime : Z; m_maxRequest : Z; m_isHttps : bool;
  m_conns : list nat; m_total : Z
}.
Definition set_conns v p := mkPool (m_host p) (m_vhost p) (m_port p) (m_maxSize p) (m_maxAliveTime p) (m_maxRequest p)
  (m_isHttps p) v (m_total p).
Definition set_total v p := mkPool (m_host p) (m_vhost p) (m_port p) (m_maxSize p) (m_maxAliveTime p) (m_maxRequest p)
  (m_isHttps p) (m_conns p) (i32 v).
Definition new_HttpConnectionPool (host vhost : list Z) (port : Z) (is_https : bool) (maxSize max_alive_time max_request : Z) :
    HttpConnectionPool :=
  mkPool host vhost (if negb (port =? 0) then port else if is_https then 443 else 80) maxSize max_alive_time max_request
    is_https [] 0.
(** A null [Uri] is dereferenced. *)
Definition Create (uri vhost : list Z) (max_size max_alive_time max_request : Z) : outcome HttpConnectionPool :=
  turi ← Uri.Create uri;
  match turi with
  | None => Crash
  | Some u =>
      mret (new_HttpConnectionPool (Uri.m_host u) vhost (u32 (getPort u)) (bool_decide (m_scheme u = bytes "https"))
        max_size max_alive_time max_request)
  end.

(** A connection: whether its socket is connected, and its own fields. *)
Record Conn : Type := mkConn { c_connected : bool; m_createTime : Z; m_request : Z }.
Definition new_Conn : Conn := mkConn true 0 0.
Definition set_connected v c := mkConn v (m_createTime c) (m_request c).
Definition set_request v c := mkConn (c_connected c) (m_createTime c) v.
Abbreviation conns := (gmap nat Conn).

(** The loop of [getConnection] under the lock: the connection it found, the
    invalid ones and those that stay in the list. *)
Definition is_invalid (p : HttpConnectionPool) (now_ms : Z) (c : Conn) : bool :=
  negb (c_connected c) || (now_ms <? u64 (m_createTime c + m_maxAliveTime p)).
Fixpoint pop_conn (p : HttpConnectionPool) (h : conns) (now_ms : Z) (l : list nat) : outcome (option nat * list nat * list nat) :=
  match l with
  | [] => Ret (None, [], [])
  | a :: l =>
      match h !! a with
      | None => Crash
      | Some c =>
          if is_invalid p now_ms c then '(ptr, invalid, rest) ← pop_conn p h now_ms l; mret (ptr, a :: invalid, rest)
          else Ret (Some a, [], l)
      end
  end.
(** The test of [ReleasePtr], after [++m_request]. *)
Definition to_delete (p : HttpConnectionPool) (now_ms : Z) (c : Conn) : bool :=
  negb (c_connected c) || (now_ms <=? u64 (m_createTime c + m_maxAliveTime p)) || (m_maxRequest p <=? m_request c).

(** ** Threads

    Where a thread is: outside; with connections to delete, [n] of them in all;
    about to make a connection; with one that is not counted; with the
    connection that it was given; with one that is to be deleted, with one that
    has been; with one that is to be put back. *)
Inductive pc : Type :=
| Idle
| Deleting (ptr : option nat) (todo : list nat) (n : nat)
| Connecting
| Created (a : nat)
| Holding (a : nat)
| Dying (a : nat)
| Freed
| Returning (a : nat).

(** A step of one thread; [use] is what the request does to the connection, and
    [fail] a failure of the address, the socket or [connect]. *)
Inductive move : HttpConnectionPool -> conns -> pc -> HttpConnectionPool -> conns -> pc -> Prop :=
| move_get p h now ptr invalid rest :
    pop_conn p h now (m_conns p) = Ret (ptr, invalid, rest) ->
    move p h Idle (set_conns rest p) h (Deleting ptr invalid (length invalid))
| move_delete p h ptr a todo n : is_Some (h !! a) ->
    move p h (Deleting ptr (a :: todo) n) p (delete a h) (Deleting ptr todo n)
| move_subtract p h ptr n :
    move p h (Deleting ptr [] n) (set_total (m_total p - Z.of_nat n) p) h
      (match ptr with Some a => Holding a | None => Connecting end)
| move_fail p h : move p h Connecting p h Idle
| move_create p h a : h !! a = None -> move p h Connecting p (<[a := new_Conn]> h) (Created a)
| move_count p h a : move p h (Created a) (set_total (m_total p + 1) p) h (Holding a)
| move_use p h a c v : h !! a = Some c -> move p h (Holding a) p (<[a := set_connected v c]> h) (Holding a)
| move_release p h a c now : h !! a = Some c ->
    let c := set_request (u64 (m_request c + 1)) c in
    move p h (Holding a) p (<[a := c]> h) (if to_delete p now c then Dying a else Returning a)
| move_die p h a : is_Some (h !! a) -> move p h (Dying a) p (delete a h) Freed
| move_freed p h : move p h Freed (set_total (m_total p - 1) p) h Idle
| move_return p h a : move p h (Returning a) (set_conns (m_conns p ++ [a]) p) h Idle.

Record World : Type := mkWorld { w_pool : HttpConnectionPool; w_conns : conns; w_threads : list pc }.
Inductive step : World -> World -> Prop :=
| step_move ts1 ts2 p h t p' h' t' :
    move p h t p' h' t' -> step (mkWorld p h (ts1 ++ t :: ts2)) (mkWorld p' h' (ts1 ++ t' :: ts2)).
(** A pool that [Create] or the constructor has made, and [n] threads. *)
Definition start (p : HttpConnectionPool) (n : nat) : World := mkWorld (set_conns [] (set_total 0 p)) ∅ (replicate n Idle).

(** ** Requests *)
Definition pool_path (url : Uri) : list Z := Uri.getPath url ++ prefixed 63 (m_query url) ++ prefixed 35 (m_fragment url).
Definition pool_request (p : HttpConnectionPool) (method : HttpMethod) (url : list Z) (headers : list (list Z * list Z))
    (body : list Z) : HttpRequest :=
  let req := setClose false (setMethod method (Http.setPath url (new_HttpRequest 0x11 true))) in
  let '(has_host, req) := add_headers headers false req in
  let req := if has_host then req else setHeader s_Host (match m_vhost p with [] => m_host p | v => v end) req in
  setBody body req.

Section Requests.
Context (lexical_cast : list Z -> option Z) (buff_size max_string : Z).
Context {Sock St : Type} `{Net Sock St} `{Stream St} {Zs : Type} `{Zlib Zs} {heap : Heap}.
Context (fuel : nat) (mem : list Z) (c : httpclient_parser) (e : Z) (p : HttpConnectionPool).
(** The state is the connection that [getConnection] has given, whose socket is
    not null. *)
Definition doRequest_req (req : HttpRequest) (timeout_ms : Z) : M (option St) HttpResult :=
  conn ← get;
  match conn with
  | None => mret (mkResult POOL_GET_CONNECTION None (bytes "connect failed: " ++ m_host p))
  | Some s =>
      modify (fun _ => Some (setRecvTimeout timeout_ms s)) ;;
      on_conn (exchange lexical_cast buff_size max_string fuel mem c e req timeout_ms)
  end.
Definition doRequest (method : HttpMethod) (url : list Z) (timeout_ms : Z) (headers : list (list Z * list Z)) (body : list Z) :
    M (option St) HttpResult := doRequest_req (pool_request p method url headers body) timeout_ms.
Definition doRequest_uri (method : HttpMethod) (url : Uri) := doRequest method (pool_path url).
Definition doGet (url : list Z) := doRequest GET url.
Definition doGet_uri (url : Uri) := doGet (pool_path url).
Definition doPost (url : list Z) := doRequest POST url.
Definition doPost_uri (url : Uri) := doPost (pool_path url).
End Requests.

(** ** Who has which connection *)
Definition option_list {A} (o : option A) : list A := match o with Some a => [a] | None => [] end.
Definition owned (t : pc) : list nat :=
  match t with
  | Idle | Connecting | Freed => []
  | Deleting ptr todo _ => todo ++ option_list ptr
  | Created a | Holding a | Dying a | Returning a => [a]
  end.
(** What [m_total] counts too much on account of the thread. *)
Definition pending (t : pc) : Z :=
  match t with
  | Deleting _ todo n => Z.of_nat n - Z.of_nat (length todo)
  | Created _ => -1
  | Freed => 1
  | _ => 0
  end.
Fixpoint total_pending (ts : list pc) : Z := match ts with [] => 0 | t :: ts => pending t + total_pending ts end.
Definition places (w : World) : list nat := m_conns (w_pool w) ++ flat_map owned (w_threads w).
Definition allocated (h : conns) (l : list nat) : Prop := NoDup l /\ forall a, a ∈ l <-> is_Some (h !! a).
Definition never_set (h : conns) : Prop := map_Forall (fun _ c => m_createTime c = 0) h.
Record pool_ok (w : World) : Prop := {
  ok_places : allocated (w_conns w) (places w);
  ok_total : m_total (w_pool w) = i32 (Z.of_nat (length (places w)) + total_pending (w_threads w));
  ok_times : never_set (w_conns w)
}.

Lemma i32_add a b : i32 (i32 a + b) = i32 (a + b).
Proof.
  unfold i32, wraps. rewrite <- Z.add_sub_swap.
  replace ((a + 2 ^ (32 - 1)) mod 2 ^ 32 + b - 2 ^ (32 - 1) + 2 ^ (32 - 1)) with ((a + 2 ^ (32 - 1)) mod 2 ^ 32 + b) by lia.
  rewrite Z.add_mod_idemp_l by lia. f_equal. f_equal. lia.
Qed.
Lemma i32_sub a b : i32 (i32 a - b) = i32 (a - b).
Proof. exact (i32_add a (- b)). Qed.
Lemma pop_conn_spec p h now l ptr invalid rest : pop_conn p h now l = Ret (ptr, invalid, rest) ->
  l = invalid ++ option_list ptr ++ rest /\ (ptr = None -> rest = []).
Proof.
  revert ptr invalid rest. induction l as [|a l IH]; cbn [pop_conn]; intros ptr invalid rest; [by intros [= <- <- <-]|].
  destruct (h !! a) as [c|]; [|done]. destruct (is_invalid p now c); [|by intros [= <- <- <-]].
  destruct (pop_conn p h now l) as [[[ptr' invalid'] rest']| | |]; cbn; try done. intros [= <- <- <-].
  destruct (IH _ _ _ eq_refl) as [-> ?]. done.
Qed.
Lemma allocated_perm h l l' : Permutation l l' -> allocated h l -> allocated h l'.
Proof. intros Hp [Hn Hl]. split; [by rewrite <- Hp|]. intros a. by rewrite <- Hp. Qed.
Lemma allocated_delete h a l : allocated h (a :: l) -> allocated (delete a h) l.
Proof.
  intros [[Ha Hn]%list.NoDup_cons Hl]. split; [done|]. intros b. destruct (decide (a = b)) as [<-|Hne].
  - rewrite lookup_delete_eq. split; [done|by intros [? ?]].
  - rewrite lookup_delete_ne by done. rewrite <- Hl, elem_of_cons. split; [auto|by intros [->|?]].
Qed.
Lemma allocated_insert h a c l : h !! a = None -> allocated h l -> allocated (<[a := c]> h) (a :: l).
Proof.
  intros Ha [Hn Hl]. split.
  - apply list.NoDup_cons. split; [|done]. intros [c' Hc]%Hl. congruence.
  - intros b. rewrite elem_of_cons, Hl. destruct (decide (a = b)) as [<-|Hne].
    + rewrite lookup_insert_eq. split; [by eexists|auto].
    + rewrite lookup_insert_ne by done. split; [by intros [->|?]|auto].
Qed.
Lemma allocated_update h a c c' l : h !! a = Some c -> allocated h l -> allocated (<[a := c']> h) l.
Proof.
  intros Ha [Hn Hl]. split; [done|]. intros b. rewrite Hl. destruct (decide (a = b)) as [<-|Hne].
  - rewrite Ha, lookup_insert_eq. split; by eexists.
  - by rewrite lookup_insert_ne.
Qed.
(** A move changes the places of connections only for its own thread. *)
Lemma move_places p h t p' h' t' others : move p h t p' h' t' ->
  allocated h (m_conns p ++ owned t ++ others) -> allocated h' (m_conns p' ++ owned t' ++ others).
Proof.
  destruct 1 as [p h now ptr invalid rest Hp| | | | | | | | | |]; cbn [owned m_conns set_conns set_total option_list]; intros Ha.
  - apply pop_conn_spec in Hp as [E _]. eapply allocated_perm; [|exact Ha]. rewrite E. solve_Permutation.
  - apply allocated_delete. eapply allocated_perm; [|exact Ha]. solve_Permutation.
  - by destruct ptr.
  - done.
  - eapply allocated_perm; [|by apply allocated_insert]. solve_Permutation.
  - done.
  - by eapply allocated_update.
  - destruct (to_delete _ _ _); by eapply allocated_update.
  - apply allocated_delete. eapply allocated_perm; [|exact Ha]. solve_Permutation.
  - done.
  - eapply allocated_perm; [|exact Ha]. solve_Permutation.
Qed.
Lemma move_total p h t p' h' t' k : move p h t p' h' t' ->
  m_total p = i32 (Z.of_nat (length (m_conns p ++ owned t)) + pending t + k) ->
  m_total p' = i32 (Z.of_nat (length (m_conns p' ++ owned t')) + pending t' + k).
Proof.
  destruct 1 as [p h now ptr invalid rest Hp| | | | | | | | | |]; cbn [owned pending m_conns set_conns set_total m_total option_list];
    rewrite ?length_app; cbn [length]; intros E; rewrite ?E, ?i32_add, ?i32_sub.
  1: apply pop_conn_spec in Hp as [-> _]; rewrite !length_app.
  3: destruct ptr; cbn [owned pending option_list].
  9: destruct (to_delete _ _ _).
  all: cbn [owned pending length]; f_equal; lia.
Qed.
Lemma move_times p h t p' h' t' : move p h t p' h' t' -> never_set h -> never_set h'.
Proof.
  destruct 1; intros Hs; try done; try (by apply map_Forall_delete); apply map_Forall_insert_2; try done;
    by apply (Hs a c).
Qed.
Lemma total_pending_app ts1 ts2 : total_pending (ts1 ++ ts2) = total_pending ts1 + total_pending ts2.
Proof. induction ts1 as [|t ts1 IH]; [done|]. cbn [app total_pending]. rewrite IH. lia. Qed.
Lemma places_middle p h ts1 t ts2 :
  Permutation (places (mkWorld p h (ts1 ++ t :: ts2))) (m_conns p ++ owned t ++ flat_map owned ts1 ++ flat_map owned ts2).
Proof. unfold places. cbn [w_pool w_threads]. rewrite flat_map_app. cbn [flat_map]. solve_Permutation. Qed.
Lemma step_ok w w' : step w w' -> pool_ok w -> pool_ok w'.
Proof.
  destruct 1 as [ts1 ts2 p h t p' h' t' Hm]. intros [Hp Ht Hs]. split.
  - eapply allocated_perm; [symmetry; apply places_middle|]. eapply move_places; [exact Hm|].
    eapply allocated_perm; [apply places_middle|exact Hp].
  - cbn [w_pool w_threads] in *. rewrite (Permutation_length (places_middle p h _ _ _)) in Ht.
    rewrite (Permutation_length (places_middle p' h' _ _ _)).
    rewrite total_pending_app in Ht |- *. cbn [total_pending] in Ht |- *.
    set (k := Z.of_nat (length (flat_map owned ts1 ++ flat_map owned ts2)) + total_pending ts1 + total_pending ts2).
    rewrite (move_total _ _ _ _ _ _ k Hm); rewrite ?Ht; f_equal; rewrite !length_app in *; unfold k;
      rewrite !length_app; lia.
  - by apply (move_times _ _ _ _ _ _ Hm).
Qed.
Lemma start_ok p n : pool_ok (start p n).
Proof.
  unfold start. assert (E : flat_map owned (replicate n Idle) = []) by (by induction n).
  assert (E' : total_pending (replicate n Idle) = 0) by (clear E; induction n as [|n IH]; [done|exact IH]).
  split; cbn [w_pool w_conns w_threads places]; unfold places; cbn [w_pool w_threads m_conns set_conns]; rewrite ?E, ?E'; cbn [app].
  - split; [apply base.NoDup_nil_2|]. intros a. rewrite lookup_empty. split; [by intros ?%elem_of_nil|by intros [? ?]].
  - done.
  - apply map_Forall_empty.
Qed.
Lemma pool_reachable_ok p n w : rtc step (start p n) w -> pool_ok w.
Proof.
  intros Hr. pose proof (start_ok p n) as Hs. induction Hr as [|w1 w2 w3 H12 _ IH]; [done|]. apply IH. by apply (step_ok _ _ H12).
Qed.
Lemma allocated_size h l : allocated h l -> size h = length l.
Proof.
  intros [Hn Hl]. rewrite <- size_dom. assert (dom h = list_to_set l) as ->.
  { apply set_eq. intros a. by rewrite elem_of_dom, <- Hl, elem_of_list_to_set. }
  by apply size_list_to_set.
Qed.
Lemma pop_conn_total p h now l : (forall a, a ∈ l -> is_Some (h !! a)) -> exists r, pop_conn p h now l = Ret r.
Proof.
  induction l as [|a l IH]; intros Ha; cbn [pop_conn]; [by eexists|].
  destruct (Ha a) as [c ->]; [by left|]. destruct (is_invalid p now c); [|by eexists].
  destruct IH as [[[ptr invalid] rest] ->]; [|by eexists]. intros b Hb. apply Ha. by right.
Qed.

(** ** Ages

    [m_createTime] stays 0, and [m_createTime + m_maxAliveTime] is compared with
    the time of today. *)
Definition connected_at (h : conns) (a : nat) : bool := match h !! a with Some c => c_connected c | None => false end.
Fixpoint first_connected (h : conns) (l : list nat) : option nat * list nat * list nat :=
  match l with
  | [] => (None, [], [])
  | a :: l =>
      if connected_at h a then (Some a, [], l)
      else let '(ptr, invalid, rest) := first_connected h l in (ptr, a :: invalid, rest)
  end.
Lemma young p now c : m_createTime c = 0 -> 0 <= m_maxAliveTime p < 2 ^ 32 -> 2 ^ 32 <= now ->
  u64 (m_createTime c + m_maxAliveTime p) < now.
Proof. intros -> Hm Hn. rewrite u64_small by lia. lia. Qed.
Lemma pop_first p h now l : never_set h -> (forall a, a ∈ l -> is_Some (h !! a)) ->
  0 <= m_maxAliveTime p < 2 ^ 32 -> 2 ^ 32 <= now -> pop_conn p h now l = Ret (first_connected h l).
Proof.
  intros Hs Ha Hm Hn. induction l as [|a l IH]; cbn [pop_conn first_connected]; [done|]. unfold connected_at.
  destruct (Ha a) as [c Hc]; [by left|]. rewrite Hc. unfold is_invalid.
  pose proof (young p now c (Hs a c Hc) Hm Hn). rewrite (proj2 (Z.ltb_ge _ _)), orb_false_r by lia.
  destruct (c_connected c); cbn [negb]; [done|]. rewrite IH by (intros; apply Ha; by right).
  by destruct (first_connected h l) as [[ptr invalid] rest].
Qed.

(** ** Properties *)

(** C20: in every state that threads reach in [getConnection] and [ReleasePtr]
    and with the connections they were given, every connection is in one place
    only - in the pool's list or with one thread -, those places hold the
    connections that exist and no others, so that none is used by two requests
    or after its deletion, and [m_total] is the number of connections up to what
    the threads inside have still to add or to take off. *)
Theorem pool_exclusive p n w : rtc step (start p n) w ->
  NoDup (places w) /\ (forall a, a ∈ places w <-> is_Some (w_conns w !! a)) /\
  m_total (w_pool w) = i32 (Z.of_nat (size (w_conns w)) + total_pending (w_threads w)) /\
  forall now, exists r, pop_conn (w_pool w) (w_conns w) now (m_conns (w_pool w)) = Ret r.
Proof.
  intros Hr. destruct (pool_reachable_ok p n w Hr) as [Hp Ht _]. pose proof Hp as [Hn Hl]. split_and!; [done..| |].
  - by rewrite (allocated_size _ _ Hp).
  - intros now. apply pop_conn_total. intros a Ha. apply Hl. unfold places. apply elem_of_app. by left.
Qed.

(** C36: no connection is ever too old: from the 50th day of the epoch on,
    [getConnection] takes the first connection of the list that is connected,
    and [ReleasePtr] puts a connection back when it is connected and its
    requests are below [m_maxRequest], whatever the time and the age that the
    pool allows. *)
Theorem pool_never_expires p n w now : rtc step (start p n) w ->
  0 <= m_maxAliveTime (w_pool w) < 2 ^ 32 -> 2 ^ 32 <= now ->
  pop_conn (w_pool w) (w_conns w) now (m_conns (w_pool w)) = Ret (first_connected (w_conns w) (m_conns (w_pool w))) /\
  forall a c r, w_conns w !! a = Some c ->
    to_delete (w_pool w) now (set_request r c) = negb (c_connected c) || (m_maxRequest (w_pool w) <=? r).
Proof.
  intros Hr Hm Hn. destruct (pool_reachable_ok p n w Hr) as [[_ Hl] _ Hs]. split.
  - apply pop_first; try done. intros a Ha. apply Hl. unfold places. apply elem_of_app. by left.
  - intros a c r Hc. unfold to_delete. pose proof (young (w_pool w) now (set_request r c) (Hs a c Hc) Hm Hn).
    by rewrite (proj2 (Z.leb_gt _ _)), orb_false_r by lia.
Qed.

(** [m_maxSize] is never read: threads get as many connections as they ask for. *)
Definition with_one_more (p : HttpConnectionPool) : HttpConnectionPool :=
  set_total (m_total (set_total (m_total p - 0) p) + 1) (set_total (m_total p - 0) (set_conns [] p)).
Lemma get_one p h ts1 ts2 a : m_conns p = [] -> h !! a = None ->
  rtc step (mkWorld p h (ts1 ++ Idle :: ts2))
    (mkWorld (with_one_more p) (<[a := new_Conn]> h) (ts1 ++ Holding a :: ts2)).
Proof.
  intros Hp Ha. eapply rtc_l; [apply step_move, (move_get p h 0 None [] []); by rewrite Hp|].
  eapply rtc_l; [apply step_move, move_subtract|]. eapply rtc_l; [by apply step_move, move_create|].
  eapply rtc_l; [apply step_move, move_count|]. apply rtc_refl.
Qed.
Lemma hold_many n m p h : m_conns p = [] -> (forall a, (m <= a)%nat -> h !! a = None) ->
  exists p' h', rtc step (mkWorld p h (map Holding (seq 0 m) ++ replicate n Idle)) (mkWorld p' h' (map Holding (seq 0 (m + n)))) /\
    m_conns p' = [] /\ m_maxSize p' = m_maxSize p.
Proof.
  revert m p h. induction n as [|n IH]; intros m p h Hp Hh.
  - exists p, h. rewrite Nat.add_0_r, app_nil_r. by split_and!.
  - cbn [replicate]. pose proof (get_one p h (map Holding (seq 0 m)) (replicate n Idle) m Hp (Hh m ltac:(lia))) as Hg.
    destruct (IH (S m) (with_one_more p) (<[m := new_Conn]> h) eq_refl) as (p' & h' & Hr & Hc & Hs).
    { intros a Hle. rewrite lookup_insert_ne by lia. apply Hh. lia. }
    exists p', h'. split_and!; [|done|exact Hs]. rewrite Nat.add_succ_r, <- Nat.add_succ_l. eapply transitivity; [exact Hg|].
    rewrite seq_S, map_app in Hr. cbn [map] in Hr. rewrite <- app_assoc in Hr. exact Hr.
Qed.
Lemma flat_holding l : flat_map owned (map Holding l) = l /\ total_pending (map Holding l) = 0.
Proof. induction l as [|a l [IH1 IH2]]; [done|]. cbn [map flat_map owned total_pending pending app]. by rewrite IH1, IH2. Qed.
Theorem pool_grows p n : Z.of_nat n < 2 ^ 31 ->
  exists w, rtc step (start p n) w /\ m_maxSize (w_pool w) = m_maxSize p /\ w_threads w = map Holding (seq 0 n) /\
    size (w_conns w) = n /\ m_total (w_pool w) = Z.of_nat n.
Proof.
  intros Hn. destruct (hold_many n 0 (set_conns [] (set_total 0 p)) ∅ eq_refl) as (p' & h' & Hr & Hc & Hs).
  { intros. apply lookup_empty. }
  exists (mkWorld p' h' (map Holding (seq 0 n))). split; [exact Hr|]. split; [exact Hs|]. split; [done|].
  destruct (pool_reachable_ok p n _ Hr) as [Hp Ht _]. destruct (flat_holding (seq 0 n)) as [E1 E2].
  unfold places in Hp, Ht. cbn [w_pool w_conns w_threads Nat.add] in *. rewrite Hc, E1 in Hp. rewrite Hc, E1, E2 in Ht.
  cbn [app] in Hp, Ht. apply allocated_size in Hp. rewrite length_seq in Hp, Ht. split; [done|].
  rewrite Ht, i32_small by lia. lia.
Qed.

(** ** The text of a request

    The pool puts query and fragment into the path; the line is that of
    [HttpConnection::DoRequest]. *)
Lemma add_headers_line headers : forall b req, exists b' v c,
  add_headers headers b req = (b', setHeaders v (setClose c req)).
Proof.
  induction headers as [|[k v] headers IH]; intros b req; cbn [add_headers].
  - exists b, (q_headers req), (q_close req). by destruct req.
  - destruct (is_eq (strcasecmp k s_connection)).
    + destruct (is_eq (strcasecmp v s_keep_alive)); [|apply IH].
      destruct (IH b (setClose false req)) as (b' & v' & c' & ->). by exists b', v', c'.
    + destruct (IH (if negb b && is_eq (strcasecmp k s_host) then negb (bool_decide (v = [])) else b) (setHeader k v req))
        as (b' & v' & c' & ->). by exists b', v', c'.
Qed.
Theorem pool_request_line p method url headers body :
  request_line (pool_request p method (pool_path url) headers body) = request_line (build_request method url headers body).
Proof.
  unfold pool_request, build_request.
  destruct (add_headers_line headers false (setClose false (setMethod method (Http.setPath (pool_path url) (new_HttpRequest 0x11 true)))))
    as (b & v & c & ->).
  destruct (add_headers_line headers false (setMethod method (Http.setFragment (m_fragment url) (Http.setQuery (m_query url)
    (Http.setPath (Uri.getPath url) (new_HttpRequest 0x11 true)))))) as (b' & v' & c' & ->).
  destruct b, b'; unfold request_line, pool_path, prefixed; cbn -[app HttpMethodToString]; destruct (m_query url), (m_fragment url);
    rewrite <- ?app_assoc; cbn [app]; rewrite <- ?app_assoc; reflexivity.
Qed.

(** ** Witnesses *)
Definition small_pool : HttpConnectionPool := new_HttpConnectionPool (bytes "localhost") [] 0 false 1 1000 5.
Definition one_returned : World :=
  mkWorld (set_conns [0%nat] (set_total 1 small_pool)) {[ 0%nat := mkConn true 0 1 ]} [Idle; Idle].
Lemma one_reached : rtc step (start small_pool 2) one_returned.
Proof.
  eapply transitivity; [exact (get_one (set_conns [] (set_total 0 small_pool)) ∅ [] [Idle] 0 eq_refl (lookup_empty _))|].
  eapply rtc_l; [apply (step_move [] [Idle]), (move_release _ _ 0 new_Conn 5000000000); apply lookup_insert_eq|].
  eapply rtc_l; [apply (step_move [] [Idle]), move_return|]. rewrite insert_insert_eq. apply rtc_refl.
Qed.
Lemma pool_exclusive_witness : NoDup (places one_returned) /\ m_total (w_pool one_returned) = 1.
Proof.
  destruct (pool_exclusive small_pool 2 one_returned one_reached) as (Hn & _ & Ht & _). split; [exact Hn|].
  rewrite Ht. vm_compute. reflexivity.
Defined.
Lemma pool_never_expires_witness :
  pop_conn (w_pool one_returned) (w_conns one_returned) (2 ^ 40) [0%nat] = Ret (Some 0%nat, [], []).
Proof.
  destruct (pool_never_expires small_pool 2 one_returned (2 ^ 40) one_reached) as [Hp _]; [by vm_compute|by vm_compute|].
  etransitivity; [exact Hp|]. vm_compute. reflexivity.
Defined.
