(* ===== verification/Semaphore.v ===== *)
(** * Fiber semaphore (cxk/mutex.cpp, mutex.h)

    [FiberSemaphore] under its spin lock: each operation is one step.  A waiter
    is a scheduler with a fiber; a notified waiter is handed to its scheduler,
    whose queue is the record of what was scheduled, in order. *)
From S2P Require Import Prelude.

Definition Waiter : Type := nat * nat.   (* scheduler, fiber *)
Record FiberSemaphore := mkSem { m_concurrency : Z; m_waiters : list Waiter; scheduled : list Waiter }.
Definition new_FiberSemaphore (initial_concurrency : Z) : FiberSemaphore := mkSem initial_concurrency [] [].

(** The calling fiber runs under a scheduler, or the assertion fails. *)
Definition tryWait (me : option Waiter) : M FiberSemaphore bool := fun s =>
  match me with
  | None => (Crash, s)
  | Some _ =>
      if 0 <? m_concurrency s
      then (Ret true, mkSem (m_concurrency s - 1) (m_waiters s) (scheduled s))
      else (Ret false, s)
  end.
(** [true]: the caller holds the semaphore; [false]: it is queued, and yields. *)
Definition wait (me : option Waiter) : M FiberSemaphore bool := fun s =>
  match me with
  | None => (Crash, s)
  | Some w =>
      if 0 <? m_concurrency s
      then (Ret true, mkSem (m_concurrency s - 1) (m_waiters s) (scheduled s))
      else (Ret false, mkSem (m_concurrency s) (m_waiters s ++ [w]) (scheduled s))
  end.
Definition notify : M FiberSemaphore unit := fun s =>
  match m_waiters s with
  | next :: waiters => (Ret tt, mkSem (m_concurrency s) waiters (scheduled s ++ [next]))
  | [] => (Ret tt, mkSem (u64 (m_concurrency s + 1)) [] (scheduled s))
  end.
Definition getConcurrency (s : FiberSemaphore) : Z := m_concurrency s.
Definition reset : M FiberSemaphore unit := fun s => (Ret tt, mkSem 0 (m_waiters s) (scheduled s)).
(** The destructor's assertion. *)
Definition destroy (s : FiberSemaphore) : outcome unit := if decide (m_waiters s = []) then Ret tt else Crash.

(** ** A run of operations, and what it amounts to *)
Inductive Op : Type := TryWait (w : Waiter) | Wait (w : Waiter) | Notify.
Definition do_op (o : Op) : M FiberSemaphore bool :=
  match o with
  | TryWait w => tryWait (Some w)
  | Wait w => wait (Some w)
  | Notify => notify ;; mret true
  end.
(** The operations with their results. *)
Fixpoint run_ops (os : list Op) (s : FiberSemaphore) : list bool * FiberSemaphore :=
  match os with
  | [] => ([], s)
  | o :: os =>
      match do_op o s with
      | (Ret b, s) => let '(bs, s) := run_ops os s in (b :: bs, s)
      | (_, s) => ([], s)
      end
  end.

(** What a counting semaphore promises: its value counts the units that are
    left, negative when fibers wait. *)
Definition change (o : Op) (b : bool) : Z :=
  match o with TryWait _ => if b then -1 else 0 | Wait _ => -1 | Notify => 1 end.
Fixpoint value (init : Z) (os : list Op) (bs : list bool) : Z :=
  match os, bs with o :: os, b :: bs => value (init + change o b) os bs | _, _ => init end.
Definition sem_value (s : FiberSemaphore) : Z := m_concurrency s - Z.of_nat (length (m_waiters s)).
(** The fibers that had to wait, in the order of their calls. *)
Fixpoint parked (os : list Op) (bs : list bool) : list Waiter :=
  match os, bs with
  | Wait w :: os, false :: bs => w :: parked os bs
  | _ :: os, _ :: bs => parked os bs
  | _, _ => []
  end.
Definition sem_ok (s : FiberSemaphore) : Prop :=
  0 <= m_concurrency s /\ (m_waiters s <> [] -> m_concurrency s = 0).

Lemma do_op_run o s : sem_ok s -> m_concurrency s + 1 < 2 ^ 64 ->
  exists b s', do_op o s = (Ret b, s') /\ sem_ok s' /\ sem_value s' = sem_value s + change o b /\
    scheduled s' ++ m_waiters s' = (scheduled s ++ m_waiters s) ++ parked [o] [b] /\
    m_concurrency s' <= m_concurrency s + 1.
Proof.
  intros [Hc Hw] Hb. destruct s as [c ws sched]. unfold sem_ok, sem_value in *. cbn [m_concurrency m_waiters] in *.
  assert (Hsplit : c = 0 \/ (0 < c /\ ws = [])).
  { destruct ws as [|w ws]; [|left; by apply Hw]. destruct (decide (c = 0)); [by left|right; split; [lia|done]]. }
  destruct o as [w|w|]; cbn [do_op tryWait wait m_concurrency m_waiters].
  - destruct (Z.ltb_spec 0 c).
    + destruct Hsplit as [?|[_ ->]]; [lia|]. do 2 eexists. split; [done|]. cbn. rewrite !app_nil_r.
      split_and!; try done; lia.
    + do 2 eexists. split; [done|]. cbn. rewrite app_nil_r. split_and!; try done; lia.
  - destruct (Z.ltb_spec 0 c).
    + destruct Hsplit as [?|[_ ->]]; [lia|]. do 2 eexists. split; [done|]. cbn. rewrite !app_nil_r.
      split_and!; try done; lia.
    + do 2 eexists. split; [done|]. cbn. rewrite length_app, app_assoc. cbn [length].
      split_and!; try done; try lia; intros; lia.
  - unfold notify. destruct ws as [|w ws]; cbn.
    + do 2 eexists. split; [done|]. cbn. unfold u64. rewrite (wrapu_id 64) by lia. rewrite !app_nil_r.
      split_and!; try done; lia.
    + specialize (Hw ltac:(done)). subst c. do 2 eexists. split; [done|]. cbn. rewrite app_nil_r, <- app_assoc.
      split_and!; try done; lia.
Qed.

Lemma run_ops_run os s : sem_ok s -> m_concurrency s + Z.of_nat (length os) < 2 ^ 64 ->
  let '(bs, s') := run_ops os s in
  length bs = length os /\ sem_ok s' /\ sem_value s' = value (sem_value s) os bs /\
  scheduled s' ++ m_waiters s' = (scheduled s ++ m_waiters s) ++ parked os bs.
Proof.
  revert s. induction os as [|o os IH]; intros s Hs Hb; cbn [run_ops].
  - cbn. by rewrite app_nil_r.
  - cbn [length] in Hb. destruct (do_op_run o s Hs ltac:(lia)) as (b & s1 & -> & Hs1 & Hv & Hq & Hc).
    specialize (IH s1 Hs1 ltac:(lia)). destruct (run_ops os s1) as [bs s']. destruct IH as (Hl & Hs' & Hv' & Hq').
    cbn [length value]. rewrite Hl, Hv', Hv, Hq', Hq, <- app_assoc. split_and!; try done.
    f_equal. destruct o as [w|w|]; [done| |done]. by destruct b.
Qed.

(** the fiber semaphore is a counting semaphore with a fair queue: after any
    operations, its count less its waiters is the initial value plus the
    notifications less the waits; no fiber waits while a unit is left; and the
    fibers that had to wait are woken, each once, in the order in which they
    came, one by each notification. *)
Theorem semaphore_fair init os :
  0 <= init -> init + Z.of_nat (length os) < 2 ^ 64 ->
  let '(bs, s) := run_ops os (new_FiberSemaphore init) in
  length bs = length os /\
  m_concurrency s - Z.of_nat (length (m_waiters s)) = value init os bs /\
  (m_waiters s <> [] -> m_concurrency s = 0) /\
  scheduled s ++ m_waiters s = parked os bs.
Proof.
  intros Hi Hb. pose proof (run_ops_run os (new_FiberSemaphore init)) as H.
  destruct (run_ops os (new_FiberSemaphore init)) as [bs s]. unfold sem_value in H. cbn in H.
  destruct H as (Hl & [_ Hok] & Hv & Hq); [by split|done|]. split_and!; try done. by rewrite Hv, Z.sub_0_r.
Qed.
Lemma semaphore_fair_witness :
  let os := [Wait (1, 10); Wait (1, 11); Wait (1, 12); Notify; TryWait (1, 13); Notify; Notify]%nat in
  let '(bs, s) := run_ops os (new_FiberSemaphore 1) in
  bs = [true; false; false; true; false; true; true] /\
  scheduled s ++ m_waiters s = [(1, 11); (1, 12)]%nat /\ m_concurrency s = 1.
Proof.
  intros os. pose proof (semaphore_fair 1 os ltac:(lia) ltac:(by vm_compute)) as H.
  destruct (run_ops os (new_FiberSemaphore 1)) as [bs s] eqn:E.
  assert (Eb : bs = [true; false; false; true; false; true; true]).
  { apply (f_equal fst) in E. cbn [fst] in E. rewrite <- E. by vm_compute. }
  assert (Ec : m_concurrency s = 1).
  { apply (f_equal snd) in E. cbn [snd] in E. rewrite <- E. by vm_compute. }
  destruct H as (_ & _ & _ & Hq). split; [exact Eb|]. split; [|exact Ec]. rewrite Hq, Eb. reflexivity.
Defined.
