(* ===== verification/LoadBalance.v ===== *)
(** * Load balancing (cxk/stream/load_balance.cpp, load_balance.h)

    The items are numbers; whether an item is valid and its weight are
    functions of the item.  The number drawn by [rand()] is an argument.  The
    statistics of a connection are counters in a ring of one slot per second;
    the weight computed from them in floating point is a parameter. *)
From S2P Require Import Prelude.

(** ** The list of items *)
Definition add (v : nat) (items : list nat) : list nat := items ++ [v].
Fixpoint del (v : nat) (items : list nat) : list nat :=
  match items with [] => [] | x :: l => if decide (x = v) then l else x :: del v l end.
Definition set (vs items : list nat) : list nat := vs.

Section Get.
Context (isValid : nat -> bool).
(** [for(i = 0; i < size; ++i) { h = m_items[(start + i) % size]; if valid return h }] *)
Fixpoint scan_from (fuel : nat) (start i : Z) (items : list nat) : option nat :=
  match fuel with
  | O => None
  | S fuel =>
      match items !! Z.to_nat (u64 (start + i) mod Z.of_nat (length items)) with
      | Some h => if isValid h then Some h else scan_from fuel start (i + 1) items
      | None => None
      end
  end.
Definition RoundRobin_get (rand : Z) (items : list nat) : option nat :=
  match items with
  | [] => None
  | _ => scan_from (length items) (u32 (rand mod Z.of_nat (length items))) 0 items
  end.

Section Weights.
Context (getWeight : nat -> Z).
(** The running totals, on [int32_t]. *)
Fixpoint init_loop (items : list nat) (total : Z) : outcome (list Z * Z) :=
  match items with
  | [] => Ret ([], total)
  | x :: items =>
      total ← chk_signed 32 (total + getWeight x);
      '(ws, t) ← init_loop items total;
      Ret (total :: ws, t)
  end.
Definition initWeight (items : list nat) : outcome (list Z * Z) := init_loop items 0.
End Weights.

(** [std::upper_bound]: the number of leading elements that are [<= v], on a
    sorted sequence. *)
Fixpoint upper_bound (ws : list Z) (v : Z) : nat :=
  match ws with [] => O | w :: ws => if v <? w then O else S (upper_bound ws v) end.
(** [std::distance(it, begin)] is the position, negated; [rand() % 0] is
    undefined. *)
Definition getIdx (rand : Z) (weights : list Z) : outcome Z :=
  match weights with
  | [] => Ret (-1)
  | _ =>
      let total := List.last weights 0 in
      if total =? 0 then Crash else Ret (- Z.of_nat (upper_bound weights (Z.rem rand total)))
  end.
Definition Weight_get (rand : Z) (weights : list Z) (items : list nat) : outcome (option nat) :=
  idx ← getIdx rand weights;
  if idx =? -1 then Ret None else Ret (scan_from (length items) idx 0 items).
End Get.

(** ** Statistics *)
Record HolderStats := mkStats {
  m_usedTime : Z; m_total : Z; m_doing : Z; m_timeout : Z; m_oks : Z; m_errs : Z
}.
Definition clear : HolderStats := mkStats 0 0 0 0 0 0.
Definition incUsedTime v s := mkStats (u32 (m_usedTime s + v)) (m_total s) (m_doing s) (m_timeout s) (m_oks s) (m_errs s).
Definition incTotal v s := mkStats (m_usedTime s) (u32 (m_total s + v)) (m_doing s) (m_timeout s) (m_oks s) (m_errs s).
Definition incDoing v s := mkStats (m_usedTime s) (m_total s) (u32 (m_doing s + v)) (m_timeout s) (m_oks s) (m_errs s).
Definition incTimeouts v s := mkStats (m_usedTime s) (m_total s) (m_doing s) (u32 (m_timeout s + v)) (m_oks s) (m_errs s).
Definition incOks v s := mkStats (m_usedTime s) (m_total s) (m_doing s) (m_timeout s) (u32 (m_oks s + v)) (m_errs s).
(** [incErrs] adds 0 and [decDoing] subtracts 0. *)
Definition incErrs (v : Z) s := mkStats (m_usedTime s) (m_total s) (m_doing s) (m_timeout s) (m_oks s) (u32 (m_errs s + 0)).
Definition decDoing (v : Z) s := mkStats (m_usedTime s) (m_total s) (u32 (m_doing s - 0)) (m_timeout s) (m_oks s) (m_errs s).

Record HolderStatsSet := mkSet { m_lastUpdateTime : Z; m_stats : list HolderStats }.
Definition new_HolderStatsSet (size : nat) : HolderStatsSet := mkSet 0 (replicate size clear).
(** The loop of [init], from second [t], at most [fuel] rounds. *)
Fixpoint init_stats (fuel : nat) (t now : Z) (stats : list HolderStats) : list HolderStats :=
  match fuel with
  | O => stats
  | S fuel =>
      if t <=? now then
        init_stats fuel (u32 (t + 1)) now (<[Z.to_nat (t mod Z.of_nat (length stats)) := clear]> stats)
      else stats
  end.
Definition init (now : Z) (s : HolderStatsSet) : HolderStatsSet :=
  if m_lastUpdateTime s <? now
  then mkSet now (init_stats (length (m_stats s)) (u32 (m_lastUpdateTime s + 1)) now (m_stats s))
  else s.
(** [get(now)] returns a reference to a slot, through which the caller applies
    [f]; without slots the division is by zero. *)
Definition slot (now : Z) (s : HolderStatsSet) : nat := Z.to_nat (now mod Z.of_nat (length (m_stats s))).
Definition get (now : Z) (f : HolderStats -> HolderStats) (s : HolderStatsSet) : outcome HolderStatsSet :=
  let s := init now s in
  match m_stats s !! slot now s with
  | Some v => Ret (mkSet (m_lastUpdateTime s) (<[slot now s := f v]> (m_stats s)))
  | None => Crash
  end.

(** ** The choice of an item *)

(** The item that the search finds: the first valid one from [start] on, round
    the list. *)
Definition first_valid (isValid : nat -> bool) (start : Z) (items : list nat) (r : option nat) : Prop :=
  let n := Z.of_nat (length items) in
  match r with
  | Some h => exists k, 0 <= k < n /\ items !! Z.to_nat ((start + k) mod n) = Some h /\ isValid h = true /\
      forall j, 0 <= j < k -> exists x, items !! Z.to_nat ((start + j) mod n) = Some x /\ isValid x = false
  | None => forall x, x ∈ items -> isValid x = false
  end.

Lemma rotation_covers start (items : list nat) i : (i < length items)%nat ->
  exists j, 0 <= j < Z.of_nat (length items) /\ Z.to_nat ((start + j) mod Z.of_nat (length items)) = i.
Proof.
  intros Hi. set (n := Z.of_nat (length items)). exists ((Z.of_nat i - start) mod n).
  pose proof (Z.mod_pos_bound (Z.of_nat i - start) n ltac:(lia)). split; [lia|].
  rewrite Zplus_mod_idemp_r. replace (start + (Z.of_nat i - start)) with (Z.of_nat i) by lia.
  rewrite Z.mod_small by lia. apply Nat2Z.id.
Qed.
Lemma scan_from_spec isValid fuel start i items :
  items <> [] -> 0 <= i -> Z.of_nat fuel + i = Z.of_nat (length items) -> 0 <= start ->
  start + Z.of_nat (length items) < 2 ^ 64 ->
  (forall j, 0 <= j < i -> exists x, items !! Z.to_nat ((start + j) mod Z.of_nat (length items)) = Some x /\ isValid x = false) ->
  first_valid isValid start items (scan_from isValid fuel start i items).
Proof.
  intros Hne. assert (Hn : (0 < length items)%nat) by (destruct items; [done|cbn; lia]).
  revert i. induction fuel as [|fuel IH]; intros i Hi Hf Hs Hb Hj; cbn [scan_from].
  - intros x Hx. apply list_elem_of_lookup_1 in Hx as [p Hp]. pose proof (lookup_lt_Some _ _ _ Hp).
    destruct (rotation_covers start items p) as (j & Hj' & E); [done|].
    destruct (Hj j ltac:(lia)) as (y & Hy & Hv). rewrite E, Hp in Hy. by injection Hy as ->.
  - unfold u64. rewrite wrapu_id by lia.
    pose proof (Z.mod_pos_bound (start + i) (Z.of_nat (length items)) ltac:(lia)) as Hm.
    destruct (lookup_lt_is_Some_2 items (Z.to_nat ((start + i) mod Z.of_nat (length items)))) as [h Hh]; [lia|].
    rewrite Hh. destruct (isValid h) eqn:Ev.
    + exists i. split_and!; try done. lia.
    + apply IH; try lia. intros j Hj'. destruct (decide (j = i)) as [->|]; [by exists h|]. apply Hj. lia.
Qed.

(** C38: [RoundRobinLoadBalance::get] returns a valid item whenever there is one:
    the first one from a random place on, round the list. *)
Theorem round_robin_get isValid rand items :
  0 <= rand -> Z.of_nat (length items) < 2 ^ 32 ->
  match RoundRobin_get isValid rand items with
  | Some h => h ∈ items /\ isValid h = true /\
      first_valid isValid (rand mod Z.of_nat (length items)) items (Some h)
  | None => forall x, x ∈ items -> isValid x = false
  end.
Proof.
  intros Hr Hb. unfold RoundRobin_get. destruct items as [|x0 l] eqn:E; [by intros x Hx%not_elem_of_nil|].
  rewrite <- E in *. clear E.
  assert (Hpos : (0 < length items)%nat \/ items = []) by (destruct items; [by right|left; cbn; lia]).
  destruct Hpos as [Hpos| ->]; [|by intros x Hx%not_elem_of_nil].
  pose proof (Z.mod_pos_bound rand (Z.of_nat (length items)) ltac:(lia)) as Hm.
  unfold u32. rewrite wrapu_id by lia.
  pose proof (scan_from_spec isValid (length items) (rand mod Z.of_nat (length items)) 0 items) as H.
  destruct (scan_from _ _ _ _ _) as [h|].
  - assert (Hf : first_valid isValid (rand mod Z.of_nat (length items)) items (Some h)).
    { apply H; [intros ->; cbn in Hpos; lia|lia|lia|lia|lia|intros; lia]. }
    split_and!; [|by destruct Hf as (k & _ & _ & ? & _)|done].
    destruct Hf as (k & _ & Hl & _). by eapply list_elem_of_lookup_2.
  - apply H; [intros ->; cbn in Hpos; lia|lia|lia|lia|lia|intros; lia].
Qed.

(** [WeightLoadBalance::get] misses by its sign: the index of the chosen
    interval comes out negated. The second interval, [-1], is taken for the
    error and gives null though every item may be valid; the first one works. *)
Theorem weight_get isValid rand w0 w1 ws items :
  0 <= rand -> 0 < w0 < w1 -> Forall (fun w => w1 < w) ws -> items <> [] -> Z.of_nat (length items) < 2 ^ 32 ->
  let weights := w0 :: w1 :: ws in
  let v := Z.rem rand (List.last weights 0) in
  (w0 <= v < w1 -> Weight_get isValid rand weights items = Ret None) /\
  (v < w0 -> exists r, Weight_get isValid rand weights items = Ret r /\ first_valid isValid 0 items r).
Proof.
  intros Hr Hw Hws Hne Hb weights v. assert (Htot : List.last weights 0 <> 0).
  { unfold weights. destruct ws as [|w ws]; [cbn; lia|].
    destruct (exists_last (l := w :: ws) ltac:(done)) as (l' & y & E). rewrite E in Hws. rewrite E.
    change (w0 :: w1 :: l' ++ [y]) with ((w0 :: w1 :: l') ++ [y]). rewrite List.last_last.
    apply list.Forall_app in Hws as [_ [? _]%list.Forall_cons]. lia. }
  unfold Weight_get, getIdx. change (w0 :: w1 :: ws) with weights. unfold weights at 1 3.
  fold weights. fold v. rewrite (proj2 (Z.eqb_neq _ _) Htot). unfold weights. cbn [upper_bound]. split; intros Hv.
  - destruct (Z.ltb_spec v w0); [lia|]. destruct (Z.ltb_spec v w1); [done|lia].
  - destruct (Z.ltb_spec v w0); [|lia]. cbn. eexists. split; [done|].
    apply scan_from_spec; [done|lia|lia|lia|lia|intros; lia].
Qed.

(** ** The window of seconds *)
Definition stat_at (t : Z) (stats : list HolderStats) : option HolderStats :=
  stats !! Z.to_nat (t mod Z.of_nat (length stats)).

Lemma length_init_stats fuel t now stats : length (init_stats fuel t now stats) = length stats.
Proof.
  revert t stats. induction fuel as [|fuel IH]; intros t stats; [done|]. cbn [init_stats].
  destruct (t <=? now); [|done]. by rewrite IH, length_insert.
Qed.
(** The loop clears the slots of the seconds from [t] to [now]. *)
Lemma init_stats_spec fuel t now stats u :
  stats <> [] -> 0 <= t -> now < 2 ^ 32 - 1 ->
  (t <= u <= now -> u < t + Z.of_nat fuel -> stat_at u (init_stats fuel t now stats) = Some clear) /\
  ((forall v, t <= v <= now -> v < t + Z.of_nat fuel ->
      v mod Z.of_nat (length stats) <> u mod Z.of_nat (length stats)) ->
   stat_at u (init_stats fuel t now stats) = stat_at u stats) /\
  (stat_at u stats = Some clear -> stat_at u (init_stats fuel t now stats) = Some clear).
Proof.
  intros Hne. assert (Hn : 0 < Z.of_nat (length stats)) by (destruct stats; [done|cbn; lia]). clear Hne.
  revert t stats Hn. induction fuel as [|fuel IH]; intros t stats Hn Ht Hnow; cbn [init_stats].
  { split_and!; try done. lia. }
  destruct (Z.leb_spec t now) as [Hle|Hgt].
  2:{ split_and!; try done. lia. }
  assert (Hu : u32 (t + 1) = t + 1) by (apply wrapu_id; lia). rewrite Hu.
  set (stats' := <[Z.to_nat (t mod Z.of_nat (length stats)) := clear]> stats).
  assert (El : length stats' = length stats) by apply length_insert.
  pose proof (Z.mod_pos_bound t (Z.of_nat (length stats)) Hn) as Hmt.
  pose proof (Z.mod_pos_bound u (Z.of_nat (length stats)) Hn) as Hmu.
  destruct (IH (t + 1) stats' ltac:(lia) ltac:(lia) Hnow) as (IH1 & IH2 & IH3). rewrite El in *.
  assert (Hhit : t mod Z.of_nat (length stats) = u mod Z.of_nat (length stats) -> stat_at u stats' = Some clear).
  { intros E. unfold stat_at, stats'. rewrite length_insert, <- E. apply list_lookup_insert_eq. lia. }
  assert (Hmiss : t mod Z.of_nat (length stats) <> u mod Z.of_nat (length stats) -> stat_at u stats' = stat_at u stats).
  { intros E. unfold stat_at, stats'. rewrite length_insert. apply list_lookup_insert_ne. lia. }
  split_and!.
  - intros Hr Hf. destruct (decide (u = t)) as [->|]; [apply IH3, Hhit; done|]. apply IH1; lia.
  - intros Hv. rewrite IH2; [apply Hmiss, Hv; lia|]. intros v Hr Hf. apply Hv; lia.
  - intros Hc. apply IH3.
    destruct (decide (t mod Z.of_nat (length stats) = u mod Z.of_nat (length stats))); [by apply Hhit|].
    by rewrite Hmiss.
Qed.

(** The statistics of the last seconds: each second of the window has its slot,
    and nothing is recorded after the last one. *)
Definition window_ok (w : Z -> HolderStats) (s : HolderStatsSet) : Prop :=
  let n := Z.of_nat (length (m_stats s)) in
  0 < n /\ 0 <= m_lastUpdateTime s < 2 ^ 32 - 1 /\
  (forall t, m_lastUpdateTime s - n < t <= m_lastUpdateTime s -> stat_at t (m_stats s) = Some (w t)) /\
  (forall t, m_lastUpdateTime s < t -> w t = clear).
Definition record (now : Z) (f : HolderStats -> HolderStats) (w : Z -> HolderStats) : Z -> HolderStats :=
  fun t => if t =? now then f (w t) else w t.

Lemma same_slot n t u : 0 < n -> t mod n = u mod n -> u < t -> u + n <= t.
Proof.
  intros Hn E Hlt. assert (Hd : (n | t - u)).
  { apply Z.mod_divide; [lia|]. rewrite Zminus_mod, E, Z.sub_diag. apply Z.mod_0_l. lia. }
  destruct Hd as [k Hk]. assert (0 < k) by nia. nia.
Qed.
Lemma init_window now w s :
  window_ok w s -> now < 2 ^ 32 - 1 ->
  window_ok w (init now s) /\ m_lastUpdateTime (init now s) = Z.max (m_lastUpdateTime s) now /\
  length (m_stats (init now s)) = length (m_stats s).
Proof.
  intros (Hn & Hl & Hw & Hc) Hnow. unfold init. destruct (Z.ltb_spec (m_lastUpdateTime s) now) as [Hlt|Hge].
  2:{ split_and!; try done. lia. }
  cbn [m_lastUpdateTime m_stats]. assert (Hu : u32 (m_lastUpdateTime s + 1) = m_lastUpdateTime s + 1)
    by (apply wrapu_id; lia). rewrite Hu.
  set (last := m_lastUpdateTime s) in *. set (stats := m_stats s) in *.
  rewrite length_init_stats. split_and!; [|lia|done].
  unfold window_ok. cbn [m_lastUpdateTime m_stats]. rewrite length_init_stats.
  split_and!; [done|lia|lia| |intros t Ht; apply Hc; lia].
  intros t Ht. destruct (init_stats_spec (length stats) (last + 1) now stats t) as (H1 & H2 & _); [by destruct stats|lia|lia|].
  destruct (decide (last < t)) as [Hgt|Hle].
  - rewrite (Hc t Hgt). destruct (decide (t < last + 1 + Z.of_nat (length stats))) as [|Hfar]; [apply H1; lia|].
    destruct (init_stats_spec (length stats) (last + 1) now stats
      (last + 1 + (t - (last + 1)) mod Z.of_nat (length stats))) as (H3 & _ & _); [by destruct stats|lia|lia|].
    pose proof (Z.mod_pos_bound (t - (last + 1)) (Z.of_nat (length stats)) Hn) as Hm.
    rewrite <- H3 by lia. unfold stat_at. rewrite length_init_stats. do 2 f_equal.
    rewrite Zplus_mod_idemp_r. f_equal. lia.
  - rewrite H2; [apply Hw; lia|]. intros v Hv Hf E. pose proof (same_slot _ v t Hn E ltac:(lia)). lia.
Qed.

(** the ring of slots is a sliding window over the seconds: whatever is
    recorded at a second through [get] is what [get] finds there again, as long
    as the second is one of the last [size]; a second that has not been seen
    starts from zero, also after an arbitrary long pause. *)
Theorem stats_window now f w s :
  window_ok w s -> m_lastUpdateTime s - Z.of_nat (length (m_stats s)) < now < 2 ^ 32 - 1 ->
  exists s', get now f s = Ret s' /\ window_ok (record now f w) s' /\
    m_lastUpdateTime s' = Z.max (m_lastUpdateTime s) now /\
    stat_at now (m_stats s') = Some (f (w now)).
Proof.
  intros Hw Hnow. destruct (init_window now w s Hw ltac:(lia)) as ((Hn & Hl & Hst & Hc) & Elast & Elen).
  unfold get. fold (stat_at now (m_stats (init now s))).
  unfold slot. assert (Hin : stat_at now (m_stats (init now s)) = Some (w now)) by (apply Hst; lia).
  unfold stat_at in Hin. rewrite Hin. eexists. split; [done|].
  pose proof (Z.mod_pos_bound now (Z.of_nat (length (m_stats (init now s)))) Hn) as Hm.
  assert (Hself : stat_at now (<[Z.to_nat (now mod Z.of_nat (length (m_stats (init now s)))) := f (w now)]>
      (m_stats (init now s))) = Some (f (w now))).
  { unfold stat_at. rewrite length_insert. apply list_lookup_insert_eq. lia. }
  split; [|split; [exact Elast|exact Hself]].
  unfold window_ok. cbn [m_lastUpdateTime m_stats]. rewrite length_insert. split_and!; try done; try lia.
  - intros t Ht. unfold record. destruct (Z.eqb_spec t now) as [->|Hne]; [exact Hself|].
    unfold stat_at. rewrite length_insert, list_lookup_insert_ne; [by apply Hst|].
    pose proof (Z.mod_pos_bound t (Z.of_nat (length (m_stats (init now s)))) Hn) as Hmt.
    intros E. apply Z2Nat.inj in E; [|lia|lia].
    destruct (decide (t < now)).
    + pose proof (same_slot _ now t Hn E ltac:(lia)). lia.
    + pose proof (same_slot _ t now Hn (eq_sym E) ltac:(lia)). lia.
  - intros t Ht. unfold record. destruct (Z.eqb_spec t now); [lia|]. by apply Hc.
Qed.

(** ** Witnesses *)
Lemma round_robin_get_witness :
  RoundRobin_get (fun x => x =? 3)%nat 7 [1; 2; 3; 4]%nat = Some 3%nat /\ 3%nat ∈ [1; 2; 3; 4]%nat.
Proof.
  pose proof (round_robin_get (fun x => x =? 3)%nat 7 [1; 2; 3; 4]%nat ltac:(lia) ltac:(by vm_compute)) as H.
  assert (E : RoundRobin_get (fun x => x =? 3)%nat 7 [1; 2; 3; 4]%nat = Some 3%nat) by (by vm_compute).
  rewrite E in H. split; [exact E|]. by destruct H.
Defined.
Lemma weight_get_witness :
  initWeight (fun _ => 10) [1; 2]%nat = Ret ([10; 20], 20) /\
  Weight_get (fun _ => true) 15 [10; 20] [1; 2]%nat = Ret None.
Proof.
  split; [by vm_compute|].
  destruct (weight_get (fun _ => true) 15 10 20 [] [1; 2]%nat ltac:(lia) ltac:(lia) ltac:(by apply list.Forall_nil)
    ltac:(done) ltac:(by vm_compute)) as [H _].
  apply H. by vm_compute.
Defined.
Lemma stats_window_witness :
  exists s, get 1000 (incTotal 1) (new_HolderStatsSet 5) = Ret s /\
    stat_at 1000 (m_stats s) = Some (mkStats 0 1 0 0 0 0).
Proof.
  destruct (stats_window 1000 (incTotal 1) (fun _ => clear) (new_HolderStatsSet 5)) as (s & Hs & _ & _ & H).
  - split_and!; [by vm_compute|by vm_compute|by vm_compute| |done]. intros t Ht. unfold stat_at.
    pose proof (Z.mod_pos_bound t 5 ltac:(lia)). change (m_stats (new_HolderStatsSet 5)) with (replicate 5 clear).
    rewrite length_replicate. apply lookup_replicate_2. lia.
  - change (m_lastUpdateTime (new_HolderStatsSet 5)) with 0. change (length (m_stats (new_HolderStatsSet 5))) with 5%nat. lia.
  - exists s. split; [exact Hs|exact H].
Defined.
