(* ===== verification/AsyncStream.v ===== *)
(** * Asynchronous streams (cxk/stream/async_socket_stream.h/.cpp,
    cxk/rock/rock_stream.h/.cpp)

    A stream is shared by a reading fiber, a writing fiber, the fibers that make
    requests and the timers of these requests.  A thread of control is the list
    of atomic regions it still has to run ([Instr]): executing the first one may
    put others in front of the rest.  Threads interleave at every region, which
    is the scope of a lock, one access to a shared field, or one call.  [enqueue]
    works on [m_queue] under [m_mutex] and the writer under [m_queueMutex], so
    that these scopes are not one region: the locks are part of the state
    ([Locks]), and to touch the list while another thread is in the middle of a
    change of it is undefined behaviour ([Crash]).  What comes from
    outside - the message the decoder returned, the result of a system call or of
    a callback - is the argument [Oracle].  The fields outside the locks are read
    and written in one step each.  The two semaphores are those of [Semaphore],
    the messages those of [Protocol]. *)
From S2P Require Import Prelude Semaphore Protocol.

(** enum Error *)
Definition OK : Z := 0.
Definition TIMEOUT : Z := -1.
Definition IO_ERROR : Z := -2.
Definition NOT_CONNECT : Z := -3.

(** struct Ctx with the fields of RockCtx.  [caller] is not in the code: it
    remembers the scheduler and the fiber that made the request. *)
Record Ctx := mkCtx {
  sn : Z;
  timeout : Z;
  result : Z;
  timed : bool;
  scheduler : option nat;
  fiber : option nat;
  timer : option nat;
  request : RockRequest;
  response : option RockResponse;
  caller : Waiter
}.
Definition set_result v c := mkCtx (sn c) (timeout c) v (timed c) (scheduler c) (fiber c) (timer c) (request c) (response c) (caller c).
Definition set_timed v c := mkCtx (sn c) (timeout c) (result c) v (scheduler c) (fiber c) (timer c) (request c) (response c) (caller c).
Definition set_scheduler v c := mkCtx (sn c) (timeout c) (result c) (timed c) v (fiber c) (timer c) (request c) (response c) (caller c).
Definition set_fiber v c := mkCtx (sn c) (timeout c) (result c) (timed c) (scheduler c) v (timer c) (request c) (response c) (caller c).
Definition set_timer v c := mkCtx (sn c) (timeout c) (result c) (timed c) (scheduler c) (fiber c) v (request c) (response c) (caller c).
Definition set_response v c := mkCtx (sn c) (timeout c) (result c) (timed c) (scheduler c) (fiber c) (timer c) (request c) v (caller c).
(** [Ctx::Ctx()] and the assignments of [RockStream::request]. *)
Definition new_Ctx (req : RockRequest) (timeout_ms : Z) (scd f : nat) : Ctx :=
  mkCtx (rq_sn (fst req)) timeout_ms 0 false (Some scd) (Some f) None req None (scd, f).

(** SendCtx: a message, or a request's context (by its address). *)
Inductive SendCtx : Type := RockSendCtx (msg : Message) | RockCtx (a : nat).
(** What a timer calls. *)
Inductive TimerCb : Type := OnTimeOut (a : nat) | OnStart.

Inductive Instr : Type :=
(* request *)
| Request_new (req : RockRequest) (timeout_ms : Z) (scd f : nat)
| AddCtx (a : nat)
| AddTimer (a : nat)
| SetTimer (a t : nat)
| YieldToHold (a : nat)
| Request_return (a : nat)
(* sendMessage, enqueue *)
| SendMessage (msg : Message)
| EnqCheck (i : SendCtx)
| EnqPush (i : SendCtx) (empty : bool)
| EnqPushed (i : SendCtx) (empty : bool)
| SemNotify
(* doRsp *)
| RspRead (a : nat)
| RspCas (a : nat) (scd : option nat)
| RspTimer (a : nat)
| RspResult (a : nat)
| RspSchedule (a : nat) (scd : nat)
(* onTimeOut *)
| TimeOutErase (a : nat)
| TimeOutTimed (a : nat)
(* doRead, doRecv *)
| ReadLoop
| DoRecv
| GetAndDelCtx (r : RockResponse)
| SetResult (a : nat) (r : RockResponse)
| SetResponse (a : nat) (r : RockResponse)
| HandleRequest (req : RockRequest)
| HandleNotify (nty : RockNotify)
| ReadOut
(* doWrite *)
| WriteLoop
| SemWait
| SemParked
| SwapQueue
| SwapDone
| DoSend (l : list SendCtx)
| ClearQueue
| ClearDone
(* innerClose *)
| Disconnect
| CloseSocket
| SwapCtxs
| SetIOError (a : nat)
(* start *)
| WaitSem
| WaitParked
| WaitNotify
| CancelTimer
| Connect
| ConnectCb
| StartRead
| StartWrite
| Retry
(* close *)
| CloseAuto.

Record RockResult := mkResult { rr_ctx : option nat; rr_result : Z; rr_response : option RockResponse }.

(** Which callbacks are set. *)
Record Callbacks := mkCallbacks { m_connectCb : bool; m_requestHandler : bool; m_notifyHandler : bool }.

(** The two locks with the threads that hold them; [m_pushing] is not in the
    code: it says that a [push_back] on [m_queue] is under way. *)
Record Locks := mkLocks { m_mutex : option nat; m_queueMutex : option nat; m_pushing : bool }.
Definition set_mutex v k := mkLocks v (m_queueMutex k) (m_pushing k).
Definition set_queueMutex v k := mkLocks (m_mutex k) v (m_pushing k).
Definition set_pushing v k := mkLocks (m_mutex k) (m_queueMutex k) v.

Record World := mkWorld {
  m_connected : bool;          (* the socket's *)
  m_autoConnect : bool;
  m_callbacks : Callbacks;
  m_ctxs : gmap Z nat;
  m_queue : list SendCtx;
  m_sem : FiberSemaphore;
  m_waitSem : FiberSemaphore;
  m_timer : option nat;
  heap : list Ctx;             (* the contexts, by address *)
  timers : gmap nat TimerCb;   (* the live timers of the IOManager *)
  next_timer : nat;
  woken : list (nat * Waiter); (* the fibers scheduled by doRsp *)
  results : list RockResult;   (* what [request] returned *)
  sent : list SendCtx;         (* what doSend wrote *)
  received : list RockResponse;
  m_socket : bool;             (* the stream has a socket *)
  locks : Locks;
  threads : list (list Instr)
}.
Definition on_connected g w := mkWorld (g (m_connected w)) (m_autoConnect w) (m_callbacks w) (m_ctxs w) (m_queue w)
  (m_sem w) (m_waitSem w) (m_timer w) (heap w) (timers w) (next_timer w) (woken w) (results w) (sent w) (received w) (m_socket w) (locks w) (threads w).
Definition on_autoConnect g w := mkWorld (m_connected w) (g (m_autoConnect w)) (m_callbacks w) (m_ctxs w) (m_queue w)
  (m_sem w) (m_waitSem w) (m_timer w) (heap w) (timers w) (next_timer w) (woken w) (results w) (sent w) (received w) (m_socket w) (locks w) (threads w).
Definition on_ctxs g w := mkWorld (m_connected w) (m_autoConnect w) (m_callbacks w) (g (m_ctxs w)) (m_queue w)
  (m_sem w) (m_waitSem w) (m_timer w) (heap w) (timers w) (next_timer w) (woken w) (results w) (sent w) (received w) (m_socket w) (locks w) (threads w).
Definition on_queue g w := mkWorld (m_connected w) (m_autoConnect w) (m_callbacks w) (m_ctxs w) (g (m_queue w))
  (m_sem w) (m_waitSem w) (m_timer w) (heap w) (timers w) (next_timer w) (woken w) (results w) (sent w) (received w) (m_socket w) (locks w) (threads w).
Definition on_sem g w := mkWorld (m_connected w) (m_autoConnect w) (m_callbacks w) (m_ctxs w) (m_queue w)
  (g (m_sem w)) (m_waitSem w) (m_timer w) (heap w) (timers w) (next_timer w) (woken w) (results w) (sent w) (received w) (m_socket w) (locks w) (threads w).
Definition on_waitSem g w := mkWorld (m_connected w) (m_autoConnect w) (m_callbacks w) (m_ctxs w) (m_queue w)
  (m_sem w) (g (m_waitSem w)) (m_timer w) (heap w) (timers w) (next_timer w) (woken w) (results w) (sent w) (received w) (m_socket w) (locks w) (threads w).
Definition on_timer g w := mkWorld (m_connected w) (m_autoConnect w) (m_callbacks w) (m_ctxs w) (m_queue w)
  (m_sem w) (m_waitSem w) (g (m_timer w)) (heap w) (timers w) (next_timer w) (woken w) (results w) (sent w) (received w) (m_socket w) (locks w) (threads w).
Definition on_heap g w := mkWorld (m_connected w) (m_autoConnect w) (m_callbacks w) (m_ctxs w) (m_queue w)
  (m_sem w) (m_waitSem w) (m_timer w) (g (heap w)) (timers w) (next_timer w) (woken w) (results w) (sent w) (received w) (m_socket w) (locks w) (threads w).
Definition on_timers g w := mkWorld (m_connected w) (m_autoConnect w) (m_callbacks w) (m_ctxs w) (m_queue w)
  (m_sem w) (m_waitSem w) (m_timer w) (heap w) (g (timers w)) (next_timer w) (woken w) (results w) (sent w) (received w) (m_socket w) (locks w) (threads w).
Definition on_woken g w := mkWorld (m_connected w) (m_autoConnect w) (m_callbacks w) (m_ctxs w) (m_queue w)
  (m_sem w) (m_waitSem w) (m_timer w) (heap w) (timers w) (next_timer w) (g (woken w)) (results w) (sent w) (received w) (m_socket w) (locks w) (threads w).
Definition on_results g w := mkWorld (m_connected w) (m_autoConnect w) (m_callbacks w) (m_ctxs w) (m_queue w)
  (m_sem w) (m_waitSem w) (m_timer w) (heap w) (timers w) (next_timer w) (woken w) (g (results w)) (sent w) (received w) (m_socket w) (locks w) (threads w).
Definition on_sent g w := mkWorld (m_connected w) (m_autoConnect w) (m_callbacks w) (m_ctxs w) (m_queue w)
  (m_sem w) (m_waitSem w) (m_timer w) (heap w) (timers w) (next_timer w) (woken w) (results w) (g (sent w)) (received w) (m_socket w) (locks w) (threads w).
Definition on_received g w := mkWorld (m_connected w) (m_autoConnect w) (m_callbacks w) (m_ctxs w) (m_queue w)
  (m_sem w) (m_waitSem w) (m_timer w) (heap w) (timers w) (next_timer w) (woken w) (results w) (sent w) (g (received w)) (m_socket w) (locks w) (threads w).
Definition on_locks g w := mkWorld (m_connected w) (m_autoConnect w) (m_callbacks w) (m_ctxs w) (m_queue w)
  (m_sem w) (m_waitSem w) (m_timer w) (heap w) (timers w) (next_timer w) (woken w) (results w) (sent w) (received w) (m_socket w) (g (locks w)) (threads w).
Definition on_threads g w := mkWorld (m_connected w) (m_autoConnect w) (m_callbacks w) (m_ctxs w) (m_queue w)
  (m_sem w) (m_waitSem w) (m_timer w) (heap w) (timers w) (next_timer w) (woken w) (results w) (sent w) (received w) (m_socket w) (locks w) (g (threads w)).

(** ** The collaborators *)
Definition the_ctx (a : nat) : M World Ctx := w ← get; lift (from_option Ret Crash (heap w !! a)).
Definition upd_ctx (a : nat) (g : Ctx -> Ctx) : M World unit := modify (on_heap (alter g a)).
(** [IOManager::addTimer]: the handle of a new timer. *)
Definition addTimer (cb : TimerCb) : M World nat := fun w =>
  (Ret (next_timer w),
   mkWorld (m_connected w) (m_autoConnect w) (m_callbacks w) (m_ctxs w) (m_queue w) (m_sem w) (m_waitSem w)
     (m_timer w) (heap w) (<[next_timer w := cb]> (timers w)) (S (next_timer w)) (woken w) (results w) (sent w)
     (received w) (m_socket w) (locks w) (threads w)).
(** [Timer::cancel]: a timer that has fired stays as it is. *)
Definition cancel_timer (t : option nat) : M World unit :=
  match t with Some t => modify (on_timers (delete t)) | None => mret tt end.
(** A callback handed to the IOManager runs as a thread of its own. *)
Definition spawn (k : list Instr) : M World unit := modify (on_threads (fun ts => ts ++ [k])).
Definition with_sem {A} (m : M FiberSemaphore A) : M World A := fun w =>
  let '(r, s) := m (m_sem w) in (r, on_sem (fun _ => s) w).
Definition with_waitSem {A} (m : M FiberSemaphore A) : M World A := fun w =>
  let '(r, s) := m (m_waitSem w) in (r, on_waitSem (fun _ => s) w).

(** An access to [m_queue]. *)
Definition touch_queue (busy : Locks -> bool) : M World unit :=
  w ← get; if busy (locks w) then crash else mret tt.
Definition taken (k : Locks) : bool := match m_queueMutex k with Some _ => true | None => false end.

(** ** The sequences of regions *)
Definition innerClose : list Instr := [Disconnect; CloseSocket; SemNotify; SwapCtxs].
Definition doRsp (a : nat) : list Instr := [RspRead a].
Definition onTimeOut (a : nat) : list Instr := [TimeOutErase a; TimeOutTimed a] ++ doRsp a.
Definition enqueue (i : SendCtx) : list Instr := [EnqCheck i].
Definition request_body (a : nat) : list Instr :=
  [AddCtx a; AddTimer a] ++ enqueue (RockCtx a) ++ [YieldToHold a; Request_return a].
Definition start : list Instr := [WaitSem; WaitSem; CancelTimer; Connect].
Definition start_failed : list Instr := innerClose ++ [WaitNotify; WaitNotify; Retry].
Definition doRead : list Instr := [ReadLoop].
Definition doWrite : list Instr := [WriteLoop].
Definition fail_ctx (a : nat) : list Instr := SetIOError a :: doRsp a.

(** What the outside answers. *)
Record Oracle := mkOracle {
  o_ok : bool;                 (* a system call, a callback or doSend *)
  o_msg : option Message;      (* RockMessageDecoder::parseFrom *)
  o_rsp : RockResponse         (* the response a handler filled in *)
}.

Section Exec.
Context (me : nat) (o : Oracle).

(** [RockStream::doRecv] after the decoder. *)
Definition doRecv (m : option Message) : M World (list Instr) :=
  match m with
  | None => mret innerClose
  | Some (MResponse rsp) =>
      modify (on_received (fun l => l ++ [rsp])) ;; mret [GetAndDelCtx rsp]
  | Some (MRequest req) =>
      w ← get; (if m_requestHandler (m_callbacks w) then spawn [HandleRequest req] else mret tt) ;; mret []
  | Some (MNotify nty) =>
      w ← get; (if m_notifyHandler (m_callbacks w) then spawn [HandleNotify nty] else mret tt) ;; mret []
  end.

(** A response whose request is no more in [m_ctxs] gives a null pointer, which
    is dereferenced. *)
Definition getAndDelCtx (rsp : RockResponse) : M World (list Instr) :=
  w ← get;
  match m_ctxs w !! rs_sn (fst rsp) with
  | None => crash
  | Some a =>
      modify (on_ctxs (delete (rs_sn (fst rsp)))) ;;
      mret ([SetResult a rsp; SetResponse a rsp] ++ doRsp a)
  end.

(** *** request, sendMessage, enqueue *)
Definition request_new (req : RockRequest) (timeout_ms : Z) (scd f : nat) : M World (list Instr) :=
  w ← get;
  if m_connected w then
    modify (on_heap (fun h => h ++ [new_Ctx req timeout_ms scd f])) ;; mret (request_body (length (heap w)))
  else modify (on_results (fun l => l ++ [mkResult None NOT_CONNECT None])) ;; mret [].
Definition addCtx (a : nat) : M World (list Instr) :=
  c ← the_ctx a;
  modify (on_ctxs (fun m => match m !! sn c with Some _ => m | None => <[sn c := a]> m end)) ;; mret [].
Definition request_timer (a : nat) : M World (list Instr) := t ← addTimer (OnTimeOut a); mret [SetTimer a t].
Definition keep_timer (a t : nat) : M World (list Instr) := upd_ctx a (set_timer (Some t)) ;; mret [].
Definition request_return (a : nat) : M World (list Instr) :=
  c ← the_ctx a;
  modify (on_results (fun l => l ++ [mkResult (Some a) (i32 (result c)) (response c)])) ;; mret [].
Definition sendMessage (msg : Message) : M World (list Instr) :=
  w ← get; mret (if m_connected w then enqueue (RockSendCtx msg) else []).
(** The lock is taken and the list is looked at. *)
Definition enq_check (i : SendCtx) : M World (list Instr) :=
  touch_queue taken ;; modify (on_locks (set_mutex (Some me))) ;;
  w ← get; mret [EnqPush i (match m_queue w with [] => true | _ => false end)].
(** The [push_back] begins. *)
Definition enq_push (i : SendCtx) (empty : bool) : M World (list Instr) :=
  touch_queue taken ;; modify (on_locks (set_pushing true)) ;; mret [EnqPushed i empty].
(** It is done, and the lock is released. *)
Definition enq_pushed (i : SendCtx) (empty : bool) : M World (list Instr) :=
  modify (on_queue (fun q => q ++ [i])) ;; modify (on_locks (fun k => set_mutex None (set_pushing false k))) ;;
  mret (if empty then [SemNotify] else []).

(** *** doRsp, onTimeOut *)
Definition rsp_read (a : nat) : M World (list Instr) := c ← the_ctx a; mret [RspCas a (scheduler c)].
Definition rsp_cas (a : nat) (scd : option nat) : M World (list Instr) :=
  c ← the_ctx a;
  if decide (scheduler c = scd) then
    upd_ctx a (set_scheduler None) ;;
    mret (match scd, fiber c with
          | Some scd, Some _ => [RspTimer a; RspResult a; RspSchedule a scd]
          | _, _ => []
          end)
  else mret [].
Definition rsp_timer (a : nat) : M World (list Instr) :=
  c ← the_ctx a; cancel_timer (timer c) ;; upd_ctx a (set_timer None) ;; mret [].
Definition rsp_result (a : nat) : M World (list Instr) :=
  c ← the_ctx a;
  (if timed c then upd_ctx a (set_result (u32 TIMEOUT)) else mret tt) ;; mret [].
Definition rsp_schedule (a scd : nat) : M World (list Instr) :=
  c ← the_ctx a;
  upd_ctx a (set_fiber None) ;;
  match fiber c with
  | Some f => modify (on_woken (fun l => l ++ [(a, (scd, f))]))
  | None => mret tt
  end ;; mret [].
Definition timeout_erase (a : nat) : M World (list Instr) :=
  c ← the_ctx a; modify (on_ctxs (delete (sn c))) ;; mret [].
Definition timeout_timed (a : nat) : M World (list Instr) := upd_ctx a (set_timed true) ;; mret [].

(** *** doRead, doRecv, the handlers *)
Definition read_loop : M World (list Instr) :=
  w ← get; mret (if m_connected w then [DoRecv; ReadLoop] else innerClose ++ [WaitNotify; ReadOut]).
Definition recv_result (a : nat) (r : RockResponse) : M World (list Instr) :=
  upd_ctx a (set_result (rs_result (fst r))) ;; mret [].
Definition recv_response (a : nat) (r : RockResponse) : M World (list Instr) :=
  upd_ctx a (set_response (Some r)) ;; mret [].
Definition handleRequest (req : RockRequest) : M World (list Instr) :=
  mret (SendMessage (MResponse (o_rsp o)) :: if o_ok o then [] else innerClose).
Definition handleNotify (nty : RockNotify) : M World (list Instr) := mret (if o_ok o then [] else innerClose).
Definition read_out : M World (list Instr) :=
  w ← get; (if m_autoConnect w then addTimer OnStart ;; mret tt else mret tt) ;; mret [].

(** *** doWrite *)
Definition write_loop : M World (list Instr) :=
  w ← get; mret (if m_connected w then [SemWait; SwapQueue; WriteLoop] else [ClearQueue; WaitNotify]).
Definition sem_wait : M World (list Instr) :=
  b ← with_sem (wait (Some (0%nat, me))); mret (if (b : bool) then [] else [SemParked]).
(** [m_queueMutex] is taken and the swap begins; then it is done, and the lock is
    released. *)
Definition swap_queue : M World (list Instr) :=
  touch_queue m_pushing ;; modify (on_locks (set_queueMutex (Some me))) ;; mret [SwapDone].
Definition swap_done : M World (list Instr) :=
  w ← get; modify (on_queue (fun _ => [])) ;; modify (on_locks (set_queueMutex None)) ;; mret [DoSend (m_queue w)].
Definition do_send (l : list SendCtx) : M World (list Instr) :=
  match l with
  | [] => mret []
  | i :: l =>
      if o_ok o then modify (on_sent (fun q => q ++ [i])) ;; mret [DoSend l] else mret innerClose
  end.
Definition clear_queue : M World (list Instr) :=
  touch_queue m_pushing ;; modify (on_locks (set_queueMutex (Some me))) ;; mret [ClearDone].
Definition clear_done : M World (list Instr) :=
  modify (on_queue (fun _ => [])) ;; modify (on_locks (set_queueMutex None)) ;; mret [].

(** *** innerClose, close: the disconnect callback is the user's. *)
Definition close_socket : M World (list Instr) := modify (on_connected (fun _ => false)) ;; mret [].
Definition swap_ctxs : M World (list Instr) :=
  w ← get;
  modify (on_ctxs (fun _ => ∅)) ;; mret (ClearQueue :: concat (fail_ctx <$> (map_to_list (m_ctxs w)).*2)).
Definition io_error (a : nat) : M World (list Instr) := upd_ctx a (set_result (u32 IO_ERROR)) ;; mret [].
Definition close : M World (list Instr) := modify (on_autoConnect (fun _ => false)) ;; mret [CloseSocket].

(** *** start: without a socket, [m_socket->reconnect()] dereferences a null
    pointer. *)
Definition wait_sem : M World (list Instr) :=
  b ← with_waitSem (wait (Some (0%nat, me))); mret (if (b : bool) then [] else [WaitParked]).
Definition drop_timer : M World (list Instr) :=
  w ← get; cancel_timer (m_timer w) ;; modify (on_timer (fun _ => None)) ;; mret [].
Definition reconnect : M World (list Instr) :=
  w ← get;
  if m_connected w then mret [ConnectCb]
  else if m_socket w then
    if o_ok o then modify (on_connected (fun _ => true)) ;; mret [ConnectCb] else mret start_failed
  else crash.
Definition connect_cb : M World (list Instr) :=
  w ← get; mret (if m_connectCb (m_callbacks w) && o_ok o then start_failed else [StartRead; StartWrite]).
Definition retry : M World (list Instr) :=
  w ← get;
  (if m_autoConnect w then
     cancel_timer (m_timer w) ;; t ← addTimer OnStart; modify (on_timer (fun _ => Some t))
   else mret tt) ;; mret [].

(** One region; the result is what comes in front of the rest. *)
Definition exec (x : Instr) : M World (list Instr) :=
  match x with
  | Request_new req timeout_ms scd f => request_new req timeout_ms scd f
  | AddCtx a => addCtx a
  | AddTimer a => request_timer a
  | SetTimer a t => keep_timer a t
  | YieldToHold _ => mret []
  | Request_return a => request_return a
  | SendMessage msg => sendMessage msg
  | EnqCheck i => enq_check i
  | EnqPush i empty => enq_push i empty
  | EnqPushed i empty => enq_pushed i empty
  | SemNotify => with_sem notify ;; mret []
  | RspRead a => rsp_read a
  | RspCas a scd => rsp_cas a scd
  | RspTimer a => rsp_timer a
  | RspResult a => rsp_result a
  | RspSchedule a scd => rsp_schedule a scd
  | TimeOutErase a => timeout_erase a
  | TimeOutTimed a => timeout_timed a
  | ReadLoop => read_loop
  | DoRecv => doRecv (o_msg o)
  | GetAndDelCtx r => getAndDelCtx r
  | SetResult a r => recv_result a r
  | SetResponse a r => recv_response a r
  | HandleRequest req => handleRequest req
  | HandleNotify nty => handleNotify nty
  | ReadOut => read_out
  | WriteLoop => write_loop
  | SemWait => sem_wait
  | SemParked => mret []
  | SwapQueue => swap_queue
  | SwapDone => swap_done
  | DoSend l => do_send l
  | ClearQueue => clear_queue
  | ClearDone => clear_done
  | Disconnect => mret []
  | CloseSocket => close_socket
  | SwapCtxs => swap_ctxs
  | SetIOError a => io_error a
  | WaitSem => wait_sem
  | WaitParked => mret []
  | WaitNotify => with_waitSem notify ;; mret []
  | CancelTimer => drop_timer
  | Connect => reconnect
  | ConnectCb => connect_cb
  | StartRead => spawn doRead ;; mret []
  | StartWrite => spawn doWrite ;; mret []
  | Retry => retry
  | CloseAuto => close
  end.

(** Two calls wait: for [doRsp] to schedule the fiber, and for [notify]; a lock
    is waited for. *)
Definition enabled (x : Instr) (w : World) : bool :=
  match x with
  | YieldToHold a => bool_decide (a ∈ (woken w).*1)
  | SemParked => bool_decide ((0%nat, me) ∉ m_waiters (m_sem w))
  | WaitParked => bool_decide ((0%nat, me) ∉ m_waiters (m_waitSem w))
  | AddCtx _ | EnqCheck _ | TimeOutErase _ | GetAndDelCtx _ | SwapCtxs => bool_decide (m_mutex (locks w) = None)
  | SwapQueue | ClearQueue => bool_decide (m_queueMutex (locks w) = None)
  | _ => true
  end.
End Exec.

(** ** Steps *)
Inductive Label : Type :=
| LStep (i : nat) (o : Oracle)
| LFire (t : nat)                                        (* a timer is due *)
| LRequest (req : RockRequest) (timeout_ms : Z) (scd f : nat)
| LSend (msg : Message)
| LStart
| LClose.

Definition set_thread (i : nat) (k : list Instr) : World -> World := on_threads (<[i := k]>).
Definition thread_step (i : nat) (o : Oracle) : M World unit :=
  w ← get;
  match threads w !! i with
  | Some (x :: k) =>
      if enabled i x w then
        modify (set_thread i k) ;; push ← exec i o x; modify (on_threads (alter (app push) i))
      else mret tt
  | _ => mret tt
  end.
Definition step (l : Label) : M World unit :=
  match l with
  | LStep i o => thread_step i o
  | LFire t =>
      w ← get;
      match timers w !! t with
      | Some cb =>
          modify (on_timers (delete t)) ;;
          spawn (match cb with OnTimeOut a => onTimeOut a | OnStart => start end)
      | None => mret tt
      end
  | LRequest req timeout_ms scd f => spawn [Request_new req timeout_ms scd f]
  | LSend msg => spawn [SendMessage msg]
  | LStart => spawn start
  | LClose => spawn [CloseAuto]
  end.
Fixpoint run (ls : list Label) : M World unit :=
  match ls with [] => mret tt | l :: ls => step l ;; run ls end.

(** The constructor: [m_sem(0)], [m_waitSem(2)]; the stream may have no socket
    yet, and a socket may be connected already. *)
Definition new_World (socket connected autoConnect : bool) (cbs : Callbacks) : World :=
  mkWorld (socket && connected) autoConnect cbs ∅ [] (new_FiberSemaphore 0) (new_FiberSemaphore 2) None [] ∅ 0
    [] [] [] [] socket (mkLocks None None false) [].
Definition reachable (w : World) : Prop :=
  exists s c a cbs ls, run ls (new_World s c a cbs) = (Ret tt, w).
