(* ===== verification/AsyncRequests.v ===== *)
(** * Requests over an asynchronous stream

    The invariant of [AsyncStream]'s requests: whoever comes first of the
    response, the time-out and the end of the connection takes the request's
    scheduler, and only then schedules its fiber. *)
From S2P Require Import Prelude Semaphore Protocol AsyncStream.

(** ** Steps *)
Definition spawned (o : Oracle) (x : Instr) (w : World) : list (list Instr) :=
  match x with
  | DoRecv => match o_msg o with
      | Some (MRequest req) => if m_requestHandler (m_callbacks w) then [[HandleRequest req]] else []
      | Some (MNotify nty) => if m_notifyHandler (m_callbacks w) then [[HandleNotify nty]] else []
      | _ => []
      end
  | StartRead => [doRead]
  | StartWrite => [doWrite]
  | _ => []
  end.
(** [run_exec H] evaluates an [exec] that returned. *)
Ltac split_tests H :=
  repeat match type of H with
  | context [match ?e with _ => _ end] =>
      lazymatch e with
      | context [match _ with _ => _ end] => fail
      | _ => let E := fresh "E" in destruct e eqn:E; try discriminate
      end
  end.
Ltac run_exec H :=
  cbv beta iota zeta delta [exec doRecv getAndDelCtx request_new addCtx request_timer keep_timer request_return sendMessage enq_check enq_push enq_pushed touch_queue taken
     rsp_read rsp_cas rsp_timer rsp_result rsp_schedule timeout_erase timeout_timed read_loop recv_result recv_response handleRequest handleNotify read_out
     write_loop sem_wait swap_queue swap_done do_send clear_queue clear_done close_socket swap_ctxs io_error close wait_sem drop_timer reconnect connect_cb retry
    the_ctx upd_ctx addTimer cancel_timer spawn with_sem with_waitSem
    wait notify mbind mret M_bind M_ret get gets lift crash modify from_option] in H;
  split_tests H; simplify_eq; try done.

Lemma exec_threads me o x w push w1 :
  exec me o x w = (Ret push, w1) -> threads w1 = threads w ++ spawned o x w.
Proof.
  intros H. destruct x; run_exec H; cbn [spawned]; repeat (case_match; simplify_eq); cbn; rewrite ?app_nil_r; try done.
Qed.
Lemma thread_step_run i o w x k push w1 :
  threads w !! i = Some (x :: k) -> enabled i x w = true -> exec i o x (set_thread i k w) = (Ret push, w1) ->
  thread_step i o w = (Ret tt, on_threads (fun _ => <[i := push ++ k]> (threads w) ++ spawned o x w) w1).
Proof.
  intros Ei En Ex. unfold thread_step. cbv [mbind M_bind mret M_ret get modify]. rewrite Ei, En, Ex. f_equal.
  pose proof (exec_threads _ _ _ _ _ _ Ex) as Ht.
  unfold on_threads at 1. unfold on_threads. f_equal. rewrite Ht. cbn [set_thread on_threads threads].
  pose proof (lookup_lt_Some _ _ _ Ei). rewrite alter_app_l by (rewrite length_insert; lia).
  rewrite !list_insert_alter, list_alter_alter_eq. done.
Qed.
Lemma thread_step_inv i o w w' :
  thread_step i o w = (Ret tt, w') ->
  w' = w \/ exists x k push w1, threads w !! i = Some (x :: k) /\ enabled i x w = true /\
    exec i o x (set_thread i k w) = (Ret push, w1) /\
    w' = on_threads (fun _ => <[i := push ++ k]> (threads w) ++ spawned o x w) w1.
Proof.
  intros H. pose proof H as H0. unfold thread_step in H0. cbv [mbind M_bind mret M_ret get modify] in H0.
  destruct (threads w !! i) as [[|x k]|] eqn:Ei; [by injection H0 as <-; left| |by injection H0 as <-; left].
  destruct (enabled i x w) eqn:En; [|by injection H0 as <-; left].
  destruct (exec i o x (set_thread i k w)) as [[push| | |] w1] eqn:Ex; try done. right.
  exists x, k, push, w1. split_and!; try done. rewrite (thread_step_run _ _ _ _ _ _ _ Ei En Ex) in H. by injection H.
Qed.
(** ** What is owed: the number of regions of a kind still to run *)
Definition owes (p : Instr -> nat) (ts : list (list Instr)) : nat := sum_list_with (sum_list_with p) ts.
Lemma owes_app p ts1 ts2 : owes p (ts1 ++ ts2) = (owes p ts1 + owes p ts2)%nat.
Proof. apply sum_list_with_app. Qed.
Lemma owes_insert p ts i l l' : ts !! i = Some l ->
  (owes p (<[i := l']> ts) + sum_list_with p l = owes p ts + sum_list_with p l')%nat.
Proof.
  revert i. induction ts as [|l0 ts IH]; intros [|i] H; try done; cbn in *.
  - injection H as ->. lia.
  - specialize (IH i H). unfold owes, insert in *. lia.
Qed.
Lemma owes_step p w i x k push sp :
  threads w !! i = Some (x :: k) ->
  (owes p (<[i := push ++ k]> (threads w) ++ sp) + p x = owes p (threads w) + sum_list_with p push + owes p sp)%nat.
Proof.
  intros H. rewrite owes_app. pose proof (owes_insert p _ _ _ (push ++ k) H) as Ho.
  rewrite sum_list_with_app in Ho. cbn in Ho. lia.
Qed.

#[export] Instance TimerCb_eq_dec : EqDecision TimerCb.
Proof. solve_decision. Defined.
(** ** The shape of a reachable state *)
Definition known (w : World) (a : nat) : Prop := exists c, heap w !! a = Some c.
(** A timer handle: live with its callback, or dead. *)
Definition timer_is (w : World) (t : nat) (cb : TimerCb) : Prop :=
  (t < next_timer w)%nat /\ (timers w !! t = None \/ timers w !! t = Some cb).
Definition answers (w : World) (c : Ctx) (r : RockResponse) : Prop := rs_sn (fst r) = sn c /\ r ∈ received w.
Definition ctx_ok (w : World) (a : nat) (c : Ctx) : Prop :=
  (scheduler c = None \/ scheduler c = Some (fst (caller c))) /\
  (fiber c = None \/ fiber c = Some (snd (caller c))) /\
  (forall t, timer c = Some t -> timer_is w t (OnTimeOut a)) /\
  (forall r, response c = Some r -> answers w c r).
Definition instr_ok (w : World) (x : Instr) : Prop :=
  match x with
  | AddCtx a | AddTimer a | YieldToHold a | Request_return a | RspRead a | RspResult a
  | TimeOutErase a | TimeOutTimed a | SetIOError a => known w a
  | RspTimer a => exists c, heap w !! a = Some c /\ scheduler c = None
  | SetTimer a t => known w a /\ timer_is w t (OnTimeOut a)
  | RspCas a scd => exists c, heap w !! a = Some c /\ (scd = None \/ scd = Some (fst (caller c)))
  | RspSchedule a scd => exists c, heap w !! a = Some c /\ scd = fst (caller c)
  | SetResult a r | SetResponse a r => exists c, heap w !! a = Some c /\ answers w c r
  | GetAndDelCtx r => r ∈ received w
  | _ => True
  end.
Definition shape (w : World) : Prop :=
  (forall a c, heap w !! a = Some c -> ctx_ok w a c) /\
  (forall n a, m_ctxs w !! n = Some a -> exists c, heap w !! a = Some c /\ sn c = n) /\
  (forall t a, timers w !! t = Some (OnTimeOut a) -> known w a) /\
  (forall t, is_Some (timers w !! t) -> (t < next_timer w)%nat) /\
  (forall t, m_timer w = Some t -> timer_is w t OnStart).
(** What never changes back. *)
Definition later (w w' : World) : Prop :=
  (forall a c, heap w !! a = Some c -> exists c', heap w' !! a = Some c' /\ sn c' = sn c /\ caller c' = caller c /\
     (scheduler c = None -> scheduler c' = None)) /\
  (next_timer w <= next_timer w')%nat /\
  (forall t, (t < next_timer w)%nat -> timers w' !! t = timers w !! t \/ timers w' !! t = None) /\
  (forall r, r ∈ received w -> r ∈ received w').

Lemma later_refl w : later w w.
Proof. split_and!; try done; eauto. Qed.
Lemma later_trans w1 w2 w3 : later w1 w2 -> later w2 w3 -> later w1 w3.
Proof.
  intros (H1 & N1 & T1 & R1) (H2 & N2 & T2 & R2). split_and!; [|lia| |by eauto].
  - intros a c Hc. destruct (H1 a c Hc) as (c' & Hc' & E1 & E2 & S1). destruct (H2 a c' Hc') as (c2 & ? & ? & ? & S2).
    exists c2. rewrite <- E1, <- E2. auto 6.
  - intros t Ht. destruct (T2 t ltac:(lia)) as [-> | ->]; [by apply T1|by right].
Qed.
Lemma timer_later w w' t cb : later w w' -> timer_is w t cb -> timer_is w' t cb.
Proof. intros (_ & N & T & _) [Ht H]. split; [lia|]. destruct (T t Ht) as [-> | ->]; [done|by left]. Qed.
Lemma instr_later w w' x : later w w' -> instr_ok w x -> instr_ok w' x.
Proof.
  intros L. pose proof L as (H & _ & _ & R). unfold known, answers. destruct x; cbn [instr_ok]; unfold known, answers; try done; try exact (R _);
    try (intros [c Hc]; destruct (H _ _ Hc) as (c' & ? & ? & ? & ?); by exists c').
  - intros [[c Hc] Ht]. destruct (H _ _ Hc) as (c' & ? & ? & ? & ?). split; [by exists c'|]. by eapply timer_later.
  - intros (c & Hc & Hs). destruct (H _ _ Hc) as (c' & ? & ? & Ec & ?). exists c'. by rewrite Ec.
  - intros (c & Hc & Hs). destruct (H _ _ Hc) as (c' & ? & ? & ? & Hn). exists c'. auto.
  - intros (c & Hc & Hs). destruct (H _ _ Hc) as (c' & ? & ? & Ec & ?). exists c'. by rewrite Ec.
  - intros (c & Hc & Hs & Hr). destruct (H _ _ Hc) as (c' & ? & Es & ? & ?). exists c'. rewrite Es. eauto 6.
  - intros (c & Hc & Hs & Hr). destruct (H _ _ Hc) as (c' & ? & Es & ? & ?). exists c'. rewrite Es. eauto 6.
Qed.

(** Changing a context keeps the shape when its identity stays. *)
Lemma shape_upd w a g :
  shape w ->
  (forall c, heap w !! a = Some c -> ctx_ok w a c -> ctx_ok w a (g c) /\ sn (g c) = sn c /\ caller (g c) = caller c /\
     (scheduler c = None -> scheduler (g c) = None)) ->
  shape (on_heap (alter g a) w) /\ later w (on_heap (alter g a) w).
Proof.
  intros (H1 & H2 & H3 & H4 & H5) Hg.
  assert (L : later w (on_heap (alter g a) w)).
  { split_and!; cbn; try done; [|by left]. intros b c Hc. destruct (decide (a = b)) as [<-|].
    - rewrite list_lookup_alter_eq, Hc. cbn. destruct (Hg c Hc (H1 _ _ Hc)) as (_ & ? & ? & ?). eauto 6.
    - rewrite list_lookup_alter_ne by done. eauto. }
  split; [|exact L]. pose proof L as (Lh & _). split_and!; cbn in *.
  - intros b c Hc. destruct (decide (a = b)) as [<-|].
    + rewrite list_lookup_alter_eq in Hc. destruct (heap w !! a) as [c0|] eqn:E; [|done]. injection Hc as <-.
      by apply Hg; [|apply H1].
    + rewrite list_lookup_alter_ne in Hc by done. by apply H1.
  - intros n b Hb. destruct (H2 n b Hb) as (c & Hc & Hs). destruct (Lh b c Hc) as (c' & ? & ? & ? & ?). exists c'. split; [done|congruence].
  - intros t b Hb. destruct (H3 t b Hb) as (c & Hc). destruct (Lh b c Hc) as (c' & ? & ? & ? & ?). by exists c'.
  - exact H4.
  - exact H5.
Qed.
Lemma shape_cancel w t : shape w -> shape (on_timers (delete t) w) /\ later w (on_timers (delete t) w).
Proof.
  intros (H1 & H2 & H3 & H4 & H5).
  assert (L : later w (on_timers (delete t) w)).
  { split_and!; cbn; try done; [by eauto|]. intros u _. destruct (decide (t = u)) as [<-|].
    - right. by rewrite lookup_delete_eq.
    - left. by rewrite lookup_delete_ne. }
  split; [|exact L]. split_and!; cbn in *; try done.
  - intros a c Hc. destruct (H1 a c Hc) as (? & ? & Ht & ?). split_and!; try done. intros u Hu. eapply timer_later; eauto.
  - intros u a Hu. apply lookup_delete_Some in Hu as [_ Hu]. by eapply H3.
  - intros u [cb Hu]. apply lookup_delete_Some in Hu as [_ Hu]. eauto.
  - intros u Hu. eapply timer_later; eauto.
Qed.
Lemma shape_addTimer w cb :
  shape w -> (forall a, cb = OnTimeOut a -> known w a) ->
  exists w', addTimer cb w = (Ret (next_timer w), w') /\ shape w' /\ later w w' /\ timer_is w' (next_timer w) cb /\
    timers w' = <[next_timer w := cb]> (timers w) /\ m_timer w' = m_timer w.
Proof.
  intros (H1 & H2 & H3 & H4 & H5) Hcb. eexists. split; [done|].
  match goal with |- shape ?w1 /\ _ => set (w' := w1) end.
  assert (Hn : timers w !! next_timer w = None).
  { destruct (timers w !! next_timer w) eqn:E; [|done]. pose proof (H4 _ (mk_is_Some _ _ E)). lia. }
  assert (L : later w w').
  { split_and!; cbn; try done; eauto. intros u Hu. left. rewrite lookup_insert_ne; [done|lia]. }
  split_and!; [|exact L|split; cbn; [lia|right; by rewrite lookup_insert_eq]|done|done].
  split_and!; cbn in *; try done.
  - intros a c Hc. destruct (H1 a c Hc) as (? & ? & Ht & ?). split_and!; try done. intros u Hu. eapply timer_later; eauto.
  - intros u a Hu. destruct (decide (next_timer w = u)) as [<-|].
    + rewrite lookup_insert_eq in Hu. injection Hu as ->. by apply Hcb.
    + rewrite lookup_insert_ne in Hu by done. by eapply H3.
  - intros u [cb' Hu]. destruct (decide (next_timer w = u)) as [<-|]; [lia|].
    rewrite lookup_insert_ne in Hu by done. pose proof (H4 u (mk_is_Some _ _ Hu)). lia.
  - intros u Hu. eapply timer_later; eauto.
Qed.

Lemma fail_ctx_ok w w' (m : gmap Z nat) :
  (forall n a, m !! n = Some a -> known w a) -> later w w' ->
  Forall (instr_ok w') (concat (fail_ctx <$> (map_to_list m).*2)).
Proof.
  intros Hm L. apply list.Forall_forall. intros x Hx. apply list_elem_of_In, in_concat in Hx as (l & Hl & Hx).
  apply list_elem_of_In, list_elem_of_fmap in Hl as (a & -> & Ha). apply list_elem_of_fmap in Ha as ([n a'] & -> & Ha).
  apply elem_of_map_to_list in Ha. apply Hm in Ha. apply (instr_later w w' (RspRead a') L) in Ha.
  destruct Hx as [<-|[<-|[]]]; exact Ha.
Qed.
Lemma shape_ctxs w g :
  shape w -> (forall n a, g (m_ctxs w) !! n = Some a -> exists c, heap w !! a = Some c /\ sn c = n) -> shape (on_ctxs g w).
Proof. intros (H1 & H2 & H3) Hg. refine (conj H1 (conj Hg H3)). Qed.
Lemma shape_delete w n : shape w -> shape (on_ctxs (delete n) w).
Proof.
  intros Hs. apply shape_ctxs; [done|]. intros n' a Hn. apply lookup_delete_Some in Hn as [_ Hn]. by apply Hs.
Qed.
Lemma shape_received w r : shape w ->
  shape (on_received (fun l => l ++ [r]) w) /\ later w (on_received (fun l => l ++ [r]) w).
Proof.
  intros (H1 & H2 & H3). split.
  - refine (conj _ (conj H2 H3)). intros a c Hc. destruct (H1 a c Hc) as (? & ? & ? & Hr).
    refine (conj _ (conj _ (conj _ _))); try done. intros r' Hr'. destruct (Hr r' Hr') as [? ?].
    split; [done|]. apply elem_of_app. by left.
  - refine (conj _ (conj _ (conj _ _))); eauto. intros r' Hr'. apply elem_of_app. by left.
Qed.
Lemma shape_new w c :
  shape w -> scheduler c = Some (fst (caller c)) -> fiber c = Some (snd (caller c)) -> timer c = None -> response c = None ->
  shape (on_heap (fun h => h ++ [c]) w) /\ later w (on_heap (fun h => h ++ [c]) w) /\
  known (on_heap (fun h => h ++ [c]) w) (length (heap w)).
Proof.
  intros (H1 & H2 & H3 & H4) Hs Hf Ht Hr.
  assert (Hk : forall a c', heap w !! a = Some c' -> (heap w ++ [c]) !! a = Some c') by (intros; by apply lookup_app_l_Some).
  split_and!; [refine (conj _ (conj _ (conj _ H4)))|refine (conj _ (conj _ (conj _ _)))|]; cbn; eauto.
  - intros a c' Hc. apply lookup_app_Some in Hc as [Hc|[_ Hc]]; [by apply H1|].
    apply list_lookup_singleton_Some in Hc as [_ <-]. refine (conj _ (conj _ (conj _ _))); [by right|by right| |]; intros ? E; congruence.
  - intros n a Hn. destruct (H2 n a Hn) as (c' & Hc & ?). exists c'. auto.
  - intros t a Ha. destruct (H3 t a Ha) as (c' & Hc). exists c'. apply Hk, Hc.
  - intros a c0 H. exists c0. auto.
  - exists c. by apply list_lookup_middle.
Qed.
(** The effect of a change of one context. *)
Ltac upd_shape Hs :=
  match goal with |- context [on_heap (alter ?g ?a) ?w0] =>
    let S := fresh "S" in let L := fresh "L" in
    destruct (shape_upd w0 a g Hs) as [S L];
    [let C1 := fresh in let C2 := fresh in let C3 := fresh in let C4 := fresh in
     intros ? ? (C1 & C2 & C3 & C4); refine (conj (conj _ (conj _ (conj _ _))) (conj eq_refl (conj eq_refl _))); cbn;
       first [done | by left | by intros ? | auto]|]
  end.
(** The obligations of a list of regions. *)
Ltac oks := repeat first [apply List.Forall_nil | apply List.Forall_cons]; try exact I.
Lemma shape_timer w t : shape w -> (forall u, t = Some u -> timer_is w u OnStart) -> shape (on_timer (fun _ => t) w).
Proof. intros (H1 & H2 & H3 & H4 & H5) Ht. refine (conj H1 (conj H2 (conj H3 (conj H4 _)))). exact Ht. Qed.
Lemma exec_shape me o x w push w1 :
  shape w -> instr_ok w x -> exec me o x w = (Ret push, w1) ->
  shape w1 /\ later w w1 /\ Forall (instr_ok w1) push /\ Forall (Forall (instr_ok w1)) (spawned o x w).
Proof.
  intros Hs Hx H. destruct x; run_exec H; cbn [spawned].
  all: try solve [refine (conj Hs (conj (later_refl _) (conj _ _))); repeat constructor; exact Hx].
  all: try solve [upd_shape Hs; refine (conj S (conj L (conj _ _))); repeat constructor].
  all: try solve [repeat (case_match; simplify_eq);
    refine (conj Hs (conj (later_refl _) (conj _ _))); repeat constructor].
  - destruct (shape_new w (new_Ctx req timeout_ms scd f)) as (S & L & K); try done.
    refine (conj S (conj L (conj _ _))); repeat constructor; exact K.
  - refine (conj (shape_ctxs w _ Hs _) (conj (later_refl _) (conj _ _))); [|repeat constructor..].
    intros n b Hb. destruct (m_ctxs w !! sn c) eqn:Em; [by apply Hs|]. destruct (decide (sn c = n)) as [<-|].
    + rewrite lookup_insert_eq in Hb. injection Hb as <-. by exists c.
    + rewrite lookup_insert_ne in Hb by done. by apply Hs.
  - destruct (shape_addTimer w (OnTimeOut a) Hs) as (w' & Hr & S & L & T & _); [by intros ? [= <-]|].
    injection Hr as <-. refine (conj S (conj L (conj _ _))); oks. exact (conj Hx T).
  - destruct Hx as [Hk Ht]. destruct (shape_upd w a (set_timer (Some t)) Hs) as [S L].
    { intros ? ? (C1 & C2 & C3 & C4). refine (conj (conj C1 (conj C2 (conj _ C4))) (conj eq_refl (conj eq_refl _))); [by intros ? [= <-]|done]. }
    refine (conj S (conj L (conj _ _))); oks.
  - refine (conj Hs (conj (later_refl _) (conj _ _))); oks. exists c. split; [done|]. apply Hs in E as [? _]. done.
  - upd_shape Hs. assert (Hw : exists c', heap (on_heap (alter (set_scheduler None) a) w) !! a = Some c' /\
      n = fst (caller c')).
    { exists (set_scheduler None c). cbn. rewrite list_lookup_alter_eq, E. split; [done|].
      apply Hs in E as [[?|?] _]; congruence. }
    refine (conj S (conj L (conj _ _))); oks; [| |exact Hw].
    + exists (set_scheduler None c). cbn. by rewrite list_lookup_alter_eq, E.
    + by destruct Hw as (c' & ? & _); exists c'.
  - destruct (shape_cancel w n Hs) as [S0 L0]. upd_shape S0.
    refine (conj S (conj (later_trans _ _ _ L0 L) (conj _ _))); oks.
  - refine (conj (shape_delete w _ Hs) (conj (later_refl _) (conj _ _))); oks.
  - destruct (shape_received w m0 Hs) as [S0 L0]. rewrite E. refine (conj S0 (conj L0 (conj _ _))); oks.
    apply elem_of_app. right. by apply list_elem_of_singleton.
  - pose proof (shape_delete _ (rs_sn (fst r)) Hs) as S. refine (conj S (conj (later_refl _) (conj _ _))); oks.
    all: destruct Hs as (_ & S2 & _); destruct (S2 _ _ E) as (c & Hc & Hn); exists c; try done.
    all: exact (conj Hc (conj (eq_sym Hn) Hx)).
  - destruct Hx as (c & Hc & Ha). destruct (shape_upd w a (set_response (Some r)) Hs) as [S L].
    { intros c0 Hc0 (C1 & C2 & C3 & C4). refine (conj (conj C1 (conj C2 (conj C3 _))) (conj eq_refl (conj eq_refl _))).
      2: done. intros ? [= <-]. assert (c0 = c) as -> by congruence. exact Ha. }
    refine (conj S (conj L (conj _ _))); oks.
  - destruct (shape_addTimer w OnStart Hs) as (w' & Hr & S & L & _); [done|]. injection Hr as <-.
    refine (conj S (conj L (conj _ _))); oks.
  - refine (conj (shape_ctxs w _ Hs _) (conj (later_refl _) (conj _ _))); [done| |oks].
    apply List.Forall_cons; [exact I|]. apply (fail_ctx_ok w); [|exact (later_refl w)].
    intros m b Hb. apply Hs in Hb as (c & ? & _). by exists c.
  - destruct (shape_cancel w n Hs) as [S0 L0]. refine (conj (shape_timer _ None S0 _) (conj L0 (conj _ _))); [done|oks..].
  - refine (conj (shape_timer _ None Hs _) (conj (later_refl _) (conj _ _))); [done|oks..].
  - destruct (shape_cancel w n Hs) as [S0 L0].
    destruct (shape_addTimer _ OnStart S0) as (w' & Hr & S & L & T & _); [done|]. injection Hr as <-.
    refine (conj (shape_timer _ _ S _) (conj (later_trans _ _ _ L0 L) (conj _ _))); [by intros ? [= <-]|oks..].
  - destruct (shape_addTimer _ OnStart Hs) as (w' & Hr & S & L & T & _); [done|]. injection Hr as <-.
    refine (conj (shape_timer _ _ S _) (conj L (conj _ _))); [by intros ? [= <-]|oks..].
Qed.

(** ** Each request is woken once *)
Definition hits (a b : nat) : nat := if decide (a = b) then 1%nat else 0%nat.
Lemma hits_same a : hits a a = 1%nat.
Proof. unfold hits. by rewrite decide_True. Qed.
(** The regions that schedule the fiber of [a], and those that lead there. *)
Definition p_sched (a : nat) (x : Instr) : nat := match x with RspSchedule b _ => hits a b | _ => 0%nat end.
Definition p_wake (a : nat) (x : Instr) : nat :=
  match x with
  | AddTimer b | RspRead b => hits a b
  | RspCas b (Some _) => hits a b
  | _ => 0%nat
  end.
Definition untaken (w : World) (a : nat) : nat :=
  match heap w !! a with Some c => match scheduler c with Some _ => 1%nat | None => 0%nat end | None => 1%nat end.
Definition wakes (w : World) (a : nat) : nat := sum_list_with (fun e => hits a e.1) (woken w).
Definition unwoken (w : World) (a : nat) : Prop := forall c, heap w !! a = Some c -> fiber c = None -> wakes w a = 1%nat.
(** The request's scheduler is taken once, and whoever took it schedules. *)
Definition one_wake (w : World) (a n : nat) : Prop := (untaken w a + n + wakes w a = 1)%nat /\ unwoken w a.
(** Until then a timer or a region to come will take it. *)
Definition covered (w : World) (a n : nat) : Prop :=
  forall c, heap w !! a = Some c -> is_Some (scheduler c) ->
    (exists t, timers w !! t = Some (OnTimeOut a)) \/ (0 < n)%nat.

Lemma fails_owe p l : (forall b, p (SetIOError b) = 0%nat) ->
  sum_list_with p (concat (fail_ctx <$> l)) = sum_list_with (fun a => p (RspRead a)) l.
Proof.
  intros Hp. induction l as [|a l IH]; [done|]. cbn in *. rewrite Hp, IH. done.
Qed.
Lemma untaken_upd w a b g :
  (forall c, heap w !! b = Some c -> scheduler (g c) = scheduler c) ->
  untaken (on_heap (alter g b) w) a = untaken w a.
Proof.
  intros Hg. unfold untaken. cbn. destruct (decide (b = a)) as [->|]; [|by rewrite list_lookup_alter_ne].
  rewrite list_lookup_alter_eq. destruct (heap w !! a) as [c|] eqn:E; [|done]. cbn. by rewrite Hg.
Qed.
Lemma one_wake_upd w a n b g :
  (forall c, heap w !! b = Some c -> scheduler (g c) = scheduler c /\ fiber (g c) = fiber c) ->
  one_wake w a n -> one_wake (on_heap (alter g b) w) a n.
Proof.
  intros Hg [H1 H2]. split; [rewrite untaken_upd; [exact H1|intros; by apply Hg]|].
  intros c Hc. cbn in Hc. destruct (decide (b = a)) as [->|].
  - rewrite list_lookup_alter_eq in Hc. destruct (heap w !! a) as [c0|] eqn:E; [|done]. injection Hc as <-.
    rewrite (proj2 (Hg c0 eq_refl)). by apply H2.
  - rewrite list_lookup_alter_ne in Hc by done. by apply H2.
Qed.
Lemma hits_other a b : a <> b -> hits a b = 0%nat.
Proof. intros H. unfold hits. by rewrite decide_False. Qed.
Lemma unwoken_upd w a b g :
  (forall c, heap w !! b = Some c -> fiber (g c) = fiber c) -> unwoken w a -> unwoken (on_heap (alter g b) w) a.
Proof.
  intros Hg H c Hc. cbn in Hc. destruct (decide (b = a)) as [->|].
  - rewrite list_lookup_alter_eq in Hc. destruct (heap w !! a) as [c0|] eqn:E; [|done]. injection Hc as <-.
    rewrite (Hg c0 eq_refl). by apply H.
  - rewrite list_lookup_alter_ne in Hc by done. by apply H.
Qed.
Lemma taken_other w a b g : a <> b -> untaken (on_heap (alter g b) w) a = untaken w a.
Proof. intros H. unfold untaken. cbn. by rewrite list_lookup_alter_ne by done. Qed.
Lemma taken_same w b c : heap w !! b = Some c -> untaken (on_heap (alter (set_scheduler None) b) w) b = 0%nat.
Proof. intros H. unfold untaken. cbn. by rewrite list_lookup_alter_eq, H. Qed.
(** [RspCas]: the one that takes the scheduler will schedule the fiber. *)
Lemma take_wake w a n b c scd f :
  heap w !! b = Some c -> scheduler c = Some scd -> fiber c = Some f -> one_wake w a n ->
  one_wake (on_heap (alter (set_scheduler None) b) w) a (hits a b + n).
Proof.
  intros Hb Hs Hf [H1 H2]. split; [|by apply unwoken_upd].
  change (wakes (on_heap _ w) a) with (wakes w a). destruct (decide (a = b)) as [->|].
  - rewrite (taken_same w b c Hb), hits_same. unfold untaken in H1. rewrite Hb, Hs in H1. lia.
  - rewrite taken_other, hits_other by done. exact H1.
Qed.
(** The others find it taken. *)
Lemma take_lost w a n b c :
  heap w !! b = Some c -> scheduler c = None \/ fiber c = None -> one_wake w a n ->
  one_wake (on_heap (alter (set_scheduler None) b) w) a n.
Proof.
  intros Hb Hs [H1 H2]. split; [|by apply unwoken_upd].
  change (wakes (on_heap _ w) a) with (wakes w a). destruct (decide (a = b)) as [->|]; [|by rewrite taken_other].
  rewrite (taken_same w b c Hb). unfold untaken in H1. rewrite Hb in H1. destruct (scheduler c) eqn:E; [|lia].
  destruct Hs as [|Hf]; [done|]. pose proof (H2 c Hb Hf). lia.
Qed.
Lemma schedule_wake w a n b c scd f :
  heap w !! b = Some c -> fiber c = Some f -> one_wake w a (hits a b + n) ->
  one_wake (on_woken (fun l => l ++ [(b, (scd, f))]) (on_heap (alter (set_fiber None) b) w)) a n.
Proof.
  intros Hb Hf [H1 H2].
  assert (Hw : wakes (on_woken (fun l => l ++ [(b, (scd, f))]) (on_heap (alter (set_fiber None) b) w)) a = (wakes w a + hits a b)%nat).
  { unfold wakes. cbn. rewrite sum_list_with_app. cbn. lia. }
  split; [rewrite Hw; change (untaken (on_woken _ ?w0)) with (untaken w0); rewrite untaken_upd by done; lia|].
  intros c' Hc' Hn. rewrite Hw. unfold hits in *. destruct (decide (a = b)) as [->|].
  - assert (wakes w b = 0)%nat by lia. lia.
  - cbn in Hc'. rewrite list_lookup_alter_ne in Hc' by done. rewrite Nat.add_0_r. by apply (H2 c').
Qed.
Lemma one_wake_other w a n b g : a <> b -> one_wake w a n -> one_wake (on_heap (alter g b) w) a n.
Proof.
  intros Hne [H1 H2]. split; [by rewrite taken_other|].
  intros c Hc. cbn in Hc. rewrite list_lookup_alter_ne in Hc by done. by apply H2.
Qed.
Lemma one_wake_new w a n c :
  is_Some (scheduler c) -> is_Some (fiber c) -> one_wake w a n -> one_wake (on_heap (fun h => h ++ [c]) w) a n.
Proof.
  intros [s Hs] [f Hf] [H1 H2]. split.
  - rewrite <- H1. f_equal. f_equal. unfold untaken. cbn.
    destruct (heap w !! a) as [c0|] eqn:E; [by rewrite (lookup_app_l_Some _ _ _ _ E)|].
    destruct ((heap w ++ [c]) !! a) as [c0|] eqn:Ec; [|done].
    apply lookup_app_Some in Ec as [?|[_ Ec]]; [congruence|]. apply list_lookup_singleton_Some in Ec as [_ <-]. by rewrite Hs.
  - intros c0 Hc Hn. apply lookup_app_Some in Hc as [Hc|[_ Hc]]; [by apply (H2 c0)|].
    apply list_lookup_singleton_Some in Hc as [_ <-]. congruence.
Qed.
Lemma exec_one_wake me o x w push w1 a n :
  instr_ok w x -> one_wake w a (p_sched a x + n) -> exec me o x w = (Ret push, w1) ->
  one_wake w1 a (sum_list_with (p_sched a) push + owes (p_sched a) (spawned o x w) + n).
Proof.
  intros Hx Hone H. destruct x; run_exec H; cbn [spawned].
  all: repeat (case_match; simplify_eq).
  all: try solve [exact Hone].
  all: try solve [refine (one_wake_upd _ _ _ _ _ _ Hone); intros; done].
  - by apply one_wake_new.
  - cbn [sum_list_with p_sched]. rewrite !Nat.add_0_r. by apply (take_wake w a n a0 c n0 n1).
  - apply (take_lost w a n a0 c); auto.
  - apply (take_lost w a n a0 c); auto.
  - by apply (schedule_wake w a n a0 c scd n0).
  - destruct Hone as [H1 H2]. destruct (decide (a = a0)) as [->|].
    + pose proof (H2 c E E0). cbn in H1. rewrite hits_same in H1. lia.
    + cbn in H1. rewrite hits_other in H1 by done. apply one_wake_other; [done|by split].
  - cbn [sum_list_with]. rewrite fails_owe by done.
    replace (sum_list_with _ _) with 0%nat; [exact Hone|]. generalize (map_to_list (m_ctxs w)).*2.
    intros l. induction l; done.
Qed.

(** ** No request is forgotten *)
Lemma covered_upd w a n b g :
  (forall c, heap w !! b = Some c -> scheduler (g c) = scheduler c) -> covered w a n ->
  covered (on_heap (alter g b) w) a n.
Proof.
  intros Hg H c Hc. cbn in Hc. destruct (decide (b = a)) as [->|].
  - rewrite list_lookup_alter_eq in Hc. destruct (heap w !! a) as [c0|] eqn:E; [|done]. injection Hc as <-.
    rewrite (Hg c0 eq_refl). by apply H.
  - rewrite list_lookup_alter_ne in Hc by done. by apply H.
Qed.
Lemma covered_weaken w a n n' : (n <= n')%nat -> covered w a n -> covered w a n'.
Proof. intros Hn H c Hc Hs. destruct (H c Hc Hs); [by left|right; lia]. Qed.
Lemma covered_new w a n c m :
  (a = length (heap w) -> (0 < m)%nat) -> (n <= m)%nat -> covered w a n -> covered (on_heap (fun h => h ++ [c]) w) a m.
Proof.
  intros Hm Hn H c0 Hc Hs. apply lookup_app_Some in Hc as [Hc|[Ha Hc]].
  - destruct (H c0 Hc Hs); [by left|right; lia].
  - pose proof (lookup_lt_Some _ _ _ Hc) as Hl. cbn in Hl. right. apply Hm. lia.
Qed.
Lemma covered_taken w a b n m g :
  (forall c, heap w !! b = Some c -> scheduler (g c) = None) -> (a <> b -> n <= m)%nat ->
  covered w a n -> covered (on_heap (alter g b) w) a m.
Proof.
  intros Hg Hn H c Hc Hs. cbn in Hc. destruct (decide (b = a)) as [->|].
  - rewrite list_lookup_alter_eq in Hc. destruct (heap w !! a) as [c0|] eqn:E; [|done]. injection Hc as <-.
    rewrite (Hg c0 eq_refl) in Hs. by destruct Hs.
  - rewrite list_lookup_alter_ne in Hc by done. destruct (H c Hc Hs); [by left|right]. specialize (Hn ltac:(done)). lia.
Qed.
Lemma covered_cancel w a n t :
  (forall c, timers w !! t = Some (OnTimeOut a) -> heap w !! a = Some c -> scheduler c = None) ->
  covered w a n -> covered (on_timers (delete t) w) a n.
Proof.
  intros Ht H c Hc Hs. destruct (H c Hc Hs) as [[u Hu]|]; [|by right]. left. exists u. cbn.
  rewrite lookup_delete_ne; [done|]. intros ->. rewrite (Ht c Hu Hc) in Hs. by destruct Hs.
Qed.
Lemma covered_add w w' a n m cb :
  shape w -> timers w' = <[next_timer w := cb]> (timers w) -> heap w' = heap w ->
  (cb <> OnTimeOut a -> n <= m)%nat -> covered w a n -> covered w' a m.
Proof.
  intros (_ & _ & _ & H4 & _) Ht Hh Hn H c Hc Hs. rewrite Hh in Hc.
  destruct (decide (cb = OnTimeOut a)) as [->|]; [left; exists (next_timer w); by rewrite Ht, lookup_insert_eq|].
  destruct (H c Hc Hs) as [[u Hu]|]; [|right; specialize (Hn ltac:(done)); lia]. left. exists u.
  rewrite Ht, lookup_insert_ne; [done|]. pose proof (H4 u (mk_is_Some _ _ Hu)). lia.
Qed.
Lemma own_timer w a t cb : timer_is w t cb -> timers w !! t = Some (OnTimeOut a) -> cb = OnTimeOut a.
Proof. intros [_ [E|E]] H; congruence. Qed.
Lemma exec_covered me o x w push w1 a n :
  shape w -> instr_ok w x -> covered w a (p_wake a x + n) -> exec me o x w = (Ret push, w1) ->
  covered w1 a (sum_list_with (p_wake a) push + owes (p_wake a) (spawned o x w) + n).
Proof.
  intros Hs Hx Hcov H. destruct x; run_exec H; cbn [spawned].
  all: repeat (case_match; simplify_eq).
  all: try solve [exact Hcov].
  all: try solve [refine (covered_upd _ _ _ _ _ _ Hcov); intros; done].
  all: try solve [refine (covered_weaken _ _ _ _ _ Hcov); cbn; lia].
  - apply (covered_new w a n); [|cbn; lia|exact Hcov]. intros ->. cbn. rewrite hits_same. lia.
  - eapply (covered_add w _ a _ _ (OnTimeOut a0) Hs); [reflexivity|reflexivity| |exact Hcov]. intros Hne. cbn.
    rewrite hits_other by congruence. lia.
  - intros c0 Hc0 Hsc. destruct (Hcov c0 Hc0 Hsc) as [|Hn]; [by left|]. right. cbn in *.
    destruct (decide (a = a0)) as [->|]; [|rewrite hits_other in Hn by done; lia].
    assert (c0 = c) as -> by congruence. destruct Hsc as [sc ->]. rewrite hits_same. lia.
  - eapply (covered_taken w a a0); [| |exact Hcov]; [done|]. intros Hne. cbn. rewrite hits_other by done. lia.
  - eapply (covered_taken w a a0); [| |exact Hcov]; [done|]. intros Hne. cbn. rewrite hits_other by done. lia.
  - eapply (covered_taken w a a0); [| |exact Hcov]; [done|]. intros Hne. cbn. lia.
  - intros c0 Hc0 Hsc. destruct (Hcov c0 Hc0 Hsc) as [|Hn]; [by left|]. right. cbn in *.
    destruct scd as [scd|]; [|lia]. destruct (decide (a = a0)) as [->|]; [|rewrite hits_other in Hn by done; lia].
    exfalso. assert (c0 = c) as -> by congruence. destruct Hx as (c' & Hc' & Hx). assert (c' = c) as -> by congruence.
    apply Hs in E as [[Hn0|Hn0] _]; rewrite Hn0 in *; [by destruct Hsc|]. destruct Hx; congruence.
  - apply covered_upd; [done|]. apply covered_cancel; [|exact Hcov]. destruct Hx as (c' & Hc' & Hx).
    assert (c' = c) as -> by congruence. intros c0 Ht Hc0. apply Hs in E as (_ & _ & E & _).
    pose proof (own_timer _ _ _ _ (E _ E0) Ht) as Ha. injection Ha as ->. congruence.
  - eapply (covered_add w _ a _ _ OnStart Hs); [reflexivity|reflexivity| |exact Hcov]. cbn. lia.
  - apply (covered_cancel w); [|exact Hcov]. intros c0 Ht Hc0. destruct Hs as (_ & _ & _ & _ & H5).
    pose proof (own_timer _ _ _ _ (H5 _ ltac:(eassumption)) Ht). done.
  - assert (Hcov' : covered (on_timers (delete n0) w) a n).
    { apply (covered_cancel w); [|exact Hcov]. intros c0 Ht Hc0. destruct Hs as (_ & _ & _ & _ & H5).
      pose proof (own_timer _ _ _ _ (H5 _ ltac:(eassumption)) Ht). done. }
    eapply (covered_add (on_timers (delete n0) w) _ a _ _ OnStart (proj1 (shape_cancel w n0 Hs))); [reflexivity|reflexivity| |exact Hcov']. cbn. lia.
  - eapply (covered_add w _ a _ _ OnStart Hs); [reflexivity|reflexivity| |exact Hcov]. cbn. lia.
Qed.

(** ** Whoever is woken finds a result *)
Definition result_ok (w : World) (c : Ctx) : Prop :=
  result c = u32 TIMEOUT \/ result c = u32 IO_ERROR \/ exists r, answers w c r /\ result c = rs_result (fst r).
Definition Due (w : World) (a : nat) : Prop := exists c, heap w !! a = Some c /\ (timed c = true \/ result_ok w c).
Definition Settled (w : World) (a : nat) : Prop := exists c, heap w !! a = Some c /\ result_ok w c.
Definition Woken (w : World) (a : nat) : Prop := a ∈ (woken w).*1.
(** What a region adds to the three sets. *)
Definition makes_due (x : Instr) (a : nat) : Prop :=
  match x with SetResult b _ | SetIOError b | TimeOutTimed b => b = a | _ => False end.
Definition settles (x : Instr) (a : nat) : Prop :=
  match x with SetResult b _ | SetIOError b | RspResult b => b = a | _ => False end.
Definition awaits (x : Instr) (a : nat) : Prop := match x with YieldToHold b => b = a | _ => False end.
Definition needs (D S W : nat -> Prop) (x : Instr) : Prop :=
  match x with
  | RspRead a | RspCas a _ | RspTimer a | RspResult a => D a
  | RspSchedule a _ => S a
  | Request_return a => W a
  | _ => True
  end.
(** A thread sets the result of a request before it wakes it, and reads it after
    it was woken. *)
Fixpoint ordered (D S W : nat -> Prop) (l : list Instr) : Prop :=
  match l with
  | [] => True
  | x :: l => needs D S W x /\
      ordered (fun a => D a \/ makes_due x a) (fun a => S a \/ settles x a) (fun a => W a \/ awaits x a) l
  end.
Definition result_right (w : World) (e : RockResult) : Prop :=
  match rr_ctx e with
  | None => rr_result e = NOT_CONNECT /\ rr_response e = None
  | Some a => exists c, heap w !! a = Some c /\
      (rr_result e = TIMEOUT \/ rr_result e = IO_ERROR \/
       exists r, answers w c r /\ rr_result e = i32 (rs_result (fst r))) /\
      (forall r, rr_response e = Some r -> answers w c r)
  end.
Definition outcomes (w : World) : Prop :=
  (forall a, Woken w a -> Settled w a) /\ (forall e, e ∈ results w -> result_right w e) /\
  (forall a s, (a, s) ∈ woken w -> exists c, heap w !! a = Some c /\ s = caller c).
(** No request loses what it has. *)
Definition better (w w' : World) : Prop :=
  (forall a, Due w a -> Due w' a) /\ (forall a, Settled w a -> Settled w' a) /\ (forall a, Woken w a -> Woken w' a).

Lemma ordered_mono (D S W D' S' W' : nat -> Prop) l :
  (forall a, D a -> D' a) -> (forall a, S a -> S' a) -> (forall a, W a -> W' a) ->
  ordered D S W l -> ordered D' S' W' l.
Proof.
  revert D S W D' S' W'. induction l as [|x l IH]; intros * HD HS HW; [done|]. cbn. intros [Hx Hl]. split.
  - destruct x; cbn in *; auto.
  - eapply IH; [..|exact Hl]; intros a [?|?]; auto.
Qed.
Lemma ordered_app (D S W : nat -> Prop) l1 l2 : ordered D S W l1 -> ordered D S W l2 -> ordered D S W (l1 ++ l2).
Proof.
  revert D S W. induction l1 as [|x l1 IH]; intros D S W H1 H2; [done|]. destruct H1 as [Hx H1]. split; [done|].
  apply IH; [done|]. eapply ordered_mono; [..|exact H2]; auto.
Qed.
Lemma fails_ordered (D S W : nat -> Prop) l : ordered D S W (concat (fail_ctx <$> l)).
Proof.
  revert D S W. induction l as [|a l IH]; intros D S W; [done|]. cbn. split_and!; [done|by right|apply IH].
Qed.
Lemma answers_later w w' c c' r : later w w' -> sn c' = sn c -> answers w c r -> answers w' c' r.
Proof. intros (_ & _ & _ & L) Hs [H1 H2]. split; [congruence|auto]. Qed.
Lemma result_right_later w w' e : later w w' -> result_right w e -> result_right w' e.
Proof.
  intros L. unfold result_right. destruct (rr_ctx e) as [a|]; [|done]. intros (c & Hc & Hr & Hp).
  pose proof L as (Lh & _). destruct (Lh a c Hc) as (c' & Hc' & Hs & _). exists c'. split_and!; [done| |].
  - destruct Hr as [?|[?|(r & ? & ?)]]; [by left|by right; left|right; right]. exists r. split; [|done]. by eapply answers_later.
  - intros r Hr'. eapply answers_later; eauto.
Qed.
(** A change of a context that keeps or settles its result. *)
Lemma better_upd w w0 b g :
  heap w = heap w0 -> received w = received w0 -> woken w = woken w0 ->
  (forall c, heap w !! b = Some c ->
     sn (g c) = sn c /\ (timed c = true -> timed (g c) = true) /\
     (result (g c) = result c \/ result_ok w (g c))) ->
  better w (on_heap (alter g b) w0).
Proof.
  intros Eh Er Ew Hg.
  assert (Hr : forall a c, heap w !! a = Some c -> exists c', alter g b (heap w0) !! a = Some c' /\
    (timed c = true -> timed c' = true) /\ (result_ok w c -> result_ok (on_heap (alter g b) w0) c')).
  { intros a c Hc. rewrite <- Eh. destruct (decide (b = a)) as [->|].
    - rewrite list_lookup_alter_eq, Hc. cbn. destruct (Hg c Hc) as (Hs & Ht & Hres). eexists. split_and!; [done|done|].
      unfold result_ok, answers in *. cbn. rewrite <- Er. destruct Hres as [->|?]; [by rewrite Hs|done].
    - rewrite list_lookup_alter_ne by done. exists c. unfold result_ok, answers. cbn. rewrite <- Er. done. }
  split_and!.
  - intros a (c & Hc & H). destruct (Hr a c Hc) as (c' & ? & ? & ?). exists c'. split; [done|]. destruct H; auto.
  - intros a (c & Hc & H). destruct (Hr a c Hc) as (c' & ? & ? & ?). exists c'. split; [done|]. auto.
  - intros a. unfold Woken. cbn. by rewrite Ew.
Qed.
Lemma new_better w c : better w (on_heap (fun h => h ++ [c]) w).
Proof.
  assert (Hl : forall a c0, heap w !! a = Some c0 -> (heap w ++ [c]) !! a = Some c0) by (intros; by apply lookup_app_l_Some).
  split_and!; [| |done]; intros a (c0 & Hc & H); exists c0; (split; [by apply Hl|done]).
Qed.
(** A change that has no effect on results. *)
Ltac upd_better :=
  match goal with |- better ?w ?w' /\ _ =>
    assert (B : better w w') by
      (apply better_upd; [reflexivity..|]; intros; refine (conj eq_refl (conj _ _)); [done|by left])
  end.
Lemma better_refl w : better w w.
Proof. split_and!; done. Qed.
Definition good_list (w : World) (l : list Instr) : Prop := ordered (Due w) (Settled w) (Woken w) l.
Definition gains (x : Instr) (w : World) : Prop :=
  (forall a, makes_due x a -> Due w a) /\ (forall a, settles x a -> Settled w a) /\ (forall a, awaits x a -> Woken w a).
Lemma result_better w a v c :
  heap w !! a = Some c -> result_ok w (set_result v c) ->
  better w (on_heap (alter (set_result v) a) w) /\ Settled (on_heap (alter (set_result v) a) w) a.
Proof.
  intros Hc Hv. split.
  - apply better_upd; [done..|]. intros c' Hc'. assert (c' = c) as -> by congruence.
    refine (conj eq_refl (conj (fun H => H) (or_intror Hv))).
  - exists (set_result v c). cbn. split; [by rewrite list_lookup_alter_eq, Hc|exact Hv].
Qed.
Lemma received_better w r : better w (on_received (fun l => l ++ [r]) w).
Proof.
  assert (Hr : forall c, result_ok w c -> result_ok (on_received (fun l => l ++ [r]) w) c).
  { intros c [?|[?|(r' & [? ?] & ?)]]; [by left|right; by left|]. right; right. exists r'. split; [|done].
    split; [done|]. apply elem_of_app. by left. }
  split_and!; [| |done]; intros a (c & Hc & H); exists c; (split; [done|]); [destruct H; auto|auto].
Qed.
Lemma exec_better me o x w push w1 :
  instr_ok w x -> needs (Due w) (Settled w) (Woken w) x -> enabled me x w = true ->
  exec me o x w = (Ret push, w1) ->
  better w w1 /\ gains x w1 /\ good_list w1 push /\ Forall (good_list w1) (spawned o x w).
Proof.
  intros Hx Hn He H. destruct x; run_exec H; cbn [spawned].
  all: repeat (case_match; simplify_eq).
  all: try solve [refine (conj (better_refl _) (conj _ (conj _ _))); [repeat split; done|repeat split; done|oks; repeat split; done]].
  all: try solve [upd_better; refine (conj B (conj _ (conj _ _))); [repeat split; done|repeat split; done|oks]].
  - pose proof (new_better w (new_Ctx req timeout_ms scd f)) as B.
    refine (conj B (conj _ (conj _ _))); [repeat split; done| |oks]. repeat split; try done. by right.
  - apply bool_decide_eq_true in He.
    refine (conj (better_refl _) (conj _ (conj _ _))); [|done|oks]. repeat split; try done. by intros ? <-.
  - upd_better. refine (conj B (conj _ (conj _ _))); [repeat split; done| |oks].
    destruct B as (BD & _). pose proof (BD a Hn) as HD. repeat split; [exact HD|left; exact HD|]. by right.
  - destruct (result_better w a (u32 TIMEOUT) c E (or_introl eq_refl)) as [B HS].
    refine (conj B (conj _ (conj _ _))); [|done|oks]. repeat split; try done. by intros ? <-.
  - refine (conj (better_refl _) (conj _ (conj _ _))); [|done|oks]. repeat split; try done. intros ? <-.
    destruct Hn as (c' & Hc' & Hn). assert (c' = c) as -> by congruence. exists c. split; [done|]. destruct Hn; [congruence|done].
  - refine (conj _ (conj _ (conj _ _))); [|repeat split; done|done|oks].
    assert (B : better w (on_heap (alter (set_fiber None) a) w)).
    { apply better_upd; [reflexivity..|]. intros. refine (conj eq_refl (conj _ _)); [done|by left]. }
    destruct B as (BD & BS & BW). refine (conj BD (conj BS _)). intros b Hb. unfold Woken in *. cbn.
    rewrite fmap_app. apply elem_of_app. by left.
  - upd_better. refine (conj B (conj _ (conj _ _))); [|done|oks]. repeat split; try done. intros ? <-.
    destruct Hx as [c Hc]. exists (set_timed true c). cbn. split; [by rewrite list_lookup_alter_eq, Hc|by left].
  - refine (conj _ (conj _ (conj _ _))); [|repeat split; done| |oks].
    + exact (received_better w m0).
    + repeat split.
  - refine (conj (better_refl _) (conj _ (conj _ _))); [repeat split; done| |oks]. repeat split; cbn; auto.
  - destruct Hx as (c & Hc & Ha). destruct (result_better w a (rs_result (fst r)) c Hc) as [B HS].
    { right; right. by exists r. }
    refine (conj B (conj _ (conj _ _))); [|done|oks]. repeat split; try done; intros ? <-; [|done].
    destruct HS as (c' & ? & ?). exists c'. auto.
  - refine (conj (better_refl _) (conj _ (conj _ _))); [repeat split; done| |oks]. split; [done|]. apply fails_ordered.
  - destruct Hx as (c & Hc). destruct (result_better w a (u32 IO_ERROR) c Hc) as [B HS]; [right; by left|].
    refine (conj B (conj _ (conj _ _))); [|done|oks]. repeat split; try done; intros ? <-; [|done].
    destruct HS as (c' & ? & ?). exists c'. auto.
Qed.
Lemma exec_woken me o x w push w1 : exec me o x w = (Ret push, w1) ->
  woken w1 = woken w \/ exists a scd f c, x = RspSchedule a scd /\ heap w !! a = Some c /\ fiber c = Some f /\
    woken w1 = woken w ++ [(a, (scd, f))].
Proof.
  intros H. destruct x; run_exec H; try solve [by left].
  right. by exists a, scd, n, c.
Qed.
Lemma exec_results me o x w push w1 :
  shape w -> outcomes w -> needs (Due w) (Settled w) (Woken w) x -> exec me o x w = (Ret push, w1) ->
  results w1 = results w \/ exists e, results w1 = results w ++ [e] /\ result_right w e.
Proof.
  intros Hs (Ho & _) Hn H. destruct x; run_exec H; try solve [by left].
  - right. eexists. split; [done|]. done.
  - right. eexists. split; [done|]. destruct (Ho a Hn) as (c' & Hc' & Hr). assert (c' = c) as -> by congruence.
    exists c. split_and!; [done| |]; cbn.
    + destruct Hr as [-> | [-> | (r & ? & ->)]]; [by left|right; by left|right; right; by exists r].
    + intros r Hr'. apply Hs in E as (_ & _ & _ & E). by apply E.
Qed.
Lemma exec_outcomes me o x w push w1 :
  shape w -> instr_ok w x -> needs (Due w) (Settled w) (Woken w) x -> enabled me x w = true -> outcomes w ->
  exec me o x w = (Ret push, w1) -> outcomes w1.
Proof.
  intros Hs Hx Hn He Ho H. destruct (exec_better _ _ _ _ _ _ Hx Hn He H) as ((_ & BS & _) & _).
  destruct (exec_shape _ _ _ _ _ _ Hs Hx H) as (_ & L & _). pose proof L as (Lh & _).
  pose proof (exec_results _ _ _ _ _ _ Hs Ho Hn H) as Hres. destruct Ho as (H1 & H2 & H3). split_and!.
  - intros a Ha. apply BS. destruct (exec_woken _ _ _ _ _ _ H) as [E|(b & scd & f & c & -> & Hc & Hf & E)].
    + apply H1. unfold Woken in *. by rewrite <- E.
    + unfold Woken in Ha. rewrite E, fmap_app in Ha. apply elem_of_app in Ha as [Ha|Ha]; [by apply H1|].
      apply list_elem_of_singleton in Ha as ->. exact Hn.
  - intros e He'. destruct Hres as [E|(e' & E & Hr)]; rewrite E in He'.
    + eapply result_right_later; [exact L|]. by apply H2.
    + apply elem_of_app in He' as [He'|He']; [|apply list_elem_of_singleton in He' as ->];
        (eapply result_right_later; [exact L|]); [by apply H2|done].
  - intros a s Ha. assert (Hold : (a, s) ∈ woken w \/ exists c, heap w !! a = Some c /\ s = caller c).
    { destruct (exec_woken _ _ _ _ _ _ H) as [E|(b & scd & f & c & -> & Hc & Hf & E)]; rewrite E in Ha; [by left|].
      apply elem_of_app in Ha as [Ha|Ha]; [by left|]. apply list_elem_of_singleton in Ha as [= -> ->].
      right. exists c. split; [done|]. destruct Hx as (c' & Hc' & ->). assert (c' = c) as -> by congruence.
      apply Hs in Hc as (_ & [?|Hf'] & _); [congruence|]. assert (f = snd (caller c)) as -> by congruence.
      by destruct (caller c). }
    assert (Hc : exists c, heap w !! a = Some c /\ s = caller c) by (destruct Hold; [by apply H3|done]).
    destruct Hc as (c & Hc & ->). destruct (Lh a c Hc) as (c' & ? & ? & ? & ?). by exists c'.
Qed.

(** ** Nothing follows a wait but what needs the wait *)
Definition waits (x : Instr) : bool :=
  match x with
  | YieldToHold _ | SemParked | WaitParked | Request_new _ _ _ _ | SemWait | WaitSem | WriteLoop => true
  | _ => false
  end.
Definition quiet (x : Instr) : Prop := forall a, p_sched a x = 0%nat /\ p_wake a x = 0%nat.
Fixpoint waits_last (l : list Instr) : Prop :=
  match l with [] => True | x :: l => (waits x = true -> Forall quiet l) /\ waits_last l end.
Lemma waits_last_app l1 l2 :
  waits_last l1 -> waits_last l2 -> Forall quiet l2 \/ Forall (fun x => waits x = false) l1 -> waits_last (l1 ++ l2).
Proof.
  induction l1 as [|x l1 IH]; intros H1 H2 H; [done|]. destruct H1 as [Hx H1]. cbn. split.
  - intros Hw. apply list.Forall_app. destruct H as [?|[H _]%list.Forall_cons]; [auto|congruence].
  - apply IH; [done..|]. destruct H as [?|[_ H]%list.Forall_cons]; auto.
Qed.
Lemma fails_wait l : Forall (fun x => waits x = false) (concat (fail_ctx <$> l)) /\ waits_last (concat (fail_ctx <$> l)).
Proof. induction l as [|a l [IH1 IH2]]; cbn; [done|]. split; [oks; done|done]. Qed.
Lemma exec_waits me o x w push w1 : exec me o x w = (Ret push, w1) ->
  waits_last push /\ (waits x = true \/ Forall (fun x => waits x = false) push) /\ Forall waits_last (spawned o x w).
Proof.
  intros H. destruct x; run_exec H; cbn [spawned].
  all: repeat (case_match; simplify_eq).
  all: try solve [refine (conj _ (conj _ _)); [repeat split; try done; intros; oks; done|first [by left|right; oks; done]|oks; done]].
  - destruct (fails_wait (map_to_list (m_ctxs w)).*2) as [H1 H2]. refine (conj (conj _ H2) (conj _ _)); [done| |oks].
    right. by apply List.Forall_cons.
Qed.

(** ** The invariant *)
Definition thread_ok (w : World) (l : list Instr) : Prop := Forall (instr_ok w) l /\ good_list w l /\ waits_last l.
Record req_inv (w : World) : Prop := {
  inv_shape : shape w;
  inv_outcomes : outcomes w;
  inv_threads : Forall (thread_ok w) (threads w);
  inv_wake a : one_wake w a (owes (p_sched a) (threads w));
  inv_covered a : covered w a (owes (p_wake a) (threads w))
}.
Lemma thread_ok_later w w' l : later w w' -> better w w' -> thread_ok w l -> thread_ok w' l.
Proof.
  intros L (B1 & B2 & B3) (H1 & H2 & H3). split_and!; [|by eapply ordered_mono|done].
  eapply list.Forall_impl; [exact H1|]. intros x. by apply instr_later.
Qed.
Lemma spawn_inv w k :
  req_inv w -> thread_ok w k -> (forall a, sum_list_with (p_sched a) k = 0%nat) ->
  req_inv (on_threads (fun ts => ts ++ [k]) w).
Proof.
  intros [I1 I2 I3 I4 I5] Hk Hp. constructor; [exact I1|exact I2| | |]; cbn [on_threads threads].
  - apply list.Forall_app. split; [exact I3|]. apply List.Forall_cons; [exact Hk|done].
  - intros a. rewrite owes_app. cbn [owes sum_list_with]. rewrite Hp, !Nat.add_0_r. apply I4.
  - intros a. rewrite owes_app. eapply covered_weaken; [|exact (I5 a)]. lia.
Qed.
Lemma thread_step_req i o w w' : req_inv w -> thread_step i o w = (Ret tt, w') -> req_inv w'.
Proof.
  intros I H. apply thread_step_inv in H as [->|(x & k & push & w1 & Hi & He & Hex & ->)]; [done|].
  destruct I as [I1 I2 I3 I4 I5]. set (w0 := set_thread i k w) in *.
  pose proof (proj1 (list.Forall_lookup _ _) I3 i _ Hi) as (Hok & Hord & Hlast).
  apply list.Forall_cons in Hok as [Hx Hk]. destruct Hord as [Hn Hord]. destruct Hlast as [Hq Hlast].
  destruct (exec_shape i o x w0 push w1 I1 Hx Hex) as (S & L & P1 & Sp1).
  destruct (exec_better i o x w0 push w1 Hx Hn He Hex) as (B & (G1 & G2 & G3) & P2 & Sp2).
  destruct (exec_waits i o x w0 push w1 Hex) as (P3 & Hw & Sp3).
  pose proof (exec_outcomes i o x w0 push w1 I1 Hx Hn He I2 Hex) as O.
  change (spawned o x w0) with (spawned o x w) in *.
  pose proof B as (B1 & B2 & B3). constructor; [exact S|exact O| | |]; cbn [on_threads threads].
  - apply list.Forall_app. split.
    + apply list.Forall_insert; [eapply list.Forall_impl; [exact I3|]; intros l; by apply (thread_ok_later w0)|].
      split_and!.
      * apply list.Forall_app. split; [exact P1|]. eapply list.Forall_impl; [exact Hk|]. intros y. by apply (instr_later w0).
      * apply ordered_app; [exact P2|]. eapply ordered_mono; [..|exact Hord]; intros a [Ha|Ha].
        -- by apply B1.
        -- by apply G1.
        -- by apply B2.
        -- by apply G2.
        -- by apply B3.
        -- by apply G3.
      * apply waits_last_app; [exact P3|exact Hlast|]. destruct Hw as [Hw|Hw]; [left; by apply Hq|by right].
    + apply list.Forall_forall. intros l Hl. split_and!; [by eapply list.Forall_forall in Sp1|by eapply list.Forall_forall in Sp2|
        by eapply list.Forall_forall in Sp3].
  - intros a. pose proof (owes_step (p_sched a) w i x k push (spawned o x w) Hi) as Ho.
    destruct (exec_one_wake i o x w0 push w1 a (owes (p_sched a) (threads w) - p_sched a x) Hx) as [E1 E2]; [|exact Hex|].
    + pose proof (owes_insert (p_sched a) _ _ _ [] Hi) as Ho'. cbn in Ho'.
      replace (p_sched a x + _)%nat with (owes (p_sched a) (threads w)) by lia. exact (I4 a).
    + split; [|exact E2]. pose proof (owes_insert (p_sched a) _ _ _ [] Hi) as Ho'. cbn in Ho'.
      change (spawned o x w0) with (spawned o x w) in E1. rewrite <- E1. unfold untaken, wakes. cbn [heap woken on_threads]. lia.
  - intros a. pose proof (owes_step (p_wake a) w i x k push (spawned o x w) Hi) as Ho.
    pose proof (owes_insert (p_wake a) _ _ _ [] Hi) as Ho'. cbn in Ho'.
    pose proof (exec_covered i o x w0 push w1 a (owes (p_wake a) (threads w) - p_wake a x) I1 Hx) as E.
    change (spawned o x w0) with (spawned o x w) in E. eapply covered_weaken; [|apply E; [|exact Hex]]; [lia|].
    replace (p_wake a x + _)%nat with (owes (p_wake a) (threads w)) by lia. exact (I5 a).
Qed.
Lemma cancel_inv w t : req_inv w -> (forall a, timers w !! t <> Some (OnTimeOut a)) -> req_inv (on_timers (delete t) w).
Proof.
  intros [I1 I2 I3 I4 I5] Ht. destruct (shape_cancel w t I1) as [S L].
  constructor; [exact S| |eapply list.Forall_impl; [exact I3|]; intros l; by apply (thread_ok_later w)|exact I4|].
  - destruct I2 as (O1 & O2 & O3). exact (conj O1 (conj O2 O3)).
  - intros a. apply covered_cancel; [|exact (I5 a)]. intros c E. by destruct (Ht a).
Qed.
Lemma fire_req w t a : req_inv w -> timers w !! t = Some (OnTimeOut a) ->
  req_inv (on_threads (fun ts => ts ++ [onTimeOut a]) (on_timers (delete t) w)).
Proof.
  intros [I1 I2 I3 I4 I5] Ht. destruct (shape_cancel w t I1) as [S L].
  assert (Hk : known w a) by (destruct I1 as (_ & _ & H3 & _); by eapply H3).
  constructor; [exact S| | | |]; cbn [on_threads threads].
  - destruct I2 as (O1 & O2 & O3). exact (conj O1 (conj O2 O3)).
  - apply list.Forall_app. split; [eapply list.Forall_impl; [exact I3|]; intros l; by apply (thread_ok_later w)|].
    oks. split_and!; [oks; exact Hk|repeat split; cbn; auto|repeat split; done].
  - intros b. rewrite owes_app. cbn [owes sum_list_with onTimeOut doRsp app]. cbn. rewrite !Nat.add_0_r. exact (I4 b).
  - intros b. rewrite owes_app. intros c Hc Hs. destruct (decide (a = b)) as [->|Hne].
    + right. cbn. rewrite hits_same. lia.
    + destruct (I5 b c Hc Hs) as [[u Hu]|]; [left|right; cbn [threads on_timers]; lia]. exists u. cbn. rewrite lookup_delete_ne; [done|]. congruence.
Qed.
Lemma step_req l w w' : req_inv w -> step l w = (Ret tt, w') -> req_inv w'.
Proof.
  intros I H. destruct l as [i o|t|req ms scd f|msg| |]; cbn in H.
  - by eapply thread_step_req.
  - cbv [mbind M_bind mret M_ret get modify spawn] in H. destruct (timers w !! t) as [[a|]|] eqn:E; injection H as <-; [| |done].
    + by apply fire_req.
    + apply spawn_inv; [apply cancel_inv; [done|congruence]| |done].
      split_and!; [oks|repeat split; done|repeat split; intros; oks; done].
  - injection H as <-. apply spawn_inv; [done| |done]. split_and!; [oks|repeat split; done|repeat split; done].
  - injection H as <-. apply spawn_inv; [done| |done]. split_and!; [oks|repeat split; done|repeat split; done].
  - injection H as <-. apply spawn_inv; [done| |done].
    split_and!; [oks|repeat split; done|repeat split; intros; oks; done].
  - injection H as <-. apply spawn_inv; [done| |done]. split_and!; [oks|repeat split; done|repeat split; done].
Qed.
Lemma run_req ls w w' : req_inv w -> run ls w = (Ret tt, w') -> req_inv w'.
Proof.
  revert w. induction ls as [|l ls IH]; intros w I H; cbn in H; [by injection H as <-|].
  unfold mbind, M_bind in H. destruct (step l w) as [[[]| | |] w1] eqn:E; try done. eapply IH; [|exact H]. by eapply step_req.
Qed.
Lemma reachable_req w : reachable w -> req_inv w.
Proof.
  intros (s0 & c & a & cbs & ls & H). eapply run_req; [|exact H]. constructor; cbn.
  - split_and!; cbn; try done. by intros t [cb Ht].
  - split_and!; cbn.
    + intros b Hb. by apply not_elem_of_nil in Hb.
    + intros e He. by apply not_elem_of_nil in He.
    + intros b s Hb. by apply not_elem_of_nil in Hb.
  - done.
  - intros b. by split.
  - intros b c0 Hc. done.
Qed.

(** ** The locks *)

(** Whoever holds a lock is in the middle of [enqueue], or of a swap or clear. *)
Definition enqueues (l : option (list Instr)) : Prop :=
  match l with Some (EnqPush _ _ :: _) | Some (EnqPushed _ _ :: _) => True | _ => False end.
Definition pushes (l : option (list Instr)) : Prop := match l with Some (EnqPushed _ _ :: _) => True | _ => False end.
Definition empties (l : option (list Instr)) : Prop :=
  match l with Some (SwapDone :: _) | Some (ClearDone :: _) => True | _ => False end.
Record lock_inv (w : World) : Prop := {
  li_mutex j : m_mutex (locks w) = Some j -> enqueues (threads w !! j);
  li_queueMutex j : m_queueMutex (locks w) = Some j -> empties (threads w !! j);
  li_pushing : m_pushing (locks w) = true -> exists j, pushes (threads w !! j)
}.
(** What a region does with the locks. *)
Definition lock_step (me : nat) (x : Instr) (k k1 : Locks) (push : list Instr) : Prop :=
  match x with
  | EnqCheck it => k1 = set_mutex (Some me) k /\ exists e, push = [EnqPush it e]
  | EnqPush it e => k1 = set_pushing true k /\ push = [EnqPushed it e]
  | EnqPushed _ _ => k1 = set_mutex None (set_pushing false k)
  | SwapQueue => k1 = set_queueMutex (Some me) k /\ push = [SwapDone]
  | ClearQueue => k1 = set_queueMutex (Some me) k /\ push = [ClearDone]
  | SwapDone | ClearDone => k1 = set_queueMutex None k
  | _ => k1 = k
  end.
Lemma exec_locks me o x w push w1 : exec me o x w = (Ret push, w1) -> lock_step me x (locks w) (locks w1) push.
Proof. intros H. destruct x; run_exec H; cbn [lock_step]; try (split; [done|by eexists]). Qed.
Lemma step_self (ts : list (list Instr)) i l0 l sp : ts !! i = Some l0 -> (<[i := l]> ts ++ sp) !! i = Some l.
Proof.
  intros H%lookup_lt_Some. rewrite lookup_app_l by (rewrite length_insert; lia). by apply list_lookup_insert_eq.
Qed.
Lemma step_other (ts : list (list Instr)) i l sp j l' : j <> i -> ts !! j = Some l' -> (<[i := l]> ts ++ sp) !! j = Some l'.
Proof. intros Hne Hj. apply lookup_app_l_Some. by rewrite list_lookup_insert_ne. Qed.
Lemma thread_step_lock i o w w' : lock_inv w -> thread_step i o w = (Ret tt, w') -> lock_inv w'.
Proof.
  intros I H. apply thread_step_inv in H as [->|(x & k & push & w1 & Hi & He & Hex & ->)]; [done|].
  pose proof (exec_locks _ _ _ _ _ _ Hex) as Hl. cbn [set_thread on_threads locks] in Hl.
  set (ts := <[i := push ++ k]> (threads w) ++ spawned o x w).
  assert (Hself : ts !! i = Some (push ++ k)) by (by eapply step_self).
  assert (Hother : forall (P : option (list Instr) -> Prop) j, ~ P None ->
    (j = i -> P (Some (x :: k)) -> P (Some (push ++ k))) -> P (threads w !! j) -> P (ts !! j)).
  { intros P j Hn Hx Hj. destruct (decide (j = i)) as [->|Hne]; [rewrite Hself; apply Hx; [done|by rewrite <- Hi]|].
    destruct (threads w !! j) as [l|] eqn:E; [|by destruct Hn]. unfold ts. by rewrite (step_other _ _ _ _ _ _ Hne E). }
  destruct I as [I1 I2 I3]. constructor; cbn [on_threads locks threads]; fold ts.
  - intros j Hj. destruct x; cbn [lock_step] in Hl; try match type of Hl with _ /\ _ => destruct Hl as [Hl Hp] end; rewrite Hl in Hj; cbn in Hj;
      try (apply (Hother enqueues); [by intros []|intros _; by (try rewrite Hp)|by apply I1]); try done.
    destruct Hp as (e & Hp). injection Hj as <-. by rewrite Hself, Hp.
  - intros j Hj. destruct x; cbn [lock_step] in Hl; try match type of Hl with _ /\ _ => destruct Hl as [Hl Hp] end; rewrite Hl in Hj; cbn in Hj;
      try (apply (Hother empties); [by intros []|by intros _|by apply I2]); try done.
    all: injection Hj as <-; by rewrite Hself, Hp.
  - intros Hj. destruct x; cbn [lock_step] in Hl; try match type of Hl with _ /\ _ => destruct Hl as [Hl Hp] end; rewrite Hl in Hj; cbn in Hj; try done.
    all: try (destruct (I3 Hj) as [j Hj']; exists j; apply (Hother pushes); [by intros []|by intros _|done]).
    exists i. by rewrite Hself, Hp.
Qed.
Lemma spawn_lock w k : lock_inv w -> lock_inv (on_threads (fun ts => ts ++ [k]) w).
Proof.
  intros [I1 I2 I3].
  assert (Hk : forall (P : option (list Instr) -> Prop) j, ~ P None -> P (threads w !! j) -> P ((threads w ++ [k]) !! j)).
  { intros P j Hn Hj. destruct (threads w !! j) as [l|] eqn:E; [|by destruct Hn]. by rewrite (lookup_app_l_Some _ _ _ _ E). }
  constructor; cbn [on_threads locks threads].
  - intros j Hj. apply (Hk enqueues); [by intros []|by apply I1].
  - intros j Hj. apply (Hk empties); [by intros []|by apply I2].
  - intros Hj. destruct (I3 Hj) as [j Hj']. exists j. apply (Hk pushes); [by intros []|done].
Qed.
Lemma step_lock l w w' : lock_inv w -> step l w = (Ret tt, w') -> lock_inv w'.
Proof.
  intros I H. destruct l as [i o|t|req ms scd f|msg| |]; cbn in H; [by eapply thread_step_lock| |injection H as <-; by apply spawn_lock..].
  cbv [mbind M_bind mret M_ret get modify spawn] in H. destruct (timers w !! t) as [cb|]; injection H as <-; [|done].
  apply spawn_lock. destruct I as [I1 I2 I3]. by constructor.
Qed.
Lemma reachable_lock w : reachable w -> lock_inv w.
Proof.
  intros (s & c & a & cbs & ls & H). revert H. assert (I : lock_inv (new_World s c a cbs)) by (by constructor).
  revert I. generalize (new_World s c a cbs). induction ls as [|l ls IH]; intros w0 I H; cbn in H; [by injection H as <-|].
  unfold mbind, M_bind in H. destruct (step l w0) as [[[]| | |] w1] eqn:E; try done. eapply IH; [|exact H]. by eapply step_lock.
Qed.

(** ** The theorems *)
Lemma wakes_NoDup w : (forall a, wakes w a <= 1)%nat -> NoDup (woken w).*1.
Proof.
  unfold wakes. induction (woken w) as [|[a s] l IH]; intros H; [constructor|]. cbn. constructor.
  - intros Ha. specialize (H a). cbn in H. rewrite hits_same in H.
    assert (0 < sum_list_with (fun e : nat * Waiter => hits a e.1) l)%nat; [|lia].
    clear -Ha. induction l as [|[b s'] l IH]; [by apply not_elem_of_nil in Ha|]. cbn in *.
    apply elem_of_cons in Ha as [->|Ha]; [rewrite hits_same; lia|]. specialize (IH Ha). lia.
  - apply IH. intros b. specialize (H b). cbn in H. lia.
Qed.

(** C14: at any moment of any interleaving of requests, responses, time-outs and
    the closing of the stream, no request's fiber has been scheduled twice; a
    fiber is scheduled on the scheduler it came from; and what [request]
    returned is [NOT_CONNECT] without a request of its own, a time-out, an I/O
    error, or the result of a response that the peer sent for this request's
    number. *)
Theorem requests_wake_once w :
  reachable w ->
  NoDup (woken w).*1 /\
  (forall a s, (a, s) ∈ woken w -> exists c, heap w !! a = Some c /\ s = caller c) /\
  (forall e, e ∈ results w -> result_right w e).
Proof.
  intros [_ (_ & H2 & H3) _ I4 _]%reachable_req. split_and!; [|exact H3|exact H2].
  apply wakes_NoDup. intros a. destruct (I4 a) as [H _]. lia.
Qed.

(** No thread can take a step, and no request's timer is live. *)
Definition at_rest (w : World) : Prop :=
  (forall i x k, threads w !! i = Some (x :: k) -> enabled i x w = false) /\
  (forall t a, timers w !! t <> Some (OnTimeOut a)).
Lemma owes_quiet {A} (p : A -> nat) (l : list A) : (forall x, x ∈ l -> p x = 0%nat) -> sum_list_with p l = 0%nat.
Proof.
  induction l as [|x l IH]; intros H; [done|]. cbn. rewrite (H x) by apply list_elem_of_here.
  apply IH. intros y Hy. apply H. by apply list_elem_of_further.
Qed.
(** Then no lock is held: who holds one can go on. *)
Lemma rest_unlocked w : lock_inv w -> at_rest w -> m_mutex (locks w) = None /\ m_queueMutex (locks w) = None.
Proof.
  intros [I1 I2 _] [Hr _]. split.
  - destruct (m_mutex (locks w)) as [j|] eqn:E; [|done]. specialize (I1 j eq_refl).
    destruct (threads w !! j) as [[|x k]|] eqn:Ej; [done| |done]. specialize (Hr j x k Ej). by destruct x.
  - destruct (m_queueMutex (locks w)) as [j|] eqn:E; [|done]. specialize (I2 j eq_refl).
    destruct (threads w !! j) as [[|x k]|] eqn:Ej; [done| |done]. specialize (Hr j x k Ej). by destruct x.
Qed.
Lemma rest_waits w i x k : lock_inv w -> at_rest w -> threads w !! i = Some (x :: k) -> waits x = true.
Proof.
  intros Hl Hr Hi. destruct (rest_unlocked w Hl Hr) as [E1 E2]. destruct Hr as [Hr _]. specialize (Hr i x k Hi).
  destruct x; try done; cbn [enabled] in Hr; by rewrite ?E1, ?E2 in Hr.
Qed.
Lemma rest_owes w p :
  req_inv w -> lock_inv w -> at_rest w -> (forall x, quiet x -> p x = 0%nat) ->
  (forall x i, enabled i x w = false -> p x = 0%nat) -> owes p (threads w) = 0%nat.
Proof.
  intros [_ _ I3 _ _] Hl0 Hrest Hq Hb. unfold owes. apply owes_quiet. intros l Hl. apply owes_quiet. intros x Hx.
  apply list_elem_of_lookup_1 in Hl as [i Hi]. pose proof (proj1 (list.Forall_lookup _ _) I3 i l Hi) as (_ & _ & Hlast).
  destruct l as [|y k]; [by apply not_elem_of_nil in Hx|].
  apply elem_of_cons in Hx as [->|Hx]; [destruct Hrest as [Hr _]; by eapply Hb, Hr|]. destruct Hlast as [Hw _].
  apply Hq. eapply list.Forall_forall; [apply Hw|exact Hx]. by eapply rest_waits.
Qed.

(** C15: no request is lost: when nothing can run any more and the timers of the
    requests have fired or were cancelled, every request's fiber has been
    scheduled, and none waits - whatever the peer sent or did not send, and
    however its fiber, the reader, the writer and the timers interleaved. *)
Theorem requests_not_lost w :
  reachable w -> at_rest w ->
  (forall a c, heap w !! a = Some c -> (a, caller c) ∈ woken w) /\
  (forall i a k, threads w !! i <> Some (YieldToHold a :: k)).
Proof.
  intros Hreach Hrest. pose proof (reachable_req w Hreach) as I. pose proof (reachable_lock w Hreach) as Hlock.
  assert (Hall : forall a c, heap w !! a = Some c -> (a, caller c) ∈ woken w).
  { intros a c Hc. pose proof I as [I1 (_ & _ & O3) I3 I4 I5].
    assert (Hp : owes (p_sched a) (threads w) = 0%nat).
    { apply rest_owes; [done..|intros x Hq; apply Hq|]. intros x i He. by destruct x. }
    assert (Hq : owes (p_wake a) (threads w) = 0%nat).
    { apply rest_owes; [done..|intros x Hq; apply Hq|]. intros x i He. by destruct x. }
    destruct (I4 a) as [H _]. unfold untaken in H. rewrite Hc, Hp in H. destruct (scheduler c) eqn:E.
    - destruct (I5 a c Hc (mk_is_Some _ _ E)) as [[t Ht]|]; [by apply Hrest in Ht|lia].
    - assert (Hw : wakes w a = 1%nat) by lia. unfold wakes in Hw.
      assert (Hin : exists s, (a, s) ∈ woken w).
      { clear -Hw. induction (woken w) as [|[b s] l IH]; [done|]. cbn in Hw. unfold hits in Hw at 1.
        destruct (decide (a = b)) as [->|]; [exists s; apply list_elem_of_here|].
        destruct (IH Hw) as [s' ?]. exists s'. by apply list_elem_of_further. }
      destruct Hin as [s Hs]. destruct (O3 a s Hs) as (c' & Hc' & ->). by assert (c' = c) as -> by congruence. }
  split; [exact Hall|]. intros i a k Hi. destruct Hrest as [Hr _]. specialize (Hr i _ _ Hi). cbn in Hr.
  apply bool_decide_eq_false in Hr. apply Hr.
  pose proof (proj1 (list.Forall_lookup _ _) (inv_threads w I) i _ Hi) as (Hok & _).
  apply list.Forall_cons in Hok as [[c Hc] _]. specialize (Hall a c Hc).
  apply list_elem_of_fmap. by exists (a, caller c).
Qed.



(** ** Witnesses *)

(** A request that the peer does not answer in time. *)
Definition no_answer : Oracle := mkOracle true None (new_Response, new_RockBody).
Definition steps (i n : nat) : list Label := repeat (LStep i no_answer) n.
Definition sample_request : RockRequest := (mkRequest 7 1, new_RockBody).
Definition timed_out : list Label :=
  [LRequest sample_request 1000 0 5] ++ steps 0 8 ++ [LFire 0] ++ steps 1 7 ++ steps 0 2.
Definition no_callbacks : Callbacks := mkCallbacks false false false.
Definition client : World := new_World true true false no_callbacks.
Definition after (ls : list Label) : World := snd (run ls client).
Lemma run_reachable s c a cbs ls :
  fst (run ls (new_World s c a cbs)) = Ret tt -> reachable (snd (run ls (new_World s c a cbs))).
Proof.
  intros H. exists s, c, a, cbs, ls. destruct (run ls _) as [r w]. cbn in H. by rewrite H.
Qed.
Lemma after_reachable ls : fst (run ls client) = Ret tt -> reachable (after ls).
Proof. apply run_reachable. Qed.
Lemma requests_wake_once_witness :
  (woken (after timed_out)).*1 = [0%nat] /\ NoDup (woken (after timed_out)).*1 /\
  results (after timed_out) = [mkResult (Some 0%nat) TIMEOUT None].
Proof.
  destruct (requests_wake_once (after timed_out) (after_reachable timed_out ltac:(by vm_compute))) as (H & _).
  split; [by vm_compute|]. split; [exact H|by vm_compute].
Defined.
Lemma requests_not_lost_witness : (0%nat, (0%nat, 5%nat)) ∈ woken (after timed_out).
Proof.
  assert (Hr : at_rest (after timed_out)).
  { split; [|intros t a E]; [intros i x k E|].
    - assert (Ht : threads (after timed_out) = [[]; []]) by (by vm_compute). rewrite Ht in E.
      destruct i as [|[|i]]; discriminate.
    - assert (Ht : timers (after timed_out) = ∅) by (by vm_compute). rewrite Ht in E. by rewrite lookup_empty in E. }
  destruct (requests_not_lost (after timed_out) (after_reachable timed_out ltac:(by vm_compute)) Hr) as [H _].
  assert (Hc : exists c, heap (after timed_out) !! 0%nat = Some c /\ caller c = (0%nat, 5%nat)).
  { eexists. split; [vm_compute; reflexivity|reflexivity]. }
  destruct Hc as (c & Hc & E). rewrite <- E. exact (H 0%nat c Hc).
Defined.
