(* ===== verification/AsyncQueue.v ===== *)
(** * The send queue and the fibers of an asynchronous stream

    [enqueue] wakes the writing fiber only when it finds the queue empty, and it
    looks at the queue under [m_mutex], which is not the lock of the queue: with
    two workers a message can be left behind.  Where [enqueue] is not
    interrupted - the fibers of one worker - none is.  (That the two may be in
    the list at the same time is a failure of its own: [AsyncRequests].) *)
From S2P Require Import Prelude Semaphore Protocol AsyncStream AsyncRequests.

(** ** Undisturbed accesses to the queue *)
Lemma touch_free busy w : busy (locks w) = false -> touch_queue busy w = (Ret tt, w).
Proof. intros H. unfold touch_queue. rewrite bind_get. by rewrite H. Qed.
Lemma enq_check_free me it w : m_queueMutex (locks w) = None ->
  enq_check me it w = (Ret [EnqPush it (match m_queue w with [] => true | _ => false end)], on_locks (set_mutex (Some me)) w).
Proof. intros H. unfold enq_check. erewrite bind_Ret by (apply touch_free; unfold taken; by rewrite H). reflexivity. Qed.
Lemma enq_push_free it e w : m_queueMutex (locks w) = None ->
  enq_push it e w = (Ret [EnqPushed it e], on_locks (set_pushing true) w).
Proof. intros H. unfold enq_push. erewrite bind_Ret by (apply touch_free; unfold taken; by rewrite H). reflexivity. Qed.
Lemma swap_free me w : m_pushing (locks w) = false ->
  swap_queue me w = (Ret [SwapDone], on_locks (set_queueMutex (Some me)) w).
Proof. intros H. unfold swap_queue. by erewrite bind_Ret by (by apply touch_free). Qed.
Lemma clear_free me w : m_pushing (locks w) = false ->
  clear_queue me w = (Ret [ClearDone], on_locks (set_queueMutex (Some me)) w).
Proof. intros H. unfold clear_queue. by erewrite bind_Ret by (by apply touch_free). Qed.

(** ** A lost message *)
Definition m1 : Message := MNotify (mkNotify 1, new_RockBody).
Definition m2 : Message := MNotify (mkNotify 2, new_RockBody).
(** Thread 0 starts the reader (1) and the writer (2), which waits; 3 and 4 send;
    the writer takes the queue between the test and the push of 4. *)
Definition lost : list Label :=
  LStart :: steps 0 7 ++ steps 2 2 ++ [LSend m1; LSend m2] ++ steps 3 4 ++ steps 4 2 ++ steps 3 1 ++
  steps 2 3 ++ steps 4 2 ++ steps 2 4.

(** The writer waits, the queue is not empty, and no thread will notify. *)
Definition send_thread (l : list Instr) : Prop :=
  match l with
  | [] => True
  | [SendMessage _] | [EnqCheck _] | [EnqPush _ false] | [EnqPushed _ false] => True
  | _ => False
  end.
Definition stuck (r wr : nat) (w : World) : Prop :=
  m_connected w = true /\ m_queue w <> [] /\ (timers w = ∅ /\ m_queueMutex (locks w) = None) /\
  m_waiters (m_sem w) = [(0%nat, wr)] /\ threads w !! wr = Some [SemParked; SwapQueue; WriteLoop] /\
  (forall i l, threads w !! i = Some l -> i <> r -> i <> wr -> send_thread l).
(** Everything but the reader, the closing of the stream and a new start. *)
Definition sending (r : nat) (l : Label) : Prop :=
  match l with
  | LStep i _ => i <> r
  | LSend _ | LFire _ => True
  | _ => False
  end.

Definition no_progress (w w' : World) : Prop := sent w' = sent w /\ exists q, m_queue w' = m_queue w ++ q.
Lemma idle_progress w w' : sent w' = sent w -> m_queue w' = m_queue w -> no_progress w w'.
Proof. intros H1 H2. split; [done|]. exists []. by rewrite app_nil_r. Qed.
Lemma stuck_thread r wr i o w l x k :
  stuck r wr w -> i <> r -> threads w !! i = Some l -> l = x :: k -> i <> wr ->
  exists w', thread_step i o w = (Ret tt, w') /\ stuck r wr w' /\ no_progress w w'.
Proof.
  intros (Hc & Hq & Ht & Hs & Hw & Hl) Hr Hi -> Hwr. pose proof (Hl i _ Hi Hr Hwr) as Hsend.
  assert (Hput : forall l', send_thread l' ->
    forall j l, <[i := l']> (threads w) !! j = Some l -> j <> r -> j <> wr -> send_thread l).
  { intros l' Hl' j l Hj Hjr Hjw. apply list_lookup_insert_Some in Hj as [(_ & -> & _)|[_ Hj]]; [done|by eapply Hl]. }
  assert (Hwr' : forall l', <[i := l']> (threads w) !! wr = Some [SemParked; SwapQueue; WriteLoop]).
  { intros l'. by rewrite list_lookup_insert_ne. }
  assert (Hsame : no_progress w w) by (by apply idle_progress).
  pose proof Ht as [_ Hlock].
  destruct x; try done; destruct k as [|? ?]; try done; try (cbn in Hsend; by destruct empty).
  - eexists. split; [eapply thread_step_run; [exact Hi|reflexivity..]|].
    cbn [set_thread on_threads m_connected]. rewrite Hc. split; [|by apply idle_progress].
    refine (conj Hc (conj Hq (conj Ht (conj Hs (conj _ _))))); cbn; rewrite app_nil_r; [apply Hwr'|by apply Hput].
  - destruct (enabled i (EnqCheck i0) w) eqn:En.
    2: { exists w. split; [|done]. unfold thread_step. msimpl. by rewrite Hi, En. }
    destruct (m_queue w) as [|q0 q] eqn:Eq; [done|]. eexists. split.
    { eapply thread_step_run; [exact Hi|exact En|]. exact (enq_check_free i i0 (set_thread i [] w) Hlock). }
    split; [|apply idle_progress; [done|by rewrite Eq]].
    refine (conj Hc (conj _ (conj Ht (conj Hs (conj _ _))))); cbn; rewrite ?Eq, ?app_nil_r; [done|apply Hwr'|by apply Hput].
  - destruct empty; [done|]. eexists. split.
    { eapply thread_step_run; [exact Hi|reflexivity|]. exact (enq_push_free i0 false (set_thread i [] w) Hlock). }
    split; [|by apply idle_progress].
    refine (conj Hc (conj _ (conj Ht (conj Hs (conj _ _))))); cbn; rewrite ?app_nil_r; [done|apply Hwr'|by apply Hput].
  - destruct empty; [done|]. eexists. split; [eapply thread_step_run; [exact Hi|reflexivity..]|].
    split; [|split; [done|by exists [i0]]].
    refine (conj Hc (conj _ (conj Ht (conj Hs (conj _ _))))); cbn; rewrite ?app_nil_r; [by destruct (m_queue w)|apply Hwr'|by apply Hput].
Qed.
Lemma stuck_step r wr l w : stuck r wr w -> sending r l ->
  exists w', step l w = (Ret tt, w') /\ stuck r wr w' /\ no_progress w w'.
Proof.
  intros Hstuck Hl. assert (Hsame : no_progress w w) by (by apply idle_progress).
  destruct l as [i o|t|?|msg| |]; try done; cbn [step].
  - destruct (threads w !! i) as [[|x k]|] eqn:Ei.
    1, 3: exists w; split; [|done]; unfold thread_step; msimpl; by rewrite Ei.
    destruct (decide (i = wr)) as [->|Hwr]; [|by eapply stuck_thread].
    exists w. split; [|done]. unfold thread_step. msimpl. rewrite Ei. destruct Hstuck as (_ & _ & _ & Hs & Hw & _).
    rewrite Ei in Hw. injection Hw as -> ->. cbn [enabled]. rewrite Hs, bool_decide_false; [done|].
    intros Hn. apply Hn. apply list_elem_of_here.
  - exists w. split; [|done]. destruct Hstuck as (_ & _ & [Ht _] & _). msimpl. by rewrite Ht, lookup_empty.
  - eexists. split; [reflexivity|]. split; [|exact Hsame]. destruct Hstuck as (Hc & Hq & Ht & Hs & Hw & Hall).
    refine (conj Hc (conj Hq (conj Ht (conj Hs (conj _ _))))); cbn; [by apply lookup_app_l_Some|].
    intros i l Hi Hr Hwr. apply lookup_app_Some in Hi as [Hi|[_ Hi]]; [by eapply Hall|].
    apply list_lookup_singleton_Some in Hi as [_ <-]. done.
Qed.
Lemma stuck_run r wr ls w : stuck r wr w -> Forall (sending r) ls ->
  exists w', run ls w = (Ret tt, w') /\ stuck r wr w' /\ no_progress w w'.
Proof.
  intros Hs Hls. revert w Hs. induction Hls as [|l ls Hl _ IH]; intros w Hs; cbn [run].
  - exists w. refine (conj eq_refl (conj Hs _)). by apply idle_progress.
  - destruct (stuck_step r wr l w Hs Hl) as (w1 & E & Hs1 & E1 & q1 & Eq1). rewrite (bind_Ret _ _ _ _ _ E).
    destruct (IH w1 Hs1) as (w' & E' & Hs' & E2 & q2 & Eq2). exists w'. refine (conj E' (conj Hs' (conj _ _))); [by rewrite E2|].
    exists (q1 ++ q2). by rewrite Eq2, Eq1, app_assoc.
Qed.
(** C39: [enqueue] can leave a message behind: the writer takes the queue between
    its test of the queue and its push, so that nobody wakes the writer for the
    new message; from then on, as long as the connection lasts and however many
    messages are sent, the queue only grows and nothing is written. *)
Theorem enqueue_loses_message :
  exists w, reachable w /\ m_connected w = true /\ m_queue w = [RockSendCtx m2] /\ sent w = [RockSendCtx m1] /\
  forall ls, Forall (sending 1) ls ->
  exists w' q, run ls w = (Ret tt, w') /\ m_connected w' = true /\ m_queue w' = RockSendCtx m2 :: q /\
    sent w' = [RockSendCtx m1] /\ threads w' !! 2%nat = Some [SemParked; SwapQueue; WriteLoop] /\
    enabled 2 SemParked w' = false.
Proof.
  assert (Hreach : reachable (after lost)) by (apply after_reachable; by vm_compute).
  assert (Hc : m_connected (after lost) = true) by (by vm_compute).
  assert (Hq : m_queue (after lost) = [RockSendCtx m2]) by (by vm_compute).
  assert (He : sent (after lost) = [RockSendCtx m1]) by (by vm_compute).
  assert (Ht : timers (after lost) = ∅) by (by vm_compute).
  assert (Hk : m_queueMutex (locks (after lost)) = None) by (by vm_compute).
  assert (Hw : m_waiters (m_sem (after lost)) = [(0, 2)]%nat) by (by vm_compute).
  assert (Hth : threads (after lost) = [[]; [ReadLoop]; [SemParked; SwapQueue; WriteLoop]; []; []]) by (by vm_compute).
  revert Hreach Hc Hq He Ht Hk Hw Hth. generalize (after lost). intros w Hreach Hc Hq He Ht Hk Hw Hth.
  assert (Hs : stuck 1 2 w).
  { refine (conj Hc (conj _ (conj (conj Ht Hk) (conj Hw (conj _ _))))); [by rewrite Hq|by rewrite Hth|].
    intros i l Hi H1 H2. rewrite Hth in Hi. destruct i as [|[|[|[|[|i]]]]]; try done; by injection Hi as <-. }
  exists w. refine (conj Hreach (conj Hc (conj Hq (conj He _)))). intros ls Hls.
  destruct (stuck_run 1 2 ls w Hs Hls) as (w' & Hr & (Hc' & _ & _ & Hw' & Hp & _) & E & q & Eq).
  exists w', q. refine (conj Hr (conj Hc' (conj _ (conj _ (conj Hp _))))); [by rewrite Eq, Hq|by rewrite E|].
  cbn [enabled]. rewrite Hw'. apply bool_decide_false. intros H. apply H, list_elem_of_here.
Qed.

(** ** Without interruption

    The fibers of one worker switch only where they wait: nothing comes between
    the regions of [enqueue], nor between those of a swap or a clear. *)
Definition amid (l : option (list Instr)) : bool :=
  match l with
  | Some (EnqPush _ _ :: _) | Some (EnqPushed _ _ :: _) | Some (SwapDone :: _) | Some (ClearDone :: _) => true
  | _ => false
  end.
Definition finish (l : Label) : M World unit :=
  w ← get;
  match l with
  | LStep i _ => if amid (threads w !! i) then step l else mret tt
  | _ => mret tt
  end.
Definition calm_step (l : Label) : M World unit := step l ;; finish l ;; finish l.
Fixpoint calm_run (ls : list Label) : M World unit :=
  match ls with [] => mret tt | l :: ls => calm_step l ;; calm_run ls end.

(** The fields that the send queue works with. *)
Definition sem_step (me : nat) (x : Instr) (w w1 : World) (push : list Instr) : Prop :=
  match x with
  | EnqCheck i => m_sem w1 = m_sem w /\ m_queue w1 = m_queue w /\
      push = [EnqPush i (match m_queue w with [] => true | _ => false end)]
  | EnqPush i empty => m_sem w1 = m_sem w /\ m_queue w1 = m_queue w /\ push = [EnqPushed i empty]
  | EnqPushed i empty => m_sem w1 = m_sem w /\ m_queue w1 = m_queue w ++ [i] /\ push = if empty then [SemNotify] else []
  | SemNotify => notify (m_sem w) = (Ret tt, m_sem w1) /\ m_queue w1 = m_queue w /\ push = []
  | SemWait => exists b, wait (Some (0%nat, me)) (m_sem w) = (Ret b, m_sem w1) /\ m_queue w1 = m_queue w /\
      push = if (b : bool) then [] else [SemParked]
  | SwapDone | ClearDone => m_sem w1 = m_sem w /\ m_queue w1 = []
  | _ => m_sem w1 = m_sem w /\ m_queue w1 = m_queue w
  end.
Lemma exec_sem me o x w push w1 : exec me o x w = (Ret push, w1) -> sem_step me x w w1 push.
Proof.
  intros H. destruct x; run_exec H; cbn [sem_step]; try done.
  - cbn in E0. by rewrite E0.
  - cbn in E0. by rewrite E0.
  - unfold notify. by rewrite E.
  - unfold notify. by rewrite E.
  - exists true. unfold wait. by rewrite E.
  - exists false. unfold wait. by rewrite E.
Qed.

(** A wait for the semaphore is followed by taking the queue. *)
Fixpoint parks (l : list Instr) : Prop :=
  match l with
  | [] => True
  | x :: l => match x with SemWait | SemParked => exists k, l = SwapQueue :: k | _ => True end /\ parks l
  end.
Definition plain (x : Instr) : Prop :=
  match x with EnqPush _ _ | EnqPushed _ _ | SwapDone | ClearDone | SemParked => False | _ => True end.
Definition thread_q (l : list Instr) : Prop :=
  parks l /\ match l with [] => True | x :: k => amid (Some l) = false /\ Forall plain k end.
(** The regions that are followed by one that must not be delayed. *)
Definition opens (x : Instr) : Prop := match x with EnqCheck _ | SwapQueue | ClearQueue => True | _ => False end.
(** Someone will take the queue, or wake the one who does. *)
Definition signal (w : World) : Prop :=
  0 < m_concurrency (m_sem w) \/
  exists i k, threads w !! i = Some (SemNotify :: k) \/ threads w !! i = Some (SwapQueue :: k) \/
    (threads w !! i = Some (SemParked :: k) /\ (0%nat, i) ∉ m_waiters (m_sem w)).
Record queue_inv (n : Z) (w : World) : Prop := {
  qi_threads : Forall thread_q (threads w);
  qi_locks : locks w = mkLocks None None false;
  qi_nodup : NoDup (m_waiters (m_sem w));
  qi_wait e : e ∈ m_waiters (m_sem w) -> exists j k, e = (0%nat, j) /\ threads w !! j = Some (SemParked :: k);
  qi_sem : 0 <= m_concurrency (m_sem w) <= n;
  qi_zero : m_waiters (m_sem w) <> [] -> m_concurrency (m_sem w) = 0;
  qi_signal : m_queue w <> [] -> signal w
}.
Lemma parks_app l1 l2 : parks l1 -> parks l2 -> parks (l1 ++ l2).
Proof.
  induction l1 as [|x l1 IH]; intros H1 H2; [done|]. destruct H1 as [Hx H1]. split; [|by apply IH].
  destruct x; try done; destruct Hx as [k ->]; by eexists.
Qed.
Lemma fails_plain l : Forall plain (concat (fail_ctx <$> l)) /\ parks (concat (fail_ctx <$> l)).
Proof. induction l as [|a l [IH1 IH2]]; cbn; [done|]. split; [oks; done|done]. Qed.
Lemma thread_plain l : parks l -> Forall plain l -> thread_q l.
Proof. intros H1 H2. split; [done|]. destruct l as [|x k]; [done|]. apply list.Forall_cons in H2 as [Hx ?]. split; [by destruct x|done]. Qed.
Lemma exec_plain me o x w push w1 :
  exec me o x w = (Ret push, w1) -> plain x -> x <> SemWait -> ~ opens x ->
  Forall plain push /\ parks push /\ Forall thread_q (spawned o x w).
Proof.
  intros H Hx Hw Hc. destruct x; try done; try (by destruct Hc); clear Hw Hc; run_exec H; cbn [spawned].
  all: repeat (case_match; simplify_eq).
  all: try solve [refine (conj _ (conj _ _)); [oks; done|repeat split; eauto|oks; repeat split; done]].
  destruct (fails_plain (map_to_list (m_ctxs w)).*2) as [H1 H2]. refine (conj _ (conj (conj I H2) _)); [|oks].
  by apply List.Forall_cons.
Qed.

Section Step.
Context (n : Z) (w : World) (i : nat) (x : Instr) (k : list Instr).
Hypothesis (Hinv : queue_inv n w) (Hi : threads w !! i = Some (x :: k)).

(** The threads after a step of thread [i]. *)
Definition stepped (l : list Instr) (sp : list (list Instr)) (w' : World) : Prop := threads w' = <[i := l]> (threads w) ++ sp.
Lemma stepped_self l sp w' : stepped l sp w' -> threads w' !! i = Some l.
Proof.
  intros ->. pose proof (lookup_lt_Some _ _ _ Hi). rewrite lookup_app_l by (rewrite length_insert; lia).
  by apply list_lookup_insert_eq.
Qed.
Lemma stepped_other l sp w' j l' : stepped l sp w' -> j <> i -> threads w !! j = Some l' -> threads w' !! j = Some l'.
Proof. intros -> Hne Hj. apply lookup_app_l_Some. by rewrite list_lookup_insert_ne. Qed.
Lemma stepped_threads l sp w' : stepped l sp w' -> thread_q l -> Forall thread_q sp -> Forall thread_q (threads w').
Proof. intros -> Hl Hsp. apply list.Forall_app. split; [|done]. apply list.Forall_insert; [apply Hinv|done]. Qed.
(** Thread [i] does not wait, so that the waiting ones stay as they are. *)
Lemma stepped_wait l sp w' e :
  stepped l sp w' -> e ∈ m_waiters (m_sem w) -> e <> (0%nat, i) ->
  exists j k, e = (0%nat, j) /\ threads w' !! j = Some (SemParked :: k).
Proof.
  intros Hst He Hne. destruct (qi_wait _ _ Hinv e He) as (j & k' & -> & Hj). exists j, k'. split; [done|].
  eapply stepped_other; [exact Hst|congruence|exact Hj].
Qed.
Lemma not_waiting : x <> SemParked -> (0%nat, i) ∉ m_waiters (m_sem w).
Proof. intros Hx Hin. destruct (qi_wait _ _ Hinv _ Hin) as (j & k' & [= <-] & Hj). congruence. Qed.
(** The signal of another thread lasts. *)
Lemma stepped_signal l sp w' :
  stepped l sp w' -> m_sem w' = m_sem w -> x <> SemNotify -> x <> SwapQueue -> x <> SemParked -> signal w -> signal w'.
Proof.
  intros Hst Hs H1 H2 H3 [Hc|(j & k' & Hj)]; [left; by rewrite Hs|right].
  assert (Hne : j <> i) by (intros ->; destruct Hj as [?|[?|[? _]]]; congruence).
  exists j, k'. rewrite Hs. destruct Hj as [Hj|[Hj|[Hj Hn]]];
    [left|right; left|right; right; split; [|done]]; by eapply stepped_other.
Qed.
(** A step that leaves the semaphore alone. *)
Lemma same_sem_inv l sp w' :
  stepped l sp w' -> thread_q l -> Forall thread_q sp -> m_sem w' = m_sem w -> locks w' = locks w ->
  (0%nat, i) ∉ m_waiters (m_sem w) -> (m_queue w' <> [] -> signal w') -> queue_inv n w'.
Proof.
  intros Hst Hl Hsp Hs Hk Hn Hsig. constructor; rewrite ?Hs, ?Hk.
  - by eapply stepped_threads.
  - apply Hinv.
  - apply Hinv.
  - intros e He. eapply stepped_wait; [exact Hst|exact He|]. by intros ->.
  - apply Hinv.
  - apply Hinv.
  - exact Hsig.
Qed.
Lemma queue_thread : parks (x :: k) /\ Forall plain k.
Proof.
  pose proof (proj1 (list.Forall_lookup _ _) (qi_threads _ _ Hinv) i _ Hi) as (Hp & _ & Hk). done.
Qed.
End Step.

Lemma queue_mono n m w : n <= m -> queue_inv n w -> queue_inv m w.
Proof. intros Hn [H1 H2 H3 H4 H5 H6 H7]. constructor; try done. lia. Qed.
Lemma notify_inv n w i k w' :
  queue_inv n w -> n + 1 < 2 ^ 64 -> threads w !! i = Some (SemNotify :: k) ->
  stepped w i k [] w' -> notify (m_sem w) = (Ret tt, m_sem w') -> m_queue w' = m_queue w -> locks w' = locks w ->
  queue_inv (n + 1) w'.
Proof.
  intros Hinv Hb Hi Hst Hn Hq Hlk. destruct (queue_thread n w i _ k Hinv Hi) as [[_ Hp] Hk].
  assert (Hth : Forall thread_q (threads w')).
  { eapply stepped_threads; [exact Hinv|exact Hst|by apply thread_plain|oks]. }
  pose proof (not_waiting n w i _ k Hinv Hi ltac:(done)) as Hni.
  pose proof Hinv as [_ Il I2 I3 I4 I5 _]. rewrite <- Hlk in Il. unfold notify in Hn.
  destruct (m_waiters (m_sem w)) as [|e rest] eqn:Ew; injection Hn as Hn.
  - unfold u64 in *. rewrite wrapu_id in Hn by lia. constructor; rewrite <- ?Hn; cbn; try done.
    + by intros e ?%not_elem_of_nil.
    + lia.
    + intros _. left. rewrite <- Hn. cbn. lia.
  - apply list.NoDup_cons in I2 as [He I2].
    assert (Hw : forall e', e' ∈ rest -> exists j k', e' = (0%nat, j) /\ threads w' !! j = Some (SemParked :: k')).
    { intros e' He'. eapply stepped_wait; [exact Hinv|exact Hst| |].
      - rewrite Ew. by apply list_elem_of_further.
      - intros ->. apply Hni. by apply list_elem_of_further. }
    constructor; rewrite <- ?Hn; cbn; try done; [lia| |].
    + intros _. by apply I5.
    + intros _. right. destruct (I3 e (list_elem_of_here _ _)) as (j & k' & -> & Hj). exists j, k'. right; right.
      split; [|by rewrite <- Hn]. eapply stepped_other; [exact Hst|congruence|exact Hj].
Qed.
Lemma wait_inv n w i k w' (b : bool) :
  queue_inv n w -> threads w !! i = Some (SemWait :: k) ->
  stepped w i ((if b then [] else [SemParked]) ++ k) [] w' -> wait (Some (0%nat, i)) (m_sem w) = (Ret b, m_sem w') ->
  m_queue w' = m_queue w -> locks w' = locks w -> queue_inv n w'.
Proof.
  intros Hinv Hi Hst Hn Hq Hlk. destruct (queue_thread n w i _ k Hinv Hi) as [[[k0 ->] Hp] Hk].
  pose proof (not_waiting n w i _ _ Hinv Hi ltac:(done)) as Hni.
  pose proof Hinv as [_ Il I2 I3 I4 I5 I6]. rewrite <- Hlk in Il. unfold wait in Hn. destruct (Z.ltb_spec 0 (m_concurrency (m_sem w))) as [Hc|Hc];
    injection Hn as <- Hn.
  - assert (Hwait : m_waiters (m_sem w) = []).
    { destruct (m_waiters (m_sem w)); [done|]. specialize (I5 ltac:(done)). lia. }
    constructor; rewrite <- ?Hn; cbn; rewrite ?Hwait; try done.
    + eapply stepped_threads; [exact Hinv|exact Hst|by apply thread_plain|oks].
    + constructor.
    + by intros e ?%not_elem_of_nil.
    + lia.
    + intros _. right. exists i, k0. right; left. by eapply stepped_self.
  - constructor; rewrite <- ?Hn; cbn; try lia.
    + eapply stepped_threads; [exact Hinv|exact Hst| |oks]. split; [split; [by eexists|done]|by split].
    + exact Il.
    + apply list.NoDup_app. split_and!; [done| |apply list.NoDup_singleton]. by intros e He ->%list_elem_of_singleton.
    + intros e [He|He]%elem_of_app.
      * eapply stepped_wait; [exact Hinv|exact Hst|exact He|]. by intros ->.
      * apply list_elem_of_singleton in He as ->. exists i, (SwapQueue :: k0). split; [done|]. by eapply stepped_self.
    + rewrite Hq. intros Hne. destruct (I6 Hne) as [?|(j & k' & Hj)]; [lia|].
      assert (Hji : j <> i) by (intros ->; destruct Hj as [?|[?|[? _]]]; congruence).
      right. exists j, k'. rewrite <- Hn. cbn. destruct Hj as [Hj|[Hj|[Hj Hjw]]];
        [left|right; left|right; right; split]; [by eapply stepped_other..|].
      intros [?|[= ->]%list_elem_of_singleton]%elem_of_app; done.
Qed.
(** Every region that is not followed by another one at once. *)
Lemma queue_step n i o w x k push w1 :
  queue_inv n w -> n + 1 < 2 ^ 64 -> threads w !! i = Some (x :: k) -> enabled i x w = true ->
  exec i o x (set_thread i k w) = (Ret push, w1) -> ~ opens x ->
  let w' := on_threads (fun _ => <[i := push ++ k]> (threads w) ++ spawned o x w) w1 in
  queue_inv (n + 1) w'.
Proof.
  intros Hinv Hb Hi He Hex Hc w'. destruct (queue_thread n w i x k Hinv Hi) as [[Hp Hpk] Hk].
  pose proof (exec_sem _ _ _ _ _ _ Hex) as Hs. pose proof (exec_locks _ _ _ _ _ _ Hex) as Hlk.
  assert (Hst : stepped w i (push ++ k) (spawned o x w) w') by done.
  assert (Hpush : ~ plain x -> x = SemParked).
  { destruct x; try done; intros _; by pose proof (proj1 (list.Forall_lookup _ _) (qi_threads _ _ Hinv) i _ Hi) as (_ & [=] & _). }
  assert (Hcases : x = SemWait \/ x = SemNotify \/ x = SemParked \/ (x <> SemWait /\ x <> SemNotify /\ x <> SemParked))
    by (destruct x; auto; right; right; right; done).
  destruct Hcases as [->|[->|[->|(Hw & Hn & Hpa)]]].
  { destruct Hs as (b & Hs & Hq & ->). destruct Hp as [k0 ->].
    apply (queue_mono n); [lia|]. by apply (wait_inv n w i (SwapQueue :: k0) w' b). }
  { destruct Hs as (Hs & Hq & ->). by apply (notify_inv n w i k w'). }
  { destruct Hp as [k0 ->]. cbn in Hs. destruct Hs as [Hs Hq]. injection Hex as <- <-.
    cbn in He. apply bool_decide_eq_true in He.
    apply (queue_mono n); [lia|]. eapply (same_sem_inv n w i Hinv); [exact Hst|by apply thread_plain|oks|done|done|exact He|].
    intros _. right. exists i, k0. right; left. by eapply stepped_self. }
  assert (Hplain : plain x) by (destruct x; try done; by destruct (Hpa (Hpush (fun H => H)))).
  destruct (exec_plain _ _ _ _ _ _ Hex Hplain Hw Hc) as (P1 & P2 & P3).
  assert (Hl : thread_q (push ++ k)) by (apply thread_plain; [by apply parks_app|by apply list.Forall_app]).
  apply (queue_mono n); [lia|].
  pose proof (not_waiting n w i _ _ Hinv Hi Hpa) as Hni.
  assert (Hsem : m_sem w' = m_sem w /\ m_queue w' = m_queue w /\ locks w' = locks w).
  { clear -Hs Hw Hn Hc Hplain Hlk. destruct x; try done; try (by destruct Hc); destruct Hs; auto. }
  destruct Hsem as (Hsem & Hq & Hl'). eapply (same_sem_inv n w i Hinv); [exact Hst|exact Hl|exact P3|exact Hsem|exact Hl'|exact Hni|].
  intros Hne. eapply (stepped_signal w i x k); [exact Hi|exact Hst|exact Hsem|done|by intros ->; apply Hc|done|].
  apply Hinv. by rewrite <- Hq.
Qed.

(** ** The regions of [enqueue], of a swap and of a clear, one after the other *)
Section Calm.
Context (i : nat) (o : Oracle).
Lemma finish_run w x k push w1 :
  threads w !! i = Some (x :: k) -> amid (Some (x :: k)) = true -> spawned o x w = [] ->
  exec i o x (set_thread i k w) = (Ret push, w1) ->
  finish (LStep i o) w = (Ret tt, on_threads (fun _ => <[i := push ++ k]> (threads w)) w1).
Proof.
  intros Hi Hm Hsp Hex. unfold finish. rewrite bind_get, Hi, Hm. cbn [step].
  rewrite (thread_step_run i o w x k push w1 Hi); [by rewrite Hsp, app_nil_r|by destruct x|exact Hex].
Qed.
Lemma finish_skip w : amid (threads w !! i) = false -> finish (LStep i o) w = (Ret tt, w).
Proof. intros H. unfold finish. by rewrite bind_get, H. Qed.
(** What one of the three does. *)
Definition whole (w w' : World) (l : list Instr) (q : list SendCtx) : Prop :=
  stepped w i l [] w' /\ m_sem w' = m_sem w /\ m_queue w' = q /\ locks w' = mkLocks None None false.
Context (w : World) (k : list Instr) (Hlk : locks w = mkLocks None None false).
Lemma calm_enqueue it w' :
  threads w !! i = Some (EnqCheck it :: k) -> calm_step (LStep i o) w = (Ret tt, w') ->
  whole w w' ((match m_queue w with [] => [SemNotify] | _ => [] end) ++ k) (m_queue w ++ [it]).
Proof.
  intros Hi. pose proof (lookup_lt_Some _ _ _ Hi) as Hlt. unfold calm_step. cbn [step].
  rewrite (bind_Ret _ _ _ _ _ (thread_step_run i o w _ k _ _ Hi ltac:(cbn; by rewrite Hlk) (enq_check_free i it (set_thread i k w) ltac:(cbn; by rewrite Hlk)))).
  cbn [spawned set_thread on_threads m_queue]. rewrite app_nil_r. set (e := match m_queue w with [] => true | _ => false end).
  match goal with |- _ ?w0 = _ -> _ => set (w1 := w0) end.
  assert (Hi1 : threads w1 !! i = Some (EnqPush it e :: k)) by (by apply list_lookup_insert_eq).
  rewrite (bind_Ret _ _ _ _ _ (finish_run w1 _ k _ _ Hi1 eq_refl eq_refl (enq_push_free it e (set_thread i k w1) ltac:(cbn; by rewrite Hlk)))).
  match goal with |- finish _ ?w0 = _ -> _ => set (w2 := w0) end.
  assert (Hi2 : threads w2 !! i = Some (EnqPushed it e :: k)) by (apply list_lookup_insert_eq; cbn; rewrite length_insert; lia).
  rewrite (finish_run w2 _ k _ _ Hi2 eq_refl eq_refl eq_refl). intros [= <-].
  refine (conj _ (conj eq_refl (conj eq_refl _))); cbn; [|by rewrite Hlk].
  unfold stepped. cbn. rewrite !list_insert_insert_eq, app_nil_r. unfold e. by destruct (m_queue w).
Qed.
Lemma calm_swap w' :
  threads w !! i = Some (SwapQueue :: k) -> calm_step (LStep i o) w = (Ret tt, w') -> whole w w' (DoSend (m_queue w) :: k) [].
Proof.
  intros Hi. pose proof (lookup_lt_Some _ _ _ Hi) as Hlt. unfold calm_step. cbn [step].
  rewrite (bind_Ret _ _ _ _ _ (thread_step_run i o w _ k _ _ Hi ltac:(cbn; by rewrite Hlk) (swap_free i (set_thread i k w) ltac:(cbn; by rewrite Hlk)))).
  cbn [spawned]. rewrite app_nil_r. match goal with |- _ ?w0 = _ -> _ => set (w1 := w0) end.
  assert (Hi1 : threads w1 !! i = Some (SwapDone :: k)) by (by apply list_lookup_insert_eq).
  rewrite (bind_Ret _ _ _ _ _ (finish_run w1 _ k _ _ Hi1 eq_refl eq_refl eq_refl)).
  match goal with |- finish _ ?w0 = _ -> _ => set (w2 := w0) end.
  assert (Hi2 : threads w2 !! i = Some (DoSend (m_queue w) :: k)) by (apply list_lookup_insert_eq; cbn; rewrite length_insert; lia).
  rewrite finish_skip by (by rewrite Hi2). intros [= <-].
  refine (conj _ (conj eq_refl (conj eq_refl _))); cbn; [|by rewrite Hlk].
  unfold stepped. cbn. by rewrite !list_insert_insert_eq, app_nil_r.
Qed.
Lemma calm_clear w' : amid (Some k) = false ->
  threads w !! i = Some (ClearQueue :: k) -> calm_step (LStep i o) w = (Ret tt, w') -> whole w w' k [].
Proof.
  intros Hk Hi. pose proof (lookup_lt_Some _ _ _ Hi) as Hlt. unfold calm_step. cbn [step].
  rewrite (bind_Ret _ _ _ _ _ (thread_step_run i o w _ k _ _ Hi ltac:(cbn; by rewrite Hlk) (clear_free i (set_thread i k w) ltac:(cbn; by rewrite Hlk)))).
  cbn [spawned]. rewrite app_nil_r. match goal with |- _ ?w0 = _ -> _ => set (w1 := w0) end.
  assert (Hi1 : threads w1 !! i = Some (ClearDone :: k)) by (by apply list_lookup_insert_eq).
  rewrite (bind_Ret _ _ _ _ _ (finish_run w1 _ k _ _ Hi1 eq_refl eq_refl eq_refl)).
  match goal with |- finish _ ?w0 = _ -> _ => set (w2 := w0) end.
  assert (Hi2 : threads w2 !! i = Some k) by (apply list_lookup_insert_eq; cbn; rewrite length_insert; lia).
  rewrite finish_skip by (by rewrite Hi2). intros [= <-].
  refine (conj _ (conj eq_refl (conj eq_refl _))); cbn; [|by rewrite Hlk].
  unfold stepped. cbn. by rewrite !list_insert_insert_eq, app_nil_r.
Qed.
End Calm.
Lemma spawn_queue n w l w' :
  queue_inv n w -> thread_q l -> threads w' = threads w ++ [l] -> m_sem w' = m_sem w -> m_queue w' = m_queue w ->
  locks w' = locks w -> queue_inv n w'.
Proof.
  intros [I1 Il I2 I3 I4 I5 I6] Hl Ht Hs Hq Hlk.
  assert (Hk : forall j l0, threads w !! j = Some l0 -> threads w' !! j = Some l0) by (intros; rewrite Ht; by apply lookup_app_l_Some).
  constructor; rewrite ?Hs, ?Hq, ?Hlk; try done.
  - rewrite Ht. apply list.Forall_app. split; [done|by oks].
  - intros e He. destruct (I3 e He) as (j & k & -> & Hj). exists j, k. auto.
  - intros Hne. destruct (I6 Hne) as [Hc|(j & k & Hj)]; [left; by rewrite Hs|right]. exists j, k. rewrite Hs.
    destruct Hj as [?|[?|[? ?]]]; auto 6.
Qed.
(** A whole [enqueue], swap or clear keeps the invariant. *)
Lemma whole_inv n w w' i x k l q :
  queue_inv n w -> threads w !! i = Some (x :: k) -> opens x -> whole i w w' l q -> thread_q l ->
  (m_queue w' <> [] -> signal w') -> queue_inv n w'.
Proof.
  intros Hinv Hi Hx (Hst & Hs & _ & Hlk) Hl Hsig.
  eapply (same_sem_inv n w i Hinv); [exact Hst|exact Hl|oks|exact Hs|by rewrite Hlk; symmetry; apply Hinv| |exact Hsig].
  eapply not_waiting; [exact Hinv|exact Hi|]. by intros ->.
Qed.
Lemma opens_inv n i o w x k w' :
  queue_inv n w -> threads w !! i = Some (x :: k) -> opens x -> calm_step (LStep i o) w = (Ret tt, w') -> queue_inv n w'.
Proof.
  intros Hinv Hi Hx H. destruct (queue_thread n w i x k Hinv Hi) as [[_ Hp] Hk].
  pose proof (qi_locks _ _ Hinv) as Hlk. assert (Hthread : thread_q k) by (by apply thread_plain).
  destruct x; try done.
  - pose proof (calm_enqueue i o w k Hlk i0 w' Hi H) as Hw. eapply whole_inv; [exact Hinv|exact Hi|done|exact Hw| |].
    + apply thread_plain; destruct (m_queue w); cbn; oks; try split; done.
    + intros _. destruct Hw as (Hst & Hs & _). destruct (m_queue w) as [|q0 q] eqn:Eq.
      * right. exists i, k. left. exact (stepped_self w i _ k Hi _ [] w' Hst).
      * eapply (stepped_signal w i (EnqCheck i0) k); [exact Hi|exact Hst|exact Hs|done..|]. apply Hinv. by rewrite Eq.
  - pose proof (calm_swap i o w k Hlk w' Hi H) as Hw. eapply whole_inv; [exact Hinv|exact Hi|done|exact Hw| |].
    + apply thread_plain; cbn; oks; try split; done.
    + by destruct Hw as (_ & _ & -> & _).
  - assert (Ha : amid (Some k) = false).
    { destruct k as [|y k0]; [done|]. apply list.Forall_cons in Hk as [Hy _]. by destruct y. }
    pose proof (calm_clear i o w k Hlk w' Ha Hi H) as Hw. eapply whole_inv; [exact Hinv|exact Hi|done|exact Hw|exact Hthread|].
    by destruct Hw as (_ & _ & -> & _).
Qed.
Lemma opens_dec x : opens x \/ ~ opens x.
Proof. destruct x; try (by right; intros []); by left. Qed.
Lemma not_amid n w i : queue_inv n w -> amid (threads w !! i) = false.
Proof.
  intros Hinv. destruct (threads w !! i) as [[|x k]|] eqn:E; [done| |done].
  by pose proof (proj1 (list.Forall_lookup _ _) (qi_threads _ _ Hinv) i _ E) as (_ & Hx & _).
Qed.
Lemma calm_other n i o w w1 w' :
  thread_step i o w = (Ret tt, w1) -> queue_inv n w1 -> calm_step (LStep i o) w = (Ret tt, w') -> w' = w1.
Proof.
  intros H1 Hinv. pose proof (not_amid n w1 i Hinv) as Ha. unfold calm_step. cbn [step]. rewrite (bind_Ret _ _ _ _ _ H1).
  rewrite (bind_Ret _ _ _ _ _ (finish_skip i o w1 Ha)), (finish_skip i o w1 Ha). by intros [= <-].
Qed.
Lemma calm_spawn l w w' : (forall i o, l <> LStep i o) -> calm_step l w = (Ret tt, w') -> step l w = (Ret tt, w').
Proof.
  intros Hl H. unfold calm_step in H. unfold mbind, M_bind in H. destruct (step l w) as [[[]| | |] w1]; try done.
  destruct l; try done. by destruct (Hl i o).
Qed.
Lemma calm_inv n l w w' : queue_inv n w -> n + 1 < 2 ^ 64 -> calm_step l w = (Ret tt, w') -> queue_inv (n + 1) w'.
Proof.
  intros Hinv Hb H. assert (Hmono : forall w, queue_inv n w -> queue_inv (n + 1) w) by (intros ? ?; by apply (queue_mono n); [lia|]).
  destruct l as [i o|t|req ms scd f|msg| |].
  { destruct (threads w !! i) as [[|x k]|] eqn:Ei.
    1, 3: assert (Hs : thread_step i o w = (Ret tt, w)) by (unfold thread_step; msimpl; by rewrite Ei);
      rewrite (calm_other n i o w w w' Hs Hinv H); by apply Hmono.
    destruct (opens_dec x) as [Hx|Hx]; [apply Hmono; by eapply opens_inv|].
    pose proof H as H0. unfold calm_step in H0. cbn [step] in H0. unfold mbind at 1, M_bind at 1 in H0.
    destruct (thread_step i o w) as [[[]| | |] w1] eqn:Hs; try done. clear H0.
    pose proof Hs as Hs'. apply thread_step_inv in Hs' as [->|(x' & k' & push & w2 & Ei' & En & Hex & ->)].
    - rewrite (calm_other n i o w w w' Hs Hinv H). by apply Hmono.
    - rewrite Ei in Ei'. injection Ei' as <- <-. pose proof (queue_step n i o w x k push w2 Hinv Hb Ei En Hex Hx) as Hinv'.
      by rewrite (calm_other _ i o w _ w' Hs Hinv' H). }
  all: apply calm_spawn in H; [|done]; cbn [step] in H.
  { revert H. msimpl. destruct (timers w !! t) as [cb|]; intros [= <-]; [|by apply Hmono].
    apply Hmono. eapply spawn_queue; [exact Hinv| |done..].
    destruct cb; (split; [repeat split; eauto|split; [done|oks; done]]). }
  all: injection H as <-; apply Hmono; eapply spawn_queue; [exact Hinv| |done..].
  all: split; [repeat split; eauto|split; [done|oks; done]].
Qed.
Lemma calm_run_inv ls n w w' :
  queue_inv n w -> n + Z.of_nat (length ls) < 2 ^ 64 -> calm_run ls w = (Ret tt, w') ->
  queue_inv (n + Z.of_nat (length ls)) w'.
Proof.
  revert n w. induction ls as [|l ls IH]; intros n w Hinv Hb H; cbn [calm_run length] in *.
  - injection H as <-. by rewrite Z.add_0_r.
  - unfold mbind, M_bind in H. destruct (calm_step l w) as [[[]| | |] w1] eqn:E; try done.
    replace (n + Z.of_nat (S (length ls))) with (n + 1 + Z.of_nat (length ls)) by lia.
    eapply IH; [eapply calm_inv; [exact Hinv|lia|exact E]|lia|exact H].
Qed.
(** C16: when nothing interrupts [enqueue], nor a swap or clear of the queue, no
    message is left behind: whenever the queue is not empty, the semaphore has a
    unit, or a thread is about to notify it, or a writer has been notified and is about to take the queue; and
    so, when nothing can run any more and the writer waits, the queue is empty. *)
Theorem enqueue_keeps_messages s c a cbs ls w :
  Z.of_nat (length ls) < 2 ^ 64 -> calm_run ls (new_World s c a cbs) = (Ret tt, w) ->
  (m_queue w <> [] -> signal w) /\
  ((forall i x k, threads w !! i = Some (x :: k) -> enabled i x w = false) ->
   m_waiters (m_sem w) <> [] -> m_queue w = []).
Proof.
  intros Hb H. assert (Hinv : queue_inv (0 + Z.of_nat (length ls)) w).
  { eapply calm_run_inv; [|lia|exact H]. constructor; cbn; try done; [constructor|by intros e ?%not_elem_of_nil]. }
  pose proof Hinv as [_ _ _ I3 _ I5 I6]. split; [exact I6|]. intros Hr Hw. destruct (m_queue w) as [|q0 q] eqn:Eq; [done|exfalso].
  destruct I6 as [Hc|(i & k & [Hi|[Hi|[Hi Hn]]])]; [done|specialize (I5 Hw); lia|..]; specialize (Hr i _ _ Hi); try done.
  { cbn [enabled] in Hr. by rewrite (qi_locks _ _ Hinv) in Hr. }
  cbn in Hr. apply bool_decide_eq_false in Hr. by apply Hr.
Qed.
(** The same two messages, sent one after the other. *)
Lemma enqueue_keeps_messages_witness :
  let ls := LStart :: steps 0 7 ++ steps 2 2 ++ [LSend m1; LSend m2] ++ steps 3 2 ++ steps 4 2 in
  let w := snd (calm_run ls client) in m_queue w = [RockSendCtx m1; RockSendCtx m2] /\ signal w.
Proof.
  intros ls w. assert (Hq : m_queue w = [RockSendCtx m1; RockSendCtx m2]) by (by vm_compute). split; [exact Hq|].
  destruct (enqueue_keeps_messages true true false no_callbacks ls w) as [H _].
  - by vm_compute.
  - assert (Hf : fst (calm_run ls client) = Ret tt) by (by vm_compute).
    unfold w. change (new_World true true false no_callbacks) with client.
    destruct (calm_run ls client) as [r w0]. cbn [fst snd] in *. rewrite Hf. reflexivity.
  - apply H. rewrite Hq. discriminate.
Defined.
